(* ===== verification/_CoqProject ===== *)
-Q . S2P
Prelude.v
Numeric.v
Hw.v
Isa.v
IsaCodec.v
Names.v
SectionIr.v
Effect.v
SectionOps.v
Builder.v
SymTable.v
Lowering.v
Layout.v
LayoutFacts.v
Relax.v
RelaxFacts.v
Encoder.v
EncoderFacts.v
Rom.v
RomFacts.v
KernelSpec.v
KernelSpecFacts.v
Float.v
ModelRef.v
ModelRefFacts.v
Sampler.v
XorShift.v
SamplerFacts.v
Router.v
RouterFacts.v
StateModel.v
StateModelFacts.v
StateLowerFacts.v
StateForwardFacts.v
Banking.v
BankingFacts.v
BankMachine.v
BankAuditFacts.v
BankAbiFacts.v
Bpe.v
BpeFacts.v
KnobLattice.v
KnobDelta.v
KnobFacts.v
Refinement.v
RefinementFacts.v
RefinementRunFacts.v
RefinementTheorems.v
KnobResolve.v
KnobResolveFacts.v
RangeCert.v
RangePlan.v
RangeVerify.v
RangeFacts.v
RangePlanFacts.v
RangeStageFacts.v
Store.v
StoreFacts.v
Gc.v
GcFacts.v
GcTheorems.v
Arena.v
ArenaCheck.v
ArenaFacts.v
ArenaPlanFacts.v
ArenaTheorems.v
ArenaTyped.v
