(* ===== verification/Prelude.v ===== *)
(** * A verification library for the gbllm assembler and kernels

    The repository compiles small language models to Game Boy cartridges.  This
    library models, in Rocq, the part that turns assembly sections into a ROM
    image ([src/gbf-asm]) on the machine facts of [src/gbf-hw], and the integer
    semantics that the generated code has to match ([src/gbf-kernel]): the
    ternary kernels, the dense and the stateful integer model and the token
    sampler, with the tokenizer that feeds them ([src/gbf-data]) and the
    compiler stages that plan their accumulators ([src/gbf-codegen]), with an
    independent re-check ([src/gbf-verify]), and their memory.  Around the compiler it models the
    knobs that a compilation may turn ([src/gbf-policy]), the loop that repairs
    a failing one ([src/gbf-codegen/src/refinement_loop.rs]) and the store that
    its artifacts are kept in ([src/gbf-store]).

    ** The program and its model

    The assembler is a pipeline; each stage is a file here, and each stage's
    theorems are stated on the output of the stage before it.

    - [Hw]: memory map, MBC5 write windows, interrupt vectors and header bytes
      of [gbf-hw] ([memory.rs], [mbc5.rs], [interrupts.rs],
      [cartridge_header.rs]).
    - [Isa], [IsaCodec]: operands and instructions of [isa.rs] with their cycle
      costs, byte lengths and encodings; the decoder of [IsaCodec] is the
      specification of the instruction encodings, not code of the repository.
    - [Names]: symbol names and provenance ([symbols.rs], [provenance.rs]).
    - [SectionIr], [Effect], [SectionOps]: sections, their items and privilege
      policy ([section.rs], [interrupt.rs]) and the effect classifier
      ([effect.rs]).
    - [Builder]: the section builder ([builder.rs]) as a state and error monad;
      a failed call returns the state it leaves, as [&mut self] does.
    - [SymTable]: the symbol table and the .sym text ([symbols.rs]).
    - [Lowering]: expansion of pre-layout operations in place ([lowering.rs]);
      the lowering trait is a class, so the drivers are proved for every
      implementation.
    - [Layout], [LayoutFacts]: placement into banks ([layout.rs]).
    - [Relax], [RelaxFacts]: jump relaxation to a fixed point, far-call thunks
      and legalization ([relax.rs]).
    - [Encoder], [EncoderFacts]: bytes of a section ([encoder.rs]).
    - [Rom], [RomFacts]: header, checksums and the image ([rom.rs]).

    The runtime, a client of the builder and of lowering:

    - [Banking]: bank leases on a builder and the MBC5 lowerer of
      [gbf-runtime/src/banking.rs], with its state threaded through the
      lowering driver; [BankingFacts] computes every fragment it returns,
      [BankMachine] runs them on a specification-level machine with the four
      bank registers, [BankAuditFacts] treats the provenance audit and the
      assertion code, [BankAbiFacts] the lease ABI.

    The kernels:

    - [KernelSpec], [KernelSpecFacts]: ternary weights, their two packings and
      the reference product ([spec.rs], [ref_impl.rs]).
    - [Float]: the [f32] and [f64] operations that lowering and sampling use.
    - [ModelRef], [ModelRefFacts]: the dense integer model ([model_ref.rs]).
    - [Sampler], [XorShift], [SamplerFacts]: the top-k sampler ([decode.rs])
      and the running top-k ([state_model_ref.rs]).
    - [Router], [RouterFacts]: the low-rank expert router, in [f32] and in
      fixed point ([state_model_ref.rs]).
    - [StateModel], [StateModelFacts], [StateLowerFacts], [StateForwardFacts]:
      the stateful model with dense or routed blocks and a paged head
      ([state_model_ref.rs]): kernels and ideal semantics, lowering with its
      width checks, and the end-to-end theorems.

    The tokenizer:

    - [Bpe], [BpeFacts]: loading, greedy encoding and byte decoding of
      [gbf-data/src/bpe.rs].

    The range plans:

    - [RangeCert], [RangePlan]: stage 5 of the compiler, which picks for every
      reduction an accumulator (i16, i16 chunks, i32 or renormalisation) and a
      certificate of its bound ([s5/range_plan.rs], [range_plan_v1.rs]).
    - [RangeVerify]: the verifier's re-check of a plan
      ([gbf-verify/src/range_cert/independent.rs]) and its brute-force
      simulation ([brute.rs]).
    - [RangeFacts], [RangePlanFacts], [RangeStageFacts]: what a certificate
      means for a machine that adds the terms, what the choice is minimal for,
      and the stage from its inputs to the re-checked plan.

    Arena planning:

    - [Arena], [ArenaCheck]: stage 9 of the compiler ([gbf-codegen/src/arena.rs]),
      which gives every value, persistent page, overlay member and runtime
      block its bytes in work RAM, save RAM or high RAM: collecting and placing
      the slots, the fourteen address invariants a plan is checked against, and
      its certificate and reports.
    - [ArenaFacts], [ArenaPlanFacts]: ordered maps, what the builders hold, how
      an arena and a memory are filled.
    - [ArenaTheorems], [ArenaTyped]: the theorems on a plan, and concrete plans.

    Knobs and the refinement loop:

    - [KnobLattice], [KnobDelta], [KnobFacts]: the ordered knob values and their
      groups, bounds, locks and overrides, the deltas a repair may ask for, the
      checks that admit one and its application ([gbf-policy/src/compile.rs],
      [repair.rs]); an ordered knob is the class [LawfulKnob], a group of them
      [GroupOrder], and the facts are proved against those interfaces.
    - [KnobResolve], [KnobResolveFacts]: the knobs and locks a profile starts
      with, the runtime budget's validation and the pressure thresholds
      ([compile.rs], [budget.rs], [wram.rs]).
    - [Refinement], [RefinementFacts], [RefinementRunFacts],
      [RefinementTheorems]: the loop that runs the planning stages, admits or
      rejects their proposals and restarts ([refinement_loop.rs]), with its
      report ([repair_report_v1.rs]).  The compiler behind it is the class
      [CompilerPipeline], the source's trait.

    The store:

    - [Store], [StoreFacts]: hashes and their text ([gbf-foundation]), blobs and
      the stage cache over them ([gbf-store/src/blob.rs], [stage_cache.rs]).
    - [Gc], [GcFacts], [GcTheorems]: pin sets, reference readers, the collector
      ([gc.rs], [pinset.rs]) and the integrity checks ([integrity.rs]).  A
      store's directories are two maps; a run of the collector is a step of the
      same state as a put of the cache.

    This file holds outcomes, machine integers, sorting and the tactics that
    every file shares; [Numeric] holds signed integers, slices, sums, rounding
    and the integer square root.

    ** Conventions

    A [Result] is an [outcome]; [Panic] stands for every abort of the thread,
    overflow included (unchecked operators are those of a build with overflow
    checks), and [NoFuel] for an exhausted bound.  Integers are [Z] with the
    width written at each operation; [as] casts are [wrap] and [as_signed].
    [BTreeMap] is [gmap] where only lookups matter and a sorted list of keys
    where the order of iteration does.  [debug_assert!] depends on a
    [BuildProfile], and theorems hold for both profiles unless they say
    otherwise.

    ** What the theorems show

    - Assembling: layout places every section inside its space, without
      overlaps, header and thunk pool untouched ([LayoutFacts]); relaxation
      reaches a fixed point within its hard cap, every relaxed branch lands on
      its target and far calls go through thunks that load the target's bank
      ([RelaxFacts]); the relaxed program always encodes, to the sizes layout
      gave it ([EncoderFacts]); the image holds the bytes of every section at
      its file offset and a header that passes the boot check ([RomFacts]).
    - Policies: no finished section holds an instruction that its privilege
      forbids, leases are balanced, labels unique ([Builder], [SectionOps]);
      lowering keeps the policy and the order ([Lowering]).
    - Banking: wherever the emitted fragments have run, the lowerer's belief,
      the registers and their HRAM shadows agree and the leased bank is
      selected, with no register written while interrupts are on
      ([bank_state_mirrored], by rule induction over [bank_reachable]); the
      audit accepts exactly the lowerer's own writes; a lease is released
      exactly once.
    - Codecs: instruction encodings decode uniquely ([IsaCodec]), both weight
      packings lose nothing ([KernelSpecFacts]), .sym entries round trip
      ([SymTable]), and a text encoded with any accepted vocabulary is the
      unique normal form of its merges and decodes to itself ([BpeFacts]).
    - Arithmetic: on every validated checkpoint the integer forward pass runs
      without overflow or panic in both profiles and equals its mathematical
      definition ([ModelRefFacts]); the generator has full period, the running
      top-k selects the first k of the ranking, both samplers agree, and over
      a period every candidate is drawn in proportion to its weight
      ([SamplerFacts]).  The width checks of the stateful model's lowering
      suffice for an exact pass on every token and saturated state; one expert
      is the dense block, paging and observers change no result
      ([StateForwardFacts]); routing equals its exact quotients within the
      62-bit carriers ([RouterFacts]).
    - Range plans: a certificate verifies exactly when the stage would have
      constructed it, a reduction run under a verified plan never overflows
      its accumulator for any terms within their bounds, the planner keeps the
      first family of the policy's order that certifies, every plan the stage
      returns is certified and passes the independent verifier, and every
      failure it returns is explained by its evidence ([RangeFacts],
      [RangePlanFacts], [RangeStageFacts]).
    - Arenas: in a plan no two slots of a memory overlap, but for members of
      one overlay region, and nothing reaches beyond the memory; every
      materialized value has a slot of its class, lifetime, alias class and
      size, shared exactly within an alias class; persistent pages have their
      aligned pairs; every number fits its type; the stage ends on any input
      and its reports are accepted ([ArenaTheorems], [ArenaTyped]).
    - Refinement: every run of the loop is a sequence of audited steps, each
      accepted repair is admissible for the policy, the bounds and the locks at
      that point, the budgets and counts add up, the loop ends for every
      pipeline whose alternatives run out, and converges when the stages
      succeed after finitely many repairs ([RefinementTheorems]); the
      thresholds it starts from are within the budget, and the
      trace-invariant profile can never change what it observes
      ([KnobResolveFacts]).
    - Store: blobs stay under their hashes whatever happens to the store, a
      cached payload comes back, a collection keeps what the pinned roots reach
      whatever it ends in and removes exactly the rest, bounded collections
      that follow one another remove all of it, and a collection only makes the
      cache forget ([StoreFacts], [GcTheorems]).

    ** Bounds and fuel

    Loops that the code does not bound take fuel that a theorem shows to be
    enough: [place_next_loop] takes one step more than the bank has occupied
    ranges, since each retry skips one of them ([layout_terminates]);
    [allocate_lease_loop] one more than the active leases
    ([allocate_lease_id_fresh]); [relax_loop] the code's own hard cap plus one
    ([relaxation_converges]); [isqrt_loop] 16 or 24 digit pairs, the width of
    its argument; [merge_loop] the length of the chunk, which every merge
    shortens; the halving and doubling loops over chunk lengths 17 turns, one
    more than the width of a [u16]; [chunk_loop] one more than the terms of the
    reduction, and [renorm_tiles] their tile count; [restart_loop] one pass
    more than the global budget, of which every pass spends some; [collect_loop]
    and [verify_loop] the number of hashes that the roots and the blobs of the
    store name, since a hash is queued once.  The inner loop of the refinement
    ([repair_loop]) has no bound in the code: its fuel is a parameter, enough
    when the pipeline's alternatives run out ([refinement_terminates]), and no
    amount is enough for one whose alternatives do not
    ([refinement_may_diverge]).

    ** Parameters

    SHA-256 is the class [Sha256] and the failures of a file system and the order
    of its directories the class [FileSystem]; the only assumption on them is
    that a listing is a permutation, and that a hash has 256 bits
    where a hash is written and read back.  The planning stages are the class
    [CompilerPipeline], the texts of knob values [SerdeJson], the hash of a
    snapshot [SnapshotHash].

    Canonical JSON with SHA-256, which names plans and certificates, is the
    class [RangeHashes] for range plans and, with serde's text of a plan,
    [ArenaEncoding] for arena plans; nothing is assumed of either.

    The regex engine behind [pretokenize] is the class [Pretokenizer]; that its
    chunks concatenate to the text is a hypothesis.
    [tanh], [powi] and [exp2] of the platform are the classes [MathLib] and
    [Exp2]; the theorems that depend on [exp2] assume that [exp2(-0.0) = 1]
    and that the table entries fit a byte ([exp2_ok]).

    ** Not modelled

    [Display] texts of errors and [serde] glue; listings ([listing.rs]) and
    test support; the [f32] reference evaluators, the synthetic checkpoints and
    the probe's quantiles of the models; the assembly kernels of [gbf-kernel]
    ([asm_impl*.rs], which are clients of the builder); the rest of the
    runtime; archives and temporary files of the store; the compiler stages
    that make the inputs of arena planning and the other ones of
    [gbf-codegen], stage 9's cache key and the report schemas, training, emulator, command
    line and workload crates. *)

From Stdlib Require Export ZArith Lia Bool Sorted Ascii.
From Stdlib Require String.
Export (notations) String.
From stdpp Require Export base gmap sets list strings finite pretty sorting.

(** ** Outcomes of Rust computations

    A Rust function that returns [Result<A, E>] becomes a Rocq function into
    [outcome E A].  [Panic] stands for every abort of the thread: a failed
    [expect]/[unwrap], an index out of range, and an arithmetic overflow of an
    unchecked operator (the behaviour of a build with overflow checks; in a
    build without them the operator wraps, so a theorem that excludes [Panic]
    is valid for both).  [NoFuel] is the model's own: a loop whose bound the
    code does not write down ran out of the fuel the model gives it. *)

Inductive outcome (E A : Type) : Type :=
| Ok (a : A)
| Err (e : E)
| Panic
| NoFuel.
Arguments Ok {E A} a.
Arguments Err {E A} e.
Arguments Panic {E A}.
Arguments NoFuel {E A}.

#[export] Instance outcome_eq_dec {E A} `{EqDecision E, EqDecision A} :
  EqDecision (outcome E A).
Proof. solve_decision. Defined.

Definition obind {E A B} (m : outcome E A) (f : A -> outcome E B) : outcome E B :=
  match m with
  | Ok a => f a
  | Err e => Err e
  | Panic => Panic
  | NoFuel => NoFuel
  end.

Definition map_err {E F A} (f : E -> F) (m : outcome E A) : outcome F A :=
  match m with
  | Ok a => Ok a
  | Err e => Err (f e)
  | Panic => Panic
  | NoFuel => NoFuel
  end.

(** [Option::ok_or] and [Option::expect]. *)
Definition ok_or {E A} (o : option A) (e : E) : outcome E A :=
  match o with Some a => Ok a | None => Err e end.
Definition expect {E A} (o : option A) : outcome E A :=
  match o with Some a => Ok a | None => Panic end.

(** An early [return Err(e)] guarded by a condition. *)
Definition guard_err {E} (b : bool) (e : E) : outcome E unit :=
  if b then Err e else Ok tt.

Declare Scope outcome_scope.
Delimit Scope outcome_scope with outcome.
Notation "'let*' x := m 'in' k" := (obind m (fun x => k))
  (at level 10, x pattern, m at level 200, k at level 200)
  : outcome_scope.
Notation "m ';;*' k" := (obind m (fun _ => k))
  (at level 199, right associativity) : outcome_scope.
#[global] Open Scope outcome_scope.
#[global] Open Scope Z_scope.

(** Iterating a fallible step over a list, left to right ([for x in l]). *)
Fixpoint ofold {E A S} (step : S -> A -> outcome E S) (s : S) (l : list A)
    : outcome E S :=
  match l with
  | [] => Ok s
  | x :: l' => let* s' := step s x in ofold step s' l'
  end.

(** [iter.map(f).collect::<Result<Vec<_>, _>>()]. *)
Fixpoint omapM {E A B} (f : A -> outcome E B) (l : list A) : outcome E (list B) :=
  match l with
  | [] => Ok []
  | x :: l' => let* y := f x in let* ys := omapM f l' in Ok (y :: ys)
  end.

(** What an outcome may be: [returns m] excludes [Panic] and [NoFuel]. *)
Definition returns {E A} (m : outcome E A) : Prop :=
  match m with Ok _ | Err _ => True | Panic | NoFuel => False end.

Definition is_ok {E A} (m : outcome E A) : bool :=
  match m with Ok _ => true | _ => false end.

Section outcome_lemmas.
Context {E A B : Type}.
Implicit Types m : outcome E A.

Lemma obind_Ok m (f : A -> outcome E B) b :
  obind m f = Ok b <-> exists a, m = Ok a /\ f a = Ok b.
Proof.
  split.
  - destruct m as [a| | |]; simpl; try discriminate. eauto.
  - intros (a & -> & H). done.
Qed.

Lemma obind_Err m (f : A -> outcome E B) e :
  obind m f = Err e <-> m = Err e \/ exists a, m = Ok a /\ f a = Err e.
Proof.
  split.
  - destruct m as [a| | |]; simpl; try discriminate; eauto.
    intros [= ->]. by left.
  - intros [->|(a & -> & H)]; done.
Qed.

Lemma returns_bind m (f : A -> outcome E B) :
  returns m -> (forall a, m = Ok a -> returns (f a)) -> returns (obind m f).
Proof. destruct m; simpl; auto. Qed.

Lemma map_err_Ok {F} (f : E -> F) m a : map_err f m = Ok a <-> m = Ok a.
Proof. destruct m; simpl; split; congruence. Qed.

Lemma ok_or_Ok (o : option A) (e : E) a : ok_or o e = Ok a <-> o = Some a.
Proof. destruct o; simpl; split; congruence. Qed.

Lemma expect_Ok (o : option A) a : @expect E A o = Ok a <-> o = Some a.
Proof. destruct o; simpl; split; congruence. Qed.

Lemma guard_err_Ok b (e : E) u : guard_err b e = Ok u <-> b = false /\ u = tt.
Proof. destruct b, u; simpl; split; intuition congruence. Qed.

End outcome_lemmas.

(** ** Failures that a computation avoids

    [avoids bad m] says that [m] does not end in a failure in [bad]; the lemmas
    follow the combinators, and the tactic [avoid] applies them down to the
    operations that the hint database [avoid] knows. *)

Inductive failure (E : Type) : Type := F_err (e : E) | F_panic | F_no_fuel.
Arguments F_err {E} e.
Arguments F_panic {E}.
Arguments F_no_fuel {E}.

Definition avoids {E A} (bad : failure E -> Prop) (m : outcome E A) : Prop :=
  match m with
  | Ok _ => True
  | Err e => ~ bad (F_err e)
  | Panic => ~ bad F_panic
  | NoFuel => ~ bad F_no_fuel
  end.

Section avoids_lemmas.
Context {E : Type} (bad : failure E -> Prop).

Lemma avoids_bind {A B} (m : outcome E A) (k : A -> outcome E B) :
  avoids bad m -> (forall x, m = Ok x -> avoids bad (k x)) -> avoids bad (obind m k).
Proof. destruct m; simpl; auto. Qed.

Lemma avoids_ofold {A S} (step : S -> A -> outcome E S) l : forall s,
  (forall s x, x ∈ l -> avoids bad (step s x)) -> avoids bad (ofold step s l).
Proof.
  induction l as [|x l IH]; intros s H; [done|]. apply avoids_bind; [apply H; by left|].
  intros s' _. apply IH. intros t y Hy. apply H. by right.
Qed.

Lemma avoids_omapM {A B} (f : A -> outcome E B) l :
  (forall x, x ∈ l -> avoids bad (f x)) -> avoids bad (omapM f l).
Proof.
  induction l as [|x l IH]; intros H; [done|]. apply avoids_bind; [apply H; by left|].
  intros y _. apply avoids_bind; [|done]. apply IH. intros z Hz. apply H. by right.
Qed.

Lemma avoids_map_err {F A} (f : F -> E) (m : outcome F A) :
  avoids (fun x => bad (match x with F_err e => F_err (f e) | F_panic => F_panic
                        | F_no_fuel => F_no_fuel end)) m ->
  avoids bad (map_err f m).
Proof. by destruct m. Qed.

Lemma avoids_ok_or {A} (o : option A) e : ~ bad (F_err e) -> avoids bad (ok_or o e).
Proof. by destruct o. Qed.

Lemma avoids_expect {A} (o : option A) : ~ bad F_panic -> avoids bad (expect o).
Proof. by destruct o. Qed.

Lemma avoids_guard_err b e : ~ bad (F_err e) -> avoids bad (guard_err b e).
Proof. by destruct b. Qed.
End avoids_lemmas.

Create HintDb avoid.
#[export] Hint Resolve avoids_ok_or avoids_expect avoids_guard_err : avoid.

Section omapM_lemmas.
Context {E A B : Type}.

Lemma omapM_length (f : A -> outcome E B) l l' :
  omapM f l = Ok l' -> length l' = length l.
Proof.
  revert l'; induction l as [|x l IH]; intros l'; simpl.
  - intros [= <-]. done.
  - rewrite obind_Ok. intros (y & _ & H). rewrite obind_Ok in H.
    destruct H as (ys & Hys & [= <-]). simpl. f_equal. auto.
Qed.

Lemma omapM_Forall2 (f : A -> outcome E B) l l' :
  omapM f l = Ok l' <-> Forall2 (fun x y => f x = Ok y) l l'.
Proof.
  revert l'; induction l as [|x l IH]; intros l'; simpl.
  - split; [intros [= <-]; constructor | inversion 1; done].
  - rewrite obind_Ok. setoid_rewrite obind_Ok. split.
    + intros (y & Hy & ys & Hys & [= <-]). constructor; [done | by apply IH].
    + inversion 1; subst. eexists; split; [done|].
      eexists; split; [by apply IH | done].
Qed.
End omapM_lemmas.

(** Inverts every [... = Ok _] hypothesis built from the combinators above. *)
Ltac inv_ok :=
  repeat match goal with
  | H : obind _ _ = Ok _ |- _ =>
      let x := fresh "x" in let Hx := fresh "Hx" in
      apply obind_Ok in H; destruct H as (x & Hx & H)
  | H : map_err _ _ = Ok _ |- _ => apply map_err_Ok in H
  | H : ok_or _ _ = Ok _ |- _ => apply ok_or_Ok in H
  | H : expect _ = Ok _ |- _ => apply expect_Ok in H
  | H : guard_err _ _ = Ok _ |- _ => apply guard_err_Ok in H; destruct H as [H ->]
  | H : Ok _ = Ok _ |- _ => injection H as H; try subst
  | H : Err _ = Ok _ |- _ => discriminate H
  | H : Panic = Ok _ |- _ => discriminate H
  | H : NoFuel = Ok _ |- _ => discriminate H
  end.

(** The invariant rule for a [for] loop: a property of the state and of the
    elements already visited that every step preserves. *)
Lemma ofold_inv {E A S} (P : list A -> S -> Prop) (step : S -> A -> outcome E S) :
  forall (l : list A) done s s',
  P done s ->
  (forall pre x post t t', done ++ l = pre ++ x :: post ->
     P pre t -> step t x = Ok t' -> P (pre ++ [x]) t') ->
  ofold step s l = Ok s' -> P (done ++ l) s'.
Proof.
  induction l as [|x l IH]; intros done s s' H0 Hstep; simpl.
  - intros [= <-]. by rewrite app_nil_r.
  - intros H. inv_ok.
    replace (done ++ x :: l) with ((done ++ [x]) ++ l) by by rewrite <- app_assoc.
    eapply IH; [| |exact H].
    + eapply (Hstep done x l); eauto.
    + intros pre y post t t' Heq. apply (Hstep pre y post).
      rewrite <- Heq, <- app_assoc. done.
Qed.

Lemma ofold_inv' {E A S} (P : S -> Prop) (step : S -> A -> outcome E S) l s s' :
  P s -> (forall x t t', In x l -> P t -> step t x = Ok t' -> P t') ->
  ofold step s l = Ok s' -> P s'.
Proof.
  revert s; induction l as [|x l IH]; intros s H0 Hstep; simpl.
  - by intros [= <-].
  - intros H. inv_ok. eapply IH; [| |exact H].
    + eapply Hstep; eauto. by left.
    + intros y t t' Hy. apply Hstep. by right.
Qed.

(** A fold of checks that succeeds has checked every element. *)
Lemma ofold_unit_Ok {E A} (f : A -> outcome E unit) l u : forall s,
  ofold (fun _ x => f x) s l = Ok u -> forall x, x ∈ l -> f x = Ok tt.
Proof.
  induction l as [|y l IH]; intros s H x Hx; [by apply elem_of_nil in Hx|]. cbn [ofold] in H.
  apply obind_Ok in H as ([] & Hy & H). apply elem_of_cons in Hx as [->|Hx]; [done|]. by eapply IH.
Qed.

Lemma ofold_app {E A S} (step : S -> A -> outcome E S) s l1 l2 :
  ofold step s (l1 ++ l2) = obind (ofold step s l1) (fun t => ofold step t l2).
Proof.
  revert s; induction l1 as [|x l1 IH]; intros s; simpl; [done|].
  destruct (step s x); simpl; auto.
Qed.

(** ** Machine integers

    A w-bit unsigned integer is a [Z]; the bound of its type is written out at
    each operation.  [uadd], [usub] and [umul] are the operators [+], [-] and
    [*], which panic on overflow; [wrap] is an [as] cast to a narrower type or
    a [wrapping_] operation. *)

Abbreviation U8 := 256 (only parsing).
Abbreviation U16 := 65536 (only parsing).
Abbreviation U32 := 4294967296 (only parsing).

Definition uadd {E} (m a b : Z) : outcome E Z :=
  if a + b <? m then Ok (a + b) else Panic.
Definition usub {E} (a b : Z) : outcome E Z :=
  if b <=? a then Ok (a - b) else Panic.
Definition umul {E} (m a b : Z) : outcome E Z :=
  if a * b <? m then Ok (a * b) else Panic.
Definition wrap (m x : Z) : Z := x mod m.

(** [checked_add] and [T::try_from]. *)
Definition checked_add (m a b : Z) : option Z :=
  if a + b <? m then Some (a + b) else None.
Definition try_from_u (m x : Z) : option Z :=
  if (0 <=? x) && (x <? m) then Some x else None.

(** [saturating_add] and [saturating_mul]. *)
Definition saturating_add (m a b : Z) : Z := Z.min (a + b) (m - 1).
Definition saturating_mul (m a b : Z) : Z := Z.min (a * b) (m - 1).

(** [u16::to_le_bytes]. *)
Definition le_bytes16 (v : Z) : list Z := [v mod 256; v / 256].

(** [i8 as u8] and back: two's complement. *)
Definition i8_as_u8 (x : Z) : Z := x mod 256.
Definition u8_as_i8 (x : Z) : Z := if x <? 128 then x else x - 256.

(** [u32::div_ceil], which does not overflow. *)
Definition div_ceil (a b : Z) : Z :=
  if a mod b =? 0 then a / b else a / b + 1.

(** Lengths are [usize]; no Rust collection reaches 2^63 elements. *)
Definition zlen {A} (l : list A) : Z := Z.of_nat (length l).

Lemma avoids_uadd {E} (bad : failure E -> Prop) m a b : ~ bad F_panic -> avoids bad (uadd m a b).
Proof. unfold uadd. by case_match. Qed.
Lemma avoids_usub {E} (bad : failure E -> Prop) a b : ~ bad F_panic -> avoids bad (usub a b).
Proof. unfold usub. by case_match. Qed.
Lemma avoids_umul {E} (bad : failure E -> Prop) m a b : ~ bad F_panic -> avoids bad (umul m a b).
Proof. unfold umul. by case_match. Qed.
#[export] Hint Resolve avoids_uadd avoids_usub avoids_umul : avoid.

(** The bad failures are recognised by [discriminate] or [done]. *)
Ltac avoid_leaf := solve [done | eauto with avoid | simpl; intuition (discriminate || eauto)].
Ltac avoid :=
  intros;
  lazymatch goal with
  | |- avoids _ (obind _ _) => apply avoids_bind; [avoid | intros ? ?; avoid]
  | |- avoids _ (ofold _ _ _) => apply avoids_ofold; intros; avoid
  | |- avoids _ (omapM _ _) => apply avoids_omapM; intros; avoid
  | |- avoids _ (match ?x with _ => _ end) =>
      first [avoid_leaf | destruct x; simpl; avoid]
  | |- _ => try avoid_leaf
  end.

Section integer_lemmas.
Context {E : Type}.

Lemma uadd_Ok m a b c : @uadd E m a b = Ok c <-> a + b < m /\ c = a + b.
Proof.
  unfold uadd. destruct (Z.ltb_spec (a + b) m); split.
  - intros [= <-]. auto.
  - intros [_ ->]. done.
  - discriminate.
  - lia.
Qed.

Lemma usub_Ok a b c : @usub E a b = Ok c <-> b <= a /\ c = a - b.
Proof.
  unfold usub. destruct (Z.leb_spec b a); split.
  - intros [= <-]. auto.
  - intros [_ ->]. done.
  - discriminate.
  - lia.
Qed.

Lemma umul_Ok m a b c : @umul E m a b = Ok c <-> a * b < m /\ c = a * b.
Proof.
  unfold umul. destruct (Z.ltb_spec (a * b) m); split.
  - intros [= <-]. auto.
  - intros [_ ->]. done.
  - discriminate.
  - lia.
Qed.

Lemma checked_add_Some m a b c : checked_add m a b = Some c <-> a + b < m /\ c = a + b.
Proof.
  unfold checked_add. destruct (Z.ltb_spec (a + b) m); split.
  - intros [= <-]. auto.
  - intros [_ ->]. done.
  - discriminate.
  - lia.
Qed.

Lemma try_from_u_Some m x y : try_from_u m x = Some y <-> 0 <= x < m /\ y = x.
Proof.
  unfold try_from_u.
  destruct (Z.leb_spec 0 x), (Z.ltb_spec x m); simpl; split;
    first [discriminate | intros [= <-] | intros [? ->] | idtac];
    try lia; try done; auto.
Qed.

Lemma div_ceil_spec a b : 0 < b -> 0 <= a ->
  a <= div_ceil a b * b < a + b.
Proof.
  intros Hb Ha. unfold div_ceil.
  pose proof (Z.div_mod a b ltac:(lia)). pose proof (Z.mod_pos_bound a b Hb).
  destruct (Z.eqb_spec (a mod b) 0); nia.
Qed.

Lemma div_ceil_mono a a' b : 0 < b -> a <= a' -> div_ceil a b <= div_ceil a' b.
Proof.
  intros Hb Ha. unfold div_ceil.
  pose proof (Z.div_mod a b ltac:(lia)). pose proof (Z.mod_pos_bound a b Hb).
  pose proof (Z.div_mod a' b ltac:(lia)). pose proof (Z.mod_pos_bound a' b Hb).
  destruct (Z.eqb_spec (a mod b) 0), (Z.eqb_spec (a' mod b) 0); nia.
Qed.

Lemma div_ceil_nonneg a b : 0 < b -> 0 <= a -> 0 <= div_ceil a b.
Proof. intros. pose proof (div_ceil_spec a b ltac:(done) ltac:(done)). nia. Qed.

Lemma zlen_nonneg {A} (l : list A) : 0 <= zlen l.
Proof. unfold zlen. lia. Qed.

Lemma zlen_app {A} (l1 l2 : list A) : zlen (l1 ++ l2) = zlen l1 + zlen l2.
Proof. unfold zlen. rewrite length_app. lia. Qed.

Lemma zlen_cons {A} (x : A) l : zlen (x :: l) = zlen l + 1.
Proof. unfold zlen. simpl. lia. Qed.
End integer_lemmas.

(** [inv_ok] extended with the arithmetic operators; the facts it leaves are
    linear and for [lia]. *)
Ltac inv_arith :=
  repeat (progress inv_ok ||
  match goal with
  | H : uadd _ _ _ = Ok _ |- _ => apply uadd_Ok in H; destruct H as [? H]
  | H : usub _ _ = Ok _ |- _ => apply usub_Ok in H; destruct H as [? H]
  | H : umul _ _ _ = Ok _ |- _ => apply umul_Ok in H; destruct H as [? H]
  | H : checked_add _ _ _ = Some _ |- _ => apply checked_add_Some in H; destruct H as [? H]
  | H : try_from_u _ _ = Some _ |- _ => apply try_from_u_Some in H; destruct H as [? H]
  end).

(** ** Stable sorting ([slice::sort_by_key], [sort]) *)

Section sort_by.
Context {A : Type} (le : A -> A -> bool).

Fixpoint insert_by (x : A) (l : list A) : list A :=
  match l with
  | [] => [x]
  | y :: l' => if le x y then x :: l else y :: insert_by x l'
  end.

Definition sort_by (l : list A) : list A := foldr insert_by [] l.

Lemma insert_by_perm x l : insert_by x l ≡ₚ x :: l.
Proof.
  induction l as [|y l IH]; simpl; [done|].
  destruct (le x y); [done|]. rewrite IH. apply perm_swap.
Qed.

Lemma sort_by_perm l : sort_by l ≡ₚ l.
Proof.
  induction l as [|x l IH]; simpl; [done|].
  rewrite insert_by_perm. by rewrite IH.
Qed.

Lemma elem_of_sort_by x l : x ∈ sort_by l <-> x ∈ l.
Proof. by rewrite sort_by_perm. Qed.

Context (le_total : forall x y, le x y = true \/ le y x = true)
        (le_trans : forall x y z, le x y = true -> le y z = true -> le x z = true).

Lemma insert_by_sorted x l :
  StronglySorted (fun a b => le a b = true) l ->
  StronglySorted (fun a b => le a b = true) (insert_by x l).
Proof.
  induction l as [|y l IH]; simpl; intros H.
  - repeat constructor.
  - inversion_clear H as [|? ? Hs Hall]. destruct (le x y) eqn:Hxy.
    + constructor; [by constructor|]. constructor; [done|].
      eapply Forall_impl; [exact Hall|]. intros z Hz. by eapply le_trans.
    + constructor; [by apply IH|]. rewrite insert_by_perm. constructor; [|done].
      destruct (le_total x y); congruence.
Qed.

Lemma sort_by_sorted l : StronglySorted (fun a b => le a b = true) (sort_by l).
Proof. induction l; simpl; [constructor | by apply insert_by_sorted]. Qed.
End sort_by.

(** Sorting commutes with a map that keeps the order relation. *)
Lemma sort_by_map {A B} (leA : A -> A -> bool) (leB : B -> B -> bool) (g : A -> B) l :
  (forall x y, leB (g x) (g y) = leA x y) ->
  sort_by leB (map g l) = map g (sort_by leA l).
Proof.
  intros Hg.
  assert (Hi : forall x l', insert_by leB (g x) (map g l') = map g (insert_by leA x l')).
  { intros x l'. induction l' as [|y l' IH]; simpl; [done|].
    rewrite Hg. destruct (leA x y); simpl; congruence. }
  induction l as [|x l IH]; simpl; [done|]. by rewrite IH, Hi.
Qed.

(** Sorting two lists whose elements are related and compare alike keeps them
    related position by position. *)
Lemma sort_by_Forall2 {A B} (leA : A -> A -> bool) (leB : B -> B -> bool) (R : A -> B -> Prop) l l' :
  (forall x y x' y', R x x' -> R y y' -> leA x y = leB x' y') ->
  Forall2 R l l' -> Forall2 R (sort_by leA l) (sort_by leB l').
Proof.
  intros Hle. induction 1 as [|x y l l' Hxy Hl IH]; [constructor|].
  change (Forall2 R (insert_by leA x (sort_by leA l)) (insert_by leB y (sort_by leB l'))).
  induction IH as [|x1 y1 m m' Hxy1 Hm IHm]; simpl; [by repeat constructor|].
  rewrite (Hle x x1 y y1) by done. destruct (leB y y1); by repeat constructor.
Qed.

(** Two strictly sorted permutations are equal. *)
Lemma sorted_perm_eq {A} (le : A -> A -> bool) l l' :
  (forall x y, x ∈ l -> y ∈ l -> le x y = true -> le y x = true -> x = y) ->
  StronglySorted (fun a b => le a b = true) l -> StronglySorted (fun a b => le a b = true) l' ->
  l ≡ₚ l' -> l = l'.
Proof.
  intros Hanti Hl. revert l'. induction Hl as [|x l Hl IH Hx]; intros l' Hl' Hp.
  - symmetry in Hp. by apply Permutation_nil_r in Hp as ->.
  - destruct l' as [|y l']; [by apply Permutation_nil_r in Hp|].
    inversion_clear Hl' as [|? ? Hl2 Hy]. rewrite Forall_forall in Hx, Hy.
    assert (x = y) as ->.
    { assert (y ∈ x :: l) as [->|Hyl]%elem_of_cons by (rewrite Hp; by left); [done|].
      assert (x ∈ y :: l') as [->|Hxl]%elem_of_cons by (rewrite <- Hp; by left); [done|].
      apply Hanti; [by left | by right | by apply Hx | by apply Hy]. }
    f_equal. apply IH; [|done|by eapply Permutation_cons_inv].
    intros u v Hu Hv. apply Hanti; by right.
Qed.

(** ** Strings

    A Rocq [string] is a Rust string of characters below U+0100, one [ascii]
    per character; its order is the order of Rust's [str]. *)

Definition ascii_code (c : ascii) : Z := Z.of_N (N_of_ascii c).

Definition is_ascii_lowercase (c : ascii) : bool :=
  (97 <=? ascii_code c) && (ascii_code c <=? 122).
Definition is_ascii_digit (c : ascii) : bool :=
  (48 <=? ascii_code c) && (ascii_code c <=? 57).

(** [char::is_whitespace] on characters below U+0100. *)
Definition is_whitespace (c : ascii) : bool :=
  ((9 <=? ascii_code c) && (ascii_code c <=? 13)) || (ascii_code c =? 32)
  || (ascii_code c =? 133) || (ascii_code c =? 160).

(** [str::split] at a character: the segments between its occurrences. *)
Fixpoint str_split (sep : ascii) (s : string) : list string :=
  match s with
  | EmptyString => [EmptyString]
  | String c s' =>
      if Ascii.eqb c sep then EmptyString :: str_split sep s'
      else match str_split sep s' with
           | seg :: segs => String c seg :: segs
           | [] => [String c EmptyString]
           end
  end.

(** [str::split_once] at the first character satisfying a predicate. *)
Fixpoint str_split_once (p : ascii -> bool) (s : string) : option (string * string) :=
  match s with
  | EmptyString => None
  | String c s' =>
      if p c then Some (EmptyString, s')
      else match str_split_once p s' with
           | Some (l, r) => Some (String c l, r)
           | None => None
           end
  end.

Fixpoint str_trim_start (s : string) : string :=
  match s with
  | String c s' => if is_whitespace c then str_trim_start s' else s
  | EmptyString => EmptyString
  end.
Definition str_rev (s : string) : string :=
  String.string_of_list_ascii (reverse (String.list_ascii_of_string s)).
(** [str::trim]. *)
Definition str_trim (s : string) : string :=
  str_rev (str_trim_start (str_rev (str_trim_start s))).

Fixpoint str_forall (p : ascii -> bool) (s : string) : bool :=
  match s with
  | EmptyString => true
  | String c s' => p c && str_forall p s'
  end.

(** Decimal [Display] of an unsigned integer, and [{:+}] of a signed one. *)
Definition dec (n : Z) : string := pretty (Z.to_N n).
Definition dec_signed (n : Z) : string :=
  if 0 <=? n then "+" +:+ dec n else "-" +:+ dec (- n).

(** Upper-case hexadecimal, [{:X}], and [{:0wX}]. *)
Definition hex_digit (d : Z) : ascii :=
  ascii_of_N (Z.to_N (if d <? 10 then 48 + d else 55 + d)).
Fixpoint hex_go (fuel : nat) (n : Z) (acc : string) : string :=
  match fuel with
  | O => acc
  | S fuel' =>
      let acc' := String (hex_digit (n mod 16)) acc in
      if n / 16 =? 0 then acc' else hex_go fuel' (n / 16) acc'
  end.
Fixpoint str_repeat (c : ascii) (n : nat) : string :=
  match n with O => EmptyString | S n' => String c (str_repeat c n') end.
Definition pad_left (c : ascii) (w : nat) (s : string) : string :=
  str_repeat c (w - String.length s) +:+ s.
(** Four digits hold every [u16]. *)
Definition hex_u16 (w : nat) (n : Z) : string := pad_left "0" w (hex_go 4 n "").

(** [{:<w}]. *)
Definition pad_right (w : nat) (s : string) : string :=
  s +:+ str_repeat " " (w - String.length s).

(** [u16::from_str_radix(_, 16)]: an optional plus sign, then at least one
    hexadecimal digit of either case, without overflow. *)
Definition hex_value (c : ascii) : option Z :=
  let n := ascii_code c in
  if (48 <=? n) && (n <=? 57) then Some (n - 48)
  else if (65 <=? n) && (n <=? 70) then Some (n - 55)
  else if (97 <=? n) && (n <=? 102) then Some (n - 87)
  else None.
Fixpoint parse_hex_go (m acc : Z) (s : string) : option Z :=
  match s with
  | EmptyString => Some acc
  | String c s' =>
      match hex_value c with
      | None => None
      | Some d => if acc * 16 + d <? m then parse_hex_go m (acc * 16 + d) s' else None
      end
  end.
Definition from_str_radix16 (m : Z) (s : string) : option Z :=
  match s with
  | EmptyString => None
  | String c s' =>
      if Ascii.eqb c "+" then
        match s' with EmptyString => None | _ => parse_hex_go m 0 s' end
      else parse_hex_go m 0 s
  end.

(** The order of strings. *)
Lemma string_leb_total a b : String.leb a b = true \/ String.leb b a = true.
Proof. unfold String.leb. rewrite (String.compare_antisym b). destruct (String.compare _ _); simpl; auto. Qed.

Lemma ascii_compare_trans_lt a b c :
  Ascii.compare a b = Lt -> Ascii.compare b c = Lt -> Ascii.compare a c = Lt.
Proof. unfold Ascii.compare. rewrite !N.compare_lt_iff. lia. Qed.

Lemma string_leb_trans a : forall b c,
  String.leb a b = true -> String.leb b c = true -> String.leb a c = true.
Proof.
  unfold String.leb. induction a as [|x a IH]; intros [|y b] [|z c]; simpl; try done.
  destruct (Ascii.compare x y) eqn:Hxy, (Ascii.compare y z) eqn:Hyz; try done;
    repeat match goal with
    | H : Ascii.compare _ _ = Eq |- _ => apply Ascii.compare_eq_iff in H; subst
    end; rewrite ?Hxy, ?Hyz; try done.
  - replace (Ascii.compare z z) with Eq; [apply IH|]. unfold Ascii.compare. by rewrite N.compare_refl.
  - by rewrite (ascii_compare_trans_lt _ _ _ Hxy Hyz).
Qed.

Lemma string_leb_antisym a b : String.leb a b = true -> String.leb b a = true -> a = b.
Proof.
  unfold String.leb. rewrite (String.compare_antisym a b).
  destruct (String.compare b a) eqn:Hc; [|done..]. by apply String.compare_eq_iff in Hc.
Qed.

(** Sorting what is sorted. *)
Lemma sort_by_id {A} (le : A -> A -> bool) l : StronglySorted (fun a b => le a b = true) l -> sort_by le l = l.
Proof.
  induction 1 as [|x l Hl IH Hx]; [done|]. unfold sort_by in *. cbn [foldr]. rewrite IH.
  destruct Hx as [|y l Hy]; [done|]. cbn [insert_by]. by rewrite Hy.
Qed.

(** [str::is_empty], [str::parse] of an unsigned number (an optional plus sign
    and at least one digit, without overflow), and [str::strip_prefix]. *)
Definition str_is_empty (s : string) : bool :=
  match s with EmptyString => true | _ => false end.
Fixpoint parse_dec_go (m acc : Z) (s : string) : option Z :=
  match s with
  | EmptyString => Some acc
  | String c s' =>
      if is_ascii_digit c then
        let acc' := acc * 10 + (ascii_code c - 48) in
        if acc' <? m then parse_dec_go m acc' s' else None
      else None
  end.
Definition parse_unsigned (m : Z) (s : string) : option Z :=
  match s with
  | EmptyString => None
  | String c s' =>
      if Ascii.eqb c "+" then
        match s' with EmptyString => None | _ => parse_dec_go m 0 s' end
      else parse_dec_go m 0 s
  end.
Fixpoint strip_prefix (p s : string) : option string :=
  match p, s with
  | EmptyString, _ => Some s
  | String c p', String d s' => if Ascii.eqb c d then strip_prefix p' s' else None
  | _, EmptyString => None
  end.

(** An inclusive range pattern [lo..=hi]. *)
Definition in_range (lo hi x : Z) : bool := (lo <=? x) && (x <=? hi).

Lemma in_range_true lo hi x : in_range lo hi x = true <-> lo <= x <= hi.
Proof.
  unfold in_range. rewrite andb_true_iff, Z.leb_le, Z.leb_le. done.
Qed.
Lemma in_range_false lo hi x : in_range lo hi x = false <-> x < lo \/ hi < x.
Proof.
  unfold in_range. rewrite andb_false_iff, Z.leb_gt, Z.leb_gt. lia.
Qed.

(** Case analysis on every range test of the goal. *)
Ltac destruct_ranges :=
  repeat match goal with
  | |- context [in_range ?a ?b ?x] =>
      let E := fresh "E" in destruct (in_range a b x) eqn:E;
      [apply in_range_true in E | apply in_range_false in E]
  end.
