(* ===== verification/Numeric.v ===== *)
(** * Machine integers, slices and accumulating loops

    Shared by the components that compute with fixed-width numbers and flat
    arrays: signed widths with overflow checks and truncating casts, checked
    sums, Rust slices, a map that threads a state, and round-half-away
    division. *)

From S2P Require Import Prelude.

(** ** Signed widths

    A signed [w]-bit integer is a [Z] in [[-M, M)] with [M = 2^(w-1)]. *)

Abbreviation U64 := 18446744073709551616 (only parsing).

Definition I8 : Z := 2 ^ 7.
Definition I16 : Z := 2 ^ 15.
Definition I24 : Z := 2 ^ 23.
Definition I32 : Z := 2 ^ 31.
Definition I64 : Z := 2 ^ 63.

Definition fits (M x : Z) : bool := (- M <=? x) && (x <? M).

(** An operator whose result must fit the signed width (overflow panics). *)
Definition ichk {E} (M x : Z) : outcome E Z := if fits M x then Ok x else Panic.

(** The [as] cast to a signed width: the low bits, sign-extended. *)
Definition as_signed (M x : Z) : Z := (x + M) mod (2 * M) - M.

(** [iN::try_from]. *)
Definition try_from_i (M x : Z) : option Z := if fits M x then Some x else None.

Lemma fits_iff M x : fits M x = true <-> - M <= x < M.
Proof. unfold fits. lia. Qed.

Lemma ichk_fits {E} M x : - M <= x < M -> @ichk E M x = Ok x.
Proof. intros H. unfold ichk. by rewrite (proj2 (fits_iff M x) H). Qed.

Lemma ichk_Ok {E} M x y : @ichk E M x = Ok y <-> - M <= x < M /\ y = x.
Proof.
  unfold ichk. destruct (fits M x) eqn:H; [apply fits_iff in H | split; [done|]].
  - split; [intros [= <-]; split; [apply H | done] | by intros [_ ->]].
  - intros [H' _]. apply fits_iff in H'. congruence.
Qed.

Lemma as_signed_range M x : 0 < M -> - M <= as_signed M x < M.
Proof. intros HM. unfold as_signed. pose proof (Z.mod_pos_bound (x + M) (2 * M)). lia. Qed.

Lemma as_signed_id M x : - M <= x < M -> as_signed M x = x.
Proof. intros H. unfold as_signed. rewrite Z.mod_small; lia. Qed.

Lemma as_signed_eqm M x : 0 < M -> exists k, as_signed M x = x + k * (2 * M).
Proof.
  intros HM. exists (- ((x + M) / (2 * M))). unfold as_signed. rewrite Z.mod_eq by lia. nia.
Qed.

(** ** Build profiles

    [debug_assert!] is checked in a build with debug assertions only; what the
    other checks do does not depend on the profile. *)

Class BuildProfile := debug_assertions : bool.

Definition debug_assert {E} `{BuildProfile} (b : bool) : outcome E unit :=
  if debug_assertions && negb b then Panic else Ok tt.

Lemma debug_assert_true {E} `{BuildProfile} b : b = true -> @debug_assert E _ b = Ok tt.
Proof. intros ->. unfold debug_assert. by destruct debug_assertions. Qed.

(** [assert!]. *)
Definition rust_assert {E} (b : bool) : outcome E unit := if b then Ok tt else Panic.

Lemma rust_assert_true {E} b : b = true -> @rust_assert E b = Ok tt.
Proof. by intros ->. Qed.

(** ** Sums *)

Fixpoint zsum (l : list Z) : Z :=
  match l with [] => 0 | x :: l' => x + zsum l' end.

(** [iter.sum()] at a signed width: every partial sum must fit. *)
Definition isum {E} (M : Z) (init : Z) (l : list Z) : outcome E Z :=
  ofold (fun acc x => ichk M (acc + x)) init l.

Lemma zsum_app l1 l2 : zsum (l1 ++ l2) = zsum l1 + zsum l2.
Proof. induction l1; simpl; lia. Qed.

Lemma zsum_bound B l : Forall (fun x => Z.abs x <= B) l -> Z.abs (zsum l) <= B * zlen l.
Proof.
  induction 1 as [|x l Hx _ IH]; cbn [zsum]; [unfold zlen; simpl; lia|].
  rewrite zlen_cons, Z.mul_add_distr_l. lia.
Qed.

Lemma zsum_scale c l : zsum (map (fun x => c * x) l) = c * zsum l.
Proof. induction l; simpl; lia. Qed.

(** Partial sums stay within [|init| + B * length]. *)
Lemma isum_total {E} M B init l :
  Forall (fun x => Z.abs x <= B) l -> Z.abs init + B * zlen l < M ->
  @isum E M init l = Ok (init + zsum l).
Proof.
  intros Hl. revert init. induction Hl as [|x l Hx Hl IH]; intros init HM.
  - cbn. f_equal. lia.
  - rewrite zlen_cons, Z.mul_add_distr_l in HM. pose proof (zlen_nonneg l). unfold isum. cbn [ofold].
    rewrite ichk_fits by nia. cbn [obind]. fold (@isum E M (init + x) l).
    rewrite IH by lia. simpl. f_equal. lia.
Qed.

(** ** Slices *)

(** [l[start..end]], which panics when the range is not inside. *)
Definition slice {E A} (l : list A) (start end_ : Z) : outcome E (list A) :=
  if (start <=? end_) && (end_ <=? zlen l)
  then Ok (take (Z.to_nat (end_ - start)) (drop (Z.to_nat start) l))
  else Panic.

(** [l[start..start + new.len()].copy_from_slice(&new)]. *)
Definition copy_slice {E A} (l : list A) (start : Z) (new : list A) : outcome E (list A) :=
  if start + zlen new <=? zlen l
  then Ok (take (Z.to_nat start) l ++ new ++ drop (Z.to_nat start + length new) l)
  else Panic.

(** [l[idx] = v]. *)
Definition set_index {E A} (l : list A) (idx : Z) (v : A) : outcome E (list A) :=
  if idx <? zlen l then Ok (<[Z.to_nat idx := v]> l) else Panic.

(** [l[idx]]; a negative index (a huge [usize] after a cast) panics too. *)
Definition index {E A} (l : list A) (idx : Z) : outcome E A :=
  if 0 <=? idx then match l !! Z.to_nat idx with Some v => Ok v | None => Panic end else Panic.

Lemma zlen_lt {A} (l : list A) k : (k < length l)%nat <-> Z.of_nat k < zlen l.
Proof. unfold zlen. lia. Qed.

Lemma index_Some {E A} (l : list A) idx v : 0 <= idx -> l !! Z.to_nat idx = Some v ->
  @index E A l idx = Ok v.
Proof. unfold index. intros H ->. by rewrite (proj2 (Z.leb_le _ _) H). Qed.

Lemma index_total {E A} (l : list A) idx : 0 <= idx < zlen l ->
  exists v, @index E A l idx = Ok v /\ l !! Z.to_nat idx = Some v.
Proof.
  intros H. destruct (l !! Z.to_nat idx) as [v|] eqn:Hl.
  - exists v. split; [apply index_Some; [lia | done] | done].
  - apply lookup_ge_None in Hl. unfold zlen in H. lia.
Qed.

Lemma copy_slice_Ok {E A} (l : list A) s new l' : 0 <= s -> @copy_slice E A l s new = Ok l' ->
  length l' = length l /\ s + zlen new <= zlen l
  /\ forall k, l' !! k = if decide (s <= Z.of_nat k < s + zlen new)
                         then new !! (k - Z.to_nat s)%nat else l !! k.
Proof.
  unfold copy_slice, zlen. intros Hs H. destruct (Z.leb_spec (s + Z.of_nat (length new)) (Z.of_nat (length l)));
    [|done]. injection H as <-.
  assert (Ht : length (take (Z.to_nat s) l) = Z.to_nat s) by (rewrite length_take; lia).
  split; [rewrite !length_app, Ht, length_drop; lia|]. split; [lia|]. intros k.
  destruct (decide (k < Z.to_nat s)%nat) as [Hk|Hk].
  - rewrite lookup_app_l by (rewrite Ht; lia). rewrite lookup_take_lt by lia.
    by rewrite decide_False by lia.
  - rewrite lookup_app_r by (rewrite Ht; lia). rewrite Ht.
    destruct (decide (k - Z.to_nat s < length new)%nat) as [Hk'|Hk'].
    + rewrite lookup_app_l by lia. by rewrite decide_True by lia.
    + rewrite lookup_app_r by lia. rewrite lookup_drop, decide_False by lia. f_equal. lia.
Qed.

Lemma slice_Ok {E A} (l : list A) s e l' : 0 <= s -> @slice E A l s e = Ok l' ->
  s <= e <= zlen l /\ zlen l' = e - s
  /\ forall k, Z.of_nat k < e - s -> l' !! k = l !! (Z.to_nat s + k)%nat.
Proof.
  unfold slice. intros Hs H. destruct (Z.leb_spec s e), (Z.leb_spec e (zlen l)); try done.
  injection H as <-. unfold zlen in *. split; [lia|]. split.
  - rewrite length_take, length_drop. lia.
  - intros k Hk. rewrite lookup_take_lt by lia. by rewrite lookup_drop.
Qed.

Lemma set_index_Ok {E A} (l : list A) i v l' : 0 <= i -> @set_index E A l i v = Ok l' ->
  l' = <[Z.to_nat i := v]> l /\ i < zlen l.
Proof. unfold set_index. intros Hi. destruct (Z.ltb_spec i (zlen l)); [|done]. by intros [= <-]. Qed.

Lemma set_index_total {E A} (l : list A) i v : 0 <= i < zlen l ->
  @set_index E A l i v = Ok (<[Z.to_nat i := v]> l).
Proof. unfold set_index. intros Hi. by rewrite (proj2 (Z.ltb_lt _ _)) by lia. Qed.

Lemma slice_total {E A} (l : list A) s e : s <= e <= zlen l -> exists l', @slice E A l s e = Ok l'.
Proof.
  intros [H1 H2]. unfold slice. rewrite (proj2 (Z.leb_le _ _)) by done.
  rewrite (proj2 (Z.leb_le _ _)) by done. by eexists.
Qed.

Lemma copy_slice_total {E A} (l : list A) s new : s + zlen new <= zlen l ->
  exists l', @copy_slice E A l s new = Ok l'.
Proof. intros H. unfold copy_slice. rewrite (proj2 (Z.leb_le _ _)) by done. by eexists. Qed.

(** ** Bytes, least significant first

    [to_le_bytes] of an [n]-byte unsigned integer, and of a signed one as the
    two's complement bits. *)
Fixpoint le_bytes (n : nat) (v : Z) : list Z :=
  match n with O => [] | S n' => v mod 256 :: le_bytes n' (v / 256) end.

Fixpoint le_value (bytes : list Z) : Z :=
  match bytes with [] => 0 | b :: bytes' => b + 256 * le_value bytes' end.

Definition signed_le_bytes (n : nat) (v : Z) : list Z := le_bytes n (v mod 256 ^ Z.of_nat n).

Lemma le_bytes_len n v : length (le_bytes n v) = n.
Proof. revert v. induction n as [|n IH]; intros v; simpl; [done|]. by rewrite IH. Qed.

Lemma le_value_bytes n v : 0 <= v < 256 ^ Z.of_nat n -> le_value (le_bytes n v) = v.
Proof.
  revert v. induction n as [|n IH]; intros v Hv; [simpl in *; lia|].
  rewrite Nat2Z.inj_succ, Z.pow_succ_r in Hv by lia. cbn [le_bytes le_value]. rewrite IH.
  - pose proof (Z.div_mod v 256 ltac:(lia)). lia.
  - split; [apply Z.div_pos; lia | apply Z.div_lt_upper_bound; lia].
Qed.

(** Two's complement bytes determine the value. *)
Lemma signed_le_value n v : (0 < n)%nat -> - (256 ^ Z.of_nat n / 2) <= v < 256 ^ Z.of_nat n / 2 ->
  as_signed (256 ^ Z.of_nat n / 2) (le_value (signed_le_bytes n v)) = v.
Proof.
  intros Hn Hv. assert (Hp : 0 < 256 ^ Z.of_nat n) by (apply Z.pow_pos_nonneg; lia).
  unfold signed_le_bytes. rewrite le_value_bytes by (apply Z.mod_pos_bound; lia).
  set (M := 256 ^ Z.of_nat n / 2) in *. assert (H2 : 256 ^ Z.of_nat n = 2 * M).
  { unfold M. rewrite <- Z_div_exact_2; [done | lia|]. destruct n as [|n]; [lia|].
    rewrite Nat2Z.inj_succ, Z.pow_succ_r by lia. replace (256 * _) with (128 * 256 ^ Z.of_nat n * 2) by lia.
    apply Z_mod_mult. }
  rewrite H2. unfold as_signed. rewrite Zplus_mod_idemp_l. rewrite Z.mod_small; lia.
Qed.

(** ** Loops that produce a list and update a state *)

Fixpoint omap_acc {E A B S} (f : S -> A -> outcome E (B * S)) (s : S) (l : list A)
    : outcome E (list B * S) :=
  match l with
  | [] => Ok ([], s)
  | x :: l' =>
      let* (y, s1) := f s x in
      let* (ys, s2) := omap_acc f s1 l' in
      Ok (y :: ys, s2)
  end.

(** A stateful computation whose value does not depend on the state. *)
Definition yields {E A S} (f : S -> outcome E (A * S)) (v : A) : Prop :=
  forall s, exists s', f s = Ok (v, s').

Lemma omap_acc_yields {E A B S} (f : S -> A -> outcome E (B * S)) (g : A -> B) l :
  Forall (fun x => yields (fun s => f s x) (g x)) l -> yields (fun s => omap_acc f s l) (map g l).
Proof.
  induction 1 as [|x l Hx _ IH]; intros s; [by eexists|].
  destruct (Hx s) as (s1 & H1). destruct (IH s1) as (s2 & H2).
  exists s2. simpl. rewrite H1. simpl. by rewrite H2.
Qed.

Lemma omapM_total {E A B} (f : A -> outcome E B) (g : A -> B) l :
  Forall (fun x => f x = Ok (g x)) l -> omapM f l = Ok (map g l).
Proof. induction 1 as [|x l Hx _ IH]; [done|]. simpl. rewrite Hx. simpl. by rewrite IH. Qed.

(** ** Rounding division *)

(** Division of magnitudes rounded to nearest, ties away from zero. *)
Definition round_half_away (a b : Z) : Z := Z.sgn a * ((2 * Z.abs a + b) / (2 * b)).

(** It is the nearest integer to [a / b]. *)
Lemma round_half_away_nearest a b : 0 < b -> 2 * Z.abs (b * round_half_away a b - a) <= b.
Proof.
  intros Hb. unfold round_half_away.
  pose proof (Z.div_mod (2 * Z.abs a + b) (2 * b) ltac:(lia)) as H.
  pose proof (Z.mod_pos_bound (2 * Z.abs a + b) (2 * b) ltac:(lia)) as Hm.
  set (q := (2 * Z.abs a + b) / (2 * b)) in *. destruct (Z.lt_trichotomy a 0) as [?|[->|?]].
  - rewrite Z.sgn_neg by lia. nia.
  - simpl. lia.
  - rewrite Z.sgn_pos by lia. nia.
Qed.

(** Restoring a sign after a computation on magnitudes. *)
Definition with_sign (neg : bool) (m : Z) : Z := if neg then - m else m.

Lemma with_sign_sgn a m : 0 <= m -> (a = 0 -> m = 0) -> with_sign (a <? 0) m = Z.sgn a * m.
Proof.
  intros Hm H0. unfold with_sign. destruct (Z.ltb_spec a 0).
  - rewrite Z.sgn_neg by lia. lia.
  - destruct (Z.eq_dec a 0) as [->|]; [simpl; by rewrite H0 | rewrite Z.sgn_pos by lia; lia].
Qed.

(** ** Integer square root

    The digit-by-digit loop shared by [isqrt_u32] and [isqrt_u48]: [bit] runs
    down the powers of four; the fuel is the number of binary digit pairs. *)
Fixpoint isqrt_loop {E} (fuel : nat) (rem root bit : Z) : outcome E Z :=
  if bit =? 0 then Ok root
  else match fuel with
       | O => NoFuel
       | S fuel' =>
           let* s := uadd U64 root bit in
           if s <=? rem then
             let* rem' := usub rem s in
             let* root' := uadd U64 (Z.shiftr root 1) bit in
             isqrt_loop fuel' rem' root' (Z.shiftr bit 2)
           else isqrt_loop fuel' rem (Z.shiftr root 1) (Z.shiftr bit 2)
       end.

(** The invariant: [s] is the square root of the digit pairs consumed so far. *)
Lemma isqrt_loop_correct {E} (k : nat) : forall s n, (k <= 31)%nat -> 0 <= s -> 0 <= n < 2 ^ 62 ->
  s * s * 4 ^ Z.of_nat k <= n < (s + 1) * (s + 1) * 4 ^ Z.of_nat k ->
  @isqrt_loop E k (n - s * s * 4 ^ Z.of_nat k) (s * 4 ^ Z.of_nat k)
    (match k with O => 0 | S k' => 4 ^ Z.of_nat k' end) = Ok (Z.sqrt n).
Proof.
  induction k as [|k IH]; intros s n Hk31 Hs Hn Hb.
  - simpl in *. rewrite Z.mul_1_r in *. f_equal. symmetry. apply Z.sqrt_unique. lia.
  - assert (Hp : 0 < 4 ^ Z.of_nat k) by (apply Z.pow_pos_nonneg; lia).
    assert (Hpow : 4 ^ Z.of_nat (S k) = 4 * 4 ^ Z.of_nat k)
      by (rewrite Nat2Z.inj_succ, Z.pow_succ_r by lia; done).
    assert (Hbit : Z.shiftr (4 ^ Z.of_nat k) 2 = match k with O => 0 | S k' => 4 ^ Z.of_nat k' end).
    { rewrite Z.shiftr_div_pow2 by lia. change (2 ^ 2) with 4. destruct k as [|k']; [done|].
      rewrite Nat2Z.inj_succ, Z.pow_succ_r, Z.mul_comm, Z.div_mul by lia. done. }
    assert (Hhalf : Z.shiftr (s * 4 ^ Z.of_nat (S k)) 1 = 2 * s * 4 ^ Z.of_nat k).
    { rewrite Z.shiftr_div_pow2, Hpow by lia. change (2 ^ 1) with 2.
      replace (s * (4 * 4 ^ Z.of_nat k)) with (2 * s * 4 ^ Z.of_nat k * 2) by ring.
      by rewrite Z.div_mul. }
    assert (Hk62 : 4 ^ Z.of_nat k <= 2 ^ 60).
    { replace (2 ^ 60) with (4 ^ 30) by reflexivity. apply Z.pow_le_mono_r; lia. }
    assert (Hs4 : s * 4 ^ Z.of_nat (S k) <= n + 4 ^ Z.of_nat (S k)) by nia.
    cbn [isqrt_loop]. rewrite (proj2 (Z.eqb_neq _ _)) by lia. rewrite Hhalf, Hbit. rewrite Hpow in *.
    set (p := 4 ^ Z.of_nat k) in *. unfold uadd at 1. rewrite (proj2 (Z.ltb_lt _ _)) by lia.
    cbn [obind]. destruct (Z.leb_spec (s * (4 * p) + p) (n - s * s * (4 * p))) as [Hle|Hlt].
    + unfold usub. rewrite (proj2 (Z.leb_le _ _)) by lia. cbn [obind]. unfold uadd.
      rewrite (proj2 (Z.ltb_lt _ _)) by nia. cbn [obind].
      replace (n - s * s * (4 * p) - (s * (4 * p) + p)) with (n - (2 * s + 1) * (2 * s + 1) * p) by ring.
      replace (2 * s * p + p) with ((2 * s + 1) * p) by ring. unfold p. apply IH; fold p; nia.
    + replace (n - s * s * (4 * p)) with (n - 2 * s * (2 * s) * p) by ring.
      unfold p. apply IH; fold p; nia.
Qed.

(** ** Ranges and enumeration *)

(** [0..n] as integers. *)
Definition zrange (n : Z) : list Z := map Z.of_nat (seq 0 (Z.to_nat n)).

Lemma zrange_elem n k : k ∈ zrange n <-> 0 <= k < n.
Proof.
  unfold zrange. rewrite list_elem_of_In, in_map_iff. split.
  - intros (x & <- & Hx%in_seq). lia.
  - intros Hk. exists (Z.to_nat k). split; [lia|]. apply in_seq. lia.
Qed.

Lemma zrange_length n : length (zrange n) = Z.to_nat n.
Proof. unfold zrange. by rewrite length_map, length_seq. Qed.

Lemma zrange_zlen n : 0 <= n -> zlen (zrange n) = n.
Proof. intros H. unfold zlen. rewrite zrange_length. lia. Qed.

Lemma zrange_lookup n k : (k < Z.to_nat n)%nat -> zrange n !! k = Some (Z.of_nat k).
Proof. intros H. unfold zrange. rewrite list_lookup_fmap, lookup_seq_lt by done. done. Qed.

Lemma Forall_zrange (P : Z -> Prop) n : Forall P (zrange n) <-> forall k, 0 <= k < n -> P k.
Proof. rewrite Forall_forall. setoid_rewrite zrange_elem. done. Qed.

Lemma zrange_succ n : 0 <= n -> zrange (n + 1) = zrange n ++ [n].
Proof.
  intros Hn. unfold zrange. replace (Z.to_nat (n + 1)) with (Z.to_nat n + 1)%nat by lia.
  rewrite seq_app, map_app. simpl. by rewrite Z2Nat.id.
Qed.

Lemma lookup_repeat_Some {A} (x y : A) n k : repeat x n !! k = Some y <-> y = x /\ (k < n)%nat.
Proof.
  revert k. induction n as [|n IH]; intros [|k]; simpl.
  - split; [done | lia].
  - split; [done | lia].
  - split; [intros [= ->]; split; [done|lia] | by intros [-> _]].
  - rewrite IH. split; intros [? ?]; split; done || lia.
Qed.

(** The invariant rule of a [for] loop over [0..n]. *)
Lemma ofold_zrange_inv {E S} (P : Z -> S -> Prop) (step : S -> Z -> outcome E S) s s' n : 0 <= n -> P 0 s ->
  (forall k t t', 0 <= k < n -> P k t -> step t k = Ok t' -> P (k + 1) t') ->
  ofold step s (zrange n) = Ok s' -> P n s'.
Proof.
  intros Hn H0. revert n Hn s'. apply (natlike_ind (fun n => forall s', (_ -> (_ -> P n s')))).
  - intros s' _ [= <-]. done.
  - intros n Hn IH s' Hstep H. unfold Z.succ in H. rewrite zrange_succ, ofold_app in H by done.
    apply obind_Ok in H as (t & Ht & H). simpl in H. apply obind_Ok in H as (t' & Ht' & [= <-]).
    apply (Hstep n t t'); [lia | | done]. apply IH; [|done]. intros k u u' Hk. apply Hstep. lia.
Qed.

(** A [for] loop over [0..n] whose every turn succeeds and keeps an invariant. *)
Lemma ofold_zrange {E S} (P : Z -> S -> Prop) (step : S -> Z -> outcome E S) s n : 0 <= n -> P 0 s ->
  (forall k t, 0 <= k < n -> P k t -> exists t', step t k = Ok t' /\ P (k + 1) t') ->
  exists s', ofold step s (zrange n) = Ok s' /\ P n s'.
Proof.
  intros Hn H0 Hstep. revert n Hn Hstep. apply (natlike_ind (fun n => _ -> _)).
  - intros _. by exists s.
  - intros n Hn IH Hstep. destruct IH as (t & Ht & Hp); [intros k t Hk; apply Hstep; lia|].
    destruct (Hstep n t) as (t' & Ht' & Hp'); [lia | done|]. exists t'. split; [|done].
    unfold Z.succ. by rewrite zrange_succ, ofold_app, Ht by done; simpl; rewrite Ht'.
Qed.

(** [iter().enumerate()]. *)
Definition enumerate {A} (l : list A) : list (Z * A) := zip (zrange (zlen l)) l.

Lemma enumerate_elem {A} (l : list A) i x : (i, x) ∈ enumerate l ->
  0 <= i < zlen l /\ l !! Z.to_nat i = Some x.
Proof.
  unfold enumerate. intros [k Hk]%list_elem_of_lookup. apply lookup_zip_with_Some in Hk.
  destruct Hk as (a & b & [= <- <-] & Ha & Hb). pose proof (lookup_lt_Some _ _ _ Hb) as Hlt.
  rewrite zrange_lookup in Ha by (unfold zlen; lia). injection Ha as <-.
  rewrite Nat2Z.id. unfold zlen. split; [lia | done].
Qed.

Lemma enumerate_length {A} (l : list A) : length (enumerate l) = length l.
Proof. unfold enumerate. rewrite length_zip_with, zrange_length. unfold zlen. lia. Qed.

(** ** Maxima

    [i] is the first index of a maximum of [l]. *)
Record first_max (l : list Z) (i : nat) (v : Z) : Prop := {
  fm_at : l !! i = Some v;
  fm_max : forall j w, l !! j = Some w -> w <= v;
  fm_first : forall j w, (j < i)%nat -> l !! j = Some w -> w < v;
}.

Lemma first_max_app l l' i v : first_max l i v -> Forall (fun w => w <= v) l' -> first_max (l ++ l') i v.
Proof.
  intros [Hi Hm Hf] Hl'. rewrite Forall_forall in Hl'. constructor.
  - rewrite lookup_app_l; [done|]. by eapply lookup_lt_Some.
  - intros j w Hj. apply lookup_app_Some in Hj as [Hj|[_ Hj]]; [by eapply Hm|].
    apply Hl'. by eapply list_elem_of_lookup_2.
  - intros j w Hji Hj. pose proof (lookup_lt_Some _ _ _ Hi).
    rewrite lookup_app_l in Hj by lia. by eapply Hf.
Qed.

Lemma first_max_snoc l i v w : first_max l i v -> v < w -> first_max (l ++ [w]) (length l) w.
Proof.
  intros [Hi Hm Hf] Hw. constructor.
  - rewrite lookup_app_r by lia. by rewrite Nat.sub_diag.
  - intros j u Hj. apply lookup_app_Some in Hj as [Hj|[_ Hj]]; [apply Hm in Hj; lia|].
    apply list_lookup_singleton_Some in Hj as [_ <-]. lia.
  - intros j u Hjl Hj. rewrite lookup_app_l in Hj by lia. apply Hm in Hj. lia.
Qed.

Lemma first_max_unique l i v i' v' : first_max l i v -> first_max l i' v' -> i = i' /\ v = v'.
Proof.
  intros [Hi Hm Hf] [Hi' Hm' Hf']. pose proof (Hm _ _ Hi'). pose proof (Hm' _ _ Hi).
  assert (v = v') as -> by lia. split; [|done].
  destruct (Nat.lt_trichotomy i i') as [Hlt|[->|Hlt]]; [|done|].
  - pose proof (Hf' _ _ Hlt Hi). lia.
  - pose proof (Hf _ _ Hlt Hi'). lia.
Qed.
