(* ===== verification/Hw.v ===== *)
(** * Game Boy hardware facts ([gbf-hw/src])

    The CPU memory map ([memory.rs]), the MBC5 write windows ([mbc5.rs]), the
    interrupt vectors ([interrupts.rs]) and the typed cartridge-header bytes
    ([cartridge_header.rs]) that the assembler builds on. *)

From S2P Require Import Prelude.

(** ** memory.rs *)

Definition ROM_BANK0_BASE : Z := 0x0000.
Definition ROM_BANK0_END : Z := 0x3FFF.
Definition ROM_SWITCHABLE_BASE : Z := 0x4000.
Definition ROM_SWITCHABLE_END : Z := 0x7FFF.
Definition VRAM_BASE : Z := 0x8000.
Definition VRAM_END : Z := 0x9FFF.
Definition SRAM_BASE : Z := 0xA000.
Definition SRAM_END : Z := 0xBFFF.
Definition WRAM0_BASE : Z := 0xC000.
Definition WRAM0_END : Z := 0xCFFF.
Definition WRAMX_BASE : Z := 0xD000.
Definition WRAMX_END : Z := 0xDFFF.
Definition ECHO_RAM_BASE : Z := 0xE000.
Definition ECHO_RAM_END : Z := 0xFDFF.
Definition OAM_BASE : Z := 0xFE00.
Definition OAM_END : Z := 0xFE9F.
Definition UNMAPPED_BASE : Z := 0xFEA0.
Definition UNMAPPED_END : Z := 0xFEFF.
Definition IO_BASE : Z := 0xFF00.
Definition IO_END : Z := 0xFF7F.
Definition HRAM_BASE : Z := 0xFF80.
Definition HRAM_END : Z := 0xFFFE.
Definition IE_REG : Z := 0xFFFF.

Inductive MemoryRegion :=
| Region_RomBank0 | Region_RomSwitchable | Region_Vram | Region_Sram
| Region_Wram0 | Region_WramX | Region_EchoRam | Region_Oam | Region_Unmapped
| Region_Io | Region_Hram | Region_InterruptEnable.
#[export] Instance MemoryRegion_eq_dec : EqDecision MemoryRegion.
Proof. solve_decision. Defined.

(** The match of the source is exhaustive on [u16]; its last arm is [IE_REG]. *)
Definition classify (addr : Z) : MemoryRegion :=
  if in_range ROM_BANK0_BASE ROM_BANK0_END addr then Region_RomBank0
  else if in_range ROM_SWITCHABLE_BASE ROM_SWITCHABLE_END addr then Region_RomSwitchable
  else if in_range VRAM_BASE VRAM_END addr then Region_Vram
  else if in_range SRAM_BASE SRAM_END addr then Region_Sram
  else if in_range WRAM0_BASE WRAM0_END addr then Region_Wram0
  else if in_range WRAMX_BASE WRAMX_END addr then Region_WramX
  else if in_range ECHO_RAM_BASE ECHO_RAM_END addr then Region_EchoRam
  else if in_range OAM_BASE OAM_END addr then Region_Oam
  else if in_range UNMAPPED_BASE UNMAPPED_END addr then Region_Unmapped
  else if in_range IO_BASE IO_END addr then Region_Io
  else if in_range HRAM_BASE HRAM_END addr then Region_Hram
  else Region_InterruptEnable.

Definition is_rom_bank0 (addr : Z) : bool := bool_decide (classify addr = Region_RomBank0).
Definition is_rom_switchable (addr : Z) : bool :=
  bool_decide (classify addr = Region_RomSwitchable).
Definition is_vram (addr : Z) : bool := bool_decide (classify addr = Region_Vram).
Definition is_sram_window (addr : Z) : bool := bool_decide (classify addr = Region_Sram).
Definition is_wram (addr : Z) : bool :=
  match classify addr with Region_Wram0 | Region_WramX => true | _ => false end.
Definition is_oam (addr : Z) : bool := bool_decide (classify addr = Region_Oam).
Definition is_io (addr : Z) : bool := bool_decide (classify addr = Region_Io).
Definition is_hram (addr : Z) : bool := bool_decide (classify addr = Region_Hram).

(** ** mbc5.rs *)

Definition MBC5_RAMG_BASE : Z := 0x0000.
Definition MBC5_RAMG_END : Z := 0x1FFF.
Definition MBC5_BANK1_BASE : Z := 0x2000.
Definition MBC5_BANK1_END : Z := 0x2FFF.
Definition MBC5_BANK2_BASE : Z := 0x3000.
Definition MBC5_BANK2_END : Z := 0x3FFF.
Definition MBC5_RAMB_BASE : Z := 0x4000.
Definition MBC5_RAMB_END : Z := 0x5FFF.
Definition MBC5_RESERVED_BASE : Z := 0x6000.
Definition MBC5_RESERVED_END : Z := 0x7FFF.

Definition MBC5_RAM_ENABLE_VALUE : Z := 0x0A.
Definition MBC5_RAM_DISABLE_VALUE : Z := 0x00.

Inductive HwMbcRegisterClass := Hw_Ramg | Hw_Bank1 | Hw_Bank2 | Hw_Ramb | Hw_Reserved.

Definition classify_mbc_write_address (addr : Z) : option HwMbcRegisterClass :=
  if in_range MBC5_RAMG_BASE MBC5_RAMG_END addr then Some Hw_Ramg
  else if in_range MBC5_BANK1_BASE MBC5_BANK1_END addr then Some Hw_Bank1
  else if in_range MBC5_BANK2_BASE MBC5_BANK2_END addr then Some Hw_Bank2
  else if in_range MBC5_RAMB_BASE MBC5_RAMB_END addr then Some Hw_Ramb
  else if in_range MBC5_RESERVED_BASE MBC5_RESERVED_END addr then Some Hw_Reserved
  else None.

(** The 9-bit ROM bank number the two bank registers select. *)
Definition rom_bank_number (bank1 bank2 : Z) : Z :=
  Z.lor (Z.shiftl (Z.land bank2 1) 8) bank1.

(** ** interrupts.rs *)

Definition INT_VECTOR_VBLANK : Z := 0x0040.
Definition INT_VECTOR_LCD_STAT : Z := 0x0048.
Definition INT_VECTOR_TIMER : Z := 0x0050.
Definition INT_VECTOR_SERIAL : Z := 0x0058.
Definition INT_VECTOR_JOYPAD : Z := 0x0060.

Inductive InterruptSource :=
| Int_VBlank | Int_LcdStat | Int_Timer | Int_Serial | Int_Joypad.

Definition vector_for (source : InterruptSource) : Z :=
  match source with
  | Int_VBlank => INT_VECTOR_VBLANK
  | Int_LcdStat => INT_VECTOR_LCD_STAT
  | Int_Timer => INT_VECTOR_TIMER
  | Int_Serial => INT_VECTOR_SERIAL
  | Int_Joypad => INT_VECTOR_JOYPAD
  end.

(** ** cartridge_header.rs *)

Definition NINTENDO_LOGO : list Z :=
  [0xCE; 0xED; 0x66; 0x66; 0xCC; 0x0D; 0x00; 0x0B; 0x03; 0x73; 0x00; 0x83; 0x00; 0x0C; 0x00; 0x0D;
   0x00; 0x08; 0x11; 0x1F; 0x88; 0x89; 0x00; 0x0E; 0xDC; 0xCC; 0x6E; 0xE6; 0xDD; 0xDD; 0xD9; 0x99;
   0xBB; 0xBB; 0x67; 0x63; 0x6E; 0x0E; 0xEC; 0xCC; 0xDD; 0xDC; 0x99; 0x9F; 0xBB; 0xB9; 0x33; 0x3E].

Inductive MbcType := Mbc5 | Mbc5Ram | Mbc5RamBattery.
Definition MbcType_header_byte (t : MbcType) : Z :=
  match t with Mbc5 => 0x19 | Mbc5Ram => 0x1A | Mbc5RamBattery => 0x1B end.

Inductive RomSize :=
| Rom_Kib32 | Rom_Kib64 | Rom_Kib128 | Rom_Kib256 | Rom_Kib512
| Rom_Mib1 | Rom_Mib2 | Rom_Mib4 | Rom_Mib8.
Definition RomSize_header_byte (s : RomSize) : Z :=
  match s with
  | Rom_Kib32 => 0x00 | Rom_Kib64 => 0x01 | Rom_Kib128 => 0x02
  | Rom_Kib256 => 0x03 | Rom_Kib512 => 0x04 | Rom_Mib1 => 0x05
  | Rom_Mib2 => 0x06 | Rom_Mib4 => 0x07 | Rom_Mib8 => 0x08
  end.
Definition RomSize_bank_count (s : RomSize) : Z :=
  match s with
  | Rom_Kib32 => 2 | Rom_Kib64 => 4 | Rom_Kib128 => 8
  | Rom_Kib256 => 16 | Rom_Kib512 => 32 | Rom_Mib1 => 64
  | Rom_Mib2 => 128 | Rom_Mib4 => 256 | Rom_Mib8 => 512
  end.
Definition RomSize_bytes (s : RomSize) : Z := RomSize_bank_count s * 16 * 1024.
Definition RomSize_kib (s : RomSize) : Z := Z.shiftl 32 (RomSize_header_byte s).

Inductive RamSize := Ram_None | Ram_Kib8 | Ram_Kib32 | Ram_Kib128 | Ram_Kib64.
Definition RamSize_header_byte (s : RamSize) : Z :=
  match s with
  | Ram_None => 0x00 | Ram_Kib8 => 0x02 | Ram_Kib32 => 0x03
  | Ram_Kib128 => 0x04 | Ram_Kib64 => 0x05
  end.

Inductive DestinationCode := Dest_Japan | Dest_Overseas.
Definition DestinationCode_header_byte (d : DestinationCode) : Z :=
  match d with Dest_Japan => 0x00 | Dest_Overseas => 0x01 end.

(** ** Lemmas *)

(** An address is in the ROM window exactly when the memory map says so. *)
Lemma classify_rom addr : 0 <= addr ->
  (classify addr = Region_RomBank0 \/ classify addr = Region_RomSwitchable) <-> addr < 0x8000.
Proof.
  intros H0. unfold classify.
  destruct_ranges;
  unfold ROM_BANK0_BASE, ROM_BANK0_END, ROM_SWITCHABLE_BASE, ROM_SWITCHABLE_END,
    VRAM_BASE, VRAM_END, SRAM_BASE, SRAM_END, WRAM0_BASE, WRAM0_END, WRAMX_BASE, WRAMX_END,
    ECHO_RAM_BASE, ECHO_RAM_END, OAM_BASE, OAM_END, UNMAPPED_BASE, UNMAPPED_END,
    IO_BASE, IO_END, HRAM_BASE, HRAM_END in *;
  split; intros; first [lia | by auto | destruct_or?; discriminate].
Qed.

Lemma classify_mbc_rom addr : 0 <= addr ->
  is_Some (classify_mbc_write_address addr) <-> addr < 0x8000.
Proof.
  intros H0. unfold classify_mbc_write_address.
  destruct_ranges;
  unfold MBC5_RAMG_BASE, MBC5_RAMG_END, MBC5_BANK1_BASE, MBC5_BANK1_END, MBC5_BANK2_BASE,
    MBC5_BANK2_END, MBC5_RAMB_BASE, MBC5_RAMB_END, MBC5_RESERVED_BASE, MBC5_RESERVED_END in *;
  split; intros H'; try lia; eauto. destruct H'; discriminate.
Qed.

Lemma RomSize_bytes_pos s : 0 < RomSize_bytes s.
Proof. destruct s; reflexivity. Qed.
