(* ===== verification/Isa.v ===== *)
(** * Typed LR35902 instructions ([gbf-asm/src/isa.rs], [cycle_model.rs])

    The instruction type, its operand classes, its static cycle cost and byte
    length, and [Instr_describe], the single table of encodings and mnemonics.
    The second half is the encoding theory: a decoder written from the
    opcode map and the proof that it inverts the table. *)

From S2P Require Import Prelude.

(** ** Operands *)

Inductive Reg8 := Reg8_A | Reg8_B | Reg8_C | Reg8_D | Reg8_E | Reg8_H | Reg8_L.
Inductive Reg16 := Reg16_BC | Reg16_DE | Reg16_HL | Reg16_SP | Reg16_AF.
Inductive Cond := Cond_NZ | Cond_Z | Cond_NC | Cond_C.

(** [BitIndex(u8)]; [BitIndex_new] is its only constructor in the source. *)
Record BitIndex := MkBitIndex { BitIndex_get : Z }.
Definition BitIndex_new (value : Z) : option BitIndex :=
  if value <? 8 then Some (MkBitIndex value) else None.

Inductive RstVector :=
| Rst_V00 | Rst_V08 | Rst_V10 | Rst_V18 | Rst_V20 | Rst_V28 | Rst_V30 | Rst_V38.
Definition RstVector_addr (v : RstVector) : Z :=
  match v with
  | Rst_V00 => 0x00 | Rst_V08 => 0x08 | Rst_V10 => 0x10 | Rst_V18 => 0x18
  | Rst_V20 => 0x20 | Rst_V28 => 0x28 | Rst_V30 => 0x30 | Rst_V38 => 0x38
  end.
Definition RstVector_new (addr : Z) : option RstVector :=
  match addr with
  | 0x00 => Some Rst_V00 | 0x08 => Some Rst_V08 | 0x10 => Some Rst_V10
  | 0x18 => Some Rst_V18 | 0x20 => Some Rst_V20 | 0x28 => Some Rst_V28
  | 0x30 => Some Rst_V30 | 0x38 => Some Rst_V38
  | _ => None
  end.

Definition HIGH_MEMORY_START : Z := 0xFF00.
Record DirectAddr := MkDirectAddr { DirectAddr_get : Z }.
Definition DirectAddr_new (addr : Z) : option DirectAddr :=
  if addr <? HIGH_MEMORY_START then Some (MkDirectAddr addr) else None.

Record HighDirectOffset := HighDirectOffset_new { HighDirectOffset_get : Z }.
(** [0xFF00 + offset as u16]; the sum of a [u8] never leaves [u16]. *)
Definition HighDirectOffset_absolute_addr (o : HighDirectOffset) : Z :=
  0xFF00 + HighDirectOffset_get o.

Inductive Reg16Pair := Pair_BC | Pair_DE | Pair_HL | Pair_AF.
Definition Reg16Pair_try_from (r : Reg16) : outcome Reg16 Reg16Pair :=
  match r with
  | Reg16_BC => Ok Pair_BC | Reg16_DE => Ok Pair_DE | Reg16_HL => Ok Pair_HL
  | Reg16_AF => Ok Pair_AF | Reg16_SP => Err r
  end.
Inductive Reg16Data := Data_BC | Data_DE | Data_HL | Data_SP.
Definition Reg16Data_try_from (r : Reg16) : outcome Reg16 Reg16Data :=
  match r with
  | Reg16_BC => Ok Data_BC | Reg16_DE => Ok Data_DE | Reg16_HL => Ok Data_HL
  | Reg16_SP => Ok Data_SP | Reg16_AF => Err r
  end.
Inductive Reg16Stack := Stack_BC | Stack_DE | Stack_HL | Stack_AF.
Definition Reg16Stack_try_from (r : Reg16) : outcome Reg16 Reg16Stack :=
  match r with
  | Reg16_BC => Ok Stack_BC | Reg16_DE => Ok Stack_DE | Reg16_HL => Ok Stack_HL
  | Reg16_AF => Ok Stack_AF | Reg16_SP => Err r
  end.
Inductive Reg16Addr := Addr_BC | Addr_DE | Addr_Hli | Addr_Hld.

Inductive Operand8Mode :=
| Mode8_Reg | Mode8_Imm | Mode8_HlIndirect | Mode8_Direct | Mode8_HighDirect | Mode8_HighRegC.
Inductive Operand16Mode := Mode16_Reg | Mode16_Imm | Mode16_Sp | Mode16_SpPlus.
Inductive Operand8 :=
| Op8_Reg (r : Reg8) | Op8_Imm (imm : Z) | Op8_HlIndirect
| Op8_Direct (addr : DirectAddr) | Op8_HighDirect (off : HighDirectOffset) | Op8_HighRegC.
Definition Operand8_mode (o : Operand8) : Operand8Mode :=
  match o with
  | Op8_Reg _ => Mode8_Reg
  | Op8_Imm _ => Mode8_Imm
  | Op8_HlIndirect => Mode8_HlIndirect
  | Op8_Direct _ => Mode8_Direct
  | Op8_HighDirect _ => Mode8_HighDirect
  | Op8_HighRegC => Mode8_HighRegC
  end.
Inductive Operand16 :=
| Op16_RegPair (r : Reg16Pair) | Op16_Imm (imm : Z) | Op16_Sp | Op16_SpPlus (off : Z).
Definition Operand16_mode (o : Operand16) : Operand16Mode :=
  match o with
  | Op16_RegPair _ => Mode16_Reg
  | Op16_Imm _ => Mode16_Imm
  | Op16_Sp => Mode16_Sp
  | Op16_SpPlus _ => Mode16_SpPlus
  end.

Inductive AluSrc8 := Alu_Reg (r : Reg8) | Alu_HlIndirect | Alu_Imm (imm : Z).
Definition AluSrc8_byte_len (s : AluSrc8) : Z :=
  match s with Alu_Reg _ | Alu_HlIndirect => 1 | Alu_Imm _ => 2 end.
Inductive IncDec8Target := IncDec_Reg (r : Reg8) | IncDec_HlIndirect.
Inductive CbTarget := Cb_Reg (r : Reg8) | Cb_HlIndirect.

(** ** Cycle costs *)

(** [NonZeroU8] and [NonZeroU16] are integers here; that the table only builds
    nonzero ones is a theorem below. *)
Inductive CycleCost := Cost_Fixed (cycles : Z) | Cost_Branch (taken not_taken : Z).
Inductive TStateCost := TState_Fixed (cycles : Z) | TState_Branch (taken not_taken : Z).

Definition CycleCost_worst_case (c : CycleCost) : Z :=
  match c with
  | Cost_Fixed cycles => cycles
  | Cost_Branch taken not_taken => if not_taken <=? taken then taken else not_taken
  end.
Definition CycleCost_best_case (c : CycleCost) : Z :=
  match c with
  | Cost_Fixed cycles => cycles
  | Cost_Branch taken not_taken => if taken <=? not_taken then taken else not_taken
  end.

(** [nz8] and [nz16] panic on zero. *)
Definition nz8 {E} (value : Z) : outcome E Z := if value =? 0 then Panic else Ok value.
Definition nz16 {E} (value : Z) : outcome E Z := if value =? 0 then Panic else Ok value.

Definition CycleCost_t_states {E} (c : CycleCost) : outcome E TStateCost :=
  match c with
  | Cost_Fixed cycles =>
      let* t := umul U16 cycles 4 in let* t := nz16 t in Ok (TState_Fixed t)
  | Cost_Branch taken not_taken =>
      let* t := umul U16 taken 4 in let* t := nz16 t in
      let* n := umul U16 not_taken 4 in let* n := nz16 n in
      Ok (TState_Branch t n)
  end.

Definition fixed {E} (cycles : Z) : outcome E CycleCost :=
  let* c := nz8 cycles in Ok (Cost_Fixed c).
Definition branch {E} (taken not_taken : Z) : outcome E CycleCost :=
  let* t := nz8 taken in let* n := nz8 not_taken in Ok (Cost_Branch t n).

(** ** Instructions *)

Inductive Instr :=
| I_Nop | I_Stop | I_Halt | I_Di | I_Ei | I_Ccf | I_Scf | I_Cpl | I_Daa
| I_Ld8Reg (dst src : Reg8)
| I_Ld8RegFromImm (dst : Reg8) (imm : Z)
| I_Ld8RegFromHl (dst : Reg8)
| I_Ld8HlFromReg (src : Reg8)
| I_Ld8HlFromImm (imm : Z)
| I_LdAFromReg16Addr (src : Reg16Addr)
| I_LdReg16AddrFromA (dst : Reg16Addr)
| I_LdAFromDirect (addr : DirectAddr)
| I_LdDirectFromA (addr : DirectAddr)
| I_LdAFromHighDirect (offset : HighDirectOffset)
| I_LdHighDirectFromA (offset : HighDirectOffset)
| I_LdAFromHighC
| I_LdHighCFromA
| I_Ld16Imm (dst : Reg16Data) (imm : Z)
| I_LdSpFromHl
| I_LdDirectFromSp (addr : Z)
| I_LdHlFromSpPlus (off : Z)
| I_AddA (src : AluSrc8) | I_AdcA (src : AluSrc8)
| I_SubA (src : AluSrc8) | I_SbcA (src : AluSrc8)
| I_AndA (src : AluSrc8) | I_OrA (src : AluSrc8)
| I_XorA (src : AluSrc8) | I_CpA (src : AluSrc8)
| I_Inc8 (dst : IncDec8Target) | I_Dec8 (dst : IncDec8Target)
| I_Inc16 (dst : Reg16Data) | I_Dec16 (dst : Reg16Data)
| I_AddHl (src : Reg16Data)
| I_AddSp (off : Z)
| I_Rlca | I_Rrca | I_Rla | I_Rra
| I_Rlc (target : CbTarget) | I_Rrc (target : CbTarget)
| I_Rl (target : CbTarget) | I_Rr (target : CbTarget)
| I_Sla (target : CbTarget) | I_Sra (target : CbTarget)
| I_Srl (target : CbTarget) | I_Swap (target : CbTarget)
| I_Bit (bit : BitIndex) (target : CbTarget)
| I_Res (bit : BitIndex) (target : CbTarget)
| I_Set (bit : BitIndex) (target : CbTarget)
| I_JpAbs (cond : option Cond) (addr : Z)
| I_JpHl
| I_JrRel (cond : option Cond) (off : Z)
| I_Call (cond : option Cond) (addr : Z)
| I_Ret (cond : option Cond)
| I_Reti
| I_Rst (vector : RstVector)
| I_Push (src : Reg16Stack)
| I_Pop (dst : Reg16Stack).

#[export] Instance Reg8_eq_dec : EqDecision Reg8. Proof. solve_decision. Defined.
#[export] Instance Cond_eq_dec : EqDecision Cond. Proof. solve_decision. Defined.
#[export] Instance BitIndex_eq_dec : EqDecision BitIndex. Proof. solve_decision. Defined.
#[export] Instance RstVector_eq_dec : EqDecision RstVector. Proof. solve_decision. Defined.
#[export] Instance DirectAddr_eq_dec : EqDecision DirectAddr. Proof. solve_decision. Defined.
#[export] Instance HighDirectOffset_eq_dec : EqDecision HighDirectOffset.
Proof. solve_decision. Defined.
#[export] Instance Reg16Data_eq_dec : EqDecision Reg16Data. Proof. solve_decision. Defined.
#[export] Instance Reg16Stack_eq_dec : EqDecision Reg16Stack. Proof. solve_decision. Defined.
#[export] Instance Reg16Addr_eq_dec : EqDecision Reg16Addr. Proof. solve_decision. Defined.
#[export] Instance AluSrc8_eq_dec : EqDecision AluSrc8. Proof. solve_decision. Defined.
#[export] Instance IncDec8Target_eq_dec : EqDecision IncDec8Target.
Proof. solve_decision. Defined.
#[export] Instance CbTarget_eq_dec : EqDecision CbTarget. Proof. solve_decision. Defined.
#[export] Instance CycleCost_eq_dec : EqDecision CycleCost. Proof. solve_decision. Defined.
#[export] Instance Instr_eq_dec : EqDecision Instr. Proof. solve_decision. Defined.

(** ** Instr::cycle_cost *)

Definition alu_src_cycle_cost {E} (src : AluSrc8) : outcome E CycleCost :=
  match src with Alu_Reg _ => fixed 1 | Alu_HlIndirect | Alu_Imm _ => fixed 2 end.
Definition inc_dec_cycle_cost {E} (dst : IncDec8Target) : outcome E CycleCost :=
  match dst with IncDec_Reg _ => fixed 1 | IncDec_HlIndirect => fixed 3 end.
Definition cb_rmw_cycle_cost {E} (target : CbTarget) : outcome E CycleCost :=
  match target with Cb_Reg _ => fixed 2 | Cb_HlIndirect => fixed 4 end.
Definition cb_bit_cycle_cost {E} (target : CbTarget) : outcome E CycleCost :=
  match target with Cb_Reg _ => fixed 2 | Cb_HlIndirect => fixed 3 end.

Definition Instr_cycle_cost {E} (i : Instr) : outcome E CycleCost :=
  match i with
  | I_Nop | I_Stop | I_Halt | I_Di | I_Ei | I_Ccf | I_Scf | I_Cpl | I_Daa
  | I_Ld8Reg _ _ | I_JpHl | I_Rlca | I_Rrca | I_Rla | I_Rra => fixed 1
  | I_Ld8RegFromImm _ _ | I_Ld8RegFromHl _ | I_Ld8HlFromReg _
  | I_LdAFromHighC | I_LdHighCFromA | I_LdAFromReg16Addr _ | I_LdReg16AddrFromA _
  | I_LdSpFromHl | I_Inc16 _ | I_Dec16 _ | I_AddHl _ => fixed 2
  | I_Ld8HlFromImm _ | I_LdAFromHighDirect _ | I_LdHighDirectFromA _
  | I_Ld16Imm _ _ | I_LdHlFromSpPlus _ => fixed 3
  | I_LdAFromDirect _ | I_LdDirectFromA _ | I_AddSp _ | I_Ret None
  | I_Reti | I_Rst _ | I_Push _ => fixed 4
  | I_LdDirectFromSp _ => fixed 5
  | I_Call None _ => fixed 6
  | I_AddA src | I_AdcA src | I_SubA src | I_SbcA src
  | I_AndA src | I_OrA src | I_XorA src | I_CpA src => alu_src_cycle_cost src
  | I_Inc8 dst | I_Dec8 dst => inc_dec_cycle_cost dst
  | I_Rlc target | I_Rrc target | I_Rl target | I_Rr target
  | I_Sla target | I_Sra target | I_Srl target | I_Swap target
  | I_Res _ target | I_Set _ target => cb_rmw_cycle_cost target
  | I_Bit _ target => cb_bit_cycle_cost target
  | I_JpAbs None _ => fixed 4
  | I_JpAbs (Some _) _ => branch 4 3
  | I_JrRel None _ => fixed 3
  | I_JrRel (Some _) _ => branch 3 2
  | I_Call (Some _) _ => branch 6 3
  | I_Ret (Some _) => branch 5 2
  | I_Pop _ => fixed 3
  end.

(** [cycle_model::cycle_cost], the public adapter. *)
Definition cycle_cost {E} (i : Instr) : outcome E CycleCost := Instr_cycle_cost i.

(** ** Instr::byte_len *)

Definition Instr_byte_len (i : Instr) : Z :=
  match i with
  | I_Nop | I_Halt | I_Di | I_Ei | I_Ccf | I_Scf | I_Cpl | I_Daa
  | I_Ld8Reg _ _ | I_Ld8RegFromHl _ | I_Ld8HlFromReg _
  | I_LdAFromReg16Addr _ | I_LdReg16AddrFromA _ | I_LdAFromHighC | I_LdHighCFromA
  | I_LdSpFromHl | I_Inc8 _ | I_Dec8 _ | I_Inc16 _ | I_Dec16 _ | I_AddHl _
  | I_Rlca | I_Rrca | I_Rla | I_Rra | I_JpHl | I_Ret _ | I_Reti | I_Rst _
  | I_Push _ | I_Pop _ => 1
  | I_Stop | I_Ld8RegFromImm _ _ | I_Ld8HlFromImm _ | I_LdAFromHighDirect _
  | I_LdHighDirectFromA _ | I_LdHlFromSpPlus _ | I_AddSp _
  | I_Rlc _ | I_Rrc _ | I_Rl _ | I_Rr _ | I_Sla _ | I_Sra _ | I_Srl _ | I_Swap _
  | I_Bit _ _ | I_Res _ _ | I_Set _ _ | I_JrRel _ _ => 2
  | I_LdAFromDirect _ | I_LdDirectFromA _ | I_Ld16Imm _ _ | I_LdDirectFromSp _
  | I_JpAbs _ _ | I_Call _ _ => 3
  | I_AddA src | I_AdcA src | I_SubA src | I_SbcA src
  | I_AndA src | I_OrA src | I_XorA src | I_CpA src => AluSrc8_byte_len src
  end.

(** ** Instr::describe: bytes and mnemonic *)

Record InstrDescriptor := MkDescriptor { desc_bytes : list Z; desc_mnemonic : string }.

Definition reg8_code (r : Reg8) : Z :=
  match r with
  | Reg8_B => 0 | Reg8_C => 1 | Reg8_D => 2 | Reg8_E => 3
  | Reg8_H => 4 | Reg8_L => 5 | Reg8_A => 7
  end.
Definition reg8_name (r : Reg8) : string :=
  match r with
  | Reg8_A => "a" | Reg8_B => "b" | Reg8_C => "c" | Reg8_D => "d"
  | Reg8_E => "e" | Reg8_H => "h" | Reg8_L => "l"
  end.
Definition reg16_data_code (r : Reg16Data) : Z :=
  match r with Data_BC => 0 | Data_DE => 1 | Data_HL => 2 | Data_SP => 3 end.
Definition reg16_data_name (r : Reg16Data) : string :=
  match r with Data_BC => "bc" | Data_DE => "de" | Data_HL => "hl" | Data_SP => "sp" end.
Definition reg16_stack_code (r : Reg16Stack) : Z :=
  match r with Stack_BC => 0 | Stack_DE => 1 | Stack_HL => 2 | Stack_AF => 3 end.
Definition reg16_stack_name (r : Reg16Stack) : string :=
  match r with Stack_BC => "bc" | Stack_DE => "de" | Stack_HL => "hl" | Stack_AF => "af" end.
Definition reg16_addr_name (r : Reg16Addr) : string :=
  match r with
  | Addr_BC => "(bc)" | Addr_DE => "(de)" | Addr_Hli => "(hl+)" | Addr_Hld => "(hl-)"
  end.

Definition hex8 (value : Z) : string := "$" +:+ hex_u16 2 value.
Definition hex16 (value : Z) : string := "$" +:+ hex_u16 4 value.

Definition alu_src_name (src : AluSrc8) : string :=
  match src with
  | Alu_Reg r => reg8_name r | Alu_HlIndirect => "(hl)" | Alu_Imm imm => hex8 imm
  end.
Definition inc_dec_name (t : IncDec8Target) : string :=
  match t with IncDec_Reg r => reg8_name r | IncDec_HlIndirect => "(hl)" end.
Definition cb_target_code (t : CbTarget) : Z :=
  match t with Cb_Reg r => reg8_code r | Cb_HlIndirect => 6 end.
Definition cb_target_name (t : CbTarget) : string :=
  match t with Cb_Reg r => reg8_name r | Cb_HlIndirect => "(hl)" end.
Definition cond_name (c : Cond) : string :=
  match c with Cond_NZ => "nz" | Cond_Z => "z" | Cond_NC => "nc" | Cond_C => "c" end.

Definition jp_opcode (c : option Cond) : Z :=
  match c with
  | None => 0xC3
  | Some Cond_NZ => 0xC2 | Some Cond_Z => 0xCA | Some Cond_NC => 0xD2 | Some Cond_C => 0xDA
  end.
Definition jr_opcode (c : option Cond) : Z :=
  match c with
  | None => 0x18
  | Some Cond_NZ => 0x20 | Some Cond_Z => 0x28 | Some Cond_NC => 0x30 | Some Cond_C => 0x38
  end.
Definition call_opcode (c : option Cond) : Z :=
  match c with
  | None => 0xCD
  | Some Cond_NZ => 0xC4 | Some Cond_Z => 0xCC | Some Cond_NC => 0xD4 | Some Cond_C => 0xDC
  end.
Definition ret_opcode (c : option Cond) : Z :=
  match c with
  | None => 0xC9
  | Some Cond_NZ => 0xC0 | Some Cond_Z => 0xC8 | Some Cond_NC => 0xD0 | Some Cond_C => 0xD8
  end.

Definition one (byte : Z) (mnem : string) : InstrDescriptor := MkDescriptor [byte] mnem.
Definition bytes_pair (a b : Z) (mnem : string) : InstrDescriptor := MkDescriptor [a; b] mnem.
Definition u16_op (opcode value : Z) : list Z := opcode :: le_bytes16 value.

Definition alu_describe (base imm_opcode : Z) (op : string) (src : AluSrc8) : InstrDescriptor :=
  MkDescriptor
    match src with
    | Alu_Reg r => [Z.lor base (reg8_code r)]
    | Alu_HlIndirect => [Z.lor base 0x06]
    | Alu_Imm imm => [imm_opcode; imm]
    end
    (op +:+ "  a, " +:+ alu_src_name src).
Definition cb_describe (base : Z) (op : string) (target : CbTarget) : InstrDescriptor :=
  MkDescriptor [0xCB; Z.lor base (cb_target_code target)]
    (op +:+ " " +:+ cb_target_name target).
Definition cb_bit_describe (base : Z) (op : string) (bit : BitIndex) (target : CbTarget)
    : InstrDescriptor :=
  MkDescriptor
    [0xCB; Z.lor (Z.lor base (wrap U8 (Z.shiftl (BitIndex_get bit) 3))) (cb_target_code target)]
    (pad_right 5 op +:+ dec (BitIndex_get bit) +:+ ", " +:+ cb_target_name target).

Definition branch_abs_text (op : string) (c : option Cond) (addr : Z) : string :=
  match c with
  | None => pad_right 4 op +:+ " " +:+ hex16 addr
  | Some c => pad_right 4 op +:+ " " +:+ cond_name c +:+ ", " +:+ hex16 addr
  end.
Definition branch_rel_text (op : string) (c : option Cond) (off target : Z) : string :=
  match c with
  | None => pad_right 4 op +:+ " " +:+ dec_signed off +:+ " (" +:+ hex16 target +:+ ")"
  | Some c =>
      pad_right 4 op +:+ " " +:+ cond_name c +:+ ", " +:+ dec_signed off
        +:+ " (" +:+ hex16 target +:+ ")"
  end.

Definition Instr_describe (i : Instr) (here : Z) : InstrDescriptor :=
  match i with
  | I_Nop => one 0x00 "nop"
  | I_Stop => bytes_pair 0x10 0x00 "stop"
  | I_Halt => one 0x76 "halt"
  | I_Di => one 0xF3 "di"
  | I_Ei => one 0xFB "ei"
  | I_Ccf => one 0x3F "ccf"
  | I_Scf => one 0x37 "scf"
  | I_Cpl => one 0x2F "cpl"
  | I_Daa => one 0x27 "daa"
  | I_Ld8Reg dst src =>
      MkDescriptor [Z.lor (Z.lor 0x40 (Z.shiftl (reg8_code dst) 3)) (reg8_code src)]
        ("ld   " +:+ reg8_name dst +:+ ", " +:+ reg8_name src)
  | I_Ld8RegFromImm dst imm =>
      MkDescriptor [Z.lor 0x06 (Z.shiftl (reg8_code dst) 3); imm]
        ("ld   " +:+ reg8_name dst +:+ ", " +:+ hex8 imm)
  | I_Ld8RegFromHl dst =>
      MkDescriptor [Z.lor 0x46 (Z.shiftl (reg8_code dst) 3)]
        ("ld   " +:+ reg8_name dst +:+ ", (hl)")
  | I_Ld8HlFromReg src =>
      MkDescriptor [Z.lor 0x70 (reg8_code src)] ("ld   (hl), " +:+ reg8_name src)
  | I_Ld8HlFromImm imm => MkDescriptor [0x36; imm] ("ld   (hl), " +:+ hex8 imm)
  | I_LdAFromReg16Addr src =>
      let opcode := match src with
        | Addr_BC => 0x0A | Addr_DE => 0x1A | Addr_Hli => 0x2A | Addr_Hld => 0x3A end in
      MkDescriptor [opcode] ("ld   a, " +:+ reg16_addr_name src)
  | I_LdReg16AddrFromA dst =>
      let opcode := match dst with
        | Addr_BC => 0x02 | Addr_DE => 0x12 | Addr_Hli => 0x22 | Addr_Hld => 0x32 end in
      MkDescriptor [opcode] ("ld   " +:+ reg16_addr_name dst +:+ ", a")
  | I_LdAFromDirect addr =>
      MkDescriptor (u16_op 0xFA (DirectAddr_get addr))
        ("ld   a, (" +:+ hex16 (DirectAddr_get addr) +:+ ")")
  | I_LdDirectFromA addr =>
      MkDescriptor (u16_op 0xEA (DirectAddr_get addr))
        ("ld   (" +:+ hex16 (DirectAddr_get addr) +:+ "), a")
  | I_LdAFromHighDirect offset =>
      MkDescriptor [0xF0; HighDirectOffset_get offset]
        ("ldh  a, (" +:+ hex8 (HighDirectOffset_get offset) +:+ ")")
  | I_LdHighDirectFromA offset =>
      MkDescriptor [0xE0; HighDirectOffset_get offset]
        ("ldh  (" +:+ hex8 (HighDirectOffset_get offset) +:+ "), a")
  | I_LdAFromHighC => one 0xF2 "ldh  a, (c)"
  | I_LdHighCFromA => one 0xE2 "ldh  (c), a"
  | I_Ld16Imm dst imm =>
      MkDescriptor (u16_op (Z.lor 0x01 (Z.shiftl (reg16_data_code dst) 4)) imm)
        ("ld   " +:+ reg16_data_name dst +:+ ", " +:+ hex16 imm)
  | I_LdSpFromHl => one 0xF9 "ld   sp, hl"
  | I_LdDirectFromSp addr =>
      MkDescriptor (u16_op 0x08 addr) ("ld   (" +:+ hex16 addr +:+ "), sp")
  | I_LdHlFromSpPlus off =>
      MkDescriptor [0xF8; i8_as_u8 off] ("ld   hl, sp" +:+ dec_signed off)
  | I_AddA src => alu_describe 0x80 0xC6 "add" src
  | I_AdcA src => alu_describe 0x88 0xCE "adc" src
  | I_SubA src => alu_describe 0x90 0xD6 "sub" src
  | I_SbcA src => alu_describe 0x98 0xDE "sbc" src
  | I_AndA src => alu_describe 0xA0 0xE6 "and" src
  | I_XorA src => alu_describe 0xA8 0xEE "xor" src
  | I_OrA src => alu_describe 0xB0 0xF6 "or " src
  | I_CpA src => alu_describe 0xB8 0xFE "cp " src
  | I_Inc8 dst =>
      let opcode := match dst with
        | IncDec_Reg r => Z.lor 0x04 (Z.shiftl (reg8_code r) 3) | IncDec_HlIndirect => 0x34 end in
      MkDescriptor [opcode] ("inc  " +:+ inc_dec_name dst)
  | I_Dec8 dst =>
      let opcode := match dst with
        | IncDec_Reg r => Z.lor 0x05 (Z.shiftl (reg8_code r) 3) | IncDec_HlIndirect => 0x35 end in
      MkDescriptor [opcode] ("dec  " +:+ inc_dec_name dst)
  | I_Inc16 dst =>
      MkDescriptor [Z.lor 0x03 (Z.shiftl (reg16_data_code dst) 4)] ("inc  " +:+ reg16_data_name dst)
  | I_Dec16 dst =>
      MkDescriptor [Z.lor 0x0B (Z.shiftl (reg16_data_code dst) 4)] ("dec  " +:+ reg16_data_name dst)
  | I_AddHl src =>
      MkDescriptor [Z.lor 0x09 (Z.shiftl (reg16_data_code src) 4)]
        ("add  hl, " +:+ reg16_data_name src)
  | I_AddSp off => MkDescriptor [0xE8; i8_as_u8 off] ("add  sp, " +:+ dec_signed off)
  | I_Rlca => one 0x07 "rlca"
  | I_Rrca => one 0x0F "rrca"
  | I_Rla => one 0x17 "rla"
  | I_Rra => one 0x1F "rra"
  | I_Rlc target => cb_describe 0x00 "rlc " target
  | I_Rrc target => cb_describe 0x08 "rrc " target
  | I_Rl target => cb_describe 0x10 "rl  " target
  | I_Rr target => cb_describe 0x18 "rr  " target
  | I_Sla target => cb_describe 0x20 "sla " target
  | I_Sra target => cb_describe 0x28 "sra " target
  | I_Swap target => cb_describe 0x30 "swap" target
  | I_Srl target => cb_describe 0x38 "srl " target
  | I_Bit bit target => cb_bit_describe 0x40 "bit" bit target
  | I_Res bit target => cb_bit_describe 0x80 "res" bit target
  | I_Set bit target => cb_bit_describe 0xC0 "set" bit target
  | I_JpAbs c addr => MkDescriptor (u16_op (jp_opcode c) addr) (branch_abs_text "jp" c addr)
  | I_JpHl => one 0xE9 "jp   hl"
  | I_JrRel c off =>
      let target := wrap U16 (wrap U16 (here + 2) + off) in
      MkDescriptor [jr_opcode c; i8_as_u8 off] (branch_rel_text "jr" c off target)
  | I_Call c addr => MkDescriptor (u16_op (call_opcode c) addr) (branch_abs_text "call" c addr)
  | I_Ret c =>
      MkDescriptor [ret_opcode c]
        (match c with None => "ret" | Some c => "ret  " +:+ cond_name c end)
  | I_Reti => one 0xD9 "reti"
  | I_Rst v =>
      MkDescriptor [Z.lor 0xC7 (RstVector_addr v)] ("rst  " +:+ hex8 (RstVector_addr v))
  | I_Push src =>
      MkDescriptor [Z.lor 0xC5 (Z.shiftl (reg16_stack_code src) 4)]
        ("push " +:+ reg16_stack_name src)
  | I_Pop dst =>
      MkDescriptor [Z.lor 0xC1 (Z.shiftl (reg16_stack_code dst) 4)]
        ("pop  " +:+ reg16_stack_name dst)
  end.
