(* ===== verification/IsaCodec.v ===== *)
(** * The instruction encoding is a prefix code

    A decoder of canonical LR35902 machine code, written from the opcode map
    by bit fields rather than from [Instr_describe], and the theorems that the
    encoding table and the decoder are inverse to each other. *)

From S2P Require Import Prelude Isa.

(** ** Operand ranges

    What the Rust types guarantee of the immediates of an instruction. *)

Definition u8_ok (x : Z) : bool := in_range 0 255 x.
Definition u16_ok (x : Z) : bool := in_range 0 65535 x.
Definition i8_ok (x : Z) : bool := in_range (-128) 127 x.
Definition alu_ok (s : AluSrc8) : bool := match s with Alu_Imm imm => u8_ok imm | _ => true end.
Definition bit_ok (b : BitIndex) : bool := in_range 0 7 (BitIndex_get b).
Definition direct_ok (a : DirectAddr) : bool := in_range 0 (HIGH_MEMORY_START - 1) (DirectAddr_get a).

Definition instr_ok (i : Instr) : bool :=
  match i with
  | I_Ld8RegFromImm _ imm | I_Ld8HlFromImm imm => u8_ok imm
  | I_LdAFromDirect a | I_LdDirectFromA a => direct_ok a
  | I_LdAFromHighDirect o | I_LdHighDirectFromA o => u8_ok (HighDirectOffset_get o)
  | I_Ld16Imm _ imm | I_LdDirectFromSp imm | I_JpAbs _ imm | I_Call _ imm => u16_ok imm
  | I_LdHlFromSpPlus off | I_AddSp off | I_JrRel _ off => i8_ok off
  | I_AddA s | I_AdcA s | I_SubA s | I_SbcA s | I_AndA s | I_OrA s | I_XorA s | I_CpA s => alu_ok s
  | I_Bit b _ | I_Res b _ | I_Set b _ => bit_ok b
  | _ => true
  end.

(** ** A decoder from the opcode map *)

Definition nth_opt {A} (l : list A) (n : Z) : option A := l !! Z.to_nat n.

Definition dec_reg8 (n : Z) : option Reg8 :=
  match n with
  | 0 => Some Reg8_B | 1 => Some Reg8_C | 2 => Some Reg8_D | 3 => Some Reg8_E
  | 4 => Some Reg8_H | 5 => Some Reg8_L | 7 => Some Reg8_A | _ => None
  end.
Definition dec_cb_target (n : Z) : CbTarget :=
  match dec_reg8 n with Some r => Cb_Reg r | None => Cb_HlIndirect end.
Definition dec_incdec (n : Z) : IncDec8Target :=
  match dec_reg8 n with Some r => IncDec_Reg r | None => IncDec_HlIndirect end.
Definition dec_alu_src (n : Z) : AluSrc8 :=
  match dec_reg8 n with Some r => Alu_Reg r | None => Alu_HlIndirect end.
Definition dec_data (p : Z) : Reg16Data :=
  match p with 0 => Data_BC | 1 => Data_DE | 2 => Data_HL | _ => Data_SP end.
Definition dec_stack (p : Z) : Reg16Stack :=
  match p with 0 => Stack_BC | 1 => Stack_DE | 2 => Stack_HL | _ => Stack_AF end.
Definition dec_addr (p : Z) : Reg16Addr :=
  match p with 0 => Addr_BC | 1 => Addr_DE | 2 => Addr_Hli | _ => Addr_Hld end.
Definition dec_cond (y : Z) : Cond :=
  match y with 0 => Cond_NZ | 1 => Cond_Z | 2 => Cond_NC | _ => Cond_C end.
Definition dec_rst (y : Z) : RstVector :=
  match y with
  | 0 => Rst_V00 | 1 => Rst_V08 | 2 => Rst_V10 | 3 => Rst_V18
  | 4 => Rst_V20 | 5 => Rst_V28 | 6 => Rst_V30 | _ => Rst_V38
  end.
Definition dec_alu (y : Z) : AluSrc8 -> Instr :=
  match y with
  | 0 => I_AddA | 1 => I_AdcA | 2 => I_SubA | 3 => I_SbcA
  | 4 => I_AndA | 5 => I_XorA | 6 => I_OrA | _ => I_CpA
  end.
Definition dec_rot (y : Z) : CbTarget -> Instr :=
  match y with
  | 0 => I_Rlc | 1 => I_Rrc | 2 => I_Rl | 3 => I_Rr
  | 4 => I_Sla | 5 => I_Sra | 6 => I_Swap | _ => I_Srl
  end.

(** Operand bytes after the opcode. *)
Definition with_u8 (f : Z -> Instr) (bs : list Z) : option (Instr * list Z) :=
  match bs with b :: rest => Some (f b, rest) | [] => None end.
Definition with_i8 (f : Z -> Instr) (bs : list Z) : option (Instr * list Z) :=
  with_u8 (fun b => f (u8_as_i8 b)) bs.
Definition with_u16 (f : Z -> Instr) (bs : list Z) : option (Instr * list Z) :=
  match bs with lo :: hi :: rest => Some (f (lo + 256 * hi), rest) | _ => None end.
Definition with_direct (f : DirectAddr -> Instr) (bs : list Z) : option (Instr * list Z) :=
  match bs with
  | lo :: hi :: rest =>
      match DirectAddr_new (lo + 256 * hi) with Some a => Some (f a, rest) | None => None end
  | _ => None
  end.
Definition plain (i : Instr) (bs : list Z) : option (Instr * list Z) := Some (i, bs).

(** Opcodes $00-$3F. *)
Definition decode_x0 (y z : Z) : list Z -> option (Instr * list Z) :=
  let p := y / 2 in
  match z with
  | 0 =>
      match y with
      | 0 => plain I_Nop
      | 1 => with_u16 I_LdDirectFromSp
      | 2 => fun bs => match bs with 0 :: rest => Some (I_Stop, rest) | _ => None end
      | 3 => with_i8 (I_JrRel None)
      | _ => with_i8 (I_JrRel (Some (dec_cond (y - 4))))
      end
  | 1 => if y mod 2 =? 0 then with_u16 (I_Ld16Imm (dec_data p)) else plain (I_AddHl (dec_data p))
  | 2 => if y mod 2 =? 0 then plain (I_LdReg16AddrFromA (dec_addr p))
         else plain (I_LdAFromReg16Addr (dec_addr p))
  | 3 => if y mod 2 =? 0 then plain (I_Inc16 (dec_data p)) else plain (I_Dec16 (dec_data p))
  | 4 => plain (I_Inc8 (dec_incdec y))
  | 5 => plain (I_Dec8 (dec_incdec y))
  | 6 => match dec_reg8 y with
         | Some r => with_u8 (I_Ld8RegFromImm r) | None => with_u8 I_Ld8HlFromImm end
  | _ =>
      match y with
      | 0 => plain I_Rlca | 1 => plain I_Rrca | 2 => plain I_Rla | 3 => plain I_Rra
      | 4 => plain I_Daa | 5 => plain I_Cpl | 6 => plain I_Scf | _ => plain I_Ccf
      end
  end.

(** Opcodes $40-$7F. *)
Definition decode_x1 (y z : Z) : list Z -> option (Instr * list Z) :=
  match dec_reg8 y, dec_reg8 z with
  | Some d, Some s => plain (I_Ld8Reg d s)
  | Some d, None => plain (I_Ld8RegFromHl d)
  | None, Some s => plain (I_Ld8HlFromReg s)
  | None, None => plain I_Halt
  end.

(** The $CB page. *)
Definition decode_cb (bs : list Z) : option (Instr * list Z) :=
  match bs with
  | [] => None
  | op :: rest =>
      let y := (op / 8) mod 8 in
      let t := dec_cb_target (op mod 8) in
      match op / 64 with
      | 0 => Some (dec_rot y t, rest)
      | 1 => Some (I_Bit (MkBitIndex y) t, rest)
      | 2 => Some (I_Res (MkBitIndex y) t, rest)
      | _ => Some (I_Set (MkBitIndex y) t, rest)
      end
  end.

(** Opcodes $C0-$FF; [fun _ => None] marks the holes of the opcode map. *)
Definition decode_x3 (y z : Z) : list Z -> option (Instr * list Z) :=
  let p := y / 2 in
  let hole := fun _ : list Z => None in
  match z with
  | 0 =>
      match y with
      | 4 => with_u8 (fun b => I_LdHighDirectFromA (HighDirectOffset_new b))
      | 5 => with_i8 I_AddSp
      | 6 => with_u8 (fun b => I_LdAFromHighDirect (HighDirectOffset_new b))
      | 7 => with_i8 I_LdHlFromSpPlus
      | _ => plain (I_Ret (Some (dec_cond y)))
      end
  | 1 =>
      if y mod 2 =? 0 then plain (I_Pop (dec_stack p))
      else match p with
           | 0 => plain (I_Ret None) | 1 => plain I_Reti | 2 => plain I_JpHl | _ => plain I_LdSpFromHl
           end
  | 2 =>
      match y with
      | 4 => plain I_LdHighCFromA
      | 5 => with_direct I_LdDirectFromA
      | 6 => plain I_LdAFromHighC
      | 7 => with_direct I_LdAFromDirect
      | _ => with_u16 (I_JpAbs (Some (dec_cond y)))
      end
  | 3 =>
      match y with
      | 0 => with_u16 (I_JpAbs None)
      | 1 => decode_cb
      | 6 => plain I_Di
      | 7 => plain I_Ei
      | _ => hole
      end
  | 4 => if y <? 4 then with_u16 (I_Call (Some (dec_cond y))) else hole
  | 5 =>
      if y mod 2 =? 0 then plain (I_Push (dec_stack p))
      else if y =? 1 then with_u16 (I_Call None) else hole
  | 6 => with_u8 (fun b => dec_alu y (Alu_Imm b))
  | _ => plain (I_Rst (dec_rst y))
  end.

Definition decode (bs : list Z) : option (Instr * list Z) :=
  match bs with
  | [] => None
  | op :: rest =>
      let y := (op / 8) mod 8 in
      let z := op mod 8 in
      match op / 64 with
      | 0 => decode_x0 y z rest
      | 1 => decode_x1 y z rest
      | 2 => Some (dec_alu y (dec_alu_src z), rest)
      | 3 => decode_x3 y z rest
      | _ => None
      end
  end.

(** The bytes of an instruction, without its mnemonic. *)
Definition instr_bytes (i : Instr) : list Z := desc_bytes (Instr_describe i 0).

(** ** The decoder inverts the table *)

Lemma with_u16_le f v rest : 
  with_u16 f (le_bytes16 v ++ rest) = Some (f v, rest).
Proof.
  unfold with_u16, le_bytes16. simpl. f_equal. f_equal. f_equal.
  pose proof (Z.div_mod v 256). lia.
Qed.

Lemma with_direct_le f a rest : direct_ok a = true ->
  with_direct f (le_bytes16 (DirectAddr_get a) ++ rest) = Some (f a, rest).
Proof.
  unfold direct_ok, with_direct, le_bytes16. rewrite in_range_true. simpl. intros H.
  replace (DirectAddr_get a mod 256 + 256 * (DirectAddr_get a / 256)) with (DirectAddr_get a)
    by (pose proof (Z.div_mod (DirectAddr_get a) 256); lia).
  unfold DirectAddr_new. destruct (Z.ltb_spec (DirectAddr_get a) HIGH_MEMORY_START); [|lia].
  by destruct a.
Qed.

Lemma with_i8_le f off rest : i8_ok off = true ->
  with_i8 f (i8_as_u8 off :: rest) = Some (f off, rest).
Proof.
  unfold i8_ok, with_i8, with_u8, i8_as_u8, u8_as_i8. rewrite in_range_true. intros H.
  f_equal. f_equal. f_equal.
  destruct (Z.leb_spec 0 off).
  - rewrite Z.mod_small by lia. destruct (Z.ltb_spec off 128); lia.
  - replace (off mod 256) with (off + 256)
      by (symmetry; rewrite <- (Z.mod_add off 1 256) by lia; apply Z.mod_small; lia).
    destruct (Z.ltb_spec (off + 256) 128); lia.
Qed.

Lemma bit_ok_cases b : bit_ok b = true ->
  b ∈ (MkBitIndex <$> [0; 1; 2; 3; 4; 5; 6; 7]).
Proof.
  destruct b as [n]. unfold bit_ok. rewrite in_range_true. simpl. intros H.
  assert (n = 0 \/ n = 1 \/ n = 2 \/ n = 3 \/ n = 4 \/ n = 5 \/ n = 6 \/ n = 7) as Hn by lia.
  repeat (destruct Hn as [->|Hn]; [by repeat constructor|]). subst. by repeat constructor.
Qed.

(** Splits an instruction of finite operands into its encodings. *)
Ltac split_operands :=
  repeat match goal with
  | r : Reg8 |- _ => destruct r
  | r : Reg16Data |- _ => destruct r
  | r : Reg16Stack |- _ => destruct r
  | r : Reg16Addr |- _ => destruct r
  | r : RstVector |- _ => destruct r
  | r : AluSrc8 |- _ => destruct r
  | r : IncDec8Target |- _ => destruct r
  | r : CbTarget |- _ => destruct r
  | r : option Cond |- _ => destruct r as [[]|]
  end.

Lemma decode_bytes_operand i rest : instr_ok i = true ->
  decode (instr_bytes i ++ rest) = Some (i, rest).
Proof.
  intros Hok. destruct i;
    try match goal with b : BitIndex |- _ =>
      apply bit_ok_cases in Hok; simpl in Hok; set_unfold in Hok;
      repeat (destruct Hok as [->|Hok]); [.. | done]
    end;
    split_operands;
    first
      [ reflexivity
      | exact (with_u16_le _ _ rest)
      | exact (with_direct_le _ _ rest Hok)
      | exact (with_i8_le _ _ rest Hok)
      | match goal with o : HighDirectOffset |- _ => destruct o; reflexivity end ].
Qed.

(** ** The decoder accepts nothing else *)

Definition is_byte (b : Z) : Prop := 0 <= b < 256.

Definition all_bytes : list Z := Eval vm_compute in seqZ 0 256.

Lemma byte_cases (P : Z -> Prop) : Forall P all_bytes -> forall b, is_byte b -> P b.
Proof.
  intros HP b Hb. rewrite Forall_forall in HP. apply HP.
  change all_bytes with (seqZ 0 256). apply elem_of_seqZ. unfold is_byte in Hb. lia.
Qed.

(** [i] is what [bs] spells before [rest]. *)
Definition spells (i : Instr) (rest bs : list Z) : Prop :=
  instr_ok i = true /\ bs = instr_bytes i ++ rest.

Section decode_inverse.
Implicit Types (rest bs : list Z) (i : Instr).

Lemma le_bytes16_word lo hi : is_byte lo -> is_byte hi ->
  le_bytes16 (lo + 256 * hi) = [lo; hi].
Proof.
  unfold is_byte, le_bytes16. intros Hlo Hhi. rewrite (Z.mul_comm 256).
  rewrite Z.mod_add, Z.div_add by lia.
  by rewrite (Z.mod_small lo), (Z.div_small lo), Z.add_0_l by lia.
Qed.

Lemma with_u8_inv op f bs i rest :
  (forall b, is_byte b -> instr_ok (f b) = true /\ instr_bytes (f b) = [op; b]) ->
  Forall is_byte bs -> with_u8 f bs = Some (i, rest) -> spells i rest (op :: bs).
Proof.
  intros Hf Hbs. destruct bs as [|b bs]; [done|]. inversion_clear Hbs.
  simpl. intros [= <- <-]. destruct (Hf b) as [Hok Hb]; [done|].
  split; [done|]. by rewrite Hb.
Qed.

Lemma with_i8_inv op f bs i rest :
  (forall x, i8_ok x = true -> instr_ok (f x) = true /\ instr_bytes (f x) = [op; i8_as_u8 x]) ->
  Forall is_byte bs -> with_i8 f bs = Some (i, rest) -> spells i rest (op :: bs).
Proof.
  intros Hf. apply with_u8_inv. intros b Hb.
  assert (i8_ok (u8_as_i8 b) = true /\ i8_as_u8 (u8_as_i8 b) = b) as [Hok Hr].
  { unfold i8_ok, i8_as_u8, u8_as_i8, is_byte in *. rewrite in_range_true.
    destruct (Z.ltb_spec b 128); split; try lia.
    - apply Z.mod_small; lia.
    - replace (b - 256) with (b + (-1) * 256) by lia. rewrite Z.mod_add by lia.
      apply Z.mod_small; lia. }
  destruct (Hf _ Hok) as [H1 H2]. split; [done|]. by rewrite H2, Hr.
Qed.

Lemma with_u16_inv op f bs i rest :
  (forall x, u16_ok x = true -> instr_ok (f x) = true /\ instr_bytes (f x) = op :: le_bytes16 x) ->
  Forall is_byte bs -> with_u16 f bs = Some (i, rest) -> spells i rest (op :: bs).
Proof.
  intros Hf Hbs. destruct bs as [|lo [|hi bs]]; [done..|].
  inversion_clear Hbs as [|? ? Hlo Hbs']. inversion_clear Hbs' as [|? ? Hhi _].
  unfold with_u16. intros [= <- <-].
  destruct (Hf (lo + 256 * hi)) as [Hok Hb].
  { unfold is_byte, u16_ok in *. rewrite in_range_true. lia. }
  split; [done|]. rewrite Hb, le_bytes16_word; done.
Qed.

Lemma with_direct_inv op f bs i rest :
  (forall a, direct_ok a = true ->
     instr_ok (f a) = true /\ instr_bytes (f a) = op :: le_bytes16 (DirectAddr_get a)) ->
  Forall is_byte bs -> with_direct f bs = Some (i, rest) -> spells i rest (op :: bs).
Proof.
  intros Hf Hbs. destruct bs as [|lo [|hi bs]]; [done..|].
  inversion_clear Hbs as [|? ? Hlo Hbs']. inversion_clear Hbs' as [|? ? Hhi _].
  unfold with_direct, DirectAddr_new.
  destruct (Z.ltb_spec (lo + 256 * hi) HIGH_MEMORY_START) as [Hlt|]; [|done].
  intros [= <- <-].
  destruct (Hf (MkDirectAddr (lo + 256 * hi))) as [Hok Hb].
  { unfold is_byte, direct_ok in *. rewrite in_range_true. simpl. lia. }
  split; [done|]. rewrite Hb; cbn [DirectAddr_get]. rewrite le_bytes16_word; done.
Qed.

Lemma plain_inv op j bs i rest :
  instr_ok j = true -> instr_bytes j = [op] -> plain j bs = Some (i, rest) -> spells i rest (op :: bs).
Proof. intros Hok Hb [= <- <-]. split; [done|]. by rewrite Hb. Qed.

Lemma decode_cb_inv bs i rest : Forall is_byte bs ->
  decode_cb bs = Some (i, rest) -> spells i rest (0xCB :: bs).
Proof.
  destruct bs as [|op bs]; [done|]. intros Hbs. inversion_clear Hbs as [|? ? Hop Hbs'].
  pattern op. revert op Hop. apply byte_cases. clear Hbs'.
  repeat (apply Forall_cons_2; [intros [= <- <-]; split; reflexivity|]). apply Forall_nil_2.
Qed.

(** One opcode: run the decoder to its operand reader, then invert that. *)
Ltac decode_case Hbs :=
  lazymatch goal with |- decode ?l = _ -> _ =>
    let t := eval cbv -[with_u8 with_i8 with_u16 with_direct plain decode_cb] in (decode l) in
    change (decode l) with t
  end;
  lazymatch goal with
  | |- None = _ -> _ => discriminate
  | |- plain _ _ = _ -> _ => apply plain_inv; reflexivity
  | |- decode_cb _ = _ -> _ => apply decode_cb_inv, Hbs
  | |- with_u8 _ _ = _ -> _ =>
      apply with_u8_inv; [|exact Hbs]; intros b Hb;
      split; [change (in_range 0 255 b = true); apply in_range_true; unfold is_byte in Hb; lia | reflexivity]
  | |- with_i8 _ _ = _ -> _ => apply with_i8_inv; [|exact Hbs]; intros x Hx; split; [exact Hx | reflexivity]
  | |- with_u16 _ _ = _ -> _ => apply with_u16_inv; [|exact Hbs]; intros x Hx; split; [exact Hx | reflexivity]
  | |- with_direct _ _ = _ -> _ => apply with_direct_inv; [|exact Hbs]; intros x Hx; split; [exact Hx | reflexivity]
  | |- Some _ = _ -> _ => intros [= <- <-]; split; reflexivity
  | |- match ?l with _ => _ end = _ -> _ =>
      destruct l as [|[| |] ?]; try discriminate; intros [= <- <-]; split; reflexivity
  end.

Lemma decode_inv_aux bs i rest : Forall is_byte bs -> decode bs = Some (i, rest) -> spells i rest bs.
Proof.
  destruct bs as [|op bs]; [done|]. intros Hbs. inversion_clear Hbs as [|? ? Hop Hbs'].
  pattern op. revert op Hop. apply byte_cases.
  repeat (apply Forall_cons_2; [decode_case Hbs'|]). apply Forall_nil_2.
Qed.
End decode_inverse.

(** ** Lengths and ranges of encodings *)

Lemma instr_bytes_length i : zlen (instr_bytes i) = Instr_byte_len i.
Proof. destruct i; split_operands; reflexivity. Qed.

Lemma instr_bytes_pos i : 1 <= Instr_byte_len i <= 3.
Proof. destruct i; split_operands; simpl; lia. Qed.

Lemma le_bytes16_bytes v : u16_ok v = true -> Forall is_byte (le_bytes16 v).
Proof.
  unfold u16_ok, le_bytes16, is_byte. rewrite in_range_true. intros H.
  repeat constructor; try (apply Z.mod_pos_bound; lia); try (apply Z.div_pos; lia).
  apply Z.div_lt_upper_bound; lia.
Qed.

Lemma u8_ok_byte v : u8_ok v = true -> is_byte v.
Proof. unfold u8_ok, is_byte. rewrite in_range_true. lia. Qed.

Lemma i8_as_u8_byte v : is_byte (i8_as_u8 v).
Proof. unfold i8_as_u8, is_byte. apply Z.mod_pos_bound; lia. Qed.

Lemma direct_ok_u16 a : direct_ok a = true -> u16_ok (DirectAddr_get a) = true.
Proof. unfold direct_ok, u16_ok, HIGH_MEMORY_START. rewrite !in_range_true. lia. Qed.

Create HintDb codec.
#[export] Hint Resolve le_bytes16_bytes u8_ok_byte i8_as_u8_byte direct_ok_u16 : codec.

Lemma instr_bytes_range i : instr_ok i = true -> Forall is_byte (instr_bytes i).
Proof.
  intros Hok. destruct i;
    try match goal with b : BitIndex |- _ =>
      apply bit_ok_cases in Hok; simpl in Hok; set_unfold in Hok;
      repeat (destruct Hok as [->|Hok]); [.. | done]
    end;
    split_operands;
    repeat first
      [ apply Forall_nil_2
      | apply le_bytes16_bytes; first [exact Hok | apply direct_ok_u16, Hok]
      | apply Forall_cons_2
      | apply i8_as_u8_byte
      | apply u8_ok_byte, Hok
      | (vm_compute; split; [intros [=] | reflexivity]) ].
Qed.

(** ** Properties *)

(** C40: On a list of bytes, the decoder written from the opcode
    map reads instruction [i] and leaves [rest] exactly when the list is the
    table's encoding of a well-formed [i] followed by [rest].  So the encodings
    of [Instr::describe] are a prefix code: no two instructions share one, and
    a byte stream splits into instructions in at most one way. *)
Theorem decode_iff_encoded bs i rest (Hbs : Forall is_byte bs) :
  decode bs = Some (i, rest) <-> instr_ok i = true /\ bs = instr_bytes i ++ rest.
Proof.
  split.
  - intros H. by apply decode_inv_aux.
  - intros [Hok ->]. by apply decode_bytes_operand.
Qed.

Lemma decode_iff_encoded_witness :
  Forall is_byte [0xC3; 0x50; 0x01; 0x76] /\
  decode [0xC3; 0x50; 0x01; 0x76] = Some (I_JpAbs None 0x150, [0x76]).
Proof.
  assert (Forall is_byte [0xC3; 0x50; 0x01; 0x76]) as H by (repeat constructor; done).
  split; [exact H|]. apply (decode_iff_encoded _ _ _ H). split; reflexivity.
Defined.

(** The cycle table never builds a zero cost (the [nz8]/[nz16]
    panics are unreachable), every cost is between 1 and 6 M-cycles, the best
    case is never above the worst case, and the T-state projection is exactly
    four times the M-cycle cost on both outcomes. *)
Theorem cycle_cost_bounds (i : Instr) :
  exists c, @cycle_cost Empty_set i = Ok c
    /\ 1 <= CycleCost_best_case c /\ CycleCost_best_case c <= CycleCost_worst_case c <= 6
    /\ exists t, @CycleCost_t_states Empty_set c = Ok t /\
       match c, t with
       | Cost_Fixed m, TState_Fixed n => n = 4 * m
       | Cost_Branch m1 m2, TState_Branch n1 n2 => n1 = 4 * m1 /\ n2 = 4 * m2
       | _, _ => False
       end.
Proof.
  destruct i; split_operands;
    (eexists; split; [reflexivity|]; simpl; split; [lia|]; split; [lia|];
     eexists; split; [reflexivity|]; simpl; lia).
Qed.
