(* ===== verification/Names.v ===== *)
(** * Section roles, provenance and symbol names

    [SectionRole], [SectionId] ([gbf-asm/src/section.rs]), the provenance
    payload ([provenance.rs]) and the canonical symbol names
    ([symbols.rs], lines 13-181). *)

From S2P Require Import Prelude.

(** ** Section identity *)

Record SectionId := SectionId_new { SectionId_get : Z }.
#[export] Instance SectionId_eq_dec : EqDecision SectionId. Proof. solve_decision. Defined.
#[export] Instance SectionId_countable : Countable SectionId.
Proof. apply (inj_countable' SectionId_get SectionId_new). by intros []. Defined.

Inductive SectionRole :=
| Role_InterruptVector | Role_Bank0Nucleus | Role_Bank0Data | Role_CommonBank
| Role_CommonData | Role_ExpertBank | Role_ExpertData | Role_WramHotArena
| Role_WramOverlay | Role_HramFastFlags | Role_SramPersistent | Role_VramOwnedByUi
| Role_OamOwnedByUi | Role_HeaderCartridge.
#[export] Instance SectionRole_eq_dec : EqDecision SectionRole. Proof. solve_decision. Defined.

Definition SectionRole_canonical_name (r : SectionRole) : string :=
  match r with
  | Role_InterruptVector => "interrupt_vector"
  | Role_Bank0Nucleus => "bank0_nucleus"
  | Role_Bank0Data => "bank0_data"
  | Role_CommonBank => "common_bank"
  | Role_CommonData => "common_data"
  | Role_ExpertBank => "expert_bank"
  | Role_ExpertData => "expert_data"
  | Role_WramHotArena => "wram_hot_arena"
  | Role_WramOverlay => "wram_overlay"
  | Role_HramFastFlags => "hram_fast_flags"
  | Role_SramPersistent => "sram_persistent"
  | Role_VramOwnedByUi => "vram_owned_by_ui"
  | Role_OamOwnedByUi => "oam_owned_by_ui"
  | Role_HeaderCartridge => "header_cartridge"
  end.

Definition SectionRole_permits_inline_data (r : SectionRole) : bool :=
  match r with
  | Role_InterruptVector | Role_Bank0Nucleus | Role_CommonBank | Role_ExpertBank => false
  | Role_HeaderCartridge | Role_Bank0Data | Role_CommonData | Role_ExpertData
  | Role_WramHotArena | Role_WramOverlay | Role_HramFastFlags | Role_SramPersistent
  | Role_VramOwnedByUi | Role_OamOwnedByUi => true
  end.

(** ** Provenance *)

Record AsmSourceValueId := AsmSourceValueId_new { AsmSourceValueId_get : Z }.
#[export] Instance AsmSourceValueId_eq_dec : EqDecision AsmSourceValueId.
Proof. solve_decision. Defined.

Inductive PlanningStage :=
| Stage_QuantGraph | Stage_StoragePlan | Stage_RomWindowPlan | Stage_OverlayPlan
| Stage_ArenaPlan | Stage_GbSchedIr | Stage_Backend.
#[export] Instance PlanningStage_eq_dec : EqDecision PlanningStage. Proof. solve_decision. Defined.

Definition PlanningStage_code (s : PlanningStage) : Z :=
  match s with
  | Stage_QuantGraph => 0 | Stage_StoragePlan => 1 | Stage_RomWindowPlan => 2
  | Stage_OverlayPlan => 3 | Stage_ArenaPlan => 4 | Stage_GbSchedIr => 5 | Stage_Backend => 6
  end.
Definition PlanningStage_canonical_name (s : PlanningStage) : string :=
  match s with
  | Stage_QuantGraph => "quant_graph"
  | Stage_StoragePlan => "storage_plan"
  | Stage_RomWindowPlan => "rom_window_plan"
  | Stage_OverlayPlan => "overlay_plan"
  | Stage_ArenaPlan => "arena_plan"
  | Stage_GbSchedIr => "gb_sched_ir"
  | Stage_Backend => "backend"
  end.

Record InstrProvenance := MkProvenance {
  prov_stage : PlanningStage;
  prov_source_node : option AsmSourceValueId;
  prov_source_op : option string;
  prov_note : option string;
}.
#[export] Instance InstrProvenance_eq_dec : EqDecision InstrProvenance.
Proof. solve_decision. Defined.

Definition InstrProvenance_new (stage : PlanningStage) : InstrProvenance :=
  MkProvenance stage None None None.
Definition with_source_node (p : InstrProvenance) (n : AsmSourceValueId) : InstrProvenance :=
  MkProvenance (prov_stage p) (Some n) (prov_source_op p) (prov_note p).
Definition with_source_op (p : InstrProvenance) (op : string) : InstrProvenance :=
  MkProvenance (prov_stage p) (prov_source_node p) (Some op) (prov_note p).
Definition with_note (p : InstrProvenance) (note : string) : InstrProvenance :=
  MkProvenance (prov_stage p) (prov_source_node p) (prov_source_op p) (Some note).

(** ** Symbol names *)

Inductive SymbolNameError :=
| Name_Empty | Name_EmptySegment | Name_InvalidCharacter (ch : ascii).
#[export] Instance SymbolNameError_eq_dec : EqDecision SymbolNameError.
Proof. solve_decision. Defined.

Definition symbol_char (ch : ascii) : bool :=
  is_ascii_lowercase ch || is_ascii_digit ch || Ascii.eqb ch "_".

(** The [for ch in value.chars()] loop of [validate_symbol_segment]. *)
Fixpoint validate_chars (value : string) : outcome SymbolNameError unit :=
  match value with
  | EmptyString => Ok tt
  | String ch rest =>
      if negb (symbol_char ch) then Err (Name_InvalidCharacter ch) else validate_chars rest
  end.
Definition validate_symbol_segment (value : string) : outcome SymbolNameError unit :=
  match value with
  | EmptyString => Err Name_EmptySegment
  | _ => validate_chars value
  end.
Definition validate_symbol_name (value : string) : outcome SymbolNameError unit :=
  match value with
  | EmptyString => Err Name_Empty
  | _ => ofold (fun _ segment => validate_symbol_segment segment) tt (str_split "." value)
  end.

Record SymbolSegment := MkSymbolSegment { SymbolSegment_as_str : string }.
Definition SymbolSegment_new (value : string) : outcome SymbolNameError SymbolSegment :=
  let* _ := validate_symbol_segment value in Ok (MkSymbolSegment value).

Record SymbolName := MkSymbolName { SymbolName_as_str : string }.
#[export] Instance SymbolName_eq_dec : EqDecision SymbolName. Proof. solve_decision. Defined.
#[export] Instance SymbolName_countable : Countable SymbolName.
Proof. apply (inj_countable' SymbolName_as_str MkSymbolName). by intros []. Defined.

Definition SymbolName_new (value : string) : outcome SymbolNameError SymbolName :=
  let* _ := validate_symbol_name value in Ok (MkSymbolName value).
Definition SymbolName_kernel (family : string) (id : Z) : outcome SymbolNameError SymbolName :=
  let* family := SymbolSegment_new family in
  SymbolName_new ("kernel." +:+ SymbolSegment_as_str family +:+ "." +:+ dec id).
Definition SymbolName_expert (layer id : Z) : outcome SymbolNameError SymbolName :=
  SymbolName_new ("expert." +:+ dec layer +:+ "." +:+ dec id).
Definition SymbolName_runtime (module symbol : string) : outcome SymbolNameError SymbolName :=
  let* module := SymbolSegment_new module in
  let* symbol := SymbolSegment_new symbol in
  SymbolName_new ("runtime." +:+ SymbolSegment_as_str module +:+ "." +:+ SymbolSegment_as_str symbol).
Definition SymbolName_runtime_thunk_for (target : SymbolName) : outcome SymbolNameError SymbolName :=
  SymbolName_new ("runtime.banking.thunk." +:+ SymbolName_as_str target).
Definition SymbolName_section (role : SectionRole) (id : SectionId)
    : outcome SymbolNameError SymbolName :=
  SymbolName_new ("section." +:+ SectionRole_canonical_name role +:+ "." +:+ dec (SectionId_get id)).

(** The order of [SymbolName] is the order of its string. *)
Definition SymbolName_leb (a b : SymbolName) : bool :=
  String.leb (SymbolName_as_str a) (SymbolName_as_str b).

(** ** Lemmas on strings and segments *)

Lemma str_forall_app p s1 s2 : str_forall p (s1 +:+ s2) = str_forall p s1 && str_forall p s2.
Proof. induction s1 as [|c s1 IH]; simpl; [done|]. by rewrite IH, andb_assoc. Qed.

Lemma str_forall_impl (p q : ascii -> bool) s :
  (forall c, p c = true -> q c = true) -> str_forall p s = true -> str_forall q s = true.
Proof.
  intros Hpq. induction s as [|c s IH]; simpl; [done|].
  rewrite !andb_true_iff. intros [H1 H2]. auto.
Qed.

Lemma SymbolName_leb_total a b : SymbolName_leb a b = true \/ SymbolName_leb b a = true.
Proof.
  apply string_leb_total.
Qed.

Lemma SymbolName_leb_trans a b c :
  SymbolName_leb a b = true -> SymbolName_leb b c = true -> SymbolName_leb a c = true.
Proof. apply string_leb_trans. Qed.

Definition not_dot (c : ascii) : bool := negb (Ascii.eqb c ".").

Lemma str_split_nonnil sep s : str_split sep s <> [].
Proof.
  destruct s as [|c s]; simpl; [done|].
  destruct (Ascii.eqb c sep); [done|]. by destruct (str_split sep s).
Qed.

Lemma str_split_nodot seg : str_forall not_dot seg = true -> str_split "." seg = [seg].
Proof.
  induction seg as [|c seg IH]; simpl; [done|].
  rewrite andb_true_iff. unfold not_dot at 1. intros [Hc Hs].
  apply negb_true_iff in Hc. by rewrite Hc, IH.
Qed.

Lemma str_split_cons seg rest : str_forall not_dot seg = true ->
  str_split "." (seg +:+ "." +:+ rest) = seg :: str_split "." rest.
Proof.
  induction seg as [|c seg IH]; simpl; [done|].
  rewrite andb_true_iff. unfold not_dot at 1. intros [Hc Hs].
  apply negb_true_iff in Hc. rewrite Hc. simpl in IH. by rewrite IH.
Qed.

Definition valid_segment (s : string) : Prop := s <> EmptyString /\ str_forall symbol_char s = true.

Lemma validate_chars_ok s u : validate_chars s = Ok u <-> str_forall symbol_char s = true.
Proof.
  destruct u. induction s as [|c s IH]; simpl; [done|].
  destruct (symbol_char c); simpl; [done|]. split; discriminate.
Qed.

Lemma validate_symbol_segment_ok s u :
  validate_symbol_segment s = Ok u <-> valid_segment s.
Proof.
  unfold valid_segment. destruct s as [|c s].
  - simpl. split; [discriminate | intros [H _]; by destruct H].
  - change (validate_symbol_segment (String c s)) with (validate_chars (String c s)).
    rewrite validate_chars_ok. split; [by split | by intros [_ ?]].
Qed.

Lemma validate_symbol_name_ok s u :
  validate_symbol_name s = Ok u <-> Forall valid_segment (str_split "." s).
Proof.
  assert (Hf : forall l u, ofold (fun _ segment => validate_symbol_segment segment) tt l = Ok u
            <-> Forall valid_segment l).
  { induction l as [|x l IH]; intros v; simpl.
    - destruct v. split; [constructor | done].
    - rewrite Forall_cons, <- (validate_symbol_segment_ok x tt), <- (IH v), obind_Ok.
      split; [intros ([] & ? & ?); done | intros [? ?]; by exists tt]. }
  destruct s as [|c s]; [|apply Hf].
  simpl. split; [discriminate|]. intros H. inversion_clear H as [|? ? Hv _]. destruct Hv as [Hne _]. by destruct Hne.
Qed.

Lemma symbol_char_not_dot c : symbol_char c = true -> not_dot c = true.
Proof.
  unfold not_dot. destruct (Ascii.eqb_spec c "."); [|done]. subst. discriminate.
Qed.

Lemma valid_segment_not_dot s : valid_segment s -> str_forall not_dot s = true.
Proof. intros [_ H]. revert H. apply str_forall_impl, symbol_char_not_dot. Qed.

Lemma pretty_N_go_digits (x : N) s : str_forall is_ascii_digit s = true ->
  str_forall is_ascii_digit (pretty_N_go x s) = true.
Proof.
  revert s. induction (N.lt_wf_0 x) as [x _ IH]. intros s Hs.
  destruct (decide (x = 0)%N) as [->|Hx]; [by rewrite pretty_N_go_0|].
  rewrite pretty_N_go_step by lia.
  apply IH; [apply N.div_lt; lia|]. simpl. rewrite Hs, andb_true_r.
  pose proof (N.mod_lt x 10 ltac:(lia)) as Hm. revert Hm.
  generalize (x mod 10)%N as d. intros d Hd.
  assert (d = 0 \/ d = 1 \/ d = 2 \/ d = 3 \/ d = 4 \/ d = 5 \/ d = 6 \/ d = 7 \/ d = 8 \/ d = 9)%N
    as Hc by lia.
  repeat (destruct Hc as [->|Hc]; [reflexivity|]). by subst.
Qed.

Lemma dec_digits n : str_forall is_ascii_digit (dec n) = true.
Proof.
  unfold dec, pretty, pretty_N. case_decide; [done|]. by apply pretty_N_go_digits.
Qed.

Lemma dec_inj a b : 0 <= a -> 0 <= b -> dec a = dec b -> a = b.
Proof. unfold dec. intros Ha Hb H%(inj pretty). lia. Qed.

Lemma digit_not_dot c : is_ascii_digit c = true -> not_dot c = true.
Proof.
  unfold not_dot. destruct (Ascii.eqb_spec c "."); [|done]. subst. discriminate.
Qed.

Lemma dec_not_dot n : str_forall not_dot (dec n) = true.
Proof. eapply str_forall_impl; [apply digit_not_dot | apply dec_digits]. Qed.

Lemma SymbolName_new_ok s n :
  SymbolName_new s = Ok n <-> n = MkSymbolName s /\ Forall valid_segment (str_split "." s).
Proof.
  unfold SymbolName_new. rewrite obind_Ok. split.
  - intros ([] & H & [= <-]). by rewrite validate_symbol_name_ok in H.
  - intros [-> H]. exists tt. by rewrite validate_symbol_name_ok.
Qed.

Lemma SymbolSegment_new_ok s g :
  SymbolSegment_new s = Ok g <-> g = MkSymbolSegment s /\ valid_segment s.
Proof.
  unfold SymbolSegment_new. rewrite obind_Ok. split.
  - intros ([] & H & [= <-]). by rewrite validate_symbol_segment_ok in H.
  - intros [-> H]. exists tt. by rewrite validate_symbol_segment_ok.
Qed.

Lemma role_name_not_dot r : str_forall not_dot (SectionRole_canonical_name r) = true.
Proof. by destruct r. Qed.
Lemma role_name_inj r r' : SectionRole_canonical_name r = SectionRole_canonical_name r' -> r = r'.
Proof. by destruct r, r'. Qed.

(** The helper constructors of [SymbolName], as a type: what a caller asks for. *)
Inductive helper :=
| H_kernel (family : string) (id : Z)
| H_expert (layer id : Z)
| H_runtime (module symbol : string)
| H_thunk (target : SymbolName)
| H_section (role : SectionRole) (id : SectionId).

Definition helper_name (h : helper) : outcome SymbolNameError SymbolName :=
  match h with
  | H_kernel f i => SymbolName_kernel f i
  | H_expert l i => SymbolName_expert l i
  | H_runtime m s => SymbolName_runtime m s
  | H_thunk t => SymbolName_runtime_thunk_for t
  | H_section r i => SymbolName_section r i
  end.

(** The numbers a helper takes are unsigned. *)
Definition helper_ok (h : helper) : Prop :=
  match h with
  | H_kernel _ i => 0 <= i
  | H_expert l i => 0 <= l /\ 0 <= i
  | H_runtime _ _ | H_thunk _ => True
  | H_section _ i => 0 <= SectionId_get i
  end.

Definition helper_segments (h : helper) : list string :=
  match h with
  | H_kernel f i => ["kernel"; f; dec i]
  | H_expert l i => ["expert"; dec l; dec i]
  | H_runtime m s => ["runtime"; m; s]
  | H_thunk t => "runtime" :: "banking" :: "thunk" :: str_split "." (SymbolName_as_str t)
  | H_section r i => ["section"; SectionRole_canonical_name r; dec (SectionId_get i)]
  end.

Lemma str_split_two a b : str_forall not_dot a = true -> str_forall not_dot b = true ->
  str_split "." (a +:+ "." +:+ b) = [a; b].
Proof. intros Ha Hb. by rewrite str_split_cons, str_split_nodot. Qed.

Lemma helper_name_segments h n : helper_name h = Ok n ->
  str_split "." (SymbolName_as_str n) = helper_segments h.
Proof.
  destruct h; simpl; unfold SymbolName_kernel, SymbolName_expert, SymbolName_runtime,
    SymbolName_runtime_thunk_for, SymbolName_section; intros H; inv_ok;
  repeat match goal with
  | H : SymbolSegment_new _ = Ok _ |- _ => apply SymbolSegment_new_ok in H as [-> ?%valid_segment_not_dot]
  | H : SymbolName_new _ = Ok _ |- _ => apply SymbolName_new_ok in H as [-> _]
  end; cbn [SymbolName_as_str SymbolSegment_as_str].
  - change (str_split "." ("kernel." +:+ family +:+ "." +:+ dec id))
      with ("kernel" :: str_split "." (family +:+ "." +:+ dec id)).
    by rewrite str_split_two by (done || apply dec_not_dot).
  - change (str_split "." ("expert." +:+ dec layer +:+ "." +:+ dec id))
      with ("expert" :: str_split "." (dec layer +:+ "." +:+ dec id)).
    by rewrite str_split_two by apply dec_not_dot.
  - change (str_split "." ("runtime." +:+ module +:+ "." +:+ symbol))
      with ("runtime" :: str_split "." (module +:+ "." +:+ symbol)).
    by rewrite str_split_two.
  - done.
  - change (str_split "." ("section." +:+ SectionRole_canonical_name role +:+ "." +:+ dec (SectionId_get id)))
      with ("section" :: str_split "." (SectionRole_canonical_name role +:+ "." +:+ dec (SectionId_get id))).
    by rewrite str_split_two by (apply role_name_not_dot || apply dec_not_dot).
Qed.

(** Splitting loses nothing, so it is injective. *)
Fixpoint str_join (l : list string) : string :=
  match l with
  | [] => ""
  | [x] => x
  | x :: l' => x +:+ "." +:+ str_join l'
  end.

Lemma str_split_join s : str_join (str_split "." s) = s.
Proof.
  induction s as [|c s IH]; [done|]. simpl.
  destruct (Ascii.eqb_spec c ".") as [->|_].
  - pose proof (str_split_nonnil "." s) as Hne.
    destruct (str_split "." s) eqn:E; [done|]. cbn [str_join]. rewrite <- IH. done.
  - destruct (str_split "." s) as [|x [|y l]] eqn:E; [by apply str_split_nonnil in E| |];
      rewrite <- IH; done.
Qed.

Lemma str_split_inj s t : str_split "." s = str_split "." t -> s = t.
Proof. intros H. by rewrite <- (str_split_join s), H, str_split_join. Qed.

Lemma helper_segments_inj h h' : helper_ok h -> helper_ok h' ->
  helper_segments h = helper_segments h' -> h = h'.
Proof.
  destruct h as [f i|l i|m s|t|r i], h' as [f' i'|l' i'|m' s'|t'|r' i']; simpl;
    intros Hh Hh' [=]; subst; try (by destruct (str_split_nonnil "." _ ltac:(eauto))).
  - f_equal. by apply dec_inj.
  - f_equal; apply dec_inj; tauto.
  - done.
  - f_equal. destruct t, t'. f_equal. by apply str_split_inj.
  - f_equal; [by apply role_name_inj|]. destruct i, i'. f_equal. by apply dec_inj.
Qed.

(** ** Properties *)

(** [SymbolName::new] accepts exactly the canonical names: every segment
    between dots is non-empty and made of lowercase ASCII letters, digits and
    underscores; the accepted name is the string unchanged. *)
Theorem SymbolName_new_iff (s : string) (n : SymbolName) :
  SymbolName_new s = Ok n <->
  n = MkSymbolName s /\
  Forall (fun seg => seg <> EmptyString /\ str_forall symbol_char seg = true) (str_split "." s).
Proof. apply SymbolName_new_ok. Qed.

(** the helper constructors [kernel], [expert], [runtime],
    [runtime_thunk_for] and [section] never give two different requests the
    same name, neither within one constructor nor across two: a name
    determines the constructor and its arguments, so caller-owned components
    cannot collide with a different conceptual path. *)
Theorem helper_names_distinct (h h' : helper) (n : SymbolName)
  (Hh : helper_ok h) (Hh' : helper_ok h')
  (Hn : helper_name h = Ok n) (Hn' : helper_name h' = Ok n) : h = h'.
Proof.
  apply helper_segments_inj; [done..|].
  by rewrite <- (helper_name_segments h n Hn), <- (helper_name_segments h' n Hn').
Qed.

Lemma helper_names_distinct_witness :
  helper_name (H_kernel "matmul" 7) = Ok (MkSymbolName "kernel.matmul.7") /\
  H_kernel "matmul" 7 = H_kernel "matmul" 7.
Proof.
  split; [reflexivity|].
  apply (helper_names_distinct _ _ (MkSymbolName "kernel.matmul.7")); simpl; try lia; reflexivity.
Defined.
