(* ===== verification/SectionIr.v ===== *)
(** * Section items ([gbf-asm/src/section.rs], [interrupt.rs])

    The data a section carries: symbol and lease identifiers, structured ops,
    symbolic branches, interrupt-vector slots, labels, data blocks, alignment
    directives, and the ordered wrapper [OrderedItem].  The operations on
    whole sections are in [SectionOps]. *)

From S2P Require Import Prelude Hw Isa Names.

(** ** Identifiers *)

Record SymbolId := SymbolId_new { SymbolId_get : Z }.
#[export] Instance SymbolId_eq_dec : EqDecision SymbolId. Proof. solve_decision. Defined.

Record LeaseId := LeaseId_new { LeaseId_get : Z }.
#[export] Instance LeaseId_eq_dec : EqDecision LeaseId. Proof. solve_decision. Defined.
#[export] Instance LeaseId_countable : Countable LeaseId.
Proof. apply (inj_countable' LeaseId_get LeaseId_new). by intros []. Defined.

Record LeaseGeneration := MkLeaseGeneration { LeaseGeneration_0 : Z }.
#[export] Instance LeaseGeneration_eq_dec : EqDecision LeaseGeneration.
Proof. solve_decision. Defined.

Record TraceProbeId := TraceProbeId_new { TraceProbeId_get : Z }.
#[export] Instance TraceProbeId_eq_dec : EqDecision TraceProbeId. Proof. solve_decision. Defined.

(** ** Bank leases *)

Inductive MbcBankClass := Mbc_Rom | Mbc_Sram.
#[export] Instance MbcBankClass_eq_dec : EqDecision MbcBankClass. Proof. solve_decision. Defined.

Inductive LeaseLifetime := Life_Slice | Life_ResumeWindow | Life_Token | Life_Manual.
#[export] Instance LeaseLifetime_eq_dec : EqDecision LeaseLifetime.
Proof. solve_decision. Defined.
Definition yield_safe (l : LeaseLifetime) : bool :=
  match l with Life_Manual => false | _ => true end.

Inductive BankLeaseSpecError :=
| RomBankOutOfRange (bank : Z) | SramBankOutOfRange (bank : Z).

(** The fields are private in the source; [BankLeaseSpec_new] builds them. *)
Record BankLeaseSpec := MkBankLeaseSpec {
  spec_lease_id : LeaseId;
  spec_generation : LeaseGeneration;
  spec_class : MbcBankClass;
  spec_bank : Z;
  spec_lifetime : LeaseLifetime;
}.
#[export] Instance BankLeaseSpec_eq_dec : EqDecision BankLeaseSpec.
Proof. solve_decision. Defined.

Definition MAX_ROM_BANK : Z := 0x01FF.
Definition MAX_SRAM_BANK : Z := 0x000F.

Definition BankLeaseSpec_new (id : LeaseId) (generation : LeaseGeneration)
    (class : MbcBankClass) (bank : Z) (lifetime : LeaseLifetime)
    : outcome BankLeaseSpecError BankLeaseSpec :=
  let* _ :=
    match class with
    | Mbc_Rom => guard_err (MAX_ROM_BANK <? bank) (RomBankOutOfRange bank)
    | Mbc_Sram => guard_err (MAX_SRAM_BANK <? bank) (SramBankOutOfRange bank)
    end in
  Ok (MkBankLeaseSpec id generation class bank lifetime).

Inductive BankReleaseDisposition :=
| Rel_KeepCurrent | Rel_RomBank1 | Rel_RomManual (bank : Z)
| Rel_SramDisable | Rel_SramBank (bank : Z).
#[export] Instance BankReleaseDisposition_eq_dec : EqDecision BankReleaseDisposition.
Proof. solve_decision. Defined.

(** ** Structured ops *)

Inductive YieldKind := Yield_PollInterrupts | Yield_FrameBoundary | Yield_Cooperative.
#[export] Instance YieldKind_eq_dec : EqDecision YieldKind. Proof. solve_decision. Defined.
Inductive ProbeLevel := Probe_Trace | Probe_Debug | Probe_Info.
#[export] Instance ProbeLevel_eq_dec : EqDecision ProbeLevel. Proof. solve_decision. Defined.

Inductive PreLayoutOp :=
| Op_BankLease (spec : BankLeaseSpec)
| Op_BankRelease (lease_id : LeaseId) (return_to : BankReleaseDisposition)
| Op_Yield (kind : YieldKind)
| Op_TraceProbe (id : TraceProbeId) (level : ProbeLevel)
| Op_AssertBank (expected : MbcBankClass) (expected_n : Z).
#[export] Instance PreLayoutOp_eq_dec : EqDecision PreLayoutOp. Proof. solve_decision. Defined.

Inductive LegalizationOp :=
| Op_FarCall (target : SymbolName) (lease_chain : list LeaseId).
#[export] Instance LegalizationOp_eq_dec : EqDecision LegalizationOp.
Proof. solve_decision. Defined.

(** ** Interrupt-vector slots (interrupt.rs) *)

Inductive InterruptVectorSlot := Slot_VBlank | Slot_LcdStat | Slot_Timer | Slot_Serial | Slot_Joypad.
#[export] Instance InterruptVectorSlot_eq_dec : EqDecision InterruptVectorSlot.
Proof. solve_decision. Defined.

Definition InterruptVectorSlot_ALL : list InterruptVectorSlot :=
  [Slot_VBlank; Slot_LcdStat; Slot_Timer; Slot_Serial; Slot_Joypad].
Definition SLOT_BYTES : Z := 8.
Definition InterruptVectorSlot_source (s : InterruptVectorSlot) : InterruptSource :=
  match s with
  | Slot_VBlank => Int_VBlank
  | Slot_LcdStat => Int_LcdStat
  | Slot_Timer => Int_Timer
  | Slot_Serial => Int_Serial
  | Slot_Joypad => Int_Joypad
  end.
Definition InterruptVectorSlot_address (s : InterruptVectorSlot) : Z :=
  vector_for (InterruptVectorSlot_source s).
Definition InterruptVectorSlot_end_exclusive (s : InterruptVectorSlot) : Z :=
  InterruptVectorSlot_address s + SLOT_BYTES.
Definition InterruptVectorSlot_canonical_name (s : InterruptVectorSlot) : string :=
  match s with
  | Slot_VBlank => "vblank"
  | Slot_LcdStat => "lcd_stat"
  | Slot_Timer => "timer"
  | Slot_Serial => "serial"
  | Slot_Joypad => "joypad"
  end.

Inductive InterruptVectorSlotError := NonVectorAddress (address : Z).
Definition InterruptVectorSlot_from_address (address : Z)
    : outcome InterruptVectorSlotError InterruptVectorSlot :=
  if address =? vector_for Int_VBlank then Ok Slot_VBlank
  else if address =? vector_for Int_LcdStat then Ok Slot_LcdStat
  else if address =? vector_for Int_Timer then Ok Slot_Timer
  else if address =? vector_for Int_Serial then Ok Slot_Serial
  else if address =? vector_for Int_Joypad then Ok Slot_Joypad
  else Err (NonVectorAddress address).

Record InterruptVector := MkInterruptVector {
  iv_slot : InterruptVectorSlot;
  iv_target : SymbolName;
}.
#[export] Instance InterruptVector_eq_dec : EqDecision InterruptVector.
Proof. solve_decision. Defined.

(** ** Symbolic branches *)

Inductive BranchKind := Branch_AbsoluteJump | Branch_Jump | Branch_Call.
#[export] Instance BranchKind_eq_dec : EqDecision BranchKind. Proof. solve_decision. Defined.
Inductive CallReachability := NearOnly | AutoFar (lease_chain : list LeaseId).
#[export] Instance CallReachability_eq_dec : EqDecision CallReachability.
Proof. solve_decision. Defined.

Record SymbolicBranch := MkSymbolicBranch {
  br_kind : BranchKind;
  br_cond : option Cond;
  br_target : SymbolName;
  br_call_reachability : CallReachability;
}.
#[export] Instance SymbolicBranch_eq_dec : EqDecision SymbolicBranch.
Proof. solve_decision. Defined.

Definition SymbolicBranch_new (kind : BranchKind) (cond : option Cond) (target : SymbolName)
    : SymbolicBranch := MkSymbolicBranch kind cond target NearOnly.
Definition SymbolicBranch_absolute_jump (target : SymbolName) : SymbolicBranch :=
  MkSymbolicBranch Branch_AbsoluteJump None target NearOnly.
Definition SymbolicBranch_interrupt_vector_jp (target : SymbolName) : SymbolicBranch :=
  SymbolicBranch_absolute_jump target.
Definition SymbolicBranch_jump (target : SymbolName) (cond : option Cond) : SymbolicBranch :=
  MkSymbolicBranch Branch_Jump cond target NearOnly.
Definition SymbolicBranch_call (target : SymbolName) (cond : option Cond) : SymbolicBranch :=
  MkSymbolicBranch Branch_Call cond target NearOnly.
Definition SymbolicBranch_auto_far_call (target : SymbolName) (cond : option Cond)
    (lease_chain : list LeaseId) : SymbolicBranch :=
  MkSymbolicBranch Branch_Call cond target (AutoFar lease_chain).

(** ** Ordered items *)

Record ItemOrder := ItemOrder_new { order_seq : Z; order_sub : Z }.
#[export] Instance ItemOrder_eq_dec : EqDecision ItemOrder. Proof. solve_decision. Defined.
(** The derived [Ord]: lexicographic. *)
Definition ItemOrder_leb (a b : ItemOrder) : bool :=
  (order_seq a <? order_seq b)
  || ((order_seq a =? order_seq b) && (order_sub a <=? order_sub b)).

Record OrderedItem (T : Type) := MkOrderedItem {
  item_data : T;
  item_seq : Z;
  item_sub : Z;
  item_prov : InstrProvenance;
}.
Arguments MkOrderedItem {T} _ _ _ _.
Arguments item_data {T} _.
Arguments item_seq {T} _.
Arguments item_sub {T} _.
Arguments item_prov {T} _.
#[export] Instance OrderedItem_eq_dec T `{EqDecision T} : EqDecision (OrderedItem T).
Proof. solve_decision. Defined.

Definition OrderedItem_new_with_sub_index {T} (data : T) (seq_index sub_index : Z)
    (provenance : InstrProvenance) : OrderedItem T :=
  MkOrderedItem data seq_index sub_index provenance.
Definition OrderedItem_new {T} (data : T) (seq_index : Z) (provenance : InstrProvenance)
    : OrderedItem T := OrderedItem_new_with_sub_index data seq_index 0 provenance.
Definition item_order {T} (o : OrderedItem T) : ItemOrder :=
  ItemOrder_new (item_seq o) (item_sub o).

Record Label := MkLabel { label_id : SymbolId; label_name : SymbolName }.
#[export] Instance Label_eq_dec : EqDecision Label. Proof. solve_decision. Defined.

Inductive DataBlock := Db_Bytes (b : list Z) | Db_Words (w : list Z).
#[export] Instance DataBlock_eq_dec : EqDecision DataBlock. Proof. solve_decision. Defined.

(** [len() as u32] truncates; the product may overflow. *)
Definition DataBlock_byte_len {E} (d : DataBlock) : outcome E Z :=
  match d with
  | Db_Bytes b => Ok (wrap U32 (zlen b))
  | Db_Words w => umul U32 (wrap U32 (zlen w)) 2
  end.

(** [Align(NonZeroU16)]. *)
Record Align := MkAlign { Align_0 : Z }.
#[export] Instance Align_eq_dec : EqDecision Align. Proof. solve_decision. Defined.

Lemma ItemOrder_leb_total a b : ItemOrder_leb a b = true \/ ItemOrder_leb b a = true.
Proof. unfold ItemOrder_leb. destruct a as [x y], b as [z w]; simpl. lia. Qed.

Lemma ItemOrder_leb_trans a b c :
  ItemOrder_leb a b = true -> ItemOrder_leb b c = true -> ItemOrder_leb a c = true.
Proof. unfold ItemOrder_leb. destruct a, b, c; simpl. lia. Qed.

Lemma ItemOrder_leb_antisym a b :
  ItemOrder_leb a b = true -> ItemOrder_leb b a = true -> a = b.
Proof.
  unfold ItemOrder_leb. destruct a as [x y], b as [z w]; simpl. intros H1 H2.
  assert (x = z /\ y = w) as [-> ->] by lia. done.
Qed.
