(* ===== verification/Effect.v ===== *)
(** * Machine effects and privilege ([gbf-asm/src/effect.rs])

    What an instruction does that a section may be forbidden to do: its
    [MachineEffect], the parameter-free kind of it, and the privilege class it
    requires. *)

From S2P Require Import Prelude Hw Isa IsaCodec Names SectionIr.

Inductive StaticMemoryRegion :=
| Static_Bank0 | Static_SwitchableRom | Static_Vram | Static_SwitchableSram
| Static_Wram | Static_Oam | Static_Hram | Static_Io | Static_Unusable.
#[export] Instance StaticMemoryRegion_eq_dec : EqDecision StaticMemoryRegion.
Proof. solve_decision. Defined.

Inductive DynamicAddress := Dyn_Bc | Dyn_De | Dyn_Hl | Dyn_HlIncrement | Dyn_HlDecrement.
#[export] Instance DynamicAddress_eq_dec : EqDecision DynamicAddress.
Proof. solve_decision. Defined.

Definition DynamicAddress_from (value : Reg16Addr) : DynamicAddress :=
  match value with
  | Addr_BC => Dyn_Bc
  | Addr_DE => Dyn_De
  | Addr_Hli => Dyn_HlIncrement
  | Addr_Hld => Dyn_HlDecrement
  end.

Inductive IoRegister := Io_Address (addr : Z) | Io_HighC.
#[export] Instance IoRegister_eq_dec : EqDecision IoRegister. Proof. solve_decision. Defined.

Inductive MbcRegisterClass :=
| Mbc_RamEnable | Mbc_RomBankLow | Mbc_RomBankHigh | Mbc_SramBank | Mbc_Reserved.
#[export] Instance MbcRegisterClass_eq_dec : EqDecision MbcRegisterClass.
Proof. solve_decision. Defined.

Definition MbcRegisterClass_for_addr (addr : Z) : option MbcRegisterClass :=
  match classify_mbc_write_address addr with
  | Some Hw_Ramg => Some Mbc_RamEnable
  | Some Hw_Bank1 => Some Mbc_RomBankLow
  | Some Hw_Bank2 => Some Mbc_RomBankHigh
  | Some Hw_Ramb => Some Mbc_SramBank
  | Some Hw_Reserved => Some Mbc_Reserved
  | None => None
  end.

Inductive InterruptControlOp :=
| Ctl_Halt | Ctl_Stop | Ctl_DisableInterrupts | Ctl_EnableInterrupts.
#[export] Instance InterruptControlOp_eq_dec : EqDecision InterruptControlOp.
Proof. solve_decision. Defined.

Inductive SystemCallKind :=
| Sys_BankLease | Sys_BankRelease | Sys_FarCall | Sys_Yield | Sys_TraceProbe | Sys_AssertBank.
#[export] Instance SystemCallKind_eq_dec : EqDecision SystemCallKind.
Proof. solve_decision. Defined.

Inductive PrivilegeClass := Priv_Normal | Priv_Privileged | Priv_InterruptHandler.
#[export] Instance PrivilegeClass_eq_dec : EqDecision PrivilegeClass.
Proof. solve_decision. Defined.

Inductive MachineEffect :=
| E_PureCompute
| E_LoadFromBank0 | E_LoadFromSwitchableRom | E_LoadFromWram | E_LoadFromHram
| E_LoadFromSwitchableSram | E_LoadFromVram | E_LoadFromOam
| E_LoadFromIo (reg : IoRegister) | E_LoadFromUnusable
| E_LoadFromDynamic (via : DynamicAddress) | E_LoadFromStack
| E_StoreToWram | E_StoreToHram | E_StoreToSwitchableSram | E_StoreToVram | E_StoreToOam
| E_StoreToIo (reg : IoRegister) | E_StoreToUnusable
| E_StoreToDynamic (via : DynamicAddress) | E_StoreToStack
| E_StoreToMixedStatic (first second : StaticMemoryRegion)
| E_ReadModifyWriteDynamic (via : DynamicAddress)
| E_StoreToMbcRegister (reg : MbcRegisterClass)
| E_InterruptControl (op : InterruptControlOp)
| E_UnconditionalBranch | E_ConditionalBranch | E_Call | E_Return | E_Reti
| E_Rst (vector : RstVector)
| E_SystemCall (kind : SystemCallKind).
#[export] Instance MachineEffect_eq_dec : EqDecision MachineEffect. Proof. solve_decision. Defined.

Inductive MachineEffectKind :=
| K_PureCompute | K_LoadFromBank0 | K_LoadFromSwitchableRom | K_LoadFromWram
| K_LoadFromHram | K_LoadFromSwitchableSram | K_LoadFromVram | K_LoadFromOam
| K_LoadFromIo | K_LoadFromUnusable | K_LoadFromDynamic | K_LoadFromStack
| K_StoreToWram | K_StoreToHram | K_StoreToSwitchableSram | K_StoreToVram
| K_StoreToOam | K_StoreToIo | K_StoreToUnusable | K_StoreToDynamic | K_StoreToStack
| K_StoreToMixedStatic | K_ReadModifyWriteDynamic | K_StoreToMbcRegister
| K_InterruptControl | K_UnconditionalBranch | K_ConditionalBranch | K_Call
| K_Return | K_Reti | K_Rst | K_SystemCall.
#[export] Instance MachineEffectKind_eq_dec : EqDecision MachineEffectKind.
Proof. solve_decision. Defined.

Definition MachineEffect_kind (e : MachineEffect) : MachineEffectKind :=
  match e with
  | E_PureCompute => K_PureCompute
  | E_LoadFromBank0 => K_LoadFromBank0
  | E_LoadFromSwitchableRom => K_LoadFromSwitchableRom
  | E_LoadFromWram => K_LoadFromWram
  | E_LoadFromHram => K_LoadFromHram
  | E_LoadFromSwitchableSram => K_LoadFromSwitchableSram
  | E_LoadFromVram => K_LoadFromVram
  | E_LoadFromOam => K_LoadFromOam
  | E_LoadFromIo _ => K_LoadFromIo
  | E_LoadFromUnusable => K_LoadFromUnusable
  | E_LoadFromDynamic _ => K_LoadFromDynamic
  | E_LoadFromStack => K_LoadFromStack
  | E_StoreToWram => K_StoreToWram
  | E_StoreToHram => K_StoreToHram
  | E_StoreToSwitchableSram => K_StoreToSwitchableSram
  | E_StoreToVram => K_StoreToVram
  | E_StoreToOam => K_StoreToOam
  | E_StoreToIo _ => K_StoreToIo
  | E_StoreToUnusable => K_StoreToUnusable
  | E_StoreToDynamic _ => K_StoreToDynamic
  | E_StoreToStack => K_StoreToStack
  | E_StoreToMixedStatic _ _ => K_StoreToMixedStatic
  | E_ReadModifyWriteDynamic _ => K_ReadModifyWriteDynamic
  | E_StoreToMbcRegister _ => K_StoreToMbcRegister
  | E_InterruptControl _ => K_InterruptControl
  | E_UnconditionalBranch => K_UnconditionalBranch
  | E_ConditionalBranch => K_ConditionalBranch
  | E_Call => K_Call
  | E_Return => K_Return
  | E_Reti => K_Reti
  | E_Rst _ => K_Rst
  | E_SystemCall _ => K_SystemCall
  end.

Definition disables_interrupts (e : MachineEffect) : bool :=
  match e with E_InterruptControl Ctl_DisableInterrupts => true | _ => false end.

Definition requires_dynamic_address_proof (e : MachineEffect) : bool :=
  match e with
  | E_LoadFromDynamic _ | E_StoreToDynamic _ | E_ReadModifyWriteDynamic _ => true
  | _ => false
  end.

(** ** Classification *)

Definition reg16_addr (addr : Reg16Addr) : DynamicAddress :=
  match addr with
  | Addr_BC => Dyn_Bc
  | Addr_DE => Dyn_De
  | Addr_Hli => Dyn_HlIncrement
  | Addr_Hld => Dyn_HlDecrement
  end.
Definition alu_src_effect (src : AluSrc8) : MachineEffect :=
  match src with
  | Alu_Reg _ | Alu_Imm _ => E_PureCompute
  | Alu_HlIndirect => E_LoadFromDynamic Dyn_Hl
  end.
Definition inc_dec_effect (dst : IncDec8Target) : MachineEffect :=
  match dst with
  | IncDec_Reg _ => E_PureCompute
  | IncDec_HlIndirect => E_ReadModifyWriteDynamic Dyn_Hl
  end.
Definition cb_read_effect (target : CbTarget) : MachineEffect :=
  match target with
  | Cb_Reg _ => E_PureCompute
  | Cb_HlIndirect => E_LoadFromDynamic Dyn_Hl
  end.
Definition cb_read_modify_write_effect (target : CbTarget) : MachineEffect :=
  match target with
  | Cb_Reg _ => E_PureCompute
  | Cb_HlIndirect => E_ReadModifyWriteDynamic Dyn_Hl
  end.

Definition static_region (addr : Z) : StaticMemoryRegion :=
  match classify addr with
  | Region_RomBank0 => Static_Bank0
  | Region_RomSwitchable => Static_SwitchableRom
  | Region_Vram => Static_Vram
  | Region_Sram => Static_SwitchableSram
  | Region_Wram0 | Region_WramX => Static_Wram
  | Region_EchoRam | Region_Unmapped => Static_Unusable
  | Region_Oam => Static_Oam
  | Region_Io | Region_InterruptEnable => Static_Io
  | Region_Hram => Static_Hram
  end.

Definition same_static_region (left right : StaticMemoryRegion) : bool :=
  match left, right with
  | Static_Bank0, Static_Bank0
  | Static_SwitchableRom, Static_SwitchableRom
  | Static_Vram, Static_Vram
  | Static_SwitchableSram, Static_SwitchableSram
  | Static_Wram, Static_Wram
  | Static_Oam, Static_Oam
  | Static_Hram, Static_Hram
  | Static_Io, Static_Io
  | Static_Unusable, Static_Unusable => true
  | _, _ => false
  end.

Definition is_privileged_static_region (region : StaticMemoryRegion) : bool :=
  match region with Static_Bank0 | Static_SwitchableRom => true | _ => false end.

Definition load_from_direct (addr : DirectAddr) : MachineEffect :=
  match static_region (DirectAddr_get addr) with
  | Static_Bank0 => E_LoadFromBank0
  | Static_SwitchableRom => E_LoadFromSwitchableRom
  | Static_Vram => E_LoadFromVram
  | Static_SwitchableSram => E_LoadFromSwitchableSram
  | Static_Wram => E_LoadFromWram
  | Static_Oam => E_LoadFromOam
  | Static_Hram => E_LoadFromHram
  | Static_Io => E_LoadFromIo (Io_Address (DirectAddr_get addr))
  | Static_Unusable => E_LoadFromUnusable
  end.

Definition store_to_addr (addr : Z) : MachineEffect :=
  match static_region addr with
  | Static_Bank0 | Static_SwitchableRom =>
      E_StoreToMbcRegister
        match MbcRegisterClass_for_addr addr with Some reg => reg | None => Mbc_Reserved end
  | Static_Vram => E_StoreToVram
  | Static_SwitchableSram => E_StoreToSwitchableSram
  | Static_Wram => E_StoreToWram
  | Static_Oam => E_StoreToOam
  | Static_Hram => E_StoreToHram
  | Static_Io => E_StoreToIo (Io_Address addr)
  | Static_Unusable => E_StoreToUnusable
  end.
Definition store_to_direct (addr : DirectAddr) : MachineEffect :=
  store_to_addr (DirectAddr_get addr).

(** The second byte of the store goes to [addr.wrapping_add(1)]. *)
Definition store_sp_to_addr (addr : Z) : MachineEffect :=
  let first := static_region addr in
  let second := static_region (wrap U16 (addr + 1)) in
  if same_static_region first second then store_to_addr addr
  else E_StoreToMixedStatic first second.

Definition is_hram_addr (addr : Z) : bool := is_hram addr.

Definition load_from_high_direct (offset : HighDirectOffset) : MachineEffect :=
  let addr := HighDirectOffset_absolute_addr offset in
  if is_hram_addr addr then E_LoadFromHram else E_LoadFromIo (Io_Address addr).
Definition store_to_high_direct (offset : HighDirectOffset) : MachineEffect :=
  let addr := HighDirectOffset_absolute_addr offset in
  if is_hram_addr addr then E_StoreToHram else E_StoreToIo (Io_Address addr).

Definition classify_effect (instr : Instr) : MachineEffect :=
  match instr with
  | I_Nop | I_Ccf | I_Scf | I_Cpl | I_Daa | I_Ld8Reg _ _ | I_Ld8RegFromImm _ _
  | I_Ld16Imm _ _ | I_LdSpFromHl | I_LdHlFromSpPlus _ | I_Inc16 _ | I_Dec16 _
  | I_AddHl _ | I_AddSp _ | I_Rlca | I_Rrca | I_Rla | I_Rra => E_PureCompute
  | I_Push _ => E_StoreToStack
  | I_Pop _ => E_LoadFromStack
  | I_Stop => E_InterruptControl Ctl_Stop
  | I_Halt => E_InterruptControl Ctl_Halt
  | I_Di => E_InterruptControl Ctl_DisableInterrupts
  | I_Ei => E_InterruptControl Ctl_EnableInterrupts
  | I_Ld8RegFromHl _ => E_LoadFromDynamic Dyn_Hl
  | I_Ld8HlFromReg _ | I_Ld8HlFromImm _ => E_StoreToDynamic Dyn_Hl
  | I_LdAFromReg16Addr src => E_LoadFromDynamic (reg16_addr src)
  | I_LdReg16AddrFromA dst => E_StoreToDynamic (reg16_addr dst)
  | I_LdAFromDirect addr => load_from_direct addr
  | I_LdDirectFromA addr => store_to_direct addr
  | I_LdAFromHighDirect offset => load_from_high_direct offset
  | I_LdHighDirectFromA offset => store_to_high_direct offset
  | I_LdAFromHighC => E_LoadFromIo Io_HighC
  | I_LdHighCFromA => E_StoreToIo Io_HighC
  | I_LdDirectFromSp addr => store_sp_to_addr addr
  | I_AddA src | I_AdcA src | I_SubA src | I_SbcA src
  | I_AndA src | I_OrA src | I_XorA src | I_CpA src => alu_src_effect src
  | I_Inc8 dst | I_Dec8 dst => inc_dec_effect dst
  | I_Rlc target | I_Rrc target | I_Rl target | I_Rr target
  | I_Sla target | I_Sra target | I_Srl target | I_Swap target
  | I_Res _ target | I_Set _ target => cb_read_modify_write_effect target
  | I_Bit _ target => cb_read_effect target
  | I_JpAbs None _ | I_JpHl => E_UnconditionalBranch
  | I_JpAbs (Some _) _ | I_JrRel (Some _) _ => E_ConditionalBranch
  | I_JrRel None _ => E_UnconditionalBranch
  | I_Call _ _ => E_Call
  | I_Ret _ => E_Return
  | I_Reti => E_Reti
  | I_Rst vector => E_Rst vector
  end.

Definition classify_pre_layout_op (op : PreLayoutOp) : MachineEffect :=
  match op with
  | Op_BankLease _ => E_SystemCall Sys_BankLease
  | Op_BankRelease _ _ => E_SystemCall Sys_BankRelease
  | Op_Yield _ => E_SystemCall Sys_Yield
  | Op_TraceProbe _ _ => E_SystemCall Sys_TraceProbe
  | Op_AssertBank _ _ => E_SystemCall Sys_AssertBank
  end.

Definition classify_legalization_op (op : LegalizationOp) : MachineEffect :=
  match op with Op_FarCall _ _ => E_SystemCall Sys_FarCall end.

Definition privilege_of (effect : MachineEffect) : PrivilegeClass :=
  match effect with
  | E_StoreToMbcRegister _ => Priv_Privileged
  | E_StoreToMixedStatic first second =>
      if is_privileged_static_region first || is_privileged_static_region second
      then Priv_Privileged else Priv_Normal
  | E_InterruptControl _ => Priv_Privileged
  | E_Reti => Priv_InterruptHandler
  | E_PureCompute | E_LoadFromBank0 | E_LoadFromSwitchableRom | E_LoadFromWram
  | E_LoadFromHram | E_LoadFromSwitchableSram | E_LoadFromVram | E_LoadFromOam
  | E_LoadFromIo _ | E_LoadFromUnusable | E_LoadFromDynamic _ | E_LoadFromStack
  | E_StoreToWram | E_StoreToHram | E_StoreToSwitchableSram | E_StoreToVram
  | E_StoreToOam | E_StoreToIo _ | E_StoreToUnusable | E_StoreToDynamic _
  | E_StoreToStack | E_ReadModifyWriteDynamic _ | E_UnconditionalBranch
  | E_ConditionalBranch | E_Call | E_Return | E_Rst _ | E_SystemCall _ => Priv_Normal
  end.

(** ** The privilege boundary, against a reference reading

    The byte addresses an instruction writes that are known from the
    instruction alone. *)

Definition static_store_bytes (i : Instr) : list Z :=
  match i with
  | I_LdDirectFromA a => [DirectAddr_get a]
  | I_LdHighDirectFromA o => [HighDirectOffset_absolute_addr o]
  | I_LdDirectFromSp a => [a; (a + 1) mod 65536]
  | _ => []
  end.

(** The instructions that change the interrupt state or stop the clock. *)
Definition is_interrupt_control (i : Instr) : bool :=
  match i with I_Stop | I_Halt | I_Di | I_Ei => true | _ => false end.

Lemma static_region_rom addr : 0 <= addr ->
  is_privileged_static_region (static_region addr) = true <-> addr < 0x8000.
Proof.
  intros H0. rewrite <- (classify_rom addr H0). unfold static_region.
  destruct (classify addr); simpl; intuition congruence.
Qed.

Lemma same_static_region_eq r r' : same_static_region r r' = true <-> r = r'.
Proof. destruct r, r'; simpl; split; congruence. Qed.

Lemma privilege_of_store_to_addr addr :
  privilege_of (store_to_addr addr) = Priv_Privileged
  <-> is_privileged_static_region (static_region addr) = true.
Proof. unfold store_to_addr. destruct (static_region addr); simpl; split; congruence. Qed.

Lemma privilege_of_store_sp addr :
  privilege_of (store_sp_to_addr addr) = Priv_Privileged
  <-> is_privileged_static_region (static_region addr) = true
      \/ is_privileged_static_region (static_region (wrap U16 (addr + 1))) = true.
Proof.
  unfold store_sp_to_addr.
  destruct (same_static_region _ _) eqn:E.
  - apply same_static_region_eq in E. rewrite privilege_of_store_to_addr, <- E. tauto.
  - simpl. rewrite <- orb_true_iff. by destruct (_ || _).
Qed.

Lemma privilege_of_store_high o :
  privilege_of (store_to_high_direct o) = Priv_Normal.
Proof. unfold store_to_high_direct. by destruct (is_hram_addr _). Qed.

Lemma privilege_of_load_direct a : privilege_of (load_from_direct a) = Priv_Normal.
Proof. unfold load_from_direct. by destruct (static_region _). Qed.

Lemma privilege_of_load_high o : privilege_of (load_from_high_direct o) = Priv_Normal.
Proof. unfold load_from_high_direct. by destruct (is_hram_addr _). Qed.

Lemma alu_src_normal src : privilege_of (alu_src_effect src) = Priv_Normal.
Proof. by destruct src. Qed.
Lemma inc_dec_normal dst : privilege_of (inc_dec_effect dst) = Priv_Normal.
Proof. by destruct dst. Qed.
Lemma cb_read_normal t : privilege_of (cb_read_effect t) = Priv_Normal.
Proof. by destruct t. Qed.
Lemma cb_rmw_normal t : privilege_of (cb_read_modify_write_effect t) = Priv_Normal.
Proof. by destruct t. Qed.

(** ** Properties *)

(** the classifier draws the privilege boundary exactly where the hardware
    does: an encodable instruction requires [Privileged] if and only if it is an
    interrupt-control instruction or a byte it writes at a statically known
    address (both bytes of [LD (nn),SP], with the 16-bit wrap) falls into the
    cartridge's register window $0000-$7FFF. *)
Theorem privileged_iff_touches_mbc (i : Instr) (Hi : instr_ok i = true) :
  privilege_of (classify_effect i) = Priv_Privileged <->
  is_interrupt_control i = true \/ exists a, In a (static_store_bytes i) /\ a < 0x8000.
Proof.
  setoid_rewrite <- list_elem_of_In. rewrite <- Exists_exists.
  destruct i; simpl in *; try (destruct cond; simpl);
    rewrite ?alu_src_normal, ?inc_dec_normal, ?cb_read_normal, ?cb_rmw_normal,
      ?privilege_of_store_high, ?privilege_of_load_direct, ?privilege_of_load_high;
    rewrite ?Exists_cons, ?Exists_nil; try (split; intuition congruence).
  - apply in_range_true in Hi. unfold store_to_direct.
    rewrite privilege_of_store_to_addr, static_region_rom by lia. intuition congruence.
  - apply in_range_true in Hi. unfold HighDirectOffset_absolute_addr.
    split; [congruence | intuition (congruence || lia)].
  - apply in_range_true in Hi.
    rewrite privilege_of_store_sp, !static_region_rom by (lia || by apply Z.mod_pos_bound).
    unfold wrap. intuition congruence.
Qed.

Lemma privileged_iff_touches_mbc_witness :
  instr_ok (I_LdDirectFromSp 0xFFFF) = true /\
  (privilege_of (classify_effect (I_LdDirectFromSp 0xFFFF)) = Priv_Privileged <->
   is_interrupt_control (I_LdDirectFromSp 0xFFFF) = true
   \/ exists a, In a (static_store_bytes (I_LdDirectFromSp 0xFFFF)) /\ a < 0x8000).
Proof. split; [reflexivity | by apply (privileged_iff_touches_mbc (I_LdDirectFromSp 0xFFFF))]. Defined.
