(* ===== verification/SectionOps.v ===== *)
(** * Sections and their privilege policy ([gbf-asm/src/section.rs])

    [SectionPrivilege] and its effect check, the struct-of-arrays section
    [AsmSection] (the source's [Section]) with its push operations, the merged
    view [iter_items], and the two stage types that physically lack the arrays
    already lowered away. *)

From S2P Require Import Prelude Hw Isa IsaCodec Names SectionIr Effect.

(** ** Privilege policy *)

Inductive ExecutionContext := Ctx_Normal | Ctx_InterruptHandler | Ctx_PanicOnly | Ctx_VideoCommitOnly.
#[export] Instance ExecutionContext_eq_dec : EqDecision ExecutionContext.
Proof. solve_decision. Defined.
Inductive InterruptDiscipline := Disc_Default | Disc_ImeDisabled.
#[export] Instance InterruptDiscipline_eq_dec : EqDecision InterruptDiscipline.
Proof. solve_decision. Defined.

Inductive PrivilegeViolation :=
| Viol_RequiredPrivilege (required section : PrivilegeClass)
| Viol_InterruptDisabledNotAllowed
| Viol_EffectKindNotAllowed (kind : MachineEffectKind)
| Viol_ForbiddenMbcReserved.
#[export] Instance PrivilegeViolation_eq_dec : EqDecision PrivilegeViolation.
Proof. solve_decision. Defined.

Record SectionPrivilegeError := MkSectionPrivilegeError {
  spe_seq_index : Z;
  spe_effect : MachineEffect;
  spe_violation : PrivilegeViolation;
}.
#[export] Instance SectionPrivilegeError_eq_dec : EqDecision SectionPrivilegeError.
Proof. solve_decision. Defined.

(** [allowed_effects] is a [BTreeSet] of which only membership is observed. *)
Record SectionPrivilege := MkSectionPrivilege {
  default_privilege : PrivilegeClass;
  allows_interrupt_disabled : bool;
  allowed_effects : option (list MachineEffectKind);
  execution_context : ExecutionContext;
  interrupt_discipline : InterruptDiscipline;
  panic_bypass : bool;
}.
#[export] Instance SectionPrivilege_eq_dec : EqDecision SectionPrivilege.
Proof. solve_decision. Defined.

Definition SectionPrivilege_normal : SectionPrivilege :=
  MkSectionPrivilege Priv_Normal false None Ctx_Normal Disc_Default false.
Definition SectionPrivilege_default : SectionPrivilege := SectionPrivilege_normal.
Definition SectionPrivilege_privileged : SectionPrivilege :=
  MkSectionPrivilege Priv_Privileged true None Ctx_Normal Disc_Default false.
Definition SectionPrivilege_interrupt_handler : SectionPrivilege :=
  MkSectionPrivilege Priv_InterruptHandler false None Ctx_InterruptHandler Disc_ImeDisabled false.

Definition with_allows_interrupt_disabled (b : bool) (p : SectionPrivilege) : SectionPrivilege :=
  MkSectionPrivilege (default_privilege p) b (allowed_effects p) (execution_context p)
    (interrupt_discipline p) (panic_bypass p).
Definition with_allowed_effects (ks : list MachineEffectKind) (p : SectionPrivilege)
    : SectionPrivilege :=
  MkSectionPrivilege (default_privilege p) (allows_interrupt_disabled p) (Some ks)
    (execution_context p) (interrupt_discipline p) (panic_bypass p).
Definition with_execution_context (c : ExecutionContext) (p : SectionPrivilege)
    : SectionPrivilege :=
  MkSectionPrivilege (default_privilege p) (allows_interrupt_disabled p) (allowed_effects p) c
    (interrupt_discipline p) (panic_bypass p).
Definition with_interrupt_discipline (d : InterruptDiscipline) (p : SectionPrivilege)
    : SectionPrivilege :=
  MkSectionPrivilege (default_privilege p) (allows_interrupt_disabled p) (allowed_effects p)
    (execution_context p) d (panic_bypass p).
Definition with_panic_bypass (b : bool) (p : SectionPrivilege) : SectionPrivilege :=
  MkSectionPrivilege (default_privilege p) (allows_interrupt_disabled p) (allowed_effects p)
    (execution_context p) (interrupt_discipline p) b.

Definition allows_privilege (p : SectionPrivilege) (required : PrivilegeClass) : bool :=
  match default_privilege p, required with
  | _, Priv_Normal
  | Priv_Privileged, Priv_Privileged
  | Priv_InterruptHandler, Priv_InterruptHandler => true
  | _, _ => false
  end.

Definition check_effect (p : SectionPrivilege) (effect : MachineEffect)
    : outcome PrivilegeViolation unit :=
  let* _ := guard_err
    match effect with E_StoreToMbcRegister Mbc_Reserved => true | _ => false end
    Viol_ForbiddenMbcReserved in
  let kind := MachineEffect_kind effect in
  let* _ := guard_err
    match allowed_effects p with
    | Some allowed => negb (bool_decide (kind ∈ allowed))
    | None => false
    end (Viol_EffectKindNotAllowed kind) in
  let* _ := guard_err (disables_interrupts effect && negb (allows_interrupt_disabled p))
    Viol_InterruptDisabledNotAllowed in
  let required := privilege_of effect in
  if allows_privilege p required then Ok tt
  else Err (Viol_RequiredPrivilege required (default_privilege p)).

Definition permits_effect (p : SectionPrivilege) (effect : MachineEffect) : bool :=
  is_ok (check_effect p effect).

Definition SymbolicBranch_machine_effect (b : SymbolicBranch) : MachineEffect :=
  match br_kind b, br_cond b with
  | Branch_AbsoluteJump, None => E_UnconditionalBranch
  | Branch_AbsoluteJump, Some _ => E_ConditionalBranch
  | Branch_Jump, None => E_UnconditionalBranch
  | Branch_Jump, Some _ => E_ConditionalBranch
  | Branch_Call, _ => E_Call
  end.

(** ** Item views *)

Inductive SectionItemView :=
| View_Label (o : OrderedItem Label)
| View_Instr (o : OrderedItem Instr)
| View_DataBlock (o : OrderedItem DataBlock)
| View_Align (o : OrderedItem Align)
| View_PreLayoutOp (o : OrderedItem PreLayoutOp)
| View_LegalizationOp (o : OrderedItem LegalizationOp)
| View_Branch (o : OrderedItem SymbolicBranch).

Definition view_seq_index (v : SectionItemView) : Z :=
  match v with
  | View_Label o => item_seq o
  | View_Instr o => item_seq o
  | View_DataBlock o => item_seq o
  | View_Align o => item_seq o
  | View_PreLayoutOp o => item_seq o
  | View_LegalizationOp o => item_seq o
  | View_Branch o => item_seq o
  end.
Definition view_order (v : SectionItemView) : ItemOrder :=
  match v with
  | View_Label o => item_order o
  | View_Instr o => item_order o
  | View_DataBlock o => item_order o
  | View_Align o => item_order o
  | View_PreLayoutOp o => item_order o
  | View_LegalizationOp o => item_order o
  | View_Branch o => item_order o
  end.
Definition view_provenance (v : SectionItemView) : InstrProvenance :=
  match v with
  | View_Label o => item_prov o
  | View_Instr o => item_prov o
  | View_DataBlock o => item_prov o
  | View_Align o => item_prov o
  | View_PreLayoutOp o => item_prov o
  | View_LegalizationOp o => item_prov o
  | View_Branch o => item_prov o
  end.
Definition view_machine_effect (v : SectionItemView) : option MachineEffect :=
  match v with
  | View_Instr o => Some (classify_effect (item_data o))
  | View_PreLayoutOp o => Some (classify_pre_layout_op (item_data o))
  | View_LegalizationOp o => Some (classify_legalization_op (item_data o))
  | View_Branch o => Some (SymbolicBranch_machine_effect (item_data o))
  | View_Label _ | View_DataBlock _ | View_Align _ => None
  end.
Definition view_fixed_byte_len {E} (v : SectionItemView) : outcome E (option Z) :=
  match v with
  | View_Label _ => Ok (Some 0)
  | View_Instr o => Ok (Some (Instr_byte_len (item_data o)))
  | View_DataBlock o => let* n := DataBlock_byte_len (item_data o) in Ok (Some n)
  | View_Align _ | View_PreLayoutOp _ | View_LegalizationOp _ | View_Branch _ => Ok None
  end.

(** ** Sections *)

Record AsmSection := MkSection {
  sec_id : SectionId;
  sec_role : SectionRole;
  sec_name : SymbolName;
  sec_interrupt_vector : option InterruptVector;
  sec_privilege : SectionPrivilege;
  sec_align : Z;
  sec_size_hint_bytes : option Z;
  sec_next_seq_index : Z;
  sec_labels : list (OrderedItem Label);
  sec_instrs : list (OrderedItem Instr);
  sec_data_blocks : list (OrderedItem DataBlock);
  sec_alignments : list (OrderedItem Align);
  sec_pre_layout_ops : list (OrderedItem PreLayoutOp);
  sec_legalization_ops : list (OrderedItem LegalizationOp);
  sec_branches : list (OrderedItem SymbolicBranch);
}.
#[export] Instance AsmSection_eq_dec : EqDecision AsmSection.
Proof. solve_decision. Defined.

(** Field update. *)
Definition set_sec_interrupt_vector (x : option InterruptVector) (s : AsmSection) : AsmSection :=
  MkSection (sec_id s) (sec_role s) (sec_name s) x (sec_privilege s) (sec_align s)
    (sec_size_hint_bytes s) (sec_next_seq_index s) (sec_labels s) (sec_instrs s)
    (sec_data_blocks s) (sec_alignments s) (sec_pre_layout_ops s) (sec_legalization_ops s)
    (sec_branches s).
Definition set_sec_privilege (x : SectionPrivilege) (s : AsmSection) : AsmSection :=
  MkSection (sec_id s) (sec_role s) (sec_name s) (sec_interrupt_vector s) x (sec_align s)
    (sec_size_hint_bytes s) (sec_next_seq_index s) (sec_labels s) (sec_instrs s)
    (sec_data_blocks s) (sec_alignments s) (sec_pre_layout_ops s) (sec_legalization_ops s)
    (sec_branches s).
Definition set_sec_size_hint_bytes (x : option Z) (s : AsmSection) : AsmSection :=
  MkSection (sec_id s) (sec_role s) (sec_name s) (sec_interrupt_vector s) (sec_privilege s)
    (sec_align s) x (sec_next_seq_index s) (sec_labels s) (sec_instrs s) (sec_data_blocks s)
    (sec_alignments s) (sec_pre_layout_ops s) (sec_legalization_ops s) (sec_branches s).
Definition set_sec_next_seq_index (x : Z) (s : AsmSection) : AsmSection :=
  MkSection (sec_id s) (sec_role s) (sec_name s) (sec_interrupt_vector s) (sec_privilege s)
    (sec_align s) (sec_size_hint_bytes s) x (sec_labels s) (sec_instrs s)
    (sec_data_blocks s) (sec_alignments s) (sec_pre_layout_ops s) (sec_legalization_ops s)
    (sec_branches s).
Definition set_sec_labels (x : list (OrderedItem Label)) (s : AsmSection) : AsmSection :=
  MkSection (sec_id s) (sec_role s) (sec_name s) (sec_interrupt_vector s) (sec_privilege s)
    (sec_align s) (sec_size_hint_bytes s) (sec_next_seq_index s) x (sec_instrs s)
    (sec_data_blocks s) (sec_alignments s) (sec_pre_layout_ops s) (sec_legalization_ops s)
    (sec_branches s).
Definition set_sec_instrs (x : list (OrderedItem Instr)) (s : AsmSection) : AsmSection :=
  MkSection (sec_id s) (sec_role s) (sec_name s) (sec_interrupt_vector s) (sec_privilege s)
    (sec_align s) (sec_size_hint_bytes s) (sec_next_seq_index s) (sec_labels s) x
    (sec_data_blocks s) (sec_alignments s) (sec_pre_layout_ops s) (sec_legalization_ops s)
    (sec_branches s).
Definition set_sec_data_blocks (x : list (OrderedItem DataBlock)) (s : AsmSection) : AsmSection :=
  MkSection (sec_id s) (sec_role s) (sec_name s) (sec_interrupt_vector s) (sec_privilege s)
    (sec_align s) (sec_size_hint_bytes s) (sec_next_seq_index s) (sec_labels s)
    (sec_instrs s) x (sec_alignments s) (sec_pre_layout_ops s) (sec_legalization_ops s)
    (sec_branches s).
Definition set_sec_alignments (x : list (OrderedItem Align)) (s : AsmSection) : AsmSection :=
  MkSection (sec_id s) (sec_role s) (sec_name s) (sec_interrupt_vector s) (sec_privilege s)
    (sec_align s) (sec_size_hint_bytes s) (sec_next_seq_index s) (sec_labels s)
    (sec_instrs s) (sec_data_blocks s) x (sec_pre_layout_ops s) (sec_legalization_ops s)
    (sec_branches s).
Definition set_sec_pre_layout_ops (x : list (OrderedItem PreLayoutOp)) (s : AsmSection) : AsmSection :=
  MkSection (sec_id s) (sec_role s) (sec_name s) (sec_interrupt_vector s) (sec_privilege s)
    (sec_align s) (sec_size_hint_bytes s) (sec_next_seq_index s) (sec_labels s)
    (sec_instrs s) (sec_data_blocks s) (sec_alignments s) x (sec_legalization_ops s)
    (sec_branches s).
Definition set_sec_legalization_ops (x : list (OrderedItem LegalizationOp)) (s : AsmSection) : AsmSection :=
  MkSection (sec_id s) (sec_role s) (sec_name s) (sec_interrupt_vector s) (sec_privilege s)
    (sec_align s) (sec_size_hint_bytes s) (sec_next_seq_index s) (sec_labels s)
    (sec_instrs s) (sec_data_blocks s) (sec_alignments s) (sec_pre_layout_ops s) x
    (sec_branches s).
Definition set_sec_branches (x : list (OrderedItem SymbolicBranch)) (s : AsmSection) : AsmSection :=
  MkSection (sec_id s) (sec_role s) (sec_name s) (sec_interrupt_vector s) (sec_privilege s)
    (sec_align s) (sec_size_hint_bytes s) (sec_next_seq_index s) (sec_labels s)
    (sec_instrs s) (sec_data_blocks s) (sec_alignments s) (sec_pre_layout_ops s)
    (sec_legalization_ops s) x.

Definition AsmSection_new (id : SectionId) (role : SectionRole) (name : SymbolName) (align : Z)
    : AsmSection :=
  MkSection id role name None SectionPrivilege_default align None 0 [] [] [] [] [] [] [].

(** [set_interrupt_vector] and [with_size_hint_bytes]. *)
Definition section_set_interrupt_vector (iv : InterruptVector) (s : AsmSection) : AsmSection :=
  set_sec_interrupt_vector (Some iv) s.
Definition with_size_hint_bytes (n : Z) (s : AsmSection) : AsmSection :=
  set_sec_size_hint_bytes (Some n) s.

(** The effects of a section that its policy is checked against, in the order
    the source chains them. *)
Definition section_candidates (s : AsmSection) : list (Z * MachineEffect) :=
  map (fun i => (item_seq i, classify_effect (item_data i))) (sec_instrs s)
  ++ map (fun i => (item_seq i, classify_pre_layout_op (item_data i))) (sec_pre_layout_ops s)
  ++ map (fun i => (item_seq i, classify_legalization_op (item_data i)))
       (sec_legalization_ops s)
  ++ map (fun i => (item_seq i, SymbolicBranch_machine_effect (item_data i))) (sec_branches s).

Definition earliest_violation (p : SectionPrivilege)
    (earliest : option SectionPrivilegeError) (c : Z * MachineEffect)
    : option SectionPrivilegeError :=
  let '(seq_index, effect) := c in
  match check_effect p effect with
  | Err violation =>
      match earliest with
      | Some e =>
          if spe_seq_index e <=? seq_index then earliest
          else Some (MkSectionPrivilegeError seq_index effect violation)
      | None => Some (MkSectionPrivilegeError seq_index effect violation)
      end
  | _ => earliest
  end.

Definition validate_section_for_privilege (s : AsmSection) (p : SectionPrivilege)
    : outcome SectionPrivilegeError unit :=
  match foldl (earliest_violation p) None (section_candidates s) with
  | Some e => Err e
  | None => Ok tt
  end.

(** [try_set_privilege], [set_privilege], [try_with_privilege]; on an error the
    section is unchanged, so the error carries no state. *)
Definition try_set_privilege (p : SectionPrivilege) (s : AsmSection)
    : outcome SectionPrivilegeError AsmSection :=
  let* _ := validate_section_for_privilege s p in
  Ok (set_sec_privilege p s).
Definition with_privilege {E} (p : SectionPrivilege) (s : AsmSection) : outcome E AsmSection :=
  match try_set_privilege p s with Ok s' => Ok s' | _ => Panic end.

Definition next_seq {E} (s : AsmSection) : outcome E (Z * AsmSection) :=
  let* n := expect (checked_add U32 (sec_next_seq_index s) 1) in
  Ok (sec_next_seq_index s, set_sec_next_seq_index n s).

Definition push_label {E} (x : Label) (p : InstrProvenance) (s : AsmSection)
    : outcome E AsmSection :=
  let* (seq, s) := next_seq s in
  Ok (set_sec_labels (sec_labels s ++ [OrderedItem_new x seq p]) s).
Definition push_instr {E} (x : Instr) (p : InstrProvenance) (s : AsmSection)
    : outcome E AsmSection :=
  let* (seq, s) := next_seq s in
  Ok (set_sec_instrs (sec_instrs s ++ [OrderedItem_new x seq p]) s).
Definition push_data_block {E} (x : DataBlock) (p : InstrProvenance) (s : AsmSection)
    : outcome E AsmSection :=
  let* (seq, s) := next_seq s in
  Ok (set_sec_data_blocks (sec_data_blocks s ++ [OrderedItem_new x seq p]) s).
Definition push_align {E} (x : Align) (p : InstrProvenance) (s : AsmSection)
    : outcome E AsmSection :=
  let* (seq, s) := next_seq s in
  Ok (set_sec_alignments (sec_alignments s ++ [OrderedItem_new x seq p]) s).
Definition push_pre_layout_op {E} (x : PreLayoutOp) (p : InstrProvenance) (s : AsmSection)
    : outcome E AsmSection :=
  let* (seq, s) := next_seq s in
  Ok (set_sec_pre_layout_ops (sec_pre_layout_ops s ++ [OrderedItem_new x seq p]) s).
Definition push_legalization_op {E} (x : LegalizationOp) (p : InstrProvenance) (s : AsmSection)
    : outcome E AsmSection :=
  let* (seq, s) := next_seq s in
  Ok (set_sec_legalization_ops (sec_legalization_ops s ++ [OrderedItem_new x seq p]) s).
Definition push_branch {E} (x : SymbolicBranch) (p : InstrProvenance) (s : AsmSection)
    : outcome E AsmSection :=
  let* (seq, s) := next_seq s in
  Ok (set_sec_branches (sec_branches s ++ [OrderedItem_new x seq p]) s).

Definition total_items (s : AsmSection) : Z :=
  zlen (sec_labels s) + zlen (sec_instrs s) + zlen (sec_data_blocks s)
  + zlen (sec_alignments s) + zlen (sec_pre_layout_ops s)
  + zlen (sec_legalization_ops s) + zlen (sec_branches s).

Definition view_leb (a b : SectionItemView) : bool := ItemOrder_leb (view_order a) (view_order b).
Definition section_views (s : AsmSection) : list SectionItemView :=
  map View_Label (sec_labels s) ++ map View_Instr (sec_instrs s)
  ++ map View_DataBlock (sec_data_blocks s) ++ map View_Align (sec_alignments s)
  ++ map View_PreLayoutOp (sec_pre_layout_ops s)
  ++ map View_LegalizationOp (sec_legalization_ops s) ++ map View_Branch (sec_branches s).
Definition iter_items (s : AsmSection) : list SectionItemView :=
  sort_by view_leb (section_views s).

Definition fixed_item_bytes {E} (s : AsmSection) : outcome E (option Z) :=
  match sec_alignments s, sec_pre_layout_ops s, sec_legalization_ops s, sec_branches s with
  | [], [], [], [] =>
      let* instr_bytes :=
        ofold (fun acc i => uadd U32 acc (Instr_byte_len (item_data i))) 0 (sec_instrs s) in
      let* data_bytes :=
        ofold (fun acc i => let* n := DataBlock_byte_len (item_data i) in uadd U32 acc n)
          0 (sec_data_blocks s) in
      let* n := uadd U32 instr_bytes data_bytes in
      Ok (Some n)
  | _, _, _, _ => Ok None
  end.

(** ** Later stages *)

Record LoweredSection := MkLoweredSection {
  low_id : SectionId;
  low_role : SectionRole;
  low_name : SymbolName;
  low_interrupt_vector : option InterruptVector;
  low_privilege : SectionPrivilege;
  low_align : Z;
  low_size_hint_bytes : option Z;
  low_next_seq_index : Z;
  low_labels : list (OrderedItem Label);
  low_instrs : list (OrderedItem Instr);
  low_data_blocks : list (OrderedItem DataBlock);
  low_alignments : list (OrderedItem Align);
  low_legalization_ops : list (OrderedItem LegalizationOp);
  low_branches : list (OrderedItem SymbolicBranch);
}.
#[export] Instance LoweredSection_eq_dec : EqDecision LoweredSection.
Proof. solve_decision. Defined.

Record LegalizedSection := MkLegalizedSection {
  leg_id : SectionId;
  leg_role : SectionRole;
  leg_name : SymbolName;
  leg_interrupt_vector : option InterruptVector;
  leg_privilege : SectionPrivilege;
  leg_align : Z;
  leg_size_hint_bytes : option Z;
  leg_next_seq_index : Z;
  leg_labels : list (OrderedItem Label);
  leg_instrs : list (OrderedItem Instr);
  leg_data_blocks : list (OrderedItem DataBlock);
  leg_alignments : list (OrderedItem Align);
}.
#[export] Instance LegalizedSection_eq_dec : EqDecision LegalizedSection.
Proof. solve_decision. Defined.

(** ** Lemmas *)

Lemma permits_effect_false p e : permits_effect p e = false <-> exists v, check_effect p e = Err v.
Proof.
  unfold permits_effect. split.
  - assert (Hr : returns (check_effect p e)).
    { unfold check_effect, guard_err. repeat case_match; simpl; done. }
    destruct (check_effect p e); simpl in *; try done. eauto.
  - by intros [v ->].
Qed.

Definition violates (p : SectionPrivilege) (c : Z * MachineEffect) : Prop :=
  permits_effect p c.2 = false.

(** What the fold over the candidates has found: a minimal violation of the
    candidates seen, or none. *)
Definition earliest_of (p : SectionPrivilege) (l : list (Z * MachineEffect))
    (o : option SectionPrivilegeError) : Prop :=
  match o with
  | None => forall c, c ∈ l -> ~ violates p c
  | Some e =>
      (spe_seq_index e, spe_effect e) ∈ l
      /\ check_effect p (spe_effect e) = Err (spe_violation e)
      /\ forall c, c ∈ l -> violates p c -> spe_seq_index e <= c.1
  end.

Lemma earliest_of_step p l o c :
  earliest_of p l o -> earliest_of p (l ++ [c]) (earliest_violation p o c).
Proof.
  intros H. destruct c as [seq eff]. simpl.
  assert (Hnv : forall v, check_effect p eff = Err v -> violates p (seq, eff))
    by (intros v Hv; apply permits_effect_false; eauto).
  destruct (check_effect p eff) as [u|v| |] eqn:Hc.
  2: { destruct o as [e|]; simpl in H.
    - destruct H as (Hin & Hv & Hmin). destruct (Z.leb_spec (spe_seq_index e) seq).
      + repeat split; [set_solver | done |]. intros c [Hcl|Hcl%list_elem_of_singleton]%elem_of_app Hvc.
        * auto.
        * by subst c.
      + repeat split; simpl; [set_solver | done |].
        intros c [Hcl|Hcl%list_elem_of_singleton]%elem_of_app Hvc.
        * specialize (Hmin c Hcl Hvc). lia.
        * by subst c.
    - repeat split; simpl; [set_solver | done |].
      intros c [Hcl|Hcl%list_elem_of_singleton]%elem_of_app Hvc.
      + by destruct (H c Hcl).
      + by subst c. }
  all: assert (Hok : ~ violates p (seq, eff))
         by (intros (v & Hv)%permits_effect_false; simpl in Hv; congruence).
  all: destruct o as [e|]; simpl in *.
  all: try (destruct H as (Hin & Hv & Hmin); repeat split; [set_solver | done |]).
  all: intros c [Hcl|Hcl%list_elem_of_singleton]%elem_of_app; [by auto | subst c; by auto].
Qed.

Lemma earliest_of_foldl p l : forall done o, earliest_of p done o ->
  earliest_of p (done ++ l) (foldl (earliest_violation p) o l).
Proof.
  induction l as [|c l IH]; intros done o H; simpl; [by rewrite app_nil_r|].
  replace (done ++ c :: l) with ((done ++ [c]) ++ l) by by rewrite <- app_assoc.
  apply IH. by apply earliest_of_step.
Qed.

Lemma validate_Ok_permits s p u : validate_section_for_privilege s p = Ok u ->
  forall c, c ∈ section_candidates s -> permits_effect p c.2 = true.
Proof.
  unfold validate_section_for_privilege. intros H c Hc.
  pose proof (earliest_of_foldl p (section_candidates s) [] None ltac:(set_solver)) as He.
  destruct (foldl _ _ _) as [e|]; [done|]. simpl in He.
  destruct (permits_effect p c.2) eqn:Hp; [done|]. by destruct (He c Hc).
Qed.

(** The seven push operations under one name: what an author emits. *)
Inductive emitted :=
| Emit_label (x : Label) | Emit_instr (x : Instr) | Emit_data_block (x : DataBlock)
| Emit_align (x : Align) | Emit_pre_layout_op (x : PreLayoutOp)
| Emit_legalization_op (x : LegalizationOp) | Emit_branch (x : SymbolicBranch).

Definition push {E} (s : AsmSection) (ep : emitted * InstrProvenance) : outcome E AsmSection :=
  let '(e, p) := ep in
  match e with
  | Emit_label x => push_label x p s
  | Emit_instr x => push_instr x p s
  | Emit_data_block x => push_data_block x p s
  | Emit_align x => push_align x p s
  | Emit_pre_layout_op x => push_pre_layout_op x p s
  | Emit_legalization_op x => push_legalization_op x p s
  | Emit_branch x => push_branch x p s
  end.

Definition emitted_view (seq : nat) (ep : emitted * InstrProvenance) : SectionItemView :=
  let '(e, p) := ep in
  match e with
  | Emit_label x => View_Label (OrderedItem_new x (Z.of_nat seq) p)
  | Emit_instr x => View_Instr (OrderedItem_new x (Z.of_nat seq) p)
  | Emit_data_block x => View_DataBlock (OrderedItem_new x (Z.of_nat seq) p)
  | Emit_align x => View_Align (OrderedItem_new x (Z.of_nat seq) p)
  | Emit_pre_layout_op x => View_PreLayoutOp (OrderedItem_new x (Z.of_nat seq) p)
  | Emit_legalization_op x => View_LegalizationOp (OrderedItem_new x (Z.of_nat seq) p)
  | Emit_branch x => View_Branch (OrderedItem_new x (Z.of_nat seq) p)
  end.

Lemma emitted_view_order n ep : view_order (emitted_view n ep) = ItemOrder_new (Z.of_nat n) 0.
Proof. by destruct ep as [[] p]. Qed.

Lemma emitted_views_sorted {A} (l : list A) : forall f : nat -> A -> SectionItemView,
  (forall i ep, view_order (f i ep) = ItemOrder_new (Z.of_nat i) 0) -> forall k,
  StronglySorted (fun a b => view_leb a b = true) (imap (fun i => f (k + i)%nat) l).
Proof.
  intros f Hf. induction l as [|x l IH]; intros k; simpl; constructor.
  - erewrite imap_ext; [apply (IH (S k))|]. intros i y _. simpl. f_equal. lia.
  - apply Forall_lookup. intros i y. rewrite list_lookup_imap. destruct (l !! i); simpl; [|done].
    intros [= <-]. unfold view_leb, ItemOrder_leb. rewrite !Hf.
    cbn [order_seq order_sub compose]. unfold compose.
    apply orb_true_iff. left. apply Z.ltb_lt. lia.
Qed.

(** What a push does to the merged view: one more item, at the next index. *)
Lemma push_views {E} s ep s' : @push E s ep = Ok s' ->
  section_views s' ≡ₚ section_views s ++ [emitted_view (Z.to_nat (sec_next_seq_index s)) ep]
    \/ sec_next_seq_index s < 0.
Proof.
  destruct (decide (sec_next_seq_index s < 0)) as [?|Hn]; [by right|]. left.
  destruct ep as [[x|x|x|x|x|x|x] p]; simpl in *; unfold push_label, push_instr, push_data_block,
    push_align, push_pre_layout_op, push_legalization_op, push_branch, next_seq in *;
  inv_ok; unfold section_views; simpl; rewrite map_app; simpl; rewrite Z2Nat.id by lia;
  solve_Permutation.
Qed.

Lemma push_next {E} s ep s' : @push E s ep = Ok s' ->
  sec_next_seq_index s' = sec_next_seq_index s + 1.
Proof.
  destruct ep as [[] p]; simpl in *; unfold push_label, push_instr, push_data_block,
    push_align, push_pre_layout_op, push_legalization_op, push_branch, next_seq in *;
  intros H; inv_arith; simpl; lia.
Qed.

Lemma push_total {E} s ep : sec_next_seq_index s + 1 < 4294967296 ->
  exists s', @push E s ep = Ok s'.
Proof.
  intros H. destruct ep as [[] p]; simpl; unfold push_label, push_instr, push_data_block,
    push_align, push_pre_layout_op, push_legalization_op, push_branch, next_seq, checked_add;
  (destruct (Z.ltb_spec (sec_next_seq_index s + 1) U32); [simpl; eauto | lia]).
Qed.

Lemma iter_items_perm s : iter_items s ≡ₚ section_views s.
Proof. apply sort_by_perm. Qed.

Lemma iter_items_sorted s : StronglySorted (fun a b => view_leb a b = true) (iter_items s).
Proof.
  apply sort_by_sorted.
  - intros x y. apply ItemOrder_leb_total.
  - intros x y z. apply ItemOrder_leb_trans.
Qed.

(** [s] holds exactly the items [l], numbered in order. *)
Definition emits (s : AsmSection) (l : list (emitted * InstrProvenance)) : Prop :=
  sec_next_seq_index s = zlen l /\ section_views s ≡ₚ imap emitted_view l.

Lemma emits_new id role name al : emits (AsmSection_new id role name al) [].
Proof. done. Qed.

Lemma emits_iter_items s l : emits s l -> iter_items s = imap emitted_view l.
Proof.
  intros [_ Hp]. eapply StronglySorted_unique_strong; [|apply iter_items_sorted| |].
  2: { apply (emitted_views_sorted l emitted_view emitted_view_order 0). }
  - intros x y Hx Hy H1 H2. rewrite iter_items_perm, Hp in Hx.
    apply elem_of_lookup_imap in Hx as (i & a & -> & Hi), Hy as (j & b & -> & Hj).
    pose proof (ItemOrder_leb_antisym _ _ H1 H2) as Ho.
    rewrite !emitted_view_order in Ho. injection Ho as Hij. apply Nat2Z.inj in Hij. subst. congruence.
  - by rewrite iter_items_perm.
Qed.

Lemma emits_push {E} s l ep s' : emits s l -> @push E s ep = Ok s' -> emits s' (l ++ [ep]).
Proof.
  intros [Hn Hv] Hp. split.
  - rewrite (push_next _ _ _ Hp), Hn, zlen_app. done.
  - destruct (push_views _ _ _ Hp) as [Hv'|Hneg]; [|pose proof (zlen_nonneg l); lia].
    rewrite Hv', Hv, imap_app, Hn. unfold zlen. rewrite Nat2Z.id. simpl.
    by rewrite Nat.add_0_r.
Qed.

Lemma pushes_total {E} id role name al (l : list (emitted * InstrProvenance)) :
  zlen l < 4294967296 ->
  exists s, @ofold E _ _ push (AsmSection_new id role name al) l = Ok s /\ emits s l.
Proof.
  induction l as [|x l IH] using rev_ind; intros Hl; [simpl; eauto using emits_new|].
  rewrite zlen_app in Hl. change (zlen [x]) with 1 in Hl.
  destruct IH as (s & Hs & He); [lia|]. rewrite ofold_app, Hs. simpl.
  destruct (@push_total E s x) as [s' Hs']; [destruct He; lia|].
  rewrite Hs'. simpl. eauto using emits_push.
Qed.

(** A section whose items are numbered in emission order. *)
Definition well_sequenced (s : AsmSection) : Prop := exists l, emits s l.

(** The fields a push does not touch. *)
Definition section_head (s : AsmSection) :=
  (sec_id s, sec_role s, sec_name s, sec_interrupt_vector s, sec_privilege s, sec_align s,
   sec_size_hint_bytes s).

Lemma push_head {E} s ep s' : @push E s ep = Ok s' -> section_head s' = section_head s.
Proof.
  destruct ep as [[] p]; simpl; unfold push_label, push_instr, push_data_block,
    push_align, push_pre_layout_op, push_legalization_op, push_branch, next_seq;
  intros H; inv_arith; done.
Qed.

Lemma push_not_err {E} s ep (e : E) : push s ep <> Err e.
Proof.
  destruct ep as [[] p]; simpl; unfold push_label, push_instr, push_data_block,
    push_align, push_pre_layout_op, push_legalization_op, push_branch, next_seq, expect;
  by destruct (checked_add _ _ _).
Qed.

(** A push appends one view to the merged listing. *)
Lemma push_iter_items {E} s ep s' : well_sequenced s -> @push E s ep = Ok s' ->
  well_sequenced s' /\ exists n, iter_items s' = iter_items s ++ [emitted_view n ep].
Proof.
  intros [l He] Hp. pose proof (emits_push _ _ _ _ He Hp) as He'.
  split; [by exists (l ++ [ep])|]. exists (length l + 0)%nat.
  rewrite (emits_iter_items _ _ He), (emits_iter_items _ _ He'). by rewrite imap_app.
Qed.

Lemma candidates_views s eff :
  (exists q, (q, eff) ∈ section_candidates s)
  <-> exists v, v ∈ iter_items s /\ view_machine_effect v = Some eff.
Proof.
  setoid_rewrite iter_items_perm. unfold section_candidates, section_views.
  setoid_rewrite elem_of_app. split.
  - intros [q Hq]. rewrite !elem_of_app in Hq. rewrite !list_elem_of_fmap in Hq.
    destruct Hq as [(o & [= -> ->] & Ho)|[(o & [= -> ->] & Ho)|[(o & [= -> ->] & Ho)|(o & [= -> ->] & Ho)]]].
    + exists (View_Instr o). rewrite !elem_of_app, !list_elem_of_fmap. eauto 10.
    + exists (View_PreLayoutOp o). rewrite !elem_of_app, !list_elem_of_fmap. eauto 10.
    + exists (View_LegalizationOp o). rewrite !elem_of_app, !list_elem_of_fmap. eauto 10.
    + exists (View_Branch o). rewrite !elem_of_app, !list_elem_of_fmap. eauto 10.
  - intros (v & Hv & He). rewrite !elem_of_app in Hv. rewrite !list_elem_of_fmap in Hv.
    destruct_or? Hv; destruct Hv as (o & -> & Ho); simpl in He; try discriminate;
      injection He as <-; exists (item_seq o); rewrite !elem_of_app, !list_elem_of_fmap; eauto 10.
Qed.

Lemma validate_intro s p :
  (forall v, v ∈ iter_items s -> forall eff, view_machine_effect v = Some eff ->
     permits_effect p eff = true) ->
  validate_section_for_privilege s p = Ok tt.
Proof.
  intros H. unfold validate_section_for_privilege.
  pose proof (earliest_of_foldl p (section_candidates s) [] None ltac:(set_solver)) as He.
  destruct (foldl _ _ _) as [e|]; [|done]. destruct He as (Hin & Hv & _). exfalso.
  destruct (proj1 (candidates_views s (spe_effect e))) as (v & Hvin & Hveff); [eauto|].
  specialize (H v Hvin _ Hveff). unfold permits_effect in H. by rewrite Hv in H.
Qed.

Lemma no_data_views s :
  Forall (fun v => match v with View_DataBlock _ => true | _ => false end = false) (iter_items s) ->
  sec_data_blocks s = [].
Proof.
  rewrite iter_items_perm. unfold section_views. rewrite !Forall_app.
  intros (_ & _ & H & _). by destruct (sec_data_blocks s); [|apply Forall_inv in H].
Qed.

Lemma static_region_switchable addr : 0x4000 <= addr <= 0x7FFF ->
  static_region addr = Static_SwitchableRom.
Proof.
  intros Ha. unfold static_region, classify.
  destruct_ranges; try reflexivity; exfalso; unfold ROM_BANK0_BASE, ROM_BANK0_END,
    ROM_SWITCHABLE_BASE, ROM_SWITCHABLE_END in *; lia.
Qed.

Lemma store_reserved addr : 0x6000 <= addr <= 0x7FFF ->
  store_to_addr addr = E_StoreToMbcRegister Mbc_Reserved.
Proof.
  intros Ha. unfold store_to_addr. rewrite static_region_switchable by lia.
  unfold MbcRegisterClass_for_addr, classify_mbc_write_address.
  destruct_ranges; try reflexivity; exfalso; unfold MBC5_RAMG_BASE, MBC5_RAMG_END,
    MBC5_BANK1_BASE, MBC5_BANK1_END, MBC5_BANK2_BASE, MBC5_BANK2_END, MBC5_RAMB_BASE,
    MBC5_RAMB_END, MBC5_RESERVED_BASE, MBC5_RESERVED_END in *; lia.
Qed.

Lemma store_sp_reserved addr : 0x6000 <= addr < 0x7FFF ->
  store_sp_to_addr addr = E_StoreToMbcRegister Mbc_Reserved.
Proof.
  intros Ha. unfold store_sp_to_addr, wrap. rewrite Z.mod_small by lia.
  rewrite !static_region_switchable by lia. apply store_reserved. lia.
Qed.

(** ** Properties *)

(** [validate_section_for_privilege] accepts a section exactly when the
    policy permits every effect in it, and otherwise reports an actual
    violation of the section, with the policy's own reason, whose sequence
    index is the smallest of all violations. *)
Theorem validate_reports_earliest (s : AsmSection) (p : SectionPrivilege) :
  match validate_section_for_privilege s p with
  | Ok _ => forall c, In c (section_candidates s) -> permits_effect p c.2 = true
  | Err e =>
      In (spe_seq_index e, spe_effect e) (section_candidates s)
      /\ check_effect p (spe_effect e) = Err (spe_violation e)
      /\ forall c, In c (section_candidates s) -> permits_effect p c.2 = false ->
           spe_seq_index e <= c.1
  | _ => False
  end.
Proof.
  unfold validate_section_for_privilege.
  pose proof (earliest_of_foldl p (section_candidates s) [] None ltac:(set_solver)) as H.
  destruct (foldl _ _ _) as [e|]; simpl in *; setoid_rewrite <- list_elem_of_In; [done|].
  intros c Hc. destruct (permits_effect p c.2) eqn:Hp; [done|]. by destruct (H c Hc).
Qed.

(** no section, whatever its policy, may store the accumulator to the MBC5
    reserved window $6000-$7FFF. *)
Theorem reserved_window_forbidden (p : SectionPrivilege) (addr : Z)
  (Ha : 0x6000 <= addr <= 0x7FFF) :
  check_effect p (classify_effect (I_LdDirectFromA (MkDirectAddr addr)))
  = Err Viol_ForbiddenMbcReserved.
Proof.
  simpl. unfold store_to_direct. simpl. rewrite store_reserved by lia. done.
Qed.

Lemma reserved_window_forbidden_witness :
  check_effect SectionPrivilege_privileged (classify_effect (I_LdDirectFromA (MkDirectAddr 0x6000)))
  = Err Viol_ForbiddenMbcReserved.
Proof. apply reserved_window_forbidden. lia. Defined.

(** the reserved window is not closed to [LD (nn),SP]: among all 16-bit
    addresses, exactly $5FFF and $7FFF let a [Privileged] section write a byte
    of $6000-$7FFF, the first because the effect is classified by its first
    byte alone, the second because it is classified as a mixed store. *)
Theorem reserved_window_sp_hole (addr : Z) (Ha : 0 <= addr < 65536) :
  (permits_effect SectionPrivilege_privileged (classify_effect (I_LdDirectFromSp addr)) = true
   /\ exists a, In a (static_store_bytes (I_LdDirectFromSp addr)) /\ 0x6000 <= a <= 0x7FFF)
  <-> addr = 0x5FFF \/ addr = 0x7FFF.
Proof.
  cbn [classify_effect static_store_bytes]. split.
  - intros [Hp (a & Ha' & Hr)].
    assert (addr = 0x5FFF \/ addr = 0x7FFF \/ 0x6000 <= addr < 0x7FFF) as [?|[?|Hin]].
    { destruct Ha' as [->|[<-|[]]]; [lia|].
      destruct (decide (addr = 65535)) as [->|].
      - change ((65535 + 1) mod 65536) with 0 in Hr. lia.
      - rewrite Z.mod_small in Hr by lia. lia. }
    + by left.
    + by right.
    + by rewrite store_sp_reserved in Hp.
  - intros [-> | ->]; (split; [reflexivity|]).
    + exists 0x6000. split; [by right; left | lia].
    + exists 0x7FFF. split; [by left | lia].
Qed.

Lemma reserved_window_sp_hole_witness :
  0 <= 0x5FFF < 65536 /\
  ((permits_effect SectionPrivilege_privileged (classify_effect (I_LdDirectFromSp 0x5FFF)) = true
   /\ exists a, In a (static_store_bytes (I_LdDirectFromSp 0x5FFF)) /\ 0x6000 <= a <= 0x7FFF)
  <-> 0x5FFF = 0x5FFF \/ 0x5FFF = 0x7FFF).
Proof. split; [lia | apply (reserved_window_sp_hole 0x5FFF); lia]. Defined.

(** the struct-of-arrays section loses nothing of the authoring order: any
    sequence of fewer than 2^32 pushes, of any mix of kinds, succeeds, and
    [iter_items] then lists exactly the emitted items, in the order they were
    emitted, with sequence indices 0, 1, 2, ... *)
Theorem iter_items_authoring_order (id : SectionId) (role : SectionRole) (name : SymbolName)
  (al : Z) (l : list (emitted * InstrProvenance)) (Hl : zlen l < 4294967296) :
  exists s : AsmSection,
    ofold (E := unit) push (AsmSection_new id role name al) l = Ok s
    /\ iter_items s = imap emitted_view l
    /\ sec_next_seq_index s = zlen l.
Proof.
  destruct (@pushes_total unit id role name al l Hl) as (s & Hs & He). exists s.
  repeat split; [done | by apply emits_iter_items | apply He].
Qed.

Lemma iter_items_authoring_order_witness :
  let p := InstrProvenance_new Stage_Backend in
  let l := [(Emit_label (MkLabel (SymbolId_new 0) (MkSymbolName "a")), p); (Emit_instr I_Nop, p);
            (Emit_data_block (Db_Bytes [1]), p); (Emit_instr I_Halt, p)] in
  exists s, ofold (E := unit) push
              (AsmSection_new (SectionId_new 1) Role_Bank0Data (MkSymbolName "s") 1) l = Ok s
    /\ iter_items s = imap emitted_view l /\ sec_next_seq_index s = zlen l.
Proof. intros p l. apply iter_items_authoring_order. reflexivity. Defined.
