(* ===== verification/Builder.v ===== *)
(** * The section builder ([gbf-asm/src/builder.rs])

    [Builder] is the authoring state: the section under construction, the
    current provenance, the label and lease bookkeeping.  Each [try_] method is
    a computation in the state-and-error monad [EM]; a failed method returns
    the state it leaves behind, because the caller keeps the builder.  The
    panicking methods are the [try_] ones through [or_panic]. *)

From S2P Require Import Prelude Hw Isa IsaCodec Names SectionIr Effect SectionOps.

Inductive BuilderError :=
| B_ZeroAlignment
| B_DuplicateLabel (name : SymbolName)
| B_TooManyLabels
| B_DuplicateLease (lease_id : LeaseId)
| B_UnknownLease (lease_id : LeaseId)
| B_UnreleasedBankGuard (leases : list LeaseId)
| B_YieldWithActiveLease (leases : list LeaseId)
| B_SramBankOutOfRange (bank : Z)
| B_RomBankOutOfRange (bank : Z)
| B_PrivilegeViolation (effect : MachineEffect) (violation : PrivilegeViolation)
| B_SectionPrivilegeViolation (error : SectionPrivilegeError)
| B_InterruptVectorPayloadSealed (role : SectionRole)
| B_ConditionalAbsoluteJumpUnsupported (target : SymbolName)
| B_InlineDataInExecutableSection (role : SectionRole).
#[export] Instance BuilderError_eq_dec : EqDecision BuilderError. Proof. solve_decision. Defined.

Record Builder := MkBuilder {
  b_section : AsmSection;
  b_cur_provenance : InstrProvenance;
  b_next_label_id : Z;
  b_next_lease_id : Z;
  b_labels : gset SymbolName;
  b_active_leases : gmap LeaseId BankLeaseSpec;
}.

Definition set_b_section (x : AsmSection) (b : Builder) : Builder :=
  MkBuilder x (b_cur_provenance b) (b_next_label_id b) (b_next_lease_id b) (b_labels b)
    (b_active_leases b).
Definition set_b_cur_provenance (x : InstrProvenance) (b : Builder) : Builder :=
  MkBuilder (b_section b) x (b_next_label_id b) (b_next_lease_id b) (b_labels b)
    (b_active_leases b).
Definition set_b_next_label_id (x : Z) (b : Builder) : Builder :=
  MkBuilder (b_section b) (b_cur_provenance b) x (b_next_lease_id b) (b_labels b)
    (b_active_leases b).
Definition set_b_next_lease_id (x : Z) (b : Builder) : Builder :=
  MkBuilder (b_section b) (b_cur_provenance b) (b_next_label_id b) x (b_labels b)
    (b_active_leases b).
Definition set_b_labels (x : gset SymbolName) (b : Builder) : Builder :=
  MkBuilder (b_section b) (b_cur_provenance b) (b_next_label_id b) (b_next_lease_id b) x
    (b_active_leases b).
Definition set_b_active_leases (x : gmap LeaseId BankLeaseSpec) (b : Builder) : Builder :=
  MkBuilder (b_section b) (b_cur_provenance b) (b_next_label_id b) (b_next_lease_id b)
    (b_labels b) x.

(** ** The monad of [&mut self] methods *)

Definition EM (E A : Type) : Type := Builder -> outcome E A * Builder.
Abbreviation BM := (EM BuilderError).
Definition bret {E A} (x : A) : EM E A := fun b => (Ok x, b).
Definition bbind {E A B} (m : EM E A) (f : A -> EM E B) : EM E B :=
  fun b =>
    match m b with
    | (Ok x, b') => f x b'
    | (Err e, b') => (Err e, b')
    | (Panic, b') => (Panic, b')
    | (NoFuel, b') => (NoFuel, b')
    end.
Notation "'let!' x := m 'in' k" := (bbind m (fun x => k))
  (at level 10, x pattern, m at level 200, k at level 200).
Definition bmodify {E} (f : Builder -> Builder) : EM E unit := fun b => (Ok tt, f b).
Definition bget {E A} (f : Builder -> A) : EM E A := fun b => (Ok (f b), b).
Definition berr {E A} (e : E) : EM E A := fun b => (Err e, b).
Definition bguard {E} (c : bool) (e : E) : EM E unit := if c then berr e else bret tt.
(** A push onto the section; it writes nothing when it panics. *)
Definition bpush (ep : emitted) : BM unit :=
  fun b =>
    match push (b_section b) (ep, b_cur_provenance b) with
    | Ok s => (Ok tt, set_b_section s b)
    | Err e => (Err e, b)
    | Panic => (Panic, b)
    | NoFuel => (NoFuel, b)
    end.
(** [.expect(..)] on the result of a [try_] method. *)
Definition or_panic {A} (m : BM A) : BM A :=
  fun b => match m b with (Err _, b') => (Panic, b') | r => r end.

(** ** Guards *)

Definition validate_effect (effect : MachineEffect) : BM unit :=
  fun b =>
    match check_effect (sec_privilege (b_section b)) effect with
    | Err violation => (Err (B_PrivilegeViolation effect violation), b)
    | Ok _ => (Ok tt, b)
    | Panic => (Panic, b)
    | NoFuel => (NoFuel, b)
    end.

Definition guard_interrupt_vector_payload : BM unit :=
  let! s := bget b_section in
  bguard (bool_decide (sec_role s = Role_InterruptVector)
          && match sec_interrupt_vector s with Some _ => true | None => false end)
    (B_InterruptVectorPayloadSealed (sec_role s)).

Definition guard_inline_data : BM unit :=
  let! s := bget b_section in
  bguard (negb (SectionRole_permits_inline_data (sec_role s)))
    (B_InlineDataInExecutableSection (sec_role s)).

Definition pre_layout_op_unchecked (op : PreLayoutOp) : BM unit := bpush (Emit_pre_layout_op op).
Definition legalization_op_unchecked (op : LegalizationOp) : BM unit :=
  bpush (Emit_legalization_op op).
Definition pre_layout_op (op : PreLayoutOp) : BM unit :=
  let! _ := guard_interrupt_vector_payload in
  let! _ := validate_effect (classify_pre_layout_op op) in
  pre_layout_op_unchecked op.

(** ** Observers *)

Definition lease_leb (a b : LeaseId) : bool := LeaseId_get a <=? LeaseId_get b.
(** The keys of the [BTreeMap], in key order. *)
Definition active_lease_ids (b : Builder) : list LeaseId :=
  sort_by lease_leb (map fst (map_to_list (b_active_leases b))).
Definition first_active_lease_id (b : Builder) : option LeaseId := head (active_lease_ids b).
Definition active_lease_spec (id : LeaseId) (b : Builder) : option BankLeaseSpec :=
  b_active_leases b !! id.
Definition has_active_leases (b : Builder) : bool :=
  negb (bool_decide (b_active_leases b = ∅)).

(** The [loop] of [allocate_lease_id]; one more try than there are active
    leases is enough (see below). *)
Fixpoint allocate_lease_loop (fuel : nat) : BM LeaseId :=
  match fuel with
  | O => fun b => (NoFuel, b)
  | S fuel' =>
      let! id := bget (fun b => LeaseId_new (b_next_lease_id b)) in
      let! _ := bmodify (fun b => set_b_next_lease_id (wrap U32 (b_next_lease_id b + 1)) b) in
      let! active := bget b_active_leases in
      match active !! id with
      | None => bret id
      | Some _ => allocate_lease_loop fuel'
      end
  end.
Definition allocate_lease_id : BM LeaseId :=
  fun b => allocate_lease_loop (S (size (b_active_leases b))) b.

(** ** Emission *)

Definition try_set_section_privilege (p : SectionPrivilege) : BM unit :=
  fun b =>
    match try_set_privilege p (b_section b) with
    | Ok s => (Ok tt, set_b_section s b)
    | Err e => (Err (B_SectionPrivilegeViolation e), b)
    | Panic => (Panic, b)
    | NoFuel => (NoFuel, b)
    end.
Definition set_section_privilege (p : SectionPrivilege) : BM unit :=
  or_panic (try_set_section_privilege p).

Definition try_emit (instr : Instr) : BM unit :=
  let! _ := guard_interrupt_vector_payload in
  let! _ := validate_effect (classify_effect instr) in
  bpush (Emit_instr instr).
Definition emit (instr : Instr) : BM unit := or_panic (try_emit instr).

Definition try_db_bytes (bytes : list Z) : BM unit :=
  let! _ := guard_interrupt_vector_payload in
  let! _ := guard_inline_data in
  bpush (Emit_data_block (Db_Bytes bytes)).
Definition db_bytes (bytes : list Z) : BM unit := or_panic (try_db_bytes bytes).
Definition try_db (byte : Z) : BM unit := try_db_bytes [byte].
Definition db (byte : Z) : BM unit := or_panic (try_db byte).

Definition try_dw_words (words : list Z) : BM unit :=
  let! _ := guard_inline_data in
  bpush (Emit_data_block (Db_Words words)).
Definition dw_words (words : list Z) : BM unit := or_panic (try_dw_words words).
Definition try_dw (word : Z) : BM unit := try_dw_words [word].
Definition dw (word : Z) : BM unit := or_panic (try_dw word).

(** The name is inserted before the id is allocated, as in the source. *)
Definition try_label (name : SymbolName) : BM SymbolId :=
  let! labels := bget b_labels in
  let! _ := bguard (bool_decide (name ∈ labels)) (B_DuplicateLabel name) in
  let! _ := bmodify (set_b_labels (labels ∪ {[name]})) in
  let! next := bget b_next_label_id in
  let! _ :=
    match checked_add U32 next 1 with
    | Some n => bmodify (set_b_next_label_id n)
    | None => berr B_TooManyLabels
    end in
  let! _ := bpush (Emit_label (MkLabel (SymbolId_new next) name)) in
  bret (SymbolId_new next).
Definition label (name : SymbolName) : BM SymbolId := or_panic (try_label name).

Definition try_align (align : Z) : BM unit :=
  let! _ := guard_interrupt_vector_payload in
  let! _ := bguard (align =? 0) B_ZeroAlignment in
  bpush (Emit_align (MkAlign align)).
Definition align (a : Z) : BM unit := or_panic (try_align a).

(** [catch_unwind] and [resume_unwind]: the provenance is restored whatever
    the closure does, and its outcome, a panic included, is passed on. *)
Definition with_provenance {E R} (provenance : InstrProvenance) (f : EM E R) : EM E R :=
  fun b =>
    let previous := b_cur_provenance b in
    let '(r, b') := f (set_b_cur_provenance provenance b) in
    (r, set_b_cur_provenance previous b').

Definition try_bank_lease (lease : BankLeaseSpec) : BM unit :=
  let! _ := guard_interrupt_vector_payload in
  let op := Op_BankLease lease in
  let! _ := validate_effect (classify_pre_layout_op op) in
  let id := spec_lease_id lease in
  let! active := bget b_active_leases in
  let! _ := bguard (bool_decide (is_Some (active !! id))) (B_DuplicateLease id) in
  let! _ := bmodify (set_b_active_leases (<[id := lease]> active)) in
  pre_layout_op_unchecked op.
Definition bank_lease (lease : BankLeaseSpec) : BM unit := or_panic (try_bank_lease lease).

Definition try_bank_release_to (id : LeaseId) (return_to : BankReleaseDisposition) : BM unit :=
  let! _ := guard_interrupt_vector_payload in
  let op := Op_BankRelease id return_to in
  let! _ := validate_effect (classify_pre_layout_op op) in
  let! active := bget b_active_leases in
  let! _ := bguard (bool_decide (active !! id = None)) (B_UnknownLease id) in
  let! _ := bmodify (set_b_active_leases (delete id active)) in
  pre_layout_op_unchecked op.
Definition bank_release_to (id : LeaseId) (return_to : BankReleaseDisposition) : BM unit :=
  or_panic (try_bank_release_to id return_to).
Definition try_bank_release (id : LeaseId) : BM unit :=
  let! spec := bget (active_lease_spec id) in
  match spec with
  | None => berr (B_UnknownLease id)
  | Some spec =>
      let return_to :=
        match spec_class spec with Mbc_Rom => Rel_RomBank1 | Mbc_Sram => Rel_SramDisable end in
      try_bank_release_to id return_to
  end.
Definition bank_release (id : LeaseId) : BM unit := or_panic (try_bank_release id).

Definition try_branch (br : SymbolicBranch) : BM unit :=
  let! _ := guard_interrupt_vector_payload in
  let! _ := bguard (bool_decide (br_kind br = Branch_AbsoluteJump)
                    && match br_cond br with Some _ => true | None => false end)
              (B_ConditionalAbsoluteJumpUnsupported (br_target br)) in
  let! _ := validate_effect (SymbolicBranch_machine_effect br) in
  bpush (Emit_branch br).
Definition branch (br : SymbolicBranch) : BM unit := or_panic (try_branch br).

(** The [for lease_id in lease_chain] loop. *)
Fixpoint check_lease_chain (chain : list LeaseId) : BM unit :=
  match chain with
  | [] => bret tt
  | id :: chain' =>
      let! active := bget b_active_leases in
      let! _ := bguard (bool_decide (active !! id = None)) (B_UnknownLease id) in
      check_lease_chain chain'
  end.
Definition try_far_call (target : SymbolName) (chain : list LeaseId) : BM unit :=
  let! _ := guard_interrupt_vector_payload in
  let op := Op_FarCall target chain in
  let! _ := validate_effect (classify_legalization_op op) in
  let! _ := check_lease_chain chain in
  legalization_op_unchecked op.
Definition far_call (target : SymbolName) (chain : list LeaseId) : BM unit :=
  or_panic (try_far_call target chain).

Definition try_yield_op (kind : YieldKind) : BM unit :=
  let! active := bget has_active_leases in
  let! ids := bget active_lease_ids in
  let! _ := bguard active (B_YieldWithActiveLease ids) in
  pre_layout_op (Op_Yield kind).
Definition yield_op (kind : YieldKind) : BM unit := or_panic (try_yield_op kind).

Definition try_trace_probe (id : TraceProbeId) (level : ProbeLevel) : BM unit :=
  pre_layout_op (Op_TraceProbe id level).
Definition trace_probe (id : TraceProbeId) (level : ProbeLevel) : BM unit :=
  or_panic (try_trace_probe id level).

Definition try_assert_bank (expected : MbcBankClass) (expected_n : Z) : BM unit :=
  let! _ := guard_interrupt_vector_payload in
  let op := Op_AssertBank expected expected_n in
  let! _ := validate_effect (classify_pre_layout_op op) in
  let! _ := bguard (bool_decide (expected = Mbc_Rom) && (MAX_ROM_BANK <? expected_n))
              (B_RomBankOutOfRange expected_n) in
  let! _ := bguard (bool_decide (expected = Mbc_Sram) && (MAX_SRAM_BANK <? expected_n))
              (B_SramBankOutOfRange expected_n) in
  pre_layout_op_unchecked op.
Definition assert_bank (expected : MbcBankClass) (expected_n : Z) : BM unit :=
  or_panic (try_assert_bank expected expected_n).

(** ** Construction and completion *)

Definition Builder_new_with_id (id : SectionId) (role : SectionRole) (name : SymbolName)
    : Builder :=
  MkBuilder (AsmSection_new id role name 1)
    (with_source_op (InstrProvenance_new Stage_Backend) "builder.default") 0 0 ∅ ∅.
Definition Builder_new (role : SectionRole) (name : SymbolName) : Builder :=
  Builder_new_with_id (SectionId_new 0) role name.

Definition interrupt_vector_with_id (id : SectionId) (slot : InterruptVectorSlot)
    (owner target : SymbolName) : outcome BuilderError Builder :=
  let b := Builder_new_with_id id Role_InterruptVector owner in
  let m :=
    let! _ := label owner in
    let! _ := branch (SymbolicBranch_interrupt_vector_jp target) in
    bmodify (fun b =>
      set_b_section
        (section_set_interrupt_vector (MkInterruptVector slot target) (b_section b)) b) in
  match m b with
  | (Ok _, b') => Ok b'
  | (Err e, _) => Err e
  | (Panic, _) => Panic
  | (NoFuel, _) => NoFuel
  end.
Definition interrupt_vector (slot : InterruptVectorSlot) (owner target : SymbolName)
    : outcome BuilderError Builder :=
  interrupt_vector_with_id (SectionId_new 0) slot owner target.

Definition try_finish (b : Builder) : outcome BuilderError AsmSection :=
  if has_active_leases b then Err (B_UnreleasedBankGuard (active_lease_ids b))
  else Ok (b_section b).
Definition finish (b : Builder) : outcome BuilderError AsmSection :=
  match try_finish b with Err _ => Panic | r => r end.

(** ** Inversion of the monad *)

Lemma bbind_Ok {E A B} (m : EM E A) (f : A -> EM E B) b y b' :
  bbind m f b = (Ok y, b') <-> exists x b1, m b = (Ok x, b1) /\ f x b1 = (Ok y, b').
Proof.
  unfold bbind. split.
  - destruct (m b) as [[x|e| |] b1]; try discriminate. eauto.
  - intros (x & b1 & -> & H). done.
Qed.

Lemma bbind_Err {E A B} (m : EM E A) (f : A -> EM E B) b e b' :
  bbind m f b = (Err e, b') <->
  m b = (Err e, b') \/ exists x b1, m b = (Ok x, b1) /\ f x b1 = (Err e, b').
Proof.
  unfold bbind. split.
  - destruct (m b) as [[x|e'| |] b1]; try discriminate; [eauto|]. intros [= -> ->]. by left.
  - intros [-> | (x & b1 & -> & H)]; done.
Qed.

Lemma bguard_Ok {E} c (e : E) b u b' : bguard c e b = (Ok u, b') <-> c = false /\ b' = b.
Proof. destruct u. unfold bguard. destruct c; unfold berr, bret; split; intuition congruence. Qed.

Lemma bguard_Err {E} c (e : E) b e' b' : bguard c e b = (Err e', b') <-> c = true /\ e' = e /\ b' = b.
Proof. unfold bguard. destruct c; unfold berr, bret; split; intuition congruence. Qed.

Lemma bpush_Ok ep b u b' :
  bpush ep b = (Ok u, b') <->
  exists s, @push BuilderError (b_section b) (ep, b_cur_provenance b) = Ok s
            /\ b' = set_b_section s b.
Proof.
  destruct u. unfold bpush. destruct (push _ _) as [s|e| |] eqn:Hp.
  - split; [intros [= <-]; eauto | by intros (? & [= ->] & ->)].
  - by apply push_not_err in Hp.
  - split; [done | by intros (? & [=] & _)].
  - split; [done | by intros (? & [=] & _)].
Qed.

Lemma bpush_Err ep b e b' : bpush ep b <> (Err e, b').
Proof.
  unfold bpush. destruct (push _ _) as [s|e'| |] eqn:Hp; try discriminate.
  by apply push_not_err in Hp.
Qed.

Lemma validate_effect_Ok eff b u b' :
  validate_effect eff b = (Ok u, b') <->
  permits_effect (sec_privilege (b_section b)) eff = true /\ b' = b.
Proof.
  destruct u. unfold validate_effect, permits_effect.
  destruct (check_effect _ _); simpl; split; intuition congruence.
Qed.

Lemma validate_effect_Err eff b e b' : validate_effect eff b = (Err e, b') -> b' = b.
Proof. unfold validate_effect. destruct (check_effect _ _); congruence. Qed.

(** [bm_ok] inverts a successful method, [bm_err] a failed one. *)
Ltac bm_ok :=
  repeat match goal with
  | H : bbind _ _ _ = (Ok _, _) |- _ =>
      let x := fresh "x" in let b1 := fresh "b" in let Hx := fresh "Hx" in
      apply bbind_Ok in H; destruct H as (x & b1 & Hx & H)
  | H : bguard _ _ _ = (Ok _, _) |- _ => apply bguard_Ok in H; destruct H as [H ->]
  | H : validate_effect _ _ = (Ok _, _) |- _ => apply validate_effect_Ok in H; destruct H as [H ->]
  | H : bpush _ _ = (Ok _, _) |- _ =>
      let s := fresh "s" in apply bpush_Ok in H; destruct H as (s & H & ->)
  | H : bget _ _ = (Ok _, _) |- _ => first [injection H as <- <- | injection H as <-]
  | H : bmodify _ _ = (Ok _, _) |- _ => first [injection H as <- <- | injection H as <-]
  | H : bret _ _ = (Ok _, _) |- _ => first [injection H as <- <- | injection H as <-]
  | H : berr _ _ = (Ok _, _) |- _ => discriminate H
  end.
Ltac bm_err :=
  repeat match goal with
  | H : bbind _ _ _ = (Err _, _) |- _ =>
      let x := fresh "x" in let b1 := fresh "b" in let Hx := fresh "Hx" in
      apply bbind_Err in H; destruct H as [H|(x & b1 & Hx & H)]
  | H : bguard _ _ _ = (Err _, _) |- _ => apply bguard_Err in H; destruct H as (H & -> & ->)
  | H : validate_effect _ _ = (Err _, _) |- _ => apply validate_effect_Err in H as ->
  | H : bpush _ _ = (Err _, _) |- _ => by apply bpush_Err in H
  | H : berr _ _ = (Err _, _) |- _ => injection H as <- <-
  | H : bget _ _ = (Err _, _) |- _ => discriminate H
  | H : bmodify _ _ = (Err _, _) |- _ => discriminate H
  | H : bret _ _ = (Err _, _) |- _ => discriminate H
  end; bm_ok.

(** ** Operations of a session *)

Inductive builder_op :=
| Do_set_privilege (p : SectionPrivilege)
| Do_emit (i : Instr)
| Do_db_bytes (bytes : list Z)
| Do_dw_words (words : list Z)
| Do_label (name : SymbolName)
| Do_align (a : Z)
| Do_bank_lease (lease : BankLeaseSpec)
| Do_bank_release (id : LeaseId)
| Do_bank_release_to (id : LeaseId) (return_to : BankReleaseDisposition)
| Do_branch (br : SymbolicBranch)
| Do_far_call (target : SymbolName) (chain : list LeaseId)
| Do_yield (kind : YieldKind)
| Do_trace_probe (id : TraceProbeId) (level : ProbeLevel)
| Do_assert_bank (expected : MbcBankClass) (expected_n : Z)
| Do_allocate_lease_id.

Definition run_op (op : builder_op) : BM unit :=
  match op with
  | Do_set_privilege p => try_set_section_privilege p
  | Do_emit i => try_emit i
  | Do_db_bytes bytes => try_db_bytes bytes
  | Do_dw_words words => try_dw_words words
  | Do_label name => let! _ := try_label name in bret tt
  | Do_align a => try_align a
  | Do_bank_lease lease => try_bank_lease lease
  | Do_bank_release id => try_bank_release id
  | Do_bank_release_to id return_to => try_bank_release_to id return_to
  | Do_branch br => try_branch br
  | Do_far_call target chain => try_far_call target chain
  | Do_yield kind => try_yield_op kind
  | Do_trace_probe id level => try_trace_probe id level
  | Do_assert_bank expected n => try_assert_bank expected n
  | Do_allocate_lease_id => let! _ := allocate_lease_id in bret tt
  end.

(** What a caller can do with a builder between its construction and its
    completion: any operation that returns (an error included, the builder is
    kept), and any such sequence inside [with_provenance]. *)
Inductive session : Builder -> Builder -> Prop :=
| session_refl b : session b b
| session_op b op r b1 b2 :
    run_op op b = (r, b1) -> returns r -> session b1 b2 -> session b b2
| session_with_provenance b p b1 b2 :
    session (set_b_cur_provenance p b) b1 ->
    session (set_b_cur_provenance (b_cur_provenance b) b1) b2 -> session b b2.

Definition fresh_builder (b : Builder) : Prop :=
  (exists id role name, b = Builder_new_with_id id role name)
  \/ (exists id slot owner target, interrupt_vector_with_id id slot owner target = Ok b).

Definition reachable (b : Builder) : Prop := exists b0, fresh_builder b0 /\ session b0 b.

(** ** Errors leave the builder as it was *)

Lemma allocate_lease_loop_not_err fuel b e b' : allocate_lease_loop fuel b <> (Err e, b').
Proof.
  revert b. induction fuel as [|fuel IH]; intros b H; [done|]. simpl in H.
  bm_err. simpl in H. by destruct (_ !! _); [apply IH in H|].
Qed.

Lemma check_lease_chain_state chain b r b' : check_lease_chain chain b = (r, b') -> b' = b.
Proof.
  induction chain as [|id chain IH]; simpl; [by intros [= <- <-]|].
  unfold bbind, bget, bguard. destruct (bool_decide _); simpl; [by intros [= <- <-] | auto].
Qed.

Lemma op_error_state op b e b' : run_op op b = (Err e, b') ->
  b' = b \/ exists name, op = Do_label name /\ e = B_TooManyLabels
              /\ b' = set_b_labels (b_labels b ∪ {[name]}) b.
Proof.
  intros H.
  destruct op; simpl in H; unfold try_set_section_privilege, try_emit, try_db_bytes, try_dw_words,
    try_label, try_align, try_bank_lease, try_bank_release, try_bank_release_to, try_branch,
    try_far_call, try_yield_op, try_trace_probe, try_assert_bank, pre_layout_op,
    pre_layout_op_unchecked, legalization_op_unchecked, guard_interrupt_vector_payload,
    guard_inline_data in H; bm_err; try (by left).
  - left. destruct (try_set_privilege _ _); congruence.
  - right. exists name. destruct (checked_add _ _ _); [done|]. by bm_err.
  - left. destruct (active_lease_spec id b) as [spec|]; bm_err; done.
  - left. by apply check_lease_chain_state in H.
  - by unfold allocate_lease_id in H; apply allocate_lease_loop_not_err in H.
Qed.

(** ** The invariant of a session *)

Definition permitted_view (p : SectionPrivilege) (v : SectionItemView) : Prop :=
  forall eff, view_machine_effect v = Some eff -> permits_effect p eff = true.

(** A reference reading of the lease discipline: which bank leases are held
    after an item, or [None] when the item breaks the discipline (acquiring a
    held lease, releasing or naming one that is not held, yielding while any is
    held). *)
Definition lease_step (active : gmap LeaseId BankLeaseSpec) (v : SectionItemView)
    : option (gmap LeaseId BankLeaseSpec) :=
  match v with
  | View_PreLayoutOp o =>
      match item_data o with
      | Op_BankLease spec =>
          match active !! spec_lease_id spec with
          | None => Some (<[spec_lease_id spec := spec]> active)
          | Some _ => None
          end
      | Op_BankRelease id _ =>
          match active !! id with Some _ => Some (delete id active) | None => None end
      | Op_Yield _ => if bool_decide (active = ∅) then Some active else None
      | _ => Some active
      end
  | View_LegalizationOp o =>
      match item_data o with
      | Op_FarCall _ chain =>
          if forallb (fun id => bool_decide (is_Some (active !! id))) chain then Some active
          else None
      end
  | _ => Some active
  end.
Definition lease_replay (vs : list SectionItemView) : option (gmap LeaseId BankLeaseSpec) :=
  foldl (fun o v => o ≫= (fun active => lease_step active v)) (Some ∅) vs.

Definition label_of (v : SectionItemView) : option Label :=
  match v with View_Label o => Some (item_data o) | _ => None end.
Definition labels_of (vs : list SectionItemView) : list Label := omap label_of vs.

(** Everything but labels: the payload of an interrupt-vector section. *)
Definition payload_of (v : SectionItemView) : option (option SymbolicBranch) :=
  match v with
  | View_Label _ => None
  | View_Branch o => Some (Some (item_data o))
  | _ => Some None
  end.
Definition is_data (v : SectionItemView) : bool :=
  match v with View_DataBlock _ => true | _ => false end.

Record section_inv (s : AsmSection) (labels : gset SymbolName) (nid : Z)
    (active : gmap LeaseId BankLeaseSpec) : Prop := {
  inv_sequenced : well_sequenced s;
  inv_permitted : Forall (permitted_view (sec_privilege s)) (iter_items s);
  inv_leases : lease_replay (iter_items s) = Some active;
  inv_inline : SectionRole_permits_inline_data (sec_role s) = false ->
               Forall (fun v => is_data v = false) (iter_items s);
  inv_label_names : NoDup (label_name <$> labels_of (iter_items s));
  inv_label_set : forall l, l ∈ labels_of (iter_items s) -> label_name l ∈ labels;
  inv_label_ids : forall i l, labels_of (iter_items s) !! i = Some l ->
                  label_id l = SymbolId_new (Z.of_nat i);
  inv_next_id : nid = zlen (labels_of (iter_items s));
  inv_vector : forall iv, sec_interrupt_vector s = Some iv ->
               sec_role s = Role_InterruptVector
               /\ omap payload_of (iter_items s)
                  = [Some (SymbolicBranch_interrupt_vector_jp (iv_target iv))];
}.

Definition builder_inv (b : Builder) : Prop :=
  section_inv (b_section b) (b_labels b) (b_next_label_id b) (b_active_leases b).

Lemma lease_replay_snoc vs v :
  lease_replay (vs ++ [v]) = lease_replay vs ≫= (fun active => lease_step active v).
Proof. unfold lease_replay. by rewrite foldl_app. Qed.

(** What a push must satisfy to keep the invariant. *)
Lemma section_inv_push {E} s labels nid active ep s' labels' nid' active' :
  section_inv s labels nid active -> @push E s ep = Ok s' ->
  (forall n, permitted_view (sec_privilege s) (emitted_view n ep)) ->
  (forall n, lease_step active (emitted_view n ep) = Some active') ->
  (SectionRole_permits_inline_data (sec_role s) = false ->
     forall n, is_data (emitted_view n ep) = false) ->
  (forall n, match label_of (emitted_view n ep) with
     | None => labels' = labels /\ nid' = nid
     | Some l => (label_name l ∉ labels) /\ labels' = labels ∪ {[label_name l]}
                 /\ label_id l = SymbolId_new nid /\ nid' = nid + 1
     end) ->
  (sec_role s = Role_InterruptVector -> is_Some (sec_interrupt_vector s) ->
     forall n, payload_of (emitted_view n ep) = None) ->
  section_inv s' labels' nid' active'.
Proof.
  intros [] Hp Heff Hlease Hdata Hlab Hvec.
  destruct (push_iter_items _ _ _ inv_sequenced0 Hp) as (Hw & n & Hi).
  pose proof (push_head _ _ _ Hp) as Hh. injection Hh as Hid Hrole Hname Hiv Hpriv Hal Hsz.
  specialize (Hlab n). unfold labels_of in *.
  destruct (label_of (emitted_view n ep)) as [l|] eqn:Hl.
  - destruct Hlab as (Hnew & -> & Hlid & ->).
    assert (Hom : omap label_of (iter_items s') = omap label_of (iter_items s) ++ [l])
      by (rewrite Hi, omap_app; simpl; by rewrite Hl).
    constructor; unfold labels_of; rewrite ?Hom, ?Hrole, ?Hpriv, ?Hiv; try done.
    + rewrite Hi, Forall_app, Forall_singleton. auto.
    + rewrite Hi, lease_replay_snoc, inv_leases0. simpl. auto.
    + intros Hr. rewrite Hi, Forall_app, Forall_singleton. auto.
    + rewrite fmap_app, NoDup_app. simpl. split_and!; [done| |apply NoDup_singleton].
      intros x (l' & -> & Hl')%list_elem_of_fmap Hx%list_elem_of_singleton.
      rewrite <- Hx in Hnew. by destruct Hnew; apply inv_label_set0.
    + intros l' [Hl'|Hl'%list_elem_of_singleton]%elem_of_app; clear inv_vector0; set_solver.
    + intros i l' [Hl'|[Hge Hl']]%lookup_app_Some; [auto|].
      apply list_lookup_singleton_Some in Hl' as [Hi0 ->]. rewrite Hlid. f_equal. unfold zlen in *. lia.
    + rewrite zlen_app, inv_next_id0. done.
    + intros iv Hiv'. destruct (inv_vector0 iv Hiv') as [Hr Hpay]. split; [done|].
      rewrite Hi, omap_app, Hpay. simpl. rewrite Hvec by eauto. done.
  - destruct Hlab as [-> ->].
    assert (Hom : omap label_of (iter_items s') = omap label_of (iter_items s))
      by (rewrite Hi, omap_app; simpl; by rewrite Hl, app_nil_r).
    constructor; unfold labels_of; rewrite ?Hom, ?Hrole, ?Hpriv, ?Hiv; try done.
    + rewrite Hi, Forall_app, Forall_singleton. auto.
    + rewrite Hi, lease_replay_snoc, inv_leases0. simpl. auto.
    + intros Hr. rewrite Hi, Forall_app, Forall_singleton. auto.
    + intros iv Hiv'. destruct (inv_vector0 iv Hiv') as [Hr Hpay]. split; [done|].
      rewrite Hi, omap_app, Hpay. simpl. rewrite Hvec by eauto. done.
Qed.

(** The builder-level form for items other than labels. *)
Lemma builder_inv_push b ep s active' :
  builder_inv b -> push (b_section b) (ep, b_cur_provenance b) = Ok (E := BuilderError) s ->
  (forall n, permitted_view (sec_privilege (b_section b)) (emitted_view n (ep, b_cur_provenance b))) ->
  (forall n, lease_step (b_active_leases b) (emitted_view n (ep, b_cur_provenance b)) = Some active') ->
  (SectionRole_permits_inline_data (sec_role (b_section b)) = false ->
     match ep with Emit_data_block _ => False | _ => True end) ->
  (sec_role (b_section b) = Role_InterruptVector ->
     is_Some (sec_interrupt_vector (b_section b)) -> False) ->
  match ep with Emit_label _ => False | _ => True end ->
  section_inv s (b_labels b) (b_next_label_id b) active'.
Proof.
  intros Hb Hp Hperm Hlease Hdata Hvec Hlab.
  eapply section_inv_push; [exact Hb | exact Hp | done | done | | |].
  - intros Hr n. specialize (Hdata Hr). by destruct ep.
  - intros n. by destruct ep.
  - intros Hr Hiv. by destruct (Hvec Hr Hiv).
Qed.

Ltac unfold_ops H :=
  unfold try_emit, try_db_bytes, try_dw_words, try_label, try_align, try_bank_lease,
    try_bank_release, try_bank_release_to, try_branch, try_far_call, try_yield_op,
    try_trace_probe, try_assert_bank, pre_layout_op, pre_layout_op_unchecked,
    legalization_op_unchecked, guard_interrupt_vector_payload, guard_inline_data in H.

(** The payload guard, as the push lemma wants it. *)
Lemma unsealed s :
  bool_decide (sec_role s = Role_InterruptVector)
    && match sec_interrupt_vector s with Some _ => true | None => false end = false ->
  sec_role s = Role_InterruptVector -> is_Some (sec_interrupt_vector s) -> False.
Proof.
  intros H Hr [iv Hiv]. rewrite Hr, Hiv in H. by rewrite bool_decide_true in H.
Qed.

(** An item whose effect [validate_effect] has accepted. *)
Lemma permitted_emitted p ep n :
  match view_machine_effect (emitted_view 0 ep) with
  | Some eff => permits_effect p eff = true
  | None => True
  end -> permitted_view p (emitted_view n ep).
Proof. destruct ep as [[] pr]; intros H eff Heff; cbn in *; congruence. Qed.

Lemma allocate_lease_loop_inv fuel b id b' :
  allocate_lease_loop fuel b = (Ok id, b') -> exists n, b' = set_b_next_lease_id n b.
Proof.
  revert b. induction fuel as [|fuel IH]; intros b H; [done|]. simpl in H. bm_ok.
  simpl in H. destruct (_ !! _).
  - apply IH in H as [n ->]. by exists n.
  - bm_ok. eauto.
Qed.

Lemma check_lease_chain_Ok chain b u b' : check_lease_chain chain b = (Ok u, b') ->
  forallb (fun id => bool_decide (is_Some (b_active_leases b !! id))) chain = true.
Proof.
  induction chain as [|id chain IH]; simpl; [done|]. intros H. bm_ok.
  apply bool_decide_eq_false in Hx0. apply andb_true_iff. split; [|auto].
  apply bool_decide_eq_true. by apply not_eq_None_Some.
Qed.

Lemma try_bank_release_to_inv id return_to b b' :
  builder_inv b -> try_bank_release_to id return_to b = (Ok tt, b') -> builder_inv b'.
Proof.
  intros Hb H. unfold_ops H. bm_ok.
  apply bool_decide_eq_false, not_eq_None_Some in Hx2 as [spec Hspec].
  eapply (builder_inv_push b); [exact Hb | exact H | | | done | by apply unsealed | done].
  - intros n. by apply permitted_emitted.
  - intros n. simpl. by rewrite Hspec.
Qed.

Lemma try_label_inv name b id b' :
  builder_inv b -> try_label name b = (Ok id, b') -> builder_inv b'.
Proof.
  intros Hb H. unfold_ops H. bm_ok. apply bool_decide_eq_false in Hx0.
  destruct (checked_add _ _ _) as [nid|] eqn:Hc; bm_ok.
  apply checked_add_Some in Hc as [_ ->].
  eapply section_inv_push; [exact Hb | eassumption | | | done | |].
  - intros n. by apply permitted_emitted.
  - done.
  - intros n. simpl. done.
  - done.
Qed.

Lemma try_set_privilege_inv p b b' :
  builder_inv b -> try_set_section_privilege p b = (Ok tt, b') -> builder_inv b'.
Proof.
  intros [] H. unfold try_set_section_privilege, try_set_privilege in H.
  destruct (validate_section_for_privilege (b_section b) p) as [u|e| |] eqn:Hv; simpl in H; try done.
  injection H as <-.
  assert (Hi : iter_items (set_sec_privilege p (b_section b)) = iter_items (b_section b)) by done.
  constructor; simpl; rewrite ?Hi; try done.
  apply Forall_forall. intros v Hin eff Heff.
  destruct (proj2 (candidates_views (b_section b) eff)) as [q Hq]; [eauto|].
  by apply (validate_Ok_permits _ _ _ Hv (q, eff)).
Qed.

Lemma run_op_Ok_inv op b b' :
  builder_inv b -> run_op op b = (Ok tt, b') -> builder_inv b'.
Proof.
  intros Hb H. destruct op; simpl in H.
  1: by eapply try_set_privilege_inv.
  4: { bm_ok. by eapply try_label_inv. }
  7: by eapply try_bank_release_to_inv.
  6: { unfold try_bank_release in H. bm_ok. destruct (active_lease_spec _ _); bm_ok.
       by eapply try_bank_release_to_inv. }
  11: { bm_ok. apply allocate_lease_loop_inv in Hx as [n ->]. done. }
  all: unfold_ops H; bm_ok.
  7: { pose proof (check_lease_chain_Ok _ _ _ _ Hx1) as Hchain.
       apply check_lease_chain_state in Hx1 as ->.
       eapply (builder_inv_push b);
         [exact Hb | exact H | intros n; by apply permitted_emitted | intros n; simpl
         | done | by apply unsealed | done]. by rewrite Hchain. }
  all: eapply (builder_inv_push b);
    [exact Hb | eassumption | intros n; by apply permitted_emitted | intros n; simpl; try done
    | try done | try by apply unsealed | done].
  - intros Hr. by rewrite Hr in Hx0.
  - intros Hr. by rewrite Hr in Hx.
  - intros Hr _. by rewrite Hr in Hx.
  - match goal with Ha : bool_decide (is_Some _) = false |- _ => rename Ha into Hfree end.
    apply bool_decide_eq_false, eq_None_not_Some in Hfree. by rewrite Hfree.
  - match goal with Ha : has_active_leases _ = false |- _ => rename Ha into Hnone end.
    unfold has_active_leases in Hnone. apply negb_false_iff in Hnone. by rewrite Hnone.
Qed.

Lemma section_inv_labels_mono s labels labels' nid active :
  section_inv s labels nid active -> labels ⊆ labels' -> section_inv s labels' nid active.
Proof. intros [] Hsub. constructor; try done. intros l Hl. apply Hsub. auto. Qed.

Lemma run_op_inv op b r b' :
  builder_inv b -> run_op op b = (r, b') -> returns r -> builder_inv b'.
Proof.
  intros Hb H Hr. destruct r as [[]|e| |]; try done.
  - by eapply run_op_Ok_inv.
  - apply op_error_state in H as [->|(name & -> & _ & ->)]; [done|].
    eapply section_inv_labels_mono; [exact Hb|]. set_solver.
Qed.

Lemma session_inv b b' : session b b' -> builder_inv b -> builder_inv b'.
Proof.
  induction 1 as [|b op r b1 b2 Hop Hr _ IH|b p b1 b2 _ IH1 _ IH2]; intros Hb; [done| |].
  - apply IH. by eapply run_op_inv.
  - apply IH2, IH1, Hb.
Qed.

Lemma new_inv id role name : builder_inv (Builder_new_with_id id role name).
Proof.
  constructor; simpl; try done.
  - exists []. apply emits_new.
  - constructor.
  - intros l Hl. by apply elem_of_nil in Hl.
Qed.

Lemma interrupt_vector_inv id slot owner target b :
  interrupt_vector_with_id id slot owner target = Ok b -> builder_inv b.
Proof.
  unfold interrupt_vector_with_id. intros H.
  destruct (bbind _ _ _) as [[u|e| |] b'] eqn:Hm; try done. injection H as <-.
  unfold label, branch, or_panic in Hm.
  apply bbind_Ok in Hm as (i & b1 & Hl & Hm). apply bbind_Ok in Hm as ([] & b2 & Hbr & Hm).
  destruct (try_label _ _) as [[i'|e| |] b1'] eqn:Hl'; try done. injection Hl as -> ->.
  destruct (try_branch _ _) as [[u'|e| |] b2'] eqn:Hb'; try done. injection Hbr as -> ->.
  pose proof (try_label_inv _ _ _ _ (new_inv id Role_InterruptVector owner) Hl') as Hi1.
  pose proof (run_op_Ok_inv (Do_branch _) _ _ Hi1 Hb') as Hi2.
  injection Hm as <-.
  unfold_ops Hl'. unfold_ops Hb'. bm_ok. destruct (checked_add _ _ _); bm_ok.
  unfold push, push_label, push_branch, next_seq in *. inv_arith. simpl in *. subst.
  destruct Hi2. constructor; simpl in *; try done.
  intros iv [= <-]. done.
Qed.

Lemma reachable_inv b : reachable b -> builder_inv b.
Proof.
  intros (b0 & [(id & role & name & ->)|(id & slot & owner & target & Hv)] & Hs);
    eapply session_inv; eauto using new_inv, interrupt_vector_inv.
Qed.

(** ** Allocation of lease ids *)

Definition lease_probe (b : Builder) (i : nat) : LeaseId :=
  LeaseId_new (wrap U32 (b_next_lease_id b + Z.of_nat i)).

Lemma allocate_lease_loop_spec fuel b : 0 <= b_next_lease_id b < 4294967296 ->
  (exists id n, allocate_lease_loop fuel b = (Ok id, set_b_next_lease_id n b)
     /\ b_active_leases b !! id = None /\ 0 <= LeaseId_get id < 4294967296
     /\ 0 <= n < 4294967296)
  \/ (forall i, (i < fuel)%nat -> is_Some (b_active_leases b !! lease_probe b i)).
Proof.
  revert b. induction fuel as [|fuel IH]; intros b Hb; [right; lia|].
  simpl. unfold bbind, bget, bmodify, bret. simpl.
  assert (H0 : lease_probe b 0 = LeaseId_new (b_next_lease_id b)).
  { unfold lease_probe, wrap. rewrite Z.add_0_r, Z.mod_small by lia. done. }
  assert (Hw : 0 <= wrap U32 (b_next_lease_id b + 1) < 4294967296)
    by (unfold wrap; apply Z.mod_pos_bound; lia).
  destruct (b_active_leases b !! LeaseId_new (b_next_lease_id b)) eqn:Hl.
  - destruct (IH (set_b_next_lease_id (wrap U32 (b_next_lease_id b + 1)) b) Hw)
      as [(id & n & Heq & Hid)|Hall].
    + left. exists id, n. split; [exact Heq | exact Hid].
    + right. intros i Hi. destruct i as [|i]; [rewrite H0, Hl; by eexists|].
      specialize (Hall i ltac:(lia)). unfold lease_probe in *. simpl in Hall.
      unfold wrap in *. rewrite Zplus_mod_idemp_l in Hall.
      by replace (b_next_lease_id b + Z.of_nat (S i)) with (b_next_lease_id b + 1 + Z.of_nat i) by lia.
  - left. eexists _, _. split; [reflexivity|]. auto.
Qed.

Lemma lease_probe_inj b i j : (i < 4294967296)%Z -> (j < 4294967296)%Z ->
  0 <= i -> 0 <= j ->
  wrap U32 (b_next_lease_id b + i) = wrap U32 (b_next_lease_id b + j) -> i = j.
Proof.
  unfold wrap. intros ? ? ? ? H.
  pose proof (Z.div_mod (b_next_lease_id b + i) U32 ltac:(lia)).
  pose proof (Z.div_mod (b_next_lease_id b + j) U32 ltac:(lia)).
  pose proof (Z.mod_pos_bound (b_next_lease_id b + i) U32 ltac:(lia)). nia.
Qed.

Lemma probes_bounded b n : Z.of_nat n <= 4294967296 ->
  (forall i, (i < n)%nat -> is_Some (b_active_leases b !! lease_probe b i)) ->
  (n <= size (b_active_leases b))%nat.
Proof.
  intros Hn Hall. rewrite <- (length_seq n 0), <- (length_fmap (lease_probe b)).
  rewrite <- (size_list_to_set (C := gset LeaseId)), <- size_dom.
  - apply subseteq_size. intros id. rewrite elem_of_list_to_set, list_elem_of_fmap.
    intros (i & -> & Hi%elem_of_seq). apply elem_of_dom, Hall. lia.
  - apply NoDup_fmap_2_strong; [|apply NoDup_seq].
    intros i j Hi%elem_of_seq Hj%elem_of_seq [= Heq].
    apply lease_probe_inj in Heq; lia.
Qed.

(** ** Properties *)

(** a rejected operation changes nothing: when a [try_] method returns an
    error the builder (section, leases, labels, counters, provenance) is exactly
    what it was before the call.  The single exception is [try_label] running
    out of label ids, which leaves the rejected name reserved. *)
Theorem errors_preserve_builder (op : builder_op) (b b' : Builder) (e : BuilderError)
  (H : run_op op b = (Err e, b')) :
  b' = b \/ exists name, op = Do_label name /\ e = B_TooManyLabels
              /\ b' = set_b_labels (b_labels b ∪ {[name]}) b.
Proof. by apply op_error_state in H. Qed.

Lemma errors_preserve_builder_witness :
  let b := Builder_new Role_Bank0Nucleus (MkSymbolName "main") in
  run_op (Do_emit I_Reti) b
    = (Err (B_PrivilegeViolation E_Reti
              (Viol_RequiredPrivilege Priv_InterruptHandler Priv_Normal)), b)
  /\ (b = b \/ exists name, Do_emit I_Reti = Do_label name
       /\ B_PrivilegeViolation E_Reti
              (Viol_RequiredPrivilege Priv_InterruptHandler Priv_Normal) = B_TooManyLabels
       /\ b = set_b_labels (b_labels b ∪ {[name]}) b).
Proof.
  intros b. assert (run_op (Do_emit I_Reti) b
    = (Err (B_PrivilegeViolation E_Reti
              (Viol_RequiredPrivilege Priv_InterruptHandler Priv_Normal)), b)) as H by reflexivity.
  split; [exact H | exact (errors_preserve_builder _ _ _ _ H)].
Defined.


(** C39: every section a builder session completes is within its own privilege
    policy: each instruction, structured op and branch it holds has an effect
    the section's final policy permits, no executable-role section holds inline
    data, and [validate_section_for_privilege] accepts it.  A session is any
    interleaving of the builder's operations, failed ones and replacements of
    the policy included, also inside [with_provenance] closures. *)
Theorem finished_section_permitted (b : Builder) (s : AsmSection)
  (Hr : reachable b) (Hf : try_finish b = Ok s) :
  validate_section_for_privilege s (sec_privilege s) = Ok tt
  /\ Forall (permitted_view (sec_privilege s)) (iter_items s)
  /\ (SectionRole_permits_inline_data (sec_role s) = false -> sec_data_blocks s = []).
Proof.
  apply reachable_inv in Hr as []. unfold try_finish in Hf.
  destruct (has_active_leases b); [done|]. injection Hf as <-. split_and!; [|done|].
  - apply validate_intro. intros v Hv eff Heff. rewrite Forall_forall in inv_permitted0.
    exact (inv_permitted0 v Hv eff Heff).
  - intros Hrole. specialize (inv_inline0 Hrole). by apply no_data_views.
Qed.

(** every section a session completes uses bank leases correctly: read in
    authoring order, no lease is acquired while it is held, none is released
    or named by a far call while it is not held, no yield happens inside a
    lease, and at the end every lease has been released. *)
Theorem finished_lease_discipline (b : Builder) (s : AsmSection)
  (Hr : reachable b) (Hf : try_finish b = Ok s) :
  lease_replay (iter_items s) = Some ∅.
Proof.
  apply reachable_inv in Hr as []. unfold try_finish, has_active_leases in Hf.
  destruct (bool_decide _) eqn:Ha; [|done]. injection Hf as <-.
  apply bool_decide_eq_true in Ha. by rewrite <- Ha.
Qed.

(** label names are unique in every section a session completes, and the
    builder-local ids number them 0, 1, 2, ... in authoring order. *)
Theorem finished_labels_unique (b : Builder) (s : AsmSection)
  (Hr : reachable b) (Hf : try_finish b = Ok s) :
  NoDup (label_name <$> labels_of (iter_items s))
  /\ (forall i l, labels_of (iter_items s) !! i = Some l -> label_id l = SymbolId_new (Z.of_nat i)).
Proof.
  apply reachable_inv in Hr as []. unfold try_finish in Hf.
  destruct (has_active_leases b); [done|]. injection Hf as <-. done.
Qed.

(** an interrupt-vector section built by [interrupt_vector] keeps its
    canonical payload through every later operation: whatever the session
    does, the section holds one absolute jump to the declared target and
    otherwise only labels. *)
Theorem interrupt_vector_sealed (b : Builder) (iv : InterruptVector)
  (Hr : reachable b) (Hv : sec_interrupt_vector (b_section b) = Some iv) :
  sec_role (b_section b) = Role_InterruptVector
  /\ omap payload_of (iter_items (b_section b))
     = [Some (SymbolicBranch_interrupt_vector_jp (iv_target iv))].
Proof. apply reachable_inv in Hr as []. auto. Qed.

(** [allocate_lease_id] terminates with an id that is not active, and
    changes only the id counter, whenever fewer than 2^32 leases are active. *)
Theorem allocate_lease_id_fresh (b : Builder)
  (Hn : 0 <= b_next_lease_id b < 4294967296)
  (Ha : Z.of_nat (size (b_active_leases b)) < 4294967296) :
  exists id n, allocate_lease_id b = (Ok id, set_b_next_lease_id n b)
    /\ b_active_leases b !! id = None /\ 0 <= LeaseId_get id < 4294967296
    /\ 0 <= n < 4294967296.
Proof.
  unfold allocate_lease_id.
  destruct (allocate_lease_loop_spec (S (size (b_active_leases b))) b Hn) as [H|Hall]; [exact H|].
  apply probes_bounded in Hall; lia.
Qed.

(** A session that leases a ROM bank, is refused a yield while it is held,
    releases it, and finishes. *)
Definition demo_lease : BankLeaseSpec :=
  MkBankLeaseSpec (LeaseId_new 0) (MkLeaseGeneration 0) Mbc_Rom 5 Life_Slice.
Definition demo_ops : list builder_op :=
  [Do_label (MkSymbolName "main"); Do_bank_lease demo_lease; Do_yield Yield_Cooperative;
   Do_emit I_Nop; Do_bank_release (LeaseId_new 0); Do_yield Yield_Cooperative].
Definition run_ops (ops : list builder_op) (b : Builder) : Builder :=
  foldl (fun b op => snd (run_op op b)) b ops.
Definition demo_builder : Builder := run_ops demo_ops (Builder_new Role_Bank0Nucleus (MkSymbolName "m")).

Fixpoint all_return (ops : list builder_op) (b : Builder) : bool :=
  match ops with
  | [] => true
  | op :: ops' =>
      match run_op op b with (Ok _, b1) | (Err _, b1) => all_return ops' b1 | _ => false end
  end.

Lemma run_ops_session ops b : all_return ops b = true -> session b (run_ops ops b).
Proof.
  revert b. induction ops as [|op ops IH]; intros b; [constructor|]. cbn [all_return].
  change (run_ops (op :: ops) b) with (run_ops ops (snd (run_op op b))).
  destruct (run_op op b) as [r b1] eqn:Hop. intros H.
  apply (session_op b op r b1); [done | by destruct r |].
  apply IH. by destruct r.
Qed.

Lemma demo_reachable : reachable demo_builder.
Proof.
  exists (Builder_new Role_Bank0Nucleus (MkSymbolName "m")). split; [left; by repeat eexists|].
  apply run_ops_session. vm_compute. reflexivity.
Qed.

Lemma finished_section_permitted_witness :
  match try_finish demo_builder with
  | Ok s =>
      validate_section_for_privilege s (sec_privilege s) = Ok tt
      /\ Forall (permitted_view (sec_privilege s)) (iter_items s)
      /\ (SectionRole_permits_inline_data (sec_role s) = false -> sec_data_blocks s = [])
  | _ => False
  end.
Proof.
  destruct (try_finish demo_builder) as [s|e| |] eqn:E; try (vm_compute in E; discriminate E).
  exact (finished_section_permitted demo_builder s demo_reachable E).
Defined.

Lemma finished_lease_discipline_witness :
  match try_finish demo_builder with
  | Ok s => lease_replay (iter_items s) = Some ∅
  | _ => False
  end.
Proof.
  destruct (try_finish demo_builder) as [s|e| |] eqn:E; try (vm_compute in E; discriminate E).
  exact (finished_lease_discipline demo_builder s demo_reachable E).
Defined.

Lemma finished_labels_unique_witness :
  match try_finish demo_builder with
  | Ok s =>
      NoDup (label_name <$> labels_of (iter_items s))
      /\ (forall i l, labels_of (iter_items s) !! i = Some l -> label_id l = SymbolId_new (Z.of_nat i))
  | _ => False
  end.
Proof.
  destruct (try_finish demo_builder) as [s|e| |] eqn:E; try (vm_compute in E; discriminate E).
  exact (finished_labels_unique demo_builder s demo_reachable E).
Defined.

(** The session emitted five items: the refused yield is not among them. *)
Example demo_items : zlen (iter_items (b_section demo_builder)) = 5.
Proof. vm_compute. reflexivity. Qed.

Definition demo_vector : Builder :=
  match interrupt_vector Slot_VBlank (MkSymbolName "vec") (MkSymbolName "isr") with
  | Ok b => run_ops [Do_emit I_Nop; Do_label (MkSymbolName "x")] b
  | _ => Builder_new Role_Bank0Data (MkSymbolName "unused")
  end.

Lemma demo_vector_fresh :
  is_ok (interrupt_vector Slot_VBlank (MkSymbolName "vec") (MkSymbolName "isr")) = true.
Proof. vm_compute. reflexivity. Qed.

Lemma demo_vector_ops :
  match interrupt_vector Slot_VBlank (MkSymbolName "vec") (MkSymbolName "isr") with
  | Ok b => all_return [Do_emit I_Nop; Do_label (MkSymbolName "x")] b
  | _ => false
  end = true.
Proof. vm_compute. reflexivity. Qed.

Lemma demo_vector_reachable : reachable demo_vector.
Proof.
  unfold demo_vector. pose proof demo_vector_fresh as Hok.
  pose proof demo_vector_ops as Hops.
  destruct (interrupt_vector _ _ _) as [b|e| |] eqn:E; try done.
  exists b. split; [right; by eexists _, _, _, _|]. by apply run_ops_session.
Qed.

Lemma interrupt_vector_sealed_witness :
  sec_interrupt_vector (b_section demo_vector)
    = Some (MkInterruptVector Slot_VBlank (MkSymbolName "isr"))
  /\ sec_role (b_section demo_vector) = Role_InterruptVector
  /\ omap payload_of (iter_items (b_section demo_vector))
     = [Some (SymbolicBranch_interrupt_vector_jp (MkSymbolName "isr"))].
Proof.
  assert (Hv : sec_interrupt_vector (b_section demo_vector)
    = Some (MkInterruptVector Slot_VBlank (MkSymbolName "isr"))) by (vm_compute; reflexivity).
  split; [exact Hv | exact (interrupt_vector_sealed demo_vector _ demo_vector_reachable Hv)].
Defined.

Lemma allocate_lease_id_fresh_witness :
  let b := run_ops [Do_bank_lease demo_lease] (Builder_new Role_Bank0Nucleus (MkSymbolName "m")) in
  exists id n, allocate_lease_id b = (Ok id, set_b_next_lease_id n b)
    /\ b_active_leases b !! id = None /\ 0 <= LeaseId_get id < 4294967296
    /\ 0 <= n < 4294967296.
Proof. intros b. apply allocate_lease_id_fresh; vm_compute; try split; congruence. Defined.
