(* ===== verification/SymTable.v ===== *)
(** * The symbol table and [.sym] lines ([gbf-asm/src/symbols.rs])

    [SymbolTable] maps unique names to section-relative addresses; [SymEntry]
    is one line of a [.sym] file with its printer and parser; [dot_safe_name]
    rewrites names for debuggers that treat dots specially.  The whole-file
    writer needs the layout and is in [SymFile]. *)

From S2P Require Import Prelude Names.

(** ** The table *)

Record SymbolAddress := MkSymbolAddress { sa_section : SectionId; sa_offset : Z }.
#[export] Instance SymbolAddress_eq_dec : EqDecision SymbolAddress. Proof. solve_decision. Defined.

Inductive SymbolTableError :=
| DuplicateName (name : SymbolName) (existing new : SymbolAddress).

Record SymbolTable := MkSymbolTable { by_name : gmap SymbolName SymbolAddress }.
#[export] Instance SymbolTable_eq_dec : EqDecision SymbolTable. Proof. solve_decision. Defined.

Definition SymbolTable_new : SymbolTable := MkSymbolTable ∅.

Definition SymbolTable_insert (t : SymbolTable) (name : SymbolName) (address : SymbolAddress)
    : outcome SymbolTableError SymbolTable :=
  match by_name t !! name with
  | Some existing => Err (DuplicateName name existing address)
  | None => Ok (MkSymbolTable (<[name := address]> (by_name t)))
  end.

Definition SymbolTable_resolve (t : SymbolTable) (name : SymbolName) : option SymbolAddress :=
  by_name t !! name.

(** [iter]: the entries of the [BTreeMap] in name order. *)
Definition entry_leb (a b : SymbolName * SymbolAddress) : bool := SymbolName_leb a.1 b.1.
Definition SymbolTable_iter (t : SymbolTable) : list (SymbolName * SymbolAddress) :=
  sort_by entry_leb (map_to_list (by_name t)).

Definition SymbolTable_names_for (t : SymbolTable) (address : SymbolAddress) : list SymbolName :=
  map fst (filter (fun e => e.2 = address) (SymbolTable_iter t)).

Definition SymbolTable_len (t : SymbolTable) : Z := Z.of_nat (size (by_name t)).
Definition SymbolTable_is_empty (t : SymbolTable) : bool := bool_decide (by_name t = ∅).

(** ** One line of a [.sym] file *)

Record SymOptions := MkSymOptions {
  include_externals_as_comments : bool;
  rom_only : bool;
  dot_safe_separator : bool;
}.
Definition SymOptions_default : SymOptions := MkSymOptions true false false.

(** The message of a parse error is a fixed text and the offending line. *)
Inductive SymParseError :=
| Parse_EmptyOrComment | Parse_MissingName (line : string)
| Parse_InvalidBank (line : string) | Parse_InvalidAddress (line : string).
Inductive SymError :=
| Sym_MissingPlacement (section_id : SectionId)
| Sym_AddressOverflow (section_id : SectionId) (offset : Z)
| Sym_DotSafeNameCollision (rewritten : string) (original1 original2 : SymbolName)
| Sym_Parse (message : SymParseError).

Record SymEntry := MkSymEntry { se_bank : option Z; se_addr : Z; se_name : string }.
#[export] Instance SymEntry_eq_dec : EqDecision SymEntry. Proof. solve_decision. Defined.

(** [Display for SymEntry]. *)
Definition SymEntry_to_string (e : SymEntry) : string :=
  match se_bank e with
  | Some bank => hex_u16 2 bank +:+ ":" +:+ hex_u16 4 (se_addr e) +:+ " " +:+ se_name e
  | None => hex_u16 4 (se_addr e) +:+ " " +:+ se_name e
  end.

Definition starts_with_char (c : ascii) (s : string) : bool :=
  match s with String d _ => Ascii.eqb c d | EmptyString => false end.

(** [FromStr for SymEntry]. *)
Definition SymEntry_from_str (line : string) : outcome SymError SymEntry :=
  let line := str_trim line in
  let* _ := guard_err (str_is_empty line || starts_with_char ";" line)
              (Sym_Parse Parse_EmptyOrComment) in
  let* (loc, name) := ok_or (str_split_once is_whitespace line)
                        (Sym_Parse (Parse_MissingName line)) in
  let name := str_trim name in
  let* _ := guard_err (str_is_empty name) (Sym_Parse (Parse_MissingName line)) in
  match str_split_once (Ascii.eqb ":") loc with
  | Some (bank, addr) =>
      let* bank := ok_or (from_str_radix16 U16 bank) (Sym_Parse (Parse_InvalidBank line)) in
      let* addr := ok_or (from_str_radix16 U16 addr) (Sym_Parse (Parse_InvalidAddress line)) in
      Ok (MkSymEntry (Some bank) addr name)
  | None =>
      let* addr := ok_or (from_str_radix16 U16 loc) (Sym_Parse (Parse_InvalidAddress line)) in
      Ok (MkSymEntry None addr name)
  end.

(** [str::lines]: the final line may lack its newline, and a carriage return
    before a newline is dropped. *)
Definition strip_cr (s : string) : string :=
  match str_rev s with
  | String c r => if Ascii.eqb c "013" then str_rev r else s
  | EmptyString => s
  end.
Fixpoint str_lines_go (cur s : string) : list string :=
  match s with
  | EmptyString => if str_is_empty cur then [] else [str_rev cur]
  | String c s' =>
      if Ascii.eqb c "010" then strip_cr (str_rev cur) :: str_lines_go "" s'
      else str_lines_go (String c cur) s'
  end.
Definition str_lines (s : string) : list string := str_lines_go "" s.

Definition is_sym_line (line : string) : bool :=
  let line := str_trim line in negb (str_is_empty line) && negb (starts_with_char ";" line).
Definition parse_sym_entries (input : string) : outcome SymError (list SymEntry) :=
  omapM SymEntry_from_str (base.filter (fun l => is_sym_line l = true) (str_lines input)).

(** The loop of [dot_safe_name] over the characters of the name. *)
Fixpoint dot_safe_chars (s : string) : string :=
  match s with
  | EmptyString => ""
  | String c s' =>
      (if Ascii.eqb c "." then "_d" else if Ascii.eqb c "_" then "__" else String c "")
      +:+ dot_safe_chars s'
  end.
Definition dot_safe_name (name : SymbolName) : string :=
  "gbf_" +:+ dot_safe_chars (SymbolName_as_str name).

(** ** Lemmas: hexadecimal *)

Definition is_hex (c : ascii) : bool := match hex_value c with Some _ => true | None => false end.

Lemma hex_digit_value d : 0 <= d < 16 -> hex_value (hex_digit d) = Some d.
Proof.
  intros Hd.
  assert (d = 0 \/ d = 1 \/ d = 2 \/ d = 3 \/ d = 4 \/ d = 5 \/ d = 6 \/ d = 7 \/ d = 8 \/ d = 9
    \/ d = 10 \/ d = 11 \/ d = 12 \/ d = 13 \/ d = 14 \/ d = 15) as Hc by lia.
  repeat (destruct Hc as [->|Hc]; [reflexivity|]). by subst.
Qed.

Lemma parse_hex_go_hex m fuel : forall n acc, 0 <= n < 16 ^ Z.of_nat fuel -> n < m ->
  parse_hex_go m 0 (hex_go fuel n acc) = parse_hex_go m n acc.
Proof.
  induction fuel as [|fuel IH]; intros n acc Hn Hm; [simpl in *; by replace n with 0 by lia|].
  rewrite Nat2Z.inj_succ, Z.pow_succ_r in Hn by lia. cbn [hex_go].
  pose proof (Z.mod_pos_bound n 16 ltac:(lia)) as Hmod.
  pose proof (Z.div_mod n 16 ltac:(lia)) as Hdiv.
  destruct (Z.eqb_spec (n / 16) 0) as [H0|H0].
  - cbn [parse_hex_go]. rewrite hex_digit_value by done.
    replace (0 * 16 + n mod 16) with n by lia. by rewrite (proj2 (Z.ltb_lt n m) Hm).
  - rewrite IH by lia. cbn [parse_hex_go]. rewrite hex_digit_value by done.
    replace (n / 16 * 16 + n mod 16) with n by lia. by rewrite (proj2 (Z.ltb_lt n m) Hm).
Qed.

Lemma hex_go_forall fuel : forall n acc, 0 <= n -> str_forall is_hex acc = true ->
  str_forall is_hex (hex_go fuel n acc) = true.
Proof.
  induction fuel as [|fuel IH]; intros n acc Hn Ha; [done|]. cbn [hex_go].
  pose proof (Z.mod_pos_bound n 16 ltac:(lia)) as Hmod.
  assert (Hh : is_hex (hex_digit (n mod 16)) = true)
    by (unfold is_hex; by rewrite hex_digit_value).
  destruct (n / 16 =? 0); [simpl; by rewrite Hh|].
  apply IH; [apply Z.div_pos; lia | simpl; by rewrite Hh].
Qed.

Lemma zeros_forall k : str_forall is_hex (str_repeat "0" k) = true.
Proof. by induction k. Qed.

Lemma hex_u16_forall w n : 0 <= n -> str_forall is_hex (hex_u16 w n) = true.
Proof.
  intros Hn. unfold hex_u16, pad_left. rewrite str_forall_app, zeros_forall.
  by apply hex_go_forall.
Qed.

Lemma parse_zeros m k s : 0 < m -> parse_hex_go m 0 (str_repeat "0" k +:+ s) = parse_hex_go m 0 s.
Proof.
  intros Hm. induction k as [|k IH]; [done|].
  change (str_repeat "0" (S k) +:+ s) with (String "0" (str_repeat "0" k +:+ s)).
  cbn [parse_hex_go]. change (hex_value "0") with (Some 0). cbn iota.
  change (0 * 16 + 0) with 0. by rewrite (proj2 (Z.ltb_lt 0 m) Hm).
Qed.

Lemma hex_go_nonempty fuel n acc : hex_go (S fuel) n acc <> EmptyString.
Proof.
  revert n acc. induction fuel as [|fuel IH]; intros n acc; cbn [hex_go];
    destruct (n / 16 =? 0); try done. apply IH.
Qed.

Lemma hex_u16_parse w n : 0 <= n < 65536 -> from_str_radix16 U16 (hex_u16 w n) = Some n.
Proof.
  intros Hn. pose proof (hex_u16_forall w n ltac:(lia)) as Hf.
  assert (Hp : parse_hex_go U16 0 (hex_u16 w n) = Some n).
  { unfold hex_u16, pad_left. rewrite parse_zeros by lia.
    rewrite parse_hex_go_hex by (simpl; lia). done. }
  unfold from_str_radix16. destruct (hex_u16 w n) as [|c s] eqn:Hs.
  - exfalso. unfold hex_u16, pad_left in Hs.
    destruct (str_repeat _ _); [|done]. by apply hex_go_nonempty in Hs.
  - destruct (Ascii.eqb_spec c "+") as [->|_]; [|done]. by simpl in Hf.
Qed.

(** ** Lemmas: splitting and trimming *)

Lemma str_split_once_here p l c r :
  str_forall (fun x => negb (p x)) l = true -> p c = true ->
  str_split_once p (l +:+ String c r) = Some (l, r).
Proof.
  intros Hl Hc. induction l as [|d l IH]; simpl in *; [by rewrite Hc|].
  apply andb_true_iff in Hl as [Hd%negb_true_iff Hl]. by rewrite Hd, IH.
Qed.

Lemma str_split_once_none p s : str_forall (fun x => negb (p x)) s = true -> str_split_once p s = None.
Proof.
  induction s as [|d s IH]; simpl; [done|].
  intros [Hd%negb_true_iff Hs]%andb_true_iff. by rewrite Hd, IH.
Qed.

Lemma str_rev_app a b : str_rev (a +:+ b) = str_rev b +:+ str_rev a.
Proof.
  unfold str_rev.
  assert (Hl : forall a b, String.list_ascii_of_string (a +:+ b)
    = String.list_ascii_of_string a ++ String.list_ascii_of_string b)
    by (intros x y; induction x as [|c x IH]; simpl; by rewrite ?IH).
  assert (Hs : forall a b, String.string_of_list_ascii (a ++ b)
    = String.string_of_list_ascii a +:+ String.string_of_list_ascii b)
    by (intros x y; induction x as [|c x IH]; simpl; by rewrite ?IH).
  by rewrite Hl, reverse_app, Hs.
Qed.

Lemma str_rev_involutive s : str_rev (str_rev s) = s.
Proof.
  unfold str_rev. rewrite String.list_ascii_of_string_of_list_ascii, reverse_involutive.
  apply String.string_of_list_ascii_of_string.
Qed.

Lemma str_rev_length s : String.length (str_rev s) = String.length s.
Proof.
  assert (Hl : forall s, String.length s = length (String.list_ascii_of_string s))
    by (intros x; induction x; simpl; congruence).
  rewrite !Hl. unfold str_rev. by rewrite String.list_ascii_of_string_of_list_ascii, length_reverse.
Qed.

Lemma trim_start_length s : (String.length (str_trim_start s) <= String.length s)%nat.
Proof. induction s as [|c s IH]; simpl; [lia|]. destruct (is_whitespace c); simpl; lia. Qed.

(** A string that [trim_start] keeps whole begins with a non-blank. *)
Lemma trim_start_fixed s : String.length (str_trim_start s) = String.length s ->
  str_trim_start s = s /\ forall x, s <> EmptyString -> str_trim_start (s +:+ x) = s +:+ x.
Proof.
  destruct s as [|c s]; simpl; [done|]. destruct (is_whitespace c) eqn:Hc; [|done].
  pose proof (trim_start_length s). simpl. lia.
Qed.

Lemma str_trim_fixed s : str_trim s = s ->
  str_trim_start s = s /\ str_trim_start (str_rev s) = str_rev s.
Proof.
  intros H. apply (f_equal String.length) in H as Hl. unfold str_trim in Hl.
  rewrite str_rev_length in Hl.
  pose proof (trim_start_length (str_rev (str_trim_start s))) as H1. rewrite str_rev_length in H1.
  pose proof (trim_start_length s) as H2.
  destruct (trim_start_fixed s ltac:(lia)) as [Hs _]. split; [done|]. rewrite Hs in Hl, H1.
  apply trim_start_fixed. rewrite str_rev_length. lia.
Qed.

(** Prefixing a trimmed, non-empty string by a non-blank start. *)
Lemma str_trim_prefix p s : p <> EmptyString -> str_trim_start p = p ->
  s <> EmptyString -> str_trim s = s -> str_trim (p +:+ s) = p +:+ s.
Proof.
  intros Hp Htp Hs Hts. unfold str_trim.
  assert (H1 : str_trim_start (p +:+ s) = p +:+ s).
  { apply trim_start_fixed; [by rewrite Htp | done]. }
  rewrite H1, str_rev_app. apply str_trim_fixed in Hts as [_ Hr].
  assert (H2 : str_trim_start (str_rev s +:+ str_rev p) = str_rev s +:+ str_rev p).
  { apply trim_start_fixed; [by rewrite Hr|]. intros Hc.
    apply (f_equal String.length) in Hc. rewrite str_rev_length in Hc. by destruct s. }
  by rewrite H2, <- str_rev_app, str_rev_involutive.
Qed.

Lemma hex_not_ws c : is_hex c = true -> negb (is_whitespace c) = true.
Proof.
  unfold is_hex, hex_value, is_whitespace. repeat case_match; intros; try done; lia.
Qed.
Lemma hex_not_colon c : is_hex c = true -> negb (Ascii.eqb ":" c) = true.
Proof. destruct (Ascii.eqb_spec ":" c); [by subst | done]. Qed.

Lemma hex_u16_nonempty w n : hex_u16 w n <> EmptyString.
Proof.
  unfold hex_u16, pad_left. destruct (str_repeat _ _); [|done]. apply hex_go_nonempty.
Qed.

Lemma hex_trim_start s x : s <> EmptyString -> str_forall is_hex s = true ->
  str_trim_start (s +:+ x) = s +:+ x.
Proof.
  destruct s as [|c s]; [done|]. simpl. intros _ [Hc%hex_not_ws%negb_true_iff _]%andb_true_iff.
  by rewrite Hc.
Qed.

Lemma hex_first_not_semicolon s x : s <> EmptyString -> str_forall is_hex s = true ->
  str_is_empty (s +:+ x) || starts_with_char ";" (s +:+ x) = false.
Proof.
  destruct s as [|c s]; [done|]. simpl. intros _ [Hc _]%andb_true_iff.
  destruct c as [[] [] [] [] [] [] [] []]; try done.
Qed.

Lemma symbol_iter_NoDup t : NoDup (map fst (SymbolTable_iter t)).
Proof. unfold SymbolTable_iter. rewrite sort_by_perm. apply NoDup_fst_map_to_list. Qed.

Lemma symbol_iter_spec t m b : In (m, b) (SymbolTable_iter t) <-> SymbolTable_resolve t m = Some b.
Proof.
  rewrite <- list_elem_of_In. unfold SymbolTable_iter. rewrite elem_of_sort_by.
  apply elem_of_map_to_list.
Qed.

Lemma dot_safe_chars_inj s t : dot_safe_chars s = dot_safe_chars t -> s = t.
Proof.
  revert t. induction s as [|c s IH]; intros [|d t]; simpl.
  - done.
  - destruct (Ascii.eqb d "."); [done|]. by destruct (Ascii.eqb d "_").
  - destruct (Ascii.eqb c "."); [done|]. by destruct (Ascii.eqb c "_").
  - destruct (Ascii.eqb_spec c "."), (Ascii.eqb_spec d "."); subst; simpl.
    1: intros [= H]; f_equal; auto.
    1: destruct (Ascii.eqb_spec d "_"); simpl; intros [=]; congruence.
    1: destruct (Ascii.eqb_spec c "_"); simpl; intros [=]; congruence.
    destruct (Ascii.eqb_spec c "_"), (Ascii.eqb_spec d "_"); subst; simpl;
      intros [=]; subst; try congruence; f_equal; auto.
Qed.

Lemma dot_safe_name_inj a b : dot_safe_name a = dot_safe_name b -> a = b.
Proof.
  destruct a as [a], b as [b]. unfold dot_safe_name. simpl. intros [= H].
  f_equal. by apply dot_safe_chars_inj.
Qed.

(** ** Lemmas: a line and its location part *)

Lemma str_app_assoc (a b c : string) : (a +:+ b) +:+ c = a +:+ (b +:+ c).
Proof.
  induction a as [|x a IH]; [done|].
  change ((String x a +:+ b) +:+ c) with (String x ((a +:+ b) +:+ c)). by rewrite IH.
Qed.

Lemma str_app_nil_r (a : string) : a +:+ "" = a.
Proof.
  induction a as [|x a IH]; [done|].
  change (String x a +:+ "") with (String x (a +:+ "")). by rewrite IH.
Qed.

Definition sym_loc (bank : option Z) (addr : Z) : string :=
  match bank with
  | Some b => hex_u16 2 b +:+ ":" +:+ hex_u16 4 addr
  | None => hex_u16 4 addr
  end.

Definition entry_in_range (e : SymEntry) : Prop :=
  0 <= se_addr e < 65536 /\ match se_bank e with Some b => 0 <= b < 65536 | None => True end.

Lemma SymEntry_to_string_loc e :
  SymEntry_to_string e = sym_loc (se_bank e) (se_addr e) +:+ String " " (se_name e).
Proof.
  unfold SymEntry_to_string, sym_loc. destruct (se_bank e); [|done].
  by rewrite !str_app_assoc.
Qed.

(** A location is a non-empty hex run followed by something. *)
Lemma sym_loc_shape e : entry_in_range e -> exists h x,
  sym_loc (se_bank e) (se_addr e) = h +:+ x /\ h <> EmptyString /\ str_forall is_hex h = true.
Proof.
  intros [Ha Hb]. unfold sym_loc. destruct (se_bank e) as [b|].
  - exists (hex_u16 2 b), (":" +:+ hex_u16 4 (se_addr e)).
    split_and!; [done | apply hex_u16_nonempty | apply hex_u16_forall; lia].
  - exists (hex_u16 4 (se_addr e)), "". split_and!; [|apply hex_u16_nonempty | apply hex_u16_forall; lia].
    by rewrite str_app_nil_r.
Qed.

Lemma sym_loc_no_ws e : entry_in_range e ->
  str_forall (fun c => negb (is_whitespace c)) (sym_loc (se_bank e) (se_addr e)) = true.
Proof.
  intros [Ha Hb].
  assert (Hh : forall w n, 0 <= n -> str_forall (fun c => negb (is_whitespace c)) (hex_u16 w n) = true)
    by (intros w n Hn; eapply str_forall_impl; [apply hex_not_ws | by apply hex_u16_forall]).
  unfold sym_loc. destruct (se_bank e) as [b|]; [|apply Hh; lia].
  rewrite !str_forall_app, !Hh by lia. done.
Qed.

(** What a printed entry looks like to the parser. *)
Lemma sym_line_shape e : entry_in_range e -> se_name e <> EmptyString ->
  str_trim (se_name e) = se_name e ->
  str_trim (SymEntry_to_string e) = SymEntry_to_string e
  /\ str_is_empty (SymEntry_to_string e) || starts_with_char ";" (SymEntry_to_string e) = false.
Proof.
  intros He Hne Htrim. rewrite SymEntry_to_string_loc.
  destruct (sym_loc_shape e He) as (h & x & Hloc & Hh & Hhex). split.
  - change (String " " (se_name e)) with (" " +:+ se_name e). rewrite <- str_app_assoc, Hloc.
    apply str_trim_prefix; [by destruct h | | done | done].
    rewrite str_app_assoc. by apply hex_trim_start.
  - rewrite Hloc, str_app_assoc. by apply hex_first_not_semicolon.
Qed.

Lemma sym_entry_parse e : entry_in_range e -> se_name e <> EmptyString ->
  str_trim (se_name e) = se_name e -> SymEntry_from_str (SymEntry_to_string e) = Ok e.
Proof.
  intros He Hne Htrim. destruct (sym_line_shape e He Hne Htrim) as [Ht Hc].
  unfold SymEntry_from_str. rewrite Ht, Hc. cbn [guard_err obind].
  rewrite SymEntry_to_string_loc, str_split_once_here by (by apply sym_loc_no_ws || done).
  cbn [ok_or obind]. rewrite Htrim.
  destruct (str_is_empty (se_name e)) eqn:Hem; [by destruct (se_name e)|]. cbn [guard_err obind].
  destruct He as [Ha Hb], e as [bank addr name]; simpl in *.
  assert (Hcol : forall w n, 0 <= n -> str_forall (fun c => negb (Ascii.eqb ":" c)) (hex_u16 w n) = true)
    by (intros w n Hn; eapply str_forall_impl; [apply hex_not_colon | by apply hex_u16_forall]).
  unfold sym_loc. destruct bank as [b|].
  - change (":" +:+ hex_u16 4 addr) with (String ":" (hex_u16 4 addr)).
    rewrite str_split_once_here by (done || apply Hcol; lia). by rewrite !hex_u16_parse.
  - rewrite str_split_once_none by (apply Hcol; lia). by rewrite hex_u16_parse.
Qed.

(** ** Lemmas: lines of a text *)

Definition no_newline (s : string) : bool := str_forall (fun c => negb (Ascii.eqb c "010")) s.

Lemma str_lines_go_line l : forall cur rest, no_newline l = true ->
  str_lines_go cur (l +:+ String "010" rest)
  = strip_cr (str_rev cur +:+ l) :: str_lines_go "" rest.
Proof.
  induction l as [|c l IH]; intros cur rest; simpl.
  - intros _. by rewrite str_app_nil_r.
  - intros [Hc%negb_true_iff Hl]%andb_true_iff. rewrite Hc, IH by done. f_equal. f_equal.
    assert (Hr : str_rev (String c cur) = str_rev cur +:+ String c "")
      by exact (str_rev_app (String c "") cur).
    by rewrite Hr, str_app_assoc.
Qed.

(** A line that ends in a non-blank has no carriage return to strip. *)
Lemma strip_cr_trimmed s : str_trim s = s -> strip_cr s = s.
Proof.
  intros [_ H]%str_trim_fixed. unfold strip_cr. destruct (str_rev s) as [|c r]; [done|].
  destruct (Ascii.eqb_spec c "013") as [->|_]; [|done]. exfalso.
  apply (f_equal String.length) in H. simpl in H.
  change (is_whitespace "013") with true in H. cbn iota in H.
  pose proof (trim_start_length r). lia.
Qed.

(** Lines printed one after the other are read back one by one. *)
Lemma str_lines_concat ls :
  Forall (fun l => no_newline l = true /\ str_trim l = l) ls ->
  str_lines (String.concat "" (map (fun l => l +:+ String "010" "") ls)) = ls.
Proof.
  assert (Hcat : forall a l, String.concat "" (a :: l) = a +:+ String.concat "" l).
  { intros a [|b l]; [|done]. simpl. by rewrite str_app_nil_r. }
  induction 1 as [|l ls [Hn Ht] _ IH]; [done|].
  cbn [map]. rewrite Hcat, str_app_assoc. unfold str_lines in *.
  change (String "010" "" +:+ ?x) with (String "010" x).
  etransitivity; [apply (str_lines_go_line l "" _ Hn)|]. simpl. f_equal; [|exact IH].
  by apply strip_cr_trimmed.
Qed.

(** ** Properties *)

(** the printer and the parser of [.sym] lines are inverse: an entry with
    16-bit bank and address and a non-empty name without surrounding blanks is
    read back exactly, banked or not. *)
Theorem sym_entry_roundtrip (e : SymEntry)
  (He : 0 <= se_addr e < 65536 /\ match se_bank e with Some b => 0 <= b < 65536 | None => True end)
  (Hne : se_name e <> EmptyString) (Htrim : str_trim (se_name e) = se_name e) :
  SymEntry_from_str (SymEntry_to_string e) = Ok e.
Proof. by apply sym_entry_parse. Qed.

Lemma sym_entry_roundtrip_witness :
  SymEntry_to_string (MkSymEntry (Some 5) 0x4010 "kernel.matmul.7") = "05:4010 kernel.matmul.7"
  /\ SymEntry_from_str (SymEntry_to_string (MkSymEntry (Some 5) 0x4010 "kernel.matmul.7"))
     = Ok (MkSymEntry (Some 5) 0x4010 "kernel.matmul.7").
Proof.
  split; [reflexivity|]. apply sym_entry_roundtrip; simpl; [lia | done | reflexivity].
Defined.

(** the symbol table keeps names unique: [insert] succeeds exactly for an
    unbound name, changes the resolution of that name only, and otherwise
    reports both addresses; the iteration lists every binding exactly once,
    in name order. *)
Theorem symbol_table_insert_spec (t : SymbolTable) (n : SymbolName) (a : SymbolAddress) :
  match SymbolTable_insert t n a with
  | Ok t' =>
      SymbolTable_resolve t n = None
      /\ (forall m, SymbolTable_resolve t' m = if decide (m = n) then Some a else SymbolTable_resolve t m)
      /\ SymbolTable_iter t' ≡ₚ (n, a) :: SymbolTable_iter t
  | Err (DuplicateName n' existing new) =>
      n' = n /\ new = a /\ SymbolTable_resolve t n = Some existing
  | _ => False
  end
  /\ NoDup (map fst (SymbolTable_iter t))
  /\ (forall m b, In (m, b) (SymbolTable_iter t) <-> SymbolTable_resolve t m = Some b)
  /\ StronglySorted (fun x y => SymbolName_leb x.1 y.1 = true) (SymbolTable_iter t).
Proof.
  split_and!.
  - unfold SymbolTable_insert, SymbolTable_resolve.
    destruct (by_name t !! n) eqn:Hn; [done|]. simpl. split_and!; [done| |].
    + intros m. destruct (decide (m = n)) as [->|]; [apply lookup_insert_eq | by apply lookup_insert_ne].
    + unfold SymbolTable_iter. simpl. rewrite !sort_by_perm. by apply map_to_list_insert.
  - apply symbol_iter_NoDup.
  - intros m b. apply symbol_iter_spec.
  - apply sort_by_sorted; [intros x y; apply SymbolName_leb_total | intros x y z; apply SymbolName_leb_trans].
Qed.
