(* ===== verification/Lowering.v ===== *)
(** * Structured-op lowering ([gbf-asm/src/lowering.rs])

    Every [PreLayoutOp] of a section is replaced, at its authoring site, by the
    fragment a lowerer returns for it.  The lowerer is a trait object in the
    source: here an interface, the class [PreLayoutOpLowering], with the stub
    implementation of the source as an instance.  [lower_one] and
    [lower_one_with_disposition] are the two drivers. *)

From S2P Require Import Prelude Hw Isa IsaCodec Names SectionIr Effect SectionOps SymTable.

(** [LoweringError::SymbolName] carries the printed [SymbolNameError]; the model
    carries the error itself. *)
Inductive LoweringError :=
| Low_UnsupportedStructuredOp (op : string)
| Low_SymbolName (error : SymbolNameError)
| Low_SectionPrivilegeViolation (error : SectionPrivilegeError)
| Low_Runtime (message : string).

Record LoweringContext := MkLoweringContext {
  ctx_source_section_id : SectionId;
  ctx_source_section_role : SectionRole;
  ctx_source_section_privilege : SectionPrivilege;
  ctx_provenance : InstrProvenance;
  ctx_symbols : SymbolTable;
}.

Record FragmentItem (T : Type) := MkFragmentItem {
  frag_data : T;
  frag_sub : Z;
  frag_prov : InstrProvenance;
}.
Arguments MkFragmentItem {T} _ _ _.
Arguments frag_data {T} _.
Arguments frag_sub {T} _.
Arguments frag_prov {T} _.
Definition FragmentItem_new_with_sub_index {T} (data : T) (sub_index : Z)
    (provenance : InstrProvenance) : FragmentItem T := MkFragmentItem data sub_index provenance.
Definition FragmentItem_new {T} (data : T) (provenance : InstrProvenance) : FragmentItem T :=
  FragmentItem_new_with_sub_index data 0 provenance.

Record LoweredFragment := MkLoweredFragment {
  frag_labels : list (FragmentItem Label);
  frag_instrs : list (FragmentItem Instr);
  frag_data_blocks : list (FragmentItem DataBlock);
  frag_alignments : list (FragmentItem Align);
  frag_legalization_ops : list (FragmentItem LegalizationOp);
  frag_branches : list (FragmentItem SymbolicBranch);
}.
Definition LoweredFragment_default : LoweredFragment := MkLoweredFragment [] [] [] [] [] [].

Inductive LoweringDisposition :=
| Disp_Lowered (f : LoweredFragment) | Disp_NotOwned | Disp_Error (e : LoweringError).

(** The two traits. *)
Class PreLayoutOpLowering :=
  lower : PreLayoutOp -> LoweringContext -> outcome LoweringError LoweredFragment.
Definition DispositionPreLayoutOpLowering : Type :=
  PreLayoutOp -> LoweringContext -> LoweringDisposition.

(** ** The stub lowerer *)

Inductive TraceLoweringPolicy := Trace_EmitCalls | Trace_Elide.
Inductive AssertBankLoweringPolicy := Assert_EmitRuntimeCheck | Assert_Elide.
Record StubLoweringConfig := MkStubLoweringConfig {
  trace_policy : TraceLoweringPolicy;
  assert_bank_policy : AssertBankLoweringPolicy;
}.
Definition StubLoweringConfig_default : StubLoweringConfig :=
  MkStubLoweringConfig Trace_Elide Assert_Elide.

Definition branch_fragment {E} (target : SymbolName) (provenance : InstrProvenance)
    : outcome E LoweredFragment :=
  Ok (MkLoweredFragment [] [] [] [] []
        [FragmentItem_new (SymbolicBranch_call target None) provenance]).
Definition runtime_symbol (symbol : string) : outcome LoweringError SymbolName :=
  map_err Low_SymbolName (SymbolName_runtime "stub_runtime" symbol).
Definition bank_class_name (class : MbcBankClass) : string :=
  match class with Mbc_Rom => "rom" | Mbc_Sram => "sram" end.
Definition yield_symbol (kind : YieldKind) : string :=
  match kind with
  | Yield_PollInterrupts => "yield_poll_interrupts"
  | Yield_FrameBoundary => "yield_frame_boundary"
  | Yield_Cooperative => "yield_cooperative"
  end.
Definition trace_symbol (id : TraceProbeId) (level : ProbeLevel) : string :=
  let level :=
    match level with Probe_Trace => "trace" | Probe_Debug => "debug" | Probe_Info => "info" end in
  "trace_" +:+ level +:+ "_" +:+ dec (TraceProbeId_get id).

Definition stub_lower (config : StubLoweringConfig) (op : PreLayoutOp) (ctx : LoweringContext)
    : outcome LoweringError LoweredFragment :=
  match op with
  | Op_BankLease spec =>
      let* s := runtime_symbol ("lease_" +:+ bank_class_name (spec_class spec) +:+ "_"
                                +:+ dec (spec_bank spec)) in
      branch_fragment s (ctx_provenance ctx)
  | Op_BankRelease id _ =>
      let* s := runtime_symbol ("release_" +:+ dec (LeaseId_get id)) in
      branch_fragment s (ctx_provenance ctx)
  | Op_Yield kind =>
      let* s := runtime_symbol (yield_symbol kind) in
      branch_fragment s (ctx_provenance ctx)
  | Op_TraceProbe id level =>
      match trace_policy config with
      | Trace_EmitCalls =>
          let* s := runtime_symbol (trace_symbol id level) in
          branch_fragment s (ctx_provenance ctx)
      | Trace_Elide => Ok LoweredFragment_default
      end
  | Op_AssertBank expected expected_n =>
      match assert_bank_policy config with
      | Assert_EmitRuntimeCheck =>
          let* s := runtime_symbol ("assert_" +:+ bank_class_name expected +:+ "_"
                                    +:+ dec expected_n) in
          branch_fragment s (ctx_provenance ctx)
      | Assert_Elide => Ok LoweredFragment_default
      end
  end.
#[export] Instance StubPreLayoutOpLowering (config : StubLoweringConfig) : PreLayoutOpLowering :=
  stub_lower config.

(** ** Merging *)

(** The six local vectors of the drivers. *)
Record LowerArrays := MkLowerArrays {
  la_labels : list (OrderedItem Label);
  la_instrs : list (OrderedItem Instr);
  la_data_blocks : list (OrderedItem DataBlock);
  la_alignments : list (OrderedItem Align);
  la_legalization_ops : list (OrderedItem LegalizationOp);
  la_branches : list (OrderedItem SymbolicBranch);
}.

Definition place_item {T} (seq_index : Z) (i : FragmentItem T) : OrderedItem T :=
  OrderedItem_new_with_sub_index (frag_data i) seq_index (frag_sub i) (frag_prov i).

Definition merge_fragment (f : LoweredFragment) (seq_index : Z) (a : LowerArrays) : LowerArrays :=
  MkLowerArrays
    (la_labels a ++ map (place_item seq_index) (frag_labels f))
    (la_instrs a ++ map (place_item seq_index) (frag_instrs f))
    (la_data_blocks a ++ map (place_item seq_index) (frag_data_blocks f))
    (la_alignments a ++ map (place_item seq_index) (frag_alignments f))
    (la_legalization_ops a ++ map (place_item seq_index) (frag_legalization_ops f))
    (la_branches a ++ map (place_item seq_index) (frag_branches f)).

Definition op_kind (op : PreLayoutOp) : string :=
  match op with
  | Op_BankLease _ => "BankLease"
  | Op_BankRelease _ _ => "BankRelease"
  | Op_Yield _ => "Yield"
  | Op_TraceProbe _ _ => "TraceProbe"
  | Op_AssertBank _ _ => "AssertBank"
  end.

Definition arrays_seqs (a : LowerArrays) : list Z :=
  map item_seq (la_labels a) ++ map item_seq (la_instrs a) ++ map item_seq (la_data_blocks a)
  ++ map item_seq (la_alignments a) ++ map item_seq (la_legalization_ops a)
  ++ map item_seq (la_branches a).
(** [Iterator::max], then [map_or(0, |max| max.saturating_add(1))]. *)
Definition list_max (l : list Z) : option Z :=
  match l with [] => None | x :: l' => Some (foldl Z.max x l') end.
Definition next_seq_index_after (a : LowerArrays) : Z :=
  match list_max (arrays_seqs a) with None => 0 | Some m => saturating_add U32 m 1 end.

Definition lowering_privilege_error (seq_index : Z) (effect : MachineEffect)
    (violation : PrivilegeViolation) : LoweringError :=
  Low_SectionPrivilegeViolation (MkSectionPrivilegeError seq_index effect violation).
Definition check_fragment_effect (p : SectionPrivilege) (seq_index : Z) (effect : MachineEffect)
    : outcome LoweringError unit :=
  map_err (lowering_privilege_error seq_index effect) (check_effect p effect).
Definition validate_fragment (f : LoweredFragment) (p : SectionPrivilege) (seq_index : Z)
    : outcome LoweringError unit :=
  let* _ := ofold (fun _ i => check_fragment_effect p seq_index (classify_effect (frag_data i)))
              tt (frag_instrs f) in
  let* _ := ofold (fun _ i =>
              check_fragment_effect p seq_index (classify_legalization_op (frag_data i)))
              tt (frag_legalization_ops f) in
  ofold (fun _ i => check_fragment_effect p seq_index (SymbolicBranch_machine_effect (frag_data i)))
    tt (frag_branches f).

(** ** The drivers *)

Definition section_arrays (s : AsmSection) : LowerArrays :=
  MkLowerArrays (sec_labels s) (sec_instrs s) (sec_data_blocks s) (sec_alignments s)
    (sec_legalization_ops s) (sec_branches s).

Definition lowering_context (s : AsmSection) (symbols : SymbolTable) (op : OrderedItem PreLayoutOp)
    : LoweringContext :=
  MkLoweringContext (sec_id s) (sec_role s) (sec_privilege s) (item_prov op) symbols.

(** The struct literal at the end of both drivers. *)
Definition lowered_section (s : AsmSection) (a : LowerArrays) : LoweredSection :=
  MkLoweredSection (sec_id s) (sec_role s) (sec_name s) (sec_interrupt_vector s) (sec_privilege s)
    (sec_align s) (sec_size_hint_bytes s) (next_seq_index_after a) (la_labels a) (la_instrs a)
    (la_data_blocks a) (la_alignments a) (la_legalization_ops a) (la_branches a).

Definition lower_op `{PreLayoutOpLowering} (s : AsmSection) (symbols : SymbolTable)
    (a : LowerArrays) (op : OrderedItem PreLayoutOp) : outcome LoweringError LowerArrays :=
  let* fragment := lower (item_data op) (lowering_context s symbols op) in
  let* _ := validate_fragment fragment (sec_privilege s) (item_seq op) in
  Ok (merge_fragment fragment (item_seq op) a).

Definition lower_one `{PreLayoutOpLowering} (s : AsmSection) (symbols : SymbolTable)
    : outcome LoweringError LoweredSection :=
  let* a := ofold (lower_op s symbols) (section_arrays s) (sec_pre_layout_ops s) in
  Ok (lowered_section s a).

Definition lower_pre_layout_ops `{PreLayoutOpLowering} (sections : list AsmSection)
    (symbols : SymbolTable) : outcome LoweringError (list LoweredSection) :=
  omapM (fun s => lower_one s symbols) sections.

(** The inner [for lowerer in lowerers] loop: the first that owns the op. *)
Fixpoint first_disposition (lowerers : list DispositionPreLayoutOpLowering) (op : PreLayoutOp)
    (ctx : LoweringContext) : outcome LoweringError (option LoweredFragment) :=
  match lowerers with
  | [] => Ok None
  | lowerer :: rest =>
      match lowerer op ctx with
      | Disp_Lowered f => Ok (Some f)
      | Disp_NotOwned => first_disposition rest op ctx
      | Disp_Error err => Err err
      end
  end.

(** The driver over several lowerers is [lower_one] of the lowerer that asks
    them in order. *)
Definition disposition_lower (lowerers : list DispositionPreLayoutOpLowering)
    (op : PreLayoutOp) (ctx : LoweringContext) : outcome LoweringError LoweredFragment :=
  let* lowered := first_disposition lowerers op ctx in
  ok_or lowered (Low_UnsupportedStructuredOp (op_kind op)).
Definition lower_one_with_disposition (s : AsmSection)
    (lowerers : list DispositionPreLayoutOpLowering) (symbols : SymbolTable)
    : outcome LoweringError LoweredSection :=
  @lower_one (disposition_lower lowerers) s symbols.
Definition lower_pre_layout_ops_with_disposition (sections : list AsmSection)
    (lowerers : list DispositionPreLayoutOpLowering) (symbols : SymbolTable)
    : outcome LoweringError (list LoweredSection) :=
  omapM (fun s => lower_one_with_disposition s lowerers symbols) sections.

(** ** Lemmas: the items of the arrays *)

Definition arrays_views (a : LowerArrays) : list SectionItemView :=
  map View_Label (la_labels a) ++ map View_Instr (la_instrs a)
  ++ map View_DataBlock (la_data_blocks a) ++ map View_Align (la_alignments a)
  ++ map View_LegalizationOp (la_legalization_ops a) ++ map View_Branch (la_branches a).

(** The items of a fragment, placed at an authoring site. *)
Definition fragment_views (seq : Z) (f : LoweredFragment) : list SectionItemView :=
  arrays_views (merge_fragment f seq (MkLowerArrays [] [] [] [] [] [])).

(** The items of a lowered section. *)
Definition low_views (low : LoweredSection) : list SectionItemView :=
  map View_Label (low_labels low) ++ map View_Instr (low_instrs low)
  ++ map View_DataBlock (low_data_blocks low) ++ map View_Align (low_alignments low)
  ++ map View_LegalizationOp (low_legalization_ops low) ++ map View_Branch (low_branches low).

Lemma merge_views f seq a :
  arrays_views (merge_fragment f seq a) ≡ₚ arrays_views a ++ fragment_views seq f.
Proof. unfold fragment_views, arrays_views. simpl. rewrite !map_app. solve_Permutation. Qed.

Lemma fragment_views_seq seq f v : v ∈ fragment_views seq f ->
  view_seq_index v = seq /\ order_seq (view_order v) = seq.
Proof.
  unfold fragment_views, arrays_views. simpl.
  rewrite !elem_of_app. rewrite !list_elem_of_fmap. setoid_rewrite list_elem_of_fmap.
  intros H. destruct_or? H; destruct H as (o & -> & x & -> & _); done.
Qed.

Definition is_op_view (v : SectionItemView) : bool :=
  match v with View_PreLayoutOp _ => true | _ => false end.

(** What a fragment does to the items of one view. *)
Definition expand_view `{PreLayoutOpLowering} (s : AsmSection) (symbols : SymbolTable)
    (v : SectionItemView) : list SectionItemView :=
  match v with
  | View_PreLayoutOp op =>
      match lower (item_data op) (lowering_context s symbols op) with
      | Ok f => sort_by view_leb (fragment_views (item_seq op) f)
      | _ => []
      end
  | _ => [v]
  end.

Section lowering.
Context `{PreLayoutOpLowering} (s : AsmSection) (symbols : SymbolTable).

Lemma lower_ops_views ops : forall a a', ofold (lower_op s symbols) a ops = Ok a' ->
  arrays_views a' ≡ₚ arrays_views a
    ++ flat_map (expand_view s symbols) (map View_PreLayoutOp ops).
Proof.
  induction ops as [|op ops IH]; intros a a' Hf; simpl in Hf |- *.
  - injection Hf as <-. by rewrite app_nil_r.
  - unfold lower_op in Hf at 1. inv_ok. rewrite (IH _ _ Hf), merge_views.
    rewrite Hx0, sort_by_perm. by rewrite <- app_assoc.
Qed.

Lemma lower_ops_Ok ops : forall a a' op, ofold (lower_op s symbols) a ops = Ok a' -> op ∈ ops ->
  exists f, lower (item_data op) (lowering_context s symbols op) = Ok f
    /\ validate_fragment f (sec_privilege s) (item_seq op) = Ok tt.
Proof.
  induction ops as [|op' ops IH]; intros a a' op Hf Hin; [by apply elem_of_nil in Hin|].
  simpl in Hf. unfold lower_op in Hf at 1. inv_ok. apply elem_of_cons in Hin as [->|Hin]; [|eauto].
  repeat match goal with u : unit |- _ => destruct u end. eauto.
Qed.

Lemma flat_map_expand_plain (vs : list SectionItemView) :
  Forall (fun v => is_op_view v = false) vs -> flat_map (expand_view s symbols) vs = vs.
Proof. induction 1 as [|v vs Hv _ IH]; [done|]. simpl. rewrite IH. by destruct v. Qed.

Lemma section_views_split :
  section_views s ≡ₚ arrays_views (section_arrays s) ++ map View_PreLayoutOp (sec_pre_layout_ops s).
Proof. unfold section_views, arrays_views. simpl. solve_Permutation. Qed.

Lemma arrays_views_plain a : Forall (fun v => is_op_view v = false) (arrays_views a).
Proof.
  apply Forall_forall. intros v. unfold arrays_views.
  rewrite !elem_of_app, !list_elem_of_fmap. intros Hv.
  destruct_or? Hv; by destruct Hv as (o & -> & _).
Qed.

(** The lowered items are the section's with every op expanded. *)
Lemma lower_one_perm low : lower_one s symbols = Ok low ->
  low_views low ≡ₚ flat_map (expand_view s symbols) (iter_items s).
Proof.
  unfold lower_one. intros Hl. inv_ok.
  assert (Hp : flat_map (expand_view s symbols) (iter_items s)
               ≡ₚ flat_map (expand_view s symbols) (section_views s))
    by (apply Permutation_flat_map, iter_items_perm).
  rewrite Hp, (Permutation_flat_map _ section_views_split), flat_map_app.
  rewrite flat_map_expand_plain by apply arrays_views_plain.
  rewrite <- (lower_ops_views _ _ _ Hx). done.
Qed.
End lowering.

Lemma expand_view_seq `{PreLayoutOpLowering} s symbols v x :
  x ∈ expand_view s symbols v -> order_seq (view_order x) = view_seq_index v.
Proof.
  destruct v; simpl; try (intros ->%list_elem_of_singleton; done).
  destruct (lower _ _); try (by intros Hx%elem_of_nil).
  rewrite elem_of_sort_by. intros Hx. by apply fragment_views_seq in Hx as [_ ->].
Qed.

Lemma expand_view_sorted `{PreLayoutOpLowering} s symbols v :
  StronglySorted (fun a b => view_leb a b = true) (expand_view s symbols v).
Proof.
  destruct v; simpl; try (repeat constructor).
  destruct (lower _ _); try constructor.
  apply sort_by_sorted; [intros ??; apply ItemOrder_leb_total | intros ???; apply ItemOrder_leb_trans].
Qed.

(** Concatenating sorted runs whose sequence indices increase. *)
Lemma sorted_runs (vs : list SectionItemView) (g : SectionItemView -> list SectionItemView) :
  (forall v x, x ∈ g v -> order_seq (view_order x) = view_seq_index v) ->
  (forall v, StronglySorted (fun a b => view_leb a b = true) (g v)) ->
  StronglySorted (fun a b => view_seq_index a < view_seq_index b) vs ->
  StronglySorted (fun a b => view_leb a b = true) (flat_map g vs).
Proof.
  intros Hseq Hsort. induction 1 as [|v vs _ IH Hall]; simpl; [constructor|].
  apply StronglySorted_app. split_and!; [|done|done].
  intros x y Hx Hy. apply list_elem_of_In, in_flat_map in Hy as (w & Hw & Hy).
  rewrite Forall_forall in Hall. specialize (Hall w ltac:(by apply list_elem_of_In)).
  apply list_elem_of_In in Hy. pose proof (Hseq v x Hx). pose proof (Hseq w y Hy).
  unfold view_leb, ItemOrder_leb. apply orb_true_iff. left. apply Z.ltb_lt. lia.
Qed.

Lemma emitted_views_seq_sorted {A} (l : list A) : forall (f : nat -> A -> SectionItemView),
  (forall i a, view_seq_index (f i a) = Z.of_nat i) -> forall k,
  StronglySorted (fun a b => view_seq_index a < view_seq_index b) (imap (fun i => f (k + i)%nat) l).
Proof.
  intros f Hf. induction l as [|x l IH]; intros k; simpl; constructor.
  - erewrite imap_ext; [apply (IH (S k))|]. intros i y _. simpl. f_equal. lia.
  - apply Forall_lookup. intros i y. rewrite list_lookup_imap. destruct (l !! i); simpl; [|done].
    intros [= <-]. rewrite !Hf. lia.
Qed.

Lemma well_sequenced_sorted s : well_sequenced s ->
  StronglySorted (fun a b => view_seq_index a < view_seq_index b) (iter_items s).
Proof.
  intros [l He]. rewrite (emits_iter_items _ _ He).
  apply (emitted_views_seq_sorted l emitted_view) with (k := 0%nat).
  intros i [[] p]; done.
Qed.

Lemma strictly_sorted_seq_inj vs x y :
  StronglySorted (fun a b => view_seq_index a < view_seq_index b) vs ->
  x ∈ vs -> y ∈ vs -> view_seq_index x = view_seq_index y -> x = y.
Proof.
  induction 1 as [|v vs _ IH Hall]; intros Hx Hy Heq; [by apply elem_of_nil in Hx|].
  rewrite Forall_forall in Hall. apply elem_of_cons in Hx as [->|Hx], Hy as [->|Hy]; auto.
  - specialize (Hall y Hy). lia.
  - specialize (Hall x Hx). lia.
Qed.

Lemma expand_view_order_inj `{PreLayoutOpLowering} s symbols v x y :
  (forall op f, v = View_PreLayoutOp op ->
     lower (item_data op) (lowering_context s symbols op) = Ok f ->
     NoDup (map view_order (fragment_views (item_seq op) f))) ->
  x ∈ expand_view s symbols v -> y ∈ expand_view s symbols v ->
  view_order x = view_order y -> x = y.
Proof.
  intros Hd. destruct v as [| | | |op| |]; simpl;
    try (by intros ->%list_elem_of_singleton ->%list_elem_of_singleton).
  destruct (lower _ _) as [f|e| |] eqn:Hf; try (by intros Hx%elem_of_nil).
  rewrite !elem_of_sort_by. specialize (Hd op f eq_refl Hf). revert Hd.
  generalize (fragment_views (item_seq op) f) as l. intros l Hd Hx Hy Heq.
  apply list_elem_of_lookup in Hx as [i Hi], Hy as [j Hj].
  assert (i = j) as ->; [|congruence].
  eapply (NoDup_lookup (map view_order l)); [exact Hd | |].
  - by rewrite list_lookup_fmap, Hi.
  - rewrite list_lookup_fmap, Hj. simpl. by rewrite Heq.
Qed.

(** The effects of a validated fragment. *)

Lemma check_fragment_effect_Ok p seq eff u :
  check_fragment_effect p seq eff = Ok u -> permits_effect p eff = true.
Proof. unfold check_fragment_effect, permits_effect. rewrite map_err_Ok. by intros ->. Qed.

Lemma validate_fragment_permits f p seq u v eff :
  validate_fragment f p seq = Ok u -> v ∈ fragment_views seq f ->
  view_machine_effect v = Some eff -> permits_effect p eff = true.
Proof.
  unfold validate_fragment, fragment_views, arrays_views. simpl. intros Hv Hin He. inv_ok.
  pose proof (ofold_unit_Ok _ _ _ _ Hx) as Hi. pose proof (ofold_unit_Ok _ _ _ _ Hx0) as Hl.
  pose proof (ofold_unit_Ok _ _ _ _ Hv) as Hb.
  rewrite !elem_of_app, !list_elem_of_fmap in Hin. setoid_rewrite list_elem_of_fmap in Hin.
  destruct_or? Hin; destruct Hin as (o & -> & i & -> & Hi'); simpl in He; try discriminate;
    injection He as <-; eapply check_fragment_effect_Ok; eauto.
Qed.

Lemma list_max_ge l m x : list_max l = Some m -> x ∈ l -> x <= m.
Proof.
  destruct l as [|y l]; [done|]. simpl. intros [= <-]. revert y x.
  induction l as [|z l IH]; intros y x Hx; simpl.
  - apply list_elem_of_singleton in Hx. lia.
  - apply elem_of_cons in Hx as [->|[->|Hx]%elem_of_cons].
    + specialize (IH (Z.max y z) (Z.max y z) ltac:(by left)). lia.
    + specialize (IH (Z.max y z) (Z.max y z) ltac:(by left)). lia.
    + apply IH. by right.
Qed.

Lemma low_views_seq low_arrays s v :
  v ∈ low_views (lowered_section s low_arrays) -> view_seq_index v ∈ arrays_seqs low_arrays.
Proof.
  unfold low_views, arrays_seqs. simpl. rewrite !elem_of_app, !list_elem_of_fmap.
  intros Hv. destruct_or? Hv; destruct Hv as (o & -> & Ho); simpl; eauto 10.
Qed.

(** The runtime helper accepts every module and symbol of valid characters. *)
Lemma SymbolName_runtime_Ok module s : valid_segment module -> valid_segment s ->
  SymbolName_runtime module s = Ok (MkSymbolName ("runtime." +:+ module +:+ "." +:+ s)).
Proof.
  intros Hm Hs. unfold SymbolName_runtime.
  rewrite (proj2 (SymbolSegment_new_ok module (MkSymbolSegment module))) by done.
  rewrite (proj2 (SymbolSegment_new_ok s (MkSymbolSegment s))) by done.
  cbn [obind SymbolSegment_as_str]. rewrite (proj2 (SymbolName_new_ok _ (MkSymbolName ("runtime." +:+ module +:+ "." +:+ s)))); [done|].
  split; [done|]. change ("runtime." +:+ module +:+ "." +:+ s) with ("runtime" +:+ "." +:+ (module +:+ "." +:+ s)).
  rewrite str_split_cons by done. rewrite str_split_cons by by apply valid_segment_not_dot.
  rewrite str_split_nodot by by apply valid_segment_not_dot. repeat (apply Forall_cons; split); done.
Qed.

Lemma runtime_symbol_Ok s : s <> EmptyString -> str_forall symbol_char s = true ->
  runtime_symbol s = Ok (MkSymbolName ("runtime.stub_runtime." +:+ s)).
Proof. intros Hne Hs. unfold runtime_symbol. by rewrite SymbolName_runtime_Ok. Qed.

Lemma dec_symbol_chars n : str_forall symbol_char (dec n) = true.
Proof.
  eapply str_forall_impl; [|apply dec_digits]. intros c Hc. unfold symbol_char.
  rewrite Hc. by rewrite orb_true_r.
Qed.

(** ** Properties *)


(** lowering cannot smuggle an effect past the section's policy: whatever
    the lowerer returns, a section that is lowered successfully keeps its
    identity, role and policy, and if its items were permitted then so is every
    item of the lowered section. *)
Theorem lowering_preserves_policy `{PreLayoutOpLowering} (s : AsmSection) (symbols : SymbolTable)
  (low : LoweredSection) (Hl : lower_one s symbols = Ok low)
  (Hp : forall v eff, In v (iter_items s) -> view_machine_effect v = Some eff ->
          permits_effect (sec_privilege s) eff = true) :
  low_privilege low = sec_privilege s /\ low_role low = sec_role s /\ low_id low = sec_id s
  /\ forall v eff, In v (low_views low) -> view_machine_effect v = Some eff ->
       permits_effect (low_privilege low) eff = true.
Proof.
  pose proof (lower_one_perm s symbols low Hl) as Hperm.
  unfold lower_one in Hl. inv_ok. split_and!; try done.
  intros v eff Hv He. apply list_elem_of_In in Hv. rewrite Hperm in Hv.
  apply list_elem_of_In, in_flat_map in Hv as (w & Hw & Hv). apply list_elem_of_In in Hv.
  assert (Hplain : expand_view s symbols w = [w] -> permits_effect (sec_privilege s) eff = true).
  { intros Hexp. rewrite Hexp in Hv. apply list_elem_of_singleton in Hv as ->. eauto. }
  destruct w as [| | | |op| |]; try (by apply Hplain).
  apply list_elem_of_In in Hw. rewrite iter_items_perm in Hw. unfold section_views in Hw.
  rewrite !elem_of_app, !list_elem_of_fmap in Hw.
  destruct_or? Hw; destruct Hw as (o & [=] & Ho). subst o.
  destruct (lower_ops_Ok s symbols _ _ _ op Hx Ho) as (f & Hf & Hval).
  simpl in Hv. rewrite Hf, elem_of_sort_by in Hv. by eapply validate_fragment_permits.
Qed.

(** the sequence counter of a lowered section is fresh: every item's
    sequence index is below it, unless the counter saturated at 2^32 - 1. *)
Theorem lowered_next_seq_fresh `{PreLayoutOpLowering} (s : AsmSection) (symbols : SymbolTable)
  (low : LoweredSection) (Hl : lower_one s symbols = Ok low) :
  forall v, In v (low_views low) ->
    view_seq_index v < low_next_seq_index low \/ low_next_seq_index low = 4294967295.
Proof.
  unfold lower_one in Hl. inv_ok. intros v Hv%list_elem_of_In%low_views_seq. simpl.
  unfold next_seq_index_after. destruct (list_max (arrays_seqs x)) as [m|] eqn:Hm.
  - pose proof (list_max_ge _ _ _ Hm Hv). unfold saturating_add. lia.
  - destruct (arrays_seqs x); [by apply elem_of_nil in Hv | done].
Qed.

(** the stub lowerer is total: for every op and policy the symbol names it
    generates are canonical, so it never fails, and its fragment is empty or a
    single unconditional near call into [runtime.stub_runtime]. *)
Theorem stub_lower_total (config : StubLoweringConfig) (op : PreLayoutOp) (ctx : LoweringContext) :
  stub_lower config op ctx = Ok LoweredFragment_default
  \/ exists sym, stub_lower config op ctx
       = Ok (MkLoweredFragment [] [] [] [] []
              [MkFragmentItem
                 (SymbolicBranch_call (MkSymbolName ("runtime.stub_runtime." +:+ sym)) None)
                 0 (ctx_provenance ctx)]).
Proof.
  assert (Hs : forall a c, a <> EmptyString -> str_forall symbol_char a = true ->
     str_forall symbol_char c = true ->
     runtime_symbol (a +:+ c) = Ok (MkSymbolName ("runtime.stub_runtime." +:+ (a +:+ c)))).
  { intros a c Hne Ha Hc. apply runtime_symbol_Ok; [by destruct a|].
    by rewrite str_forall_app, Ha, Hc. }
  destruct op as [spec|id rt|kind|id level|class n]; simpl.
  - right. rewrite Hs; [eauto | done | done |].
    rewrite !str_forall_app, dec_symbol_chars. by destruct (spec_class spec).
  - right. rewrite Hs; [eauto | done | done | apply dec_symbol_chars].
  - right. exists (yield_symbol kind). by destruct kind.
  - destruct (trace_policy config); [right | by left]. unfold trace_symbol.
    rewrite Hs; [eauto | done | done |].
    rewrite !str_forall_app, dec_symbol_chars. by destruct level.
  - destruct (assert_bank_policy config); [right | by left].
    rewrite Hs; [eauto | done | done |].
    rewrite !str_forall_app, dec_symbol_chars. by destruct class.
Qed.

(** Witnesses: a section with one yield between two instructions. *)
Definition demo_prov : InstrProvenance := InstrProvenance_new Stage_Backend.
Definition demo_emitted : list (emitted * InstrProvenance) :=
  [(Emit_instr I_Nop, demo_prov); (Emit_pre_layout_op (Op_Yield Yield_Cooperative), demo_prov);
   (Emit_instr (I_Ret None), demo_prov)].
Definition demo_section : AsmSection :=
  match ofold (E := unit) push
          (AsmSection_new (SectionId_new 3) Role_Bank0Nucleus (MkSymbolName "m") 1) demo_emitted with
  | Ok s => s
  | _ => AsmSection_new (SectionId_new 3) Role_Bank0Nucleus (MkSymbolName "m") 1
  end.
Definition demo_lowered : outcome LoweringError LoweredSection :=
  @lower_one (stub_lower StubLoweringConfig_default) demo_section SymbolTable_new.

Lemma demo_section_emits : emits demo_section demo_emitted.
Proof.
  destruct (@pushes_total unit (SectionId_new 3) Role_Bank0Nucleus (MkSymbolName "m") 1
              demo_emitted eq_refl) as (s & Hs & He).
  unfold demo_section. by rewrite Hs.
Qed.


Lemma lowering_preserves_policy_witness :
  match demo_lowered with
  | Ok low => forall v eff, In v (low_views low) -> view_machine_effect v = Some eff ->
                permits_effect (low_privilege low) eff = true
  | _ => False
  end.
Proof.
  destruct demo_lowered as [low|e| |] eqn:E; try (vm_compute in E; discriminate E).
  apply (@lowering_preserves_policy (stub_lower StubLoweringConfig_default) demo_section SymbolTable_new low E).
  intros v eff Hv. vm_compute in Hv.
  repeat (destruct Hv as [<-|Hv]; [intros [= <-]; reflexivity|]). destruct Hv.
Defined.

Lemma lowered_next_seq_fresh_witness :
  match demo_lowered with
  | Ok low => low_next_seq_index low = 3 /\ forall v, In v (low_views low) ->
      view_seq_index v < low_next_seq_index low \/ low_next_seq_index low = 4294967295
  | _ => False
  end.
Proof.
  destruct demo_lowered as [low|e| |] eqn:E; try (vm_compute in E; discriminate E).
  split; [vm_compute in E; injection E as <-; reflexivity|].
  exact (@lowered_next_seq_fresh (stub_lower StubLoweringConfig_default) demo_section SymbolTable_new low E).
Defined.
