(* ===== verification/Layout.v ===== *)
(** * Placement of sections into banks ([gbf-asm/src/layout.rs])

    [layout_into_banks] assigns every lowered section a bank and a CPU address:
    interrupt vectors at their slots, pinned sections where they are pinned,
    the others at the first free aligned position of their bank, never over a
    reserved range.  The state of its main loop is the record [LayoutState]. *)

From S2P Require Import Prelude Hw Isa IsaCodec Names SectionIr Effect SectionOps Lowering.

Definition ROM_BANK_SIZE : Z := 16 * 1024.
Definition ROM0_START : Z := 0x0000.
Definition ROM0_END_EXCLUSIVE : Z := 0x4000.
Definition ROM0_THUNK_POOL_START : Z := 0x3F00.
Definition ROMX_START : Z := 0x4000.
Definition ROMX_END_EXCLUSIVE : Z := 0x8000.

(** ** Banks *)

Inductive BankIndex :=
| Bank_Rom (bank : Z) | Bank_Sram (bank : Z) | Bank_Wram | Bank_Hram | Bank_Vram | Bank_Oam.
#[export] Instance BankIndex_eq_dec : EqDecision BankIndex. Proof. solve_decision. Defined.
#[export] Instance BankIndex_countable : Countable BankIndex.
Proof.
  refine (inj_countable'
    (fun b => match b with
       | Bank_Rom b => inl b | Bank_Sram b => inr (inl b)
       | Bank_Wram => inr (inr 0) | Bank_Hram => inr (inr 1)
       | Bank_Vram => inr (inr 2) | Bank_Oam => inr (inr 3) end)
    (fun x => match x with
       | inl b => Bank_Rom b | inr (inl b) => Bank_Sram b
       | inr (inr 0) => Bank_Wram | inr (inr 1) => Bank_Hram
       | inr (inr 2) => Bank_Vram | inr (inr _) => Bank_Oam end) _).
  by intros [].
Defined.

(** [Display] and [FromStr]. *)
Definition BankIndex_to_string (b : BankIndex) : string :=
  match b with
  | Bank_Rom bank => "rom" +:+ dec bank
  | Bank_Sram bank => "sram" +:+ dec bank
  | Bank_Wram => "wram"
  | Bank_Hram => "hram"
  | Bank_Vram => "vram"
  | Bank_Oam => "oam"
  end.

Inductive BankIndexParseError := MkBankIndexParseError (value : string).
Definition BankIndex_from_str (value : string) : outcome BankIndexParseError BankIndex :=
  match strip_prefix "rom" value with
  | Some rest =>
      let* bank := ok_or (parse_unsigned U16 rest) (MkBankIndexParseError value) in
      Ok (Bank_Rom bank)
  | None =>
      match strip_prefix "sram" value with
      | Some rest =>
          let* bank := ok_or (parse_unsigned U8 rest) (MkBankIndexParseError value) in
          Ok (Bank_Sram bank)
      | None =>
          if String.eqb value "wram" then Ok Bank_Wram
          else if String.eqb value "hram" then Ok Bank_Hram
          else if String.eqb value "vram" then Ok Bank_Vram
          else if String.eqb value "oam" then Ok Bank_Oam
          else Err (MkBankIndexParseError value)
      end
  end.

(** ** Placement data *)

Inductive PlacementProfile :=
| StrictOneExpertPerBank | Budgeted (reserve_bytes_per_bank : Z) | PackedExperts.
#[export] Instance PlacementProfile_eq_dec : EqDecision PlacementProfile.
Proof. solve_decision. Defined.

Record PinnedPlacement := MkPinnedPlacement {
  pin_section_id : SectionId;
  pin_bank : BankIndex;
  pin_cpu_start : Z;
}.
#[export] Instance PinnedPlacement_eq_dec : EqDecision PinnedPlacement.
Proof. solve_decision. Defined.

Inductive ReservedRangeReason :=
| Res_CartridgeHeader | Res_ResetVector | Res_InterruptVector | Res_ThunkPool | Res_UserPinned.
#[export] Instance ReservedRangeReason_eq_dec : EqDecision ReservedRangeReason.
Proof. solve_decision. Defined.

Record ReservedRange := MkReservedRange {
  rr_bank : BankIndex;
  rr_start : Z;
  rr_end_inclusive : Z;
  rr_reason : ReservedRangeReason;
}.
#[export] Instance ReservedRange_eq_dec : EqDecision ReservedRange. Proof. solve_decision. Defined.

Inductive AddressSpace :=
| Space_Rom0 | Space_RomX | Space_Wram | Space_Hram | Space_Sram | Space_Vram | Space_Oam.
#[export] Instance AddressSpace_eq_dec : EqDecision AddressSpace. Proof. solve_decision. Defined.

#[export] Instance ItemOrder_countable : Countable ItemOrder.
Proof.
  apply (inj_countable' (fun o => (order_seq o, order_sub o)) (fun p => ItemOrder_new p.1 p.2)).
  by intros [].
Defined.

Record PlacedSection := MkPlacedSection {
  placed_id : SectionId;
  placed_space : AddressSpace;
  placed_bank : BankIndex;
  placed_cpu_start : Z;
  placed_final_size : Z;
  placed_estimated_size : Z;
  placed_alignment_padding : gmap ItemOrder Z;
}.
#[export] Instance PlacedSection_eq_dec : EqDecision PlacedSection. Proof. solve_decision. Defined.

Inductive LayoutError :=
| Lay_SectionTooBig (id : SectionId) (size bank_capacity : Z)
| Lay_NoBankFits (id : SectionId) (role : SectionRole)
| Lay_DuplicatePinned (section_id : SectionId)
| Lay_PinnedPlacementOutOfRange (section_id : SectionId) (cpu_start : Z) (bank : BankIndex)
| Lay_UserHeaderSectionRejected (section_id : SectionId)
| Lay_InterruptVectorMissingSlot (section_id : SectionId)
| Lay_InterruptVectorRoleMismatch (section_id : SectionId) (role : SectionRole)
| Lay_DuplicateInterruptVectorSlot (slot : InterruptVectorSlot) (first_id duplicate_id : SectionId)
| Lay_DuplicateInterruptVectorOwner (owner : SymbolName) (first_id duplicate_id : SectionId)
| Lay_InterruptVectorPinnedMismatch (section_id : SectionId) (slot : InterruptVectorSlot)
    (cpu_start : Z) (bank : BankIndex)
| Lay_InterruptVectorStubTooLarge (section_id : SectionId) (slot : InterruptVectorSlot)
    (size capacity : Z)
| Lay_PlacementCollision (section_id : SectionId) (bank : BankIndex) (start end_exclusive : Z)
| Lay_CpuAddressOutOfRange (section_id : SectionId) (space : AddressSpace) (cpu_start : Z)
| Lay_BankSpaceMismatch (section_id : SectionId) (space : AddressSpace) (bank : BankIndex).
#[export] Instance LayoutError_eq_dec : EqDecision LayoutError. Proof. solve_decision. Defined.

Definition cpu_end_exclusive (p : PlacedSection) : Z := placed_cpu_start p + placed_final_size p.

(** [usize] arithmetic on these small numbers does not overflow. *)
Definition rom_file_offset (p : PlacedSection) : outcome LayoutError (option Z) :=
  match placed_space p, placed_bank p with
  | Space_Rom0, Bank_Rom 0 =>
      let* _ := guard_err (ROM0_END_EXCLUSIVE <=? placed_cpu_start p)
        (Lay_CpuAddressOutOfRange (placed_id p) (placed_space p) (placed_cpu_start p)) in
      let* _ := guard_err (ROM0_END_EXCLUSIVE <? cpu_end_exclusive p)
        (Lay_SectionTooBig (placed_id p) (placed_final_size p) ROM0_END_EXCLUSIVE) in
      Ok (Some (placed_cpu_start p))
  | Space_RomX, Bank_Rom bank =>
      if 1 <=? bank then
        let* _ := guard_err
          (negb ((ROMX_START <=? placed_cpu_start p) && (placed_cpu_start p <? ROMX_END_EXCLUSIVE)))
          (Lay_CpuAddressOutOfRange (placed_id p) (placed_space p) (placed_cpu_start p)) in
        let* _ := guard_err (ROMX_END_EXCLUSIVE <? cpu_end_exclusive p)
          (Lay_SectionTooBig (placed_id p) (placed_final_size p) ROM_BANK_SIZE) in
        Ok (Some (bank * ROM_BANK_SIZE + (placed_cpu_start p - ROMX_START)))
      else Err (Lay_BankSpaceMismatch (placed_id p) (placed_space p) (placed_bank p))
  | (Space_Wram | Space_Hram | Space_Sram | Space_Vram | Space_Oam), _ => Ok None
  | _, _ => Err (Lay_BankSpaceMismatch (placed_id p) (placed_space p) (placed_bank p))
  end.

Record LayoutPlan := MkLayoutPlan {
  plan_sections : list PlacedSection;
  plan_bank_count : Z;
  plan_free_bytes_per_bank : gmap BankIndex Z;
  plan_reserved_ranges : list ReservedRange;
}.
#[export] Instance LayoutPlan_eq_dec : EqDecision LayoutPlan. Proof. solve_decision. Defined.

Definition placement_for (plan : LayoutPlan) (id : SectionId) : option PlacedSection :=
  snd <$> list_find (fun p => placed_id p = id) (plan_sections plan).

(** ** Sizes *)

Definition align_u32 (value align : Z) : outcome LayoutError Z :=
  umul U32 (div_ceil value align) align.
Definition align_u16 (value align : Z) : outcome LayoutError Z :=
  let* aligned := align_u32 value align in
  ok_or (try_from_u U16 aligned)
    (Lay_PinnedPlacementOutOfRange (SectionId_new (U32 - 1)) value (Bank_Rom 0)).

Inductive SizeItem := Size_Label | Size_Fixed (size : Z) | Size_Align (align : Z).

(** The layout sizes of branches and of far calls: three bytes each. *)
Definition branch_layout_size (b : SymbolicBranch) : Z :=
  match br_kind b with Branch_AbsoluteJump => 3 | Branch_Jump => 3 | Branch_Call => 3 end.
Definition legalization_layout_size (op : LegalizationOp) : Z :=
  match op with Op_FarCall _ _ => 3 end.

Definition size_items (s : LoweredSection) : outcome LayoutError (list (ItemOrder * SizeItem)) :=
  let labels := map (fun i => (item_order i, Size_Label)) (low_labels s) in
  let instrs :=
    map (fun i => (item_order i, Size_Fixed (Instr_byte_len (item_data i)))) (low_instrs s) in
  let* data_blocks :=
    omapM (fun i => let* n := DataBlock_byte_len (item_data i) in Ok (item_order i, Size_Fixed n))
      (low_data_blocks s) in
  let alignments :=
    map (fun i => (item_order i, Size_Align (Align_0 (item_data i)))) (low_alignments s) in
  let branches :=
    map (fun i => (item_order i, Size_Fixed (branch_layout_size (item_data i)))) (low_branches s) in
  let legalization_ops :=
    map (fun i => (item_order i, Size_Fixed (legalization_layout_size (item_data i))))
      (low_legalization_ops s) in
  Ok (labels ++ instrs ++ data_blocks ++ alignments ++ branches ++ legalization_ops).

Definition size_leb (a b : ItemOrder * SizeItem) : bool := ItemOrder_leb a.1 b.1.

Definition size_step (id : SectionId) (st : Z * gmap ItemOrder Z) (oi : ItemOrder * SizeItem)
    : outcome LayoutError (Z * gmap ItemOrder Z) :=
  let '(cursor, padding) := st in
  let '(order, item) := oi in
  match item with
  | Size_Label => Ok (cursor, padding)
  | Size_Fixed size =>
      let* cursor := ok_or (checked_add U32 cursor size)
                       (Lay_SectionTooBig id (U32 - 1) ROM_BANK_SIZE) in
      Ok (cursor, padding)
  | Size_Align align =>
      let* aligned := align_u32 cursor align in
      let* pad := usub aligned cursor in
      Ok (aligned, <[order := wrap U16 pad]> padding)
  end.

Definition section_size_from (s : LoweredSection) (cpu_start : Z)
    : outcome LayoutError (Z * gmap ItemOrder Z) :=
  let* items := size_items s in
  let* (cursor, padding) :=
    ofold (size_step (low_id s)) (cpu_start, ∅) (sort_by size_leb items) in
  let* size := usub cursor cpu_start in
  Ok (size, padding).

(** ** Occupied ranges *)

Abbreviation Occupied := (gmap BankIndex (list (Z * Z))) (only parsing).

Definition range_leb (a b : Z * Z) : bool :=
  (a.1 <? b.1) || ((a.1 =? b.1) && (a.2 <=? b.2)).

Definition occupied_from_reserved (reserved : list ReservedRange) : Occupied :=
  let occupied :=
    foldl (fun occ (r : ReservedRange) =>
        if bool_decide (rr_reason r = Res_UserPinned) then occ
        else <[rr_bank r := default [] (occ !! rr_bank r)
                             ++ [(rr_start r, rr_end_inclusive r + 1)]]> occ)
      (∅ : Occupied) reserved in
  sort_by range_leb <$> occupied.

Definition overlaps (start end_ : Z) (r : Z * Z) : bool := (start <? r.2) && (r.1 <? end_).

Definition first_overlap (p : PlacedSection) (occ : Occupied) : option (Z * Z) :=
  match occ !! placed_bank p with
  | None => None
  | Some ranges =>
      snd <$> list_find (fun r => overlaps (placed_cpu_start p) (cpu_end_exclusive p) r = true)
                ranges
  end.

Definition insert_occupied (occ : Occupied) (p : PlacedSection) : outcome LayoutError Occupied :=
  match first_overlap p occ with
  | Some _ =>
      Err (Lay_PlacementCollision (placed_id p) (placed_bank p) (placed_cpu_start p)
             (default (U16 - 1) (try_from_u U16 (cpu_end_exclusive p))))
  | None =>
      let ranges := default [] (occ !! placed_bank p) in
      Ok (<[placed_bank p :=
              sort_by range_leb (ranges ++ [(placed_cpu_start p, cpu_end_exclusive p)])]> occ)
  end.

(** ** Placing one section *)

Definition place_at (s : LoweredSection) (space : AddressSpace) (bank : BankIndex) (cursor : Z)
    : outcome LayoutError PlacedSection :=
  let* cpu_start := align_u16 cursor (low_align s) in
  let* (final_size, padding) := section_size_from s cpu_start in
  let* _ := guard_err (U16 - 1 <? final_size)
              (Lay_SectionTooBig (low_id s) final_size ROM_BANK_SIZE) in
  Ok (MkPlacedSection (low_id s) space bank cpu_start (wrap U16 final_size) (wrap U16 final_size)
        padding).

(** [Wram] and so on: start and exclusive end of the spaces outside ROM. *)
Definition ram_window (space : AddressSpace) : option (Z * Z) :=
  match space with
  | Space_Wram => Some (0xC000, 0xE000)
  | Space_Hram => Some (0xFF80, 0x10000)
  | Space_Sram => Some (0xA000, 0xC000)
  | Space_Vram => Some (0x8000, 0xA000)
  | Space_Oam => Some (0xFE00, 0xFEA0)
  | Space_Rom0 | Space_RomX => None
  end.

Definition validate_placed (p : PlacedSection) : outcome LayoutError unit :=
  match placed_space p with
  | Space_Rom0 =>
      guard_err (ROM0_END_EXCLUSIVE <? cpu_end_exclusive p)
        (Lay_SectionTooBig (placed_id p) (placed_final_size p) ROM0_END_EXCLUSIVE)
  | Space_RomX =>
      guard_err ((placed_cpu_start p <? ROMX_START) || (ROMX_END_EXCLUSIVE <? cpu_end_exclusive p))
        (Lay_SectionTooBig (placed_id p) (placed_final_size p) ROM_BANK_SIZE)
  | space =>
      match ram_window space with
      | Some (start, end_) =>
          guard_err ((placed_cpu_start p <? start) || (end_ <? cpu_end_exclusive p))
            (Lay_SectionTooBig (placed_id p) (placed_final_size p) (end_ - start))
      | None => Panic
      end
  end.

Definition reserve_of (profile : PlacementProfile) : Z :=
  match profile with
  | Budgeted reserve => reserve
  | StrictOneExpertPerBank | PackedExperts => 0
  end.

(** The exclusive end a placement may reach in its space. *)
Definition space_limit (space : AddressSpace) (profile : PlacementProfile)
    : outcome LayoutError Z :=
  match space with
  | Space_Rom0 => Ok ROM0_THUNK_POOL_START
  | Space_RomX => usub ROMX_END_EXCLUSIVE (reserve_of profile)
  | Space_Wram => Ok 0xE000
  | Space_Hram => Ok 0x10000
  | Space_Sram => Ok 0xC000
  | Space_Vram => Ok 0xA000
  | Space_Oam => Ok 0xFEA0
  end.

(** The [loop] of [place_next]. *)
Fixpoint place_next_loop (fuel : nat) (s : LoweredSection) (space : AddressSpace)
    (bank : BankIndex) (limit : Z) (occ : Occupied) (cursor : Z)
    : outcome LayoutError PlacedSection :=
  match fuel with
  | O => NoFuel
  | S fuel' =>
      let* placed := place_at s space bank cursor in
      let too_big := Lay_SectionTooBig (low_id s) (placed_final_size placed) limit in
      let* _ := guard_err (limit <? cpu_end_exclusive placed) too_big in
      match first_overlap placed occ with
      | Some (_, end_) =>
          let* cursor := ok_or (try_from_u U16 end_) too_big in
          place_next_loop fuel' s space bank limit occ cursor
      | None => Ok placed
      end
  end.

(** Each retry starts past one more range of the bank. *)
Definition place_next_fuel (occ : Occupied) (bank : BankIndex) : nat :=
  S (length (default [] (occ !! bank))).

Definition place_next (s : LoweredSection) (space : AddressSpace) (bank : BankIndex) (start : Z)
    (occ : Occupied) (profile : PlacementProfile) : outcome LayoutError PlacedSection :=
  let* limit := space_limit space profile in
  place_next_loop (place_next_fuel occ bank) s space bank limit occ start.

Definition place_interrupt_vector (s : LoweredSection) : outcome LayoutError PlacedSection :=
  let* vector := ok_or (low_interrupt_vector s) (Lay_InterruptVectorMissingSlot (low_id s)) in
  let slot := iv_slot vector in
  let* placed := place_at s Space_Rom0 (Bank_Rom 0) (InterruptVectorSlot_address slot) in
  let* _ := guard_err (negb (placed_cpu_start placed =? InterruptVectorSlot_address slot))
    (Lay_InterruptVectorPinnedMismatch (low_id s) slot (placed_cpu_start placed)
       (placed_bank placed)) in
  let* _ := guard_err (SLOT_BYTES <? placed_final_size placed)
    (Lay_InterruptVectorStubTooLarge (low_id s) slot (placed_final_size placed) SLOT_BYTES) in
  let* _ := validate_placed placed in
  Ok placed.

(** ** Choosing a bank *)

(** The keys of a [BTreeMap<u16, _>] in order. *)
Definition sorted_keys {A} (m : gmap Z A) : list Z := sort_by Z.leb (map fst (map_to_list m)).

Definition next_bank (bank_cursors : gmap Z Z) : outcome LayoutError Z :=
  uadd U16 (default 0 (last (sorted_keys bank_cursors))) 1.

Definition candidate_banks (bank_cursors : gmap Z Z) : outcome LayoutError (list Z) :=
  if bool_decide (bank_cursors = ∅) then Ok [1]
  else
    let* next := next_bank bank_cursors in
    Ok (sorted_keys bank_cursors ++ [next]).

(** [*bank_cursors.entry(bank).or_insert(ROMX_START)]. *)
Definition cursor_entry (bank : Z) (bank_cursors : gmap Z Z) : Z * gmap Z Z :=
  match bank_cursors !! bank with
  | Some c => (c, bank_cursors)
  | None => (ROMX_START, <[bank := ROMX_START]> bank_cursors)
  end.

(** The [for bank in candidate_banks] loop; [?] on [place_next] leaves the
    function at the first candidate that has no room. *)
Fixpoint first_fit_loop (candidates : list Z) (s : LoweredSection) (bank_cursors : gmap Z Z)
    (occ : Occupied) (profile : PlacementProfile) : outcome LayoutError (Z * gmap Z Z) :=
  match candidates with
  | [] => Err (Lay_NoBankFits (low_id s) (low_role s))
  | bank :: rest =>
      let '(cursor, bank_cursors) := cursor_entry bank bank_cursors in
      let* placed := place_next s Space_RomX (Bank_Rom bank) cursor occ profile in
      let* limit := usub ROMX_END_EXCLUSIVE (reserve_of profile) in
      if cpu_end_exclusive placed <=? limit then Ok (bank, bank_cursors)
      else first_fit_loop rest s bank_cursors occ profile
  end.

Definition first_fit_bank (s : LoweredSection) (bank_cursors : gmap Z Z) (occ : Occupied)
    (profile : PlacementProfile) : outcome LayoutError (Z * gmap Z Z) :=
  let* candidates := candidate_banks bank_cursors in
  first_fit_loop candidates s bank_cursors occ profile.

Definition space_for_bank (bank : BankIndex) (role : SectionRole) : AddressSpace :=
  match bank with
  | Bank_Rom 0 => Space_Rom0
  | Bank_Rom _ => Space_RomX
  | Bank_Sram _ => Space_Sram
  | Bank_Wram => Space_Wram
  | Bank_Hram => Space_Hram
  | Bank_Vram => Space_Vram
  | Bank_Oam => Space_Oam
  end.

(** ** Before the main loop *)

Definition pinned_map (pinned : list PinnedPlacement)
    : outcome LayoutError (gmap SectionId PinnedPlacement) :=
  ofold (fun out pin =>
      match out !! pin_section_id pin with
      | Some _ => Err (Lay_DuplicatePinned (pin_section_id pin))
      | None => Ok (<[pin_section_id pin := pin]> out)
      end) ∅ pinned.

#[export] Instance InterruptVectorSlot_countable : Countable InterruptVectorSlot.
Proof.
  apply (inj_countable
    (fun s => match s with Slot_VBlank => 0 | Slot_LcdStat => 1 | Slot_Timer => 2
                         | Slot_Serial => 3 | Slot_Joypad => 4 end)
    (fun n => match n with 0 => Some Slot_VBlank | 1 => Some Slot_LcdStat | 2 => Some Slot_Timer
                         | 3 => Some Slot_Serial | _ => Some Slot_Joypad end)).
  by intros [].
Defined.

Definition vector_section_step
    (st : gmap InterruptVectorSlot SectionId * gmap SymbolName SectionId) (s : LoweredSection)
    : outcome LayoutError (gmap InterruptVectorSlot SectionId * gmap SymbolName SectionId) :=
  let '(by_slot, by_owner) := st in
  match low_interrupt_vector s, low_role s with
  | None, Role_InterruptVector => Err (Lay_InterruptVectorMissingSlot (low_id s))
  | Some vector, Role_InterruptVector =>
      match by_slot !! iv_slot vector with
      | Some first => Err (Lay_DuplicateInterruptVectorSlot (iv_slot vector) first (low_id s))
      | None =>
          match by_owner !! low_name s with
          | Some first => Err (Lay_DuplicateInterruptVectorOwner (low_name s) first (low_id s))
          | None =>
              Ok (<[iv_slot vector := low_id s]> by_slot, <[low_name s := low_id s]> by_owner)
          end
      end
  | None, _ => Ok st
  | Some _, role => Err (Lay_InterruptVectorRoleMismatch (low_id s) role)
  end.
Definition interrupt_vector_sections (sections : list LoweredSection)
    : outcome LayoutError (gmap InterruptVectorSlot SectionId) :=
  let* (by_slot, _) := ofold vector_section_step (∅, ∅) sections in
  Ok by_slot.

Definition find_section (sections : list LoweredSection) (id : SectionId) : option LoweredSection :=
  snd <$> list_find (fun s => low_id s = id) sections.

Definition vector_reserved (sections : list LoweredSection)
    (vector_sections : gmap InterruptVectorSlot SectionId) (slot : InterruptVectorSlot)
    : outcome LayoutError (list ReservedRange) :=
  let* end_inclusive := usub (InterruptVectorSlot_end_exclusive slot) 1 in
  match vector_sections !! slot with
  | Some id =>
      let* s := expect (find_section sections id) in
      let* placed := place_interrupt_vector s in
      if placed_final_size placed <? SLOT_BYTES then
        let* start := uadd U16 (placed_cpu_start placed) (placed_final_size placed) in
        Ok [MkReservedRange (Bank_Rom 0) start end_inclusive Res_InterruptVector]
      else Ok []
  | None =>
      Ok [MkReservedRange (Bank_Rom 0) (InterruptVectorSlot_address slot) end_inclusive
            Res_InterruptVector]
  end.

Definition base_reserved_ranges (sections : list LoweredSection)
    (vector_sections : gmap InterruptVectorSlot SectionId)
    : outcome LayoutError (list ReservedRange) :=
  let* vblank_end := usub (InterruptVectorSlot_address Slot_VBlank) 1 in
  let* slots := omapM (vector_reserved sections vector_sections) InterruptVectorSlot_ALL in
  let* rom0_end := usub ROM0_END_EXCLUSIVE 1 in
  Ok ([MkReservedRange (Bank_Rom 0) 0x0000 vblank_end Res_ResetVector]
      ++ concat slots
      ++ [MkReservedRange (Bank_Rom 0) (InterruptVectorSlot_end_exclusive Slot_Joypad) 0x00FF
            Res_ResetVector;
          MkReservedRange (Bank_Rom 0) 0x0100 0x014F Res_CartridgeHeader;
          MkReservedRange (Bank_Rom 0) ROM0_THUNK_POOL_START rom0_end Res_ThunkPool]).

(** ROM0 ends for sections where the thunk pool begins. *)
Definition guard_thunk_pool (p : PlacedSection) : outcome LayoutError unit :=
  guard_err (bool_decide (placed_bank p = Bank_Rom 0)
             && (ROM0_THUNK_POOL_START <? cpu_end_exclusive p))
    (Lay_SectionTooBig (placed_id p) (placed_final_size p) ROM0_THUNK_POOL_START).

(** The first loop over the pins. *)
Definition preplace_pin (sections : list LoweredSection)
    (st : Occupied * gmap SectionId PlacedSection) (pin : PinnedPlacement)
    : outcome LayoutError (Occupied * gmap SectionId PlacedSection) :=
  let '(occ, preplaced) := st in
  match find_section sections (pin_section_id pin) with
  | None => Ok st
  | Some s =>
      match low_interrupt_vector s with
      | Some vector =>
          let* _ := guard_err
            (negb (bool_decide (pin_bank pin = Bank_Rom 0)
                   && (pin_cpu_start pin =? InterruptVectorSlot_address (iv_slot vector))))
            (Lay_InterruptVectorPinnedMismatch (low_id s) (iv_slot vector) (pin_cpu_start pin)
               (pin_bank pin)) in
          Ok st
      | None =>
          let* _ := guard_err (bool_decide (low_role s = Role_HeaderCartridge))
                      (Lay_UserHeaderSectionRejected (low_id s)) in
          let space := space_for_bank (pin_bank pin) (low_role s) in
          let* placed := place_at s space (pin_bank pin) (pin_cpu_start pin) in
          let* _ := validate_placed placed in
          let* _ := guard_thunk_pool placed in
          let* occ := insert_occupied occ placed in
          Ok (occ, <[low_id s := placed]> preplaced)
      end
  end.

(** ** The main loop *)

Record LayoutState := MkLayoutState {
  st_sections_out : list PlacedSection;
  st_occupied : gmap BankIndex (list (Z * Z));
  st_rom0_cursor : Z;
  st_bank_cursors : gmap Z Z;
  st_used_banks : gset Z;
  st_next_strict_expert_bank : Z;
}.

(** Where an unpinned section goes: its space, its bank, the cursor there. *)
Definition choose_place (profile : PlacementProfile) (st : LayoutState) (s : LoweredSection)
    : outcome LayoutError (AddressSpace * BankIndex * Z * LayoutState) :=
  let with_cursors cs strict :=
    MkLayoutState (st_sections_out st) (st_occupied st) (st_rom0_cursor st) cs
      (st_used_banks st) strict in
  let romx bank cs strict :=
    let '(cursor, cs) := cursor_entry bank cs in
    Ok (Space_RomX, Bank_Rom bank, cursor, with_cursors cs strict) in
  let strict := st_next_strict_expert_bank st in
  match low_role s with
  | Role_Bank0Nucleus | Role_Bank0Data => Ok (Space_Rom0, Bank_Rom 0, st_rom0_cursor st, st)
  | Role_CommonBank | Role_CommonData =>
      let* (bank, cs) := first_fit_bank s (st_bank_cursors st) (st_occupied st) profile in
      romx bank cs strict
  | Role_ExpertBank | Role_ExpertData =>
      match profile with
      | StrictOneExpertPerBank =>
          let* next := next_bank (st_bank_cursors st) in
          let bank := Z.max strict next in
          let* strict := ok_or (checked_add U16 bank 1) (Lay_NoBankFits (low_id s) (low_role s)) in
          romx bank (snd (cursor_entry bank (st_bank_cursors st))) strict
      | Budgeted _ | PackedExperts =>
          let* (bank, cs) := first_fit_bank s (st_bank_cursors st) (st_occupied st) profile in
          romx bank cs strict
      end
  | Role_WramHotArena | Role_WramOverlay => Ok (Space_Wram, Bank_Wram, 0xC000, st)
  | Role_HramFastFlags => Ok (Space_Hram, Bank_Hram, 0xFF80, st)
  | Role_SramPersistent => Ok (Space_Sram, Bank_Sram 0, 0xA000, st)
  | Role_VramOwnedByUi => Ok (Space_Vram, Bank_Vram, 0x8000, st)
  | Role_OamOwnedByUi => Ok (Space_Oam, Bank_Oam, 0xFE00, st)
  | Role_InterruptVector | Role_HeaderCartridge => Panic
  end.

(** The cursor updates after a placement. *)
Definition advance_cursors (st : LayoutState) (p : PlacedSection) : LayoutState :=
  match placed_bank p with
  | Bank_Rom 0 =>
      MkLayoutState (st_sections_out st) (st_occupied st)
        (Z.max (st_rom0_cursor st) (wrap U16 (cpu_end_exclusive p))) (st_bank_cursors st)
        (st_used_banks st) (st_next_strict_expert_bank st)
  | Bank_Rom bank =>
      let '(cursor, cs) := cursor_entry bank (st_bank_cursors st) in
      MkLayoutState (st_sections_out st) (st_occupied st) (st_rom0_cursor st)
        (<[bank := Z.max cursor (wrap U16 (cpu_end_exclusive p))]> cs)
        (st_used_banks st ∪ {[bank]}) (st_next_strict_expert_bank st)
  | _ => st
  end.

Definition push_placed (st : LayoutState) (occ : Occupied) (p : PlacedSection) : LayoutState :=
  MkLayoutState (st_sections_out st ++ [p]) occ (st_rom0_cursor st) (st_bank_cursors st)
    (st_used_banks st) (st_next_strict_expert_bank st).

Definition layout_step (profile : PlacementProfile)
    (pinned_by_section : gmap SectionId PinnedPlacement)
    (preplaced : gmap SectionId PlacedSection) (st : LayoutState) (s : LoweredSection)
    : outcome LayoutError LayoutState :=
  let* _ := guard_err (bool_decide (low_role s = Role_HeaderCartridge))
              (Lay_UserHeaderSectionRejected (low_id s)) in
  if bool_decide (low_role s = Role_InterruptVector) then
    let* placed := place_interrupt_vector s in
    let* occ := insert_occupied (st_occupied st) placed in
    Ok (push_placed st occ placed)
  else
    let* (placed, is_pinned, st) :=
      match pinned_by_section !! low_id s with
      | Some _ =>
          let* placed := expect (preplaced !! low_id s) in
          Ok (placed, true, st)
      | None =>
          let* (space, bank, cursor, st) := choose_place profile st s in
          let* placed := place_next s space bank cursor (st_occupied st) profile in
          Ok (placed, false, st)
      end in
    let* _ := validate_placed placed in
    let* _ := guard_thunk_pool placed in
    let st := advance_cursors st placed in
    let* occ := if (is_pinned : bool) then Ok (st_occupied st)
                else insert_occupied (st_occupied st) placed in
    Ok (push_placed st occ placed).

(** ** After the main loop *)

(** [u16::next_power_of_two]: the smallest power of two not below [n]; 2^16
    does not fit. *)
Fixpoint next_pow2_loop (fuel : nat) (p n : Z) : Z :=
  match fuel with
  | O => p
  | S fuel' => if n <=? p then p else next_pow2_loop fuel' (2 * p) n
  end.
Definition next_power_of_two16 (n : Z) : outcome LayoutError Z :=
  let p := next_pow2_loop 17 1 n in if p <? U16 then Ok p else Panic.

Definition free_bytes (st : LayoutState) : outcome LayoutError (gmap BankIndex Z) :=
  let* rom0_free := usub ROM0_THUNK_POOL_START (st_rom0_cursor st) in
  ofold (fun free bank =>
      let cursor := default ROMX_START (st_bank_cursors st !! bank) in
      let* n := usub ROMX_END_EXCLUSIVE cursor in
      Ok (<[Bank_Rom bank := n]> free))
    {[Bank_Rom 0 := rom0_free]}
    (base.filter (fun bank => bank <> 0) (sort_by Z.leb (elements (st_used_banks st)))).

Definition user_pinned_range (pin : PinnedPlacement) : ReservedRange :=
  MkReservedRange (pin_bank pin) (pin_cpu_start pin) (pin_cpu_start pin) Res_UserPinned.

Definition initial_layout_state (occ : Occupied) : LayoutState :=
  MkLayoutState [] occ 0x0150 ∅ {[0]} 1.

Definition layout_into_banks (sections : list LoweredSection) (profile : PlacementProfile)
    (pinned : list PinnedPlacement) : outcome LayoutError LayoutPlan :=
  let* pinned_by_section := pinned_map pinned in
  let* vector_sections := interrupt_vector_sections sections in
  let* base := base_reserved_ranges sections vector_sections in
  let reserved_ranges := base ++ map user_pinned_range pinned in
  let* (occ, preplaced) :=
    ofold (preplace_pin sections) (occupied_from_reserved reserved_ranges, ∅) pinned in
  let* st := ofold (layout_step profile pinned_by_section preplaced)
               (initial_layout_state occ) sections in
  let* free := free_bytes st in
  let* bank_count :=
    uadd U16 (default 1 (last (sort_by Z.leb (elements (st_used_banks st))))) 1 in
  let* pow2 := next_power_of_two16 bank_count in
  Ok (MkLayoutPlan (st_sections_out st) (Z.max pow2 2) free reserved_ranges).
