(* ===== verification/LayoutFacts.v ===== *)
(** * Correctness of the bank layout ([gbf-asm/src/layout.rs])

    The lemmas and properties of [Layout]: sizes and alignment, termination of
    the placement loop, the invariant of the occupied ranges, and the
    soundness of the plan. *)

From S2P Require Import Prelude Hw Isa IsaCodec Names SectionIr Effect SectionOps Lowering Layout.

(** What the Rust types guarantee: alignments are [NonZeroU16], addresses and
    banks of pins are unsigned. *)
Definition lowered_ok (s : LoweredSection) : Prop := 1 <= low_align s.
Definition pin_ok (pin : PinnedPlacement) : Prop :=
  0 <= pin_cpu_start pin < 65536
  /\ match pin_bank pin with
     | Bank_Rom b => 0 <= b < 65536
     | Bank_Sram b => 0 <= b < 256
     | _ => True
     end.

(** Two half-open ranges of addresses that share no byte. *)
Definition disjoint_ranges (a b : Z * Z) : Prop := a.2 <= b.1 \/ b.2 <= a.1.
Definition placed_range (p : PlacedSection) : Z * Z := (placed_cpu_start p, cpu_end_exclusive p).
Definition reserved_range (r : ReservedRange) : Z * Z := (rr_start r, rr_end_inclusive r + 1).

Lemma disjoint_ranges_sym a b : disjoint_ranges a b -> disjoint_ranges b a.
Proof. unfold disjoint_ranges. tauto. Qed.

(** ** Alignment and sizes *)

Lemma align_u32_Ok v a c : align_u32 v a = Ok c -> 0 <= v -> 1 <= a ->
  v <= c < v + a /\ c mod a = 0 /\ c < 4294967296.
Proof.
  unfold align_u32. intros H Hv Ha. inv_arith. subst c.
  pose proof (div_ceil_spec v a ltac:(lia) Hv). split_and!; try lia. apply Z.mod_mul. lia.
Qed.

Lemma align_u16_Ok v a c : align_u16 v a = Ok c -> 0 <= v -> 1 <= a ->
  v <= c < v + a /\ c mod a = 0 /\ 0 <= c < 65536.
Proof.
  unfold align_u16. intros H Hv Ha. inv_arith. subst c.
  destruct (align_u32_Ok _ _ _ Hx Hv Ha) as (? & ? & ?). lia.
Qed.

Lemma section_size_nonneg s c n pad : section_size_from s c = Ok (n, pad) -> 0 <= n.
Proof.
  unfold section_size_from. intros H. inv_ok. destruct x0 as [cursor padding]. inv_arith. lia.
Qed.

(** What a placement of a section is. *)
Record placement_of (s : LoweredSection) (p : PlacedSection) : Prop := {
  pf_id : placed_id p = low_id s;
  pf_aligned : placed_cpu_start p mod low_align s = 0;
  pf_start : 0 <= placed_cpu_start p < 65536;
  pf_size : section_size_from s (placed_cpu_start p)
            = Ok (placed_final_size p, placed_alignment_padding p);
  pf_size_bound : 0 <= placed_final_size p < 65536;
  pf_estimated : placed_estimated_size p = placed_final_size p;
}.

Lemma place_at_Ok s space bank cursor p :
  place_at s space bank cursor = Ok p -> lowered_ok s -> 0 <= cursor ->
  placement_of s p /\ placed_space p = space /\ placed_bank p = bank
  /\ cursor <= placed_cpu_start p < cursor + low_align s.
Proof.
  unfold place_at. intros H Hs Hc. inv_ok. destruct x0 as [size padding]. inv_ok. simpl.
  destruct (align_u16_Ok _ _ _ Hx Hc Hs) as (? & ? & ?).
  pose proof (section_size_nonneg _ _ _ _ Hx0). apply Z.ltb_ge in Hx1.
  assert (Hw : wrap U16 size = size) by (unfold wrap; apply Z.mod_small; lia).
  split_and!; try done; try lia.
  constructor; simpl; rewrite ?Hw; try done; lia.
Qed.

(** ** Occupied ranges *)

Definition occ_ranges (occ : gmap BankIndex (list (Z * Z))) (bank : BankIndex) : list (Z * Z) :=
  default [] (occ !! bank).

Lemma overlaps_false s e r : overlaps s e r = false <-> disjoint_ranges (s, e) r.
Proof.
  unfold overlaps, disjoint_ranges. simpl. rewrite andb_false_iff, Z.ltb_ge, Z.ltb_ge. tauto.
Qed.

Lemma first_overlap_None p occ :
  first_overlap p occ = None <->
  forall r, r ∈ occ_ranges occ (placed_bank p) -> disjoint_ranges (placed_range p) r.
Proof.
  unfold first_overlap, occ_ranges. destruct (occ !! placed_bank p) as [ranges|]; simpl.
  - rewrite fmap_None, list_find_None, Forall_forall.
    setoid_rewrite not_true_iff_false. by setoid_rewrite overlaps_false.
  - split; [|done]. intros _ r Hr. by apply elem_of_nil in Hr.
Qed.

Lemma first_overlap_Some p occ r : first_overlap p occ = Some r ->
  r ∈ occ_ranges occ (placed_bank p) /\ placed_cpu_start p < r.2 /\ r.1 < cpu_end_exclusive p.
Proof.
  unfold first_overlap, occ_ranges. destruct (occ !! placed_bank p) as [ranges|]; [|done].
  intros H. apply fmap_Some in H as ([i r'] & H & ->). simpl.
  apply list_find_Some in H as (Hl & Hov & _). unfold overlaps in Hov.
  apply andb_true_iff in Hov as [H1%Z.ltb_lt H2%Z.ltb_lt].
  split_and!; try done. by eapply list_elem_of_lookup_2.
Qed.

Lemma insert_occupied_Ok occ p occ' : insert_occupied occ p = Ok occ' ->
  first_overlap p occ = None
  /\ forall bank r, r ∈ occ_ranges occ' bank <->
       r ∈ occ_ranges occ bank \/ (bank = placed_bank p /\ r = placed_range p).
Proof.
  unfold insert_occupied. destruct (first_overlap p occ); [done|]. intros [= <-].
  split; [done|]. intros bank r. unfold occ_ranges.
  destruct (decide (bank = placed_bank p)) as [->|Hne].
  - rewrite lookup_insert_eq. simpl.
    rewrite elem_of_sort_by, elem_of_app, list_elem_of_singleton. tauto.
  - rewrite lookup_insert_ne by done. tauto.
Qed.

Definition is_user_pinned (r : ReservedRange) : bool :=
  bool_decide (rr_reason r = Res_UserPinned).

Lemma occupied_from_reserved_elem reserved r : r ∈ reserved -> is_user_pinned r = false ->
  reserved_range r ∈ occ_ranges (occupied_from_reserved reserved) (rr_bank r).
Proof.
  unfold occupied_from_reserved, is_user_pinned. intros Hr Hu.
  assert (Hgen : forall l (occ : gmap BankIndex (list (Z * Z))),
    let step := fun occ (r : ReservedRange) =>
        if bool_decide (rr_reason r = Res_UserPinned) then occ
        else <[rr_bank r := default [] (occ !! rr_bank r)
                             ++ [(rr_start r, rr_end_inclusive r + 1)]]> occ in
    r ∈ l \/ reserved_range r ∈ occ_ranges occ (rr_bank r) ->
    reserved_range r ∈ occ_ranges (foldl step occ l) (rr_bank r)).
  { intros l. induction l as [|x l IH]; intros occ step Hin; simpl.
    - destruct Hin as [Hin|Hin]; [by apply elem_of_nil in Hin | done].
    - apply IH. unfold occ_ranges, reserved_range in *.
      destruct Hin as [[<-|Hin]%elem_of_cons|Hin]; [right | by left | right].
      + unfold step. rewrite Hu, lookup_insert_eq. simpl. set_solver.
      + unfold step. destruct (bool_decide (rr_reason x = _)); [done|].
        destruct (decide (rr_bank x = rr_bank r)) as [->|]; [|by rewrite lookup_insert_ne].
        rewrite lookup_insert_eq. simpl. set_solver. }
  specialize (Hgen reserved ∅ (or_introl Hr)). unfold occ_ranges in *.
  rewrite lookup_fmap. destruct (_ !! _); simpl in *; [by rewrite elem_of_sort_by | done].
Qed.

(** ** Termination of [place_next] *)

(** The ranges a retry can still run into. *)
Definition ahead (cursor : Z) (ranges : list (Z * Z)) : nat :=
  length (base.filter (fun r => cursor < r.2) ranges).

Lemma ahead_decreases c c' r ranges : r ∈ ranges -> c < r.2 -> r.2 <= c' ->
  (ahead c' ranges < ahead c ranges)%nat.
Proof.
  intros Hr Hc Hc'. unfold ahead. induction ranges as [|x l IH]; [by apply elem_of_nil in Hr|].
  assert (Hmono : (length (base.filter (fun r => (c' < r.2)%Z) l)
                   <= length (base.filter (fun r => (c < r.2)%Z) l))%nat).
  { clear IH Hr. induction l as [|y l IHl]; [done|]. rewrite !filter_cons.
    repeat case_decide; simpl; lia. }
  rewrite !filter_cons. apply elem_of_cons in Hr as [<-|Hr].
  - rewrite decide_False by lia. rewrite decide_True by lia. simpl. lia.
  - specialize (IH Hr). repeat case_decide; simpl; lia.
Qed.

Lemma section_size_not_NoFuel s c : section_size_from s c <> NoFuel.
Proof.
  unfold section_size_from, size_items. intros H.
  assert (Hd : forall l : list (OrderedItem DataBlock), omapM (E := LayoutError) (fun i =>
    let* n := DataBlock_byte_len (item_data i) in Ok (item_order i, Size_Fixed n)) l <> NoFuel).
  { induction l as [|x l IH]; simpl; [done|].
    unfold DataBlock_byte_len, umul. destruct (item_data x); simpl.
    - destruct (omapM _ l); simpl; congruence.
    - destruct (_ <? _); simpl; [|done]. destruct (omapM _ l); simpl; congruence. }
  specialize (Hd (low_data_blocks s)).
  destruct (omapM _ _) as [ds|e| |]; simpl in H; try done.
  assert (Hf : forall l st, ofold (size_step (low_id s)) st l <> NoFuel).
  { induction l as [|[o i] l IH]; intros [cur pad]; simpl; [done|].
    unfold size_step, checked_add, align_u32, umul, usub. destruct i; simpl; [apply IH| |].
    - destruct (_ <? _); simpl; [apply IH | done].
    - destruct (_ <? _); simpl; [|done]. destruct (_ <=? _); simpl; [apply IH | done]. }
  match type of H with obind (ofold _ ?st ?l) _ = _ => specialize (Hf l st) end.
  destruct (ofold _ _ _) as [[cur pad]|e| |]; simpl in H; try done.
  unfold usub in H. destruct (_ <=? _); done.
Qed.

Lemma place_at_not_NoFuel s space bank c : place_at s space bank c <> NoFuel.
Proof.
  unfold place_at, align_u16, align_u32, umul. intros H.
  destruct (_ <? _); simpl in H; [|done]. destruct (try_from_u _ _); simpl in H; [|done].
  pose proof (section_size_not_NoFuel s z). destruct (section_size_from s z) as [[n pad]|e| |]; simpl in H; try done.
  destruct (_ <? _); done.
Qed.

Lemma place_next_loop_not_NoFuel s space bank limit occ : lowered_ok s -> forall fuel cursor,
  0 <= cursor -> (ahead cursor (occ_ranges occ bank) < fuel)%nat ->
  place_next_loop fuel s space bank limit occ cursor <> NoFuel.
Proof.
  intros Hs. induction fuel as [|fuel IH]; intros cursor Hc Hf; [lia|]. simpl.
  destruct (place_at s space bank cursor) as [p|e| |] eqn:Hp; simpl; try done;
    [|by apply place_at_not_NoFuel in Hp].
  destruct (place_at_Ok _ _ _ _ _ Hp Hs Hc) as (Hpf & _ & Hb & Hcur).
  destruct (limit <? cpu_end_exclusive p); simpl; [done|].
  destruct (first_overlap p occ) as [[os oe]|] eqn:Ho; [|done].
  apply first_overlap_Some in Ho as (Hin & H1 & H2). simpl in *. rewrite Hb in Hin.
  unfold try_from_u. destruct (_ && _) eqn:Hr; simpl; [|done].
  apply IH; [lia|]. pose proof (ahead_decreases cursor oe (os, oe) _ Hin) as Hd. simpl in Hd. lia.
Qed.

Lemma place_next_not_NoFuel s space bank start occ profile : lowered_ok s -> 0 <= start ->
  place_next s space bank start occ profile <> NoFuel.
Proof.
  intros Hs Hst H. unfold place_next in H.
  destruct (space_limit space profile) as [limit|e| |] eqn:Hl; cbn [obind] in H; try done.
  - revert H. apply place_next_loop_not_NoFuel; [done | done |].
    unfold place_next_fuel, ahead, occ_ranges. apply le_n_S, length_filter.
  - unfold space_limit, usub in Hl. destruct space; try done. by destruct (_ <=? _).
Qed.

Lemma place_next_Ok s space bank start occ profile p : lowered_ok s -> 0 <= start ->
  place_next s space bank start occ profile = Ok p ->
  placement_of s p /\ placed_space p = space /\ placed_bank p = bank
  /\ start <= placed_cpu_start p /\ first_overlap p occ = None
  /\ exists limit, space_limit space profile = Ok limit /\ cpu_end_exclusive p <= limit.
Proof.
  unfold place_next. intros Hs Hst H. inv_ok. revert Hst H.
  generalize (place_next_fuel occ bank) as fuel. intros fuel. revert start.
  induction fuel as [|fuel IH]; intros start Hst H; simpl in H; [done|]. inv_ok.
  destruct (place_at_Ok _ _ _ _ _ Hx0 Hs Hst) as (Hpf & Hsp & Hb & Hc).
  apply Z.ltb_ge in Hx1. destruct (first_overlap x0 occ) as [[os oe]|] eqn:Ho.
  - inv_arith. apply first_overlap_Some in Ho as (_ & H1 & _). simpl in H1.
    destruct (IH oe ltac:(lia) ltac:(congruence)) as (? & ? & ? & ? & ? & ?). split_and!; try done; lia.
  - injection H as <-. split_and!; try done; [lia | eauto].
Qed.

(** ** The invariant of the occupied ranges *)

(** [ins] is what has been inserted so far, on top of the reserved ranges. *)
Record occ_inv (reserved : list ReservedRange) (occ : gmap BankIndex (list (Z * Z)))
    (ins : list PlacedSection) : Prop := {
  oi_ins : forall p, p ∈ ins -> placed_range p ∈ occ_ranges occ (placed_bank p);
  oi_reserved : forall r, r ∈ reserved -> is_user_pinned r = false ->
    reserved_range r ∈ occ_ranges occ (rr_bank r);
  oi_disjoint : forall p q, p ∈ ins -> q ∈ ins -> p <> q -> placed_bank p = placed_bank q ->
    disjoint_ranges (placed_range p) (placed_range q);
  oi_reserved_disjoint : forall p r, p ∈ ins -> r ∈ reserved -> is_user_pinned r = false ->
    placed_bank p = rr_bank r -> disjoint_ranges (placed_range p) (reserved_range r);
}.

Lemma occ_inv_init reserved : occ_inv reserved (occupied_from_reserved reserved) [].
Proof.
  constructor; try (intros ? ? Hp; by apply elem_of_nil in Hp);
    try (intros ? Hp; by apply elem_of_nil in Hp).
  apply occupied_from_reserved_elem.
Qed.

Lemma occ_inv_insert reserved occ ins p occ' :
  occ_inv reserved occ ins -> insert_occupied occ p = Ok occ' -> occ_inv reserved occ' (p :: ins).
Proof.
  intros [] Hi. apply insert_occupied_Ok in Hi as [Hn Hocc].
  rewrite first_overlap_None in Hn.
  constructor.
  - intros q [->|Hq]%elem_of_cons; apply Hocc; auto.
  - intros r Hr Hu. apply Hocc. auto.
  - intros q q' [->|Hq]%elem_of_cons [->|Hq']%elem_of_cons Hne Hb; try done; auto.
    + apply Hn. rewrite Hb. auto.
    + apply disjoint_ranges_sym, Hn. rewrite <- Hb. auto.
  - intros q r [->|Hq]%elem_of_cons Hr Hu Hb; auto. apply Hn. rewrite Hb. auto.
Qed.

(** ** Spaces and banks *)

Definition space_bank_ok (space : AddressSpace) (bank : BankIndex) : Prop :=
  match space, bank with
  | Space_Rom0, Bank_Rom b => b = 0
  | Space_RomX, Bank_Rom b => 1 <= b
  | Space_Sram, Bank_Sram _ | Space_Wram, Bank_Wram | Space_Hram, Bank_Hram
  | Space_Vram, Bank_Vram | Space_Oam, Bank_Oam => True
  | _, _ => False
  end.

Lemma space_for_bank_ok pin role : pin_ok pin ->
  space_bank_ok (space_for_bank (pin_bank pin) role) (pin_bank pin).
Proof. intros [_ Hb]. destruct (pin_bank pin) as [[| |]| | | | |]; simpl in *; lia || done. Qed.

(** A placement of a section that the plan may contain. *)
Record sound_placement (s : LoweredSection) (p : PlacedSection) : Prop := {
  sp_for : placement_of s p;
  sp_space : space_bank_ok (placed_space p) (placed_bank p);
  sp_valid : validate_placed p = Ok tt;
}.

Lemma place_interrupt_vector_Ok s p : lowered_ok s -> place_interrupt_vector s = Ok p ->
  sound_placement s p /\ placed_bank p = Bank_Rom 0
  /\ exists iv, low_interrupt_vector s = Some iv
       /\ placed_cpu_start p = InterruptVectorSlot_address (iv_slot iv)
       /\ placed_final_size p <= SLOT_BYTES.
Proof.
  unfold place_interrupt_vector. intros Hs H. inv_ok.
  apply negb_false_iff, Z.eqb_eq in Hx1. apply Z.ltb_ge in Hx2.
  assert (Ha : 0 <= InterruptVectorSlot_address (iv_slot x)) by (by destruct (iv_slot x)).
  destruct (place_at_Ok _ _ _ _ _ Hx0 Hs Ha) as (Hpf & Hsp & Hb & _).
  repeat match goal with u : unit |- _ => destruct u end.
  split_and!; [constructor; rewrite ?Hsp, ?Hb; done | done | eauto].
Qed.

(** ** Cursors *)

Definition cursors_ok (cs : gmap Z Z) : Prop := forall k v, cs !! k = Some v -> 1 <= k /\ 0 <= v.

Lemma cursor_entry_ok bank cs c cs' : cursors_ok cs -> 1 <= bank ->
  cursor_entry bank cs = (c, cs') -> 0 <= c /\ cursors_ok cs'.
Proof.
  unfold cursor_entry. intros Hcs Hb. destruct (cs !! bank) eqn:Hl; intros [= <- <-].
  - split; [by eapply Hcs | done].
  - split; [done|]. intros k v.
    destruct (decide (k = bank)) as [->|]; [rewrite lookup_insert_eq | rewrite lookup_insert_ne by done].
    + intros [= <-]. split; [done|]. unfold ROMX_START. lia.
    + apply Hcs.
Qed.

Lemma elem_of_sorted_keys {A} (m : gmap Z A) k : k ∈ sorted_keys m -> is_Some (m !! k).
Proof.
  unfold sorted_keys. rewrite elem_of_sort_by, list_elem_of_fmap.
  intros ([k' v] & -> & H%elem_of_map_to_list). simpl. by exists v.
Qed.

Lemma next_bank_ok cs n : cursors_ok cs -> next_bank cs = Ok n -> 1 <= n.
Proof.
  unfold next_bank. intros Hcs H. inv_arith. subst n.
  destruct (last (sorted_keys cs)) as [k|] eqn:Hl; simpl; [|lia].
  apply last_Some_elem_of, elem_of_sorted_keys in Hl as [v Hv]. destruct (Hcs k v Hv). lia.
Qed.

Lemma candidate_banks_ok cs l : cursors_ok cs -> candidate_banks cs = Ok l -> Forall (fun b => 1 <= b) l.
Proof.
  unfold candidate_banks. intros Hcs H. destruct (bool_decide _).
  - injection H as <-. by repeat constructor.
  - inv_ok. apply Forall_app. split; [|repeat constructor; by eapply next_bank_ok].
    apply Forall_forall. intros k [v Hv]%elem_of_sorted_keys. by destruct (Hcs k v Hv).
Qed.

Lemma first_fit_loop_ok l s cs occ profile b cs' :
  Forall (fun b => 1 <= b) l -> cursors_ok cs ->
  first_fit_loop l s cs occ profile = Ok (b, cs') -> 1 <= b /\ cursors_ok cs'.
Proof.
  intros Hl. revert cs. induction Hl as [|b0 l Hb0 _ IH]; intros cs Hcs; simpl; [done|].
  destruct (cursor_entry b0 cs) as [c cs1] eqn:Hc. intros H. inv_ok.
  destruct (cursor_entry_ok _ _ _ _ Hcs Hb0 Hc) as [_ Hcs1].
  destruct (cpu_end_exclusive x <=? x0); [|by eapply IH]. by injection H as <- <-.
Qed.

Lemma first_fit_bank_ok s cs occ profile b cs' : cursors_ok cs ->
  first_fit_bank s cs occ profile = Ok (b, cs') -> 1 <= b /\ cursors_ok cs'.
Proof.
  unfold first_fit_bank. intros Hcs H. inv_ok.
  eapply first_fit_loop_ok; [by eapply candidate_banks_ok | done | done].
Qed.

Definition state_ok (st : LayoutState) : Prop :=
  cursors_ok (st_bank_cursors st) /\ 0 <= st_rom0_cursor st /\ 1 <= st_next_strict_expert_bank st.

(** The parts of the state [choose_place] leaves alone. *)
Definition same_places (st st' : LayoutState) : Prop :=
  st_sections_out st' = st_sections_out st /\ st_occupied st' = st_occupied st
  /\ st_used_banks st' = st_used_banks st.

Lemma choose_place_ok profile st s space bank cursor st' : state_ok st ->
  choose_place profile st s = Ok (space, bank, cursor, st') ->
  space_bank_ok space bank /\ 0 <= cursor /\ state_ok st' /\ same_places st st'.
Proof.
  intros (Hcs & Hr & Hn) H. unfold choose_place in H.
  assert (Hromx : forall b cs strict, 1 <= b -> cursors_ok cs -> 1 <= strict ->
    (let '(cursor, cs) := cursor_entry b cs in
     Ok (Space_RomX, Bank_Rom b, cursor,
         MkLayoutState (st_sections_out st) (st_occupied st) (st_rom0_cursor st) cs
           (st_used_banks st) strict)) = Ok (E := LayoutError) (space, bank, cursor, st') ->
    space_bank_ok space bank /\ 0 <= cursor /\ state_ok st' /\ same_places st st').
  { intros b cs strict Hb Hc Hst He. destruct (cursor_entry b cs) as [c cs'] eqn:Hce.
    injection He as <- <- <- <-. destruct (cursor_entry_ok _ _ _ _ Hc Hb Hce). done. }
  assert (Hff : forall x, first_fit_bank s (st_bank_cursors st) (st_occupied st) profile = Ok x ->
            1 <= x.1 /\ cursors_ok x.2)
    by (intros [b cs] Hx; by apply first_fit_bank_ok in Hx).
  assert (Hst : state_ok st) by done.
  destruct (low_role s); try done;
    try (injection H as <- <- <- <-; split_and!; [done | done || lia | done | done]).
  1-2: inv_ok; destruct (Hff _ Hx); destruct x; by eapply Hromx in H.
  all: destruct profile; inv_ok; try (destruct (Hff _ Hx); destruct x; by eapply Hromx in H).
  all: apply checked_add_Some in Hx0 as [_ ->]; pose proof (next_bank_ok _ _ Hcs Hx);
    destruct (cursor_entry _ (st_bank_cursors st)) as [c cs] eqn:Hce in H;
    eapply Hromx in H; try done; try lia;
    eapply cursor_entry_ok in Hce as [_ Hce]; try done; lia.
Qed.

(** ** The two loops *)

Lemma find_section_Some sections id s : find_section sections id = Some s ->
  s ∈ sections /\ low_id s = id.
Proof.
  unfold find_section. intros H. apply fmap_Some in H as ([i s'] & H & ->).
  apply list_find_Some in H as (Hl & Hid & _). split; [|done]. by eapply list_elem_of_lookup_2.
Qed.

Lemma find_section_unique sections s : NoDup (map low_id sections) -> s ∈ sections ->
  find_section sections (low_id s) = Some s.
Proof.
  intros Hnd Hs. unfold find_section.
  destruct (list_find (fun x => low_id x = low_id s) sections) as [[i s']|] eqn:Hf.
  - apply list_find_Some in Hf as (Hl & Hid & _). simpl.
    apply list_elem_of_lookup in Hs as [j Hj].
    assert (i = j) as ->; [|congruence].
    eapply (NoDup_lookup (map low_id sections)); [done | |].
    + by rewrite list_lookup_fmap, Hl.
    + rewrite list_lookup_fmap, Hj. simpl. by rewrite Hid.
  - apply list_find_None in Hf. rewrite Forall_forall in Hf. by destruct (Hf s Hs).
Qed.

Definition pre_ok (sections : list LoweredSection) (pre : gmap SectionId PlacedSection)
    (ins : list PlacedSection) : Prop :=
  forall id p, pre !! id = Some p ->
    p ∈ ins /\ exists s, find_section sections id = Some s /\ sound_placement s p.

Lemma preplace_step_ok sections reserved occ pre ins pin occ' pre' :
  Forall lowered_ok sections -> pin_ok pin ->
  occ_inv reserved occ ins -> pre_ok sections pre ins ->
  preplace_pin sections (occ, pre) pin = Ok (occ', pre') ->
  exists ins', occ_inv reserved occ' ins' /\ pre_ok sections pre' ins'.
Proof.
  intros Hs Hpin Hocc Hpre H. unfold preplace_pin in H.
  destruct (find_section sections (pin_section_id pin)) as [s|] eqn:Hf;
    [|injection H as <- <-; eauto].
  pose proof (find_section_Some _ _ _ Hf) as [Hin Hid].
  destruct (low_interrupt_vector s); inv_ok; [eauto|].
  rewrite Forall_forall in Hs. pose proof (Hs s Hin) as Hso.
  destruct (place_at_Ok _ _ _ _ _ Hx0 Hso (proj1 (proj1 Hpin))) as (Hpf & Hsp & Hb & _).
  exists (x0 :: ins). split; [by eapply occ_inv_insert|].
  intros id p. destruct (decide (id = low_id s)) as [->|Hne].
  - rewrite lookup_insert_eq. intros [= <-]. split; [by left|]. exists s. rewrite Hid. split; [done|].
    repeat match goal with u : unit |- _ => destruct u end.
    constructor; [done | rewrite Hsp, Hb; by apply space_for_bank_ok | done].
  - rewrite lookup_insert_ne by done. intros Hp. destruct (Hpre id p Hp). split; [by right | done].
Qed.

Lemma preplace_ok sections reserved pinned : forall occ pre ins occ' pre',
  Forall lowered_ok sections -> Forall pin_ok pinned ->
  occ_inv reserved occ ins -> pre_ok sections pre ins ->
  ofold (preplace_pin sections) (occ, pre) pinned = Ok (occ', pre') ->
  exists ins', occ_inv reserved occ' ins' /\ pre_ok sections pre' ins'.
Proof.
  induction pinned as [|pin pinned IH]; intros occ pre ins occ' pre' Hs Hp Hocc Hpre H.
  - injection H as <- <-. eauto.
  - cbn [ofold] in H. inv_ok. destruct x as [occ1 pre1]. apply Forall_cons in Hp as [Hpin Hp].
    destruct (preplace_step_ok _ _ _ _ _ _ _ _ Hs Hpin Hocc Hpre Hx) as (ins1 & ? & ?). eauto.
Qed.

Record loop_inv (reserved : list ReservedRange) (done : list LoweredSection) (st : LayoutState)
    (ins : list PlacedSection) : Prop := {
  li_occ : occ_inv reserved (st_occupied st) ins;
  li_out : forall p, p ∈ st_sections_out st -> p ∈ ins;
  li_sound : Forall2 sound_placement done (st_sections_out st);
  li_state : state_ok st;
  li_used : forall p b, p ∈ st_sections_out st -> placed_bank p = Bank_Rom b ->
            b ∈ st_used_banks st;
  li_zero : 0 ∈ st_used_banks st;
}.

Lemma loop_inv_init reserved occ ins : occ_inv reserved occ ins ->
  loop_inv reserved [] (initial_layout_state occ) ins.
Proof.
  intros Hocc. constructor; simpl.
  - exact Hocc.
  - intros p Hin. by apply elem_of_nil in Hin.
  - constructor.
  - split_and!; simpl; [|lia|lia]. intros k v. by rewrite lookup_empty.
  - intros p b Hin. by apply elem_of_nil in Hin.
  - set_solver.
Qed.

Lemma advance_cursors_ok st s p : state_ok st -> sound_placement s p ->
  state_ok (advance_cursors st p)
  /\ st_sections_out (advance_cursors st p) = st_sections_out st
  /\ st_occupied (advance_cursors st p) = st_occupied st
  /\ (forall b, placed_bank p = Bank_Rom b -> b <> 0 -> b ∈ st_used_banks (advance_cursors st p))
  /\ (forall b, b ∈ st_used_banks st -> b ∈ st_used_banks (advance_cursors st p)).
Proof.
  intros Hst [Hfor Hsp _]. pose proof Hst as (Hcs & Hr & Hn). unfold advance_cursors.
  assert (Hw : 0 <= wrap U16 (cpu_end_exclusive p)) by (unfold wrap; by apply Z.mod_pos_bound).
  destruct (placed_bank p) as [b| | | | |]; try (split_and!; try done; congruence).
  assert (Hgen : 1 <= b ->
    let '(cursor, cs) := cursor_entry b (st_bank_cursors st) in
    cursors_ok (<[b := Z.max cursor (wrap U16 (cpu_end_exclusive p))]> cs)).
  { intros Hb. destruct (cursor_entry b (st_bank_cursors st)) as [c cs] eqn:Hce.
    destruct (cursor_entry_ok _ _ _ _ Hcs Hb Hce) as [Hc Hcs'].
    intros k v. destruct (decide (k = b)) as [->|].
    - rewrite lookup_insert_eq. intros [= <-]. lia.
    - rewrite lookup_insert_ne by done. apply Hcs'. }
  destruct (decide (b = 0)) as [->|Hb0].
  { split_and!; try done; [split_and!; cbn; [done | lia | done] | by intros b [= <-]]. }
  assert (Hb1 : 1 <= b) by (destruct (placed_space p); simpl in Hsp; lia).
  specialize (Hgen Hb1). destruct (cursor_entry b (st_bank_cursors st)) as [c cs].
  destruct b as [|b|b]; [lia | | lia].
  split_and!; try done; [intros b' [= <-] _; set_solver | intros b' Hb'; simpl; set_solver].
Qed.

Lemma push_placed_inv reserved done st ins s p occ' ins' :
  loop_inv reserved done st ins -> sound_placement s p ->
  occ_inv reserved occ' ins' -> p ∈ ins' -> (forall q, q ∈ ins -> q ∈ ins') ->
  (forall b, placed_bank p = Bank_Rom b -> b ∈ st_used_banks st) ->
  loop_inv reserved (done ++ [s]) (push_placed st occ' p) ins'.
Proof.
  intros [] Hsp Hocc Hin Hsub Hused. constructor; simpl; try done.
  - intros q [Hq|Hq%list_elem_of_singleton]%elem_of_app; [auto | by subst].
  - apply Forall2_app; [done | by constructor].
  - intros q b [Hq|Hq%list_elem_of_singleton]%elem_of_app Hb; [eauto | subst; auto].
Qed.

Lemma layout_step_ok sections profile pinned pre reserved done st ins s st' :
  lowered_ok s -> find_section sections (low_id s) = Some s -> pre_ok sections pre ins ->
  loop_inv reserved done st ins -> layout_step profile pinned pre st s = Ok st' ->
  exists ins', loop_inv reserved (done ++ [s]) st' ins' /\ forall p, p ∈ ins -> p ∈ ins'.
Proof.
  intros Hs Hfind Hpre Hinv H. unfold layout_step in H. inv_ok.
  destruct (bool_decide (low_role s = Role_InterruptVector)); inv_ok.
  - match goal with Hv : place_interrupt_vector s = Ok _ |- _ =>
      destruct (place_interrupt_vector_Ok _ _ Hs Hv) as (Hsp & Hb & _) end.
    exists (x :: ins). split; [|by right].
    eapply push_placed_inv; [exact Hinv | done | | by left | by right |].
    + eapply occ_inv_insert; [apply Hinv | done].
    + intros b Hb'. rewrite Hb in Hb'. injection Hb' as <-. apply Hinv.
  - destruct x as [[placed is_pinned] st1]. inv_ok.
    repeat match goal with u : unit |- _ => destruct u end.
    assert (Hplaced : sound_placement s placed /\ state_ok st1 /\ same_places st st1
              /\ (is_pinned = true -> placed ∈ ins)
              /\ st_occupied st1 = st_occupied st).
    { destruct (pinned !! low_id s).
      - inv_ok. match goal with Hp : pre !! _ = Some _ |- _ =>
          destruct (Hpre _ _ Hp) as (Hin & s' & Hf' & Hsp) end.
        assert (s' = s) as -> by congruence. split_and!; try done. apply Hinv.
      - inv_ok. destruct x as [[[space bank] cursor] st2]. inv_ok.
        match goal with Hp : choose_place _ _ _ = Ok _ |- _ =>
          destruct (choose_place_ok _ _ _ _ _ _ _ (li_state _ _ _ _ Hinv) Hp)
            as (Hsb & Hc & Hst & Hsame) end.
        match goal with Hp : place_next _ _ _ _ _ _ = Ok _ |- _ =>
          destruct (place_next_Ok _ _ _ _ _ _ _ Hs Hc Hp) as (Hpf & Hsp & Hb & _ & _ & _) end.
        split_and!; try done; [constructor; rewrite ?Hsp, ?Hb; done | apply Hsame]. }
    destruct Hplaced as (Hsp & Hst1 & (Hout & Hocc1 & Hused1) & Hpin & _).
    destruct (advance_cursors_ok st1 s placed Hst1 Hsp) as (Hsta & Houta & Hocca & Hua & Hub).
    assert (Hinv1 : loop_inv reserved done (advance_cursors st1 placed) ins).
    { destruct Hinv. constructor; rewrite ?Houta, ?Hocca, ?Hout, ?Hocc1; try done.
      - intros p b Hp Hb. apply Hub. rewrite Hused1. eauto.
      - apply Hub. by rewrite Hused1. }
    assert (Hub0 : forall b, placed_bank placed = Bank_Rom b -> b ∈ st_used_banks (advance_cursors st1 placed)).
    { intros b Hb. destruct (decide (b = 0)) as [->|]; [apply Hinv1 | by apply Hua]. }
    destruct is_pinned; inv_ok.
    + exists ins. split; [|done].
      eapply push_placed_inv; [exact Hinv1 | done | apply Hinv1 | by apply Hpin | done | done].
    + exists (placed :: ins). split; [|by right].
      eapply push_placed_inv; [exact Hinv1 | done | | by left | by right | done].
      eapply occ_inv_insert; [apply Hinv1 | done].
Qed.

Lemma layout_loop_ok sections profile pinned pre reserved : forall todo done st ins st',
  Forall lowered_ok todo -> (forall s, s ∈ todo -> find_section sections (low_id s) = Some s) ->
  pre_ok sections pre ins -> loop_inv reserved done st ins ->
  ofold (layout_step profile pinned pre) st todo = Ok st' ->
  exists ins', loop_inv reserved (done ++ todo) st' ins'.
Proof.
  induction todo as [|s todo IH]; intros done st ins st' Hs Hfind Hpre Hinv H.
  - injection H as <-. rewrite app_nil_r. eauto.
  - cbn [ofold] in H. inv_ok. apply Forall_cons in Hs as [Hso Hs].
    destruct (layout_step_ok sections profile pinned pre reserved done st ins s x Hso
                ltac:(apply Hfind; by left) Hpre Hinv Hx) as (ins1 & Hinv1 & Hsub).
    replace (done ++ s :: todo) with ((done ++ [s]) ++ todo) by by rewrite <- app_assoc.
    eapply IH; [done | | | exact Hinv1 | done].
    + intros s' Hs'. apply Hfind. by right.
    + intros id p Hp. destruct (Hpre id p Hp). split; [by apply Hsub | done].
Qed.

(** ** The plan *)

Lemma next_pow2_ge fuel : forall p n, 0 < p -> n <= p * 2 ^ Z.of_nat fuel ->
  n <= next_pow2_loop fuel p n.
Proof.
  induction fuel as [|fuel IH]; intros p n Hp Hn; simpl; [simpl in Hn; lia|].
  destruct (Z.leb_spec n p); [done|]. apply IH; [lia|].
  rewrite Nat2Z.inj_succ, Z.pow_succ_r in Hn by lia. lia.
Qed.

Lemma sorted_last_max l x : x ∈ l -> exists m, last (sort_by Z.leb l) = Some m /\ x <= m.
Proof.
  intros Hx. rewrite <- (elem_of_sort_by Z.leb) in Hx.
  pose proof (sort_by_sorted Z.leb ltac:(intros; lia) ltac:(intros; lia) l) as Hs.
  revert x Hx. induction Hs as [|y l' Hs IH Hall]; intros x Hx; [by apply elem_of_nil in Hx|].
  destruct l' as [|z l'].
  - apply list_elem_of_singleton in Hx as ->. simpl. exists y. split; [done | lia].
  - apply elem_of_cons in Hx as [->|Hx]; [|by apply IH].
    destruct (IH z ltac:(by left)) as (m & Hm & Hzm). exists m. split; [exact Hm|].
    apply Forall_cons in Hall as [Hyz%Z.leb_le _]. lia.
Qed.

Lemma layout_Ok_inv sections profile pinned plan :
  Forall lowered_ok sections -> Forall pin_ok pinned -> NoDup (map low_id sections) ->
  layout_into_banks sections profile pinned = Ok plan ->
  exists st ins, loop_inv (plan_reserved_ranges plan) sections st ins
    /\ plan_sections plan = st_sections_out st
    /\ forall b, b ∈ st_used_banks st -> b < plan_bank_count plan.
Proof.
  intros Hs Hp Hnd H. unfold layout_into_banks in H. inv_ok. destruct x2 as [occ pre]. inv_ok.
  simpl. set (reserved := x1 ++ map user_pinned_range pinned) in *.
  destruct (preplace_ok sections reserved pinned _ _ [] _ _ Hs Hp (occ_inv_init reserved)
              ltac:(by intros ? ?; rewrite lookup_empty) Hx2) as (ins & Hocc & Hpre).
  assert (Hinit : loop_inv reserved [] (initial_layout_state occ) ins) by by apply loop_inv_init.
  destruct (layout_loop_ok sections profile x pre reserved sections [] _ ins _ Hs
              ltac:(intros s Hin; by apply find_section_unique) Hpre Hinit Hx3) as (ins' & Hinv).
  eexists _, ins'. split; [exact Hinv|]. split; [done|]. intros b Hb.
  match goal with Hu : uadd _ _ _ = Ok ?n, Hn : next_power_of_two16 ?n = Ok _ |- _ =>
    rename Hu into Hcount; rename Hn into Hpow end.
  destruct (sorted_last_max (elements (st_used_banks x2)) b ltac:(by apply elem_of_elements))
    as (m & Hm & Hbm).
  rewrite Hm in Hcount. simpl in Hcount. apply uadd_Ok in Hcount as [Hlt ->].
  unfold next_power_of_two16 in Hpow.
  assert (Hm17 : m + 1 <= 1 * 2 ^ Z.of_nat 17) by (change (2 ^ Z.of_nat 17) with 131072; lia).
  pose proof (next_pow2_ge 17 1 (m + 1) eq_refl Hm17) as Hge. revert Hpow Hge.
  generalize (next_pow2_loop 17 1 (m + 1)) as np. intros np Hpow Hge.
  destruct (np <? U16); [|done]. injection Hpow as <-. cbn [plan_bank_count]. lia.
Qed.

(** The addresses of a space. *)
Definition space_window (space : AddressSpace) : Z * Z :=
  match space with
  | Space_Rom0 => (0x0000, 0x4000)
  | Space_RomX => (0x4000, 0x8000)
  | Space_Wram => (0xC000, 0xE000)
  | Space_Hram => (0xFF80, 0x10000)
  | Space_Sram => (0xA000, 0xC000)
  | Space_Vram => (0x8000, 0xA000)
  | Space_Oam => (0xFE00, 0xFEA0)
  end.

Lemma sound_in_window s p : sound_placement s p ->
  (space_window (placed_space p)).1 <= placed_cpu_start p
  /\ cpu_end_exclusive p <= (space_window (placed_space p)).2.
Proof.
  intros [[] _ Hv]. unfold validate_placed in Hv.
  destruct (placed_space p); simpl in Hv |- *; apply guard_err_Ok in Hv as [Hv _];
    rewrite ?orb_false_iff, ?Z.ltb_ge in Hv; unfold ROM0_END_EXCLUSIVE, ROMX_START, ROMX_END_EXCLUSIVE in *; lia.
Qed.

Lemma rom_offset_in_window p b : space_bank_ok (placed_space p) (placed_bank p) ->
  (space_window (placed_space p)).1 <= placed_cpu_start p ->
  cpu_end_exclusive p <= (space_window (placed_space p)).2 ->
  placed_bank p = Bank_Rom b -> 0 < placed_final_size p ->
  rom_file_offset p = Ok (Some (b * 0x4000 + placed_cpu_start p mod 0x4000))
  /\ 0 <= b /\ placed_cpu_start p mod 0x4000 + placed_final_size p <= 0x4000.
Proof.
  intros Hspace Hlo Hhi Hb Hsize. unfold rom_file_offset, cpu_end_exclusive in *.
  rewrite Hb in *.
  destruct (placed_space p); simpl in Hspace, Hlo, Hhi; try done.
  - subst b. unfold ROM0_END_EXCLUSIVE in *.
    rewrite (proj2 (Z.leb_gt _ _)) by lia. cbn [guard_err obind].
    rewrite (proj2 (Z.ltb_ge _ _)) by lia. cbn [guard_err obind].
    rewrite Z.mod_small by lia. split_and!; [done | lia | lia].
  - assert (Hm : placed_cpu_start p mod 0x4000 = placed_cpu_start p - 0x4000).
    { symmetry. apply (Zmod_unique _ _ 1); lia. }
    rewrite Hm. rewrite (proj2 (Z.leb_le 1 b)) by lia.
    unfold ROMX_START, ROMX_END_EXCLUSIVE, ROM_BANK_SIZE.
    rewrite (proj2 (Z.leb_le 0x4000 _)) by lia. rewrite (proj2 (Z.ltb_lt _ 0x8000)) by lia.
    cbn [negb andb guard_err obind]. rewrite (proj2 (Z.ltb_ge 0x8000 _)) by lia.
    cbn [guard_err obind]. destruct b as [|b|b]; [lia| |lia].
    split_and!; [done | lia | lia].
Qed.

Lemma rom_offset_sound s p b : sound_placement s p -> placed_bank p = Bank_Rom b ->
  0 < placed_final_size p ->
  rom_file_offset p = Ok (Some (b * 0x4000 + placed_cpu_start p mod 0x4000))
  /\ 0 <= b /\ placed_cpu_start p mod 0x4000 + placed_final_size p <= 0x4000.
Proof.
  intros Hsp. pose proof (sound_in_window s p Hsp) as [Hlo Hhi].
  by apply rom_offset_in_window; [apply (sp_space s p Hsp) | |].
Qed.

Lemma placed_ids sections (st : list PlacedSection) :
  Forall2 sound_placement sections st -> map placed_id st = map low_id sections.
Proof.
  induction 1 as [|s p ss ps [Hf _ _] _ IH]; [done|]. simpl. rewrite IH. by destruct Hf as [-> _].
Qed.

Lemma ids_distinct (ps : list PlacedSection) i j p q : NoDup (map placed_id ps) ->
  ps !! i = Some p -> ps !! j = Some q -> i <> j -> p <> q.
Proof.
  intros Hnd Hp Hq Hij ->. apply Hij. eapply (NoDup_lookup (map placed_id ps)); [done | |].
  - by rewrite list_lookup_fmap, Hp.
  - by rewrite list_lookup_fmap, Hq.
Qed.

(** [rom_file_offset] answers only for ROM placements. *)
Lemma rom_bank_of s p off : sound_placement s p -> rom_file_offset p = Ok (Some off) ->
  exists b, placed_bank p = Bank_Rom b.
Proof.
  intros [_ Hsp _] H. unfold rom_file_offset in H.
  destruct (placed_space p), (placed_bank p); simpl in *; try done; eauto.
Qed.

(** Within a bank, disjoint CPU ranges are disjoint file ranges. *)
Lemma same_bank_offsets s t p q b : sound_placement s p -> sound_placement t q ->
  placed_bank p = Bank_Rom b -> placed_bank q = Bank_Rom b ->
  0 < placed_final_size p -> 0 < placed_final_size q ->
  disjoint_ranges (placed_range p) (placed_range q) ->
  disjoint_ranges
    (placed_cpu_start p mod 0x4000, placed_cpu_start p mod 0x4000 + placed_final_size p)
    (placed_cpu_start q mod 0x4000, placed_cpu_start q mod 0x4000 + placed_final_size q).
Proof.
  assert (Hwin : forall s p, sound_placement s p -> placed_bank p = Bank_Rom b ->
    0 < placed_final_size p ->
    placed_cpu_start p mod 0x4000 = placed_cpu_start p - (if b =? 0 then 0 else 0x4000)).
  { clear. intros s p Hsp Hb Hsz. pose proof (sound_in_window s p Hsp) as [Hlo Hhi].
    pose proof (sp_space s p Hsp) as Hspace. unfold cpu_end_exclusive in Hhi. rewrite Hb in Hspace.
    destruct (placed_space p); simpl in Hspace, Hlo, Hhi; try done.
    - subst b. simpl. rewrite Z.mod_small; lia.
    - destruct (Z.eqb_spec b 0); [lia|]. symmetry. apply (Zmod_unique _ _ 1); lia. }
  intros Hsp Htq Hb Hc Hp Hq. rewrite (Hwin s p), (Hwin t q) by done.
  unfold disjoint_ranges, placed_range, cpu_end_exclusive; simpl. lia.
Qed.

(** ** Termination of the whole layout *)

Lemma next_bank_not_NoFuel cs : next_bank cs <> NoFuel.
Proof. unfold next_bank, uadd. by destruct (_ <? _). Qed.

Lemma usub_not_NoFuel {E} a b : @usub E a b <> NoFuel.
Proof. unfold usub. by destruct (_ <=? _). Qed.

Lemma validate_placed_not_NoFuel p : validate_placed p <> NoFuel.
Proof. unfold validate_placed. destruct (placed_space p); simpl; by destruct (_ || _) || destruct (_ <? _). Qed.

Lemma insert_occupied_not_NoFuel occ p : insert_occupied occ p <> NoFuel.
Proof. unfold insert_occupied. by destruct (first_overlap p occ). Qed.

Lemma place_interrupt_vector_not_NoFuel s : place_interrupt_vector s <> NoFuel.
Proof.
  unfold place_interrupt_vector. destruct (low_interrupt_vector s); cbn [ok_or obind]; [|done].
  destruct (place_at _ _ _ _) eqn:E; cbn [obind]; try done; [|by apply place_at_not_NoFuel in E].
  destruct (negb _); cbn [guard_err obind]; [done|]. destruct (_ <? _); cbn [guard_err obind]; [done|].
  destruct (validate_placed a) eqn:Ev; cbn [obind]; try done. by apply validate_placed_not_NoFuel in Ev.
Qed.

Lemma first_fit_loop_not_NoFuel l s occ profile : lowered_ok s -> Forall (fun b => 1 <= b) l ->
  forall cs, cursors_ok cs -> first_fit_loop l s cs occ profile <> NoFuel.
Proof.
  intros Hs. induction 1 as [|b l Hb _ IH]; intros cs Hcs; simpl; [done|].
  destruct (cursor_entry b cs) as [c cs'] eqn:Hce.
  destruct (cursor_entry_ok _ _ _ _ Hcs Hb Hce) as [Hc Hcs'].
  destruct (place_next _ _ _ _ _ _) eqn:E; cbn [obind]; try done;
    [|by apply place_next_not_NoFuel in E].
  destruct (usub _ _) eqn:Eu; cbn [obind]; try done; [|by apply usub_not_NoFuel in Eu].
  destruct (_ <=? _); [done | by apply IH].
Qed.

Lemma first_fit_bank_not_NoFuel s cs occ profile : lowered_ok s -> cursors_ok cs ->
  first_fit_bank s cs occ profile <> NoFuel.
Proof.
  intros Hs Hcs. unfold first_fit_bank.
  destruct (candidate_banks cs) eqn:E; cbn [obind]; try done.
  - apply first_fit_loop_not_NoFuel; [done | by eapply candidate_banks_ok | done].
  - unfold candidate_banks in E. destruct (bool_decide _); [done|].
    destruct (next_bank cs) eqn:En; try done. by apply next_bank_not_NoFuel in En.
Qed.

Lemma choose_place_not_NoFuel profile st s : lowered_ok s -> state_ok st ->
  choose_place profile st s <> NoFuel.
Proof.
  intros Hs (Hcs & _ & _). unfold choose_place.
  assert (Hff : first_fit_bank s (st_bank_cursors st) (st_occupied st) profile <> NoFuel)
    by by apply first_fit_bank_not_NoFuel.
  destruct (low_role s); try done.
  1-2: destruct (first_fit_bank _ _ _ _) as [[b cs]|e| |]; cbn [obind]; try done;
    by destruct (cursor_entry b cs).
  all: destruct profile;
    try (destruct (first_fit_bank _ _ _ _) as [[b cs]|e| |]; cbn [obind]; try done;
         by destruct (cursor_entry b cs)).
  all: destruct (next_bank _) eqn:En; cbn [obind]; try done; try (by apply next_bank_not_NoFuel in En);
    destruct (checked_add _ _ _); cbn [ok_or obind]; try done;
    by destruct (cursor_entry _ (cursor_entry _ _).2).
Qed.

Lemma layout_step_not_NoFuel profile pinned pre st s : lowered_ok s -> state_ok st ->
  layout_step profile pinned pre st s <> NoFuel.
Proof.
  intros Hs Hst. unfold layout_step.
  destruct (bool_decide _); cbn [guard_err obind]; [done|].
  destruct (bool_decide (low_role s = Role_InterruptVector)).
  - destruct (place_interrupt_vector s) eqn:E; cbn [obind]; try done;
      [|by apply place_interrupt_vector_not_NoFuel in E].
    destruct (insert_occupied _ _) eqn:Ei; cbn [obind]; try done. by apply insert_occupied_not_NoFuel in Ei.
  - assert (Htail : forall placed is_pinned st1,
      obind (validate_placed placed) (fun _ => obind (guard_thunk_pool placed) (fun _ =>
        let st2 := advance_cursors st1 placed in
        obind (if (is_pinned : bool) then Ok (st_occupied st2)
               else insert_occupied (st_occupied st2) placed)
          (fun occ => Ok (push_placed st2 occ placed)))) <> NoFuel).
    { intros placed is_pinned st1.
      destruct (validate_placed placed) eqn:Ev; cbn [obind]; try done;
        [|by apply validate_placed_not_NoFuel in Ev].
      unfold guard_thunk_pool, guard_err. destruct (_ && _); cbn [obind]; [done|].
      destruct is_pinned; cbn [obind]; [done|].
      destruct (insert_occupied _ _) eqn:Ei; cbn [obind]; try done. by apply insert_occupied_not_NoFuel in Ei. }
    destruct (pinned !! low_id s).
    + destruct (pre !! low_id s); cbn [expect obind]; [exact (Htail _ true st) | done].
    + destruct (choose_place profile st s) as [[[[space bank] cursor] st1]|e| |] eqn:Ec; cbn [obind]; try done;
        [|by apply choose_place_not_NoFuel in Ec].
      destruct (choose_place_ok _ _ _ _ _ _ _ Hst Ec) as (_ & Hc & _).
      destruct (place_next _ _ _ _ _ _) eqn:E; cbn [obind]; try done;
        [exact (Htail _ false st1) | by apply place_next_not_NoFuel in E].
Qed.

Lemma layout_loop_not_NoFuel sections profile pinned pre reserved : forall todo done st ins,
  Forall lowered_ok todo -> (forall s, s ∈ todo -> find_section sections (low_id s) = Some s) ->
  pre_ok sections pre ins -> loop_inv reserved done st ins ->
  ofold (layout_step profile pinned pre) st todo <> NoFuel.
Proof.
  induction todo as [|s todo IH]; intros done st ins Hs Hfind Hpre Hinv; [discriminate|].
  cbn [ofold]. apply Forall_cons in Hs as [Hso Hs].
  destruct (layout_step profile pinned pre st s) as [st1|e| |] eqn:E; cbn [obind]; try discriminate.
  - destruct (layout_step_ok sections profile pinned pre reserved done st ins s st1 Hso
                ltac:(apply Hfind; by left) Hpre Hinv E) as (ins1 & Hinv1 & Hsub).
    eapply IH; [done | | | exact Hinv1].
    + intros s' Hs'. apply Hfind. by right.
    + intros id p Hp. destruct (Hpre id p Hp). split; [by apply Hsub | done].
  - exfalso. eapply layout_step_not_NoFuel; [exact Hso | apply Hinv | exact E].
Qed.

Lemma ofold_not_NoFuel {E A S} (step : S -> A -> outcome E S) l : forall s,
  (forall s x, step s x <> NoFuel) -> ofold step s l <> NoFuel.
Proof.
  induction l as [|x l IH]; intros s H; [discriminate|]. cbn [ofold].
  destruct (step s x) eqn:Es; cbn [obind]; try discriminate; [by apply IH | by apply H in Es].
Qed.

Lemma omapM_not_NoFuel {E A B} (f : A -> outcome E B) l :
  (forall x, f x <> NoFuel) -> omapM f l <> NoFuel.
Proof.
  intros H. induction l as [|x l IH]; [discriminate|]. cbn [omapM].
  destruct (f x) eqn:Ef; cbn [obind]; try discriminate; [|by apply H in Ef].
  destruct (omapM f l); cbn [obind]; congruence.
Qed.

Lemma preplace_pin_not_NoFuel sections st pin : preplace_pin sections st pin <> NoFuel.
Proof.
  unfold preplace_pin. destruct st as [occ pre].
  destruct (find_section _ _) as [s|]; [|discriminate].
  destruct (low_interrupt_vector s); [by destruct (negb _)|].
  destruct (bool_decide _); cbn [guard_err obind]; [discriminate|].
  destruct (place_at _ _ _ _) eqn:E; cbn [obind]; try discriminate; [|by apply place_at_not_NoFuel in E].
  destruct (validate_placed a) eqn:Ev; cbn [obind]; try discriminate;
    [|by apply validate_placed_not_NoFuel in Ev].
  unfold guard_thunk_pool, guard_err. destruct (_ && _); cbn [obind]; [discriminate|].
  destruct (insert_occupied _ _) eqn:Ei; cbn [obind]; try discriminate.
  by apply insert_occupied_not_NoFuel in Ei.
Qed.

Lemma base_reserved_not_NoFuel sections vs : base_reserved_ranges sections vs <> NoFuel.
Proof.
  unfold base_reserved_ranges. change (usub (InterruptVectorSlot_address _) 1) with (Ok (E:=LayoutError) 0x3F).
  change (usub ROM0_END_EXCLUSIVE 1) with (Ok (E:=LayoutError) 0x3FFF). cbn [obind].
  destruct (omapM _ _) eqn:Em; cbn [obind]; try discriminate.
  exfalso. revert Em. apply omapM_not_NoFuel. intros slot. unfold vector_reserved.
  destruct (usub _ 1) eqn:Eu; cbn [obind]; try discriminate; [|by apply usub_not_NoFuel in Eu].
  destruct (vs !! slot); [|discriminate].
  destruct (find_section _ _) as [sec|]; cbn [expect obind]; [|discriminate].
  destruct (place_interrupt_vector sec) eqn:Ep; cbn [obind]; try discriminate;
    [|by apply place_interrupt_vector_not_NoFuel in Ep].
  destruct (_ <? _); [|discriminate]. unfold uadd. by destruct (_ <? _).
Qed.

Lemma layout_not_NoFuel sections profile pinned :
  Forall lowered_ok sections -> Forall pin_ok pinned -> NoDup (map low_id sections) ->
  layout_into_banks sections profile pinned <> NoFuel.
Proof.
  intros Hs Hp Hnd. unfold layout_into_banks.
  destruct (pinned_map pinned) as [pm| | |] eqn:E1; cbn [obind]; try discriminate.
  2: { exfalso. revert E1. apply ofold_not_NoFuel. intros m pin. by destruct (m !! _). }
  destruct (interrupt_vector_sections sections) as [vs| | |] eqn:E2; cbn [obind]; try discriminate.
  2: { unfold interrupt_vector_sections in E2.
       destruct (ofold _ _ _) as [[]| | |] eqn:E; try discriminate. exfalso. revert E.
       apply ofold_not_NoFuel. intros [m o] s. unfold vector_section_step.
       repeat case_match; discriminate. }
  destruct (base_reserved_ranges sections vs) as [base| | |] eqn:E3; cbn [obind]; try discriminate;
    [|by apply base_reserved_not_NoFuel in E3].
  set (reserved := base ++ map user_pinned_range pinned).
  destruct (ofold (preplace_pin sections) _ pinned) as [[occ pre]| | |] eqn:E4; cbn [obind];
    try discriminate; [|exfalso; revert E4; apply ofold_not_NoFuel, preplace_pin_not_NoFuel].
  destruct (preplace_ok sections reserved pinned _ _ [] _ _ Hs Hp (occ_inv_init reserved)
              ltac:(by intros ? ?; rewrite lookup_empty) E4) as (ins & Hocc & Hpre).
  assert (Hinit : loop_inv reserved [] (initial_layout_state occ) ins) by by apply loop_inv_init.
  destruct (ofold (layout_step _ _ _) _ _) as [st| | |] eqn:E5; cbn [obind]; try discriminate.
  2: { exfalso. revert E5. eapply layout_loop_not_NoFuel; [done | | exact Hpre | exact Hinit].
       intros s Hin. by apply find_section_unique. }
  assert (Hfree : free_bytes st <> NoFuel).
  { unfold free_bytes. destruct (usub _ (st_rom0_cursor st)) eqn:Eu; cbn [obind]; try discriminate.
    - apply ofold_not_NoFuel. intros m b. destruct (usub _ (default _ _)) eqn:Eb; cbn [obind]; try discriminate.
      by apply usub_not_NoFuel in Eb.
    - by apply usub_not_NoFuel in Eu. }
  destruct (free_bytes st); cbn [obind]; try discriminate; [|done].
  unfold uadd. destruct (_ <? _); cbn [obind]; [|discriminate].
  unfold next_power_of_two16. by destruct (_ <? _).
Qed.

(** ** Correctness of the plan *)

Section plan_properties.
  Context (sections : list LoweredSection) (profile : PlacementProfile)
    (pinned : list PinnedPlacement).

(** C1: A successful layout places every section exactly once and in the order
    given: the placement keeps the section's id, starts at a multiple of its
    alignment, has the size the section has at that address, sits in a bank of
    its address space and inside the window of CPU addresses of that space. *)
Theorem layout_sound plan :
  Forall lowered_ok sections -> Forall pin_ok pinned -> NoDup (map low_id sections) ->
  layout_into_banks sections profile pinned = Ok plan ->
  Forall2 (fun s p =>
      placed_id p = low_id s /\ placed_cpu_start p mod low_align s = 0
      /\ section_size_from s (placed_cpu_start p)
         = Ok (placed_final_size p, placed_alignment_padding p)
      /\ space_bank_ok (placed_space p) (placed_bank p)
      /\ (space_window (placed_space p)).1 <= placed_cpu_start p
      /\ cpu_end_exclusive p <= (space_window (placed_space p)).2)
    sections (plan_sections plan).
Proof.
  intros Hs Hp Hnd H. destruct (layout_Ok_inv _ _ _ _ Hs Hp Hnd H) as (st & ins & Hinv & -> & _).
  eapply Forall2_impl; [apply (li_sound _ _ _ _ Hinv)|]. intros s p Hsp.
  pose proof (sound_in_window s p Hsp) as [? ?]. destruct Hsp as [[] ? _]. by split_and!.
Qed.


(** C3: The ROM image the plan describes is well formed: every non-empty ROM
    section has a file offset, its bytes end inside the [bank_count] banks of
    the image, and two ROM sections have disjoint byte ranges in the file. *)
Theorem layout_rom_image plan i p b :
  Forall lowered_ok sections -> Forall pin_ok pinned -> NoDup (map low_id sections) ->
  layout_into_banks sections profile pinned = Ok plan ->
  plan_sections plan !! i = Some p -> placed_bank p = Bank_Rom b -> 0 < placed_final_size p ->
  exists off, rom_file_offset p = Ok (Some off)
    /\ 0 <= off /\ off + placed_final_size p <= plan_bank_count plan * ROM_BANK_SIZE
    /\ forall j q offq, plan_sections plan !! j = Some q -> i <> j -> 0 < placed_final_size q ->
         rom_file_offset q = Ok (Some offq) ->
         disjoint_ranges (off, off + placed_final_size p) (offq, offq + placed_final_size q).
Proof.
  intros Hs Hp Hnd H. destruct (layout_Ok_inv _ _ _ _ Hs Hp Hnd H) as (st & ins & Hinv & -> & Hbc).
  intros Hi Hb Hsz. destruct (Forall2_lookup_r _ _ _ _ _ (li_sound _ _ _ _ Hinv) Hi) as (s & _ & Hsp).
  destruct (rom_offset_sound s p b Hsp Hb Hsz) as (Hoff & Hb0 & Hend).
  pose proof (Z.mod_pos_bound (placed_cpu_start p) 0x4000 ltac:(lia)) as Hmod.
  exists (b * 0x4000 + placed_cpu_start p mod 0x4000). split; [done|].
  assert (b < plan_bank_count plan)
    by (apply Hbc, (li_used _ _ _ _ Hinv p b); [by eapply list_elem_of_lookup_2 | done]).
  unfold ROM_BANK_SIZE. split_and!; [lia | nia |].
  intros j q offq Hj Hij Hszq Hoffq.
  destruct (Forall2_lookup_r _ _ _ _ _ (li_sound _ _ _ _ Hinv) Hj) as (t & _ & Htq).
  destruct (rom_bank_of t q offq Htq Hoffq) as [c Hc].
  destruct (rom_offset_sound t q c Htq Hc Hszq) as (Hoffq' & Hc0 & Hendq).
  rewrite Hoffq in Hoffq'. injection Hoffq' as ->.
  pose proof (Z.mod_pos_bound (placed_cpu_start q) 0x4000 ltac:(lia)) as Hmodq.
  destruct (Z.lt_trichotomy b c) as [Hlt|[<-|Hlt]]; unfold disjoint_ranges; simpl; [nia| |nia].
  assert (Hd : disjoint_ranges (placed_range p) (placed_range q)).
  { apply (oi_disjoint _ _ _ (li_occ _ _ _ _ Hinv)).
    - by eapply (li_out _ _ _ _ Hinv), list_elem_of_lookup_2.
    - by eapply (li_out _ _ _ _ Hinv), list_elem_of_lookup_2.
    - eapply ids_distinct; [|exact Hi | exact Hj | exact Hij].
      by rewrite (placed_ids sections) by apply (li_sound _ _ _ _ Hinv).
    - by rewrite Hb, Hc. }
  apply (same_bank_offsets s t p q b Hsp Htq Hb Hc) in Hd; [|done..].
  unfold disjoint_ranges in Hd; simpl in Hd. lia.
Qed.

(** Laying out sections always ends with a plan, a layout error or an
    arithmetic panic: the retry loop never exhausts one attempt per occupied
    range of its bank. *)
Theorem layout_terminates :
  Forall lowered_ok sections -> Forall pin_ok pinned -> NoDup (map low_id sections) ->
  layout_into_banks sections profile pinned <> NoFuel.
Proof. apply layout_not_NoFuel. Qed.

End plan_properties.

(** ** The reserved areas of bank 0 *)

Lemma base_reserved_fixed sections vs base : base_reserved_ranges sections vs = Ok base ->
  MkReservedRange (Bank_Rom 0) 0x0000 0x003F Res_ResetVector ∈ base
  /\ MkReservedRange (Bank_Rom 0) 0x0100 0x014F Res_CartridgeHeader ∈ base
  /\ MkReservedRange (Bank_Rom 0) 0x3F00 0x3FFF Res_ThunkPool ∈ base.
Proof.
  unfold base_reserved_ranges.
  change (usub (InterruptVectorSlot_address _) 1) with (Ok (E:=LayoutError) 0x3F).
  change (usub ROM0_END_EXCLUSIVE 1) with (Ok (E:=LayoutError) 0x3FFF).
  cbn [obind]. intros H. inv_ok. split_and!; [by left | |].
  - right. apply elem_of_app. right. right. by left.
  - right. apply elem_of_app. right. right. right. by left.
Qed.

Lemma plan_reserved_ranges_base sections profile pinned plan :
  layout_into_banks sections profile pinned = Ok plan ->
  exists vs base, base_reserved_ranges sections vs = Ok base
    /\ plan_reserved_ranges plan = base ++ map user_pinned_range pinned.
Proof.
  unfold layout_into_banks. intros H. inv_ok. destruct x2 as [occ pre]. inv_ok. eauto.
Qed.

(** Whatever is placed or pinned in ROM bank 0, no section covers a byte
    of the reset vectors, of the cartridge header at 0x0100-0x014F or of the
    thunk pool at 0x3F00-0x3FFF. *)
Theorem header_and_thunk_pool_untouched sections profile pinned plan p :
  Forall lowered_ok sections -> Forall pin_ok pinned -> NoDup (map low_id sections) ->
  layout_into_banks sections profile pinned = Ok plan ->
  In p (plan_sections plan) -> placed_bank p = Bank_Rom 0 ->
  0x0040 <= placed_cpu_start p
  /\ (cpu_end_exclusive p <= 0x0100 \/ 0x0150 <= placed_cpu_start p)
  /\ cpu_end_exclusive p <= 0x3F00 \/ placed_final_size p = 0.
Proof.
  intros Hs Hp Hnd H Hin%list_elem_of_In Hb.
  destruct (plan_reserved_ranges_base _ _ _ _ H) as (vs & base & Hbase & Hres).
  destruct (base_reserved_fixed _ _ _ Hbase) as (Hreset & Hheader & Hpool).
  destruct (layout_Ok_inv _ _ _ _ Hs Hp Hnd H) as (st & ins & Hinv & Hplan & _).
  rewrite Hplan in Hin.
  assert (Hdis : forall r, r ∈ base -> is_user_pinned r = false -> rr_bank r = Bank_Rom 0 ->
    disjoint_ranges (placed_range p) (reserved_range r)).
  { intros r Hr Hu Hrb. apply (oi_reserved_disjoint _ _ _ (li_occ _ _ _ _ Hinv)); try done.
    - by apply (li_out _ _ _ _ Hinv).
    - rewrite Hres. apply elem_of_app. by left.
    - by rewrite Hb, Hrb. }
  destruct (proj1 (list_elem_of_lookup _ _) Hin) as [i Hi].
  destruct (Forall2_lookup_r _ _ _ _ _ (li_sound _ _ _ _ Hinv) Hi) as (s & _ & Hsp).
  pose proof (sound_in_window s p Hsp) as [Hlo Hhi]. pose proof (sp_space s p Hsp) as Hspace.
  pose proof (pf_size_bound s p (sp_for s p Hsp)) as Hsz.
  pose proof (Hdis _ Hreset eq_refl eq_refl) as H1. pose proof (Hdis _ Hheader eq_refl eq_refl) as H2.
  pose proof (Hdis _ Hpool eq_refl eq_refl) as H3.
  rewrite Hb in Hspace. unfold disjoint_ranges, placed_range, reserved_range, cpu_end_exclusive in *.
  destruct (placed_space p); simpl in Hspace, Hlo, Hhi, H1, H2, H3; try done; lia.
Qed.

(** ** The first-fit search *)

Lemma candidate_banks_no_error cs e : candidate_banks cs <> Err e.
Proof.
  unfold candidate_banks, next_bank, uadd. destruct (bool_decide _); [done|].
  by destruct (_ <? _).
Qed.

Lemma candidate_banks_head cs l : candidate_banks cs = Ok l ->
  exists rest, l = default 1 (head (sorted_keys cs)) :: rest.
Proof.
  unfold candidate_banks. destruct (bool_decide_reflect (cs = ∅)) as [->|Hne].
  - intros [= <-]. by exists [].
  - intros H. inv_ok. destruct (sorted_keys cs) as [|b bs] eqn:Hk; simpl; [|eauto].
    destruct Hne. apply map_empty. intros k. destruct (cs !! k) as [v|] eqn:Hl; [|done].
    assert (k ∈ sorted_keys cs) as Hin.
    { unfold sorted_keys. rewrite elem_of_sort_by, list_elem_of_fmap. exists (k, v).
      split; [done|]. by apply elem_of_map_to_list. }
    rewrite Hk in Hin. by apply elem_of_nil in Hin.
Qed.

Lemma place_next_loop_fits fuel s space bank limit occ : forall cursor p,
  place_next_loop fuel s space bank limit occ cursor = Ok p -> cpu_end_exclusive p <= limit.
Proof.
  induction fuel as [|fuel IH]; intros cursor p H; simpl in H; [done|]. inv_ok.
  destruct (first_overlap x occ) as [[? ?]|]; [inv_ok; eauto|]. injection H as <-.
  match goal with H : (_ <? _) = false |- _ => by apply Z.ltb_ge in H end.
Qed.

(** The errors of placement are not [NoBankFits]. *)
Definition is_NoBankFits (f : failure LayoutError) : Prop :=
  match f with F_err (Lay_NoBankFits _ _) => True | _ => False end.

Lemma section_size_avoids_NoBankFits s c : avoids is_NoBankFits (section_size_from s c).
Proof.
  unfold section_size_from, size_items, DataBlock_byte_len, size_step, align_u32. avoid.
Qed.

Lemma place_at_avoids_NoBankFits s space bank c : avoids is_NoBankFits (place_at s space bank c).
Proof.
  unfold place_at, align_u16, align_u32. pose proof section_size_avoids_NoBankFits. avoid.
Qed.

Lemma place_next_avoids_NoBankFits s space bank start occ profile :
  avoids is_NoBankFits (place_next s space bank start occ profile).
Proof.
  unfold place_next, space_limit. pose proof place_at_avoids_NoBankFits.
  apply avoids_bind; [avoid|]. intros limit _. generalize (place_next_fuel occ bank). intros fuel.
  revert start. induction fuel as [|fuel IH]; intros start; [by simpl; tauto|].
  cbn [place_next_loop]. avoid.
Qed.

(** The first-fit search only ever answers with the lowest bank that
    already has a cursor (bank 1 when there is none): as soon as that bank has
    no room the search fails with the placement's error, so later banks are
    not tried and [NoBankFits] is never reported. *)
Theorem first_fit_only_tries_the_first s cs occ profile :
  match first_fit_bank s cs occ profile with
  | Ok (b, _) => b = default 1 (head (sorted_keys cs))
  | Err (Lay_NoBankFits _ _) => False
  | _ => True
  end.
Proof.
  unfold first_fit_bank. destruct (candidate_banks cs) as [l|e| |] eqn:Hc; cbn [obind]; [|by destruct e; apply candidate_banks_no_error in Hc|done..].
  apply candidate_banks_head in Hc as [rest ->]. cbn [first_fit_loop].
  destruct (cursor_entry _ cs) as [cursor cs'].
  destruct (place_next _ _ _ _ _ _) as [p|e| |] eqn:Hp; cbn [obind]; try done.
  - unfold place_next in Hp. inv_ok. match goal with H : space_limit _ _ = _ |- _ => simpl in H; rewrite H end.
    cbn [obind]. match goal with H : place_next_loop _ _ _ _ _ _ _ = _ |- _ => apply place_next_loop_fits in H end.
    by rewrite (proj2 (Z.leb_le _ _)).
  - destruct e; try done. pose proof (place_next_avoids_NoBankFits s Space_RomX (Bank_Rom (default 1 (head (sorted_keys cs)))) cursor occ profile) as Ha.
    rewrite Hp in Ha. by apply Ha.
Qed.

(** ** The textual form of a bank *)

Lemma parse_dec_go_pretty m (x : N) s : Z.of_N x < m -> 0 <= m ->
  parse_dec_go m 0 (pretty_N_go x s) = parse_dec_go m (Z.of_N x) s.
Proof.
  revert s. induction (N.lt_wf_0 x) as [x _ IH]. intros s Hx Hm.
  destruct (decide (x = 0)%N) as [->|Hne]; [by rewrite pretty_N_go_0|].
  rewrite pretty_N_go_step by lia.
  rewrite IH; [|apply N.div_lt; lia | | done].
  2: { pose proof (N.div_lt x 10 ltac:(lia) ltac:(lia)). lia. }
  assert (Hdig : forall d, (d < 10)%N -> is_ascii_digit (pretty_N_char d) = true
                   /\ ascii_code (pretty_N_char d) - 48 = Z.of_N d).
  { intros d Hd.
    assert (d = 0 \/ d = 1 \/ d = 2 \/ d = 3 \/ d = 4 \/ d = 5 \/ d = 6 \/ d = 7 \/ d = 8 \/ d = 9)%N
      as Hc by lia.
    repeat (destruct Hc as [->|Hc]; [by split|]). by subst. }
  destruct (Hdig (x mod 10)%N) as [Hd1 Hd2]; [apply N.mod_lt; lia|].
  cbn [parse_dec_go]. rewrite Hd1, Hd2.
  assert (Z.of_N (x / 10) * 10 + Z.of_N (x mod 10) = Z.of_N x) as ->.
  { pose proof (N.div_mod x 10 ltac:(lia)). lia. }
  by rewrite (proj2 (Z.ltb_lt _ _) Hx).
Qed.

Lemma parse_unsigned_dec m n : 0 <= n < m -> parse_unsigned m (dec n) = Some n.
Proof.
  intros Hn. pose proof (dec_digits n) as Hd. unfold dec, pretty, pretty_N in *.
  case_decide as Hz.
  - replace n with 0 by lia. change (parse_unsigned m "0") with (if 0 <? m then Some 0 else None).
    by rewrite (proj2 (Z.ltb_lt 0 m)) by lia.
  - pose proof (parse_dec_go_pretty m (Z.to_N n) "" ltac:(lia) ltac:(lia)) as Hp.
    rewrite Z2N.id in Hp by lia. change (parse_dec_go m n "") with (Some n) in Hp.
    destruct (pretty_N_go (Z.to_N n) "") as [|c s] eqn:E.
    + exfalso. rewrite pretty_N_go_step in E by lia.
      apply (f_equal String.length) in E. revert E. clear.
      assert (Hlen : forall x s, (String.length s <= String.length (pretty_N_go x s))%nat).
      { intros x. induction (N.lt_wf_0 x) as [x _ IH]. intros s.
        destruct (decide (x = 0)%N) as [->|]; [by rewrite pretty_N_go_0|].
        rewrite pretty_N_go_step by lia. etrans; [|apply IH, N.div_lt; lia]. simpl. lia. }
      intros E. match type of E with String.length (pretty_N_go ?x ?s) = _ => pose proof (Hlen x s) end.
      simpl in *. lia.
    + unfold parse_unsigned. destruct (Ascii.eqb_spec c "+") as [->|]; [discriminate Hd | done].
Qed.

Lemma strip_prefix_app p s : strip_prefix p (p +:+ s) = Some s.
Proof.
  induction p as [|c p IH]; [by destruct s|]. change (String c p +:+ s) with (String c (p +:+ s)).
  simpl. by rewrite Ascii.eqb_refl.
Qed.

(** Every bank a plan can name is read back from its textual form. *)
Theorem BankIndex_roundtrip bank :
  match bank with
  | Bank_Rom b => 0 <= b < U16
  | Bank_Sram b => 0 <= b < U8
  | _ => True
  end ->
  BankIndex_from_str (BankIndex_to_string bank) = Ok bank.
Proof.
  unfold BankIndex_from_str. destruct bank as [b|b| | | |]; intros Hb; try reflexivity;
    unfold BankIndex_to_string.
  - by rewrite strip_prefix_app, parse_unsigned_dec.
  - change (strip_prefix "rom" ("sram" +:+ dec b)) with (@None string).
    by rewrite strip_prefix_app, parse_unsigned_dec.
Qed.

(** ** Witnesses *)

(** A section of [n] data bytes. *)
Definition block_section (id : Z) (role : SectionRole) (align n : Z) : LoweredSection :=
  MkLoweredSection (SectionId_new id) role (MkSymbolName "m") None SectionPrivilege_normal align
    None 1 [] []
    [OrderedItem_new (Db_Bytes (repeat 0 (Z.to_nat n))) 0 (InstrProvenance_new Stage_Backend)]
    [] [] [].

(** Bank-0 code next to a pinned bank-0 section, an expert bank and WRAM. *)
Definition demo_sections : list LoweredSection :=
  [block_section 1 Role_Bank0Data 16 40; block_section 2 Role_ExpertData 256 300;
   block_section 3 Role_ExpertData 1 20; block_section 4 Role_WramHotArena 2 64].
Definition demo_pins : list PinnedPlacement :=
  [MkPinnedPlacement (SectionId_new 3) (Bank_Rom 2) 0x4100].
Definition demo_plan : outcome LayoutError LayoutPlan :=
  layout_into_banks demo_sections StrictOneExpertPerBank demo_pins.

Lemma demo_sections_ok : Forall lowered_ok demo_sections /\ Forall pin_ok demo_pins
  /\ NoDup (map low_id demo_sections).
Proof.
  split_and!.
  - repeat constructor; unfold lowered_ok; simpl; lia.
  - repeat constructor; simpl; lia.
  - refine (bool_decide_unpack (NoDup _) _). vm_compute. exact I.
Qed.

Lemma layout_sound_witness :
  match demo_plan with
  | Ok plan =>
      map (fun p => (placed_bank p, placed_cpu_start p, placed_final_size p)) (plan_sections plan)
      = [(Bank_Rom 0, 0x0150, 40); (Bank_Rom 1, 0x4000, 300); (Bank_Rom 2, 0x4100, 20);
         (Bank_Wram, 0xC000, 64)]
      /\ Forall2 (fun s p =>
           placed_id p = low_id s /\ placed_cpu_start p mod low_align s = 0
           /\ section_size_from s (placed_cpu_start p)
              = Ok (placed_final_size p, placed_alignment_padding p)
           /\ space_bank_ok (placed_space p) (placed_bank p)
           /\ (space_window (placed_space p)).1 <= placed_cpu_start p
           /\ cpu_end_exclusive p <= (space_window (placed_space p)).2)
         demo_sections (plan_sections plan)
  | _ => False
  end.
Proof.
  destruct demo_sections_ok as (Hs & Hp & Hnd).
  destruct demo_plan as [plan|e| |] eqn:E; try (vm_compute in E; discriminate E). split.
  - vm_compute in E. injection E as <-. vm_compute. reflexivity.
  - exact (layout_sound demo_sections StrictOneExpertPerBank demo_pins plan Hs Hp Hnd E).
Defined.


Lemma layout_rom_image_witness :
  match demo_plan with
  | Ok plan => forall p, plan_sections plan !! 1%nat = Some p ->
      exists off, rom_file_offset p = Ok (Some off)
        /\ off + placed_final_size p <= plan_bank_count plan * ROM_BANK_SIZE
  | _ => False
  end.
Proof.
  destruct demo_sections_ok as (Hs & Hp & Hnd).
  destruct demo_plan as [plan|e| |] eqn:E; try (vm_compute in E; discriminate E).
  intros p Hi. assert (Hp1 : placed_bank p = Bank_Rom 1 /\ 0 < placed_final_size p).
  { vm_compute in E. injection E as <-. vm_compute in Hi. injection Hi as <-. by split. }
  destruct (layout_rom_image demo_sections StrictOneExpertPerBank demo_pins plan 1 p 1
              Hs Hp Hnd E Hi (proj1 Hp1) (proj2 Hp1)) as (off & ? & ? & ? & ?).
  exists off. split; assumption.
Defined.

Lemma layout_terminates_witness :
  layout_into_banks demo_sections (Budgeted 512) demo_pins <> NoFuel.
Proof.
  destruct demo_sections_ok as (Hs & Hp & Hnd).
  exact (layout_terminates demo_sections (Budgeted 512) demo_pins Hs Hp Hnd).
Defined.

Lemma header_and_thunk_pool_untouched_witness :
  match demo_plan with
  | Ok plan => forall p, In p (plan_sections plan) -> placed_bank p = Bank_Rom 0 ->
      0x0040 <= placed_cpu_start p
      /\ (cpu_end_exclusive p <= 0x0100 \/ 0x0150 <= placed_cpu_start p)
      /\ cpu_end_exclusive p <= 0x3F00 \/ placed_final_size p = 0
  | _ => False
  end.
Proof.
  destruct demo_sections_ok as (Hs & Hp & Hnd).
  destruct demo_plan as [plan|e| |] eqn:E; try (vm_compute in E; discriminate E). intros p.
  exact (header_and_thunk_pool_untouched demo_sections StrictOneExpertPerBank demo_pins plan p Hs Hp Hnd E).
Defined.

Lemma BankIndex_roundtrip_witness :
  BankIndex_to_string (Bank_Rom 511) = "rom511" /\ BankIndex_from_str "rom511" = Ok (Bank_Rom 511).
Proof. split; [reflexivity|]. apply (BankIndex_roundtrip (Bank_Rom 511)). split; reflexivity || lia. Defined.

(** Two sections of 9000 bytes do not share a bank, and the second gets no
    other bank. *)
Example first_fit_gives_up :
  layout_into_banks [block_section 1 Role_CommonData 1 9000; block_section 2 Role_CommonData 1 9000]
    PackedExperts []
  = Err (Lay_SectionTooBig (SectionId_new 2) 9000 0x8000).
Proof. vm_compute. reflexivity. Qed.
