(* ===== verification/Relax.v ===== *)
(** * Branch relaxation and legalization ([gbf-asm/src/relax.rs])

    [relax_and_legalize] starts from short relative jumps, widens those whose
    target is out of reach until nothing changes, and then replaces branches
    and far calls by instructions with final addresses; calls into another bank
    go through thunks placed in the thunk pool at the end of ROM bank 0. *)

From S2P Require Import Prelude Hw Isa IsaCodec Names SectionIr Effect SectionOps SymTable Lowering Layout.

(** ** Data *)

Record ResolvedThunkRequest := MkResolvedThunkRequest {
  req_thunk_symbol : SymbolName;
  req_target : SymbolName;
  req_callee_bank : BankIndex;
  req_target_cpu_addr : Z;
  req_lease_chain : list LeaseId;
}.
#[export] Instance ResolvedThunkRequest_eq_dec : EqDecision ResolvedThunkRequest.
Proof. solve_decision. Defined.

Record RelaxedProgram := MkRelaxedProgram {
  rp_sections : list LegalizedSection;
  rp_layout : LayoutPlan;
  rp_symbols : SymbolTable;
  rp_thunk_requests : list ResolvedThunkRequest;
  rp_iterations : Z;
}.

Inductive RelaxError :=
| Rx_NoFixedPoint (iters : Z)
| Rx_ThunkPoolExhausted (requested capacity : Z)
| Rx_MissingPlacement (section_id : SectionId)
| Rx_MissingAlignmentPlan (section_id : SectionId) (seq_index : Z)
| Rx_UnresolvedSymbol (name : SymbolName) (used_in : SectionId)
| Rx_DuplicateSymbol (error : SymbolTableError)
| Rx_SectionTooLarge (section_id : SectionId) (size : Z)
| Rx_SymbolAddressOutOfRange (name : SymbolName) (section_id : SectionId) (cpu_addr : Z)
| Rx_InvalidRelativeOffset (offset : Z)
| Rx_CrossBankBranchUnsupported (used_in : SectionId) (source_bank : BankIndex)
    (target : SymbolName) (target_bank : BankIndex).

(** ** [i32] arithmetic *)

(** [x as i32] for an unsigned 32-bit [x], and the operators of [i32]. *)
Definition as_i32 (x : Z) : Z := if x <? 2147483648 then x else x - U32.
Definition i32_checked {E} (x : Z) : outcome E Z :=
  if (-2147483648 <=? x) && (x <? 2147483648) then Ok x else Panic.

(** The distance of a relative jump at [offset] in a section at [cpu_start]. *)
Definition branch_delta {E} (cpu_start offset target_addr : Z) : outcome E Z :=
  let* here := i32_checked (cpu_start + as_i32 offset) in
  let* next := i32_checked (here + 2) in
  i32_checked (target_addr - next).

(** ** Offsets inside a section *)

Abbreviation WideJumps := (gmap (SectionId * ItemOrder) bool) (only parsing).
Definition is_wide (wide_jumps : WideJumps) (id : SectionId) (order : ItemOrder) : bool :=
  default false (wide_jumps !! (id, order)).

Inductive OffsetItem := Off_Label | Off_Fixed (size : Z) | Off_Align (align : Z).

Record SectionOffsets := MkSectionOffsets {
  so_offsets : gmap ItemOrder Z;
  so_alignment_padding : gmap ItemOrder Z;
  so_size : Z;
}.

Definition relax_align_u32 {E} (value align : Z) : outcome E Z :=
  umul U32 (div_ceil value align) align.

Definition branch_size (wide : bool) (b : SymbolicBranch) : Z :=
  match br_kind b with
  | Branch_AbsoluteJump => 3
  | Branch_Jump => if wide then 3 else 2
  | Branch_Call => 3
  end.

Definition offset_items (s : LoweredSection) (wide_jumps : WideJumps)
    : outcome RelaxError (list (ItemOrder * OffsetItem)) :=
  let labels := map (fun i => (item_order i, Off_Label)) (low_labels s) in
  let instrs :=
    map (fun i => (item_order i, Off_Fixed (Instr_byte_len (item_data i)))) (low_instrs s) in
  let* data_blocks :=
    omapM (fun i => let* n := DataBlock_byte_len (item_data i) in Ok (item_order i, Off_Fixed n))
      (low_data_blocks s) in
  let alignments :=
    map (fun i => (item_order i, Off_Align (Align_0 (item_data i)))) (low_alignments s) in
  let branches :=
    map (fun i => (item_order i,
                   Off_Fixed (branch_size (is_wide wide_jumps (low_id s) (item_order i))
                                (item_data i)))) (low_branches s) in
  let legalization_ops := map (fun i => (item_order i, Off_Fixed 3)) (low_legalization_ops s) in
  Ok (labels ++ instrs ++ data_blocks ++ alignments ++ branches ++ legalization_ops).

Definition offset_leb (a b : ItemOrder * OffsetItem) : bool := ItemOrder_leb a.1 b.1.

Definition offset_step (id : SectionId) (cpu_start : Z) (st : SectionOffsets)
    (oi : ItemOrder * OffsetItem) : outcome RelaxError SectionOffsets :=
  let '(order, item) := oi in
  let cursor := so_size st in
  let offsets := <[order := cursor]> (so_offsets st) in
  match item with
  | Off_Label => Ok (MkSectionOffsets offsets (so_alignment_padding st) cursor)
  | Off_Fixed size =>
      let* cursor := uadd U32 cursor size in
      Ok (MkSectionOffsets offsets (so_alignment_padding st) cursor)
  | Off_Align align =>
      let* abs := uadd U32 cpu_start cursor in
      let* aligned := relax_align_u32 abs align in
      let* pad := usub aligned abs in
      let* padding := ok_or (try_from_u U16 pad) (Rx_SectionTooLarge id pad) in
      let* cursor := uadd U32 cursor padding in
      Ok (MkSectionOffsets offsets (<[order := padding]> (so_alignment_padding st)) cursor)
  end.

Definition section_offsets (s : LoweredSection) (placed : PlacedSection) (wide_jumps : WideJumps)
    : outcome RelaxError SectionOffsets :=
  let* items := offset_items s wide_jumps in
  ofold (offset_step (low_id s) (placed_cpu_start placed)) (MkSectionOffsets ∅ ∅ 0)
    (sort_by offset_leb items).

(** ** Targets *)

Definition placed_for (layout : LayoutPlan) (id : SectionId) : outcome RelaxError PlacedSection :=
  ok_or (placement_for layout id) (Rx_MissingPlacement id).

Definition build_symbol_table (sections : list LoweredSection) (layout : LayoutPlan)
    (wide_jumps : WideJumps) : outcome RelaxError SymbolTable :=
  ofold (fun table s =>
      let* placed := placed_for layout (low_id s) in
      let* offsets := section_offsets s placed wide_jumps in
      ofold (fun table l =>
          let* offset := expect (so_offsets offsets !! item_order l) in
          map_err Rx_DuplicateSymbol
            (SymbolTable_insert table (label_name (item_data l))
               (MkSymbolAddress (low_id s) offset)))
        table (low_labels s))
    SymbolTable_new sections.

Record ResolvedTarget := MkResolvedTarget { rt_bank : BankIndex; rt_cpu_addr : Z }.

Definition resolve_target (symbols : SymbolTable) (layout : LayoutPlan) (target : SymbolName)
    (used_in : SectionId) : outcome RelaxError ResolvedTarget :=
  let* address := ok_or (SymbolTable_resolve symbols target) (Rx_UnresolvedSymbol target used_in) in
  let* placed := placed_for layout (sa_section address) in
  let* cpu_addr := uadd U32 (placed_cpu_start placed) (sa_offset address) in
  let* cpu_addr := ok_or (try_from_u U16 cpu_addr)
                     (Rx_SymbolAddressOutOfRange target (sa_section address) cpu_addr) in
  Ok (MkResolvedTarget (placed_bank placed) cpu_addr).

Definition directly_reachable (source target : BankIndex) : bool :=
  bool_decide (target = Bank_Rom 0) || bool_decide (source = target).

Definition ensure_directly_reachable (used_in : SectionId) (source : PlacedSection)
    (target : ResolvedTarget) (target_name : SymbolName) : outcome RelaxError unit :=
  guard_err (negb (directly_reachable (placed_bank source) (rt_bank target)))
    (Rx_CrossBankBranchUnsupported used_in (placed_bank source) target_name (rt_bank target)).

(** ** The relaxation loop *)

Definition in_i8_range (delta : Z) : bool := (-128 <=? delta) && (delta <=? 127).

Definition relax_branch (s : LoweredSection) (placed : PlacedSection) (offsets : SectionOffsets)
    (symbols : SymbolTable) (layout : LayoutPlan) (st : WideJumps * bool)
    (b : OrderedItem SymbolicBranch) : outcome RelaxError (WideJumps * bool) :=
  let '(wide_jumps, changed) := st in
  if negb (bool_decide (br_kind (item_data b) = Branch_Jump)) then Ok st
  else
    let* offset := expect (so_offsets offsets !! item_order b) in
    let* target := resolve_target symbols layout (br_target (item_data b)) (low_id s) in
    let* _ := ensure_directly_reachable (low_id s) placed target (br_target (item_data b)) in
    let* delta := branch_delta (placed_cpu_start placed) offset (rt_cpu_addr target) in
    if negb (in_i8_range delta) && negb (is_wide wide_jumps (low_id s) (item_order b))
    then Ok (<[(low_id s, item_order b) := true]> wide_jumps, true)
    else Ok st.

Definition relax_section (layout : LayoutPlan) (symbols : SymbolTable) (st : WideJumps * bool)
    (s : LoweredSection) : outcome RelaxError (WideJumps * bool) :=
  let* placed := placed_for layout (low_id s) in
  let* offsets := section_offsets s placed st.1 in
  ofold (relax_branch s placed offsets symbols layout) st (low_branches s).

Definition relax_pass (sections : list LoweredSection) (layout : LayoutPlan)
    (wide_jumps : WideJumps) : outcome RelaxError (WideJumps * bool) :=
  let* symbols := build_symbol_table sections layout wide_jumps in
  ofold (relax_section layout symbols) (wide_jumps, false) sections.

Definition is_jump (b : OrderedItem SymbolicBranch) : bool :=
  bool_decide (br_kind (item_data b) = Branch_Jump).
Definition relaxable_branches (s : LoweredSection) : list (OrderedItem SymbolicBranch) :=
  base.filter (fun b => is_jump b = true) (low_branches s).

Definition far_targets (s : LoweredSection) : list SymbolName :=
  map (fun op => match item_data op with Op_FarCall target _ => target end) (low_legalization_ops s)
  ++ omap (fun b => match br_call_reachability (item_data b) with
                    | AutoFar _ => Some (br_target (item_data b))
                    | NearOnly => None end) (low_branches s).

Definition hard_cap (sections : list LoweredSection) : nat :=
  1 + length (flat_map relaxable_branches sections)
    + size (list_to_set (flat_map far_targets sections) : gset SymbolName).

(** [for iter in 0..=hard_cap]: [n] iterations are left. *)
Fixpoint relax_loop (n : nat) (sections : list LoweredSection) (layout : LayoutPlan) (iter : Z)
    (iterations : Z) (wide_jumps : WideJumps) : outcome RelaxError (WideJumps * Z) :=
  match n with
  | O => Ok (wide_jumps, iterations)
  | S n' =>
      let iterations := wrap U8 (iter + 1) in
      let* (wide_jumps, changed) := relax_pass sections layout wide_jumps in
      if negb changed then Ok (wide_jumps, iterations)
      else if bool_decide (iter = Z.of_nat (hard_cap sections)) then Err (Rx_NoFixedPoint iterations)
      else relax_loop n' sections layout (iter + 1) iterations wide_jumps
  end.

(** ** Thunks *)

(** The two accumulators threaded through legalization. *)
Record ThunkState := MkThunkState {
  thunk_by_target : gmap SymbolName ResolvedThunkRequest;
  thunk_order : list SymbolName;
}.

Definition thunk_cpu_start (idx : Z) : outcome RelaxError Z :=
  let* offset := umul U32 (wrap U32 idx) 0x10 in
  let* cpu_start := uadd U32 ROM0_THUNK_POOL_START offset in
  let* end_ := uadd U32 cpu_start 10 in
  if ROM0_END_EXCLUSIVE <? end_ then
    let* n := uadd U32 (wrap U32 idx) 1 in
    let* requested := umul U32 n 0x10 in
    let* capacity := usub ROM0_END_EXCLUSIVE ROM0_THUNK_POOL_START in
    Err (Rx_ThunkPoolExhausted requested capacity)
  else Ok (wrap U16 cpu_start).

(** [Iterator::position]. *)
Definition position (target : SymbolName) (l : list SymbolName) : option Z :=
  (fun x => Z.of_nat x.1) <$> list_find (fun key => key = target) l.

Definition call_addr_for_target (used_in : SectionId) (placed : PlacedSection)
    (layout : LayoutPlan) (symbols : SymbolTable) (ts : ThunkState) (target : SymbolName)
    (lease_chain : list LeaseId) : outcome RelaxError (Z * ThunkState) :=
  let* resolved := resolve_target symbols layout target used_in in
  if directly_reachable (placed_bank placed) (rt_bank resolved) then Ok (rt_cpu_addr resolved, ts)
  else
    let* ts :=
      match thunk_by_target ts !! target with
      | Some _ => Ok ts
      | None =>
          match SymbolName_runtime_thunk_for target with
          | Ok thunk_symbol =>
              Ok (MkThunkState
                    (<[target := MkResolvedThunkRequest thunk_symbol target (rt_bank resolved)
                                   (rt_cpu_addr resolved) lease_chain]> (thunk_by_target ts))
                    (thunk_order ts ++ [target]))
          | _ => Panic
          end
      end in
    let* idx := expect (position target (thunk_order ts)) in
    let* addr := thunk_cpu_start idx in
    Ok (addr, ts).

(** ** Legalization *)

Definition legalize_branch (used_in : SectionId) (placed : PlacedSection) (layout : LayoutPlan)
    (symbols : SymbolTable) (wide_jumps : WideJumps) (b : SymbolicBranch) (order : ItemOrder)
    (offset : Z) : outcome RelaxError Instr :=
  let* target := resolve_target symbols layout (br_target b) used_in in
  let* _ := ensure_directly_reachable used_in placed target (br_target b) in
  match br_kind b with
  | Branch_AbsoluteJump => Ok (I_JpAbs (br_cond b) (rt_cpu_addr target))
  | Branch_Jump =>
      if is_wide wide_jumps used_in order then Ok (I_JpAbs (br_cond b) (rt_cpu_addr target))
      else
        let* delta := branch_delta (placed_cpu_start placed) offset (rt_cpu_addr target) in
        let* _ := guard_err (negb (in_i8_range delta)) (Rx_InvalidRelativeOffset delta) in
        Ok (I_JrRel (br_cond b) delta)
  | Branch_Call => Ok (I_Call (br_cond b) (rt_cpu_addr target))
  end.

(** The body of the loop over the branches of a section. *)
Definition legalize_branch_item (s : LoweredSection) (placed : PlacedSection)
    (layout : LayoutPlan) (symbols : SymbolTable) (wide_jumps : WideJumps)
    (offsets : SectionOffsets) (st : list (OrderedItem Instr) * ThunkState)
    (b : OrderedItem SymbolicBranch) : outcome RelaxError (list (OrderedItem Instr) * ThunkState) :=
  let '(emitted, ts) := st in
  let* (instr, ts) :=
    match br_kind (item_data b), br_call_reachability (item_data b) with
    | Branch_Call, AutoFar lease_chain =>
        let* (addr, ts) :=
          call_addr_for_target (low_id s) placed layout symbols ts (br_target (item_data b))
            lease_chain in
        Ok (I_Call (br_cond (item_data b)) addr, ts)
    | _, _ =>
        let* offset := expect (so_offsets offsets !! item_order b) in
        let* instr := legalize_branch (low_id s) placed layout symbols wide_jumps (item_data b)
                        (item_order b) offset in
        Ok (instr, ts)
    end in
  Ok (emitted ++ [OrderedItem_new instr (item_seq b) (item_prov b)], ts).

(** The body of the loop over the legalization ops. *)
Definition legalize_op_item (s : LoweredSection) (placed : PlacedSection)
    (layout : LayoutPlan) (symbols : SymbolTable) (st : list (OrderedItem Instr) * ThunkState)
    (op : OrderedItem LegalizationOp) : outcome RelaxError (list (OrderedItem Instr) * ThunkState) :=
  let '(emitted, ts) := st in
  match item_data op with
  | Op_FarCall target lease_chain =>
      let* (call_addr, ts) :=
        call_addr_for_target (low_id s) placed layout symbols ts target lease_chain in
      Ok (emitted ++ [OrderedItem_new (I_Call None call_addr) (item_seq op) (item_prov op)], ts)
  end.

Definition item_leb {T} (a b : OrderedItem T) : bool := ItemOrder_leb (item_order a) (item_order b).

Definition legalize_section (s : LoweredSection) (placed : PlacedSection) (layout : LayoutPlan)
    (symbols : SymbolTable) (wide_jumps : WideJumps) (ts : ThunkState)
    : outcome RelaxError (LegalizedSection * ThunkState) :=
  let* offsets := section_offsets s placed wide_jumps in
  let* (emitted, ts) :=
    ofold (legalize_branch_item s placed layout symbols wide_jumps offsets) ([], ts)
      (low_branches s) in
  let* (emitted, ts) :=
    ofold (legalize_op_item s placed layout symbols) (emitted, ts) (low_legalization_ops s) in
  Ok (MkLegalizedSection (low_id s) (low_role s) (low_name s) (low_interrupt_vector s)
        (low_privilege s) (low_align s) (low_size_hint_bytes s) (low_next_seq_index s)
        (sort_by item_leb (low_labels s)) (sort_by item_leb (low_instrs s ++ emitted))
        (low_data_blocks s) (low_alignments s), ts).

(** Overwrites the size and the paddings of the first placement of the id. *)
Fixpoint set_final_size (id : SectionId) (size : Z) (padding : gmap ItemOrder Z)
    (ps : list PlacedSection) : list PlacedSection :=
  match ps with
  | [] => []
  | p :: ps' =>
      if bool_decide (placed_id p = id) then
        MkPlacedSection (placed_id p) (placed_space p) (placed_bank p) (placed_cpu_start p) size
          (placed_estimated_size p) padding :: ps'
      else p :: set_final_size id size padding ps'
  end.
Definition layout_with_sections (l : LayoutPlan) (ps : list PlacedSection) : LayoutPlan :=
  MkLayoutPlan ps (plan_bank_count l) (plan_free_bytes_per_bank l) (plan_reserved_ranges l).

Definition legalize_step (symbols : SymbolTable) (wide_jumps : WideJumps)
    (st : list LegalizedSection * LayoutPlan * ThunkState) (s : LoweredSection)
    : outcome RelaxError (list LegalizedSection * LayoutPlan * ThunkState) :=
  let '(legalized, layout, ts) := st in
  let* placed := placed_for layout (low_id s) in
  let* (legal, ts) := legalize_section s placed layout symbols wide_jumps ts in
  let* final_offsets := section_offsets s placed wide_jumps in
  let* final_size := ok_or (try_from_u U16 (so_size final_offsets))
                       (Rx_SectionTooLarge (low_id s) (so_size final_offsets)) in
  let layout :=
    layout_with_sections layout
      (set_final_size (low_id s) final_size (so_alignment_padding final_offsets)
         (plan_sections layout)) in
  Ok (legalized ++ [legal], layout, ts).

(** ** Materializing the thunks *)

Definition materialize_stub_thunk (id : SectionId) (cpu_start : Z)
    (request : ResolvedThunkRequest) : LegalizedSection :=
  let provenance := with_source_op (InstrProvenance_new Stage_Backend) "stub_thunk" in
  let bank := match req_callee_bank request with Bank_Rom bank => bank | _ => 0 end in
  MkLegalizedSection id Role_Bank0Nucleus (req_thunk_symbol request) None
    SectionPrivilege_normal 1 (Some 10) 5
    [OrderedItem_new (MkLabel (SymbolId_new 0) (req_thunk_symbol request)) 0 provenance]
    [OrderedItem_new (I_Ld8RegFromImm Reg8_A (wrap U8 bank)) 1 provenance;
     OrderedItem_new (I_Ld8RegFromImm Reg8_B (wrap U8 (Z.shiftr bank 8))) 2 provenance;
     OrderedItem_new (I_Ld16Imm Data_HL (req_target_cpu_addr request)) 3 provenance;
     OrderedItem_new (I_JpAbs None 0x0150) 4 provenance]
    [] [].

Record ThunkEmission := MkThunkEmission {
  te_sections : list LegalizedSection;
  te_layout : LayoutPlan;
  te_symbols : SymbolTable;
  te_requests : list ResolvedThunkRequest;
}.

Definition thunk_placement (id : SectionId) (cpu_start : Z) : PlacedSection :=
  MkPlacedSection id Space_Rom0 (Bank_Rom 0) cpu_start 10 10 ∅.

(** The loop over [thunk_order.iter().enumerate()]. *)
Fixpoint emit_thunks (ts : ThunkState) (idx : Z) (order : list SymbolName) (st : ThunkEmission)
    : outcome RelaxError ThunkEmission :=
  match order with
  | [] => Ok st
  | target :: rest =>
      let* request := expect (thunk_by_target ts !! target) in
      let* raw_id := uadd U32 0xF000 (wrap U32 idx) in
      let thunk_id := SectionId_new raw_id in
      let* cpu_start := thunk_cpu_start idx in
      let* symbols := map_err Rx_DuplicateSymbol
        (SymbolTable_insert (te_symbols st) (req_thunk_symbol request)
           (MkSymbolAddress thunk_id 0)) in
      emit_thunks ts (idx + 1) rest
        (MkThunkEmission
           (te_sections st ++ [materialize_stub_thunk thunk_id cpu_start request])
           (layout_with_sections (te_layout st)
              (plan_sections (te_layout st) ++ [thunk_placement thunk_id cpu_start]))
           symbols (te_requests st ++ [request]))
  end.

Definition relax_and_legalize (sections : list LoweredSection) (layout : LayoutPlan)
    : outcome RelaxError RelaxedProgram :=
  let* (wide_jumps, iterations) := relax_loop (S (hard_cap sections)) sections layout 0 0 ∅ in
  let* symbols := build_symbol_table sections layout wide_jumps in
  let* (legalized, final_layout, ts) :=
    ofold (legalize_step symbols wide_jumps) ([], layout, MkThunkState ∅ []) sections in
  let* requested := umul U32 (wrap U32 (zlen (thunk_order ts))) 0x10 in
  let* capacity := usub ROM0_END_EXCLUSIVE ROM0_THUNK_POOL_START in
  let* _ := guard_err (capacity <? requested) (Rx_ThunkPoolExhausted requested capacity) in
  let* out := emit_thunks ts 0 (thunk_order ts)
                (MkThunkEmission legalized final_layout symbols []) in
  Ok (MkRelaxedProgram (te_sections out) (te_layout out) (te_symbols out) (te_requests out)
        iterations).
