(* ===== verification/RelaxFacts.v ===== *)
(** * Correctness of branch relaxation ([gbf-asm/src/relax.rs])

    The lemmas and properties of [Relax]: the loop reaches a fixed point, the
    emitted branches land on their targets, far calls go through one thunk per
    target, and the relaxed plan keeps the layout's guarantees. *)

From S2P Require Import Prelude Hw Isa IsaCodec Names SectionIr Effect SectionOps SymTable Lowering Layout LayoutFacts Relax.

(** ** The number of wide jumps only grows *)

(** The jumps a pass may widen. *)
Definition jump_keys (sections : list LoweredSection) : list (SectionId * ItemOrder) :=
  flat_map (fun s => map (fun b => (low_id s, item_order b)) (relaxable_branches s)) sections.

Definition wide_ok (keys : list (SectionId * ItemOrder))
    (w : gmap (SectionId * ItemOrder) bool) : Prop :=
  forall k v, w !! k = Some v -> v = true /\ k ∈ keys.

(** A step leaves the state alone, or widens at least one more jump. *)
Definition progress (st st' : gmap (SectionId * ItemOrder) bool * bool) : Prop :=
  st' = st \/ (st'.2 = true /\ (size st.1 < size st'.1)%nat).

Lemma progress_trans a b c : progress a b -> progress b c -> progress a c.
Proof.
  intros [->|[Hb Hs]] [->|[Hc Hs']]; [by left | by right | by right | right]. split; [done | lia].
Qed.

Lemma wide_ok_size keys w : wide_ok keys w -> (size w <= length keys)%nat.
Proof.
  intros Hw. rewrite <- length_map_to_list, <- (length_map fst).
  apply List.NoDup_incl_length; [apply NoDup_ListNoDup, NoDup_fst_map_to_list|].
  intros k Hk%list_elem_of_In. apply list_elem_of_In.
  apply list_elem_of_fmap in Hk as ([k' v] & -> & Hk%elem_of_map_to_list). by destruct (Hw k' v Hk).
Qed.

Lemma relax_branch_progress s placed offsets symbols layout keys st b st' :
  (is_jump b = true -> (low_id s, item_order b) ∈ keys) -> wide_ok keys st.1 ->
  relax_branch s placed offsets symbols layout st b = Ok st' ->
  wide_ok keys st'.1 /\ progress st st'.
Proof.
  destruct st as [w changed]. unfold relax_branch, is_jump. intros Hk Hw H.
  destruct (bool_decide _) eqn:Hj; cbn [negb] in H; [|injection H as <-; by split; [|left]].
  inv_ok. destruct (_ && _) eqn:Hc; injection H as <-; [|by split; [|left]].
  apply andb_true_iff in Hc as [_ Hwide%negb_true_iff].
  assert (Hn : w !! (low_id s, item_order b) = None).
  { unfold is_wide in Hwide. destruct (w !! _) as [v|] eqn:E; [|done].
    destruct (Hw _ _ E) as [-> _]. discriminate. }
  split.
  - intros k v. simpl. destruct (decide (k = (low_id s, item_order b))) as [->|Hne].
    + rewrite lookup_insert_eq. intros [= <-]. auto.
    + rewrite lookup_insert_ne by done. apply Hw.
  - right. simpl. rewrite map_size_insert_None by done. split; [done | lia].
Qed.

Lemma relax_branches_progress s placed offsets symbols layout keys : forall bs st st',
  (forall b, b ∈ bs -> is_jump b = true -> (low_id s, item_order b) ∈ keys) -> wide_ok keys st.1 ->
  ofold (relax_branch s placed offsets symbols layout) st bs = Ok st' ->
  wide_ok keys st'.1 /\ progress st st'.
Proof.
  induction bs as [|b bs IH]; intros st st' Hk Hw H; cbn [ofold] in H.
  - injection H as <-. by split; [|left].
  - inv_ok. match goal with Hb : relax_branch _ _ _ _ _ _ _ = Ok ?m |- _ =>
      apply (relax_branch_progress _ _ _ _ _ keys) in Hb as [Hw1 Hp1]; [|apply Hk; by left|done] end.
    destruct (IH _ _ ltac:(intros; apply Hk; [by right|done]) Hw1 H) as [Hw2 Hp2].
    split; [done | by eapply progress_trans].
Qed.

Lemma jump_key_elem sections s b : s ∈ sections -> b ∈ low_branches s -> is_jump b = true ->
  (low_id s, item_order b) ∈ jump_keys sections.
Proof.
  intros Hs Hb Hj. unfold jump_keys. apply list_elem_of_In, in_flat_map.
  exists s. split; [by apply list_elem_of_In|]. apply in_map_iff. exists b. split; [done|].
  apply list_elem_of_In. unfold relaxable_branches. by apply list_elem_of_filter.
Qed.

Lemma relax_sections_progress layout symbols all : forall sections st st',
  (forall s, s ∈ sections -> s ∈ all) -> wide_ok (jump_keys all) st.1 ->
  ofold (relax_section layout symbols) st sections = Ok st' ->
  wide_ok (jump_keys all) st'.1 /\ progress st st'.
Proof.
  induction sections as [|s sections IH]; intros st st' Hsub Hw H; cbn [ofold] in H.
  - injection H as <-. by split; [|left].
  - inv_ok. match goal with Hb : relax_section _ _ _ _ = Ok _ |- _ => unfold relax_section in Hb end.
    inv_ok. match goal with Hb : ofold (relax_branch _ _ _ _ _) _ _ = Ok _ |- _ =>
      apply (relax_branches_progress _ _ _ _ _ (jump_keys all)) in Hb as [Hw1 Hp1];
        [|intros; apply jump_key_elem; [apply Hsub; by left|done..]|done] end.
    destruct (IH _ _ ltac:(intros; apply Hsub; by right) Hw1 H) as [Hw2 Hp2].
    split; [done | by eapply progress_trans].
Qed.

Lemma relax_pass_progress sections layout w st' : wide_ok (jump_keys sections) w ->
  relax_pass sections layout w = Ok st' ->
  wide_ok (jump_keys sections) st'.1 /\ progress (w, false) st'.
Proof.
  intros Hw H. unfold relax_pass in H. inv_ok. by eapply relax_sections_progress in H.
Qed.

Lemma hard_cap_bound sections : (length (jump_keys sections) < hard_cap sections)%nat.
Proof.
  unfold hard_cap, jump_keys. assert (length (flat_map (fun s => map (fun b => (low_id s, item_order b))
    (relaxable_branches s)) sections) = length (flat_map relaxable_branches sections)) as ->.
  { induction sections as [|s l IH]; [done|]. simpl. by rewrite !length_app, length_map, IH. }
  lia.
Qed.

(** The result of the loop: a set of wide jumps that one more pass keeps. *)
Lemma relax_loop_spec sections layout : forall n iter iterations w,
  Z.of_nat n = Z.of_nat (hard_cap sections) + 1 - iter -> 0 <= iter <= Z.of_nat (hard_cap sections) ->
  iter <= Z.of_nat (size w) -> wide_ok (jump_keys sections) w ->
  match relax_loop n sections layout iter iterations w with
  | Ok (w', _) => relax_pass sections layout w' = Ok (w', false)
  | Err (Rx_NoFixedPoint _) => exists w' it, relax_pass sections layout w' = Err (Rx_NoFixedPoint it)
  | Err e => exists w', relax_pass sections layout w' = Err e
  | NoFuel => exists w', relax_pass sections layout w' = NoFuel
  | Panic => True
  end.
Proof.
  induction n as [|n IH]; intros iter iterations w Hn Hi Hs Hw; [lia|]. cbn [relax_loop].
  destruct (relax_pass sections layout w) as [[w' changed]|e| |] eqn:Hp; cbn [obind]; try done.
  2: { destruct e; eauto. }
  2: { eauto. }
  destruct (relax_pass_progress _ _ _ _ Hw Hp) as [Hw' Hprog]. simpl in Hw'.
  destruct changed; cbn [negb].
  - destruct Hprog as [[= _]|[_ Hsize]]. simpl in Hsize.
    pose proof (wide_ok_size _ _ Hw'). pose proof (hard_cap_bound sections).
    rewrite bool_decide_eq_false_2 by lia. apply IH; [lia | lia | lia | done].
  - destruct Hprog as [[= ->]|[[=] _]]. done.
Qed.

(** The failures that would mean the loop stopped too early. *)
Definition is_convergence_error (f : failure RelaxError) : Prop :=
  match f with
  | F_err (Rx_NoFixedPoint _) | F_err (Rx_InvalidRelativeOffset _) | F_no_fuel => True
  | _ => False
  end.

Lemma section_offsets_avoids s p w : avoids is_convergence_error (section_offsets s p w).
Proof.
  unfold section_offsets, offset_items, DataBlock_byte_len, offset_step, relax_align_u32. avoid.
Qed.

Lemma resolve_target_avoids sy l t id : avoids is_convergence_error (resolve_target sy l t id).
Proof. unfold resolve_target, placed_for. avoid. Qed.

Lemma build_symbol_table_avoids sections l w : avoids is_convergence_error (build_symbol_table sections l w).
Proof.
  unfold build_symbol_table, placed_for, SymbolTable_insert. pose proof section_offsets_avoids.
  avoid. apply avoids_map_err. avoid.
Qed.

Lemma relax_pass_avoids sections l w : avoids is_convergence_error (relax_pass sections l w).
Proof.
  unfold relax_pass, relax_section, relax_branch, placed_for, ensure_directly_reachable,
    branch_delta, i32_checked.
  pose proof section_offsets_avoids. pose proof resolve_target_avoids.
  pose proof build_symbol_table_avoids. avoid.
Qed.

Lemma relax_loop_fixed_point sections layout :
  let r := relax_loop (S (hard_cap sections)) sections layout 0 0 ∅ in
  avoids is_convergence_error r
  /\ forall w it, r = Ok (w, it) -> relax_pass sections layout w = Ok (w, false).
Proof.
  intros r. pose proof (relax_loop_spec sections layout (S (hard_cap sections)) 0 0 ∅) as H.
  assert (Hw : wide_ok (jump_keys sections) ∅) by (intros k v; by rewrite lookup_empty).
  specialize (H ltac:(lia) ltac:(lia) ltac:(lia) Hw). fold r in H.
  assert (Ha : forall w, avoids is_convergence_error (relax_pass sections layout w))
    by (intros; apply relax_pass_avoids).
  destruct r as [[w it]|e| |]; simpl; [| |by split; [intros []|]|].
  - split; [done|]. by intros ? ? [= <- <-].
  - split; [|done]. destruct e; try (by intros []); [destruct H as (w' & it & H) | destruct H as (w' & H)];
      specialize (Ha w'); by rewrite H in Ha.
  - split; [|done]. destruct H as (w' & H). specialize (Ha w'). by rewrite H in Ha.
Qed.

(** ** What a fixed point says about every jump *)

Definition settled_branch (s : LoweredSection) (placed : PlacedSection) (offsets : SectionOffsets)
    (symbols : SymbolTable) (layout : LayoutPlan) (w : gmap (SectionId * ItemOrder) bool)
    (b : OrderedItem SymbolicBranch) : Prop :=
  br_kind (item_data b) = Branch_Jump ->
  exists off target delta, so_offsets offsets !! item_order b = Some off
    /\ resolve_target symbols layout (br_target (item_data b)) (low_id s) = Ok target
    /\ @branch_delta RelaxError (placed_cpu_start placed) off (rt_cpu_addr target) = Ok delta
    /\ (is_wide w (low_id s) (item_order b) = false -> in_i8_range delta = true).

Definition settled_section (layout : LayoutPlan) (symbols : SymbolTable)
    (w : gmap (SectionId * ItemOrder) bool) (s : LoweredSection) : Prop :=
  exists placed offsets, placed_for layout (low_id s) = Ok placed
    /\ section_offsets s placed w = Ok offsets
    /\ Forall (settled_branch s placed offsets symbols layout w) (low_branches s).

Lemma relax_branch_unchanged s placed offsets symbols layout st b w' :
  relax_branch s placed offsets symbols layout st b = Ok (w', false) ->
  st = (w', false) /\ settled_branch s placed offsets symbols layout w' b.
Proof.
  destruct st as [w changed]. unfold relax_branch, settled_branch. intros H.
  destruct (bool_decide_reflect (br_kind (item_data b) = Branch_Jump)); cbn [negb] in H.
  - inv_ok. destruct (negb _ && _) eqn:Hc; [done|]. injection H as -> ->. split; [done|].
    intros _. do 3 eexists. split_and!; [done..|]. intros Hw. rewrite Hw in Hc.
    destruct (in_i8_range _); [done | discriminate].
  - injection H as -> ->. by split.
Qed.

Lemma relax_branches_unchanged s placed offsets symbols layout : forall bs st w',
  ofold (relax_branch s placed offsets symbols layout) st bs = Ok (w', false) ->
  st = (w', false) /\ Forall (settled_branch s placed offsets symbols layout w') bs.
Proof.
  induction bs as [|b bs IH]; intros st w' H; cbn [ofold] in H; [injection H as ->; by split|].
  inv_ok. apply IH in H as [-> Hall]. apply relax_branch_unchanged in Hx as [-> Hb].
  split; [done | by constructor].
Qed.

Lemma relax_sections_unchanged layout symbols : forall sections st w',
  ofold (relax_section layout symbols) st sections = Ok (w', false) ->
  st = (w', false) /\ Forall (settled_section layout symbols w') sections.
Proof.
  induction sections as [|s sections IH]; intros st w' H; cbn [ofold] in H; [injection H as ->; by split|].
  inv_ok. apply IH in H as [-> Hall]. unfold relax_section in Hx. inv_ok.
  match goal with Hb : ofold _ _ _ = Ok _ |- _ => apply relax_branches_unchanged in Hb as [-> Hb'] end.
  split; [done|]. constructor; [|done]. unfold settled_section. eauto.
Qed.

Lemma relax_pass_settled sections layout w : relax_pass sections layout w = Ok (w, false) ->
  exists symbols, build_symbol_table sections layout w = Ok symbols
    /\ Forall (settled_section layout symbols w) sections.
Proof.
  unfold relax_pass. intros H. inv_ok. apply relax_sections_unchanged in H as [_ H]. eauto.
Qed.

(** ** Relaxation moves nothing *)

(** Where a placement is, without its size. *)
Definition placed_key (p : PlacedSection) : SectionId * AddressSpace * BankIndex * Z :=
  (placed_id p, placed_space p, placed_bank p, placed_cpu_start p).

(** [ps'] starts with the placements [ps], possibly resized. *)
Definition same_places_prefix (l l' : LayoutPlan) : Prop :=
  exists rest, map placed_key (plan_sections l') = map placed_key (plan_sections l) ++ rest.

Lemma same_places_refl l : same_places_prefix l l.
Proof. exists []. by rewrite app_nil_r. Qed.

Lemma same_places_trans l1 l2 l3 :
  same_places_prefix l1 l2 -> same_places_prefix l2 l3 -> same_places_prefix l1 l3.
Proof.
  intros [r1 H1] [r2 H2]. exists (r1 ++ r2). by rewrite H2, H1, app_assoc.
Qed.

Lemma placement_for_cons p ps id bc fb rr :
  placement_for (MkLayoutPlan (p :: ps) bc fb rr) id
  = if bool_decide (placed_id p = id) then Some p
    else placement_for (MkLayoutPlan ps bc fb rr) id.
Proof.
  unfold placement_for. simpl. case_decide; case_bool_decide; try done.
  by destruct (list_find _ ps) as [[]|].
Qed.

Lemma placed_for_same l l' id p : same_places_prefix l l' -> placed_for l id = Ok p ->
  exists p', placed_for l' id = Ok p' /\ placed_key p' = placed_key p.
Proof.
  destruct l as [ps bc fb rr], l' as [ps' bc' fb' rr']. intros [rest H]. simpl in H.
  unfold placed_for. intros Hp. apply ok_or_Ok in Hp.
  cut (exists p', placement_for (MkLayoutPlan ps' bc' fb' rr') id = Some p' /\ placed_key p' = placed_key p).
  { intros (p' & -> & ?). eauto. }
  revert ps' H Hp. induction ps as [|q ps IH]; intros ps' H Hp; [done|].
  destruct ps' as [|q' ps']; [done|]. simpl in H. injection H as Hid Hsp Hb Hc H.
  rewrite placement_for_cons in Hp |- *. rewrite Hid.
  case_bool_decide; [|by apply IH]. injection Hp as <-. exists q'. split; [done|].
  unfold placed_key. by rewrite Hid, Hsp, Hb, Hc.
Qed.

Lemma resolve_target_same sy l l' t id rt : same_places_prefix l l' ->
  resolve_target sy l t id = Ok rt -> resolve_target sy l' t id = Ok rt.
Proof.
  intros Hs. unfold resolve_target. intros H. inv_ok.
  match goal with Hp : placed_for l _ = Ok _ |- _ =>
    destruct (placed_for_same _ _ _ _ Hs Hp) as (p' & Hp' & Hk) end.
  injection Hk as _ _ Hb Hc. rewrite Hx. cbn [ok_or obind]. rewrite Hp'. cbn [obind].
  rewrite Hc. match goal with Hu : uadd _ _ _ = Ok _ |- _ => rewrite Hu end. cbn [obind].
  match goal with Hu : try_from_u _ _ = Some _ |- _ => rewrite Hu end. cbn [obind ok_or].
  by rewrite Hb.
Qed.

Lemma section_offsets_same s p p' w : placed_cpu_start p = placed_cpu_start p' ->
  section_offsets s p w = section_offsets s p' w.
Proof. unfold section_offsets. by intros ->. Qed.

Lemma set_final_size_keys id size padding ps :
  map placed_key (set_final_size id size padding ps) = map placed_key ps.
Proof.
  induction ps as [|p ps IH]; [done|]. simpl. case_bool_decide; [done|]. simpl. by rewrite IH.
Qed.

(** ** Offsets *)

(** Every offset lies within the section and every stored padding is the one
    the step computed. *)
Definition offsets_ok (st : SectionOffsets) : Prop :=
  0 <= so_size st /\ forall o off, so_offsets st !! o = Some off -> 0 <= off <= so_size st.

Lemma offset_step_grows id c st oi st' : 0 <= c -> 0 <= so_size st ->
  match oi.2 with Off_Fixed n => 0 <= n | Off_Align a => 1 <= a | Off_Label => True end ->
  offset_step id c st oi = Ok st' -> so_size st <= so_size st'.
Proof.
  destruct oi as [o []]; simpl; intros Hc Hs Hi H; inv_arith; simpl; lia.
Qed.

Lemma offset_step_ok id c st oi st' : 0 <= c -> offsets_ok st ->
  match oi.2 with Off_Fixed n => 0 <= n | Off_Align a => 1 <= a | Off_Label => True end ->
  offset_step id c st oi = Ok st' -> offsets_ok st'.
Proof.
  intros Hc [Hs Hoff] Hi H. pose proof (offset_step_grows _ _ _ _ _ Hc Hs Hi H) as Hg.
  split; [lia|]. intros o off.
  assert (Hm : so_offsets st' = <[oi.1 := so_size st]> (so_offsets st)).
  { destruct oi as [? []]; simpl in H; inv_ok; done. }
  rewrite Hm. destruct (decide (o = oi.1)) as [->|Hne].
  - rewrite lookup_insert_eq. intros [= <-]. lia.
  - rewrite lookup_insert_ne by done. intros Ho. pose proof (Hoff _ _ Ho). lia.
Qed.

(** ** The relaxed size is at most the layout size *)

(** The alignments inside a section are [NonZeroU16]. *)
Definition items_ok (s : LoweredSection) : Prop :=
  Forall (fun a => 1 <= Align_0 (item_data a) < 65536) (low_alignments s).

(** An item of the layout and the same item of relaxation: a branch may have
    become shorter. *)
Definition item_le (a : ItemOrder * OffsetItem) (b : ItemOrder * SizeItem) : Prop :=
  a.1 = b.1 /\
  match a.2, b.2 with
  | Off_Label, Size_Label => True
  | Off_Fixed n, Size_Fixed m => 0 <= n <= m
  | Off_Align n, Size_Align m => n = m /\ 1 <= n < 65536
  | _, _ => False
  end.

Lemma map_Forall2 {A B C} (R : B -> C -> Prop) (f : A -> B) (g : A -> C) l :
  (forall x, x ∈ l -> R (f x) (g x)) -> Forall2 R (map f l) (map g l).
Proof.
  induction l as [|x l IH]; intros H; [constructor|]. simpl. constructor; [apply H; by left|].
  apply IH. intros y Hy. apply H. by right.
Qed.

Lemma DataBlock_byte_len_nonneg {E} d n : @DataBlock_byte_len E d = Ok n -> 0 <= n.
Proof.
  destruct d as [b|w]; simpl; intros H; inv_arith; subst; unfold wrap.
  - by apply Z.mod_pos_bound.
  - pose proof (Z.mod_pos_bound (zlen w) U32 eq_refl). lia.
Qed.

Lemma offset_items_le s w items : size_items s = Ok items -> items_ok s ->
  exists items', offset_items s w = Ok items' /\ Forall2 item_le items' items.
Proof.
  unfold size_items, offset_items. intros H Hs. inv_ok. rename x into blocks.
  assert (exists blocks', omapM (E := RelaxError) (fun i => let* n := DataBlock_byte_len (item_data i) in
            Ok (item_order i, Off_Fixed n)) (low_data_blocks s) = Ok blocks'
          /\ Forall2 item_le blocks' blocks) as (blocks' & -> & Hb).
  { apply omapM_Forall2 in Hx. revert Hx. generalize (low_data_blocks s). intros l Hx.
    induction Hx as [|i y l l' Hi Hl IH]; [by exists []|]. destruct IH as (ys & Hys & Hall). inv_ok.
    cbn [omapM]. pose proof (DataBlock_byte_len_nonneg _ _ Hx).
    assert (DataBlock_byte_len (E := RelaxError) (item_data i) = Ok x) as ->.
    { revert Hx. unfold DataBlock_byte_len, umul. destruct (item_data i); [by intros [= ->]|].
      case_match; by intros [= ->]. }
    cbn [obind]. rewrite Hys. cbn [obind]. eexists. split; [done|]. constructor; [|done].
    split; simpl; [done|lia]. }
  cbn [obind]. eexists. split; [done|]. repeat apply Forall2_app; try done; apply map_Forall2;
    intros i Hi; split; simpl; try done.
  - pose proof (instr_bytes_pos (item_data i)). lia.
  - unfold items_ok in Hs. rewrite Forall_forall in Hs. split; [done|]. by apply Hs.
  - unfold branch_size, branch_layout_size. destruct (br_kind (item_data i)); repeat case_match; lia.
  - destruct (item_data i). simpl. lia.
Qed.

Lemma size_step_grows id st oi st' : 0 <= st.1 ->
  match oi.2 with Size_Fixed n => 0 <= n | Size_Align a => 1 <= a | Size_Label => True end ->
  size_step id st oi = Ok st' -> st.1 <= st'.1.
Proof.
  destruct st as [c pad], oi as [o []]; simpl; intros Hc Hi H; inv_ok; simpl; [lia| |].
  - match goal with Hq : checked_add _ _ _ = Some _ |- _ => apply checked_add_Some in Hq end. lia.
  - match goal with Hq : align_u32 _ _ = Ok _ |- _ => apply align_u32_Ok in Hq; lia end.
Qed.

Lemma item_le_pos a b : item_le a b ->
  match b.2 with Size_Fixed n => 0 <= n | Size_Align a => 1 <= a | Size_Label => True end.
Proof. destruct a as [? []], b as [? []]; intros [_ H]; simpl in *; try done; lia. Qed.

Lemma size_fold_grows id : forall items items' st st', Forall2 item_le items' items -> 0 <= st.1 ->
  ofold (size_step id) st items = Ok st' -> st.1 <= st'.1.
Proof.
  induction items as [|i items IH]; intros items' st st' Hall Hc H; cbn [ofold] in H.
  - injection H as <-. done.
  - inversion Hall as [|i' ? l' ? Hi Hl]; subst. inv_ok.
    pose proof (size_step_grows _ _ _ _ Hc (item_le_pos _ _ Hi) Hx).
    etrans; [done|]. eapply IH; [done | lia | done].
Qed.

(** One step of relaxation follows one step of the layout. *)
Lemma offset_step_le id c st cur pad oi oi' cur' pad' : 0 <= c -> 0 <= so_size st ->
  c + so_size st <= cur -> item_le oi' oi ->
  size_step id (cur, pad) oi = Ok (cur', pad') -> cur' < 131072 ->
  exists st', offset_step id c st oi' = Ok st' /\ c + so_size st' <= cur' /\ 0 <= so_size st'.
Proof.
  intros Hc Hs Hle [Ho Hi] H Hb. destruct oi as [o item], oi' as [o' item']; simpl in *; subst o'.
  destruct item', item; simpl in *; try done; inv_ok.
  - eauto.
  - match goal with Hq : checked_add _ _ _ = Some _ |- _ => apply checked_add_Some in Hq as [? ->] end.
    unfold uadd. rewrite (proj2 (Z.ltb_lt _ _)) by lia. cbn [obind]. eexists. split; [done|]. simpl. lia.
  - destruct Hi as [<- Ha].
    match goal with Hq : align_u32 _ _ = Ok _ |- _ => rename Hq into Hal end.
    unfold align_u32 in Hal. apply umul_Ok in Hal as [? ->].
    pose proof (div_ceil_spec cur align ltac:(lia) ltac:(lia)).
    pose proof (div_ceil_spec (c + so_size st) align ltac:(lia) ltac:(lia)) as Hd.
    pose proof (div_ceil_mono (c + so_size st) cur align ltac:(lia) Hle) as Hm.
    unfold uadd, relax_align_u32, umul, usub. rewrite (proj2 (Z.ltb_lt (c + _) U32)) by lia.
    cbn [obind]. rewrite (proj2 (Z.ltb_lt _ U32)) by nia. cbn [obind].
    rewrite (proj2 (Z.leb_le _ _)) by lia. cbn [obind]. unfold try_from_u.
    rewrite (proj2 (Z.leb_le 0 _)) by lia. rewrite (proj2 (Z.ltb_lt _ U16)) by lia.
    cbn [andb ok_or obind]. rewrite (proj2 (Z.ltb_lt _ U32)) by lia. cbn [obind].
    eexists. split; [done|]. simpl. nia.
Qed.

Lemma offset_fold_le id c : 0 <= c -> forall items items' st cur pad cur' pad',
  Forall2 item_le items' items -> 0 <= so_size st -> c + so_size st <= cur ->
  ofold (size_step id) (cur, pad) items = Ok (cur', pad') -> cur' < 131072 ->
  exists st', ofold (offset_step id c) st items' = Ok st' /\ c + so_size st' <= cur'.
Proof.
  intros Hc. induction items as [|i items IH]; intros items' st cur pad cur' pad' Hall Hs Hle H Hb.
  - inversion Hall; subst. injection H as -> ->. eauto.
  - inversion Hall as [|i' ? l' ? Hi Hl]; subst. cbn [ofold] in H. inv_ok. destruct x as [c1 p1].
    pose proof (size_fold_grows id items l' (c1, p1) (cur', pad') Hl) as Hg. simpl in Hg.
    pose proof (size_step_grows id (cur, pad) i (c1, p1) ltac:(simpl; lia) (item_le_pos _ _ Hi) Hx) as Hg1.
    simpl in Hg1. specialize (Hg ltac:(lia) H).
    destruct (offset_step_le id c st cur pad i i' c1 p1 Hc Hs Hle Hi Hx ltac:(lia))
      as (st1 & Hst1 & Hle1 & Hs1).
    cbn [ofold]. rewrite Hst1. cbn [obind]. by eapply IH.
Qed.

Lemma section_offsets_le s p w n pad : items_ok s -> 0 <= placed_cpu_start p < 65536 ->
  section_size_from s (placed_cpu_start p) = Ok (n, pad) -> n < 65536 ->
  exists offs, section_offsets s p w = Ok offs /\ so_size offs <= n.
Proof.
  intros Hs Hc H Hn. unfold section_size_from in H. inv_ok. destruct x0 as [cur pad0]. inv_arith.
  match goal with Hi : size_items s = Ok _ |- _ =>
    destruct (offset_items_le s w _ Hi Hs) as (items' & Hitems' & Hall) end.
  apply (sort_by_Forall2 offset_leb size_leb) in Hall.
  2: { intros a b a' b' [Ha _] [Hb _]. unfold offset_leb, size_leb. by rewrite Ha, Hb. }
  edestruct (offset_fold_le (low_id s) (placed_cpu_start p)) as (offs & Hoffs & Hle);
    [| exact Hall | | | eassumption | |].
  - lia.
  - instantiate (1 := MkSectionOffsets ∅ ∅ 0). simpl. lia.
  - simpl. lia.
  - lia.
  - exists offs. unfold section_offsets. rewrite Hitems'. cbn [obind]. split; [done | lia].
Qed.

(** The items of relaxation alone. *)
Definition item_pos (oi : ItemOrder * OffsetItem) : Prop :=
  match oi.2 with Off_Fixed n => 0 <= n | Off_Align a => 1 <= a | Off_Label => True end.

Lemma offset_items_pos s w items : items_ok s -> offset_items s w = Ok items ->
  Forall item_pos items.
Proof.
  unfold offset_items. intros Hs H. inv_ok. rewrite !Forall_app, !Forall_fmap.
  split_and!; apply Forall_forall; intros i Hi; unfold item_pos; simpl; try done.
  - pose proof (instr_bytes_pos (item_data i)). lia.
  - apply omapM_Forall2 in Hx. apply list_elem_of_lookup in Hi as [k Hk].
    destruct (Forall2_lookup_r _ _ _ _ _ Hx Hk) as (d & _ & Hd). inv_ok.
    by eapply DataBlock_byte_len_nonneg.
  - unfold items_ok in Hs. rewrite Forall_forall in Hs. pose proof (Hs i Hi). lia.
  - unfold branch_size. repeat case_match; lia.
Qed.

Lemma offset_fold_ok id c : 0 <= c -> forall items st st', Forall item_pos items -> offsets_ok st ->
  ofold (offset_step id c) st items = Ok st' ->
  offsets_ok st' /\ so_size st <= so_size st'
  /\ forall o, (o ∈ map fst items \/ is_Some (so_offsets st !! o)) -> is_Some (so_offsets st' !! o).
Proof.
  intros Hc. induction items as [|i items IH]; intros st st' Hall Hok H; cbn [ofold] in H.
  - injection H as <-. split_and!; [done | lia|]. intros o [Ho|Ho]; [by apply elem_of_nil in Ho|done].
  - apply Forall_cons in Hall as [Hi Hall]. inv_ok.
    pose proof (offset_step_ok _ _ _ _ _ Hc Hok Hi Hx) as Hok1.
    pose proof (offset_step_grows _ _ _ _ _ Hc (proj1 Hok) Hi Hx) as Hg.
    destruct (IH _ _ Hall Hok1 H) as (Hok2 & Hg2 & Hdom). split_and!; [done | lia |].
    assert (Hm : so_offsets x = <[i.1 := so_size st]> (so_offsets st)).
    { destruct i as [? []]; simpl in Hx; inv_ok; done. }
    intros o Ho. apply Hdom. simpl in Ho. rewrite elem_of_cons in Ho.
    destruct Ho as [[->|Ho]|Ho]; [right | by left | right]; rewrite Hm.
    + rewrite lookup_insert_eq. by eexists.
    + apply lookup_insert_is_Some'. by right.
Qed.

Lemma section_offsets_ok s p w offs : items_ok s -> 0 <= placed_cpu_start p ->
  section_offsets s p w = Ok offs -> offsets_ok offs.
Proof.
  unfold section_offsets. intros Hs Hc H. inv_ok.
  eapply (offset_fold_ok _ _ Hc); [| |exact H].
  - rewrite Forall_forall. intros oi Hoi. rewrite elem_of_sort_by in Hoi. revert oi Hoi.
    apply Forall_forall. by eapply offset_items_pos.
  - split; [done|]. intros o off. simpl. by rewrite lookup_empty.
Qed.

(** The orders the offsets are defined at. *)
Lemma section_offsets_dom s p w offs o : items_ok s -> 0 <= placed_cpu_start p ->
  section_offsets s p w = Ok offs ->
  o ∈ map item_order (low_labels s) \/ o ∈ map item_order (low_branches s) ->
  is_Some (so_offsets offs !! o).
Proof.
  unfold section_offsets. intros Hs Hc H Ho. inv_ok.
  eapply (offset_fold_ok _ _ Hc); [| |exact H|].
  - rewrite Forall_forall. intros oi Hoi. rewrite elem_of_sort_by in Hoi. revert oi Hoi.
    apply Forall_forall. by eapply offset_items_pos.
  - split; [done|]. intros o' off. simpl. by rewrite lookup_empty.
  - left. unfold offset_items in Hx. inv_ok.
    apply list_elem_of_fmap. destruct Ho as [Ho|Ho]; apply list_elem_of_fmap in Ho as (i & -> & Hi).
    + exists (item_order i, Off_Label). split; [done|]. rewrite elem_of_sort_by, !elem_of_app.
      left. apply list_elem_of_fmap. eauto.
    + eexists (item_order i, _). split; [done|]. rewrite elem_of_sort_by, !elem_of_app.
      right. right. right. right. left. apply list_elem_of_fmap. eauto.
Qed.

(** ** What an emitted branch does *)

(** Where a jump or call at address [addr] goes, and its condition. *)
Definition jump_destination (addr : Z) (i : Instr) : option Z :=
  match i with
  | I_JpAbs _ a | I_Call _ a => Some a
  | I_JrRel _ d => Some (addr + 2 + d)
  | _ => None
  end.

(** The instruction has the branch's kind and condition. *)
Definition implements (b : SymbolicBranch) (i : Instr) : Prop :=
  match br_kind b, i with
  | Branch_AbsoluteJump, I_JpAbs c _ | Branch_Jump, I_JpAbs c _ | Branch_Call, I_Call c _ =>
      c = br_cond b
  | Branch_Jump, I_JrRel c d => c = br_cond b /\ -128 <= d <= 127
  | _, _ => False
  end.

Definition resolves (symbols : SymbolTable) (layout : LayoutPlan) (t : SymbolName)
    (rt : ResolvedTarget) : Prop := forall used_in, resolve_target symbols layout t used_in = Ok rt.

(** The address of the [n]-th thunk of the pool. *)
Definition thunk_address (n : nat) : Z := 0x3F00 + 0x10 * Z.of_nat n.

(** [addr] is where code in [bank] has to go to reach [t]: the target itself,
    or its thunk when the target is in another switchable bank. *)
Definition reaches (symbols : SymbolTable) (layout : LayoutPlan) (order : list SymbolName)
    (bank : BankIndex) (t : SymbolName) (addr : Z) : Prop :=
  exists rt, resolves symbols layout t rt
    /\ if directly_reachable bank (rt_bank rt) then addr = rt_cpu_addr rt
       else exists n, order !! n = Some t /\ addr = thunk_address n.

Record thunk_inv (symbols : SymbolTable) (layout : LayoutPlan) (ts : ThunkState) : Prop := {
  ti_dom : forall t, t ∈ thunk_order ts <-> is_Some (thunk_by_target ts !! t);
  ti_nodup : NoDup (thunk_order ts);
  ti_len : (length (thunk_order ts) <= 16)%nat;
  ti_req : forall t r, thunk_by_target ts !! t = Some r ->
    req_target r = t /\ SymbolName_runtime_thunk_for t = Ok (req_thunk_symbol r)
    /\ resolves symbols layout t (MkResolvedTarget (req_callee_bank r) (req_target_cpu_addr r))
    /\ req_callee_bank r <> Bank_Rom 0;
}.

Lemma resolve_target_resolves sy l t id rt : resolve_target sy l t id = Ok rt -> resolves sy l t rt.
Proof.
  unfold resolves, resolve_target. intros H used_in. inv_ok.
  rewrite Hx. cbn [ok_or obind]. rewrite Hx0. cbn [obind]. rewrite Hx1. cbn [obind].
  match goal with Hu : try_from_u _ _ = Some _ |- _ => by rewrite Hu end.
Qed.

Lemma resolves_same sy l l' t rt : same_places_prefix l l' -> resolves sy l t rt -> resolves sy l' t rt.
Proof. intros Hs H used_in. by eapply resolve_target_same. Qed.

Lemma reaches_order sy l order order' bank t addr : order `prefix_of` order' ->
  reaches sy l order bank t addr -> reaches sy l order' bank t addr.
Proof.
  intros Hp (rt & Hrt & H). exists rt. split; [done|]. destruct (directly_reachable _ _); [done|].
  destruct H as (n & Hn & ->). exists n. split; [by eapply prefix_lookup_Some|done].
Qed.

Lemma thunk_cpu_start_Ok n a : (Z.of_nat n < 4294967296) -> thunk_cpu_start (Z.of_nat n) = Ok a ->
  a = thunk_address n /\ (n < 16)%nat.
Proof.
  unfold thunk_cpu_start, thunk_address. intros Hn H.
  unfold wrap at 1 in H. rewrite Z.mod_small in H by lia. inv_arith.
  destruct (ROM0_END_EXCLUSIVE <? x1) eqn:Hlt; [inv_arith; done|]. apply Z.ltb_ge in Hlt.
  unfold ROM0_END_EXCLUSIVE, ROM0_THUNK_POOL_START in *. injection H as <-.
  unfold wrap. rewrite Z.mod_small by lia. lia.
Qed.

Lemma thunk_cpu_start_small n : (n < 16)%nat -> thunk_cpu_start (Z.of_nat n) = Ok (thunk_address n).
Proof. intros Hn. do 16 (destruct n as [|n]; [reflexivity|]). lia. Qed.

Lemma position_lookup t l i : position t l = Some i -> exists n, i = Z.of_nat n /\ l !! n = Some t.
Proof.
  unfold position. intros H. apply fmap_Some in H as ([n t'] & H & ->).
  apply list_find_Some in H as (Hl & -> & _). eauto.
Qed.

Lemma thunk_inv_add sy l ts t rt sym chain : thunk_inv sy l ts -> thunk_by_target ts !! t = None ->
  SymbolName_runtime_thunk_for t = Ok sym -> resolves sy l t rt -> rt_bank rt <> Bank_Rom 0 ->
  (length (thunk_order ts) < 16)%nat ->
  thunk_inv sy l (MkThunkState
    (<[t := MkResolvedThunkRequest sym t (rt_bank rt) (rt_cpu_addr rt) chain]> (thunk_by_target ts))
    (thunk_order ts ++ [t])).
Proof.
  intros [Hdom Hnd Hlen Hreq] Hn Hsym Hrt Hb Hl. constructor; simpl.
  - intros t'. rewrite elem_of_app, list_elem_of_singleton, Hdom.
    destruct (decide (t' = t)) as [->|Hne].
    + rewrite lookup_insert_eq. split; [by eexists | by right].
    + rewrite lookup_insert_ne by done. split; [by intros [|]|by left].
  - apply NoDup_app. split_and!; [done | | apply NoDup_singleton].
    intros x Hx ->%list_elem_of_singleton. apply Hdom in Hx as [r Hr]. congruence.
  - rewrite length_app. simpl. lia.
  - intros t' r. destruct (decide (t' = t)) as [->|Hne].
    + rewrite lookup_insert_eq. intros [= <-]. simpl. by destruct rt.
    + rewrite lookup_insert_ne by done. apply Hreq.
Qed.

Lemma directly_reachable_false_rom0 a b : directly_reachable a b = false -> b <> Bank_Rom 0.
Proof. unfold directly_reachable. intros [H _]%orb_false_iff. by apply bool_decide_eq_false in H. Qed.

Lemma call_addr_spec id p l sy ts t chain addr ts' : thunk_inv sy l ts ->
  call_addr_for_target id p l sy ts t chain = Ok (addr, ts') ->
  thunk_inv sy l ts' /\ thunk_order ts `prefix_of` thunk_order ts'
  /\ reaches sy l (thunk_order ts') (placed_bank p) t addr.
Proof.
  intros Hinv H. unfold call_addr_for_target in H. inv_ok. rename x into rt.
  pose proof (resolve_target_resolves _ _ _ _ _ Hx) as Hrt.
  destruct (directly_reachable _ _) eqn:Hd.
  { injection H as <- <-. split_and!; [done | done|]. exists rt. by rewrite Hd. }
  apply obind_Ok in H as (ts1 & Hts1 & H). apply obind_Ok in H as (idx & Hidx & H).
  apply obind_Ok in H as (a & Ha & H). apply expect_Ok in Hidx. injection H as <- <-.
  match goal with Hp : position _ _ = Some _ |- _ => apply position_lookup in Hp as (n & -> & Hn) end.
  assert (Hts : ts1 = ts \/ (thunk_by_target ts !! t = None /\ exists sym,
    SymbolName_runtime_thunk_for t = Ok sym /\ ts1 = MkThunkState
     (<[t := MkResolvedThunkRequest sym t (rt_bank rt) (rt_cpu_addr rt) chain]> (thunk_by_target ts))
     (thunk_order ts ++ [t]))).
  { destruct (thunk_by_target ts !! t); [left; congruence|].
    destruct (SymbolName_runtime_thunk_for t) as [sym| | |]; try done. right. split; [done|].
    exists sym. split; congruence. }
  assert (Hlen : (length (thunk_order ts1) <= 17)%nat).
  { pose proof (ti_len _ _ _ Hinv). destruct Hts as [->|(_ & sym & _ & ->)]; [lia|].
    simpl. rewrite length_app. simpl. lia. }
  pose proof (lookup_lt_Some _ _ _ Hn).
  match goal with Ht : thunk_cpu_start _ = Ok _ |- _ => apply thunk_cpu_start_Ok in Ht as [-> Hn16]; [|lia] end.
  destruct Hts as [->|(Hnone & sym & Hsym & ->)]; simpl in *.
  - split_and!; [done | done|]. exists rt. rewrite Hd. eauto.
  - split_and!.
    + eapply (thunk_inv_add _ _ _ _ rt); try done; [by eapply directly_reachable_false_rom0|].
      apply lookup_app_Some in Hn as [Hn|[Hle Hn]].
      * exfalso. assert (t ∈ thunk_order ts) as [r Hr]%(ti_dom _ _ _ Hinv)
          by by eapply list_elem_of_lookup_2. congruence.
      * apply list_lookup_singleton_Some in Hn as [Hz _]. lia.
    + by apply prefix_app_r.
    + exists rt. rewrite Hd. eauto.
Qed.

(** ** Legalizing a section *)

(** The emitted item [i] does what the branch item [b] asks, at its offset. *)
Record branch_emitted (symbols : SymbolTable) (layout : LayoutPlan) (order : list SymbolName)
    (placed : PlacedSection) (offs : SectionOffsets) (wide : bool)
    (b : OrderedItem SymbolicBranch) (i : OrderedItem Instr) : Prop := {
  be_order : item_order i = ItemOrder_new (item_seq b) 0;
  be_prov : item_prov i = item_prov b;
  be_implements : implements (item_data b) (item_data i);
  be_len : Instr_byte_len (item_data i) = branch_size wide (item_data b);
  be_lands : exists off dest, so_offsets offs !! item_order b = Some off
    /\ jump_destination (placed_cpu_start placed + off) (item_data i) = Some dest
    /\ reaches symbols layout order (placed_bank placed) (br_target (item_data b)) dest;
}.

Record op_emitted (symbols : SymbolTable) (layout : LayoutPlan) (order : list SymbolName)
    (placed : PlacedSection) (op : OrderedItem LegalizationOp) (i : OrderedItem Instr) : Prop := {
  oe_order : item_order i = ItemOrder_new (item_seq op) 0;
  oe_prov : item_prov i = item_prov op;
  oe_call : exists dest, item_data i = I_Call None dest
    /\ match item_data op with
       | Op_FarCall t _ => reaches symbols layout order (placed_bank placed) t dest
       end;
}.

Lemma branch_emitted_order sy l o o' p offs w b i : o `prefix_of` o' ->
  branch_emitted sy l o p offs w b i -> branch_emitted sy l o' p offs w b i.
Proof.
  intros Ho [? ? ? ? (off & dest & ? & ? & ?)]. constructor; try done.
  exists off, dest. split_and!; try done. by eapply reaches_order.
Qed.

Lemma op_emitted_order sy l o o' p op i : o `prefix_of` o' ->
  op_emitted sy l o p op i -> op_emitted sy l o' p op i.
Proof.
  intros Ho [? ? (dest & ? & ?)]. constructor; try done.
  exists dest. split; [done|]. destruct (item_data op). by eapply reaches_order.
Qed.

Lemma branch_delta_Ok {E} c off a d : 0 <= off < 65536 -> @branch_delta E c off a = Ok d ->
  c + off + 2 + d = a.
Proof.
  intros Hr. unfold branch_delta, i32_checked, as_i32. rewrite (proj2 (Z.ltb_lt off 2147483648)) by lia.
  intros H.
  repeat (destruct (_ && _); cbn [obind] in H; [|done]). injection H as <-. lia.
Qed.

Lemma reaches_direct sy l o bank t rt : resolves sy l t rt ->
  directly_reachable bank (rt_bank rt) = true -> reaches sy l o bank t (rt_cpu_addr rt).
Proof. intros Hr Hd. exists rt. by rewrite Hd. Qed.

Lemma legalize_branch_spec s p l sy w b off i order offs :
  legalize_branch (low_id s) p l sy w (item_data b) (item_order b) off = Ok i ->
  so_offsets offs !! item_order b = Some off -> 0 <= off < 65536 ->
  branch_emitted sy l order p offs (is_wide w (low_id s) (item_order b)) b
    (OrderedItem_new i (item_seq b) (item_prov b)).
Proof.
  unfold legalize_branch. intros H Hoff Hr. inv_ok. rename x into rt.
  pose proof (resolve_target_resolves _ _ _ _ _ Hx) as Hrt.
  match goal with Hd : ensure_directly_reachable _ _ _ _ = Ok _ |- _ =>
    unfold ensure_directly_reachable in Hd; apply guard_err_Ok in Hd as [Hd%negb_false_iff _];
    pose proof (reaches_direct _ _ order _ _ _ Hrt Hd) as Hreach end.
  destruct (br_kind (item_data b)) eqn:Hk.
  - injection H as <-. constructor; simpl; unfold implements, branch_size; rewrite ?Hk; try done; eauto 10.
  - destruct (is_wide _ _ _) eqn:Hw.
    + injection H as <-. constructor; simpl; unfold implements, branch_size; rewrite ?Hk; try done; eauto 10.
    + apply obind_Ok in H as (delta & Hdelta & H). inv_ok. apply branch_delta_Ok in Hdelta; [|done].
      match goal with Hg : negb (in_i8_range _) = false |- _ =>
        apply negb_false_iff in Hg; unfold in_i8_range in Hg end.
      constructor; simpl; unfold implements, branch_size; rewrite ?Hk; try done.
      * split; [done|]. lia.
      * exists off, (rt_cpu_addr rt). split_and!; [done | | done]. f_equal. lia.
  - injection H as <-. constructor; simpl; unfold implements, branch_size; rewrite ?Hk; try done; eauto 10.
Qed.

Lemma legalize_branch_item_spec s p l sy w offs eb ts b eb' ts' : thunk_inv sy l ts ->
  offsets_ok offs -> so_size offs < 65536 -> is_Some (so_offsets offs !! item_order b) ->
  legalize_branch_item s p l sy w offs (eb, ts) b = Ok (eb', ts') ->
  thunk_inv sy l ts' /\ thunk_order ts `prefix_of` thunk_order ts'
  /\ exists i, eb' = eb ++ [i]
       /\ branch_emitted sy l (thunk_order ts') p offs (is_wide w (low_id s) (item_order b)) b i.
Proof.
  intros Hinv [Hsize Hoffs] Hlt [off Hoff] H. pose proof (Hoffs _ _ Hoff) as Hr.
  unfold legalize_branch_item in H. apply obind_Ok in H as ([i ts1] & Hi & [= <- <-]).
  assert (Hnear : (let* offset := expect (so_offsets offs !! item_order b) in
            let* instr := legalize_branch (low_id s) p l sy w (item_data b) (item_order b) offset in
            Ok (instr, ts)) = Ok (i, ts1) ->
    thunk_inv sy l ts1 /\ thunk_order ts `prefix_of` thunk_order ts1
    /\ exists i', eb ++ [OrderedItem_new i (item_seq b) (item_prov b)] = eb ++ [i']
       /\ branch_emitted sy l (thunk_order ts1) p offs (is_wide w (low_id s) (item_order b)) b i').
  { rewrite Hoff. cbn [expect obind]. intros H. apply obind_Ok in H as (i' & Hi' & [= <- <-]).
    split_and!; [done | done|]. eexists. split; [done|]. eapply legalize_branch_spec; [done..|lia]. }
  destruct (br_kind (item_data b)) eqn:Hk; [by apply Hnear | by apply Hnear |].
  destruct (br_call_reachability (item_data b)) as [|chain] eqn:Hr'; [by apply Hnear|].
  apply obind_Ok in Hi as ([addr ts2] & Hcall & [= <- <-]).
  destruct (call_addr_spec _ _ _ _ _ _ _ _ _ Hinv Hcall) as (Hinv' & Hpre & Hreach).
  split_and!; [done | done|]. eexists. split; [done|].
  constructor; simpl; try done.
  - unfold implements. by rewrite Hk.
  - unfold branch_size. by rewrite Hk.
  - eauto 10.
Qed.

Lemma prefix_of_trans {A} (a b c : list A) : a `prefix_of` b -> b `prefix_of` c -> a `prefix_of` c.
Proof. intros H1 H2. by etrans. Qed.

Lemma legalize_branches_spec s p l sy w offs : offsets_ok offs -> so_size offs < 65536 ->
  forall bs eb ts eb' ts',
  (forall b, b ∈ bs -> is_Some (so_offsets offs !! item_order b)) -> thunk_inv sy l ts ->
  ofold (legalize_branch_item s p l sy w offs) (eb, ts) bs = Ok (eb', ts') ->
  thunk_inv sy l ts' /\ thunk_order ts `prefix_of` thunk_order ts'
  /\ exists il, eb' = eb ++ il
       /\ Forall2 (fun b i => branch_emitted sy l (thunk_order ts') p offs
                                (is_wide w (low_id s) (item_order b)) b i) bs il.
Proof.
  intros Hok Hlt. induction bs as [|b bs IH]; intros eb ts eb' ts' Hdom Hinv H; cbn [ofold] in H.
  - injection H as <- <-. split_and!; [done | done|]. exists []. by rewrite app_nil_r.
  - apply obind_Ok in H as ([eb1 ts1] & Hb & H).
    destruct (legalize_branch_item_spec _ _ _ _ _ _ _ _ _ _ _ Hinv Hok Hlt (Hdom b ltac:(by left)) Hb)
      as (Hinv1 & Hpre1 & i & -> & Hi).
    destruct (IH _ _ _ _ ltac:(intros; apply Hdom; by right) Hinv1 H) as (Hinv2 & Hpre2 & il & -> & His).
    split_and!; [done | by eapply prefix_of_trans|]. exists (i :: il). rewrite <- app_assoc.
    split; [done|]. constructor; [by eapply branch_emitted_order | done].
Qed.

Lemma legalize_ops_spec s p l sy : forall ops eo ts eo' ts', thunk_inv sy l ts ->
  ofold (legalize_op_item s p l sy) (eo, ts) ops = Ok (eo', ts') ->
  thunk_inv sy l ts' /\ thunk_order ts `prefix_of` thunk_order ts'
  /\ exists il, eo' = eo ++ il
       /\ Forall2 (op_emitted sy l (thunk_order ts') p) ops il.
Proof.
  induction ops as [|op ops IH]; intros eo ts eo' ts' Hinv H; cbn [ofold] in H.
  - injection H as <- <-. split_and!; [done | done|]. exists []. by rewrite app_nil_r.
  - apply obind_Ok in H as ([eo1 ts1] & Hop & H). unfold legalize_op_item in Hop.
    destruct (item_data op) as [t chain] eqn:Hdata.
    apply obind_Ok in Hop as ([addr ts2] & Hcall & [= <- <-]).
    destruct (call_addr_spec _ _ _ _ _ _ _ _ _ Hinv Hcall) as (Hinv1 & Hpre1 & Hreach).
    destruct (IH _ _ _ _ Hinv1 H) as (Hinv2 & Hpre2 & il & -> & His).
    split_and!; [done | by eapply prefix_of_trans|]. eexists (_ :: il). rewrite <- app_assoc.
    split; [done|]. constructor; [|done]. apply (op_emitted_order _ _ (thunk_order ts2)); [done|].
    constructor; try done. exists addr. by rewrite Hdata.
Qed.

(** The legalized section of a lowered section. *)
Record section_legalized (symbols : SymbolTable) (layout : LayoutPlan) (order : list SymbolName)
    (placed : PlacedSection) (offs : SectionOffsets) (w : gmap (SectionId * ItemOrder) bool)
    (s : LoweredSection) (leg : LegalizedSection) : Prop := {
  sl_id : leg_id leg = low_id s;
  sl_policy : leg_role leg = low_role s /\ leg_name leg = low_name s
              /\ leg_interrupt_vector leg = low_interrupt_vector s
              /\ leg_privilege leg = low_privilege s /\ leg_align leg = low_align s
              /\ leg_size_hint_bytes leg = low_size_hint_bytes s
              /\ leg_next_seq_index leg = low_next_seq_index s;
  sl_labels : leg_labels leg = sort_by item_leb (low_labels s);
  sl_data : leg_data_blocks leg = low_data_blocks s;
  sl_alignments : leg_alignments leg = low_alignments s;
  sl_instrs : exists from_branches from_ops,
    leg_instrs leg = sort_by item_leb (low_instrs s ++ from_branches ++ from_ops)
    /\ Forall2 (fun b i => branch_emitted symbols layout order placed offs
                             (is_wide w (low_id s) (item_order b)) b i)
         (low_branches s) from_branches
    /\ Forall2 (op_emitted symbols layout order placed) (low_legalization_ops s) from_ops;
}.

Lemma legalize_section_spec s p l sy w ts offs leg ts' : items_ok s -> 0 <= placed_cpu_start p ->
  section_offsets s p w = Ok offs -> so_size offs < 65536 -> thunk_inv sy l ts ->
  legalize_section s p l sy w ts = Ok (leg, ts') ->
  thunk_inv sy l ts' /\ thunk_order ts `prefix_of` thunk_order ts'
  /\ section_legalized sy l (thunk_order ts') p offs w s leg.
Proof.
  intros Hs Hc Hoffs Hlt Hinv H. unfold legalize_section in H. rewrite Hoffs in H. cbn [obind] in H.
  apply obind_Ok in H as ([eb ts1] & Hb & H). apply obind_Ok in H as ([eo ts2] & Ho & [= <- <-]).
  destruct (legalize_branches_spec s p l sy w offs (section_offsets_ok _ _ _ _ Hs Hc Hoffs) Hlt
              _ _ _ _ _ ltac:(intros b Hbin; eapply section_offsets_dom;
                [done..|right; apply list_elem_of_fmap; eauto]) Hinv Hb)
    as (Hinv1 & Hpre1 & il & -> & His).
  destruct (legalize_ops_spec _ _ _ _ _ _ _ _ _ Hinv1 Ho) as (Hinv2 & Hpre2 & js & -> & Hjs).
  split_and!; [done | by eapply prefix_of_trans|]. constructor; simpl; try done.
  exists il, js. split_and!; [done | | done].
  eapply Forall2_impl; [done|]. intros b i Hbi. by eapply branch_emitted_order.
Qed.

Lemma section_legalized_order sy l o o' p offs w s leg : o `prefix_of` o' ->
  section_legalized sy l o p offs w s leg -> section_legalized sy l o' p offs w s leg.
Proof.
  intros Ho [? ? ? ? ? (eb & eo & ? & ? & ?)]. constructor; try done. exists eb, eo.
  split_and!; [done | |].
  - eapply Forall2_impl; [done|]. intros. by eapply branch_emitted_order.
  - eapply Forall2_impl; [done|]. intros. by eapply op_emitted_order.
Qed.

(** ** Legalizing every section *)

Definition same_keys (l l' : LayoutPlan) : Prop :=
  map placed_key (plan_sections l') = map placed_key (plan_sections l).

Lemma same_keys_prefix l l' : same_keys l l' -> same_places_prefix l l' /\ same_places_prefix l' l.
Proof. unfold same_keys. intros H. split; exists []; by rewrite app_nil_r. Qed.

Definition resized (p : PlacedSection) (size : Z) (padding : gmap ItemOrder Z) : PlacedSection :=
  MkPlacedSection (placed_id p) (placed_space p) (placed_bank p) (placed_cpu_start p) size
    (placed_estimated_size p) padding.

Lemma placement_for_set_final_size l id id' size padding :
  placement_for (layout_with_sections l (set_final_size id size padding (plan_sections l))) id'
  = if bool_decide (id' = id) then (fun p => resized p size padding) <$> placement_for l id'
    else placement_for l id'.
Proof.
  destruct l as [ps bc fb rr]. unfold layout_with_sections. cbn [plan_sections plan_bank_count
    plan_free_bytes_per_bank plan_reserved_ranges].
  induction ps as [|p ps IH].
  - simpl. by case_bool_decide.
  - cbn [set_final_size]. rewrite placement_for_cons. destruct (bool_decide_reflect (placed_id p = id)).
    + rewrite placement_for_cons. simpl. repeat case_bool_decide; subst; try done.
    + rewrite placement_for_cons, IH. repeat case_bool_decide; subst; try done.
Qed.

Lemma section_legalized_keys sy l l' o p p' offs w s leg : same_places_prefix l l' ->
  placed_key p' = placed_key p -> section_legalized sy l o p offs w s leg ->
  section_legalized sy l' o p' offs w s leg.
Proof.
  intros Hl Hp [? ? ? ? ? (eb & eo & ? & Heb & Heo)]. injection Hp as _ _ Hbank Hcpu.
  assert (Hreach : forall t a, reaches sy l o (placed_bank p) t a -> reaches sy l' o (placed_bank p') t a).
  { intros t a (rt & Hrt & Ha). exists rt. rewrite Hbank. split; [by eapply resolves_same | done]. }
  constructor; try done. exists eb, eo. split_and!; [done | |].
  - eapply Forall2_impl; [done|]. intros b i [? ? ? ? (off & dest & ? & ? & ?)].
    constructor; try done. exists off, dest. rewrite Hcpu. split_and!; [done | done | by apply Hreach].
  - eapply Forall2_impl; [done|]. intros op i [? ? (dest & ? & ?)]. constructor; try done.
    exists dest. split; [done|]. destruct (item_data op). by apply Hreach.
Qed.

Lemma thunk_inv_same sy l l' ts : same_places_prefix l l' -> thunk_inv sy l ts -> thunk_inv sy l' ts.
Proof.
  intros Hl [? ? ? Hreq]. constructor; try done. intros t r Hr.
  destruct (Hreq t r Hr) as (? & ? & ? & ?). split_and!; try done. by eapply resolves_same.
Qed.

(** A section of the relaxed program: its placement has the size and paddings
    of its offsets, and its branches land where they should. *)
Record section_done (symbols : SymbolTable) (l l' : LayoutPlan) (order : list SymbolName)
    (w : gmap (SectionId * ItemOrder) bool) (s : LoweredSection) (leg : LegalizedSection)
    (p : PlacedSection) (offs : SectionOffsets) : Prop := {
  sd_placed : placed_for l' (low_id s) = Ok p;
  sd_offsets : section_offsets s p w = Ok offs;
  sd_size : placed_final_size p = so_size offs;
  sd_bound : 0 <= so_size offs < 65536;
  sd_padding : placed_alignment_padding p = so_alignment_padding offs;
  sd_legalized : section_legalized symbols l order p offs w s leg;
}.

Definition starts_ok (l : LayoutPlan) : Prop :=
  Forall (fun p => 0 <= placed_cpu_start p < 65536) (plan_sections l).

Lemma placement_for_elem l id p : placement_for l id = Some p -> p ∈ plan_sections l /\ placed_id p = id.
Proof.
  unfold placement_for. intros H. apply fmap_Some in H as ([i q] & H & ->).
  apply list_find_Some in H as (Hl & Hid & _). split; [by eapply list_elem_of_lookup_2 | done].
Qed.

Lemma placed_for_start l l' id p : starts_ok l -> same_keys l l' -> placed_for l' id = Ok p ->
  0 <= placed_cpu_start p < 65536.
Proof.
  intros Hs Hk H. destruct (placed_for_same l' l id p (proj2 (same_keys_prefix _ _ Hk)) H)
    as (q & Hq & Hqp). injection Hqp as _ _ _ <-. apply ok_or_Ok, placement_for_elem in Hq as [Hq _].
  unfold starts_ok in Hs. rewrite Forall_forall in Hs. by apply Hs.
Qed.

Lemma legalize_step_spec sy w l0 l legs ts s legs' l' ts' : starts_ok l0 -> items_ok s ->
  same_keys l0 l -> thunk_inv sy l0 ts ->
  legalize_step sy w (legs, l, ts) s = Ok (legs', l', ts') ->
  same_keys l0 l' /\ thunk_inv sy l0 ts' /\ thunk_order ts `prefix_of` thunk_order ts'
  /\ (forall id, id <> low_id s -> placed_for l' id = placed_for l id)
  /\ exists leg p offs, legs' = legs ++ [leg] /\ section_done sy l0 l' (thunk_order ts') w s leg p offs.
Proof.
  intros Hst Hs Hk Hinv H. unfold legalize_step in H.
  apply obind_Ok in H as (p & Hp & H). apply obind_Ok in H as ([leg ts1] & Hleg & H).
  apply obind_Ok in H as (offs & Hoffs & H). apply obind_Ok in H as (size & Hsize & [= <- <- <-]).
  apply ok_or_Ok, try_from_u_Some in Hsize as [Hsize ->].
  pose proof (placed_for_start _ _ _ _ Hst Hk Hp) as Hc.
  destruct (same_keys_prefix _ _ Hk) as [Hp1 Hp2].
  destruct (legalize_section_spec _ _ _ _ _ _ _ _ _ Hs (proj1 Hc) Hoffs (proj2 Hsize)
              (thunk_inv_same _ _ _ _ Hp1 Hinv) Hleg) as (Hinv1 & Hpre & Hsl).
  split_and!.
  - unfold same_keys in *. simpl. by rewrite set_final_size_keys.
  - by eapply thunk_inv_same.
  - done.
  - intros id Hne. unfold placed_for. rewrite placement_for_set_final_size.
    by rewrite bool_decide_eq_false_2.
  - exists leg, (resized p (so_size offs) (so_alignment_padding offs)), offs. split; [done|].
    constructor; simpl; try done.
    + unfold placed_for. rewrite placement_for_set_final_size, bool_decide_eq_true_2 by done.
      apply ok_or_Ok in Hp. by rewrite Hp.
    + eapply section_legalized_keys; [exact Hp2 | | exact Hsl]. done.
Qed.

Lemma legalize_fold_spec sy w l0 : starts_ok l0 -> forall sections legs l ts legs' l' ts',
  Forall items_ok sections -> NoDup (map low_id sections) -> same_keys l0 l -> thunk_inv sy l0 ts ->
  ofold (legalize_step sy w) (legs, l, ts) sections = Ok (legs', l', ts') ->
  same_keys l0 l' /\ thunk_inv sy l0 ts' /\ thunk_order ts `prefix_of` thunk_order ts'
  /\ (forall id, id ∉ map low_id sections -> placed_for l' id = placed_for l id)
  /\ exists new, legs' = legs ++ new
       /\ Forall2 (fun s leg => exists p offs, section_done sy l0 l' (thunk_order ts') w s leg p offs)
            sections new.
Proof.
  intros Hst. induction sections as [|s sections IH]; intros legs l ts legs' l' ts' Hs Hnd Hk Hinv H;
    cbn [ofold] in H.
  - injection H as <- <- <-. split_and!; try done. exists []. by rewrite app_nil_r.
  - apply obind_Ok in H as ([[legs1 l1] ts1] & Hstep & H).
    apply Forall_cons in Hs as [Hs Hss]. apply NoDup_cons in Hnd as [Hnin Hnd].
    destruct (legalize_step_spec _ _ _ _ _ _ _ _ _ _ Hst Hs Hk Hinv Hstep)
      as (Hk1 & Hinv1 & Hpre1 & Hother1 & leg & p & offs & -> & Hdone).
    destruct (IH _ _ _ _ _ _ Hss Hnd Hk1 Hinv1 H) as (Hk2 & Hinv2 & Hpre2 & Hother2 & new & -> & Hnew).
    split_and!; [done | done | by eapply prefix_of_trans | |].
    + intros id Hid. simpl in Hid. rewrite not_elem_of_cons in Hid. destruct Hid as [Hid1 Hid2].
      rewrite Hother2 by done. by apply Hother1.
    + exists (leg :: new). rewrite <- app_assoc. split; [done|]. constructor; [|done].
      exists p, offs. destruct Hdone. constructor; try done.
      * by rewrite Hother2.
      * by eapply section_legalized_order.
Qed.

(** ** Convergence errors do not happen *)

Lemma legalize_branch_avoids s p0 offs sy l0 w b p l off :
  settled_branch s p0 offs sy l0 w b -> same_places_prefix l0 l ->
  placed_cpu_start p = placed_cpu_start p0 -> so_offsets offs !! item_order b = Some off ->
  avoids is_convergence_error
    (legalize_branch (low_id s) p l sy w (item_data b) (item_order b) off).
Proof.
  intros Hset Hl Hc Hoff. unfold legalize_branch. apply avoids_bind; [apply resolve_target_avoids|].
  intros rt Hrt. apply avoids_bind; [unfold ensure_directly_reachable; avoid|]. intros _ _.
  destruct (br_kind (item_data b)) eqn:Hk; [done | | done].
  destruct (is_wide _ _ _) eqn:Hw; [done|].
  destruct (Hset Hk) as (off' & rt' & delta & Hoff' & Hrt' & Hdelta & Hrange).
  apply (resolve_target_same _ _ _ _ _ _ Hl) in Hrt'. rewrite Hrt in Hrt'. injection Hrt' as <-.
  rewrite Hoff in Hoff'. injection Hoff' as <-. rewrite Hc, Hdelta. cbn [obind].
  by rewrite (Hrange Hw).
Qed.

Lemma call_addr_avoids id p l sy ts t chain :
  avoids is_convergence_error (call_addr_for_target id p l sy ts t chain).
Proof.
  unfold call_addr_for_target, thunk_cpu_start. pose proof resolve_target_avoids. avoid.
Qed.

Lemma legalize_step_avoids sy w l0 legs l ts s : settled_section l0 sy w s -> same_keys l0 l ->
  avoids is_convergence_error (legalize_step sy w (legs, l, ts) s).
Proof.
  intros (p0 & offs & Hp0 & Hoffs & Hset) Hk. unfold legalize_step.
  apply avoids_bind; [unfold placed_for; avoid|]. intros p Hp.
  destruct (placed_for_same _ _ _ _ (proj1 (same_keys_prefix _ _ Hk)) Hp0) as (p' & Hp' & Hkey).
  rewrite Hp in Hp'. injection Hp' as <-. injection Hkey as _ _ _ Hc.
  apply avoids_bind.
  - unfold legalize_section. apply avoids_bind; [apply section_offsets_avoids|]. intros offs' Hoffs'.
    rewrite (section_offsets_same s p p0) in Hoffs' by done. rewrite Hoffs in Hoffs'.
    injection Hoffs' as <-.
    apply avoids_bind; [|intros [eb ts1] _; apply avoids_bind; [|intros []; done]].
    + apply avoids_ofold. intros [eb ts1] b Hb. rewrite Forall_forall in Hset. specialize (Hset b Hb).
      unfold legalize_branch_item. apply avoids_bind; [|intros []; done].
      assert (Hnear : avoids is_convergence_error
         (let* offset := expect (so_offsets offs !! item_order b) in
          let* instr := legalize_branch (low_id s) p l sy w (item_data b) (item_order b) offset in
          Ok (instr, ts1))).
      { apply avoids_bind; [avoid|]. intros off Hoff%expect_Ok. apply avoids_bind; [|done].
        eapply legalize_branch_avoids; [done | apply (same_keys_prefix _ _ Hk) | done | done]. }
      destruct (br_kind (item_data b)); try done. destruct (br_call_reachability _); [done|].
      pose proof call_addr_avoids. avoid.
    + apply avoids_ofold. intros [eo ts2] op Hop. unfold legalize_op_item.
      pose proof call_addr_avoids. avoid.
  - intros [leg ts1] _. apply avoids_bind; [apply section_offsets_avoids|]. intros. avoid.
Qed.

Lemma legalize_step_keys sy w legs l ts s legs' l' ts' :
  legalize_step sy w (legs, l, ts) s = Ok (legs', l', ts') -> same_keys l l'.
Proof.
  unfold legalize_step. intros H. inv_ok. destruct x0. inv_ok. unfold same_keys. simpl.
  by rewrite set_final_size_keys.
Qed.

Lemma legalize_fold_avoids sy w l0 : forall sections legs l ts,
  Forall (settled_section l0 sy w) sections -> same_keys l0 l ->
  avoids is_convergence_error (ofold (legalize_step sy w) (legs, l, ts) sections).
Proof.
  induction sections as [|s sections IH]; intros legs l ts Hs Hk; [done|].
  apply Forall_cons in Hs as [Hs Hss]. cbn [ofold].
  apply avoids_bind; [by apply (legalize_step_avoids _ _ l0)|]. intros [[legs1 l1] ts1] H1.
  apply IH; [done|]. apply legalize_step_keys in H1. unfold same_keys in *. congruence.
Qed.

Lemma emit_thunks_avoids ts : forall order idx st,
  avoids is_convergence_error (emit_thunks ts idx order st).
Proof.
  induction order as [|t order IH]; intros idx st; [done|]. cbn [emit_thunks].
  unfold thunk_cpu_start, SymbolTable_insert. avoid. apply avoids_map_err. avoid.
Qed.

(** C7: Relaxation always converges: the widening loop ends within the code's
    cap of iterations, so [NoFixedPoint] is never reported, and every jump left
    short is in the range of a signed byte when it is emitted, so
    [InvalidRelativeOffset] is never reported either. *)
Theorem relaxation_converges sections layout :
  match relax_and_legalize sections layout with
  | Err (Rx_NoFixedPoint _) | Err (Rx_InvalidRelativeOffset _) | NoFuel => False
  | _ => True
  end.
Proof.
  assert (H : avoids is_convergence_error (relax_and_legalize sections layout)).
  { unfold relax_and_legalize. destruct (relax_loop_fixed_point sections layout) as [Ha Hfix].
    apply avoids_bind; [exact Ha|]. intros [w it] Hw.
    destruct (relax_pass_settled _ _ _ (Hfix _ _ Hw)) as (symbols & Hsy & Hset).
    rewrite Hsy. cbn [obind].
    apply avoids_bind; [by apply (legalize_fold_avoids _ _ layout)|].
    pose proof emit_thunks_avoids. intros [[legs l] ts] _. avoid. }
  destruct (relax_and_legalize sections layout) as [|e| |]; try done; [destruct e|]; try done;
    by apply H.
Qed.

(** ** The thunks *)

Definition thunk_section_id (n : nat) : SectionId := SectionId_new (0xF000 + Z.of_nat n).

(** [sy'] knows every name of [sy]. *)
Definition extends (sy sy' : SymbolTable) : Prop :=
  forall name a, SymbolTable_resolve sy name = Some a -> SymbolTable_resolve sy' name = Some a.

Lemma SymbolTable_insert_Ok sy name a sy' : SymbolTable_insert sy name a = Ok sy' ->
  extends sy sy' /\ SymbolTable_resolve sy' name = Some a.
Proof.
  unfold SymbolTable_insert, extends, SymbolTable_resolve.
  destruct (by_name sy !! name) eqn:Hn; [done|]. intros [= <-]. simpl. split.
  - intros name' a' Ha. rewrite lookup_insert_ne; [done|]. intros ->. congruence.
  - by rewrite lookup_insert_eq.
Qed.

Lemma emit_thunks_spec ts : forall order n st st', (n + length order <= 16)%nat ->
  emit_thunks ts (Z.of_nat n) order st = Ok st' ->
  exists reqs, Forall2 (fun t r => thunk_by_target ts !! t = Some r) order reqs
    /\ te_requests st' = te_requests st ++ reqs
    /\ te_sections st' = te_sections st
         ++ imap (fun k r => materialize_stub_thunk (thunk_section_id (n + k)) (thunk_address (n + k)) r) reqs
    /\ te_layout st' = layout_with_sections (te_layout st) (plan_sections (te_layout st)
         ++ imap (fun k _ => thunk_placement (thunk_section_id (n + k)) (thunk_address (n + k))) reqs)
    /\ extends (te_symbols st) (te_symbols st')
    /\ forall k r, reqs !! k = Some r ->
         SymbolTable_resolve (te_symbols st') (req_thunk_symbol r)
         = Some (MkSymbolAddress (thunk_section_id (n + k)) 0).
Proof.
  induction order as [|t order IH]; intros n st st' Hn H; cbn [emit_thunks] in H.
  - injection H as <-. exists []. simpl. rewrite !app_nil_r.
    split_and!; try done; [by destruct st as [? [] ? ?] | by intros ? ?].
  - simpl in Hn. apply obind_Ok in H as (r & Hr%expect_Ok & H).
    apply obind_Ok in H as (id & Hid & H). apply obind_Ok in H as (a & Ha & H).
    apply obind_Ok in H as (sy & Hsy & H).
    rewrite thunk_cpu_start_small in Ha by lia. injection Ha as <-.
    unfold wrap in Hid. rewrite Z.mod_small in Hid by lia. apply uadd_Ok in Hid as [_ ->].
    apply map_err_Ok, SymbolTable_insert_Ok in Hsy as [Hext Hsym].
    replace (Z.of_nat n + 1) with (Z.of_nat (S n)) in H by lia.
    destruct (IH (S n) _ _ ltac:(lia) H) as (reqs & Hreqs & -> & -> & -> & Hext2 & Hres).
    exists (r :: reqs). simpl in *. split_and!.
    + by constructor.
    + by rewrite <- app_assoc.
    + rewrite <- app_assoc, Nat.add_0_r. simpl. do 2 f_equal. apply imap_ext. intros k x _. simpl.
      by rewrite Nat.add_succ_r.
    + unfold layout_with_sections. simpl. f_equal. rewrite <- app_assoc, Nat.add_0_r. simpl. do 2 f_equal.
      apply imap_ext. intros k x _. simpl. by rewrite Nat.add_succ_r.
    + intros name x Hx. by apply Hext2, Hext.
    + intros [|k] r' Hr'; simpl in Hr'.
      * injection Hr' as <-. rewrite Nat.add_0_r. by apply Hext2.
      * rewrite Nat.add_succ_r. by apply Hres.
Qed.

Lemma resolves_extends sy sy' l t rt : extends sy sy' -> resolves sy l t rt -> resolves sy' l t rt.
Proof.
  intros He H used_in. specialize (H used_in). unfold resolve_target in *. inv_ok.
  rewrite (He _ _ Hx). cbn [ok_or obind]. rewrite Hx0. cbn [obind]. rewrite Hx1. cbn [obind].
  match goal with Hu : try_from_u _ _ = Some _ |- _ => by rewrite Hu end.
Qed.

Lemma reaches_transport sy sy' l l' o bank t a : extends sy sy' -> same_places_prefix l l' ->
  reaches sy l o bank t a -> reaches sy' l' o bank t a.
Proof.
  intros He Hl (rt & Hrt & H). exists rt. split; [|done].
  eapply resolves_extends; [done|]. by eapply resolves_same.
Qed.

Lemma section_legalized_transport sy sy' l l' o p offs w s leg :
  extends sy sy' -> same_places_prefix l l' ->
  section_legalized sy l o p offs w s leg -> section_legalized sy' l' o p offs w s leg.
Proof.
  intros He Hl [? ? ? ? ? (eb & eo & ? & Heb & Heo)].
  constructor; try done. exists eb, eo. split_and!; [done | |].
  - eapply Forall2_impl; [done|]. intros b i [? ? ? ? (off & dest & ? & ? & ?)].
    constructor; try done. exists off, dest. split_and!; [done | done | by eapply reaches_transport].
  - eapply Forall2_impl; [done|]. intros op i [? ? (dest & ? & ?)]. constructor; try done.
    exists dest. split; [done|]. destruct (item_data op). by eapply reaches_transport.
Qed.

Lemma placed_for_app l extra id p : placed_for l id = Ok p ->
  placed_for (layout_with_sections l (plan_sections l ++ extra)) id = Ok p.
Proof.
  destruct l as [ps bc fb rr]. unfold placed_for. intros H%ok_or_Ok. apply ok_or_Ok.
  unfold layout_with_sections. cbn [plan_sections plan_bank_count plan_free_bytes_per_bank
    plan_reserved_ranges]. induction ps as [|q ps IH]; [done|].
  change ((q :: ps) ++ extra) with (q :: (ps ++ extra)). rewrite placement_for_cons in *.
  case_bool_decide; [done | by apply IH].
Qed.

(** ** The relaxed program *)

(** Everything the run of [relax_and_legalize] establishes. *)
Record relaxed (sections : list LoweredSection) (layout : LayoutPlan) (rp : RelaxedProgram)
    (w : gmap (SectionId * ItemOrder) bool) (legs : list LegalizedSection) (final : LayoutPlan)
    (ts : ThunkState) (symbols : SymbolTable) : Prop := {
  rx_requests : Forall2 (fun t r => thunk_by_target ts !! t = Some r) (thunk_order ts) (rp_thunk_requests rp);
  rx_sections : rp_sections rp = legs ++
    imap (fun k r => materialize_stub_thunk (thunk_section_id k) (thunk_address k) r) (rp_thunk_requests rp);
  rx_layout : rp_layout rp = layout_with_sections final (plan_sections final ++
    imap (fun k _ => thunk_placement (thunk_section_id k) (thunk_address k)) (rp_thunk_requests rp));
  rx_keys : same_keys layout final;
  rx_inv : thunk_inv symbols layout ts;
  rx_done : Forall2 (fun s leg => exists p offs,
      section_done symbols layout final (thunk_order ts) w s leg p offs) sections legs;
  rx_extends : extends symbols (rp_symbols rp);
  rx_thunk_symbols : forall k r, rp_thunk_requests rp !! k = Some r ->
    SymbolTable_resolve (rp_symbols rp) (req_thunk_symbol r)
    = Some (MkSymbolAddress (thunk_section_id k) 0);
}.

Lemma relax_and_legalize_relaxed sections layout rp :
  starts_ok layout -> Forall items_ok sections -> NoDup (map low_id sections) ->
  relax_and_legalize sections layout = Ok rp ->
  exists w legs final ts symbols, relaxed sections layout rp w legs final ts symbols.
Proof.
  intros Hst Hs Hnd H. unfold relax_and_legalize in H.
  apply obind_Ok in H as ([w it] & Hw & H). apply obind_Ok in H as (symbols & Hsy & H).
  apply obind_Ok in H as ([[legs final] ts] & Hfold & H). inv_ok. simpl in *.
  assert (Hinit : thunk_inv symbols layout (MkThunkState ∅ [])).
  { constructor; simpl; [|constructor|lia|].
    - intros t. rewrite lookup_empty. split; [by intros ?%elem_of_nil | by intros []].
    - intros t r. by rewrite lookup_empty. }
  destruct (legalize_fold_spec _ _ _ Hst _ _ _ _ _ _ _ Hs Hnd (eq_refl : same_keys layout layout) Hinit Hfold)
    as (Hkeys & Hinv & _ & _ & new & -> & Hdone).
  match goal with Hx : emit_thunks _ _ _ _ = Ok _ |- _ =>
    destruct (emit_thunks_spec ts (thunk_order ts) 0 _ _ (ti_len _ _ _ Hinv) Hx)
      as (reqs & Hreqs & Hr & Hsec & Hl & Hext & Hthunk) end.
  simpl in *. subst reqs. exists w, new, final, ts, symbols. by constructor.
Qed.

Section relaxed_facts.
  Context (sections : list LoweredSection) (layout : LayoutPlan) (rp : RelaxedProgram)
    (w : gmap (SectionId * ItemOrder) bool) (legs : list LegalizedSection) (final : LayoutPlan)
    (ts : ThunkState) (symbols : SymbolTable)
    (Hrx : relaxed sections layout rp w legs final ts symbols).

Lemma relaxed_order : map req_target (rp_thunk_requests rp) = thunk_order ts.
Proof.
  pose proof (rx_requests _ _ _ _ _ _ _ _ Hrx) as H.
  assert (Hreq : forall t r, thunk_by_target ts !! t = Some r -> req_target r = t).
  { intros t r Hr. by destruct (ti_req _ _ _ (rx_inv _ _ _ _ _ _ _ _ Hrx) t r Hr). }
  induction H as [|t r l l' Htr Hl IH]; [done|]. simpl. by rewrite IH, (Hreq _ _ Htr).
Qed.

Lemma relaxed_prefix : same_places_prefix layout (rp_layout rp) /\ same_places_prefix final (rp_layout rp).
Proof.
  rewrite (rx_layout _ _ _ _ _ _ _ _ Hrx).
  assert (Hf : same_places_prefix final (layout_with_sections final (plan_sections final ++
    imap (fun k _ => thunk_placement (thunk_section_id k) (thunk_address k)) (rp_thunk_requests rp)))).
  { unfold same_places_prefix. simpl. rewrite map_app. eauto. }
  split; [|done]. eapply same_places_trans; [|exact Hf].
  exact (proj1 (same_keys_prefix _ _ (rx_keys _ _ _ _ _ _ _ _ Hrx))).
Qed.

Lemma relaxed_done i s : sections !! i = Some s ->
  exists leg p offs, rp_sections rp !! i = Some leg
    /\ section_done (rp_symbols rp) (rp_layout rp) (rp_layout rp)
         (map req_target (rp_thunk_requests rp)) w s leg p offs.
Proof.
  intros Hi. destruct (Forall2_lookup_l _ _ _ _ _ (rx_done _ _ _ _ _ _ _ _ Hrx) Hi)
    as (leg & Hleg & p & offs & [Hp ? ? ? ? Hsl]).
  exists leg, p, offs. split.
  - rewrite (rx_sections _ _ _ _ _ _ _ _ Hrx). by apply lookup_app_l_Some.
  - rewrite relaxed_order. constructor; try done.
    + rewrite (rx_layout _ _ _ _ _ _ _ _ Hrx). by apply placed_for_app.
    + eapply section_legalized_transport; [apply (rx_extends _ _ _ _ _ _ _ _ Hrx) | | done].
      apply relaxed_prefix.
Qed.

Lemma relaxed_lengths : length legs = length sections
  /\ length (plan_sections final) = length (plan_sections layout).
Proof.
  split.
  - symmetry. by eapply Forall2_length, (rx_done _ _ _ _ _ _ _ _ Hrx).
  - pose proof (rx_keys _ _ _ _ _ _ _ _ Hrx) as H. unfold same_keys in H.
    apply (f_equal length) in H. by rewrite !length_map in H.
Qed.

Lemma relaxed_thunk n r : rp_thunk_requests rp !! n = Some r ->
  (n < 16)%nat
  /\ rp_sections rp !! (length sections + n)%nat
     = Some (materialize_stub_thunk (thunk_section_id n) (thunk_address n) r)
  /\ plan_sections (rp_layout rp) !! (length (plan_sections layout) + n)%nat
     = Some (thunk_placement (thunk_section_id n) (thunk_address n))
  /\ resolves (rp_symbols rp) (rp_layout rp) (req_target r)
       (MkResolvedTarget (req_callee_bank r) (req_target_cpu_addr r))
  /\ req_callee_bank r <> Bank_Rom 0
  /\ SymbolTable_resolve (rp_symbols rp) (req_thunk_symbol r)
     = Some (MkSymbolAddress (thunk_section_id n) 0).
Proof.
  intros Hn. destruct relaxed_lengths as [Hl1 Hl2].
  destruct (Forall2_lookup_r _ _ _ _ _ (rx_requests _ _ _ _ _ _ _ _ Hrx) Hn) as (t & Ht & Hr).
  pose proof (rx_inv _ _ _ _ _ _ _ _ Hrx) as Hinv.
  destruct (ti_req _ _ _ Hinv t r Hr) as (Htarget & _ & Hres & Hbank).
  split_and!.
  - apply lookup_lt_Some in Ht. pose proof (ti_len _ _ _ Hinv). lia.
  - rewrite (rx_sections _ _ _ _ _ _ _ _ Hrx), <- Hl1, lookup_app_r by lia.
    replace (length legs + n - length legs)%nat with n by lia. by rewrite list_lookup_imap, Hn.
  - rewrite (rx_layout _ _ _ _ _ _ _ _ Hrx), <- Hl2. simpl. rewrite lookup_app_r by lia.
    replace (length (plan_sections final) + n - length (plan_sections final))%nat with n by lia.
    by rewrite list_lookup_imap, Hn.
  - rewrite Htarget. eapply resolves_extends; [apply (rx_extends _ _ _ _ _ _ _ _ Hrx)|].
    eapply resolves_same; [exact (proj1 relaxed_prefix) | done].
  - done.
  - by apply (rx_thunk_symbols _ _ _ _ _ _ _ _ Hrx).
Qed.
End relaxed_facts.


(** There is one thunk per far target, at most sixteen of them, each in
    its own 16-byte slot of the thunk pool in ROM bank 0 and named by its
    symbol; it loads the target's bank into A and B (low and high byte) and its
    address into HL, for a target that is not in bank 0, and jumps to the
    far-call entry at 0x0150. *)
Theorem thunks_dispatch sections layout rp n r :
  starts_ok layout -> Forall items_ok sections -> NoDup (map low_id sections) ->
  relax_and_legalize sections layout = Ok rp -> rp_thunk_requests rp !! n = Some r ->
  (n < 16)%nat /\ NoDup (map req_target (rp_thunk_requests rp))
  /\ plan_sections (rp_layout rp) !! (length (plan_sections layout) + n)%nat
     = Some (thunk_placement (thunk_section_id n) (thunk_address n))
  /\ SymbolTable_resolve (rp_symbols rp) (req_thunk_symbol r)
     = Some (MkSymbolAddress (thunk_section_id n) 0)
  /\ exists leg lo hi addr, rp_sections rp !! (length sections + n)%nat = Some leg
     /\ leg_id leg = thunk_section_id n
     /\ map item_data (leg_instrs leg)
        = [I_Ld8RegFromImm Reg8_A lo; I_Ld8RegFromImm Reg8_B hi; I_Ld16Imm Data_HL addr;
           I_JpAbs None 0x0150]
     /\ resolves (rp_symbols rp) (rp_layout rp) (req_target r)
          (MkResolvedTarget (req_callee_bank r) addr)
     /\ match req_callee_bank r with
        | Bank_Rom b => b <> 0 /\ (0 <= b < 65536 -> lo + 256 * hi = b)
        | _ => True
        end.
Proof.
  intros Hst Hs Hnd H Hn.
  destruct (relax_and_legalize_relaxed _ _ _ Hst Hs Hnd H) as (w & legs & final & ts & sy & Hrx).
  destruct (relaxed_thunk _ _ _ _ _ _ _ _ Hrx n r Hn) as (Hn16 & Hsec & Hplace & Hres & Hbank & Hsym).
  split_and!; try done.
  { rewrite (relaxed_order _ _ _ _ _ _ _ _ Hrx). apply (ti_nodup _ _ _ (rx_inv _ _ _ _ _ _ _ _ Hrx)). }
  do 4 eexists. split_and!; [exact Hsec | done | done | exact Hres |].
  destruct (req_callee_bank r) as [b| | | | |]; try done. split; [congruence|]. intros Hb.
  rewrite Z.shiftr_div_pow2 by lia. change (2 ^ 8) with 256. unfold wrap.
  rewrite (Z.mod_small (b / 256)) by (split; [apply Z.div_pos; lia | apply Z.div_lt_upper_bound; lia]).
  pose proof (Z.div_mod b 256 ltac:(lia)). lia.
Qed.

(** ** Relaxing a plan of the layout *)

Lemma same_keys_ids l l' : same_keys l l' ->
  map placed_id (plan_sections l') = map placed_id (plan_sections l).
Proof.
  unfold same_keys. intros H. apply (f_equal (map (fun k => k.1.1.1))) in H. by rewrite !map_map in H.
Qed.

Lemma placed_for_nodup l i p q : NoDup (map placed_id (plan_sections l)) ->
  plan_sections l !! i = Some p -> placed_for l (placed_id p) = Ok q -> q = p.
Proof.
  intros Hnd Hi Hq%ok_or_Ok. apply placement_for_elem in Hq as [Hq Hid].
  apply list_elem_of_lookup in Hq as [j Hj].
  assert (i = j) as ->; [|congruence].
  eapply (NoDup_lookup (map placed_id (plan_sections l))); [done | |].
  - by rewrite list_lookup_fmap, Hi.
  - by rewrite list_lookup_fmap, Hj, <- Hid.
Qed.

Section relaxed_plan.
  Context (sections : list LoweredSection) (profile : PlacementProfile)
    (pinned : list PinnedPlacement) (plan : LayoutPlan) (rp : RelaxedProgram)
    (Hs : Forall lowered_ok sections) (Hitems : Forall items_ok sections)
    (Hp : Forall pin_ok pinned) (Hnd : NoDup (map low_id sections))
    (Hplan : layout_into_banks sections profile pinned = Ok plan)
    (Hrp : relax_and_legalize sections plan = Ok rp).

Lemma plan_starts_ok : starts_ok plan.
Proof.
  unfold starts_ok.
  destruct (layout_Ok_inv _ _ _ _ Hs Hp Hnd Hplan) as (st & ins & Hinv & -> & _).
  apply Forall_forall. intros p Hin. apply list_elem_of_lookup in Hin as [i Hi].
  destruct (Forall2_lookup_r _ _ _ _ _ (li_sound _ _ _ _ Hinv) Hi) as (s & _ & [[] _ _]). done.
Qed.

(** A placement of the relaxed plan is the layout's, not larger, or a thunk. *)
Lemma relaxed_placement i p : plan_sections (rp_layout rp) !! i = Some p ->
  (exists p0 s, plan_sections plan !! i = Some p0 /\ sections !! i = Some s
     /\ placed_key p = placed_key p0
     /\ 0 <= placed_final_size p <= placed_final_size p0)
  \/ (exists n, (n < 16)%nat /\ i = (length (plan_sections plan) + n)%nat
        /\ p = thunk_placement (thunk_section_id n) (thunk_address n)).
Proof.
  intros Hi.
  destruct (relax_and_legalize_relaxed _ _ _ plan_starts_ok Hitems Hnd Hrp)
    as (w & legs & final & ts & sy & Hrx).
  destruct (relaxed_lengths _ _ _ _ _ _ _ _ Hrx) as [_ Hlen].
  pose proof (rx_keys _ _ _ _ _ _ _ _ Hrx) as Hkeys.
  rewrite (rx_layout _ _ _ _ _ _ _ _ Hrx) in Hi. simpl in Hi.
  apply lookup_app_Some in Hi as [Hi|[Hle Hi]].
  - left.
    destruct (layout_Ok_inv _ _ _ _ Hs Hp Hnd Hplan) as (st & ins & Hinv & Hsec & _).
    pose proof (li_sound _ _ _ _ Hinv) as Hsound. rewrite <- Hsec in Hsound.
    assert (exists p0, plan_sections plan !! i = Some p0 /\ placed_key p = placed_key p0)
      as (p0 & Hp0 & Hkey).
    { apply (f_equal (fun l => l !! i)) in Hkeys. rewrite !list_lookup_fmap, Hi in Hkeys. simpl in Hkeys.
      destruct (plan_sections plan !! i) as [p0|]; [|done]. exists p0. split; [done|].
      simpl in Hkeys. congruence. }
    destruct (Forall2_lookup_r _ _ _ _ _ Hsound Hp0) as (s & Hsi & [Hfor _ _]).
    destruct (Forall2_lookup_l _ _ _ _ _ (rx_done _ _ _ _ _ _ _ _ Hrx) Hsi)
      as (leg & _ & q & offs & Hq).
    assert (q = p) as ->.
    { apply (placed_for_nodup final i); [|done|].
      - by rewrite (same_keys_ids _ _ Hkeys), (placed_ids _ _ Hsound).
      - rewrite <- (sd_placed _ _ _ _ _ _ _ _ _ Hq). f_equal. injection Hkey as -> _ _ _.
        apply (pf_id _ _ Hfor). }
    exists p0, s. split_and!; try done.
    + rewrite (sd_size _ _ _ _ _ _ _ _ _ Hq). apply (sd_bound _ _ _ _ _ _ _ _ _ Hq).
    + rewrite (sd_size _ _ _ _ _ _ _ _ _ Hq). injection Hkey as _ _ _ Hc.
      pose proof (sd_offsets _ _ _ _ _ _ _ _ _ Hq) as Hoffs.
      rewrite Forall_forall in Hitems.
      destruct (section_offsets_le s p0 w (placed_final_size p0) (placed_alignment_padding p0))
        as (offs' & Hoffs' & Hle).
      * apply Hitems. by eapply list_elem_of_lookup_2.
      * apply (pf_start _ _ Hfor).
      * apply (pf_size _ _ Hfor).
      * apply (pf_size_bound _ _ Hfor).
      * rewrite (section_offsets_same s p p0) in Hoffs by done. congruence.
  - right. rewrite list_lookup_imap in Hi. apply fmap_Some in Hi as (r & Hr & ->).
    rewrite <- Hlen. exists (i - length (plan_sections final))%nat. split_and!; [|lia|done].
    by destruct (relaxed_thunk _ _ _ _ _ _ _ _ Hrx _ _ Hr).
Qed.

Lemma planned_disjoint i j p q : plan_sections plan !! i = Some p -> plan_sections plan !! j = Some q ->
  i <> j -> placed_bank p = placed_bank q -> disjoint_ranges (placed_range p) (placed_range q).
Proof.
  intros Hi Hj Hij Hb.
  destruct (layout_Ok_inv _ _ _ _ Hs Hp Hnd Hplan) as (st & ins & Hinv & Hsec & _).
  rewrite Hsec in Hi, Hj. apply (oi_disjoint _ _ _ (li_occ _ _ _ _ Hinv)); try done.
  - by eapply (li_out _ _ _ _ Hinv), list_elem_of_lookup_2.
  - by eapply (li_out _ _ _ _ Hinv), list_elem_of_lookup_2.
  - eapply ids_distinct; [|exact Hi | exact Hj | exact Hij].
    by rewrite (placed_ids sections) by apply (li_sound _ _ _ _ Hinv).
Qed.

Lemma planned_thunk_pool_free i p : plan_sections plan !! i = Some p -> placed_bank p = Bank_Rom 0 ->
  disjoint_ranges (placed_range p) (0x3F00, 0x4000).
Proof.
  intros Hi Hb.
  destruct (plan_reserved_ranges_base _ _ _ _ Hplan) as (vs & base & Hbase & Hres).
  destruct (base_reserved_fixed _ _ _ Hbase) as (_ & _ & Hpool).
  destruct (layout_Ok_inv _ _ _ _ Hs Hp Hnd Hplan) as (st & ins & Hinv & Hsec & _).
  rewrite Hsec in Hi.
  apply (oi_reserved_disjoint _ _ _ (li_occ _ _ _ _ Hinv) _
           (MkReservedRange (Bank_Rom 0) 0x3F00 0x3FFF Res_ThunkPool)); try done.
  - by eapply (li_out _ _ _ _ Hinv), list_elem_of_lookup_2.
  - rewrite Hres. apply elem_of_app. by left.
Qed.

(** A section and a thunk never meet. *)
Lemma section_thunk_disjoint i p p0 n : plan_sections plan !! i = Some p0 ->
  placed_key p = placed_key p0 -> 0 <= placed_final_size p <= placed_final_size p0 ->
  placed_bank p = Bank_Rom 0 -> (n < 16)%nat ->
  disjoint_ranges (placed_range p) (thunk_address n, thunk_address n + 10).
Proof.
  intros Hi Hkey Hsize Hb Hn. injection Hkey as _ _ Hbank Hc. rewrite Hb in Hbank.
  pose proof (planned_thunk_pool_free i p0 Hi (eq_sym Hbank)) as Hd.
  unfold disjoint_ranges, placed_range, cpu_end_exclusive, thunk_address in *. simpl in *. lia.
Qed.

(** Where the placement of a section is found in the relaxed plan. *)
Lemma relaxed_section_placement i s p0 p : sections !! i = Some s -> plan_sections plan !! i = Some p0 ->
  placed_for (rp_layout rp) (low_id s) = Ok p ->
  plan_sections (rp_layout rp) !! i = Some p /\ placed_key p = placed_key p0
  /\ 0 <= placed_final_size p <= placed_final_size p0
  /\ space_bank_ok (placed_space p) (placed_bank p)
  /\ (space_window (placed_space p)).1 <= placed_cpu_start p
  /\ cpu_end_exclusive p <= (space_window (placed_space p)).2.
Proof.
  intros Hi Hp0 Hpl.
  destruct (relax_and_legalize_relaxed _ _ _ plan_starts_ok Hitems Hnd Hrp)
    as (w & legs & final & ts & sy & Hrx).
  pose proof (rx_keys _ _ _ _ _ _ _ _ Hrx) as Hkeys.
  destruct (layout_Ok_inv _ _ _ _ Hs Hp Hnd Hplan) as (st & ins & Hinv & Hsec & _).
  pose proof (li_sound _ _ _ _ Hinv) as Hsound. rewrite <- Hsec in Hsound.
  pose proof (Forall2_lookup_lr _ _ _ _ _ _ Hsound Hi Hp0) as Hsp.
  assert (exists q, plan_sections final !! i = Some q /\ placed_key q = placed_key p0) as (q & Hq & Hkey).
  { apply (f_equal (fun l => l !! i)) in Hkeys. rewrite !list_lookup_fmap, Hp0 in Hkeys.
    destruct (plan_sections final !! i) as [q|]; [|done]. exists q. split; [done|]. simpl in Hkeys. congruence. }
  assert (Hqi : plan_sections (rp_layout rp) !! i = Some q).
  { rewrite (rx_layout _ _ _ _ _ _ _ _ Hrx). simpl. by apply lookup_app_l_Some. }
  assert (p = q) as ->.
  { destruct (Forall2_lookup_l _ _ _ _ _ (rx_done _ _ _ _ _ _ _ _ Hrx) Hi) as (leg & _ & p' & offs & Hd).
    pose proof (sd_placed _ _ _ _ _ _ _ _ _ Hd) as Hp'.
    assert (p' = q) as ->.
    { apply (placed_for_nodup final i); [|done|].
      - by rewrite (same_keys_ids _ _ Hkeys), (placed_ids _ _ Hsound).
      - rewrite <- Hp'. f_equal. injection Hkey as -> _ _ _. apply (pf_id _ _ (sp_for _ _ Hsp)). }
    rewrite (rx_layout _ _ _ _ _ _ _ _ Hrx) in Hpl.
    pose proof (placed_for_app final (imap (fun k _ => thunk_placement (thunk_section_id k) (thunk_address k))
      (rp_thunk_requests rp)) _ _ Hp') as Hp2. congruence. }
  destruct (relaxed_placement i q Hqi) as [(p1 & _ & Hp1 & _ & _ & Hsize)|(n & _ & Hn & _)].
  2: { apply lookup_lt_Some in Hp0. lia. }
  rewrite Hp0 in Hp1. injection Hp1 as <-. pose proof (sound_in_window s p0 Hsp) as [Hlo Hhi].
  pose proof (sp_space s p0 Hsp) as Hspace. split_and!; try done; injection Hkey as _ Hks Hkb Hkc;
    unfold cpu_end_exclusive in *; rewrite ?Hks, ?Hkb, ?Hkc; try done; lia.
Qed.
End relaxed_plan.

Lemma disjoint_ranges_shrink a b c d b' d' : a <= b' <= b -> c <= d' <= d ->
  disjoint_ranges (a, b) (c, d) -> disjoint_ranges (a, b') (c, d').
Proof. unfold disjoint_ranges. simpl. lia. Qed.

(** Relaxing the plan of [layout_into_banks] keeps it sound: no section
    moves or grows, and no two placements of the relaxed plan - sections and
    the thunks added to the thunk pool - share a byte of a bank. *)
Theorem relaxed_plan_no_overlap sections profile pinned plan rp i j p q :
  Forall lowered_ok sections -> Forall items_ok sections -> Forall pin_ok pinned ->
  NoDup (map low_id sections) ->
  layout_into_banks sections profile pinned = Ok plan -> relax_and_legalize sections plan = Ok rp ->
  plan_sections (rp_layout rp) !! i = Some p ->
  ((i < length sections)%nat -> exists p0, plan_sections plan !! i = Some p0
     /\ placed_key p = placed_key p0 /\ placed_final_size p <= placed_final_size p0)
  /\ (plan_sections (rp_layout rp) !! j = Some q -> i <> j -> placed_bank p = placed_bank q ->
      disjoint_ranges (placed_range p) (placed_range q)).
Proof.
  intros Hs Hitems Hp Hnd Hplan Hrp Hi.
  pose proof (relaxed_placement _ _ _ _ _ Hs Hitems Hp Hnd Hplan Hrp) as Hcase.
  assert (Hlen : length (plan_sections plan) = length sections).
  { destruct (layout_Ok_inv _ _ _ _ Hs Hp Hnd Hplan) as (st & ins & Hinv & -> & _).
    symmetry. by eapply Forall2_length, (li_sound _ _ _ _ Hinv). }
  split.
  { intros Hlt. destruct (Hcase _ _ Hi) as [(p0 & s & ? & _ & ? & ?)|(n & _ & -> & _)]; [|lia].
    exists p0. split_and!; [done | done | lia]. }
  intros Hj Hij Hb.
  destruct (Hcase _ _ Hi) as [(p0 & s & Hp0 & _ & Hkp & Hsp)|(n & Hn & Hin & ->)],
    (Hcase _ _ Hj) as [(q0 & t & Hq0 & _ & Hkq & Hsq)|(m & Hm & Hjm & ->)].
  - injection Hkp as _ _ Hbp Hcp. injection Hkq as _ _ Hbq Hcq.
    pose proof (planned_disjoint _ _ _ _ Hs Hp Hnd Hplan i j p0 q0 Hp0 Hq0 Hij ltac:(congruence)) as Hd.
    unfold placed_range, cpu_end_exclusive in *. rewrite Hcp, Hcq.
    eapply disjoint_ranges_shrink; [| |exact Hd]; lia.
  - by eapply (section_thunk_disjoint _ _ _ _ Hs Hp Hnd Hplan).
  - apply disjoint_ranges_sym. by eapply (section_thunk_disjoint _ _ _ _ Hs Hp Hnd Hplan).
  - assert (n <> m) by congruence. unfold disjoint_ranges, placed_range, cpu_end_exclusive, thunk_address.
    simpl. lia.
Qed.

(** ** Witnesses *)

Definition rdemo_item {T} (data : T) (seq : Z) : OrderedItem T :=
  OrderedItem_new data seq (InstrProvenance_new Stage_Backend).
Definition rdemo_label (name : string) (seq : Z) : OrderedItem Label :=
  rdemo_item (MkLabel (SymbolId_new 0) (MkSymbolName name)) seq.

(** Bank 0: a loop with a short jump, and a far call into an expert bank;
    padding before the call.  The expert jumps back into bank 0. *)
Definition rdemo_sections : list LoweredSection :=
  [MkLoweredSection (SectionId_new 1) Role_Bank0Nucleus (MkSymbolName "m") None
     SectionPrivilege_normal 1 None 5 [rdemo_label "kernel.a.1" 0] [rdemo_item I_Nop 1] []
     [rdemo_item (MkAlign 8) 3] [rdemo_item (Op_FarCall (MkSymbolName "expert.0.0") []) 4]
     [rdemo_item (SymbolicBranch_jump (MkSymbolName "kernel.a.1") (Some Cond_NZ)) 2];
   MkLoweredSection (SectionId_new 2) Role_ExpertBank (MkSymbolName "n") None
     SectionPrivilege_normal 1 None 2 [rdemo_label "expert.0.0" 0] [] [] [] []
     [rdemo_item (SymbolicBranch_jump (MkSymbolName "kernel.a.1") None) 1]].
Definition rdemo_plan : outcome LayoutError LayoutPlan :=
  layout_into_banks rdemo_sections StrictOneExpertPerBank [].
Definition rdemo_relaxed : outcome RelaxError (LayoutPlan * RelaxedProgram) :=
  match rdemo_plan with
  | Ok plan => let* rp := relax_and_legalize rdemo_sections plan in Ok (plan, rp)
  | _ => Panic
  end.

Lemma rdemo_ok : Forall lowered_ok rdemo_sections /\ Forall items_ok rdemo_sections
  /\ NoDup (map low_id rdemo_sections).
Proof.
  split_and!.
  - repeat constructor; unfold lowered_ok; simpl; lia.
  - repeat constructor; simpl; lia.
  - refine (bool_decide_unpack (NoDup _) _). vm_compute. exact I.
Qed.

Definition rdemo_request : ResolvedThunkRequest :=
  MkResolvedThunkRequest (MkSymbolName "runtime.banking.thunk.expert.0.0")
    (MkSymbolName "expert.0.0") (Bank_Rom 1) 0x4000 [].

Definition rdemo_check : bool :=
  match rdemo_relaxed with
  | Ok (plan, rp) =>
      forallb (fun p => (0 <=? placed_cpu_start p) && (placed_cpu_start p <? 65536)) (plan_sections plan)
      && bool_decide (rp_thunk_requests rp = [rdemo_request])
      && bool_decide (map placed_bank (plan_sections plan) = [Bank_Rom 0; Bank_Rom 1])
  | _ => false
  end.

Lemma rdemo_runs : exists plan rp, rdemo_plan = Ok plan /\ relax_and_legalize rdemo_sections plan = Ok rp
  /\ starts_ok plan /\ rp_thunk_requests rp !! 0%nat = Some rdemo_request
  /\ map placed_bank (plan_sections plan) = [Bank_Rom 0; Bank_Rom 1].
Proof.
  assert (Hc : rdemo_check = true) by (vm_compute; reflexivity).
  unfold rdemo_check, rdemo_relaxed in Hc.
  destruct rdemo_plan as [plan|e| |]; try discriminate Hc.
  destruct (relax_and_legalize rdemo_sections plan) as [rp|e| |] eqn:R; try discriminate Hc.
  cbn [obind] in Hc. apply andb_true_iff in Hc as [[Hst Hreq]%andb_true_iff Hbank].
  exists plan, rp. split_and!; [reflexivity | exact R | | |].
  - unfold starts_ok. apply Forall_forall. intros p Hp. rewrite forallb_forall in Hst.
    specialize (Hst p (proj1 (list_elem_of_In _ _) Hp)). lia.
  - apply bool_decide_eq_true in Hreq. by rewrite Hreq.
  - by apply bool_decide_eq_true in Hbank.
Qed.


Lemma thunks_dispatch_witness : exists plan rp leg, relax_and_legalize rdemo_sections plan = Ok rp
  /\ rp_sections rp !! 2%nat = Some leg /\ leg_id leg = thunk_section_id 0.
Proof.
  destruct rdemo_ok as (_ & Hi & Hnd). destruct rdemo_runs as (plan & rp & _ & Hrp & Hst & Hreq & _).
  destruct (thunks_dispatch rdemo_sections plan rp 0 _ Hst Hi Hnd Hrp Hreq)
    as (_ & _ & _ & _ & leg & lo & hi & addr & Hleg & Hid & _).
  exists plan, rp, leg. split; [exact Hrp|]. split; [exact Hleg | exact Hid].
Defined.

Lemma relaxed_plan_no_overlap_witness : exists plan rp,
  rdemo_plan = Ok plan /\ relax_and_legalize rdemo_sections plan = Ok rp
  /\ forall p q, plan_sections (rp_layout rp) !! 0%nat = Some p ->
       plan_sections (rp_layout rp) !! 2%nat = Some q -> placed_bank p = placed_bank q ->
       disjoint_ranges (placed_range p) (placed_range q).
Proof.
  destruct rdemo_ok as (Hs & Hi & Hnd). destruct rdemo_runs as (plan & rp & Hplan & Hrp & _).
  exists plan, rp. split; [exact Hplan|]. split; [exact Hrp|]. intros p q Hp Hq.
  destruct (relaxed_plan_no_overlap rdemo_sections StrictOneExpertPerBank [] plan rp 0 2 p q
              Hs Hi (List.Forall_nil _) Hnd Hplan Hrp Hp) as [_ Hd].
  apply Hd; [exact Hq | discriminate].
Defined.
