(* ===== verification/Encoder.v ===== *)
(** * Encoding sections to bytes ([gbf-asm/src/encoder.rs])

    [encode_section] walks the items of a legalized section in order, appends
    the bytes of each and records where they lie; [encode_instr] is the checked
    byte column of [Instr_describe]. *)

From S2P Require Import Prelude Hw Isa IsaCodec Names SectionIr Effect SectionOps SymTable Lowering Layout.

Definition PAD_BYTE : Z := 0xFF.

Inductive EncodedItemKind := Kind_Instr | Kind_DataBlock | Kind_AlignmentPadding.
#[export] Instance EncodedItemKind_eq_dec : EqDecision EncodedItemKind.
Proof. solve_decision. Defined.

Record EncodedItemSpan := MkEncodedItemSpan {
  span_seq_index : Z;
  span_sub_index : Z;
  span_kind : EncodedItemKind;
  span_offset : Z;
  span_len : Z;
}.
#[export] Instance EncodedItemSpan_eq_dec : EqDecision EncodedItemSpan.
Proof. solve_decision. Defined.

Record EncodedSection := MkEncodedSection {
  enc_id : SectionId;
  enc_bytes : list Z;
  enc_item_spans : list EncodedItemSpan;
}.
#[export] Instance EncodedSection_eq_dec : EqDecision EncodedSection.
Proof. solve_decision. Defined.

Inductive EncodeError :=
| En_EncodedLengthMismatch (expected actual : Z) (instr : Instr)
| En_MissingAlignmentPlan (section_id : SectionId) (seq_index : Z)
| En_ExtraAlignmentPlan (section_id : SectionId) (seq_index : Z)
| En_NonRomSectionEncoded (section_id : SectionId) (space : AddressSpace)
| En_SectionPlacementMismatch (section_id placed_id : SectionId)
| En_InvalidPlacement (section_id : SectionId) (error : LayoutError)
| En_SectionSizeMismatch (section_id : SectionId) (expected actual : Z)
| En_SectionOffsetOverflow (section_id : SectionId) (offset : Z)
| En_ItemSpanOverflow (section_id : SectionId) (seq_index len : Z).

Definition encode_instr (instr : Instr) : outcome EncodeError (list Z) :=
  let bytes := desc_bytes (Instr_describe instr 0) in
  let* _ := guard_err (negb (zlen bytes =? Instr_byte_len instr))
              (En_EncodedLengthMismatch (Instr_byte_len instr) (wrap U8 (zlen bytes)) instr) in
  Ok bytes.

(** The bytes [encode_data_block] appends. *)
Definition encode_data_block (block : DataBlock) : list Z :=
  match block with
  | Db_Bytes bytes => bytes
  | Db_Words words => flat_map le_bytes16 words
  end.

Definition checked_offset (offset : Z) (section_id : SectionId) : outcome EncodeError Z :=
  ok_or (try_from_u U16 offset) (En_SectionOffsetOverflow section_id offset).
Definition checked_span_len (len : Z) (section_id : SectionId) (seq_index : Z)
    : outcome EncodeError Z :=
  ok_or (try_from_u U16 len) (En_ItemSpanOverflow section_id seq_index len).

Inductive SectionEncodeItem := Enc_Label | Enc_Instr (idx : nat) | Enc_DataBlock (idx : nat)
  | Enc_Align (idx : nat).

Definition encode_items (s : LegalizedSection) : list (ItemOrder * SectionEncodeItem) :=
  map (fun i => (item_order i, Enc_Label)) (leg_labels s)
  ++ imap (fun idx i => (item_order i, Enc_Instr idx)) (leg_instrs s)
  ++ imap (fun idx i => (item_order i, Enc_DataBlock idx)) (leg_data_blocks s)
  ++ imap (fun idx i => (item_order i, Enc_Align idx)) (leg_alignments s).

Definition encode_leb (a b : ItemOrder * SectionEncodeItem) : bool := ItemOrder_leb a.1 b.1.

(** The three locals of the loop. *)
Record EncodeState := MkEncodeState {
  es_bytes : list Z;
  es_spans : list EncodedItemSpan;
  es_seen_alignments : gset ItemOrder;
}.

Definition span_at (order : ItemOrder) (kind : EncodedItemKind) (offset len : Z) : EncodedItemSpan :=
  MkEncodedItemSpan (order_seq order) (order_sub order) kind offset len.

Definition encode_step (s : LegalizedSection) (placed : PlacedSection) (st : EncodeState)
    (oi : ItemOrder * SectionEncodeItem) : outcome EncodeError EncodeState :=
  let '(order, item) := oi in
  let '(MkEncodeState bytes spans seen) := st in
  match item with
  | Enc_Label => Ok st
  | Enc_Instr idx =>
      let* i := expect (leg_instrs s !! idx) in
      let* encoded := encode_instr (item_data i) in
      let* offset := checked_offset (zlen bytes) (leg_id s) in
      let* len := checked_span_len (zlen encoded) (leg_id s) (order_seq order) in
      Ok (MkEncodeState (bytes ++ encoded) (spans ++ [span_at order Kind_Instr offset len]) seen)
  | Enc_DataBlock idx =>
      let* offset := checked_offset (zlen bytes) (leg_id s) in
      let* d := expect (leg_data_blocks s !! idx) in
      let bytes' := bytes ++ encode_data_block (item_data d) in
      let* len := checked_span_len (zlen bytes' - zlen bytes) (leg_id s) (order_seq order) in
      Ok (MkEncodeState bytes' (spans ++ [span_at order Kind_DataBlock offset len]) seen)
  | Enc_Align idx =>
      let* align := expect (leg_alignments s !! idx) in
      let align_order := item_order align in
      let* padding := ok_or (placed_alignment_padding placed !! align_order)
                        (En_MissingAlignmentPlan (leg_id s) (item_seq align)) in
      let* offset := checked_offset (zlen bytes) (leg_id s) in
      Ok (MkEncodeState (bytes ++ repeat PAD_BYTE (Z.to_nat padding))
            (spans ++ [span_at order Kind_AlignmentPadding offset padding])
            ({[align_order]} ∪ seen))
  end.

(** The keys of the [BTreeMap<ItemOrder, u16>], in order. *)
Definition padding_keys (padding : gmap ItemOrder Z) : list ItemOrder :=
  sort_by ItemOrder_leb (map fst (map_to_list padding)).

Definition check_extra_alignment (s : LegalizedSection) (placed : PlacedSection)
    (seen : gset ItemOrder) : outcome EncodeError unit :=
  ofold (fun _ order =>
      guard_err (negb (bool_decide (order ∈ seen)))
        (En_ExtraAlignmentPlan (leg_id s) (order_seq order)))
    tt (padding_keys (placed_alignment_padding placed)).

Definition encode_section (s : LegalizedSection) (placed : PlacedSection)
    : outcome EncodeError EncodedSection :=
  let* _ := guard_err (negb (bool_decide (leg_id s = placed_id placed)))
              (En_SectionPlacementMismatch (leg_id s) (placed_id placed)) in
  let* _ :=
    match rom_file_offset placed with
    | Ok (Some _) => Ok tt
    | Ok None => Err (En_NonRomSectionEncoded (leg_id s) (placed_space placed))
    | Err error => Err (En_InvalidPlacement (leg_id s) error)
    | Panic => Panic
    | NoFuel => NoFuel
    end in
  let* st := ofold (encode_step s placed) (MkEncodeState [] [] ∅)
               (sort_by encode_leb (encode_items s)) in
  let* _ := check_extra_alignment s placed (es_seen_alignments st) in
  let* _ := guard_err (negb (zlen (es_bytes st) =? placed_final_size placed))
              (En_SectionSizeMismatch (leg_id s) (placed_final_size placed) (zlen (es_bytes st))) in
  Ok (MkEncodedSection (leg_id s) (es_bytes st) (es_spans st)).

(** ** The contents of an encoded section *)

(** The bytes an item stands for. *)
Definition item_bytes (s : LegalizedSection) (placed : PlacedSection)
    (oi : ItemOrder * SectionEncodeItem) : list Z :=
  match oi.2 with
  | Enc_Label => []
  | Enc_Instr idx => match leg_instrs s !! idx with Some i => instr_bytes (item_data i) | None => [] end
  | Enc_DataBlock idx =>
      match leg_data_blocks s !! idx with Some d => encode_data_block (item_data d) | None => [] end
  | Enc_Align idx =>
      match leg_alignments s !! idx with
      | Some a => repeat PAD_BYTE (Z.to_nat (default 0 (placed_alignment_padding placed !! item_order a)))
      | None => []
      end
  end.

Definition item_kind (oi : ItemOrder * SectionEncodeItem) : option EncodedItemKind :=
  match oi.2 with
  | Enc_Label => None
  | Enc_Instr _ => Some Kind_Instr
  | Enc_DataBlock _ => Some Kind_DataBlock
  | Enc_Align _ => Some Kind_AlignmentPadding
  end.

(** The spans of a list of items laid out from [offset] on. *)
Fixpoint spans_from (s : LegalizedSection) (placed : PlacedSection) (offset : Z)
    (items : list (ItemOrder * SectionEncodeItem)) : list EncodedItemSpan :=
  match items with
  | [] => []
  | oi :: items' =>
      let len := zlen (item_bytes s placed oi) in
      match item_kind oi with
      | None => spans_from s placed offset items'
      | Some kind => span_at oi.1 kind offset len :: spans_from s placed (offset + len) items'
      end
  end.

Lemma encode_instr_total i : encode_instr i = Ok (instr_bytes i).
Proof.
  unfold encode_instr. fold (instr_bytes i). rewrite instr_bytes_length, Z.eqb_refl. done.
Qed.
