(* ===== verification/EncoderFacts.v ===== *)
(** * Correctness of the encoder ([gbf-asm/src/encoder.rs])

    What an encoded section contains, that its code decodes back, and that the
    sections produced by layout and relaxation always encode, with every item
    at the offset relaxation computed for it. *)

From S2P Require Import Prelude Hw Isa IsaCodec Names SectionIr Effect SectionOps SymTable Lowering Layout LayoutFacts Relax RelaxFacts Encoder.

(** Paddings are [u16]. *)
Definition paddings_ok (p : PlacedSection) : Prop :=
  map_Forall (fun _ v => 0 <= v < 65536) (placed_alignment_padding p).

Lemma encode_step_contents s p st oi st' : paddings_ok p -> encode_step s p st oi = Ok st' ->
  es_bytes st' = es_bytes st ++ item_bytes s p oi
  /\ es_spans st' = es_spans st ++ spans_from s p (zlen (es_bytes st)) [oi]
  /\ zlen (item_bytes s p oi) < 65536.
Proof.
  intros Hp H. destruct st as [bytes spans seen], oi as [order [|idx|idx|idx]]; cbn [encode_step] in H.
  - injection H as <-. unfold item_bytes. simpl. by rewrite !app_nil_r.
  - apply obind_Ok in H as (i & Hi%expect_Ok & H). rewrite encode_instr_total in H. cbn [obind] in H.
    unfold checked_offset, checked_span_len in H. inv_arith.
    unfold spans_from, item_bytes, item_kind, es_bytes, es_spans, snd, fst. rewrite Hi.
    pose proof (instr_bytes_pos (item_data i)) as Hlen. rewrite instr_bytes_length.
    split_and!; [done| |lia]. subst. by rewrite instr_bytes_length.
  - apply obind_Ok in H as (off & Hoff & H). apply obind_Ok in H as (d & Hd%expect_Ok & H).
    unfold checked_offset, checked_span_len in *. inv_arith.
    unfold spans_from, item_bytes, item_kind, es_bytes, es_spans, snd, fst. rewrite Hd.
    subst. rewrite zlen_app in *. split_and!; [done| |lia]. do 3 f_equal. lia.
  - apply obind_Ok in H as (a & Ha%expect_Ok & H). apply obind_Ok in H as (pad & Hpad%ok_or_Ok & H).
    unfold checked_offset in H. inv_arith.
    unfold spans_from, item_bytes, item_kind, es_bytes, es_spans, snd, fst. rewrite Ha, Hpad. simpl.
    pose proof (Hp _ _ Hpad) as Hr. simpl in Hr. unfold zlen at 2 3. rewrite repeat_length, Z2Nat.id by lia.
    subst. split_and!; [done | done | lia].
Qed.

Lemma spans_from_cons s p off oi items :
  spans_from s p off (oi :: items)
  = spans_from s p off [oi] ++ spans_from s p (off + zlen (item_bytes s p oi)) items.
Proof.
  simpl. destruct oi as [o [|idx|idx|idx]]; simpl; [|done..].
  unfold item_bytes. simpl. by rewrite Z.add_0_r.
Qed.

Lemma encode_fold_contents s p : paddings_ok p -> forall items st st',
  ofold (encode_step s p) st items = Ok st' ->
  es_bytes st' = es_bytes st ++ flat_map (item_bytes s p) items
  /\ es_spans st' = es_spans st ++ spans_from s p (zlen (es_bytes st)) items.
Proof.
  intros Hp. induction items as [|oi items IH]; intros st st' H; cbn [ofold] in H.
  - injection H as <-. simpl. by rewrite !app_nil_r.
  - inv_ok. destruct (encode_step_contents _ _ _ _ _ Hp Hx) as (Hb & Hs & _).
    destruct (IH _ _ H) as [Hb2 Hs2].
    rewrite Hb2, Hs2, Hb, Hs, (spans_from_cons _ _ _ oi items), zlen_app, <- !app_assoc. done.
Qed.

Lemma encoded_contents s p enc : paddings_ok p -> encode_section s p = Ok enc ->
  enc_id enc = leg_id s /\ leg_id s = placed_id p
  /\ enc_bytes enc = flat_map (item_bytes s p) (sort_by encode_leb (encode_items s))
  /\ enc_item_spans enc = spans_from s p 0 (sort_by encode_leb (encode_items s))
  /\ zlen (enc_bytes enc) = placed_final_size p
  /\ exists off, rom_file_offset p = Ok (Some off).
Proof.
  intros Hp H. unfold encode_section in H. apply obind_Ok in H as (u & Hid & H).
  apply guard_err_Ok in Hid as [Hid%negb_false_iff%bool_decide_eq_true _].
  apply obind_Ok in H as (u' & Hrom & H). apply obind_Ok in H as (st & Hst & H). inv_ok.
  match goal with Hg : negb (_ =? _) = false |- _ => apply negb_false_iff, Z.eqb_eq in Hg end.
  destruct (encode_fold_contents _ _ Hp _ _ _ Hst) as [Hb Hs]. simpl in *.
  split_and!; try done. destruct (rom_file_offset p) as [[off|]| | |]; try done. eauto.
Qed.


(** Every instruction of the section is an item. *)
Lemma instr_item s idx i : leg_instrs s !! idx = Some i ->
  (item_order i, Enc_Instr idx) ∈ sort_by encode_leb (encode_items s).
Proof.
  intros Hi. rewrite elem_of_sort_by. unfold encode_items. rewrite !elem_of_app. right. left.
  apply elem_of_lookup_imap. eauto.
Qed.

Lemma spans_from_app s p items1 : forall off items2,
  spans_from s p off (items1 ++ items2)
  = spans_from s p off items1 ++ spans_from s p (off + zlen (flat_map (item_bytes s p) items1)) items2.
Proof.
  induction items1 as [|oi items1 IH]; intros off items2.
  - simpl. by rewrite Z.add_0_r.
  - change ((oi :: items1) ++ items2) with (oi :: (items1 ++ items2)).
    rewrite spans_from_cons, IH, (spans_from_cons s p off oi items1), <- app_assoc. simpl.
    by rewrite zlen_app, Z.add_assoc.
Qed.

Lemma encoded_instr_at s p enc idx i :
  paddings_ok p -> encode_section s p = Ok enc -> leg_instrs s !! idx = Some i ->
  instr_ok (item_data i) = true ->
  exists off, span_at (item_order i) Kind_Instr off (Instr_byte_len (item_data i)) ∈ enc_item_spans enc
    /\ 0 <= off
    /\ decode (drop (Z.to_nat off) (enc_bytes enc))
       = Some (item_data i, drop (Z.to_nat (off + Instr_byte_len (item_data i))) (enc_bytes enc)).
Proof.
  intros Hp H Hi Hok.
  destruct (encoded_contents s p enc Hp H) as (_ & _ & Hb & Hs & _).
  apply instr_item in Hi as Hin. apply list_elem_of_split in Hin as (l1 & l2 & Hsplit).
  rewrite Hsplit in Hb, Hs. rewrite flat_map_app in Hb. rewrite spans_from_app in Hs.
  assert (Hitem : item_bytes s p (item_order i, Enc_Instr idx) = instr_bytes (item_data i))
    by (unfold item_bytes; simpl; by rewrite Hi).
  exists (zlen (flat_map (item_bytes s p) l1)). split_and!.
  - rewrite Hs, elem_of_app. right. rewrite Z.add_0_l.
    cbn [spans_from]. rewrite Hitem, instr_bytes_length. simpl. by left.
  - apply zlen_nonneg.
  - cbn [flat_map] in Hb. rewrite Hitem in Hb. rewrite Hb, <- instr_bytes_length.
    rewrite <- zlen_app. unfold zlen. rewrite !Nat2Z.id, drop_app_length.
    rewrite app_assoc, drop_app_length. by apply decode_bytes_operand.
Qed.

(** The machine code of every instruction of the section is in the encoded
    bytes at the offset its span records, and decoding there gives the
    instruction back. *)
Theorem encoded_instr_decodes s p enc idx i :
  paddings_ok p -> encode_section s p = Ok enc -> leg_instrs s !! idx = Some i ->
  instr_ok (item_data i) = true ->
  exists off, span_at (item_order i) Kind_Instr off (Instr_byte_len (item_data i)) ∈ enc_item_spans enc
    /\ 0 <= off
    /\ decode (drop (Z.to_nat off) (enc_bytes enc))
       = Some (item_data i, drop (Z.to_nat (off + Instr_byte_len (item_data i))) (enc_bytes enc)).
Proof. apply encoded_instr_at. Qed.

(** ** Encoding follows the offsets of relaxation *)

(** Data blocks shorter than 2^32 bytes: their [as u32] length is exact. *)
Definition data_ok (s : LoweredSection) : Prop :=
  Forall (fun d => zlen (encode_data_block (item_data d)) < 4294967296) (low_data_blocks s).

Lemma le_bytes_length words : zlen (flat_map le_bytes16 words) = 2 * zlen words.
Proof.
  induction words as [|x words IH]; [done|]. cbn [flat_map]. rewrite zlen_app, IH, zlen_cons.
  change (zlen (le_bytes16 x)) with 2. lia.
Qed.

Lemma encode_data_block_length {E} d n : zlen (encode_data_block d) < 4294967296 ->
  @DataBlock_byte_len E d = Ok n -> zlen (encode_data_block d) = n.
Proof.
  destruct d as [b|words]; simpl; intros Hlt H.
  - injection H as <-. unfold wrap. pose proof (zlen_nonneg b). by rewrite Z.mod_small by lia.
  - rewrite le_bytes_length in *. pose proof (zlen_nonneg words).
    apply umul_Ok in H as [_ ->]. unfold wrap. rewrite Z.mod_small; lia.
Qed.

(** An item of the encoder and the same item of relaxation. *)
Definition same_item (leg : LegalizedSection) (a : ItemOrder * SectionEncodeItem)
    (b : ItemOrder * OffsetItem) : Prop :=
  a.1 = b.1 /\
  match a.2, b.2 with
  | Enc_Label, Off_Label => True
  | Enc_Instr idx, Off_Fixed n =>
      exists i, leg_instrs leg !! idx = Some i /\ Instr_byte_len (item_data i) = n
  | Enc_DataBlock idx, Off_Fixed n =>
      exists d, leg_data_blocks leg !! idx = Some d /\ zlen (encode_data_block (item_data d)) = n
  | Enc_Align idx, Off_Align _ => exists d, leg_alignments leg !! idx = Some d /\ item_order d = a.1
  | _, _ => False
  end.

Lemma imap_Forall2 {A B C} (R : B -> C -> Prop) (f : nat -> A -> B) (g : A -> C) l :
  (forall k x, l !! k = Some x -> R (f k x) (g x)) -> Forall2 R (imap f l) (map g l).
Proof.
  revert f. induction l as [|x l IH]; intros f H; [constructor|]. simpl.
  constructor; [by apply H|]. apply IH. intros k y Hy. by apply (H (S k)).
Qed.

Lemma imap_Forall2_r {A B C} (R : B -> C -> Prop) (f : nat -> A -> B) l (l' : list C) :
  Forall2 (fun x y => True) l l' ->
  (forall k x y, l !! k = Some x -> l' !! k = Some y -> R (f k x) y) -> Forall2 R (imap f l) l'.
Proof.
  intros Hl. revert f. induction Hl as [|x y l l' _ _ IH]; intros f H; [constructor|]. simpl.
  constructor; [by apply H|]. apply IH. intros k u v Hu Hv. by apply (H (S k)).
Qed.

(** The branches and far calls come from single-item fragments. *)
Definition branch_subs_ok (s : LoweredSection) : Prop :=
  Forall (fun b => item_sub b = 0) (low_branches s)
  /\ Forall (fun op => item_sub op = 0) (low_legalization_ops s).

Lemma emitted_items_perm sy l o p offs w s leg : branch_subs_ok s ->
  section_legalized sy l o p offs w s leg ->
  map (fun i => (item_order i, Off_Fixed (Instr_byte_len (item_data i)))) (leg_instrs leg)
  ≡ₚ map (fun i => (item_order i, Off_Fixed (Instr_byte_len (item_data i)))) (low_instrs s)
     ++ map (fun i => (item_order i, Off_Fixed (branch_size (is_wide w (low_id s) (item_order i))
                                                  (item_data i)))) (low_branches s)
     ++ map (fun i => (item_order i, Off_Fixed 3)) (low_legalization_ops s).
Proof.
  intros [Hb Ho] Hsl. destruct (sl_instrs _ _ _ _ _ _ _ _ Hsl) as (eb & eo & -> & Heb & Heo).
  rewrite sort_by_perm, !map_app. do 2 f_equiv.
  - clear Heo. revert Hb. induction Heb as [|b i bs il [Hord _ _ Hlen _] _ IH]; intros Hb; [done|].
    apply Forall_cons in Hb as [Hb Hbs]. simpl. rewrite (IH Hbs), Hord, Hlen.
    unfold item_order. by rewrite Hb.
  - clear Heb. revert Ho. induction Heo as [|op i ops il [Hord _ (dest & Hi & _)] _ IH]; intros Ho; [done|].
    apply Forall_cons in Ho as [Ho Hos]. simpl. rewrite (IH Hos), Hord, Hi.
    unfold item_order. by rewrite Ho.
Qed.

Lemma encode_items_same sy l o p offs w s leg items : branch_subs_ok s -> data_ok s ->
  section_legalized sy l o p offs w s leg -> offset_items s w = Ok items ->
  exists items', items' ≡ₚ items /\ Forall2 (same_item leg) (encode_items leg) items'.
Proof.
  intros Hsub Hdata Hsl H. pose proof (emitted_items_perm _ _ _ _ _ _ _ _ Hsub Hsl) as Hperm.
  unfold offset_items in H. apply obind_Ok in H as (blocks & Hblocks & [= <-]).
  apply omapM_Forall2 in Hblocks.
  exists (map (fun i => (item_order i, Off_Label)) (leg_labels leg)
    ++ map (fun i => (item_order i, Off_Fixed (Instr_byte_len (item_data i)))) (leg_instrs leg)
    ++ blocks ++ map (fun i => (item_order i, Off_Align (Align_0 (item_data i)))) (leg_alignments leg)).
  split.
  - rewrite (sl_labels _ _ _ _ _ _ _ _ Hsl), (sl_alignments _ _ _ _ _ _ _ _ Hsl), sort_by_perm, Hperm.
    rewrite <- !app_assoc. do 2 f_equiv. solve_Permutation.
  - unfold encode_items. repeat apply Forall2_app.
    + apply map_Forall2. by intros i _.
    + apply imap_Forall2. intros k i Hk. split; simpl; eauto.
    + rewrite (sl_data _ _ _ _ _ _ _ _ Hsl). apply imap_Forall2_r.
      * eapply Forall2_impl; [exact Hblocks|]. done.
      * intros k d y Hk Hy. pose proof (Forall2_lookup_lr _ _ _ _ _ _ Hblocks Hk Hy) as Hdy.
        apply obind_Ok in Hdy as (n & Hn & [= <-]). split; [done|]. simpl. exists d.
        rewrite (sl_data _ _ _ _ _ _ _ _ Hsl). split; [done|].
        unfold data_ok in Hdata. rewrite Forall_forall in Hdata.
        eapply encode_data_block_length; [|done]. apply Hdata. by eapply list_elem_of_lookup_2.
    + apply imap_Forall2. intros k i Hk. split; simpl; eauto.
Qed.

(** Later steps leave the entries of other orders alone. *)
Lemma offset_fold_preserves id c : forall items st st' o, o ∉ map fst items ->
  ofold (offset_step id c) st items = Ok st' ->
  so_offsets st' !! o = so_offsets st !! o
  /\ so_alignment_padding st' !! o = so_alignment_padding st !! o.
Proof.
  induction items as [|[o1 it] items IH]; intros st st' o Ho H; cbn [ofold] in H.
  - by injection H as <-.
  - simpl in Ho. rewrite not_elem_of_cons in Ho. destruct Ho as [Hne Ho].
    apply obind_Ok in H as (st1 & Hst1 & H). destruct (IH _ _ _ Ho H) as [-> ->].
    destruct it; simpl in Hst1; inv_ok; simpl; by rewrite ?lookup_insert_ne by done.
Qed.

(** The encoder's state agrees with the offsets computed so far, and with the
    final ones. *)
Record encoding_agrees (offs : SectionOffsets) (so : SectionOffsets) (se : EncodeState) : Prop := {
  ea_size : zlen (es_bytes se) = so_size so;
  ea_spans : Forall (fun sp => so_offsets offs !! ItemOrder_new (span_seq_index sp) (span_sub_index sp)
                               = Some (span_offset sp)) (es_spans se);
  ea_seen : forall o, is_Some (so_alignment_padding so !! o) -> o ∈ es_seen_alignments se;
}.

Lemma ItemOrder_eta o : ItemOrder_new (order_seq o) (order_sub o) = o.
Proof. by destruct o. Qed.

Lemma encode_step_agrees leg p id c offs so oi' so' se oi :
  same_item leg oi oi' -> 0 <= c -> offsets_ok so -> item_pos oi' ->
  offset_step id c so oi' = Ok so' -> so_size so' < 65536 ->
  so_offsets offs !! oi.1 = so_offsets so' !! oi.1 ->
  placed_alignment_padding p !! oi.1 = so_alignment_padding so' !! oi.1 ->
  encoding_agrees offs so se ->
  exists se', encode_step leg p se oi = Ok se' /\ encoding_agrees offs so' se'.
Proof.
  intros [Ho Hitem] Hc Hok Hpos Hstep Hlt Hoff Hpad [Hsize Hspans Hseen].
  pose proof (offset_step_grows _ _ _ _ _ Hc (proj1 Hok) Hpos Hstep) as Hgrow.
  pose proof (proj1 Hok) as Hnn.
  destruct oi as [o it], oi' as [o' it'], se as [bytes spans seen]. simpl in Ho. subst o'.
  cbn [es_bytes es_spans es_seen_alignments] in *. cbn [fst snd] in *.
  assert (Hat : so_offsets so' !! o = Some (so_size so)).
  { destruct it'; simpl in Hstep; inv_ok; simpl; by rewrite lookup_insert_eq. }
  rewrite Hat in Hoff. rewrite <- Hsize in Hoff.
  assert (Hoffset : checked_offset (zlen bytes) (leg_id leg) = Ok (zlen bytes)).
  { unfold checked_offset. rewrite (proj2 (try_from_u_Some U16 (zlen bytes) (zlen bytes))); [done|].
    split; [lia|done]. }
  assert (Hlen : forall n, 0 <= n -> zlen bytes + n < 65536 ->
    checked_span_len n (leg_id leg) (order_seq o) = Ok n).
  { intros n Hn Hb. unfold checked_span_len. rewrite (proj2 (try_from_u_Some U16 n n)); [done|].
    pose proof (zlen_nonneg bytes). split; [lia|done]. }
  destruct it as [|idx|idx|idx], it' as [|n|a]; simpl in Hitem; try done; cbn [encode_step].
  - eexists. split; [done|]. simpl in Hstep. injection Hstep as <-. by constructor.
  - destruct Hitem as (i & Hi & <-). rewrite Hi. cbn [expect obind]. rewrite encode_instr_total, Hoffset.
    cbn [obind]. simpl in Hstep. inv_arith. subst. simpl in Hlt.
    rewrite Hlen; [|apply zlen_nonneg|rewrite instr_bytes_length; lia]. cbn [obind].
    eexists. split; [done|]. constructor; cbn [es_bytes es_spans es_seen_alignments].
    + rewrite zlen_app, instr_bytes_length. simpl. lia.
    + rewrite Forall_app. split; [done|]. repeat constructor. simpl. by rewrite ItemOrder_eta.
    + done.
  - destruct Hitem as (d & Hd & <-). rewrite Hd, Hoffset. cbn [expect obind].
    simpl in Hstep. inv_arith. subst. simpl in Hlt. rewrite zlen_app.
    replace (zlen bytes + zlen (encode_data_block (item_data d)) - zlen bytes)
      with (zlen (encode_data_block (item_data d))) by lia.
    rewrite Hlen; [|apply zlen_nonneg|lia]. cbn [obind].
    eexists. split; [done|]. constructor; cbn [es_bytes es_spans es_seen_alignments].
    + rewrite zlen_app. simpl. lia.
    + rewrite Forall_app. split; [done|]. repeat constructor. simpl. by rewrite ItemOrder_eta.
    + done.
  - destruct Hitem as (d & Hd & Hdo). rewrite Hd. cbn [expect obind]. rewrite Hdo, Hpad.
    simpl in Hstep. inv_arith. subst. simpl. rewrite lookup_insert_eq. simpl. rewrite Hoffset.
    simpl. eexists. split; [done|]. constructor; cbn [es_bytes es_spans es_seen_alignments].
    + rewrite zlen_app. unfold zlen at 2. rewrite repeat_length, Z2Nat.id by lia. simpl. lia.
    + rewrite Forall_app. split; [done|]. repeat constructor. exact Hoff.
    + simpl. intros o' Ho'. destruct (decide (o' = item_order d)) as [->|Hne]; [set_solver|].
      rewrite lookup_insert_ne in Ho' by done. apply Hseen in Ho'. set_solver.
Qed.

Lemma encode_fold_agrees leg p id c offs : 0 <= c -> forall items items' so se,
  Forall2 (same_item leg) items items' -> NoDup (map fst items') -> Forall item_pos items' ->
  offsets_ok so -> ofold (offset_step id c) so items' = Ok offs -> so_size offs < 65536 ->
  placed_alignment_padding p = so_alignment_padding offs -> encoding_agrees offs so se ->
  exists se', ofold (encode_step leg p) se items = Ok se' /\ encoding_agrees offs offs se'.
Proof.
  intros Hc. induction items as [|oi items IH]; intros items' so se Hall Hnd Hpos Hok H Hlt Hp Hag.
  - inversion Hall; subst. injection H as ->. eauto.
  - inversion Hall as [|? oi' ? items1 Hi Hl]; subst. cbn [ofold] in H.
    apply obind_Ok in H as (so1 & Hso1 & H). simpl in Hnd. apply NoDup_cons in Hnd as [Hnin Hnd].
    apply Forall_cons in Hpos as [Hpos1 Hpos].
    destruct (offset_fold_preserves id c _ _ _ _ Hnin H) as [Hpo Hpp].
    pose proof (offset_step_ok _ _ _ _ _ Hc Hok Hpos1 Hso1) as Hok1.
    pose proof (proj1 (proj2 (offset_fold_ok id c Hc _ _ _ Hpos Hok1 H))) as Hg.
    destruct (encode_step_agrees leg p id c offs so oi' so1 se oi) as (se1 & Hse1 & Hag1);
      try done; [lia | | |].
    + rewrite (proj1 Hi). done.
    + rewrite Hp, (proj1 Hi). done.
    + cbn [ofold]. rewrite Hse1. cbn [obind]. by eapply IH.
Qed.

Lemma encode_section_total sy l o p offs w s leg : 
  branch_subs_ok s -> data_ok s -> items_ok s -> 0 <= placed_cpu_start p ->
  section_legalized sy l o p offs w s leg -> section_offsets s p w = Ok offs ->
  (forall items, offset_items s w = Ok items -> NoDup (map fst items)) ->
  leg_id leg = placed_id p -> placed_final_size p = so_size offs -> so_size offs < 65536 ->
  placed_alignment_padding p = so_alignment_padding offs ->
  (exists off, rom_file_offset p = Ok (Some off)) ->
  exists enc, encode_section leg p = Ok enc
    /\ Forall (fun sp => so_offsets offs !! ItemOrder_new (span_seq_index sp) (span_sub_index sp)
                         = Some (span_offset sp)) (enc_item_spans enc).
Proof.
  intros Hsub Hdata Hitems Hc Hsl Hoffs Hnd Hid Hsize Hlt Hpad [off Hrom].
  unfold section_offsets in Hoffs. apply obind_Ok in Hoffs as (items & Hit & Hfold).
  destruct (encode_items_same _ _ _ _ _ _ _ _ _ Hsub Hdata Hsl Hit) as (items' & Hperm & Hsame).
  specialize (Hnd _ Hit).
  assert (Hsort : sort_by offset_leb items' = sort_by offset_leb items).
  { apply (sorted_perm_eq offset_leb).
    - intros x y Hx Hy Hxy Hyx. rewrite elem_of_sort_by in Hx, Hy. rewrite Hperm in Hx, Hy.
      pose proof (ItemOrder_leb_antisym _ _ Hxy Hyx) as Hfst.
      apply list_elem_of_lookup in Hx as [i Hi], Hy as [j Hj].
      assert (i = j) as ->; [|congruence].
      eapply (NoDup_lookup (map fst items)); [done | |]; rewrite list_lookup_fmap.
      + by rewrite Hi.
      + rewrite Hj. simpl. by rewrite Hfst.
    - apply sort_by_sorted; intros; [apply ItemOrder_leb_total | by eapply ItemOrder_leb_trans].
    - apply sort_by_sorted; intros; [apply ItemOrder_leb_total | by eapply ItemOrder_leb_trans].
    - by rewrite !sort_by_perm. }
  apply (sort_by_Forall2 encode_leb offset_leb) in Hsame.
  2: { intros x y x' y' [Hx _] [Hy _]. unfold encode_leb, offset_leb. by rewrite Hx, Hy. }
  rewrite Hsort in Hsame.
  destruct (encode_fold_agrees leg p (low_id s) (placed_cpu_start p) offs Hc _ _
              (MkSectionOffsets ∅ ∅ 0) (MkEncodeState [] [] ∅) Hsame) as (se & Hse & [Hes Hspans Hseen]); try done.
  - by rewrite (sort_by_perm offset_leb).
  - rewrite (sort_by_perm offset_leb). by eapply offset_items_pos.
  - constructor; [done | constructor |]. intros o'. simpl. rewrite lookup_empty. by intros [].
  - unfold encode_section. rewrite bool_decide_eq_true_2 by done. cbn [negb guard_err obind].
    rewrite Hrom. cbn [obind]. rewrite Hse. cbn [obind].
    assert (check_extra_alignment leg p (es_seen_alignments se) = Ok tt) as ->.
    { unfold check_extra_alignment.
      assert (Hk : forall o', o' ∈ padding_keys (placed_alignment_padding p) ->
                o' ∈ es_seen_alignments se).
      { intros o' Ho'. apply Hseen. unfold padding_keys in Ho'. rewrite elem_of_sort_by in Ho'.
        apply list_elem_of_fmap in Ho' as ([o2 v] & -> & Hv%elem_of_map_to_list).
        rewrite Hpad in Hv. by eexists. }
      revert Hk. generalize (padding_keys (placed_alignment_padding p)). intros ks Hk.
      induction ks as [|k ks IH]; [done|]. cbn [ofold].
      rewrite bool_decide_eq_true_2 by (apply Hk; by left). cbn [negb guard_err obind].
      apply IH. intros o' Ho'. apply Hk. by right. }
    cbn [obind]. rewrite Hes, Hsize, Z.eqb_refl. cbn [negb guard_err obind]. eauto.
Qed.

(** ** The machine code of a relaxed section *)

(** The orders of all items of a section. *)
Definition section_orders (s : LoweredSection) : list ItemOrder :=
  map item_order (low_labels s) ++ map item_order (low_instrs s)
  ++ map item_order (low_data_blocks s) ++ map item_order (low_alignments s)
  ++ map item_order (low_branches s) ++ map item_order (low_legalization_ops s).

Lemma offset_items_orders s w items : offset_items s w = Ok items -> map fst items = section_orders s.
Proof.
  unfold offset_items, section_orders. intros H. inv_ok. rewrite !map_app, !map_map. simpl.
  do 2 f_equal. f_equal. apply omapM_Forall2 in Hx. induction Hx as [|d y ds ys Hd Hds IH]; [done|].
  inv_ok. simpl. by rewrite IH.
Qed.

Lemma section_offsets_paddings s p w offs : section_offsets s p w = Ok offs ->
  map_Forall (fun _ v => 0 <= v < 65536) (so_alignment_padding offs).
Proof.
  unfold section_offsets. intros H. inv_ok. eapply (ofold_inv' (fun st => map_Forall
    (fun _ v => 0 <= v < 65536) (so_alignment_padding st))); [| |exact H].
  - apply map_Forall_empty.
  - intros [o it] st st' _ Hst Hstep. destruct it; simpl in Hstep; inv_arith; simpl; try done.
    subst. apply map_Forall_insert_2; [lia | done].
Qed.

Lemma resolves_range sy l t rt : resolves sy l t rt -> 0 <= rt_cpu_addr rt < 65536.
Proof.
  intros H. specialize (H (SectionId_new 0)). unfold resolve_target in H. inv_arith. simpl. lia.
Qed.

Lemma reaches_range sy l o bank t a : reaches sy l o bank t a ->
  (length o <= 16)%nat -> 0 <= a < 65536.
Proof.
  intros (rt & Hrt & H) Hlen. destruct (directly_reachable _ _); [subst; by eapply resolves_range|].
  destruct H as (n & Hn%lookup_lt_Some & ->). unfold thunk_address. lia.
Qed.

(** An emitted branch is an encodable instruction. *)
Lemma branch_emitted_ok sy l o p offs w b i : (length o <= 16)%nat ->
  branch_emitted sy l o p offs w b i -> instr_ok (item_data i) = true.
Proof.
  intros Hlen [_ _ Himp _ (off & dest & _ & Hjump & Hreach)].
  pose proof (reaches_range _ _ _ _ _ _ Hreach Hlen) as Hr. unfold implements in Himp.
  destruct (br_kind (item_data b)), (item_data i); try done; simpl in *; injection Hjump as <-;
    unfold u16_ok, i8_ok; rewrite in_range_true; lia.
Qed.

(** The bytes of [enc] contain, at the branch's offset, the code of a jump or
    call of the branch's kind and condition to where it has to go. *)
Definition branch_encoded (rp : RelaxedProgram) (p : PlacedSection) (enc : EncodedSection)
    (b : OrderedItem SymbolicBranch) : Prop :=
  exists off i dest rest,
    span_at (item_order b) Kind_Instr off (Instr_byte_len i) ∈ enc_item_spans enc
    /\ decode (drop (Z.to_nat off) (enc_bytes enc)) = Some (i, rest)
    /\ implements (item_data b) i
    /\ jump_destination (placed_cpu_start p + off) i = Some dest
    /\ reaches (rp_symbols rp) (rp_layout rp) (map req_target (rp_thunk_requests rp))
         (placed_bank p) (br_target (item_data b)) dest.

Lemma section_done_encodes rp w s leg p offs : branch_subs_ok s -> data_ok s -> items_ok s ->
  NoDup (section_orders s) -> 0 <= placed_cpu_start p ->
  (length (rp_thunk_requests rp) <= 16)%nat ->
  section_done (rp_symbols rp) (rp_layout rp) (rp_layout rp) (map req_target (rp_thunk_requests rp))
    w s leg p offs ->
  (exists off, rom_file_offset p = Ok (Some off)) ->
  exists enc, encode_section leg p = Ok enc /\ zlen (enc_bytes enc) = placed_final_size p
    /\ Forall (branch_encoded rp p enc) (low_branches s).
Proof.
  intros Hsub Hdata Hitems Hnd Hc Hlen [Hp Hoffs Hsize [Hnn Hbound] Hpad Hsl] Hrom.
  assert (Hid : leg_id leg = placed_id p).
  { rewrite (sl_id _ _ _ _ _ _ _ _ Hsl). apply ok_or_Ok, placement_for_elem in Hp as [_ ->]. done. }
  destruct (encode_section_total _ _ _ p offs w s leg Hsub Hdata Hitems Hc Hsl Hoffs) as (enc & Henc & Hspans);
    try done.
  { intros items Hit. by rewrite (offset_items_orders _ _ _ Hit). }
  assert (Hpads : paddings_ok p).
  { unfold paddings_ok. rewrite Hpad. by eapply section_offsets_paddings. }
  destruct (encoded_contents _ _ _ Hpads Henc) as (_ & _ & _ & _ & Hlen' & _).
  exists enc. split_and!; [done | done|].
  destruct (sl_instrs _ _ _ _ _ _ _ _ Hsl) as (eb & eo & Hinstrs & Heb & _).
  apply Forall_forall. intros b Hb. apply list_elem_of_lookup in Hb as [k Hk].
  destruct (Forall2_lookup_l _ _ _ _ _ Heb Hk) as (i & Hi & Hbi).
  assert (Hin : i ∈ leg_instrs leg).
  { rewrite Hinstrs, elem_of_sort_by, !elem_of_app. right. left. by eapply list_elem_of_lookup_2. }
  apply list_elem_of_lookup in Hin as [idx Hidx].
  assert (Hok : instr_ok (item_data i) = true).
  { eapply branch_emitted_ok; [|exact Hbi]. by rewrite length_map. }
  destruct (encoded_instr_at leg p enc idx i Hpads Henc Hidx Hok) as (off & Hspan & Hoff & Hdec).
  destruct Hbi as [Hord _ Himp _ (off' & dest & Hoff' & Hjump & Hreach)].
  assert (Hordb : item_order i = item_order b).
  { rewrite Hord. unfold item_order. destruct Hsub as [Hsub _]. rewrite Forall_forall in Hsub.
    by rewrite (Hsub b) by by eapply list_elem_of_lookup_2. }
  rewrite Forall_forall in Hspans. pose proof (Hspans _ Hspan) as Hso. simpl in Hso.
  rewrite <- Hordb in Hoff'. unfold item_order in Hoff'. rewrite Hso in Hoff'. injection Hoff' as <-.
  exists off, (item_data i), dest, (drop (Z.to_nat (off + Instr_byte_len (item_data i))) (enc_bytes enc)).
  rewrite <- Hordb. split_and!; done.
Qed.


(** ** Witnesses *)

Definition edemo_section : LegalizedSection :=
  MkLegalizedSection (SectionId_new 1) Role_Bank0Data (MkSymbolName "m") None
    SectionPrivilege_normal 1 None 4 [rdemo_label "kernel.a.1" 0]
    [rdemo_item (I_JpAbs None 0x1234) 1] [rdemo_item (Db_Words [0xBEEF]) 3]
    [rdemo_item (MkAlign 4) 2].
Definition edemo_placed : PlacedSection :=
  MkPlacedSection (SectionId_new 1) Space_Rom0 (Bank_Rom 0) 0x0150 6 6
    {[ItemOrder_new 2 0 := 1]}.
Definition edemo_encoded : EncodedSection :=
  MkEncodedSection (SectionId_new 1) [0xC3; 0x34; 0x12; 0xFF; 0xEF; 0xBE]
    [MkEncodedItemSpan 1 0 Kind_Instr 0 3; MkEncodedItemSpan 2 0 Kind_AlignmentPadding 3 1;
     MkEncodedItemSpan 3 0 Kind_DataBlock 4 2].

Lemma edemo_paddings_ok : paddings_ok edemo_placed.
Proof. apply map_Forall_singleton. lia. Qed.

Lemma edemo_encodes : encode_section edemo_section edemo_placed = Ok edemo_encoded.
Proof. vm_compute. reflexivity. Qed.


Lemma encoded_instr_decodes_witness : exists off,
  span_at (ItemOrder_new 1 0) Kind_Instr off 3 ∈ enc_item_spans edemo_encoded
  /\ decode (drop (Z.to_nat off) (enc_bytes edemo_encoded))
     = Some (I_JpAbs None 0x1234, drop (Z.to_nat (off + 3)) (enc_bytes edemo_encoded)).
Proof.
  destruct (encoded_instr_decodes edemo_section edemo_placed edemo_encoded 0
              (rdemo_item (I_JpAbs None 0x1234) 1) edemo_paddings_ok edemo_encodes eq_refl eq_refl)
    as (off & Hs & _ & Hd).
  exists off. split; [exact Hs | exact Hd].
Defined.

