(* ===== verification/Rom.v ===== *)
(** * ROM assembly ([gbf-asm/src/rom.rs])

    [assemble_rom] fills an image with 0xFF, copies every encoded section to
    its file offset, writes the cartridge header and its two checksums. *)

From S2P Require Import Prelude Numeric Hw Isa IsaCodec Names SectionIr Effect SectionOps SymTable Lowering Layout Encoder.

Definition HEADER_START : Z := 0x0100.
Definition HEADER_END_EXCLUSIVE : Z := 0x0150.
Definition ENTRY_POINT : Z := 0x0150.
Definition Rom_ROM_BANK_SIZE : Z := ROM_BANK_SIZE.
Definition HEADER_SECTION_ID : SectionId := SectionId_new 0xFFFFFFFE.

(** The title is given by its UTF-8 bytes. *)
Record CartridgeHeader := MkCartridgeHeader {
  ch_title : list Z;
  ch_mbc_type : MbcType;
  ch_rom_size : RomSize;
  ch_ram_size : RamSize;
  ch_destination_code : DestinationCode;
  ch_new_licensee_code : Z * Z;
  ch_mask_rom_version : Z;
}.

Inductive RomAssemblyError :=
| Ra_UserHeaderSectionRejected (id : SectionId)
| Ra_HeaderRangeCollision (id : SectionId) (start end_exclusive : Z)
| Ra_SectionCollision (id other_id : SectionId) (start end_exclusive : Z)
| Ra_SectionPlacementMismatch (section_id placed_id : SectionId)
| Ra_SectionSizeMismatch (id : SectionId) (expected actual : Z)
| Ra_SectionExceedsBankBoundary (id : SectionId) (bank : BankIndex)
    (cpu_start len end_exclusive bank_end_exclusive : Z)
| Ra_BankIndexOutOfRange (id : SectionId) (bank : BankIndex) (max_valid_bank : Z)
| Ra_InvalidTitle (reason : string)
| Ra_InvalidLicenseeCode (code : Z * Z)
| Ra_InvalidRomSizeForLayout (requested_banks header_banks : Z)
| Ra_MissingEntryPoint (addr : Z)
| Ra_NonRomSection (id : SectionId) (space : AddressSpace)
| Ra_Layout (e : LayoutError)
| Ra_Encode (e : EncodeError).

(** ** The header *)

(** [u8::is_ascii_alphanumeric]. *)
Definition is_ascii_alphanumeric (b : Z) : bool :=
  ((48 <=? b) && (b <=? 57)) || ((65 <=? b) && (b <=? 90)) || ((97 <=? b) && (b <=? 122)).

Definition CartridgeHeader_validate (h : CartridgeHeader) : outcome RomAssemblyError unit :=
  let* _ := guard_err (11 <? zlen (ch_title h))
              (Ra_InvalidTitle "title must be at most 11 ASCII bytes") in
  let* _ := guard_err (negb (forallb (fun b => b <? 128) (ch_title h)))
              (Ra_InvalidTitle "title must be ASCII") in
  let* _ := guard_err (existsb (fun b => b =? 0) (ch_title h))
              (Ra_InvalidTitle "title must not contain interior NUL bytes") in
  guard_err (negb (is_ascii_alphanumeric (ch_new_licensee_code h).1
                   && is_ascii_alphanumeric (ch_new_licensee_code h).2))
    (Ra_InvalidLicenseeCode (ch_new_licensee_code h)).

(** [GBFASM] and the licensee code [00]. *)
Definition CartridgeHeader_default : CartridgeHeader :=
  MkCartridgeHeader [71; 66; 70; 65; 83; 77] Mbc5 Rom_Kib32 Ram_None Dest_Overseas (48, 48) 0.

Definition CartridgeHeader_new (title : list Z) : outcome RomAssemblyError CartridgeHeader :=
  let header :=
    MkCartridgeHeader title (ch_mbc_type CartridgeHeader_default)
      (ch_rom_size CartridgeHeader_default) (ch_ram_size CartridgeHeader_default)
      (ch_destination_code CartridgeHeader_default)
      (ch_new_licensee_code CartridgeHeader_default)
      (ch_mask_rom_version CartridgeHeader_default) in
  let* _ := CartridgeHeader_validate header in
  Ok header.

(** ** Checksums *)

Definition header_checksum_bytes (bytes : list Z) : Z :=
  foldl (fun x byte => wrap U8 (wrap U8 (x - byte) - 1)) 0 bytes.
Definition header_checksum {E} (rom : list Z) : outcome E Z :=
  let* bytes := slice rom 0x0134 (0x014C + 1) in
  Ok (header_checksum_bytes bytes).

(** The loop over [rom.iter().enumerate()]. *)
Fixpoint global_sum (idx sum : Z) (bytes : list Z) : Z :=
  match bytes with
  | [] => sum
  | byte :: bytes' =>
      global_sum (idx + 1)
        (if (idx =? 0x014E) || (idx =? 0x014F) then sum else wrap U16 (sum + byte)) bytes'
  end.
Definition global_checksum (rom : list Z) : Z := global_sum 0 0 rom.

(** ** The header section *)

Definition overlaps_header (start end_exclusive : Z) : bool :=
  (start <? HEADER_END_EXCLUSIVE) && (HEADER_START <? end_exclusive).

Definition header_placement : PlacedSection :=
  MkPlacedSection HEADER_SECTION_ID Space_Rom0 (Bank_Rom 0) (wrap U16 HEADER_START)
    (wrap U16 (HEADER_END_EXCLUSIVE - HEADER_START))
    (wrap U16 (HEADER_END_EXCLUSIVE - HEADER_START)) ∅.

Definition header_fields {E} (h : CartridgeHeader) : outcome E (list Z) :=
  let* title := copy_slice (repeat 0 11) 0 (ch_title h) in
  Ok (title ++ [48; 48; 48; 48] ++ [0x00]
      ++ [(ch_new_licensee_code h).1; (ch_new_licensee_code h).2] ++ [0x00]
      ++ [MbcType_header_byte (ch_mbc_type h)] ++ [RomSize_header_byte (ch_rom_size h)]
      ++ [RamSize_header_byte (ch_ram_size h)]
      ++ [DestinationCode_header_byte (ch_destination_code h)] ++ [0x33]
      ++ [ch_mask_rom_version h]).

Definition build_header_section (h : CartridgeHeader) : outcome RomAssemblyError LegalizedSection :=
  let* _ := CartridgeHeader_validate h in
  let provenance := with_source_op (InstrProvenance_new Stage_Backend) "rom.cartridge_header" in
  let* fields := header_fields h in
  let checksum := header_checksum_bytes fields in
  let* name := match SymbolName_runtime "cartridge" "header" with Ok n => Ok n | _ => Panic end in
  Ok (MkLegalizedSection HEADER_SECTION_ID Role_HeaderCartridge name None SectionPrivilege_normal 1
        (Some (wrap U32 (HEADER_END_EXCLUSIVE - HEADER_START))) 6
        [OrderedItem_new (MkLabel (SymbolId_new 0) name) 0 provenance]
        [OrderedItem_new I_Nop 1 provenance;
         OrderedItem_new (I_JpAbs None ENTRY_POINT) 2 provenance]
        [OrderedItem_new (Db_Bytes NINTENDO_LOGO) 3 provenance;
         OrderedItem_new (Db_Bytes fields) 4 provenance;
         OrderedItem_new (Db_Bytes [checksum; 0x00; 0x00]) 5 provenance]
        []).

(** ** Copying the sections *)

Definition lift_layout {A} (m : outcome LayoutError A) : outcome RomAssemblyError A :=
  map_err Ra_Layout m.

(** The image and, per byte, the section that wrote it. *)
Record RomImage := MkRomImage { im_rom : list Z; im_occupied : list (option SectionId) }.

(** [iter().find_map(|owner| *owner)]. *)
Fixpoint first_owner (l : list (option SectionId)) : option SectionId :=
  match l with [] => None | Some id :: _ => Some id | None :: l' => first_owner l' end.

Definition copy_section (header_banks : Z) (im : RomImage) (ep : EncodedSection * PlacedSection)
    : outcome RomAssemblyError RomImage :=
  let '(encoded, placed) := ep in
  let* _ := guard_err (bool_decide (enc_id encoded = HEADER_SECTION_ID))
              (Ra_UserHeaderSectionRejected (enc_id encoded)) in
  let* _ := guard_err (negb (bool_decide (enc_id encoded = placed_id placed)))
              (Ra_SectionPlacementMismatch (enc_id encoded) (placed_id placed)) in
  let* _ := guard_err (negb (zlen (enc_bytes encoded) =? placed_final_size placed))
              (Ra_SectionSizeMismatch (enc_id encoded) (placed_final_size placed)
                 (zlen (enc_bytes encoded))) in
  let* bank :=
    match placed_bank placed with
    | Bank_Rom bank => Ok bank
    | _ => Err (Ra_NonRomSection (enc_id encoded) (placed_space placed))
    end in
  let* _ :=
    if header_banks <=? bank then
      let* max_valid_bank := usub header_banks 1 in
      Err (Ra_BankIndexOutOfRange (enc_id encoded) (placed_bank placed) max_valid_bank)
    else Ok tt in
  let* offset := lift_layout (rom_file_offset placed) in
  let* offset := ok_or offset (Ra_NonRomSection (enc_id encoded) (placed_space placed)) in
  let end_ := offset + zlen (enc_bytes encoded) in
  let* _ := guard_err (overlaps_header offset end_)
              (Ra_HeaderRangeCollision (enc_id encoded) offset end_) in
  let* owners := slice (im_occupied im) offset end_ in
  let* _ :=
    match first_owner owners with
    | Some other_id => Err (Ra_SectionCollision (enc_id encoded) other_id offset end_)
    | None => Ok tt
    end in
  let bank_end := (bank + 1) * Rom_ROM_BANK_SIZE in
  let* _ :=
    if bank_end <? end_ then
      let* bank_end_exclusive :=
        match placed_space placed with
        | Space_Rom0 => Ok ROM0_END_EXCLUSIVE
        | Space_RomX => Ok ROMX_END_EXCLUSIVE
        | _ => Panic
        end in
      Err (Ra_SectionExceedsBankBoundary (enc_id encoded) (placed_bank placed)
             (placed_cpu_start placed) (wrap U32 (zlen (enc_bytes encoded)))
             (cpu_end_exclusive placed) bank_end_exclusive)
    else Ok tt in
  let* rom := copy_slice (im_rom im) offset (enc_bytes encoded) in
  let* occupied := copy_slice (im_occupied im) offset
                     (repeat (Some (enc_id encoded)) (Z.to_nat (end_ - offset))) in
  Ok (MkRomImage rom occupied).

Definition blank_image (size : Z) : RomImage :=
  MkRomImage (repeat 0xFF (Z.to_nat size)) (repeat None (Z.to_nat size)).

(** Writing the header over the sections' image. *)
Definition write_header (h : CartridgeHeader) (rom : list Z) : outcome RomAssemblyError (list Z) :=
  let* header_section := build_header_section h in
  let* encoded_header := map_err Ra_Encode (encode_section header_section header_placement) in
  let* header_start := lift_layout (rom_file_offset header_placement) in
  let* header_start := expect header_start in
  copy_slice rom header_start (enc_bytes encoded_header).

Definition write_global_checksum (rom : list Z) : outcome RomAssemblyError (list Z) :=
  let global := global_checksum rom in
  let* rom := set_index rom 0x014E (wrap U8 (Z.shiftr global 8)) in
  set_index rom 0x014F (wrap U8 (Z.land global 0x00FF)).

Definition assemble_rom (encoded : list (EncodedSection * PlacedSection)) (layout : LayoutPlan)
    (header : CartridgeHeader) : outcome RomAssemblyError (list Z) :=
  let* _ := CartridgeHeader_validate header in
  let header_banks := RomSize_bank_count (ch_rom_size header) in
  let* _ := guard_err (header_banks <? plan_bank_count layout)
              (Ra_InvalidRomSizeForLayout (plan_bank_count layout) header_banks) in
  let* im := ofold (copy_section header_banks)
               (blank_image (RomSize_bytes (ch_rom_size header))) encoded in
  let* entry_owner := expect (im_occupied im !! Z.to_nat ENTRY_POINT) in
  let* _ := ok_or entry_owner (Ra_MissingEntryPoint ENTRY_POINT) in
  let* rom := write_header header (im_rom im) in
  write_global_checksum rom.
