(* ===== verification/RomFacts.v ===== *)
(** * Correctness of ROM assembly ([gbf-asm/src/rom.rs])

    The image contains every section at its file offset, a valid cartridge
    header with matching checksums, and 0xFF elsewhere; assembly does not
    panic. *)

From S2P Require Import Prelude Numeric Hw Isa IsaCodec Names SectionIr Effect SectionOps SymTable Lowering Layout LayoutFacts Relax RelaxFacts Encoder EncoderFacts Rom.

(** ** Owners *)

Lemma first_owner_None l k o : first_owner l = None -> l !! k = Some o -> o = None.
Proof.
  revert k. induction l as [|[id|] l IH]; intros [|k]; simpl; try done; [by intros _ [= <-] | apply IH].
Qed.

(** ** Copying the sections *)

(** A section that has been copied: it fills its range of the image. *)
Definition copied (im : RomImage) (ep : EncodedSection * PlacedSection) : Prop :=
  exists off, rom_file_offset ep.2 = Ok (Some off) /\ 0 <= off
    /\ zlen (enc_bytes ep.1) = placed_final_size ep.2
    /\ forall j b, enc_bytes ep.1 !! j = Some b ->
         im_rom im !! (Z.to_nat off + j)%nat = Some b
         /\ im_occupied im !! (Z.to_nat off + j)%nat = Some (Some (enc_id ep.1)).

Record image_inv (size : Z) (done : list (EncodedSection * PlacedSection)) (im : RomImage) : Prop := {
  ii_rom : zlen (im_rom im) = size;
  ii_occ : zlen (im_occupied im) = size;
  ii_blank : forall k, im_occupied im !! k = Some None -> im_rom im !! k = Some 0xFF;
  ii_header : forall k o, 0x0100 <= Z.of_nat k < 0x0150 -> im_occupied im !! k = Some o -> o = None;
  ii_owned : forall k id, im_occupied im !! k = Some (Some id) ->
    exists ep off, ep ∈ done /\ enc_id ep.1 = id /\ rom_file_offset ep.2 = Ok (Some off)
      /\ off <= Z.of_nat k < off + zlen (enc_bytes ep.1);
  ii_copied : forall ep, ep ∈ done -> copied im ep;
}.

Lemma blank_image_inv size : 0 <= size -> image_inv size [] (blank_image size).
Proof.
  intros Hs. unfold blank_image. constructor; simpl.
  - unfold zlen. rewrite repeat_length. lia.
  - unfold zlen. rewrite repeat_length. lia.
  - intros k [_ Hk]%lookup_repeat_Some. by apply lookup_repeat_Some.
  - intros k o _ Hk. by apply lookup_repeat_Some in Hk as [-> _].
  - intros k id Hk. by apply lookup_repeat_Some in Hk as [[=] _].
  - intros ep Hep. by apply elem_of_nil in Hep.
Qed.

(** File offsets of placements with [u16] starts: where they are. *)
Lemma rom_file_offset_range p off : 0 <= placed_cpu_start p -> rom_file_offset p = Ok (Some off) ->
  exists b, placed_bank p = Bank_Rom b /\ 0 <= b /\ b * 0x4000 <= off
    /\ off + placed_final_size p <= (b + 1) * 0x4000.
Proof.
  intros Hc H. unfold rom_file_offset, cpu_end_exclusive, ROM0_END_EXCLUSIVE, ROMX_START,
    ROMX_END_EXCLUSIVE, ROM_BANK_SIZE in H.
  destruct (placed_space p) eqn:Hsp, (placed_bank p) as [b|s| | | |] eqn:Hb; try done;
    destruct b as [|b|b]; try done;
    try (destruct (1 <=? Z.pos b) eqn:H1; [|done]); inv_ok;
    rewrite ?negb_false_iff, ?andb_true_iff in *; eexists; (split; [done|]); lia.
Qed.

Lemma copy_section_inv size banks done im ep im' : size = banks * 0x4000 ->
  0 <= placed_cpu_start ep.2 -> image_inv size done im ->
  copy_section banks im ep = Ok im' -> image_inv size (ep :: done) im'.
Proof.
  intros Hsize Hc [Hrom Hocc Hblank Hheader Howned Hcopied] H. destruct ep as [e p]. simpl in Hc.
  unfold copy_section in H.
  repeat match type of H with
  | obind (guard_err _ _) _ = Ok _ => let G := fresh "G" in
      apply obind_Ok in H as (? & G & H); apply guard_err_Ok in G as [G _]
  | obind _ _ = Ok _ => let G := fresh "G" in apply obind_Ok in H as (? & G & H)
  end.
  injection H as <-.
  match goal with G : lift_layout _ = Ok ?o |- _ =>
    apply map_err_Ok in G; rename G into Hoff end.
  match goal with G : ok_or _ _ = Ok ?o |- _ => apply ok_or_Ok in G; subst; rename o into off end.
  match goal with G : negb (_ =? _) = false |- _ => apply negb_false_iff, Z.eqb_eq in G; rename G into Hlen end.
  destruct (rom_file_offset_range p off Hc Hoff) as (b & Hb & Hb0 & Hlo & Hhi).
  assert (Hoff0 : 0 <= off) by lia.
  match goal with G : slice _ _ _ = Ok _ |- _ => apply slice_Ok in G as (Hr & Hol & Howners); [|lia] end.
  match goal with G : overlaps_header _ _ = false |- _ => rename G into Hover end.
  match goal with G : copy_slice (im_rom im) _ _ = Ok ?l |- _ =>
    rename l into rom'; apply copy_slice_Ok in G as (HRl & HRb & HR); [|lia] end.
  match goal with G : copy_slice (im_occupied im) _ _ = Ok ?l |- _ =>
    rename l into occ'; apply copy_slice_Ok in G as (HOl & HOb & HO); [|lia] end.
  match goal with G : match first_owner ?l with _ => _ end = Ok _ |- _ =>
    destruct (first_owner l) eqn:Hfirst; [done|]; clear G end.
  set (len := zlen (enc_bytes e)) in *. pose proof (zlen_nonneg (enc_bytes e)) as Hlen0. fold len in Hlen0.
  assert (Hrep : zlen (repeat (Some (enc_id e)) (Z.to_nat (off + len - off))) = len).
  { unfold zlen. rewrite repeat_length. lia. }
  rewrite Hrep in HO, HOb.
  assert (Hfree : forall k, off <= Z.of_nat k < off + len -> im_occupied im !! k = Some None).
  { intros k Hk. specialize (Howners (k - Z.to_nat off)%nat ltac:(lia)).
    replace (Z.to_nat off + (k - Z.to_nat off))%nat with k in Howners by lia.
    destruct (im_occupied im !! k) as [o|] eqn:Ho.
    - f_equal. eapply first_owner_None; [exact Hfirst | exact Howners].
    - apply lookup_ge_None in Ho. unfold zlen in Hr. lia. }
  assert (HOin : forall k, off <= Z.of_nat k < off + len -> occ' !! k = Some (Some (enc_id e))).
  { intros k Hk. rewrite HO, decide_True by lia. apply lookup_repeat_Some. split; [done|lia]. }
  assert (HOout : forall k, ~ (off <= Z.of_nat k < off + len) -> occ' !! k = im_occupied im !! k)
    by (intros k Hk; by rewrite HO, decide_False by lia).
  assert (HRout : forall k, ~ (off <= Z.of_nat k < off + len) -> rom' !! k = im_rom im !! k)
    by (intros k Hk; by rewrite HR, decide_False by lia).
  assert (Hin : forall k, {off <= Z.of_nat k < off + len} + {~ (off <= Z.of_nat k < off + len)})
    by (intros; apply decide; apply _).
  constructor; simpl.
  - unfold zlen in *. lia.
  - unfold zlen in *. lia.
  - intros k Hk. destruct (Hin k) as [H|H]; [by rewrite HOin in Hk|].
    rewrite HOout in Hk by done. rewrite HRout by done. by apply Hblank.
  - intros k o Hk Ho. destruct (Hin k) as [H|H].
    + unfold overlaps_header, HEADER_START, HEADER_END_EXCLUSIVE in Hover.
      apply andb_false_iff in Hover as [?|?]; lia.
    + rewrite HOout in Ho by done. by eapply Hheader.
  - intros k id Hk. destruct (Hin k) as [H|H].
    + rewrite HOin in Hk by done. injection Hk as <-. exists (e, p), off.
      refine (conj _ (conj eq_refl (conj Hoff H))). by left.
    + rewrite HOout in Hk by done. destruct (Howned k id Hk) as (ep & off' & ? & ?).
      exists ep, off'. split; [by right | done].
  - intros ep [->|Hep]%elem_of_cons.
    + exists off. split_and!; [done | done | done|]. simpl. intros j b' Hj.
      apply lookup_lt_Some in Hj as Hjlt. assert (off <= Z.of_nat (Z.to_nat off + j) < off + len)
        by (unfold len, zlen; lia). split; [|by apply HOin].
      rewrite HR, decide_True by lia. rewrite <- Hj. f_equal. lia.
    + destruct (Hcopied ep Hep) as (off' & Ho' & Hoff'0 & Hl' & Hj'). exists off'.
      split_and!; [done | done | done|]. intros j b' Hj. destruct (Hj' j b' Hj) as [Hrj Hoj].
      assert (~ (off <= Z.of_nat (Z.to_nat off' + j) < off + len))
        by (intros Hk; by rewrite Hfree in Hoj).
      simpl. rewrite HRout, HOout by done. done.
Qed.

Lemma copy_sections_inv size banks : size = banks * 0x4000 -> forall eps done im im',
  Forall (fun ep => 0 <= placed_cpu_start ep.2) eps -> image_inv size done im ->
  ofold (copy_section banks) im eps = Ok im' -> image_inv size (rev eps ++ done) im'.
Proof.
  intros Hsize. induction eps as [|ep eps IH]; intros done im im' Hc Hinv H; cbn [ofold] in H.
  - by injection H as <-.
  - apply Forall_cons in Hc as [Hc Hcs]. inv_ok. simpl. rewrite <- app_assoc. simpl.
    eapply IH; [done | | done]. by eapply copy_section_inv.
Qed.

(** ** The header *)

Definition header_title (h : CartridgeHeader) : list Z :=
  ch_title h ++ repeat 0 (11 - length (ch_title h)).

Definition fields_of (h : CartridgeHeader) : list Z :=
  header_title h
  ++ [48; 48; 48; 48; 0; (ch_new_licensee_code h).1; (ch_new_licensee_code h).2; 0;
      MbcType_header_byte (ch_mbc_type h); RomSize_header_byte (ch_rom_size h);
      RamSize_header_byte (ch_ram_size h); DestinationCode_header_byte (ch_destination_code h);
      0x33; ch_mask_rom_version h].

(** The 80 bytes at 0x0100: an entry jump, the logo, the fields and the header
    checksum; the global checksum is still zero. *)
Definition header_bytes (h : CartridgeHeader) : list Z :=
  [0x00; 0xC3; 0x50; 0x01] ++ NINTENDO_LOGO ++ fields_of h
  ++ [header_checksum_bytes (fields_of h); 0; 0].

Definition valid_header (h : CartridgeHeader) : Prop :=
  (length (ch_title h) <= 11)%nat /\ Forall (fun b => b < 128 /\ b <> 0) (ch_title h)
  /\ is_ascii_alphanumeric (ch_new_licensee_code h).1 = true
  /\ is_ascii_alphanumeric (ch_new_licensee_code h).2 = true.

Lemma validate_iff h : CartridgeHeader_validate h = Ok tt <-> valid_header h.
Proof.
  unfold CartridgeHeader_validate, valid_header. split.
  - intros H. inv_ok. apply guard_err_Ok in H as [H _].
    rewrite negb_false_iff in *. split_and!.
    + match goal with G : (11 <? _) = false |- _ => apply Z.ltb_ge in G; unfold zlen in G end. lia.
    + apply Forall_forall. intros b Hb.
      match goal with G : forallb _ _ = true |- _ => rewrite forallb_forall in G;
        specialize (G b (proj1 (list_elem_of_In _ _) Hb)) end.
      split; [lia|]. intros ->.
      match goal with G : existsb _ _ = false |- _ => rewrite <- not_true_iff_false, existsb_exists in G;
        apply G end. exists 0. split; [by apply list_elem_of_In | done].
    + by apply andb_true_iff in H as [? _].
    + by apply andb_true_iff in H as [_ ?].
  - intros (Hl & Hb & H1 & H2). rewrite Forall_forall in Hb.
    rewrite (proj2 (Z.ltb_ge 11 (zlen (ch_title h)))) by (unfold zlen; lia). cbn [guard_err obind].
    assert (forallb (fun b => b <? 128) (ch_title h) = true) as ->.
    { apply forallb_forall. intros b Hin%list_elem_of_In. destruct (Hb b Hin). lia. }
    assert (existsb (fun b => b =? 0) (ch_title h) = false) as ->.
    { apply not_true_iff_false. rewrite existsb_exists. intros (b & Hin%list_elem_of_In & Hz).
      destruct (Hb b Hin). lia. }
    simpl. by rewrite H1, H2.
Qed.

Lemma length_fields h : (length (ch_title h) <= 11)%nat -> length (fields_of h) = 25%nat.
Proof.
  intros Hl. unfold fields_of, header_title. rewrite !length_app, repeat_length. simpl. lia.
Qed.

Lemma header_fields_Ok {E} h : (length (ch_title h) <= 11)%nat ->
  @header_fields E h = Ok (fields_of h).
Proof.
  intros Hl. unfold header_fields, copy_slice.
  rewrite (proj2 (Z.leb_le _ _)) by (unfold zlen; rewrite repeat_length; lia). cbn [obind].
  unfold fields_of, header_title. simpl take. rewrite Nat.add_0_l.
  assert (drop (length (ch_title h)) (repeat 0 11) = repeat 0 (11 - length (ch_title h))) as ->.
  { destruct (length (ch_title h)) as [|n]; [done|]. do 11 (destruct n as [|n]; [done|]). lia. }
  rewrite <- !app_assoc. done.
Qed.

(** The header section, for any fields. *)
Definition header_section (name : SymbolName) (fields : list Z) (checksum : Z) : LegalizedSection :=
  let provenance := with_source_op (InstrProvenance_new Stage_Backend) "rom.cartridge_header" in
  MkLegalizedSection HEADER_SECTION_ID Role_HeaderCartridge name None SectionPrivilege_normal 1
    (Some 80) 6
    [OrderedItem_new (MkLabel (SymbolId_new 0) name) 0 provenance]
    [OrderedItem_new I_Nop 1 provenance; OrderedItem_new (I_JpAbs None ENTRY_POINT) 2 provenance]
    [OrderedItem_new (Db_Bytes NINTENDO_LOGO) 3 provenance;
     OrderedItem_new (Db_Bytes fields) 4 provenance;
     OrderedItem_new (Db_Bytes [checksum; 0; 0]) 5 provenance]
    [].

Lemma build_header_section_Ok h : valid_header h ->
  build_header_section h
  = Ok (header_section (MkSymbolName "runtime.cartridge.header") (fields_of h)
          (header_checksum_bytes (fields_of h))).
Proof.
  intros Hv. unfold build_header_section. rewrite (proj2 (validate_iff h) Hv). cbn [obind].
  rewrite header_fields_Ok by apply Hv. cbn [obind].
  change (SymbolName_runtime "cartridge" "header")
    with (Ok (E := SymbolNameError) (MkSymbolName "runtime.cartridge.header")).
  done.
Qed.

Lemma encode_header name fields checksum : length fields = 25%nat ->
  exists enc, encode_section (header_section name fields checksum) header_placement = Ok enc
    /\ enc_bytes enc = [0x00; 0xC3; 0x50; 0x01] ++ NINTENDO_LOGO ++ fields ++ [checksum; 0; 0].
Proof.
  intros Hl. do 25 (destruct fields as [|? fields]; [discriminate|]).
  destruct fields as [|? fields]; [|discriminate]. eexists. split; reflexivity.
Qed.

Lemma write_header_Ok h rom rom' : valid_header h -> write_header h rom = Ok rom' ->
  length rom' = length rom /\ 0x0150 <= zlen rom
  /\ forall k, rom' !! k = if decide (0x0100 <= Z.of_nat k < 0x0150)
                           then header_bytes h !! (k - 0x100)%nat else rom !! k.
Proof.
  intros Hv H. unfold write_header in H. rewrite build_header_section_Ok in H by done.
  cbn [obind] in H.
  destruct (encode_header (MkSymbolName "runtime.cartridge.header") (fields_of h)
    (header_checksum_bytes (fields_of h)) (length_fields h (proj1 Hv))) as (enc & Henc & Hbytes).
  rewrite Henc in H. cbn [map_err obind] in H.
  change (lift_layout (rom_file_offset header_placement)) with (Ok (E := RomAssemblyError) (Some 0x100)) in H.
  cbn [obind expect] in H. apply copy_slice_Ok in H as (Hlen & Hb & Hk); [|lia].
  fold (header_bytes h) in Hbytes. rewrite Hbytes in Hk, Hb.
  assert (Hhl : zlen (header_bytes h) = 80).
  { unfold header_bytes, zlen. rewrite !length_app, (length_fields h (proj1 Hv)). done. }
  rewrite Hhl in Hk, Hb. split; [done|]. split; [lia|]. exact Hk.
Qed.

(** ** The global checksum *)

Lemma global_sum_app l1 : forall idx sum l2,
  global_sum idx sum (l1 ++ l2) = global_sum (idx + zlen l1) (global_sum idx sum l1) l2.
Proof.
  induction l1 as [|b l1 IH]; intros idx sum l2; simpl.
  - by rewrite Z.add_0_r.
  - rewrite IH, zlen_cons. f_equal. lia.
Qed.

Lemma global_sum_plain l : forall idx sum, 0 <= sum < 65536 ->
  (forall k, (k < length l)%nat -> idx + Z.of_nat k <> 0x14E /\ idx + Z.of_nat k <> 0x14F) ->
  global_sum idx sum l = wrap U16 (sum + zsum l).
Proof.
  induction l as [|b l IH]; intros idx sum Hs Hk; simpl.
  - unfold wrap. rewrite Z.add_0_r, Z.mod_small by lia. done.
  - destruct (Hk 0%nat ltac:(simpl; lia)) as [H1 H2].
    rewrite (proj2 (Z.eqb_neq idx 0x14E)), (proj2 (Z.eqb_neq idx 0x14F)) by lia. simpl. rewrite IH.
    + unfold wrap. rewrite Zplus_mod_idemp_l. f_equal. lia.
    + unfold wrap. by apply Z.mod_pos_bound.
    + intros k Hkl. specialize (Hk (S k) ltac:(simpl; lia)). lia.
Qed.

(** The sum of all the bytes but the two of the checksum. *)
Lemma global_checksum_sum rom : 0x150 <= zlen rom ->
  global_checksum rom = (zsum (take 0x14E rom) + zsum (drop 0x150 rom)) mod 65536.
Proof.
  intros Hlen. unfold zlen in Hlen. assert (Htake : length (take 0x14E rom) = 0x14E%nat) by (rewrite length_take; lia).
  destruct (lookup_lt_is_Some_2 rom 0x14E) as [hi Hhi]; [lia|].
  destruct (lookup_lt_is_Some_2 rom 0x14F) as [lo Hlo]; [lia|].
  unfold global_checksum. rewrite <- (take_drop 0x14E rom) at 1.
  rewrite (drop_S _ _ _ Hhi), (drop_S _ _ _ Hlo), global_sum_app, (global_sum_plain (take 0x14E rom)).
  - replace (0 + zlen (take 0x14E rom)) with 0x14E by (unfold zlen; lia). cbn [global_sum]. simpl (0x14E =? _).
    change (0x14E + 1 =? 0x14E) with false. change (0x14E + 1 =? 0x14F) with true. cbn [orb].
    rewrite global_sum_plain.
    + unfold wrap. rewrite Z.add_0_l. apply Zplus_mod_idemp_l.
    + unfold wrap. by apply Z.mod_pos_bound.
    + intros k _. lia.
  - lia.
  - intros k Hk. lia.
Qed.

(** The header checksum of the boot check: bytes, checksum and 25 sum to zero. *)
Lemma header_checksum_sum bytes :
  header_checksum_bytes bytes = (- zsum bytes - zlen bytes) mod 256.
Proof.
  assert (H : forall x, foldl (fun x byte => wrap U8 (wrap U8 (x - byte) - 1)) (x mod 256) bytes
                        = (x - zsum bytes - zlen bytes) mod 256).
  { induction bytes as [|b bytes IH]; intros x; cbn [foldl zsum].
    - unfold zlen. cbn [length]. f_equal. lia.
    - rewrite zlen_cons. unfold wrap in *.
      rewrite (Zminus_mod_idemp_l x b), (Zminus_mod_idemp_l (x - b) 1), IH. f_equal. lia. }
  exact (H 0).
Qed.

Lemma global_sum_range l : forall idx sum, 0 <= sum < 65536 -> 0 <= global_sum idx sum l < 65536.
Proof.
  induction l as [|b l IH]; intros idx sum Hs; simpl; [done|]. apply IH.
  destruct (_ || _); [done|]. unfold wrap. by apply Z.mod_pos_bound.
Qed.

(** The two checksum bytes do not count. *)
Lemma global_checksum_ignores rom k v : (k = 0x14E \/ k = 0x14F)%nat ->
  global_checksum (<[k := v]> rom) = global_checksum rom.
Proof.
  intros Hk. destruct (rom !! k) as [b|] eqn:Hb.
  - rewrite <- (take_drop_middle rom k b Hb) at 2. rewrite insert_take_drop by by eapply lookup_lt_Some.
    unfold global_checksum. rewrite !global_sum_app. simpl.
    assert (zlen (take k rom) = Z.of_nat k) as ->.
    { unfold zlen. rewrite length_take. apply lookup_lt_Some in Hb. lia. }
    destruct Hk as [->| ->]; done.
  - rewrite list_insert_ge; [done|]. by apply lookup_ge_None in Hb.
Qed.

Lemma write_global_checksum_Ok rom rom' : write_global_checksum rom = Ok rom' ->
  length rom' = length rom /\ 0x014F < zlen rom
  /\ (forall k, k <> 0x14E%nat -> k <> 0x14F%nat -> rom' !! k = rom !! k)
  /\ global_checksum rom' = global_checksum rom
  /\ exists hi lo, rom' !! 0x14E%nat = Some hi /\ rom' !! 0x14F%nat = Some lo
     /\ 0 <= hi < 256 /\ 0 <= lo < 256 /\ hi * 256 + lo = global_checksum rom'.
Proof.
  unfold write_global_checksum. intros H. apply obind_Ok in H as (rom1 & H1 & H).
  apply set_index_Ok in H1 as [-> Hl1]; [|lia]. apply set_index_Ok in H as [-> Hl]; [|lia].
  change (Z.to_nat 0x14E) with 0x14E%nat in *. change (Z.to_nat 0x14F) with 0x14F%nat in *.
  unfold zlen in *. rewrite length_insert in Hl.
  rewrite !length_insert, !global_checksum_ignores by auto. split_and!; [done | lia | | done |].
  - intros k H1 H2. by rewrite !list_lookup_insert_ne by congruence.
  - pose proof (global_sum_range rom 0 0 ltac:(lia)) as Hr. fold (global_checksum rom) in Hr.
    exists (wrap U8 (Z.shiftr (global_checksum rom) 8)), (wrap U8 (Z.land (global_checksum rom) 0xFF)).
    split_and!.
    + rewrite list_lookup_insert_ne by congruence. rewrite list_lookup_insert_eq; [done | lia].
    + rewrite list_lookup_insert_eq; [done|]. rewrite length_insert. lia.
    + unfold wrap. by apply Z.mod_pos_bound.
    + unfold wrap. by apply Z.mod_pos_bound.
    + unfold wrap. by apply Z.mod_pos_bound.
    + unfold wrap. by apply Z.mod_pos_bound.
    + rewrite Z.shiftr_div_pow2 by lia. change 0xFF with (Z.ones 8). rewrite Z.land_ones by lia.
      change (2 ^ 8) with 256. unfold wrap. rewrite Zmod_mod.
      rewrite (Z.mod_small (_ / 256)) by (split; [apply Z.div_pos; lia | apply Z.div_lt_upper_bound; lia]).
      pose proof (Z.div_mod (global_checksum rom) 256 ltac:(lia)). lia.
Qed.

(** ** The assembled image *)

Definition starts_unsigned (encoded : list (EncodedSection * PlacedSection)) : Prop :=
  Forall (fun ep => 0 <= placed_cpu_start ep.2) encoded.

Record assembled (encoded : list (EncodedSection * PlacedSection)) (h : CartridgeHeader)
    (rom : list Z) (im : RomImage) : Prop := {
  as_valid : valid_header h;
  as_image : image_inv (RomSize_bytes (ch_rom_size h)) (rev encoded ++ []) im;
  as_entry : exists id, im_occupied im !! 0x150%nat = Some (Some id);
  as_length : zlen rom = RomSize_bytes (ch_rom_size h);
  as_header : forall k, (0x100 <= k < 0x14E)%nat -> rom !! k = header_bytes h !! (k - 0x100)%nat;
  as_rest : forall k, ~ (0x100 <= k < 0x150)%nat -> rom !! k = im_rom im !! k;
  as_global : exists hi lo, rom !! 0x14E%nat = Some hi /\ rom !! 0x14F%nat = Some lo
    /\ 0 <= hi < 256 /\ 0 <= lo < 256 /\ hi * 256 + lo = global_checksum rom;
}.

Lemma assemble_rom_inv encoded layout h rom : starts_unsigned encoded ->
  assemble_rom encoded layout h = Ok rom ->
  plan_bank_count layout <= RomSize_bank_count (ch_rom_size h)
  /\ exists im, assembled encoded h rom im.
Proof.
  intros Hst H. unfold assemble_rom in H. apply obind_Ok in H as ([] & Hv%validate_iff & H).
  apply obind_Ok in H as (u & Hb & H). apply guard_err_Ok in Hb as [Hb%Z.ltb_ge _]. split; [done|].
  apply obind_Ok in H as (im & Him & H). apply obind_Ok in H as (owner & Howner%expect_Ok & H).
  apply obind_Ok in H as (id & Hid%ok_or_Ok & H). apply obind_Ok in H as (rom1 & Hhead & H).
  subst owner. change (Z.to_nat ENTRY_POINT) with 0x150%nat in Howner.
  assert (Hsize : 0 <= RomSize_bytes (ch_rom_size h)) by (pose proof (RomSize_bytes_pos (ch_rom_size h)); lia).
  assert (Hbanks : RomSize_bytes (ch_rom_size h) = RomSize_bank_count (ch_rom_size h) * 0x4000)
    by (unfold RomSize_bytes; lia).
  pose proof (copy_sections_inv _ _ Hbanks _ _ _ _ Hst (blank_image_inv _ Hsize) Him) as Hinv.
  destruct (write_header_Ok _ _ _ Hv Hhead) as (Hl1 & Hlen1 & Hk1).
  destruct (write_global_checksum_Ok _ _ H) as (Hl2 & Hlen2 & Hk2 & _ & Hglobal).
  exists im. constructor; try done.
  - by exists id.
  - unfold zlen. rewrite Hl2, Hl1. apply (ii_rom _ _ _ Hinv).
  - intros k Hk. rewrite Hk2, Hk1 by lia. by rewrite decide_True by lia.
  - intros k Hk. rewrite Hk2, Hk1 by lia. by rewrite decide_False by lia.
Qed.

Lemma assembled_header_checksum encoded h rom im : assembled encoded h rom im ->
  @header_checksum RomAssemblyError rom = Ok (header_checksum_bytes (fields_of h))
  /\ rom !! 0x14D%nat = Some (header_checksum_bytes (fields_of h)).
Proof.
  intros [Hv _ _ Hlen Hhead _ _].
  pose proof (length_fields h (proj1 Hv)) as Hf.
  assert (Hpre : length ([0x00; 0xC3; 0x50; 0x01] ++ NINTENDO_LOGO) = 52%nat) by reflexivity.
  assert (Hfield : forall j, (j < 25)%nat -> header_bytes h !! (52 + j)%nat = fields_of h !! j).
  { intros j Hj. unfold header_bytes. rewrite (app_assoc _ NINTENDO_LOGO).
    rewrite lookup_app_r by (rewrite Hpre; lia). rewrite Hpre, lookup_app_l by lia. f_equal. lia. }
  assert (Hbig : 0x14D < zlen rom) by (rewrite Hlen; destruct (ch_rom_size h); reflexivity).
  split.
  - unfold header_checksum, slice. rewrite (proj2 (Z.leb_le _ _)) by lia.
    rewrite (proj2 (Z.leb_le _ _)) by lia. cbn [andb obind]. do 2 f_equal.
    apply list_eq. intros j. change (Z.to_nat (0x14C + 1 - 0x134)) with 25%nat.
    change (Z.to_nat 0x134) with 308%nat.
    destruct (decide (j < 25)%nat) as [Hj|Hj].
    + rewrite lookup_take_lt, lookup_drop by lia. rewrite Hhead by lia.
      replace (308 + j - 256)%nat with (52 + j)%nat by lia. by apply Hfield.
    + rewrite lookup_take_ge by lia. symmetry. apply lookup_ge_None. lia.
  - rewrite Hhead by lia. unfold header_bytes. rewrite (app_assoc _ NINTENDO_LOGO), (app_assoc _ (fields_of h)).
    rewrite lookup_app_r; rewrite length_app, Hpre, Hf; done || lia.
Qed.

(** The image of [assemble_rom] has the size the header declares and a
    valid cartridge header: entry jump to 0x0150, logo and fields at 0x0100,
    a header checksum byte that passes the boot check (with the bytes from
    0x0134 to 0x014C and 25 it sums to zero), and a big-endian global checksum
    word that is the sum of all the other bytes of the image. *)
Theorem rom_header_valid encoded layout h rom :
  starts_unsigned encoded -> assemble_rom encoded layout h = Ok rom ->
  zlen rom = RomSize_bytes (ch_rom_size h)
  /\ (forall k, (k < 0x4E)%nat -> rom !! (0x100 + k)%nat = header_bytes h !! k)
  /\ (exists c, rom !! 0x14D%nat = Some c /\ 0 <= c < 256
      /\ (zsum (take 25 (drop 0x134 rom)) + c + 25) mod 256 = 0)
  /\ exists hi lo, rom !! 0x14E%nat = Some hi /\ rom !! 0x14F%nat = Some lo
     /\ 0 <= hi < 256 /\ 0 <= lo < 256
     /\ hi * 256 + lo = (zsum (take 0x14E rom) + zsum (drop 0x150 rom)) mod 65536.
Proof.
  intros Hst H. destruct (assemble_rom_inv _ _ _ _ Hst H) as (_ & im & Has).
  destruct (assembled_header_checksum _ _ _ _ Has) as [Hck Hbyte]. split_and!.
  - apply (as_length _ _ _ _ Has).
  - intros k Hk. rewrite (as_header _ _ _ _ Has) by lia. f_equal. lia.
  - exists (header_checksum_bytes (fields_of h)). split; [done|].
    rewrite header_checksum_sum. split; [by apply Z.mod_pos_bound|].
    unfold header_checksum, slice in Hck. rewrite header_checksum_sum in Hck. apply obind_Ok in Hck as (bs & Hbs & [= Hck]).
    destruct (_ && _); [|done]. injection Hbs as <-.
    change (Z.to_nat (0x14C + 1 - 0x134)) with 25%nat in Hck. change (Z.to_nat 0x134) with 0x134%nat in Hck.
    rewrite <- Hck, header_checksum_sum.
    assert (zlen (take 25 (drop 0x134 rom)) = 25) as ->.
    { unfold zlen. rewrite length_take, length_drop. pose proof (as_length _ _ _ _ Has) as Hl.
      unfold zlen in Hl. assert (32768 <= RomSize_bytes (ch_rom_size h)) by (destruct (ch_rom_size h); done). lia. }
    rewrite <- Z.add_assoc, Z.add_comm, <- Z.add_assoc, Zplus_mod_idemp_l. 
    replace (_ + _) with 0 by lia. done.
  - destruct (as_global _ _ _ _ Has) as (hi & lo & H1 & H2 & H3 & H4 & H5). exists hi, lo.
    rewrite <- global_checksum_sum; [done|]. rewrite (as_length _ _ _ _ Has). by destruct (ch_rom_size h).
Qed.

(** C6: Every section handed to [assemble_rom] is in the image: its bytes are
    at the file offset of its placement, neither overwritten by another
    section nor by the header; a byte that belongs to no section and not to
    the header is 0xFF; and some section covers the entry point 0x0150. *)
Theorem rom_contains_sections encoded layout h rom :
  starts_unsigned encoded -> assemble_rom encoded layout h = Ok rom ->
  (forall e p, In (e, p) encoded -> exists off, rom_file_offset p = Ok (Some off) /\ 0 <= off
     /\ forall j b, enc_bytes e !! j = Some b -> rom !! (Z.to_nat off + j)%nat = Some b)
  /\ (forall k, (k < length rom)%nat -> ~ (0x100 <= k < 0x150)%nat ->
      (forall e p off, In (e, p) encoded -> rom_file_offset p = Ok (Some off) ->
         ~ (off <= Z.of_nat k < off + zlen (enc_bytes e))) ->
      rom !! k = Some 0xFF)
  /\ exists e p off, In (e, p) encoded /\ rom_file_offset p = Ok (Some off)
     /\ off <= ENTRY_POINT < off + zlen (enc_bytes e).
Proof.
  intros Hst H. destruct (assemble_rom_inv _ _ _ _ Hst H) as (_ & im & Has).
  pose proof (as_image _ _ _ _ Has) as Hinv.
  assert (Hmem : forall ep, ep ∈ rev encoded ++ [] <-> In ep encoded).
  { intros ep. by rewrite app_nil_r, list_elem_of_In, <- in_rev. }
  split_and!.
  - intros e p Hep. destruct (ii_copied _ _ _ Hinv (e, p) (proj2 (Hmem _) Hep))
      as (off & Hoff & Hoff0 & _ & Hj). exists off. split_and!; [done | done|]. intros j b Hb.
    destruct (Hj j b Hb) as [Hr Ho]. rewrite (as_rest _ _ _ _ Has); [done|]. intros Hk.
    pose proof (ii_header _ _ _ Hinv (Z.to_nat off + j)%nat _ ltac:(lia) Ho). done.
  - intros k Hk Hnh Hfree. rewrite (as_rest _ _ _ _ Has) by done. apply (ii_blank _ _ _ Hinv).
    destruct (im_occupied im !! k) as [[id|]|] eqn:Ho; [|done|].
    + destruct (ii_owned _ _ _ Hinv k id Ho) as ([e p] & off & Hep & _ & Hoff & Hr).
      destruct (Hfree e p off (proj1 (Hmem _) Hep) Hoff Hr).
    + apply lookup_ge_None in Ho. pose proof (ii_occ _ _ _ Hinv) as Hl.
      pose proof (as_length _ _ _ _ Has). unfold zlen in *. lia.
  - destruct (as_entry _ _ _ _ Has) as [id Hid].
    destruct (ii_owned _ _ _ Hinv _ id Hid) as ([e p] & off & Hep & _ & Hoff & Hr).
    exists e, p, off. split_and!; [by apply Hmem | done | |]; unfold ENTRY_POINT; simpl in Hr; lia.
Qed.

(** ** Assembly never faults *)

(** The failures the code treats as impossible: panics, a section that leaves
    its bank although its file offset was accepted, a header that does not
    encode. *)
Definition is_assembly_fault (f : failure RomAssemblyError) : Prop :=
  match f with
  | F_panic | F_no_fuel => True
  | F_err (Ra_SectionExceedsBankBoundary _ _ _ _ _ _) | F_err (Ra_Encode _) => True
  | F_err _ => False
  end.

Lemma copy_section_no_fault size banks done im ep : size = banks * 0x4000 -> 1 <= banks ->
  0 <= placed_cpu_start ep.2 -> image_inv size done im ->
  avoids is_assembly_fault (copy_section banks im ep).
Proof.
  intros Hsize Hbanks Hc Hinv. destruct ep as [e p]. simpl in Hc. unfold copy_section.
  apply avoids_bind; [avoid|]. intros _ _. apply avoids_bind; [avoid|]. intros _ _.
  apply avoids_bind; [avoid|]. intros u3 Hlen. apply guard_err_Ok in Hlen as [Hlen%negb_false_iff%Z.eqb_eq _].
  apply avoids_bind; [destruct (placed_bank p); by simpl; try tauto|]. intros bank Hbank.
  apply avoids_bind.
  { destruct (banks <=? bank); [|done]. unfold usub. rewrite (proj2 (Z.leb_le _ _)) by done.
    simpl; tauto. }
  intros u4 Hlt. apply avoids_bind; [unfold lift_layout|].
  { destruct (rom_file_offset p) as [| | |] eqn:Hr; simpl; try tauto; exfalso; revert Hr;
      unfold rom_file_offset, guard_err; repeat case_match; done. }
  intros off Hoff%map_err_Ok. apply avoids_bind; [avoid|]. intros off' ->%ok_or_Ok.
  destruct (rom_file_offset_range p off' Hc Hoff) as (b & Hb & Hb0 & Hlo & Hhi).
  rewrite Hb in Hbank. injection Hbank as <-.
  destruct (Z.leb_spec banks b); [by destruct (usub banks 1)|].
  pose proof (ii_rom _ _ _ Hinv) as Hrom. pose proof (ii_occ _ _ _ Hinv) as Hocc.
  pose proof (zlen_nonneg (enc_bytes e)).
  apply avoids_bind; [avoid|]. intros _ _.
  destruct (@slice_total RomAssemblyError _ (im_occupied im) off' (off' + zlen (enc_bytes e)) ltac:(nia))
    as [owners ->]. cbn [obind].
  apply avoids_bind; [by destruct (first_owner owners); simpl; tauto|]. intros _ _.
  unfold Rom_ROM_BANK_SIZE, ROM_BANK_SIZE.
  rewrite (proj2 (Z.ltb_ge _ _)) by nia. cbn [obind].
  destruct (@copy_slice_total RomAssemblyError _ (im_rom im) off' (enc_bytes e) ltac:(nia)) as [rom' ->].
  cbn [obind].
  destruct (@copy_slice_total RomAssemblyError _ (im_occupied im) off'
    (repeat (Some (enc_id e)) (Z.to_nat (off' + zlen (enc_bytes e) - off')))) as [occ' ->]; [|done].
  unfold zlen at 1. rewrite repeat_length, Z2Nat.id by lia. nia.
Qed.

Lemma copy_sections_no_fault size banks : size = banks * 0x4000 -> 1 <= banks -> forall eps done im,
  Forall (fun ep => 0 <= placed_cpu_start ep.2) eps -> image_inv size done im ->
  avoids is_assembly_fault (ofold (copy_section banks) im eps).
Proof.
  intros Hsize Hbanks. induction eps as [|ep eps IH]; intros dn im Hc Hinv; [done|].
  apply Forall_cons in Hc as [Hc Hcs]. cbn [ofold].
  apply avoids_bind; [by eapply copy_section_no_fault|]. intros im' Him'.
  eapply IH; [done|]. by eapply copy_section_inv.
Qed.

Lemma assemble_rom_no_fault_lemma encoded layout h : starts_unsigned encoded ->
  avoids is_assembly_fault (assemble_rom encoded layout h).
Proof.
  intros Hst. unfold assemble_rom. apply avoids_bind; [unfold CartridgeHeader_validate; avoid|].
    intros [] Hv%validate_iff. apply avoids_bind; [avoid|]. intros _ _.
    pose proof (RomSize_bytes_pos (ch_rom_size h)) as Hpos.
    assert (Hsize : RomSize_bytes (ch_rom_size h) = RomSize_bank_count (ch_rom_size h) * 0x4000)
      by (unfold RomSize_bytes; lia).
    assert (Hinit : image_inv (RomSize_bytes (ch_rom_size h)) [] (blank_image (RomSize_bytes (ch_rom_size h))))
      by (apply blank_image_inv; lia).
    assert (Hbig : 0x150 < RomSize_bytes (ch_rom_size h)) by (destruct (ch_rom_size h); reflexivity).
    apply avoids_bind; [by eapply copy_sections_no_fault; [| |exact Hst|]; [|lia|]|].
    intros im Him. pose proof (copy_sections_inv _ _ Hsize _ _ _ _ Hst Hinit Him) as Hinv.
    pose proof (ii_rom _ _ _ Hinv) as Hrom. pose proof (ii_occ _ _ _ Hinv) as Hocc.
    destruct (im_occupied im !! Z.to_nat ENTRY_POINT) as [o|] eqn:Ho.
    2: { apply lookup_ge_None in Ho. change (Z.to_nat ENTRY_POINT) with 336%nat in Ho. unfold zlen in Hocc. lia. }
    cbn [expect obind]. apply avoids_bind; [avoid|]. intros _ _.
    unfold write_header. rewrite build_header_section_Ok by done. cbn [obind].
    destruct (encode_header (MkSymbolName "runtime.cartridge.header") (fields_of h)
      (header_checksum_bytes (fields_of h)) (length_fields h (proj1 Hv))) as (enc & Henc & Hbytes).
    rewrite Henc. cbn [map_err obind].
    change (lift_layout (rom_file_offset header_placement)) with (Ok (E := RomAssemblyError) (Some 0x100)).
    cbn [obind expect].
    assert (Hhl : zlen (enc_bytes enc) = 80).
    { rewrite Hbytes. unfold zlen. rewrite !length_app, (length_fields h (proj1 Hv)). done. }
    destruct (@copy_slice_total RomAssemblyError _ (im_rom im) 0x100 (enc_bytes enc) ltac:(lia))
      as [rom1 Hrom1]. rewrite Hrom1. cbn [obind].
    apply copy_slice_Ok in Hrom1 as (Hl1 & _ & _); [|lia].
    unfold write_global_checksum, set_index. rewrite (proj2 (Z.ltb_lt _ _)) by (unfold zlen in *; lia).
    cbn [obind]. rewrite (proj2 (Z.ltb_lt _ _)); [done|]. unfold zlen in *. rewrite length_insert. lia.
Qed.

(** Assembling a ROM never panics, whatever the sections: no index is out
    of range, the header always encodes, and a section whose file offset is
    accepted never leaves its bank, so [SectionExceedsBankBoundary] is not
    reported. *)
Theorem assemble_rom_no_fault encoded layout h : starts_unsigned encoded ->
  match assemble_rom encoded layout h with
  | Ok _ => True
  | Err (Ra_SectionExceedsBankBoundary _ _ _ _ _ _) | Err (Ra_Encode _) | Panic | NoFuel => False
  | Err _ => True
  end.
Proof.
  intros Hst. pose proof (assemble_rom_no_fault_lemma encoded layout h Hst) as Ha.
  destruct (assemble_rom encoded layout h) as [|e| |]; simpl in Ha; try done; [destruct e|..]; try done; by apply Ha.
Qed.

(** ** When assembly succeeds *)

(** What one section must satisfy. *)
Definition section_fits (banks : Z) (ep : EncodedSection * PlacedSection) : Prop :=
  enc_id ep.1 <> HEADER_SECTION_ID /\ enc_id ep.1 = placed_id ep.2
  /\ zlen (enc_bytes ep.1) = placed_final_size ep.2 /\ 0 <= placed_cpu_start ep.2
  /\ exists b off, placed_bank ep.2 = Bank_Rom b /\ b < banks
       /\ rom_file_offset ep.2 = Ok (Some off)
       /\ overlaps_header off (off + zlen (enc_bytes ep.1)) = false.

(** Two sections with disjoint byte ranges in the file. *)
Definition disjoint_files (ep ep' : EncodedSection * PlacedSection) : Prop :=
  forall off off', rom_file_offset ep.2 = Ok (Some off) -> rom_file_offset ep'.2 = Ok (Some off') ->
  disjoint_ranges (off, off + zlen (enc_bytes ep.1)) (off', off' + zlen (enc_bytes ep'.1)).

Lemma first_owner_all_None l : (forall k o, l !! k = Some o -> o = None) -> first_owner l = None.
Proof.
  induction l as [|[id|] l IH]; intros H; [done | by specialize (H 0%nat _ eq_refl)|].
  apply IH. intros k o Hk. by apply (H (S k)).
Qed.

Lemma copy_section_total size banks dn im ep : size = banks * 0x4000 ->
  section_fits banks ep -> image_inv size dn im -> Forall (fun ep' => disjoint_files ep' ep) dn ->
  exists im', copy_section banks im ep = Ok im'.
Proof.
  intros Hsize (Hid & Hpid & Hlen & Hc & b & off & Hb & Hlt & Hoff & Hhead) Hinv Hdis.
  destruct ep as [e p]. simpl in *. unfold copy_section.
  rewrite (bool_decide_eq_false_2 _ Hid), (bool_decide_eq_true_2 _ Hpid), (proj2 (Z.eqb_eq _ _) Hlen).
  cbn [negb guard_err obind]. rewrite Hb. cbn [obind].
  rewrite (proj2 (Z.leb_gt banks b) Hlt). cbn [obind]. rewrite Hoff.
  cbn [lift_layout map_err ok_or obind]. rewrite Hhead. cbn [guard_err obind].
  destruct (rom_file_offset_range p off Hc Hoff) as (b' & Hb' & Hb0 & Hlo & Hhi).
  rewrite Hb in Hb'. injection Hb' as <-.
  pose proof (ii_rom _ _ _ Hinv) as Hrom. pose proof (ii_occ _ _ _ Hinv) as Hocc.
  pose proof (zlen_nonneg (enc_bytes e)).
  destruct (@slice_total RomAssemblyError _ (im_occupied im) off (off + zlen (enc_bytes e)) ltac:(nia))
    as [owners Howners]. rewrite Howners. cbn [obind]. apply slice_Ok in Howners as (_ & Hol & Hok); [|lia].
  rewrite first_owner_all_None.
  2: { intros k o Ho. apply lookup_lt_Some in Ho as Hkl. rewrite Hok in Ho by (unfold zlen in *; lia).
       destruct o as [id|]; [|done]. exfalso.
       destruct (ii_owned _ _ _ Hinv _ _ Ho) as (ep' & off' & Hep' & _ & Hoff' & Hr).
       rewrite Forall_forall in Hdis. specialize (Hdis ep' Hep' off' off Hoff' Hoff).
       unfold disjoint_ranges, zlen in *. simpl in *. lia. }
  cbn [obind]. unfold Rom_ROM_BANK_SIZE, ROM_BANK_SIZE.
  rewrite (proj2 (Z.ltb_ge _ _)) by nia. cbn [obind].
  destruct (@copy_slice_total RomAssemblyError _ (im_rom im) off (enc_bytes e) ltac:(nia)) as [rom' ->].
  cbn [obind].
  destruct (@copy_slice_total RomAssemblyError _ (im_occupied im) off
    (repeat (Some (enc_id e)) (Z.to_nat (off + zlen (enc_bytes e) - off)))) as [occ' ->].
  { unfold zlen at 1. rewrite repeat_length, Z2Nat.id by lia. nia. }
  cbn [obind]. by eexists.
Qed.

Lemma copy_sections_total size banks : size = banks * 0x4000 -> forall eps dn im,
  Forall (section_fits banks) eps -> ForallOrdPairs disjoint_files eps ->
  Forall (fun ep' => Forall (disjoint_files ep') eps) dn -> image_inv size dn im ->
  exists im', ofold (copy_section banks) im eps = Ok im'.
Proof.
  intros Hsize. induction eps as [|ep eps IH]; intros dn im Hfit Hpairs Hdn Hinv; [by eexists|].
  apply Forall_cons in Hfit as [Hfit Hfits]. inversion_clear Hpairs as [|? ? Hep Hrest].
  cbn [ofold]. destruct (copy_section_total size banks dn im ep Hsize Hfit Hinv) as [im1 Him1].
  { eapply Forall_impl; [exact Hdn|]. intros ep' H'. by apply Forall_cons in H' as [? _]. }
  rewrite Him1. cbn [obind]. apply (IH (ep :: dn)); [done | done | |].
  - constructor; [by apply List.Forall_forall in Hep || exact Hep|].
    eapply Forall_impl; [exact Hdn|]. intros ep' H'. by apply Forall_cons in H' as [_ ?].
  - eapply copy_section_inv; [done | apply Hfit | done | done].
Qed.

Lemma assemble_rom_total encoded layout h e p off :
  valid_header h -> plan_bank_count layout <= RomSize_bank_count (ch_rom_size h) ->
  Forall (section_fits (RomSize_bank_count (ch_rom_size h))) encoded ->
  ForallOrdPairs disjoint_files encoded ->
  In (e, p) encoded -> rom_file_offset p = Ok (Some off) ->
  off <= ENTRY_POINT < off + zlen (enc_bytes e) ->
  exists rom, assemble_rom encoded layout h = Ok rom.
Proof.
  intros Hv Hbanks Hfit Hpairs Hin Hoff Hentry.
  assert (Hst : starts_unsigned encoded)
    by (eapply Forall_impl; [exact Hfit|]; intros ep (_ & _ & _ & ? & _); done).
  pose proof (assemble_rom_no_fault_lemma encoded layout h Hst) as Hnf.
  destruct (assemble_rom encoded layout h) as [rom|err| |] eqn:H; [eauto | exfalso
    | exfalso; by apply Hnf | exfalso; by apply Hnf].
  assert (Hsize : RomSize_bytes (ch_rom_size h) = RomSize_bank_count (ch_rom_size h) * 0x4000)
    by (unfold RomSize_bytes; lia).
  pose proof (RomSize_bytes_pos (ch_rom_size h)) as Hpos.
  assert (Hinit : image_inv (RomSize_bytes (ch_rom_size h)) [] (blank_image (RomSize_bytes (ch_rom_size h))))
    by (apply blank_image_inv; lia).
  destruct (copy_sections_total _ _ Hsize encoded [] _ Hfit Hpairs (List.Forall_nil _) Hinit) as [im Him].
  pose proof (copy_sections_inv _ _ Hsize _ _ _ _ Hst Hinit Him) as Hinv.
  unfold assemble_rom in H. rewrite (proj2 (validate_iff h) Hv) in H. cbn [obind] in H.
  rewrite (proj2 (Z.ltb_ge _ _) Hbanks) in H. cbn [guard_err obind] in H. rewrite Him in H.
  cbn [obind] in H.
  assert (Hep : (e, p) ∈ rev encoded ++ []) by by rewrite app_nil_r, list_elem_of_In, <- in_rev.
  destruct (ii_copied _ _ _ Hinv _ Hep) as (off' & Hoff' & Hoff0 & _ & Hj). simpl in Hoff', Hj.
  rewrite Hoff in Hoff'. injection Hoff' as <-.
  assert (exists bt, enc_bytes e !! Z.to_nat (ENTRY_POINT - off) = Some bt) as [bt Hbt].
  { apply lookup_lt_is_Some_2. unfold zlen in Hentry. lia. }
  destruct (Hj _ _ Hbt) as [_ Ho].
  replace (Z.to_nat off + Z.to_nat (ENTRY_POINT - off))%nat with (Z.to_nat ENTRY_POINT) in Ho
    by (unfold ENTRY_POINT in *; lia).
  rewrite Ho in H. cbn [expect ok_or obind] in H.
  unfold write_header in H. rewrite build_header_section_Ok in H by done. cbn [obind] in H.
  destruct (encode_header (MkSymbolName "runtime.cartridge.header") (fields_of h)
    (header_checksum_bytes (fields_of h)) (length_fields h (proj1 Hv))) as (enc & Henc & _).
  rewrite Henc in H. cbn [map_err obind] in H.
  change (lift_layout (rom_file_offset header_placement)) with (Ok (E := RomAssemblyError) (Some 0x100)) in H.
  cbn [obind expect] in H. unfold copy_slice, write_global_checksum, set_index in H.
  repeat (case_match; cbn [obind] in H; try done).
Qed.

(** Assembly succeeds whenever the inputs are consistent: a valid header
    with enough banks, encoded sections that match their ROM placements, keep
    clear of the cartridge header and of each other, and one of them covering
    the entry point. *)
Theorem assemble_rom_succeeds encoded layout h e p off :
  valid_header h -> plan_bank_count layout <= RomSize_bank_count (ch_rom_size h) ->
  Forall (section_fits (RomSize_bank_count (ch_rom_size h))) encoded ->
  ForallOrdPairs disjoint_files encoded ->
  In (e, p) encoded -> rom_file_offset p = Ok (Some off) ->
  off <= ENTRY_POINT < off + zlen (enc_bytes e) ->
  exists rom, assemble_rom encoded layout h = Ok rom.
Proof. apply assemble_rom_total. Qed.

(** ** Witnesses *)

Definition romdemo_plan : LayoutPlan := MkLayoutPlan [edemo_placed] 2 ∅ [].
Definition romdemo_encoded : list (EncodedSection * PlacedSection) := [(edemo_encoded, edemo_placed)].

Lemma romdemo_fits : Forall (section_fits 2) romdemo_encoded.
Proof.
  repeat constructor; simpl; try discriminate. exists 0, 0x150. repeat split.
Qed.

Lemma romdemo_header_valid : valid_header CartridgeHeader_default.
Proof. apply validate_iff. reflexivity. Qed.

Lemma romdemo_assembles : exists rom,
  assemble_rom romdemo_encoded romdemo_plan CartridgeHeader_default = Ok rom.
Proof.
  eapply (assemble_rom_total _ _ _ edemo_encoded edemo_placed 0x150).
  - exact romdemo_header_valid.
  - done.
  - exact romdemo_fits.
  - repeat constructor.
  - by left.
  - reflexivity.
  - unfold ENTRY_POINT, zlen. simpl. lia.
Qed.

Lemma romdemo_starts : starts_unsigned romdemo_encoded.
Proof. repeat constructor; simpl; lia. Qed.

Lemma rom_header_valid_witness : exists rom,
  assemble_rom romdemo_encoded romdemo_plan CartridgeHeader_default = Ok rom /\ zlen rom = 32768
  /\ exists c, rom !! 0x14D%nat = Some c /\ 0 <= c < 256
     /\ (zsum (take 25 (drop 0x134 rom)) + c + 25) mod 256 = 0.
Proof.
  destruct romdemo_assembles as [rom H]. exists rom.
  destruct (rom_header_valid romdemo_encoded romdemo_plan CartridgeHeader_default rom romdemo_starts H)
    as (Hl & _ & Hc & _).
  split; [exact H|]. split; [exact Hl | exact Hc].
Defined.

Lemma rom_contains_sections_witness : exists rom,
  assemble_rom romdemo_encoded romdemo_plan CartridgeHeader_default = Ok rom /\ rom !! 0x150%nat = Some 0xC3.
Proof.
  destruct romdemo_assembles as [rom H]. exists rom. split; [exact H|].
  destruct (rom_contains_sections romdemo_encoded romdemo_plan CartridgeHeader_default rom romdemo_starts H)
    as (Hs & _ & _).
  destruct (Hs edemo_encoded edemo_placed (or_introl eq_refl)) as (off & Hoff & _ & Hb).
  injection Hoff as <-. exact (Hb 0%nat 0xC3 eq_refl).
Defined.

Lemma assemble_rom_no_fault_witness :
  match assemble_rom romdemo_encoded romdemo_plan CartridgeHeader_default with
  | Ok _ => True
  | Err (Ra_SectionExceedsBankBoundary _ _ _ _ _ _) | Err (Ra_Encode _) | Panic | NoFuel => False
  | Err _ => True
  end.
Proof.
  apply (assemble_rom_no_fault romdemo_encoded romdemo_plan CartridgeHeader_default romdemo_starts).
Defined.

Lemma assemble_rom_succeeds_witness : exists rom,
  assemble_rom romdemo_encoded romdemo_plan CartridgeHeader_default = Ok rom.
Proof.
  eapply (assemble_rom_succeeds romdemo_encoded romdemo_plan CartridgeHeader_default
           edemo_encoded edemo_placed 0x150).
  - exact romdemo_header_valid.
  - discriminate.
  - exact romdemo_fits.
  - repeat constructor.
  - left. reflexivity.
  - reflexivity.
  - split; [discriminate | reflexivity].
Defined.
