(* ===== verification/KernelSpec.v ===== *)
(** * Ternary matvec kernels: shapes, packings, reference
      ([gbf-kernel/src/spec.rs], [gbf-kernel/src/ref_impl.rs])

    Weights in {-1, 0, +1}, their two packings (two bits per weight; a base-81
    dispatch stream), the deterministic fixtures, and the exact matrix-vector
    product the generated kernels are compared with. *)

From S2P Require Import Prelude Numeric.

(** ** Shapes *)

Inductive TernaryKernelError :=
| Tk_InvalidFanIn (fan_in : Z)
| Tk_InvalidRows (rows : Z)
| Tk_InvalidZeroPermille (zero_permille : Z)
| Tk_WeightCountMismatch (expected actual : Z)
| Tk_NonTernaryWeight (value : Z).

#[export] Instance TernaryKernelError_eq_dec : EqDecision TernaryKernelError.
Proof. solve_decision. Defined.

Record TernaryMatvecShape := MkShape { fan_in : Z; rows : Z }.

Definition MAX_FAN_IN : Z := 128.
Definition MAX_ROWS : Z := 128.

Definition Shape_new (fan_in rows : Z) : outcome TernaryKernelError TernaryMatvecShape :=
  let* _ := guard_err ((fan_in =? 0) || negb (fan_in mod 4 =? 0) || (MAX_FAN_IN <? fan_in))
              (Tk_InvalidFanIn fan_in) in
  let* _ := guard_err ((rows =? 0) || (MAX_ROWS <? rows)) (Tk_InvalidRows rows) in
  Ok (MkShape fan_in rows).

(** [self.fan_in as u32 * self.rows as u32]. *)
Definition mac_count (s : TernaryMatvecShape) : Z := fan_in s * rows s.

(** ** Weights *)

Record TernaryWeights := MkWeights { tw_shape : TernaryMatvecShape; tw_values : list Z }.

(** [matches!(value, -1..=1)]. *)
Definition is_ternary (w : Z) : bool := (-1 <=? w) && (w <=? 1).

Definition Weights_new (shape : TernaryMatvecShape) (values : list Z)
    : outcome TernaryKernelError TernaryWeights :=
  let* _ := guard_err (negb (zlen values =? mac_count shape))
              (Tk_WeightCountMismatch (mac_count shape) (zlen values)) in
  match find (fun v => negb (is_ternary v)) values with
  | Some bad => Err (Tk_NonTernaryWeight bad)
  | None => Ok (MkWeights shape values)
  end.

(** ** Deterministic fixtures *)

(** [SplitMix64::next_u64]: the new state and the draw. *)
Definition SplitMix64_next (state : Z) : Z * Z :=
  let state := wrap U64 (state + 0x9E3779B97F4A7C15) in
  let z := state in
  let z := wrap U64 (Z.lxor z (Z.shiftr z 30) * 0xBF58476D1CE4E5B9) in
  let z := wrap U64 (Z.lxor z (Z.shiftr z 27) * 0x94D049BB133111EB) in
  (state, Z.lxor z (Z.shiftr z 31)).

Fixpoint splitmix_draws (n : nat) (state : Z) : list Z :=
  match n with
  | O => []
  | S n' => let '(state, draw) := SplitMix64_next state in draw :: splitmix_draws n' state
  end.

Definition weight_of_draw (zero_permille draw : Z) : Z :=
  if draw mod 1000 <? zero_permille then 0
  else if Z.land draw (Z.shiftl 1 32) =? 0 then 1
  else -1.

Definition Weights_deterministic (shape : TernaryMatvecShape) (seed zero_permille : Z)
    : outcome TernaryKernelError TernaryWeights :=
  let* _ := guard_err (1000 <? zero_permille) (Tk_InvalidZeroPermille zero_permille) in
  Weights_new shape
    (map (weight_of_draw zero_permille) (splitmix_draws (Z.to_nat (mac_count shape)) seed)).

Definition deterministic_activations (len seed : Z) : list Z :=
  map (fun draw => Z.land draw 0xFF) (splitmix_draws (Z.to_nat len) seed).

(** ** Rows *)

Definition weights_row {E} (w : TernaryWeights) (row : Z) : outcome E (list Z) :=
  let start := row * fan_in (tw_shape w) in
  slice (tw_values w) start (start + fan_in (tw_shape w)).

Definition nonzero_count (w : TernaryWeights) : Z :=
  zlen (List.filter (fun v => negb (v =? 0)) (tw_values w)).

Definition row_zero_point_bias {E} (w : TernaryWeights) (row : Z) : outcome E Z :=
  let* values := weights_row w row in
  let* sum := isum I32 0 values in
  let* bias := ichk I32 (-128 * sum) in
  expect (try_from_i I16 bias).

(** ** Packings *)

Definition TRIT_ZERO : Z := 0.
Definition TRIT_PLUS : Z := 1.
Definition TRIT_MINUS : Z := 2.
Definition BASE81_ROW_END : Z := 81.
Definition BASE81_MATRIX_END : Z := 82.
Definition BASE81_SYMBOL_COUNT : Z := 83.

Definition trit_of (weight : Z) : Z :=
  if weight =? 1 then TRIT_PLUS else if weight =? -1 then TRIT_MINUS else TRIT_ZERO.

(** [chunks_exact(4)]: a shorter rest is left out. *)
Fixpoint chunks4 {A} (l : list A) : list (list A) :=
  match l with
  | a :: b :: c :: d :: l' => [a; b; c; d] :: chunks4 l'
  | _ => []
  end.

(** [byte |= trit_of(weight) << (2 * position)] over one chunk. *)
Fixpoint pack_byte (position byte : Z) (chunk : list Z) : Z :=
  match chunk with
  | [] => byte
  | weight :: chunk' =>
      pack_byte (position + 1)
        (Z.lor byte (wrap U8 (Z.shiftl (trit_of weight) (2 * position)))) chunk'
  end.

Definition pack_ternary2 (w : TernaryWeights) : list Z :=
  map (pack_byte 0 0) (chunks4 (tw_values w)).

(** The [u8] fold [acc * 3 + trit_of(weight)] from the last weight on. *)
Definition base81_fold {E} (chunk : list Z) : outcome E Z :=
  ofold (fun acc weight => let* m := umul U8 acc 3 in uadd U8 m (trit_of weight)) 0 (rev chunk).

Definition base81_index {E} `{BuildProfile} (chunk : list Z) : outcome E Z :=
  let* _ := debug_assert (zlen chunk =? 4) in base81_fold chunk.

Definition trit_weight (t : Z) : Z :=
  if t =? TRIT_PLUS then 1 else if t =? TRIT_MINUS then -1 else 0.

(** The loop over the four slots. *)
Fixpoint base81_slots (n : nat) (rest : Z) : list Z :=
  match n with O => [] | S n' => trit_weight (rest mod 3) :: base81_slots n' (rest / 3) end.

Definition base81_pattern {E} `{BuildProfile} (index : Z) : outcome E (list Z) :=
  let* _ := debug_assert (index <=? 80) in Ok (base81_slots 4 index).

(** One row of the dispatch stream. *)
Definition base81_row {E} (w : TernaryWeights) (row : Z) : outcome E (list Z) :=
  let rows := rows (tw_shape w) in
  let* bias := row_zero_point_bias w row in
  let* values := weights_row w row in
  let* indices := omapM base81_fold (chunks4 values) in
  let* next := uadd U16 row 1 in
  Ok (le_bytes16 (wrap U16 bias) ++ indices
      ++ [if next =? rows then BASE81_MATRIX_END else BASE81_ROW_END]).

Definition base81_stream {E} (w : TernaryWeights) : outcome E (list Z) :=
  let* parts := omapM (base81_row w) (zrange (rows (tw_shape w))) in
  Ok (concat parts).

(** ** The reference product *)

Inductive RefKernelError :=
| Rk_ActivationCountMismatch (expected actual : Z)
| Rk_OutputOutOfI16Range (value : Z)
| Rk_Kernel (e : TernaryKernelError).

Definition ACTIVATION_ZERO_POINT : Z := 128.

Definition ternary_matvec_i32 (w : TernaryWeights) (activations : list Z)
    : outcome RefKernelError (list Z) :=
  let shape := tw_shape w in
  let* _ := guard_err (negb (zlen activations =? fan_in shape))
              (Rk_ActivationCountMismatch (fan_in shape) (zlen activations)) in
  omapM (fun row =>
           let* values := weights_row w row in
           let* products := omapM (fun wu => ichk I32 (wu.1 * (wu.2 - ACTIVATION_ZERO_POINT)))
                              (zip values activations) in
           isum I32 0 products)
    (zrange (rows shape)).

Definition expected_output_bytes_le (w : TernaryWeights) (activations : list Z)
    : outcome RefKernelError (list Z) :=
  let* outputs := ternary_matvec_i32 w activations in
  let* parts := omapM (fun value =>
                         let* value := ok_or (try_from_i I16 value) (Rk_OutputOutOfI16Range value) in
                         Ok (le_bytes16 (wrap U16 value))) outputs in
  Ok (concat parts).
