(* ===== verification/KernelSpecFacts.v ===== *)
(** * Correctness of the ternary kernel substrate

    Validated weights are ternary; both packings can be read back; the row
    bias makes raw-byte accumulation exact; the reference never leaves i16. *)

From S2P Require Import Prelude Numeric KernelSpec.

(** ** Validated values *)

Definition ternary (w : Z) : Prop := -1 <= w <= 1.

Lemma is_ternary_iff w : is_ternary w = true <-> ternary w.
Proof. unfold is_ternary, ternary. lia. Qed.

Lemma ternary_cases w : ternary w -> w = -1 \/ w = 0 \/ w = 1.
Proof. unfold ternary. lia. Qed.

Record shape_ok (s : TernaryMatvecShape) : Prop := {
  so_fan_in : 0 < fan_in s <= MAX_FAN_IN;
  so_mult : fan_in s mod 4 = 0;
  so_rows : 0 < rows s <= MAX_ROWS;
}.

Record weights_ok (w : TernaryWeights) : Prop := {
  wo_shape : shape_ok (tw_shape w);
  wo_len : zlen (tw_values w) = mac_count (tw_shape w);
  wo_ternary : Forall ternary (tw_values w);
}.

Lemma Shape_new_iff fi r s : 0 <= fi -> 0 <= r ->
  Shape_new fi r = Ok s <-> s = MkShape fi r /\ shape_ok s.
Proof.
  intros Hf Hr. unfold Shape_new. split.
  - intros H. inv_ok. split; [done|].
    rewrite ?orb_false_iff, ?negb_false_iff in *. constructor; unfold MAX_FAN_IN, MAX_ROWS in *; simpl; lia.
  - intros [-> [[H1 H2] H3 [H4 H5]]]. simpl in *.
    rewrite (proj2 (Z.eqb_neq fi 0)) by lia. rewrite (proj2 (Z.eqb_eq _ _) H3).
    rewrite (proj2 (Z.ltb_ge _ _) H2), (proj2 (Z.eqb_neq r 0)) by lia.
    rewrite (proj2 (Z.ltb_ge _ _) H5). done.
Qed.

Lemma find_None_Forall {A} (p : A -> bool) l : find p l = None <-> Forall (fun x => p x = false) l.
Proof.
  induction l as [|x l IH]; simpl; [split; [constructor | done]|].
  rewrite Forall_cons. destruct (p x); [split; [done | by intros [? _]] | rewrite IH; tauto].
Qed.

Lemma Weights_new_iff s v w : shape_ok s ->
  Weights_new s v = Ok w <-> w = MkWeights s v /\ weights_ok w.
Proof.
  intros Hs. unfold Weights_new. split.
  - intros H. inv_ok. destruct (find _ v) eqn:Hfind; [done|]. injection H as <-.
    split; [done|]. rewrite negb_false_iff in *. constructor; simpl; [done | lia|].
    apply find_None_Forall in Hfind. eapply Forall_impl; [exact Hfind|]. intros y Hy.
    apply is_ternary_iff, negb_false_iff, Hy.
  - intros [-> [_ Hl Ht]]. simpl in *. rewrite (proj2 (Z.eqb_eq _ _) Hl). simpl.
    rewrite (proj2 (find_None_Forall _ v)); [done|]. eapply Forall_impl; [exact Ht|].
    intros x Hx. apply negb_false_iff, is_ternary_iff, Hx.
Qed.

Lemma splitmix_draws_length n s : length (splitmix_draws n s) = n.
Proof. revert s. induction n as [|n IH]; intros s; simpl; [done|]. by rewrite IH. Qed.

Lemma Weights_deterministic_ok s seed z : shape_ok s -> 0 <= z <= 1000 ->
  exists w, Weights_deterministic s seed z = Ok w /\ weights_ok w.
Proof.
  intros Hs Hz. unfold Weights_deterministic. rewrite (proj2 (Z.ltb_ge _ _)) by lia. cbn [guard_err obind].
  set (values := map _ _). assert (Hw : weights_ok (MkWeights s values)).
  2: { exists (MkWeights s values). split; [by apply Weights_new_iff | done]. }
  constructor; simpl; [done | |]; unfold values.
  - unfold zlen. rewrite length_map, splitmix_draws_length. destruct Hs as [? _ ?]. unfold mac_count. nia.
  - apply List.Forall_map, Forall_forall. intros x _. unfold weight_of_draw, ternary. by repeat case_match.
Qed.

(** ** Rows *)

(** The row as a function of the validated weights. *)
Definition row_of (w : TernaryWeights) (row : Z) : list Z :=
  take (Z.to_nat (fan_in (tw_shape w))) (drop (Z.to_nat (row * fan_in (tw_shape w))) (tw_values w)).

Lemma weights_row_total {E} w row : weights_ok w -> 0 <= row < rows (tw_shape w) ->
  @weights_row E w row = Ok (row_of w row) /\ zlen (row_of w row) = fan_in (tw_shape w)
  /\ Forall ternary (row_of w row).
Proof.
  intros [[Hf _ Hr] Hl Ht] Hrow. unfold mac_count in Hl. split_and!.
  - unfold weights_row, slice, row_of. rewrite !(proj2 (Z.leb_le _ _)) by nia. cbn [andb].
    by rewrite Z.add_simpl_l.
  - unfold row_of. unfold zlen in *. rewrite length_take, length_drop. nia.
  - unfold row_of. by apply Forall_take, Forall_drop.
Qed.

Lemma ternary_sum_bound l : Forall ternary l -> Z.abs (zsum l) <= zlen l.
Proof.
  intros Hl. pose proof (zsum_bound 1 l) as H. rewrite Z.mul_1_l in H. apply H.
  eapply Forall_impl; [exact Hl|]. unfold ternary. lia.
Qed.

Definition bias_of (w : TernaryWeights) (row : Z) : Z := -128 * zsum (row_of w row).

Lemma row_bias_total {E} w row : weights_ok w -> 0 <= row < rows (tw_shape w) ->
  @row_zero_point_bias E w row = Ok (bias_of w row) /\ Z.abs (bias_of w row) <= 16384.
Proof.
  intros Hw Hrow. destruct (@weights_row_total E w row Hw Hrow) as (Hr & Hl & Ht).
  destruct (wo_shape _ Hw) as [[_ Hf] _ _]. unfold MAX_FAN_IN in Hf.
  pose proof (ternary_sum_bound _ Ht) as Hb. unfold row_zero_point_bias. rewrite Hr. cbn [obind].
  assert (Forall (fun x => Z.abs x <= 1) (row_of w row))
    by (eapply Forall_impl; [exact Ht|]; unfold ternary; lia).
  rewrite (isum_total I32 1) by (done || unfold I32; lia). cbn [obind].
  rewrite Z.add_0_l, ichk_fits by (unfold I32; lia). cbn [obind]. fold (bias_of w row).
  assert (Hbias : Z.abs (bias_of w row) <= 16384) by (unfold bias_of; lia). split; [|done].
  unfold try_from_i. by rewrite (proj2 (fits_iff I16 (bias_of w row))) by (unfold I16; lia).
Qed.

(** ** Packings *)

Lemma trit_weight_of w : ternary w -> trit_weight (trit_of w) = w.
Proof. by intros [->|[->| ->]]%ternary_cases. Qed.

Lemma trit_of_range w : 0 <= trit_of w <= 2.
Proof. unfold trit_of, TRIT_PLUS, TRIT_MINUS, TRIT_ZERO. repeat case_match; lia. Qed.

Lemma base81_fold_Ok {E} a b c d :
  @base81_fold E [a; b; c; d]
  = Ok (trit_of a + 3 * trit_of b + 9 * trit_of c + 27 * trit_of d).
Proof.
  pose proof (trit_of_range a). pose proof (trit_of_range b). pose proof (trit_of_range c).
  pose proof (trit_of_range d). unfold base81_fold, umul, uadd. cbn [rev app ofold obind].
  repeat (rewrite (proj2 (Z.ltb_lt _ _)) by lia; cbn [obind]). f_equal. lia.
Qed.

Lemma base81_slots_index a b c d : 0 <= a <= 2 -> 0 <= b <= 2 -> 0 <= c <= 2 -> 0 <= d <= 2 ->
  base81_slots 4 (a + 3 * b + 9 * c + 27 * d) = map trit_weight [a; b; c; d].
Proof.
  intros Ha Hb Hc Hd. assert (H3 : forall x, 0 <= x <= 2 -> x = 0 \/ x = 1 \/ x = 2) by lia.
  by destruct (H3 a Ha) as [->|[->| ->]], (H3 b Hb) as [->|[->| ->]],
    (H3 c Hc) as [->|[->| ->]], (H3 d Hd) as [->|[->| ->]].
Qed.

(** Both directions of the base-81 code, at any build profile. *)
Lemma base81_code `{BuildProfile} {E} a b c d : ternary a -> ternary b -> ternary c -> ternary d ->
  exists i, @base81_index E _ [a; b; c; d] = Ok i /\ 0 <= i <= 80
    /\ @base81_pattern E _ i = Ok [a; b; c; d].
Proof.
  intros Ha Hb Hc Hd. exists (trit_of a + 3 * trit_of b + 9 * trit_of c + 27 * trit_of d).
  pose proof (trit_of_range a). pose proof (trit_of_range b). pose proof (trit_of_range c).
  pose proof (trit_of_range d). split_and!; [| lia | lia |].
  - unfold base81_index. rewrite debug_assert_true by done. apply base81_fold_Ok.
  - unfold base81_pattern. rewrite debug_assert_true by lia. cbn [obind].
    rewrite base81_slots_index by done. cbn [map]. by rewrite !trit_weight_of.
Qed.

(** The base-81 code is a bijection between four ternary weights and the
    indices 0..=80: [base81_pattern] inverts [base81_index] and the reverse. *)
Theorem base81_bijection `{BuildProfile} {E} :
  (forall a b c d, ternary a -> ternary b -> ternary c -> ternary d ->
     exists i, @base81_index E _ [a; b; c; d] = Ok i /\ 0 <= i <= 80
       /\ @base81_pattern E _ i = Ok [a; b; c; d])
  /\ (forall i, 0 <= i <= 80 -> exists p, @base81_pattern E _ i = Ok p
       /\ length p = 4%nat /\ Forall ternary p /\ @base81_index E _ p = Ok i).
Proof.
  split; [intros; by apply base81_code|]. intros i Hi. exists (base81_slots 4 i). split_and!.
  - unfold base81_pattern. by rewrite debug_assert_true by lia.
  - done.
  - repeat constructor; unfold trit_weight; repeat case_match; done.
  - unfold base81_index. rewrite debug_assert_true by done. cbn [obind base81_slots].
    rewrite base81_fold_Ok. f_equal.
    assert (Ht : forall x, 0 <= x < 3 -> trit_of (trit_weight x) = x).
    { intros x Hx. assert (x = 0 \/ x = 1 \/ x = 2) as [->|[->| ->]] by lia; done. }
    rewrite !Ht by (apply Z.mod_pos_bound; lia). rewrite !Z.div_div by lia.
    change (3 * 3) with 9. change (3 * 9) with 27. change (9 * 3) with 27.
    pose proof (Z.div_mod i 3). pose proof (Z.div_mod (i / 3) 3). pose proof (Z.div_mod (i / 9) 3).
    rewrite !Z.div_div in * by lia. change (3 * 3) with 9 in *. change (9 * 3) with 27 in *.
    assert (i / 27 < 3) by (apply Z.div_lt_upper_bound; lia).
    rewrite (Z.mod_small (i / 27)) by (split; [apply Z.div_pos; lia | done]). lia.
Qed.

(** *** Reading the packings back *)

(** Four-element chunks of a list whose length is a multiple of four. *)
Lemma chunks4_split {A} (l : list A) : zlen l mod 4 = 0 ->
  concat (chunks4 l) = l
  /\ Forall (fun c => exists x y z t, c = [x; y; z; t] /\ x ∈ l /\ y ∈ l /\ z ∈ l /\ t ∈ l) (chunks4 l).
Proof.
  intros Hl. assert (exists n, length l = (4 * n)%nat) as [n Hn].
  { exists (Z.to_nat (zlen l / 4)). unfold zlen in *. pose proof (Z.div_mod (Z.of_nat (length l)) 4). lia. }
  clear Hl. revert l Hn. induction n as [|n IH]; intros l Hn.
  - destruct l; [by split|]. simpl in Hn. lia.
  - destruct l as [|x [|y [|z [|t l]]]]; simpl in Hn; try lia.
    destruct (IH l) as [Hc Hf]; [lia|]. simpl. split; [by rewrite Hc|]. constructor.
    + exists x, y, z, t. clear IH. set_solver.
    + eapply Forall_impl; [exact Hf|]. intros c (x' & y' & z' & t' & ? & ? & ? & ? & ?).
      exists x', y', z', t'. clear IH Hf Hc. set_solver.
Qed.

(** Weight [k] of a packed byte is in bits [2k+1..=2k]. *)
Definition unpack_byte (byte : Z) : list Z :=
  map (fun k => trit_weight (Z.land (Z.shiftr byte (2 * k)) 3)) [0; 1; 2; 3].

Lemma unpack_pack_byte a b c d : ternary a -> ternary b -> ternary c -> ternary d ->
  unpack_byte (pack_byte 0 0 [a; b; c; d]) = [a; b; c; d] /\ 0 <= pack_byte 0 0 [a; b; c; d] < 256.
Proof.
  intros [->|[->| ->]]%ternary_cases [->|[->| ->]]%ternary_cases
    [->|[->| ->]]%ternary_cases [->|[->| ->]]%ternary_cases; done.
Qed.

(** A reader of the dispatch stream: the bias word, then one index per four
    weights up to a sentinel, which says whether the matrix ends. *)
Fixpoint read_indices (stream : list Z) : option (list Z * bool * list Z) :=
  match stream with
  | [] => None
  | byte :: rest =>
      if byte =? BASE81_MATRIX_END then Some ([], true, rest)
      else if byte =? BASE81_ROW_END then Some ([], false, rest)
      else '(weights, last, rest') ← read_indices rest;
           Some (base81_slots 4 byte ++ weights, last, rest')
  end.

Definition read_bias (lo hi : Z) : Z := as_signed I16 (lo + 256 * hi).

Fixpoint read_stream (fuel : nat) (stream : list Z) : option (list (Z * list Z)) :=
  match fuel, stream with
  | S fuel', lo :: hi :: rest =>
      '(weights, last, rest') ← read_indices rest;
      if (last : bool) then match rest' with [] => Some [(read_bias lo hi, weights)] | _ => None end
      else tail ← read_stream fuel' rest'; Some ((read_bias lo hi, weights) :: tail)
  | _, _ => None
  end.

Lemma read_bias_le16 b : Z.abs b <= 16384 ->
  exists lo hi, le_bytes16 (wrap U16 b) = [lo; hi] /\ read_bias lo hi = b.
Proof.
  intros Hb. do 2 eexists. split; [reflexivity|]. unfold read_bias, wrap.
  rewrite (Z.add_comm (_ mod 256)), <- Z.div_mod by lia.
  destruct (as_signed_eqm I16 (b mod 65536) ltac:(done)) as [k Hk].
  pose proof (as_signed_range I16 (b mod 65536) ltac:(done)) as Hr.
  pose proof (Z.div_mod b 65536). unfold I16 in *. simpl in *. lia.
Qed.

Definition ternary_chunk (c : list Z) : Prop :=
  exists x y z t, c = [x; y; z; t] /\ ternary x /\ ternary y /\ ternary z /\ ternary t.

Lemma ternary_chunks l : Forall ternary l -> zlen l mod 4 = 0 ->
  concat (chunks4 l) = l /\ Forall ternary_chunk (chunks4 l).
Proof.
  intros Ht Hl. destruct (chunks4_split l Hl) as [Hc Hf]. split; [done|].
  rewrite Forall_forall in Ht. eapply Forall_impl; [exact Hf|].
  intros c (x & y & z & t & -> & ? & ? & ? & ?). exists x, y, z, t. auto 10.
Qed.

Lemma read_indices_chunks {E} cs : Forall ternary_chunk cs ->
  exists indices, @omapM E _ _ base81_fold cs = Ok indices
    /\ forall last rest,
       read_indices (indices ++ (if (last : bool) then BASE81_MATRIX_END else BASE81_ROW_END) :: rest)
       = Some (concat cs, last, rest).
Proof.
  induction 1 as [|c cs (x & y & z & t & -> & Hx & Hy & Hz & Ht) _ (idx & Hidx & Hread)].
  - exists []. split; [done|]. by intros [] rest.
  - cbn [omapM]. rewrite base81_fold_Ok. cbn [obind]. rewrite Hidx. cbn [obind].
    eexists. split; [reflexivity|]. intros last rest. cbn [app read_indices].
    pose proof (trit_of_range x). pose proof (trit_of_range y). pose proof (trit_of_range z).
    pose proof (trit_of_range t). specialize (Hread last rest).
    rewrite (proj2 (Z.eqb_neq _ BASE81_MATRIX_END)) by (unfold BASE81_MATRIX_END; lia).
    rewrite (proj2 (Z.eqb_neq _ BASE81_ROW_END)) by (unfold BASE81_ROW_END; lia).
    rewrite Hread. cbn [mbind option_bind].
    rewrite base81_slots_index by done. cbn [map concat]. by rewrite !trit_weight_of.
Qed.

(** The rows the packings describe. *)
Definition rows_of (w : TernaryWeights) : list (Z * list Z) :=
  map (fun row => (bias_of w row, row_of w row)) (zrange (rows (tw_shape w))).

Lemma base81_row_total {E} w row : weights_ok w -> 0 <= row < rows (tw_shape w) ->
  exists lo hi indices,
    @base81_row E w row
    = Ok ([lo; hi] ++ indices
          ++ [if row + 1 =? rows (tw_shape w) then BASE81_MATRIX_END else BASE81_ROW_END])
    /\ read_bias lo hi = bias_of w row
    /\ forall last rest,
       read_indices (indices ++ (if (last : bool) then BASE81_MATRIX_END else BASE81_ROW_END) :: rest)
       = Some (row_of w row, last, rest).
Proof.
  intros Hw Hrow. destruct (@weights_row_total E w row Hw Hrow) as (Hr & Hl & Ht).
  destruct (@row_bias_total E w row Hw Hrow) as [Hb Hbound].
  destruct (read_bias_le16 _ Hbound) as (lo & hi & Hle & Hread).
  destruct (ternary_chunks (row_of w row) Ht) as [Hcat Hcs].
  { rewrite Hl. apply (so_mult _ (wo_shape _ Hw)). }
  destruct (@read_indices_chunks E _ Hcs) as (indices & Hidx & Hind). rewrite Hcat in Hind.
  exists lo, hi, indices. split_and!; [|done|done].
  unfold base81_row. rewrite Hb. cbn [obind]. rewrite Hr. cbn [obind]. rewrite Hidx. cbn [obind].
  destruct (so_rows _ (wo_shape _ Hw)) as [_ Hmax]. unfold MAX_ROWS in Hmax.
  unfold uadd. rewrite (proj2 (Z.ltb_lt _ _)) by lia. cbn [obind]. by rewrite Hle.
Qed.

Lemma base81_stream_from {E} w (Hw : weights_ok w) n : forall k,
  0 <= k -> k + Z.of_nat n = rows (tw_shape w) -> (0 < n)%nat ->
  exists parts, @omapM E _ _ (base81_row w) (map Z.of_nat (seq (Z.to_nat k) n)) = Ok parts
    /\ forall fuel, (n <= fuel)%nat ->
       read_stream fuel (concat parts)
       = Some (map (fun row => (bias_of w row, row_of w row)) (map Z.of_nat (seq (Z.to_nat k) n))).
Proof.
  induction n as [|n IH]; intros k Hk Hn Hpos; [lia|]. cbn [seq map omapM].
  rewrite Z2Nat.id by done.
  destruct (@base81_row_total E w k Hw ltac:(lia)) as (lo & hi & idx & Hrow & Hbias & Hread).
  rewrite Hrow. cbn [obind]. destruct n as [|n].
  - cbn [seq map omapM obind]. eexists. split; [reflexivity|]. intros [|fuel] Hf; [lia|].
    rewrite (proj2 (Z.eqb_eq _ _)) by lia. cbn [concat app read_stream]. rewrite app_nil_r.
    specialize (Hread true []). cbn [app] in Hread. rewrite Hread. cbn [mbind option_bind].
    by rewrite Hbias.
  - destruct (IH (k + 1)) as (parts & Hparts & Hrest); [lia | lia | lia |].
    rewrite Z2Nat.inj_add, Nat.add_1_r in Hparts, Hrest by lia.
    rewrite Hparts. cbn [obind]. eexists. split; [reflexivity|]. intros [|fuel] Hf; [lia|].
    rewrite (proj2 (Z.eqb_neq _ _)) by lia. cbn [concat app read_stream].
    rewrite <- app_assoc. cbn [app]. rewrite (Hread false (concat parts)). cbn [mbind option_bind]. rewrite Hrest by lia. cbn [mbind option_bind].
    by rewrite Hbias.
Qed.

Lemma base81_stream_reads {E} w : weights_ok w ->
  exists stream, @base81_stream E w = Ok stream
    /\ read_stream (Z.to_nat (rows (tw_shape w))) stream = Some (rows_of w).
Proof.
  intros Hw. destruct (so_rows _ (wo_shape _ Hw)) as [Hr _].
  destruct (@base81_stream_from E w Hw (Z.to_nat (rows (tw_shape w))) 0) as (parts & Hp & Hread);
    [lia | lia | lia |].
  change (Z.to_nat 0) with 0%nat in *. exists (concat parts). unfold base81_stream, zrange, rows_of.
  rewrite Hp. by rewrite Hread.
Qed.

Lemma pack_ternary2_reads w : weights_ok w ->
  concat (map unpack_byte (pack_ternary2 w)) = tw_values w
  /\ zlen (pack_ternary2 w) = zlen (tw_values w) / 4
  /\ Forall (fun byte => 0 <= byte < 256) (pack_ternary2 w).
Proof.
  intros Hw. assert (Hm : zlen (tw_values w) mod 4 = 0).
  { rewrite (wo_len _ Hw). unfold mac_count. rewrite Z.mul_mod, (so_mult _ (wo_shape _ Hw)) by lia. done. }
  destruct (ternary_chunks _ (wo_ternary _ Hw) Hm) as [Hc Hf]. unfold pack_ternary2.
  assert (Hlen : zlen (tw_values w) = 4 * zlen (chunks4 (tw_values w))).
  { rewrite <- Hc at 1. revert Hf. generalize (chunks4 (tw_values w)) as cs.
    induction cs as [|c cs IH]; intros Hf; [done|].
    apply Forall_cons in Hf as [(x & y & z & t & -> & _) Hf].
    cbn [concat]. rewrite zlen_app, IH by done. unfold zlen. simpl length. lia. }
  split_and!.
  - rewrite <- Hc at 2. rewrite map_map. f_equal. rewrite <- (map_id (chunks4 _)) at 2. apply map_ext_Forall.
    eapply Forall_impl; [exact Hf|]. intros c (x & y & z & t & -> & ? & ? & ? & ?).
    by apply unpack_pack_byte.
  - rewrite Hlen, Z.mul_comm, Z.div_mul by lia. unfold zlen. by rewrite length_map.
  - apply List.Forall_map. eapply Forall_impl; [exact Hf|].
    intros c (x & y & z & t & -> & ? & ? & ? & ?). by apply unpack_pack_byte.
Qed.

(** Neither packing loses a weight: reading two bits per weight from
    [pack_ternary2] gives back the matrix, and reading [base81_stream] the way
    the dispatch kernel does gives back each row with its zero-point bias and
    stops exactly at the matrix-end sentinel. *)
Theorem packings_lossless {E} w : weights_ok w ->
  concat (map unpack_byte (pack_ternary2 w)) = tw_values w
  /\ exists stream, @base81_stream E w = Ok stream
     /\ read_stream (Z.to_nat (rows (tw_shape w))) stream = Some (rows_of w).
Proof. intros Hw. split; [by apply pack_ternary2_reads | by apply base81_stream_reads]. Qed.

(** ** The reference product *)

(** The signed product of a row with zero-point-128 activations. *)
Definition dot_zp (ws us : list Z) : Z := zsum (map (fun wu => wu.1 * (wu.2 - 128)) (zip ws us)).

Definition is_byte (u : Z) : Prop := 0 <= u < 256.

Lemma dot_zp_bound ws us : Forall ternary ws -> Forall is_byte us ->
  Forall (fun x => Z.abs x <= 128) (map (fun wu => wu.1 * (wu.2 - 128)) (zip ws us)).
Proof.
  intros Hw Hu. apply List.Forall_map, Forall_forall. intros [w u] Hin.
  rewrite Forall_forall in Hw, Hu. pose proof (Hw w (elem_of_zip_l _ _ _ _ Hin)) as Hw'.
  pose proof (Hu u (elem_of_zip_r _ _ _ _ Hin)) as Hu'. unfold is_byte in Hu'. cbn [fst snd].
  destruct (ternary_cases w Hw') as [->|[->| ->]]; lia.
Qed.

(** The kernels add raw bytes to a biased seed; that is the signed product. *)
Lemma dot_zp_biased ws us : length ws = length us ->
  dot_zp ws us = -128 * zsum ws + zsum (map (fun wu => wu.1 * wu.2) (zip ws us)).
Proof.
  unfold dot_zp. revert us. induction ws as [|w ws IH]; intros [|u us] H; try done.
  injection H as H. cbn [zip zip_with map zsum fst snd] in *. rewrite IH by done. lia.
Qed.

Lemma omapM_ichk {E} M (f : Z * Z -> Z) l : Forall (fun wu => - M <= f wu < M) l ->
  @omapM E _ _ (fun wu => ichk M (f wu)) l = Ok (map f l).
Proof.
  induction 1 as [|x l Hx _ IH]; [done|]. cbn [omapM map]. rewrite ichk_fits by done. cbn [obind].
  by rewrite IH.
Qed.

Definition outputs_of (w : TernaryWeights) (activations : list Z) : list Z :=
  map (fun row => dot_zp (row_of w row) activations) (zrange (rows (tw_shape w))).

Lemma dot_zp_row_bound w act row : weights_ok w -> zlen act = fan_in (tw_shape w) ->
  Forall is_byte act -> 0 <= row < rows (tw_shape w) -> Z.abs (dot_zp (row_of w row) act) <= 16384.
Proof.
  intros Hw Hl Ha Hr. destruct (@weights_row_total unit w row Hw Hr) as (_ & Hrl & Ht).
  pose proof (zsum_bound 128 _ (dot_zp_bound _ _ Ht Ha)) as H. unfold dot_zp.
  destruct (so_fan_in _ (wo_shape _ Hw)) as [_ Hmax]. unfold MAX_FAN_IN in Hmax.
  unfold zlen in *. rewrite length_map, length_zip_with in H. lia.
Qed.

Lemma ternary_matvec_total w act : weights_ok w -> zlen act = fan_in (tw_shape w) ->
  Forall is_byte act -> ternary_matvec_i32 w act = Ok (outputs_of w act).
Proof.
  intros Hw Hl Ha. unfold ternary_matvec_i32, outputs_of. rewrite (proj2 (Z.eqb_eq _ _) Hl).
  cbn [negb guard_err obind]. apply omapM_total, Forall_forall. intros row Hrow%zrange_elem.
  destruct (@weights_row_total RefKernelError w row Hw Hrow) as (Hr & Hrl & Ht).
  pose proof (dot_zp_bound _ _ Ht Ha) as Hb. rewrite Hr. cbn [obind]. unfold ACTIVATION_ZERO_POINT.
  rewrite (omapM_ichk I32 (fun wu => wu.1 * (wu.2 - 128))).
  2: { apply (proj1 (List.Forall_map _ _ _)) in Hb. eapply Forall_impl; [exact Hb|]. simpl. unfold I32. lia. }
  cbn [obind]. rewrite (isum_total I32 128); [done | done|].
  destruct (so_fan_in _ (wo_shape _ Hw)) as [_ Hmax]. unfold MAX_FAN_IN in Hmax.
  unfold zlen in *. rewrite length_map, length_zip_with. unfold I32. lia.
Qed.

(** C34: For validated weights and an activation vector of the right length the
    reference never fails: its output is, row by row, the little-endian [i16]
    of the exact signed product, which equals the row's zero-point bias plus
    the product with the raw bytes, so a kernel that starts its accumulator at
    the bias needs no sign extension. *)
Theorem reference_exact w act : weights_ok w -> zlen act = fan_in (tw_shape w) -> Forall is_byte act ->
  expected_output_bytes_le w act
  = Ok (concat (map (fun y => le_bytes16 (wrap U16 y)) (outputs_of w act)))
  /\ forall row, 0 <= row < rows (tw_shape w) ->
       dot_zp (row_of w row) act
       = bias_of w row + zsum (map (fun wu => wu.1 * wu.2) (zip (row_of w row) act))
       /\ - 32768 <= dot_zp (row_of w row) act < 32768.
Proof.
  intros Hw Hl Ha. split.
  - unfold expected_output_bytes_le. rewrite ternary_matvec_total by done. cbn [obind].
    rewrite (omapM_total _ (fun y => le_bytes16 (wrap U16 y))); [done|].
    apply List.Forall_map, Forall_forall. intros row Hrow%zrange_elem.
    pose proof (dot_zp_row_bound w act row Hw Hl Ha Hrow). unfold try_from_i.
    by rewrite (proj2 (fits_iff I16 _)) by (unfold I16; lia).
  - intros row Hrow. pose proof (dot_zp_row_bound w act row Hw Hl Ha Hrow).
    destruct (@weights_row_total unit w row Hw Hrow) as (_ & Hrl & _).
    split; [apply dot_zp_biased; unfold zlen in *; lia | lia].
Qed.

(** ** Witnesses *)

Definition ks_demo : TernaryWeights := MkWeights (MkShape 4 2) [1; 0; -1; 1; -1; -1; 0; 0].

Lemma ks_demo_ok : weights_ok ks_demo.
Proof. by apply (Weights_new_iff (MkShape 4 2) [1; 0; -1; 1; -1; -1; 0; 0]); [split | ]. Qed.

Lemma packings_lossless_witness :
  pack_ternary2 ks_demo = [97; 10]
  /\ concat (map unpack_byte (pack_ternary2 ks_demo)) = tw_values ks_demo
  /\ exists stream, @base81_stream unit ks_demo = Ok stream
     /\ read_stream 2 stream = Some [(-128, [1; 0; -1; 1]); (256, [-1; -1; 0; 0])].
Proof. split; [reflexivity|]. exact (@packings_lossless unit ks_demo ks_demo_ok). Defined.

Lemma reference_exact_witness :
  expected_output_bytes_le ks_demo [130; 126; 200; 128] = Ok [186; 255; 0; 0].
Proof.
  refine (proj1 (reference_exact ks_demo [130; 126; 200; 128] ks_demo_ok eq_refl _)).
  repeat constructor; discriminate.
Defined.
