(* ===== verification/Float.v ===== *)
(** * Binary floating point

    The [f32] and [f64] operations that the lowering uses, on the Standard
    Library's executable model of IEEE 754 binary formats (round to nearest,
    ties to even).  What [std] leaves to the platform's mathematical library
    ([tanh], [powi], [exp2]) is a parameter of the definitions that use it. *)

From S2P Require Import Prelude Numeric.
From Stdlib Require Import SpecFloat.

Definition f32 : Type := spec_float.
Definition f64 : Type := spec_float.

(** [f64::from] of an [f32] is exact, so it is the identity on values. *)
Definition f64_of_f32 (x : f32) : f64 := x.
Definition f64_of_Z (n : Z) : f64 := binary_normalize 53 1024 n 0 false.
Definition f32_of_Z (n : Z) : f32 := binary_normalize 24 128 n 0 false.

Definition f64_mul (x y : f64) : f64 := SFmul 53 1024 x y.
Definition f64_div (x y : f64) : f64 := SFdiv 53 1024 x y.
Definition f64_add (x y : f64) : f64 := SFadd 53 1024 x y.
Definition f32_div (x y : f32) : f32 := SFdiv 24 128 x y.
Definition f32_mul (x y : f32) : f32 := SFmul 24 128 x y.
Definition f32_add (x y : f32) : f32 := SFadd 24 128 x y.
Definition f64_neg (x : f64) : f64 := SFopp x.

Definition is_nan (x : spec_float) : bool := match x with S754_nan => true | _ => false end.
Definition is_finite (x : spec_float) : bool :=
  match x with S754_nan | S754_infinity _ => false | _ => true end.

(** [f32::abs] and [f32::max] (a NaN operand is ignored). *)
Definition f32_abs (x : f32) : f32 := SFabs x.
Definition f32_max (x y : f32) : f32 :=
  if is_nan x then y else if is_nan y then x else if SFltb x y then y else x.

(** [f64::clamp] with bounds that are not NaN. *)
Definition f64_clamp (x lo hi : f64) : f64 :=
  if SFltb x lo then lo else if SFltb hi x then hi else x.

(** [v.round_ties_even() as i64]: a NaN becomes 0, the cast saturates. *)
Definition round_ties_even_div (m d : Z) : Z :=
  let q := m / d in
  let r := m mod d in
  match 2 * r ?= d with
  | Lt => q
  | Gt => q + 1
  | Eq => if Z.even q then q else q + 1
  end.

Definition saturate_i64 (n : Z) : Z := Z.max (- I64) (Z.min n (I64 - 1)).

Definition rte_i64 (v : f64) : Z :=
  match v with
  | S754_nan | S754_zero _ => 0
  | S754_infinity s => if s then - I64 else I64 - 1
  | S754_finite s m e =>
      let mag := if 0 <=? e then Zpos m * 2 ^ e else round_ties_even_div (Zpos m) (2 ^ (- e)) in
      saturate_i64 (with_sign s mag)
  end.

(** [i64::clamp]. *)
Definition i64_clamp (x lo hi : Z) : Z := Z.max lo (Z.min x hi).

Lemma i64_clamp_range x lo hi : lo <= hi -> lo <= i64_clamp x lo hi <= hi.
Proof. unfold i64_clamp. lia. Qed.

Example rte_halves :
  map rte_i64 [S754_finite false 5 (-1); S754_finite false 7 (-1); S754_finite true 5 (-1);
               S754_finite false 3 70] = [2; 4; -2; I64 - 1].
Proof. reflexivity. Qed.
