(* ===== verification/ModelRef.v ===== *)
(** * The dense integer model ([gbf-kernel/src/model_ref.rs])

    Ternary layers, the lowering of a checkpoint to integer tables, and the
    canonical integer forward pass of the one-token dense model with its range
    statistics.  The [f32] reference evaluator of the same file is not
    modelled. *)

From S2P Require Import Prelude Numeric Float KernelSpec.

Definition D_MODEL : Z := 64.
Definition D_FF : Z := 128.
Definition N_BLOCKS : Z := 4.
Definition VOCAB : Z := 256.
Definition QMAX : Z := 127.
Definition ACT_RANGE : Z := 8.
Definition RESID_FRAC_BITS : Z := 5.
Definition RESID_ONE : Z := Z.shiftl 1 RESID_FRAC_BITS.

Inductive ModelRefError :=
| Mr_ShapeMismatch (what : string) (expected actual : Z)
| Mr_NonTernaryWeight (value : Z)
| Mr_NonFiniteEmbedding.

#[export] Instance ModelRefError_eq_dec : EqDecision ModelRefError.
Proof. solve_decision. Defined.

(** ** Ternary layers *)

Record TernaryLayer := MkTernaryLayer {
  tl_rows : Z;
  tl_cols : Z;
  tl_weights : list Z;
  tl_scales_raw : list Z;
}.

Definition TernaryLayer_new (rows cols : Z) (weights scales_raw : list Z)
    : outcome ModelRefError TernaryLayer :=
  let* n := umul U64 rows cols in
  let* _ := guard_err (negb (zlen weights =? n))
              (Mr_ShapeMismatch "ternary weights" n (zlen weights)) in
  let* _ := guard_err (negb (zlen scales_raw =? rows))
              (Mr_ShapeMismatch "row scales" rows (zlen scales_raw)) in
  match find (fun w => negb (is_ternary w)) weights with
  | Some bad => Err (Mr_NonTernaryWeight bad)
  | None => Ok (MkTernaryLayer rows cols weights scales_raw)
  end.

Definition layer_row {E} (l : TernaryLayer) (row : Z) : outcome E (list Z) :=
  slice (tl_weights l) (row * tl_cols l) ((row + 1) * tl_cols l).

Definition scale_raw {E} (l : TernaryLayer) (row : Z) : outcome E Z := index (tl_scales_raw l) row.

Definition layer_row_bias {E} (l : TernaryLayer) (row : Z) : outcome E Z :=
  let* values := layer_row l row in
  let* sum := isum I32 0 values in
  ichk I32 (-128 * sum).

(** Reporting only; an empty layer divides by zero. *)
Definition zero_permille {E} (l : TernaryLayer) : outcome E Z :=
  let zeros := zlen (List.filter (fun w => w =? 0) (tl_weights l)) in
  if zlen (tl_weights l) =? 0 then Panic
  else Ok (wrap U32 (zeros * 1000 / zlen (tl_weights l))).

Record BlockWeights := MkBlockWeights { bw_up : TernaryLayer; bw_down : TernaryLayer }.

(** ** Checkpoints *)

Record DenseBigramCheckpoint := MkDenseBigramCheckpoint {
  ck_embedding : list f32;
  ck_blocks : list BlockWeights;
}.

Definition check_block (b : BlockWeights) : outcome ModelRefError unit :=
  let* _ := guard_err (negb (tl_rows (bw_up b) =? D_FF) || negb (tl_cols (bw_up b) =? D_MODEL))
              (Mr_ShapeMismatch "up projection" (D_FF * D_MODEL)
                 (tl_rows (bw_up b) * tl_cols (bw_up b))) in
  guard_err (negb (tl_rows (bw_down b) =? D_MODEL) || negb (tl_cols (bw_down b) =? D_FF))
    (Mr_ShapeMismatch "down projection" (D_MODEL * D_FF)
       (tl_rows (bw_down b) * tl_cols (bw_down b))).

Definition Checkpoint_new (embedding : list f32) (blocks : list BlockWeights)
    : outcome ModelRefError DenseBigramCheckpoint :=
  let* _ := guard_err (negb (zlen embedding =? VOCAB * D_MODEL))
              (Mr_ShapeMismatch "embedding" (VOCAB * D_MODEL) (zlen embedding)) in
  let* _ := guard_err (existsb (fun v => negb (is_finite v)) embedding) Mr_NonFiniteEmbedding in
  let* _ := guard_err (negb (zlen blocks =? N_BLOCKS))
              (Mr_ShapeMismatch "blocks" N_BLOCKS (zlen blocks)) in
  let* _ := omapM check_block blocks in
  Ok (MkDenseBigramCheckpoint embedding blocks).

Definition embedding_row {E} (ck : DenseBigramCheckpoint) (byte : Z) : outcome E (list f32) :=
  slice (ck_embedding ck) (byte * D_MODEL) (byte * D_MODEL + D_MODEL).

(** ** Lowering *)

(** The platform's [tanh] and the code generator's [powi]. *)
Class MathLib := { f64_tanh : f64 -> f64; f64_powi : f64 -> Z -> f64 }.

(** [FRAC_2_SQRT_PI * FRAC_1_SQRT_2] and [0.044715], as their [f64] values. *)
Definition SQRT_2_OVER_PI : f64 :=
  f64_mul (SpecFloat.S754_finite false 5081767996463981 (-52))
    (SpecFloat.S754_finite false 6369051672525773 (-53)).
Definition GELU_CUBIC : f64 := SpecFloat.S754_finite false 6444110634811895 (-57).
Definition ONE_HALF : f64 := SpecFloat.S754_finite false 4503599627370496 (-53).

Definition gelu_approx_f64 `{MathLib} (x : f64) : f64 :=
  let inner := f64_add x (f64_mul (f64_powi x 3) GELU_CUBIC) in
  let inner := f64_mul inner SQRT_2_OVER_PI in
  f64_mul (f64_mul x (f64_add (f64_tanh inner) (f64_of_Z 1))) ONE_HALF.

Definition gelu_entry `{MathLib} (idx : Z) : Z :=
  let p := idx - QMAX in
  let x := f64_div (f64_mul (f64_of_Z p) (f64_of_Z ACT_RANGE)) (f64_of_Z QMAX) in
  let g := f64_clamp (gelu_approx_f64 x) (f64_neg (f64_of_Z ACT_RANGE)) (f64_of_Z ACT_RANGE) in
  let q := i64_clamp (rte_i64 (f64_div (f64_mul g (f64_of_Z QMAX)) (f64_of_Z ACT_RANGE)))
             (- QMAX) QMAX in
  wrap U8 (q + 128).

Definition build_gelu_lut `{MathLib} : list Z := map gelu_entry (zrange 255).

Record LoweredLayer := MkLoweredLayer { ll_layer : TernaryLayer; ll_biases : list Z }.

Definition LoweredLayer_new {E} (l : TernaryLayer) : outcome E LoweredLayer :=
  let* biases := omapM (layer_row_bias l) (zrange (tl_rows l)) in
  Ok (MkLoweredLayer l biases).

Record IntLoweredModel := MkIntLoweredModel {
  im_emb_resid : list Z;
  im_head_i8 : list Z;
  im_head_step : f32;
  im_gelu_lut : list Z;
  im_blocks : list (LoweredLayer * LoweredLayer);
}.

Definition emb_resid_of (v : f32) : Z :=
  as_signed I16 (i64_clamp (rte_i64 (f64_mul (f64_of_f32 v) (f64_of_Z RESID_ONE))) (-32768) 32767).

Definition head_i8_of (max_abs v : f32) : Z :=
  as_signed I8
    (i64_clamp (rte_i64 (f64_div (f64_mul (f64_of_f32 v) (f64_of_Z QMAX)) (f64_of_f32 max_abs)))
       (- QMAX) QMAX).

Definition lower `{MathLib} (ck : DenseBigramCheckpoint) : outcome ModelRefError IntLoweredModel :=
  let* rows := omapM (embedding_row ck) (zrange VOCAB) in
  let values := concat rows in
  let max_abs := foldl (fun m v => f32_max m (f32_abs v)) (f32_of_Z 0) values in
  let* blocks := omapM (fun b => let* up := LoweredLayer_new (bw_up b) in
                                 let* down := LoweredLayer_new (bw_down b) in
                                 Ok (up, down)) (ck_blocks ck) in
  Ok (MkIntLoweredModel (map emb_resid_of values) (map (head_i8_of max_abs) values)
        (f32_div max_abs (f32_of_Z QMAX)) build_gelu_lut blocks).

Definition emb_resid_row {E} (m : IntLoweredModel) (byte : Z) : outcome E (list Z) :=
  slice (im_emb_resid m) (byte * D_MODEL) (byte * D_MODEL + D_MODEL).

Definition head_i8_row {E} (m : IntLoweredModel) (byte : Z) : outcome E (list Z) :=
  slice (im_head_i8 m) (byte * D_MODEL) (byte * D_MODEL + D_MODEL).

(** ** Range statistics

    The event counters are [u64] and start at zero in every forward pass; a
    pass counts at most one event per lane and block, so they are modelled
    without a bound. *)

Record IntForwardStats := MkIntForwardStats {
  max_abs_matvec_acc : Z;
  max_abs_scale_product : Z;
  max_abs_down_delta : Z;
  max_abs_residual : Z;
  max_abs_logit : Z;
  max_norm_sumsq : Z;
  min_norm_rms_raw : Z;
  down_delta_clamp_events : Z;
  residual_wrap_events : Z;
}.

Definition Stats_new : IntForwardStats := MkIntForwardStats 0 0 0 0 0 0 (U32 - 1) 0 0.

Definition Stats_merge (s o : IntForwardStats) : IntForwardStats :=
  MkIntForwardStats
    (Z.max (max_abs_matvec_acc s) (max_abs_matvec_acc o))
    (Z.max (max_abs_scale_product s) (max_abs_scale_product o))
    (Z.max (max_abs_down_delta s) (max_abs_down_delta o))
    (Z.max (max_abs_residual s) (max_abs_residual o))
    (Z.max (max_abs_logit s) (max_abs_logit o))
    (Z.max (max_norm_sumsq s) (max_norm_sumsq o))
    (Z.min (min_norm_rms_raw s) (min_norm_rms_raw o))
    (down_delta_clamp_events s + down_delta_clamp_events o)
    (residual_wrap_events s + residual_wrap_events o).

(** What one event does to the statistics, as a merge. *)
Definition stat_matvec_acc (v : Z) := MkIntForwardStats v 0 0 0 0 0 (U32 - 1) 0 0.
Definition stat_scale_product (v : Z) := MkIntForwardStats 0 v 0 0 0 0 (U32 - 1) 0 0.
Definition stat_down_delta (v clamps : Z) := MkIntForwardStats 0 0 v 0 0 0 (U32 - 1) clamps 0.
Definition stat_residual (v wraps : Z) := MkIntForwardStats 0 0 0 v 0 0 (U32 - 1) 0 wraps.
Definition stat_logit (v : Z) := MkIntForwardStats 0 0 0 0 v 0 (U32 - 1) 0 0.
Definition stat_norm_sumsq (v : Z) := MkIntForwardStats 0 0 0 0 0 v (U32 - 1) 0 0.
Definition stat_norm_rms (v : Z) := MkIntForwardStats 0 0 0 0 0 0 v 0 0.

(** ** The integer kernels *)

Definition isqrt_u32 {E} (n : Z) : outcome E Z :=
  let* root := isqrt_loop 16 n 0 (Z.shiftl 1 30) in
  expect (try_from_u U16 root).

(** The [u64] sum of squares of the lanes. *)
Definition sum_squares {E} (x : list Z) : outcome E Z :=
  ofold (fun ss v => let* sq := umul U64 (Z.abs v) (Z.abs v) in uadd U64 ss sq) 0 x.

(** One lane of the norm: [sign(v) * min(127, (|v| * 254 + d) / d2)]. *)
Definition norm_lane {E} (d d2 v : Z) : outcome E Z :=
  let* scaled := umul U64 (Z.abs v) 254 in
  let* num := uadd U64 scaled d in
  if d2 =? 0 then Panic
  else let q_abs := as_signed I16 (Z.min (num / d2) QMAX) in
       if v <? 0 then ichk I16 (- q_abs) else Ok q_abs.

Definition int_norm_quant {E} `{BuildProfile} (x : list Z) (stats : IntForwardStats)
    : outcome E (list Z * IntForwardStats) :=
  let* ss := sum_squares x in
  let stats := Stats_merge stats (stat_norm_sumsq ss) in
  let mean := Z.shiftr ss 6 in
  let* _ := debug_assert (mean <? U32 - 1) in
  let* mean1 := uadd U64 mean 1 in
  let* r := isqrt_u32 (wrap U32 mean1) in
  let stats := Stats_merge stats (stat_norm_rms r) in
  let* d := umul U32 8 r in
  let* d2 := umul U32 16 r in
  let* q := omapM (norm_lane d d2) x in
  Ok (q, stats).

(** [acc += w * u] over a row, in [i32]. *)
Definition dot_i32 {E} (init : Z) (ws us : list Z) : outcome E Z :=
  ofold (fun acc wu => let* p := ichk I32 (wu.1 * wu.2) in ichk I32 (acc + p)) init (zip ws us).

(** One output row: the [assert!] is the i16 bound. *)
Definition int_matvec_row {E} (layer : TernaryLayer) (biases act : list Z) (stats : IntForwardStats)
    (row : Z) : outcome E (Z * IntForwardStats) :=
  let* bias := index biases row in
  let* ws := layer_row layer row in
  let* acc := dot_i32 bias ws act in
  let* _ := rust_assert ((-32768 <=? acc) && (acc <=? 32767)) in
  Ok (as_signed I16 acc, Stats_merge stats (stat_matvec_acc (Z.abs acc))).

(** [out] is an output slice of [out_len] elements, all of them written. *)
Definition int_matvec {E} `{BuildProfile} (layer : TernaryLayer) (biases act : list Z) (out_len : Z)
    (stats : IntForwardStats) : outcome E (list Z * IntForwardStats) :=
  let* _ := debug_assert (zlen act =? tl_cols layer) in
  let* _ := debug_assert (out_len =? tl_rows layer) in
  omap_acc (int_matvec_row layer biases act) stats (zrange out_len).

Definition int_scale_to_grid {E} `{BuildProfile} (acc scale : Z) (stats : IntForwardStats)
    : outcome E (Z * IntForwardStats) :=
  let* m := ichk I64 (scale * acc) in
  let stats := Stats_merge stats (stat_scale_product (Z.abs m)) in
  let* _ := debug_assert (Z.abs m <? Z.shiftl 1 31) in
  let* rounded := uadd U64 (Z.abs m) 128 in
  let p_abs := as_signed I32 (Z.min (Z.shiftr rounded 8) QMAX) in
  let* p := if m <? 0 then ichk I32 (- p_abs) else Ok p_abs in
  Ok (p, stats).

Definition int_down_delta {E} `{BuildProfile} (acc scale : Z) (stats : IntForwardStats)
    : outcome E (Z * IntForwardStats) :=
  let* m := ichk I64 (scale * acc) in
  let stats := Stats_merge stats (stat_scale_product (Z.abs m)) in
  let* twice := umul U64 (Z.abs m) 2 in
  let* num := uadd U64 twice 127 in
  let* _ := debug_assert (num <? Z.shiftl 1 32) in
  let d := num / 254 in
  let d_abs := Z.min d 65535 in
  let stats := Stats_merge stats (stat_down_delta d_abs (if 65535 <? d then 1 else 0)) in
  let* r := if m <? 0 then ichk I32 (- as_signed I32 d_abs) else Ok (as_signed I32 d_abs) in
  Ok (r, stats).

(** ** The forward pass *)

(** [(q + 128) as u8]. *)
Definition act_byte {E} (q : Z) : outcome E Z :=
  let* v := ichk I16 (q + 128) in Ok (wrap U8 v).

(** The up epilogue of one row: requantize, then the GELU table. *)
Definition up_row {E} `{BuildProfile} (lut : list Z) (up : TernaryLayer) (stats : IntForwardStats)
    (row_acc : Z * Z) : outcome E (Z * IntForwardStats) :=
  let* scale := scale_raw up row_acc.1 in
  let* (p, stats) := int_scale_to_grid row_acc.2 scale stats in
  let* i := ichk I32 (p + QMAX) in
  let* v := index lut i in
  Ok (v, stats).

(** The down epilogue of one row: the wrapping residual add. *)
Definition down_row {E} `{BuildProfile} (down : TernaryLayer) (stats : IntForwardStats)
    (row : Z * (Z * Z)) : outcome E (Z * IntForwardStats) :=
  let '(i, (x, acc)) := row in
  let* scale := scale_raw down i in
  let* (d_raw, stats) := int_down_delta acc scale stats in
  let* wide := ichk I32 (x + d_raw) in
  let x' := as_signed I16 wide in
  let wraps := if negb (wide =? x') then 1 else 0 in
  Ok (x', Stats_merge stats (stat_residual (Z.abs x') wraps)).

(** Every buffer below is rewritten in full before it is read, so the model
    passes values. *)
Record BlockTrace := MkBlockTrace {
  bt_norm_act : list Z;
  bt_up_acc : list Z;
  bt_gelu_act : list Z;
  bt_down_acc : list Z;
  bt_residual : list Z;
}.

Definition ffn_block {E} `{BuildProfile} (lut : list Z) (block : LoweredLayer * LoweredLayer)
    (x : list Z) (stats : IntForwardStats) : outcome E (BlockTrace * IntForwardStats) :=
  let '(up, down) := block in
  let* (q, stats) := int_norm_quant x stats in
  let* norm_act := omapM act_byte q in
  let* (up_acc, stats) := int_matvec (ll_layer up) (ll_biases up) norm_act D_FF stats in
  let* (gelu_act, stats) := omap_acc (up_row lut (ll_layer up)) stats (enumerate up_acc) in
  let* (down_acc, stats) := int_matvec (ll_layer down) (ll_biases down) gelu_act D_MODEL stats in
  let* (x', stats) := omap_acc (down_row (ll_layer down)) stats (enumerate (zip x down_acc)) in
  Ok (MkBlockTrace norm_act up_acc gelu_act down_acc x', stats).

(** The blocks, keeping the trace of each. *)
Fixpoint ffn_blocks {E} `{BuildProfile} (lut : list Z) (blocks : list (LoweredLayer * LoweredLayer))
    (x : list Z) (stats : IntForwardStats)
    : outcome E (list BlockTrace * list Z * IntForwardStats) :=
  match blocks with
  | [] => Ok ([], x, stats)
  | block :: blocks' =>
      let* (trace, stats) := ffn_block lut block x stats in
      let* (r, stats) := ffn_blocks lut blocks' (bt_residual trace) stats in
      let '(traces, x') := r in
      Ok (trace :: traces, x', stats)
  end.

(** One logit: the [i32] dot product with a head row. *)
Definition head_logit {E} (m : IntLoweredModel) (final_q : list Z) (stats : IntForwardStats)
    (byte : Z) : outcome E (Z * IntForwardStats) :=
  let* row := head_i8_row m byte in
  let* acc32 := dot_i32 0 final_q row in
  Ok (acc32, Stats_merge stats (stat_logit (Z.abs acc32))).

(** [for (i, &v) in logits.iter().enumerate().skip(1) { if v > best ... }] *)
Fixpoint argmax_from (i : Z) (best argmax : Z) (l : list Z) : Z :=
  match l with
  | [] => argmax
  | v :: l' => if best <? v then argmax_from (i + 1) v i l' else argmax_from (i + 1) best argmax l'
  end.
Definition argmax_of {E} (logits : list Z) : outcome E Z :=
  match logits with [] => Panic | v :: l' => Ok (argmax_from 1 v 0 l') end.

Record IntForwardTrace := MkIntForwardTrace {
  ft_block_residuals : list (list Z);
  ft_block0_norm_act : list Z;
  ft_block0_up_acc : list Z;
  ft_block0_gelu_act : list Z;
  ft_block0_down_acc : list Z;
  ft_final_q : list Z;
  ft_logits : list Z;
  ft_argmax : Z;
  ft_stats : IntForwardStats;
}.

Definition zeros (n : Z) : list Z := repeat 0 (Z.to_nat n).

(** The trace arrays have [N_BLOCKS] entries that start as zeros; writing past
    them panics. *)
Definition residual_array {E} (traces : list BlockTrace) : outcome E (list (list Z)) :=
  if N_BLOCKS <? zlen traces then Panic
  else Ok (map bt_residual traces
           ++ repeat (zeros D_MODEL) (Z.to_nat (N_BLOCKS - zlen traces))).

Definition block0 (f : BlockTrace -> list Z) (n : Z) (traces : list BlockTrace) : list Z :=
  match traces with [] => zeros n | t :: _ => f t end.

Definition forward {E} `{BuildProfile} (m : IntLoweredModel) (prev : Z) : outcome E IntForwardTrace :=
  let* x := emb_resid_row m prev in
  let* (r, stats) := ffn_blocks (im_gelu_lut m) (im_blocks m) x Stats_new in
  let '(traces, x) := r in
  let* residuals := residual_array traces in
  let* (final_q, stats) := int_norm_quant x stats in
  let* (logits, stats) := omap_acc (head_logit m final_q) stats (zrange VOCAB) in
  let* argmax := argmax_of logits in
  Ok (MkIntForwardTrace residuals
        (block0 bt_norm_act D_MODEL traces) (block0 bt_up_acc D_FF traces)
        (block0 bt_gelu_act D_FF traces) (block0 bt_down_acc D_MODEL traces)
        final_q logits (wrap U8 argmax) stats).
