(* ===== verification/ModelRefFacts.v ===== *)
(** * The dense integer model computes what it specifies

    The fixed-width, panic-checked forward pass of [ModelRef] equals an ideal
    computation on unbounded integers in which only the documented roundings,
    clamps and the residual wrap remain. *)

From S2P Require Import Prelude Numeric Float KernelSpec KernelSpecFacts ModelRef.

(** ** Well-formed layers *)

Record layer_ok (r c : Z) (l : TernaryLayer) : Prop := {
  lo_rows : tl_rows l = r;
  lo_cols : tl_cols l = c;
  lo_weights : zlen (tl_weights l) = r * c;
  lo_ternary : Forall ternary (tl_weights l);
  lo_scales : zlen (tl_scales_raw l) = r;
  lo_scales_u16 : Forall (fun s => 0 <= s < U16) (tl_scales_raw l);
}.

Definition lrow (l : TernaryLayer) (row : Z) : list Z :=
  take (Z.to_nat (tl_cols l)) (drop (Z.to_nat (row * tl_cols l)) (tl_weights l)).

Definition lscale (l : TernaryLayer) (row : Z) : Z := default 0 (tl_scales_raw l !! Z.to_nat row).

(** [TernaryLayer::new] on [u16] scales accepts exactly the well-formed layers. *)
Lemma TernaryLayer_new_iff r c ws ss l : 0 <= r -> 0 <= c -> r * c < U64 ->
  Forall (fun s => 0 <= s < U16) ss ->
  TernaryLayer_new r c ws ss = Ok l <-> l = MkTernaryLayer r c ws ss /\ layer_ok r c l.
Proof.
  intros Hr Hc Hrc Hss. unfold TernaryLayer_new, umul. rewrite (proj2 (Z.ltb_lt _ _) Hrc). cbn [obind].
  split.
  - intros H. inv_ok. destruct (find _ ws) eqn:Hfind; [done|]. injection H as <-. split; [done|].
    rewrite negb_false_iff in *. constructor; simpl; try done; try lia.
    apply find_None_Forall in Hfind. eapply Forall_impl; [exact Hfind|]. intros y Hy.
    apply is_ternary_iff, negb_false_iff, Hy.
  - intros [-> [? ? Hl Ht Hs ?]]. simpl in *. rewrite (proj2 (Z.eqb_eq _ _) Hl), (proj2 (Z.eqb_eq _ _) Hs).
    simpl. rewrite (proj2 (find_None_Forall _ ws)); [done|]. eapply Forall_impl; [exact Ht|].
    intros y Hy. apply negb_false_iff, is_ternary_iff, Hy.
Qed.

Section layers.
Context {r c : Z} {l : TernaryLayer} (Hl : layer_ok r c l) (Hc : 0 <= c <= 65535).

Lemma layer_row_total {E} row : 0 <= row < r ->
  @layer_row E l row = Ok (lrow l row) /\ zlen (lrow l row) = c /\ Forall ternary (lrow l row).
Proof using Hl Hc.
  intros Hrow. destruct Hl as [Hr' Hc' Hw Ht _ _]. split_and!.
  - unfold layer_row, slice, lrow. rewrite Hc'. rewrite !(proj2 (Z.leb_le _ _)) by nia. cbn [andb].
    f_equal. f_equal. lia.
  - unfold lrow. rewrite Hc'. unfold zlen in *. rewrite length_take, length_drop. nia.
  - unfold lrow. by apply Forall_take, Forall_drop.
Qed.

Lemma layer_scale_total {E} row : 0 <= row < r ->
  @scale_raw E l row = Ok (lscale l row) /\ 0 <= lscale l row < U16.
Proof using Hl.
  intros Hrow. destruct Hl as [_ _ _ _ Hs Hu]. unfold scale_raw, lscale.
  destruct (@index_total E _ (tl_scales_raw l) row ltac:(lia)) as (v & -> & Hv). rewrite Hv.
  split; [done|]. rewrite Forall_forall in Hu. apply Hu. by eapply list_elem_of_lookup_2.
Qed.

Lemma layer_bias_total {E} row : 0 <= row < r ->
  @layer_row_bias E l row = Ok (-128 * zsum (lrow l row)).
Proof using Hl Hc.
  intros Hrow. destruct (@layer_row_total E row Hrow) as (Hr & Hlen & Ht).
  pose proof (ternary_sum_bound _ Ht) as Hb. unfold layer_row_bias. rewrite Hr. cbn [obind].
  rewrite (isum_total I32 1).
  2: { eapply Forall_impl; [exact Ht|]. unfold ternary. lia. }
  2: { unfold I32. lia. }
  cbn [obind]. rewrite Z.add_0_l, ichk_fits; [done|]. unfold I32. lia.
Qed.
End layers.

(** ** Dot products *)

(** A bound on every product and on the length keeps the [i32] loop exact. *)
Lemma dot_i32_total {E} B init ws us : 0 <= B < I32 ->
  Forall (fun wu => Z.abs (wu.1 * wu.2) <= B) (zip ws us) ->
  Z.abs init + B * zlen (zip ws us) < I32 ->
  @dot_i32 E init ws us = Ok (init + zsum (map (fun wu => wu.1 * wu.2) (zip ws us))).
Proof.
  intros HB Hp. unfold dot_i32. revert init. induction Hp as [|wu l Hwu _ IH]; intros init Hi.
  - cbn. f_equal. lia.
  - rewrite zlen_cons, Z.mul_add_distr_l in Hi. pose proof (zlen_nonneg l).
    cbn [ofold]. rewrite ichk_fits by lia. cbn [obind]. rewrite ichk_fits by nia. cbn [obind].
    rewrite IH by lia. cbn [map zsum]. f_equal. lia.
Qed.

Lemma zip_ternary_bytes ws us : Forall ternary ws -> Forall is_byte us ->
  Forall (fun wu => Z.abs (wu.1 * wu.2) <= 255) (zip ws us).
Proof.
  intros Hw Hu. apply Forall_forall. intros [w u] Hin. rewrite Forall_forall in Hw, Hu.
  specialize (Hw w (elem_of_zip_l _ _ _ _ Hin)). specialize (Hu u (elem_of_zip_r _ _ _ _ Hin)).
  unfold is_byte in Hu. cbn [fst snd]. destruct (ternary_cases w Hw) as [->|[->| ->]]; lia.
Qed.

Lemma dot_zp_abs ws us : Forall ternary ws -> Forall is_byte us -> length ws = length us ->
  Z.abs (dot_zp ws us) <= 128 * zlen ws.
Proof.
  intros Hw Hu Hlen. pose proof (zsum_bound 128 _ (dot_zp_bound _ _ Hw Hu)) as H.
  unfold dot_zp, zlen in *. rewrite length_map, length_zip_with in H. lia.
Qed.

(** ** The matrix-vector product *)

Record lowered_ok (r c : Z) (ll : LoweredLayer) : Prop := {
  lw_layer : layer_ok r c (ll_layer ll);
  lw_biases : ll_biases ll = map (fun row => -128 * zsum (lrow (ll_layer ll) row)) (zrange r);
}.

Lemma LoweredLayer_new_total {E} r c l : layer_ok r c l -> 0 <= c <= 65535 ->
  exists ll, @LoweredLayer_new E l = Ok ll /\ ll_layer ll = l /\ lowered_ok r c ll.
Proof.
  intros Hl Hc. unfold LoweredLayer_new. rewrite (lo_rows _ _ _ Hl).
  rewrite (omapM_total _ (fun row => -128 * zsum (lrow l row))).
  - cbn [obind]. eexists. split; [reflexivity|]. split; [done|]. by constructor.
  - apply Forall_zrange. intros row Hrow. by apply (layer_bias_total Hl Hc).
Qed.

Definition matvec (l : TernaryLayer) (act : list Z) : list Z :=
  map (fun row => dot_zp (lrow l row) act) (zrange (tl_rows l)).

Definition is_i16 (x : Z) : Prop := - 32768 <= x < 32768.

Lemma int_matvec_yields `{BuildProfile} {E} r c ll act : lowered_ok r c ll -> 0 <= r -> 0 <= c <= 65535 ->
  zlen act = c -> Forall is_byte act -> Forall is_i16 (matvec (ll_layer ll) act) ->
  yields (@int_matvec E _ (ll_layer ll) (ll_biases ll) act r) (matvec (ll_layer ll) act).
Proof.
  intros [Hl Hb] Hr Hc Hact Hbytes Hi16 s. unfold int_matvec.
  rewrite debug_assert_true by (rewrite (lo_cols _ _ _ Hl); lia). cbn [obind].
  rewrite debug_assert_true by (rewrite (lo_rows _ _ _ Hl); lia). cbn [obind].
  unfold matvec in *. rewrite (lo_rows _ _ _ Hl) in *.
  apply (omap_acc_yields _ (fun row => dot_zp (lrow (ll_layer ll) row) act)).
  apply (proj1 (List.Forall_map _ _ _)) in Hi16. rewrite Forall_zrange in Hi16.
  apply Forall_zrange. intros row Hrow s1. specialize (Hi16 row Hrow).
  destruct (@layer_row_total _ _ _ Hl Hc E row Hrow) as (Hlr & Hlen & Ht).
  unfold int_matvec_row. rewrite Hb. rewrite (index_Some _ row (-128 * zsum (lrow (ll_layer ll) row))).
  2: lia.
  2: { rewrite list_lookup_fmap, zrange_lookup by lia. simpl. by rewrite Z2Nat.id by lia. }
  cbn [obind]. rewrite Hlr. cbn [obind].
  pose proof (ternary_sum_bound _ Ht) as Hsum.
  rewrite (dot_i32_total 255); [|unfold I32; lia | by apply zip_ternary_bytes |].
  2: { unfold zlen in *. rewrite length_zip_with. unfold I32. lia. }
  cbn [obind]. rewrite <- dot_zp_biased by (unfold zlen in *; lia).
  unfold is_i16 in Hi16. rewrite rust_assert_true by lia. cbn [obind].
  rewrite as_signed_id by (unfold I16; lia). by eexists.
Qed.

(** With a fan-in of at most 255 the [i16] bound holds structurally. *)
Lemma matvec_i16 r c l act : layer_ok r c l -> 0 <= c <= 255 -> zlen act = c -> Forall is_byte act ->
  Forall is_i16 (matvec l act).
Proof.
  intros Hl Hc Hact Hb. unfold matvec. rewrite (lo_rows _ _ _ Hl).
  apply List.Forall_map, Forall_zrange. intros row Hrow.
  destruct (layer_row_total Hl ltac:(lia) (E := unit) row Hrow) as (_ & Hlen & Ht).
  pose proof (dot_zp_abs _ _ Ht Hb ltac:(unfold zlen in *; lia)). unfold is_i16. lia.
Qed.

(** ** Integer square root and the norm *)

Lemma isqrt_u32_total {E} n : 0 <= n < 2 ^ 32 -> @isqrt_u32 E n = Ok (Z.sqrt n).
Proof.
  intros Hn. unfold isqrt_u32.
  pose proof (@isqrt_loop_correct E 16 0 n ltac:(lia) ltac:(lia) ltac:(lia)) as H.
  change (4 ^ Z.of_nat 16) with (2 ^ 32) in H. rewrite !Z.mul_0_l, Z.sub_0_r in H.
  replace (Z.shiftl 1 30) with (4 ^ Z.of_nat 15) by reflexivity. rewrite H by lia. cbn [obind].
  assert (0 <= Z.sqrt n < 65536).
  { split; [apply Z.sqrt_nonneg|]. apply Z.sqrt_lt_square; lia. }
  unfold try_from_u. by rewrite (proj2 (Z.leb_le _ _)), (proj2 (Z.ltb_lt _ _)) by lia.
Qed.

Definition squares (x : list Z) : Z := zsum (map (fun v => v * v) x).

Lemma squares_bound M x : Forall (fun v => Z.abs v <= M) x -> 0 <= squares x <= M * M * zlen x.
Proof.
  induction 1 as [|v x Hv _ IH]; [unfold squares, zlen; simpl; lia|].
  unfold squares in *. cbn [map zsum]. rewrite zlen_cons. nia.
Qed.

Lemma sum_squares_total {E} M x : Forall (fun v => Z.abs v <= M) x -> M * M * zlen x < U64 ->
  @sum_squares E x = Ok (squares x).
Proof.
  intros Hx HM. assert (Hgen : forall init, 0 <= init -> init + M * M * zlen x < U64 ->
    ofold (fun ss v => let* sq := umul U64 (Z.abs v) (Z.abs v) in uadd U64 ss sq) init x
    = @Ok E Z (init + squares x)).
  { clear HM. induction Hx as [|v x Hv _ IH]; intros init Hi HM.
    - cbn. f_equal. unfold squares. simpl. lia.
    - rewrite zlen_cons in HM. pose proof (zlen_nonneg x). cbn [ofold]. unfold umul at 1.
      rewrite (proj2 (Z.ltb_lt _ _)) by nia. cbn [obind]. unfold uadd at 1.
      rewrite (proj2 (Z.ltb_lt _ _)) by nia. cbn [obind]. rewrite IH by nia.
      unfold squares. cbn [map zsum]. f_equal. rewrite Z.abs_square. lia. }
  unfold sum_squares. rewrite Hgen by lia. done.
Qed.

(** The root mean square of the lanes, with the epsilon of one raw unit. *)
Definition rms_of (n : Z) (x : list Z) : Z := Z.sqrt (squares x / n + 1).

(** One normalized lane on the activation grid. *)
Definition norm_value (r v : Z) : Z := Z.sgn v * Z.min QMAX (round_half_away (QMAX * Z.abs v) (8 * r)).

Lemma round_half_away_nonneg a b : 0 <= a -> 0 < b -> 0 <= round_half_away a b.
Proof.
  intros Ha Hb. unfold round_half_away.
  apply Z.mul_nonneg_nonneg; [by apply Z.sgn_nonneg | apply Z.div_pos; lia].
Qed.

(** On magnitudes the rounding is the code's biased division. *)
Lemma round_half_away_abs a b : 0 < b -> round_half_away (Z.abs a) b = (2 * Z.abs a + b) / (2 * b).
Proof.
  intros Hb. unfold round_half_away. rewrite Z.abs_idemp.
  destruct (Z.eq_dec a 0) as [->|Ha].
  - simpl. symmetry. apply Z.div_small. lia.
  - rewrite Z.sgn_pos by lia. lia.
Qed.

Lemma sgn_min_range v m k : 0 <= m -> 0 <= k -> - k <= Z.sgn v * Z.min k m <= k.
Proof. intros. destruct (Z.sgn_spec v) as [[_ ->]|[[_ ->]|[_ ->]]]; lia. Qed.

Lemma norm_value_range r v : 0 < r -> - 127 <= norm_value r v <= 127.
Proof.
  intros Hr. unfold norm_value, QMAX. apply (sgn_min_range v _ 127); [|lia].
  apply round_half_away_nonneg; lia.
Qed.

(** The sign is restored on a magnitude that vanishes with the argument. *)
Lemma neg_if_sgn {E} M v m : 0 <= m < M -> (v = 0 -> m = 0) ->
  (if v <? 0 then @ichk E M (- m) else Ok m) = Ok (Z.sgn v * m).
Proof.
  intros Hm H0. destruct (Z.ltb_spec v 0).
  - rewrite ichk_fits by lia. rewrite Z.sgn_neg by lia. by f_equal.
  - destruct (Z.eq_dec v 0) as [->|]; [by rewrite H0|]. rewrite Z.sgn_pos by lia. by rewrite Z.mul_1_l.
Qed.

Lemma norm_lane_total {E} r v : 0 < r < 2 ^ 28 -> Z.abs v <= 2 ^ 31 ->
  @norm_lane E (8 * r) (16 * r) v = Ok (norm_value r v).
Proof.
  intros Hr Hv. unfold norm_lane, umul, uadd. rewrite (proj2 (Z.ltb_lt _ _)) by lia. cbn [obind].
  rewrite (proj2 (Z.ltb_lt _ _)) by lia. cbn [obind]. rewrite (proj2 (Z.eqb_neq _ _)) by lia.
  assert (Hq : (Z.abs v * 254 + 8 * r) / (16 * r) = round_half_away (QMAX * Z.abs v) (8 * r)).
  { replace (QMAX * Z.abs v) with (Z.abs (QMAX * v)) by (unfold QMAX; lia).
    rewrite round_half_away_abs by lia. unfold QMAX. f_equal; lia. }
  rewrite Hq. pose proof (round_half_away_nonneg (QMAX * Z.abs v) (8 * r) ltac:(unfold QMAX; lia) ltac:(lia)).
  rewrite as_signed_id by (unfold I16, QMAX in *; lia).
  rewrite neg_if_sgn; [unfold norm_value; by rewrite Z.min_comm | unfold QMAX, I16 in *; lia |].
  intros ->. rewrite Z.mul_0_r. unfold round_half_away. simpl. done.
Qed.

Definition norm_quant (n : Z) (x : list Z) : list Z := map (norm_value (rms_of n x)) x.

Lemma rms_of_pos n x : 0 < n -> 0 < rms_of n x.
Proof.
  intros Hn. unfold rms_of. assert (0 <= squares x).
  { unfold squares. induction x; simpl; nia. }
  pose proof (Z.div_pos (squares x) n ltac:(lia) Hn). apply Z.sqrt_pos. lia.
Qed.

Lemma norm_quant_range n x : 0 < n -> Forall (fun q => - 127 <= q <= 127) (norm_quant n x).
Proof.
  intros Hn. unfold norm_quant. apply List.Forall_map, Forall_forall. intros v _.
  apply norm_value_range, rms_of_pos, Hn.
Qed.

Lemma int_norm_quant_yields `{BuildProfile} {E} x : zlen x = D_MODEL -> Forall is_i16 x ->
  yields (@int_norm_quant E _ x) (norm_quant D_MODEL x).
Proof.
  intros Hlen Hx s. unfold int_norm_quant.
  assert (Habs : Forall (fun v => Z.abs v <= 32768) x)
    by (eapply Forall_impl; [exact Hx|]; unfold is_i16; lia).
  pose proof (squares_bound _ _ Habs) as Hsq. rewrite Hlen in Hsq. unfold D_MODEL in *.
  rewrite (sum_squares_total 32768) by (done || rewrite Hlen; lia). cbn [obind].
  assert (Hmean : Z.shiftr (squares x) 6 = squares x / 64) by (by rewrite Z.shiftr_div_pow2).
  assert (0 <= squares x / 64 <= 2 ^ 30)
    by (split; [apply Z.div_pos; lia | apply Z.div_le_upper_bound; lia]).
  rewrite Hmean, debug_assert_true by lia. cbn [obind]. unfold uadd.
  rewrite (proj2 (Z.ltb_lt _ _)) by lia. cbn [obind]. unfold wrap. rewrite Z.mod_small by lia.
  rewrite isqrt_u32_total by lia. cbn [obind]. fold (rms_of 64 x).
  assert (Hr : 0 < rms_of 64 x <= 32769).
  { split; [by apply rms_of_pos|]. unfold rms_of. rewrite <- (Z.sqrt_square 32769) by lia.
    apply Z.sqrt_le_mono. lia. }
  unfold umul. rewrite (proj2 (Z.ltb_lt (8 * _) _)) by lia. cbn [obind].
  rewrite (proj2 (Z.ltb_lt (16 * _) _)) by lia. cbn [obind].
  rewrite (omapM_total _ (norm_value (rms_of 64 x))); [by eexists|].
  eapply Forall_impl; [exact Habs|]. intros v Hv. cbv beta in Hv. apply norm_lane_total; lia.
Qed.

(** ** The epilogues *)

Definition is_u16 (s : Z) : Prop := 0 <= s < U16.

(** Requantization to the activation grid and the residual delta, both
    rounded half away from zero and clamped. *)
Definition grid_value (scale acc : Z) : Z :=
  Z.sgn (scale * acc) * Z.min QMAX (round_half_away (Z.abs (scale * acc)) 256).
Definition delta_value (scale acc : Z) : Z :=
  Z.sgn (scale * acc) * Z.min 65535 (round_half_away (Z.abs (scale * acc)) 127).

Lemma scale_product_bound scale acc : is_u16 scale -> is_i16 acc ->
  Z.abs (scale * acc) <= 65535 * 32768.
Proof. unfold is_u16, is_i16. rewrite Z.abs_mul. nia. Qed.

Lemma grid_value_range scale acc : - 127 <= grid_value scale acc <= 127.
Proof.
  unfold grid_value, QMAX. apply (sgn_min_range (scale * acc) _ 127); [|lia].
  apply round_half_away_nonneg; lia.
Qed.

Lemma delta_value_range scale acc : - 65535 <= delta_value scale acc <= 65535.
Proof.
  unfold delta_value. apply (sgn_min_range (scale * acc) _ 65535); [|lia].
  apply round_half_away_nonneg; lia.
Qed.

Lemma int_scale_to_grid_yields `{BuildProfile} {E} acc scale : is_u16 scale -> is_i16 acc ->
  yields (@int_scale_to_grid E _ acc scale) (grid_value scale acc).
Proof.
  intros Hs Ha st. pose proof (scale_product_bound _ _ Hs Ha) as Hm. unfold int_scale_to_grid.
  rewrite ichk_fits by (unfold I64; lia). cbn [obind]. set (m := scale * acc) in *.
  rewrite debug_assert_true by (change (Z.shiftl 1 31) with 2147483648; lia). cbn [obind].
  unfold uadd. rewrite (proj2 (Z.ltb_lt _ _)) by lia. cbn [obind].
  assert (Hq : Z.shiftr (Z.abs m + 128) 8 = round_half_away (Z.abs m) 256).
  { rewrite Z.shiftr_div_pow2, round_half_away_abs by lia. change (2 ^ 8) with 256.
    rewrite <- (Z.div_mul_cancel_l _ 256 2) by lia. f_equal; lia. }
  rewrite Hq. pose proof (round_half_away_nonneg (Z.abs m) 256 ltac:(lia) ltac:(lia)).
  rewrite as_signed_id by (unfold I32, QMAX; lia).
  rewrite neg_if_sgn; [| unfold I32, QMAX; lia | intros ->; done]. cbn [obind].
  unfold grid_value. fold m. rewrite Z.min_comm. by eexists.
Qed.

Lemma int_down_delta_yields `{BuildProfile} {E} acc scale : is_u16 scale -> is_i16 acc ->
  yields (@int_down_delta E _ acc scale) (delta_value scale acc).
Proof.
  intros Hs Ha st. pose proof (scale_product_bound _ _ Hs Ha) as Hm. unfold int_down_delta.
  rewrite ichk_fits by (unfold I64; lia). cbn [obind]. set (m := scale * acc) in *.
  unfold umul. rewrite (proj2 (Z.ltb_lt _ _)) by lia. cbn [obind]. unfold uadd.
  rewrite (proj2 (Z.ltb_lt _ _)) by lia. cbn [obind].
  rewrite debug_assert_true by (change (Z.shiftl 1 32) with 4294967296; lia). cbn [obind].
  assert (Hq : (Z.abs m * 2 + 127) / 254 = round_half_away (Z.abs m) 127).
  { rewrite round_half_away_abs by lia. f_equal; lia. }
  rewrite Hq. pose proof (round_half_away_nonneg (Z.abs m) 127 ltac:(lia) ltac:(lia)).
  rewrite as_signed_id by (unfold I32; lia).
  rewrite neg_if_sgn; [| unfold I32; lia | intros ->; done]. cbn [obind].
  unfold delta_value. fold m. rewrite Z.min_comm. by eexists.
Qed.

(** ** One block *)

Record lut_ok (lut : list Z) : Prop := {
  lk_len : zlen lut = 255;
  lk_bytes : Forall is_byte lut;
}.

Definition gelu_value (lut : list Z) (p : Z) : Z := default 0 (lut !! Z.to_nat (p + QMAX)).

Lemma gelu_value_total {E} lut p : lut_ok lut -> - 127 <= p <= 127 ->
  @index E Z lut (p + QMAX) = Ok (gelu_value lut p) /\ is_byte (gelu_value lut p).
Proof.
  intros [Hl Hb] Hp. unfold gelu_value. rewrite Forall_forall in Hb.
  destruct (@index_total E _ lut (p + QMAX)) as (v & -> & Hv); [unfold QMAX; lia|].
  rewrite Hv. split; [done|]. apply Hb. by eapply list_elem_of_lookup_2.
Qed.

Definition norm_act (n : Z) (x : list Z) : list Z := map (fun q => q + 128) (norm_quant n x).

Lemma act_bytes_total {E} q : Forall (fun q => - 127 <= q <= 127) q ->
  omapM (@act_byte E) q = Ok (map (fun q => q + 128) q)
  /\ Forall is_byte (map (fun q => q + 128) q).
Proof.
  intros Hq. split.
  - apply omapM_total. eapply Forall_impl; [exact Hq|]. intros v Hv. cbv beta in Hv.
    unfold act_byte. rewrite ichk_fits by (unfold I16; lia). cbn [obind]. unfold wrap.
    by rewrite Z.mod_small by lia.
  - apply List.Forall_map. eapply Forall_impl; [exact Hq|]. intros v Hv. cbv beta in Hv. unfold is_byte. lia.
Qed.

Definition gelu_row (lut : list Z) (up : TernaryLayer) (ia : Z * Z) : Z :=
  gelu_value lut (grid_value (lscale up ia.1) ia.2).

Definition residual_row (down : TernaryLayer) (row : Z * (Z * Z)) : Z :=
  as_signed I16 (row.2.1 + delta_value (lscale down row.1) row.2.2).

(** The block on unbounded integers. *)
Definition ideal_block (lut : list Z) (up down : TernaryLayer) (x : list Z) : BlockTrace :=
  let act := norm_act D_MODEL x in
  let up_acc := matvec up act in
  let g := map (gelu_row lut up) (enumerate up_acc) in
  let down_acc := matvec down g in
  MkBlockTrace act up_acc g down_acc (map (residual_row down) (enumerate (zip x down_acc))).

Lemma up_rows_yield `{BuildProfile} {E} lut r c up accs : lut_ok lut -> layer_ok r c up ->
  zlen accs = r -> Forall is_i16 accs ->
  yields (fun s => omap_acc (@up_row E _ lut up) s (enumerate accs)) (map (gelu_row lut up) (enumerate accs))
  /\ Forall is_byte (map (gelu_row lut up) (enumerate accs)).
Proof.
  intros Hlut Hup Hlen Ha. rewrite Forall_forall in Ha.
  assert (Hin : forall i a, (i, a) ∈ enumerate accs -> 0 <= i < r /\ is_i16 a).
  { intros i a [Hi Hl]%enumerate_elem. split; [lia|]. apply Ha. by eapply list_elem_of_lookup_2. }
  split.
  - apply omap_acc_yields, Forall_forall. intros [i a] [Hi Hi16]%Hin s. unfold up_row. cbn [fst snd].
    destruct (layer_scale_total Hup (E := E) i Hi) as [-> Hsc]. cbn [obind].
    destruct (int_scale_to_grid_yields (E := E) a _ Hsc Hi16 s) as [s1 ->]. cbn [obind].
    pose proof (grid_value_range (lscale up i) a).
    rewrite ichk_fits by (unfold I32, QMAX; lia). cbn [obind].
    destruct (gelu_value_total (E := E) lut (grid_value (lscale up i) a) Hlut ltac:(lia)) as [-> _].
    by eexists.
  - apply List.Forall_map, Forall_forall. intros [i a] _. unfold gelu_row.
    apply (gelu_value_total (E := unit)), grid_value_range. done.
Qed.

Lemma down_rows_yield `{BuildProfile} {E} r c down xs accs : layer_ok r c down ->
  zlen xs = r -> zlen accs = r -> Forall is_i16 xs -> Forall is_i16 accs ->
  yields (fun s => omap_acc (@down_row E _ down) s (enumerate (zip xs accs)))
         (map (residual_row down) (enumerate (zip xs accs))).
Proof.
  intros Hd Hx Ha Hxs Has. apply omap_acc_yields, Forall_forall. intros [i [x a]] [Hi Hl]%enumerate_elem s.
  apply lookup_zip_with_Some in Hl as (x' & a' & [= <- <-] & Hxl & Hal).
  rewrite Forall_forall in Hxs, Has. apply list_elem_of_lookup_2, Hxs in Hxl.
  apply list_elem_of_lookup_2, Has in Hal.
  assert (0 <= i < r) by (unfold zlen in *; rewrite length_zip_with in Hi; lia).
  unfold down_row. destruct (layer_scale_total Hd (E := E) i) as [-> Hsc]; [done|]. cbn [obind].
  destruct (int_down_delta_yields (E := E) a _ Hsc Hal s) as [s1 ->]. cbn [obind].
  pose proof (delta_value_range (lscale down i) a). unfold is_i16 in Hxl.
  rewrite ichk_fits by (unfold I32; lia). cbn [obind]. by eexists.
Qed.

Lemma residual_rows_i16 down rows : Forall is_i16 (map (residual_row down) rows).
Proof.
  apply List.Forall_map, Forall_forall. intros row _. unfold residual_row, is_i16.
  pose proof (as_signed_range I16 (row.2.1 + delta_value (lscale down row.1) row.2.2) ltac:(done)).
  unfold I16 in *. simpl in *. lia.
Qed.

Definition block_ok (b : LoweredLayer * LoweredLayer) : Prop :=
  lowered_ok D_FF D_MODEL b.1 /\ lowered_ok D_MODEL D_FF b.2.

(** A residual vector. *)
Definition lanes_ok (x : list Z) : Prop := zlen x = D_MODEL /\ Forall is_i16 x.

Lemma matvec_zlen r c l act : layer_ok r c l -> 0 <= r -> zlen (matvec l act) = r.
Proof.
  intros Hl Hr. unfold matvec, zlen. rewrite length_map, zrange_length, (lo_rows _ _ _ Hl). lia.
Qed.

Lemma ffn_block_yields `{BuildProfile} {E} lut b x : lut_ok lut -> block_ok b -> lanes_ok x ->
  yields (@ffn_block E _ lut b x) (ideal_block lut (ll_layer b.1) (ll_layer b.2) x)
  /\ lanes_ok (bt_residual (ideal_block lut (ll_layer b.1) (ll_layer b.2) x)).
Proof.
  intros Hlut [Hup Hdown] [Hx Hx16]. destruct b as [up down]. cbn [fst snd] in *.
  pose proof (norm_quant_range D_MODEL x ltac:(done)) as Hq.
  destruct (act_bytes_total (E := E) _ Hq) as [Hact Hbytes]. fold (norm_act D_MODEL x) in *.
  assert (Hna : zlen (norm_act D_MODEL x) = D_MODEL).
  { unfold norm_act, norm_quant, zlen in *. by rewrite !length_map. }
  pose proof (matvec_i16 _ _ _ _ (lw_layer _ _ _ Hup) ltac:(done) Hna Hbytes) as Hup16.
  pose proof (matvec_zlen _ _ _ (norm_act D_MODEL x) (lw_layer _ _ _ Hup) ltac:(done)) as Hul.
  destruct (up_rows_yield (E := E) lut _ _ _ _ Hlut (lw_layer _ _ _ Hup) Hul Hup16) as [Hgelu Hgb].
  set (g := map (gelu_row lut (ll_layer up)) (enumerate (matvec (ll_layer up) (norm_act D_MODEL x)))) in *.
  assert (Hgl : zlen g = D_FF).
  { unfold g, zlen in *. by rewrite length_map, enumerate_length. }
  pose proof (matvec_i16 _ _ _ _ (lw_layer _ _ _ Hdown) ltac:(done) Hgl Hgb) as Hd16.
  pose proof (matvec_zlen _ _ _ g (lw_layer _ _ _ Hdown) ltac:(done)) as Hdl.
  pose proof (down_rows_yield (E := E) _ _ _ x _ (lw_layer _ _ _ Hdown) Hx Hdl Hx16 Hd16) as Hres.
  split.
  - intros s. unfold ffn_block. destruct (int_norm_quant_yields (E := E) x Hx Hx16 s) as [s1 ->].
    cbn [obind]. rewrite Hact. cbn [obind].
    destruct (int_matvec_yields (E := E) _ _ _ _ Hup ltac:(done) ltac:(done) Hna Hbytes Hup16 s1) as [s2 ->].
    cbn [obind]. destruct (Hgelu s2) as [s3 ->]. cbn [obind].
    destruct (int_matvec_yields (E := E) _ _ _ _ Hdown ltac:(done) ltac:(done) Hgl Hgb Hd16 s3) as [s4 ->].
    cbn [obind]. destruct (Hres s4) as [s5 ->]. cbn [obind]. by eexists.
  - split; [|apply residual_rows_i16]. unfold ideal_block. cbn [bt_residual]. fold g.
    unfold zlen in *. rewrite length_map, enumerate_length, length_zip_with. lia.
Qed.

(** ** The whole pass *)

Record model_ok (m : IntLoweredModel) : Prop := {
  mo_emb_len : zlen (im_emb_resid m) = VOCAB * D_MODEL;
  mo_emb : Forall is_i16 (im_emb_resid m);
  mo_head_len : zlen (im_head_i8 m) = VOCAB * D_MODEL;
  mo_head : Forall (fun e => - 127 <= e <= 127) (im_head_i8 m);
  mo_lut : lut_ok (im_gelu_lut m);
  mo_blocks_len : zlen (im_blocks m) = N_BLOCKS;
  mo_blocks : Forall block_ok (im_blocks m);
}.

(** Row [i] of a [d]-column table. *)
Definition table_row {A} (table : list A) (d i : Z) : list A :=
  take (Z.to_nat d) (drop (Z.to_nat (i * d)) table).

Lemma table_row_total {E A} (P : A -> Prop) table n d i : zlen table = n * d -> 0 <= d -> 0 <= i < n ->
  Forall P table ->
  @slice E A table (i * d) (i * d + d) = Ok (table_row table d i)
  /\ zlen (table_row table d i) = d /\ Forall P (table_row table d i).
Proof.
  intros Hl Hd Hi HP. split_and!.
  - unfold slice, table_row. rewrite !(proj2 (Z.leb_le _ _)) by nia. cbn [andb].
    by rewrite Z.add_simpl_l.
  - unfold table_row, zlen in *. rewrite length_take, length_drop. nia.
  - by apply Forall_take, Forall_drop.
Qed.

Definition ideal_blocks (m : IntLoweredModel) (x : list Z) : list BlockTrace * list Z :=
  foldl (fun '(ts, x) b =>
           let t := ideal_block (im_gelu_lut m) (ll_layer b.1) (ll_layer b.2) x in
           (ts ++ [t], bt_residual t)) ([], x) (im_blocks m).

Definition ideal_logits (m : IntLoweredModel) (q : list Z) : list Z :=
  map (fun byte => zsum (map (fun qe => qe.1 * qe.2) (zip q (table_row (im_head_i8 m) D_MODEL byte))))
    (zrange VOCAB).

(** The residual stream after the blocks for one input byte. *)
Definition ideal_residual (m : IntLoweredModel) (prev : Z) : list Z :=
  (ideal_blocks m (table_row (im_emb_resid m) D_MODEL prev)).2.

Lemma ffn_blocks_yield `{BuildProfile} {E} lut bs : lut_ok lut -> Forall block_ok bs -> forall x ts0,
  lanes_ok x ->
  exists ts x', foldl (fun '(ts, x) b =>
      let t := ideal_block lut (ll_layer b.1) (ll_layer b.2) x in (ts ++ [t], bt_residual t))
      (ts0, x) bs = (ts0 ++ ts, x')
  /\ yields (@ffn_blocks E _ lut bs x) (ts, x') /\ lanes_ok x' /\ length ts = length bs.
Proof.
  intros Hlut Hbs. induction Hbs as [|b bs Hb _ IH]; intros x ts0 Hx.
  - exists [], x. cbn [foldl]. rewrite app_nil_r. split_and!; [done | intros s; by eexists | done | done].
  - destruct (ffn_block_yields (E := E) lut b x Hlut Hb Hx) as [Hy Hl]. cbn [foldl].
    set (t := ideal_block lut (ll_layer b.1) (ll_layer b.2) x) in *.
    destruct (IH (bt_residual t) (ts0 ++ [t]) Hl) as (ts & x' & Hfold & Hys & Hl' & Hlen).
    exists (t :: ts), x'. split_and!.
    + etransitivity; [exact Hfold|]. by rewrite <- app_assoc.
    + intros s. cbn [ffn_blocks]. destruct (Hy s) as [s1 ->]. cbn [obind].
      destruct (Hys s1) as [s2 ->]. cbn [obind]. by eexists.
    + exact Hl'.
    + simpl. by rewrite Hlen.
Qed.

Lemma argmax_from_first l : forall done_ am best, first_max done_ am best ->
  exists i v, first_max (done_ ++ l) i v
    /\ argmax_from (zlen done_) best (Z.of_nat am) l = Z.of_nat i.
Proof.
  induction l as [|w l IH]; intros dn am best Hm; cbn [argmax_from].
  - exists am, best. by rewrite app_nil_r.
  - assert (Hz : zlen (dn ++ [w]) = zlen dn + 1) by (unfold zlen; rewrite length_app; simpl; lia).
    replace (dn ++ w :: l) with ((dn ++ [w]) ++ l) by by rewrite <- app_assoc.
    rewrite <- Hz. destruct (Z.ltb_spec best w) as [Hlt|Hge].
    + unfold zlen at 2. apply (IH _ (length dn) w). by eapply first_max_snoc.
    + apply IH, first_max_app; [done|]. by repeat constructor.
Qed.

Lemma argmax_of_first {E} l : l <> [] -> exists i v, first_max l i v /\ @argmax_of E l = Ok (Z.of_nat i).
Proof.
  destruct l as [|w l]; [done|]. intros _. cbn [argmax_of].
  destruct (argmax_from_first l [w] 0 w) as (i & v & Hm & Ha).
  - constructor; [done| |lia]. intros [|j] u Hj; [by injection Hj as <- | done].
  - exists i, v. split; [exact Hm|]. f_equal. exact Ha.
Qed.

(** A dot product with the quantized head. *)
Lemma head_dot_total {E} q row : Forall (fun q => - 127 <= q <= 127) q ->
  Forall (fun e => - 127 <= e <= 127) row -> zlen row <= 65535 ->
  @dot_i32 E 0 q row = Ok (zsum (map (fun qe => qe.1 * qe.2) (zip q row)))
  /\ Z.abs (zsum (map (fun qe => qe.1 * qe.2) (zip q row))) <= 16129 * zlen row.
Proof.
  intros Hq Hr Hlen. rewrite Forall_forall in Hq, Hr.
  assert (Hp : Forall (fun qe => Z.abs (qe.1 * qe.2) <= 16129) (zip q row)).
  { apply Forall_forall. intros [a b] Hin. specialize (Hq a (elem_of_zip_l _ _ _ _ Hin)).
    specialize (Hr b (elem_of_zip_r _ _ _ _ Hin)). cbn [fst snd]. cbv beta in *.
    rewrite Z.abs_mul. nia. }
  assert (Hzl : zlen (zip q row) <= zlen row) by (unfold zlen; rewrite length_zip_with; lia).
  pose proof (zlen_nonneg (zip q row)). split.
  - rewrite (dot_i32_total 16129); [by rewrite Z.add_0_l | unfold I32; lia | done | unfold I32; simpl; lia].
  - apply (proj2 (List.Forall_map _ (fun x => Z.abs x <= 16129) _)) in Hp.
    apply zsum_bound in Hp. unfold zlen in *. rewrite length_map in Hp. lia.
Qed.

Lemma forward_total `{BuildProfile} {E} m prev : model_ok m -> 0 <= prev < VOCAB ->
  exists tr i v, @forward E _ m prev = Ok tr
    /\ lanes_ok (ideal_residual m prev)
    /\ ft_final_q tr = norm_quant D_MODEL (ideal_residual m prev)
    /\ ft_logits tr = ideal_logits m (ft_final_q tr)
    /\ Forall (fun l => Z.abs l <= 1032256) (ft_logits tr)
    /\ first_max (ft_logits tr) i v /\ ft_argmax tr = Z.of_nat i.
Proof.
  intros [Hel He Hhl Hh Hlut Hbl Hb] Hprev. unfold forward.
  destruct (@table_row_total E Z is_i16 _ VOCAB D_MODEL prev Hel ltac:(done) Hprev He) as (Hs & Hxl & Hx16).
  unfold emb_resid_row. rewrite Hs. cbn [obind].
  destruct (@ffn_blocks_yield _ E (im_gelu_lut m) _ Hlut Hb _ [] (conj Hxl Hx16))
    as (ts & x' & Hfold & Hy & Hlanes & Hlen).
  assert (Hres : ideal_residual m prev = x') by exact (f_equal snd Hfold).
  rewrite Hres. destruct (Hy Stats_new) as [s1 ->]. cbn [obind].
  unfold residual_array. rewrite (proj2 (Z.ltb_ge _ _)) by (unfold zlen in *; rewrite Hlen; lia).
  cbn [obind]. destruct Hlanes as [Hl' H16'].
  destruct (int_norm_quant_yields (E := E) x' Hl' H16' s1) as [s2 ->]. cbn [obind].
  pose proof (norm_quant_range D_MODEL x' ltac:(done)) as Hq.
  assert (Hrow : forall byte, 0 <= byte < VOCAB ->
    @slice E Z (im_head_i8 m) (byte * D_MODEL) (byte * D_MODEL + D_MODEL)
      = Ok (table_row (im_head_i8 m) D_MODEL byte)
    /\ zlen (table_row (im_head_i8 m) D_MODEL byte) = D_MODEL
    /\ Forall (fun e => - 127 <= e <= 127) (table_row (im_head_i8 m) D_MODEL byte))
    by (intros byte Hbyte; by apply (table_row_total _ _ VOCAB)).
  destruct (omap_acc_yields (head_logit (E := E) m (norm_quant D_MODEL x'))
    (fun byte => zsum (map (fun qe => qe.1 * qe.2)
       (zip (norm_quant D_MODEL x') (table_row (im_head_i8 m) D_MODEL byte)))) (zrange VOCAB)) with (s := s2)
    as [s3 Hs3].
  { apply Forall_zrange. intros byte Hbyte s. destruct (Hrow byte Hbyte) as (Hsl & Hrl & Hr).
    unfold head_logit, head_i8_row. rewrite Hsl. cbn [obind].
    rewrite (proj1 (head_dot_total (E := E) _ _ Hq Hr ltac:(rewrite Hrl; done))). by eexists. }
  rewrite Hs3. cbn [obind]. fold (ideal_logits m (norm_quant D_MODEL x')).
  destruct (@argmax_of_first E (ideal_logits m (norm_quant D_MODEL x'))) as (i & v & Hm & Ha); [done|].
  rewrite Ha. cbn [obind]. eexists _, i, v. split; [reflexivity|]. cbn [ft_final_q ft_logits ft_argmax].
  split_and!; try done.
  - apply List.Forall_map, Forall_zrange. intros byte Hbyte. destruct (Hrow byte Hbyte) as (_ & Hrl & Hr).
    pose proof (proj2 (head_dot_total (E := E) _ _ Hq Hr ltac:(rewrite Hrl; done))) as Hbound.
    rewrite Hrl in Hbound. done.
  - unfold wrap. apply Z.mod_small. pose proof (lookup_lt_Some _ _ _ (fm_at _ _ _ Hm)) as Hi.
    unfold ideal_logits in Hi. rewrite length_map, zrange_length in Hi. unfold VOCAB in Hi. lia.
Qed.

(** ** Lowering *)

Record checkpoint_ok (ck : DenseBigramCheckpoint) : Prop := {
  co_emb : zlen (ck_embedding ck) = VOCAB * D_MODEL;
  co_len : zlen (ck_blocks ck) = N_BLOCKS;
  co_blocks : Forall (fun b => layer_ok D_FF D_MODEL (bw_up b) /\ layer_ok D_MODEL D_FF (bw_down b))
                (ck_blocks ck);
}.

(** The constructor's checks, on blocks whose layers are well-formed. *)
Lemma Checkpoint_new_ok emb blocks ck : Checkpoint_new emb blocks = Ok ck ->
  Forall (fun b => exists r c r' c', layer_ok r c (bw_up b) /\ layer_ok r' c' (bw_down b)) blocks ->
  ck = MkDenseBigramCheckpoint emb blocks /\ checkpoint_ok ck.
Proof.
  unfold Checkpoint_new. intros H Hb. inv_ok. split; [done|].
  match goal with G : omapM check_block blocks = Ok _ |- _ => apply omapM_Forall2 in G; rename G into Hc end.
  rewrite ?negb_false_iff in *. constructor; cbn [ck_embedding ck_blocks]; [lia | lia|].
  rewrite Forall_forall in Hb. apply Forall_forall. intros b Hin.
  destruct (Hb b Hin) as (r & c & r' & c' & Hu & Hd).
  apply list_elem_of_lookup in Hin as [i Hi]. destruct (Forall2_lookup_l _ _ _ _ _ Hc Hi) as (u & _ & Hu').
  unfold check_block in Hu'. inv_ok. rename Hu' into Hdim.
  rewrite (lo_rows _ _ _ Hu), (lo_cols _ _ _ Hu), (lo_rows _ _ _ Hd), (lo_cols _ _ _ Hd) in *.
  rewrite ?orb_false_iff, ?negb_false_iff in *.
  destruct Hdim as [?%Z.eqb_eq ?%Z.eqb_eq].
  match goal with G : (r =? _) = true /\ _ |- _ => destruct G as [?%Z.eqb_eq ?%Z.eqb_eq] end.
  by subst.
Qed.

Lemma concat_rows {A} (t : list A) n d : 0 <= n -> 0 <= d -> zlen t = n * d ->
  concat (map (table_row t d) (zrange n)) = t.
Proof.
  intros Hn Hd Ht. unfold zrange. rewrite map_map.
  assert (Hgen : forall k : nat, concat (map (fun i => table_row t d (Z.of_nat i)) (seq 0 k))
                                 = take (Z.to_nat (Z.of_nat k * d)) t).
  { induction k as [|k IH]; [by rewrite Z.mul_0_l|].
    rewrite seq_S, map_app, concat_app, IH. cbn [map concat plus]. rewrite app_nil_r. unfold table_row.
    rewrite take_take_drop. f_equal. nia. }
  rewrite Hgen, Z2Nat.id by done. apply take_ge. unfold zlen in Ht. lia.
Qed.

Lemma gelu_lut_ok `{MathLib} : lut_ok build_gelu_lut.
Proof.
  constructor.
  - unfold build_gelu_lut, zlen. by rewrite length_map, zrange_length.
  - unfold build_gelu_lut. apply List.Forall_map, Forall_forall. intros i _. unfold gelu_entry, is_byte, wrap.
    by apply Z.mod_pos_bound.
Qed.

Lemma lower_total `{MathLib} ck : checkpoint_ok ck ->
  exists m, lower ck = Ok m /\ model_ok m
    /\ im_emb_resid m = map emb_resid_of (ck_embedding ck)
    /\ map (fun b => (ll_layer b.1, ll_layer b.2)) (im_blocks m)
       = map (fun b => (bw_up b, bw_down b)) (ck_blocks ck).
Proof.
  intros [Hemb Hlen Hb]. unfold lower.
  rewrite (omapM_total (embedding_row ck) (table_row (ck_embedding ck) D_MODEL)).
  2: { apply Forall_zrange. intros i Hi. unfold embedding_row.
       apply (table_row_total (fun _ => True) _ VOCAB); [done | done | done | by apply Forall_true]. }
  cbn [obind]. rewrite concat_rows by done.
  assert (Hblocks : exists bs, omapM (fun b => let* up := LoweredLayer_new (bw_up b) in
                                 let* down := LoweredLayer_new (bw_down b) in
                                 Ok (E := ModelRefError) (up, down)) (ck_blocks ck) = Ok bs
    /\ Forall block_ok bs /\ length bs = length (ck_blocks ck)
    /\ map (fun b => (ll_layer b.1, ll_layer b.2)) bs = map (fun b => (bw_up b, bw_down b)) (ck_blocks ck)).
  { clear Hlen. induction Hb as [|b bs [Hu Hd] _ IH]; [by exists []|].
    destruct IH as (bs' & Hbs & Hok & Hl & Hm).
    destruct (@LoweredLayer_new_total ModelRefError _ _ _ Hu ltac:(done)) as (u & Hu' & Hul & Huo).
    destruct (@LoweredLayer_new_total ModelRefError _ _ _ Hd ltac:(done)) as (d & Hd' & Hdl & Hdo).
    exists ((u, d) :: bs'). cbn [omapM]. rewrite Hu'. cbn [obind]. rewrite Hd'. cbn [obind].
    rewrite Hbs. cbn [obind map fst snd length]. rewrite Hul, Hdl, Hm, Hl.
    split_and!; [done | by constructor | done | done]. }
  destruct Hblocks as (bs & -> & Hbs & Hbl & Hbm). cbn [obind]. eexists. split; [reflexivity|].
  split; [|done]. constructor; cbn [im_emb_resid im_head_i8 im_gelu_lut im_blocks].
  - unfold zlen in *. by rewrite length_map.
  - apply List.Forall_map, Forall_forall. intros v _. unfold emb_resid_of, is_i16.
    apply (as_signed_range I16). done.
  - unfold zlen in *. by rewrite length_map.
  - apply List.Forall_map, Forall_forall. intros v _. unfold head_i8_of.
    match goal with |- context [i64_clamp ?x ?a ?b] =>
      pose proof (i64_clamp_range x a b ltac:(done)) as Hr end.
    unfold QMAX in *. rewrite as_signed_id; [lia | unfold I8; lia].
  - apply gelu_lut_ok.
  - unfold zlen in *. by rewrite Hbl.
  - done.
Qed.

(** C28: The dense model runs exactly as specified: every checkpoint of the
    right shape lowers, and its integer forward pass returns for every byte, in
    debug and in release builds.  No accumulator, product or table index
    leaves its machine width; the final activations and the logits are those
    of the unbounded computation, every logit fits the 24-bit device format,
    and the reported argmax is the lowest index of the largest logit. *)
Theorem dense_forward_exact `{MathLib} `{BuildProfile} ck prev :
  checkpoint_ok ck -> 0 <= prev < VOCAB ->
  exists m, lower ck = Ok m /\ exists tr i v, @forward Empty_set _ m prev = Ok tr
    /\ ft_final_q tr = norm_quant D_MODEL (ideal_residual m prev)
    /\ ft_logits tr = ideal_logits m (ft_final_q tr)
    /\ Forall (fun l => Z.abs l <= 64 * 127 * 127 < I24) (ft_logits tr)
    /\ first_max (ft_logits tr) i v /\ ft_argmax tr = Z.of_nat i.
Proof.
  intros Hck Hprev. destruct (lower_total ck Hck) as (m & Hm & Hok & _). exists m. split; [done|].
  destruct (@forward_total _ Empty_set m prev Hok Hprev) as (tr & i & v & Hf & _ & Hq & Hl & Hb & Hmax & Ha).
  exists tr, i, v. split_and!; try done.
  eapply Forall_impl; [exact Hb|]. intros l Hl'. cbv beta in Hl'. unfold I24. lia.
Qed.

(** The integer norm is the rounded quotient it documents: for a nonzero
    divisor the lane [q] is the nearest integer to [127 * |v| / (8 * rms)]
    (ties away from zero) with the sign of [v], clamped at 127, where [rms] is
    the floor square root of the mean square plus one. *)
Theorem norm_quant_nearest `{BuildProfile} x s v :
  zlen x = D_MODEL -> Forall is_i16 x -> In v x ->
  exists q s', @int_norm_quant Empty_set _ x s = Ok (map (norm_value (rms_of 64 x)) x, s')
    /\ q = norm_value (rms_of 64 x) v
    /\ rms_of 64 x * rms_of 64 x <= squares x / 64 + 1 < (rms_of 64 x + 1) * (rms_of 64 x + 1)
    /\ (Z.abs q < 127 -> 2 * Z.abs (8 * rms_of 64 x * q - 127 * v) <= 8 * rms_of 64 x)
    /\ (Z.abs q = 127 -> Z.sgn q = Z.sgn v /\ 2 * 127 * Z.abs v >= (2 * 127 - 1) * (8 * rms_of 64 x)).
Proof.
  intros Hlen Hx Hin. destruct (int_norm_quant_yields (E := Empty_set) x Hlen Hx s) as [s' Hs'].
  exists (norm_value (rms_of 64 x) v), s'. split; [exact Hs'|]. split; [done|].
  assert (Hsq : 0 <= squares x / 64).
  { apply Z.div_pos; [|lia]. unfold squares. clear. induction x; simpl; nia. }
  split; [apply Z.sqrt_spec; lia|]. pose proof (rms_of_pos 64 x ltac:(lia)) as Hr.
  pose proof (round_half_away_nearest (127 * Z.abs v) (8 * rms_of 64 x) ltac:(lia)) as Hn.
  pose proof (round_half_away_nonneg (127 * Z.abs v) (8 * rms_of 64 x) ltac:(lia) ltac:(lia)) as H0.
  unfold norm_value, QMAX. set (m := round_half_away (127 * Z.abs v) (8 * rms_of 64 x)) in *.
  set (r := rms_of 64 x) in *. clearbody m r. clear - Hr Hn H0.
  destruct (Z.sgn_spec v) as [[Hv ->]|[[Hv ->]|[Hv ->]]]; split; intros Hq; try nia.
Qed.

(** ** Witnesses *)

#[local] Instance demo_math : MathLib := {| f64_tanh := fun x => x; f64_powi := fun x _ => x |}.
#[local] Instance demo_profile : BuildProfile := true.

Definition demo_layer (r c : Z) : TernaryLayer :=
  MkTernaryLayer r c (zeros (r * c)) (repeat 256 (Z.to_nat r)).
Definition demo_checkpoint : DenseBigramCheckpoint :=
  MkDenseBigramCheckpoint (repeat (f32_of_Z 1) (Z.to_nat (VOCAB * D_MODEL)))
    (repeat (MkBlockWeights (demo_layer D_FF D_MODEL) (demo_layer D_MODEL D_FF)) 4).

Lemma zlen_repeat {A} (x : A) n : 0 <= n -> zlen (repeat x (Z.to_nat n)) = n.
Proof. intros H. unfold zlen. rewrite repeat_length. lia. Qed.

Lemma Forall_repeat' {A} (P : A -> Prop) x n : P x -> Forall P (repeat x n).
Proof. intros H. induction n; simpl; by constructor. Qed.

Lemma demo_layer_ok r c : 0 <= r -> 0 <= c -> layer_ok r c (demo_layer r c).
Proof.
  intros Hr Hc. constructor; unfold demo_layer, zeros; cbn [tl_rows tl_cols tl_weights tl_scales_raw].
  - done.
  - done.
  - apply zlen_repeat. nia.
  - by apply Forall_repeat'.
  - by apply zlen_repeat.
  - by apply Forall_repeat'.
Qed.

Lemma demo_checkpoint_ok : checkpoint_ok demo_checkpoint.
Proof.
  constructor; unfold demo_checkpoint; cbn [ck_embedding ck_blocks].
  - by apply zlen_repeat.
  - done.
  - apply Forall_repeat'. split; by apply demo_layer_ok.
Qed.

Lemma dense_forward_exact_witness :
  exists m, lower demo_checkpoint = Ok m
    /\ exists tr i v, @forward Empty_set _ m 65 = Ok tr /\ first_max (ft_logits tr) i v
       /\ ft_argmax tr = Z.of_nat i.
Proof.
  destruct (dense_forward_exact demo_checkpoint 65 demo_checkpoint_ok) as (m & Hm & tr & i & v & Hf & _ & _ & _ & Hmax & Ha).
  - split; [discriminate | reflexivity].
  - exists m. split; [exact Hm|]. exists tr, i, v. exact (conj Hf (conj Hmax Ha)).
Defined.

Lemma norm_quant_nearest_witness :
  exists q s', @int_norm_quant Empty_set _ (zeros 63 ++ [100]) Stats_new
               = Ok (map (norm_value (rms_of 64 (zeros 63 ++ [100]))) (zeros 63 ++ [100]), s')
    /\ q = norm_value (rms_of 64 (zeros 63 ++ [100])) 100 /\ q = 127.
Proof.
  destruct (norm_quant_nearest (zeros 63 ++ [100]) Stats_new 100) as (q & s' & H & Hq & _).
  - reflexivity.
  - apply Forall_app. split; [by apply Forall_repeat' | by repeat constructor].
  - apply in_or_app. right. left. reflexivity.
  - exists q, s'. split; [exact H|]. split; [exact Hq | rewrite Hq; reflexivity].
Defined.
