(* ===== verification/Sampler.v ===== *)
(** * Sampling and the running top-k
      ([gbf-kernel/src/decode.rs]; [RunningTopK] of [state_model_ref.rs])

    The 16-bit xorshift generator, the top-k sampler over a full logit vector,
    the same sampler over an already selected candidate list, and the running
    selection that the paged head folds its logits into. *)

From S2P Require Import Prelude Numeric Float.
From Stdlib Require Import SpecFloat.

Definition EXP2_LUT_ALPHA : Z := 16.
Definition MAX_TOP_K : Z := 8.

(** ** The generator *)

(** [XorShift16::new]: the state is a nonzero [u16]. *)
Definition XorShift16_new (seed : Z) : Z := if seed =? 0 then 1 else seed.

(** One step; shifts of a [u16] drop the bits above the width. *)
Definition next_u16 (state : Z) : Z :=
  let x := state in
  let x := Z.lxor x (wrap U16 (Z.shiftl x 7)) in
  let x := Z.lxor x (Z.shiftr x 9) in
  Z.lxor x (wrap U16 (Z.shiftl x 8)).

(** ** The weight table *)

(** The platform's [f64::exp2]. *)
Class Exp2 := f64_exp2 : f64 -> f64.

Definition exp2_entry {E} `{Exp2} (u : Z) : outcome E Z :=
  let v := f64_mul (f64_of_Z 255) (f64_exp2 (f64_div (f64_neg (f64_of_Z u)) (f64_of_Z EXP2_LUT_ALPHA))) in
  expect (try_from_u U8 (rte_i64 v)).

Definition build_exp2_lut {E} `{Exp2} : outcome E (list Z) := omapM exp2_entry (zrange 256).

(** ** Configuration *)

Inductive SamplerConfigError :=
| Sc_BadK (k : Z)
| Sc_ZeroScale
| Sc_ScaleOverflow (scale : f64)
| Sc_BadTemperature.

Record SamplerConfig := MkSamplerConfig { sc_k : Z; sc_scale_q16 : Z }.

Definition SamplerConfig_new (k scale_q16 : Z) : outcome SamplerConfigError SamplerConfig :=
  let* _ := guard_err ((k =? 0) || (MAX_TOP_K <? k)) (Sc_BadK k) in
  let* _ := guard_err (scale_q16 =? 0) Sc_ZeroScale in
  Ok (MkSamplerConfig k scale_q16).

(** [std::f64::consts::LN_2]. *)
Definition LN_2 : f64 := S754_finite false 6243314768165359 (-53).

Definition from_temperature (k : Z) (logit_step temperature : f64)
    : outcome SamplerConfigError SamplerConfig :=
  let zero := f64_of_Z 0 in
  let* _ := guard_err
              (negb (is_finite temperature && SFltb zero temperature && is_finite logit_step)
               || SFleb logit_step zero) Sc_BadTemperature in
  let scale := f64_div (f64_mul (f64_mul (f64_of_Z 65536) (f64_of_Z EXP2_LUT_ALPHA)) logit_step)
                 (f64_mul temperature LN_2) in
  let raw := rte_i64 scale in
  let* scale_q16 := ok_or (try_from_u U16 raw) (Sc_ScaleOverflow scale) in
  let* _ := guard_err (scale_q16 =? 0) Sc_ZeroScale in
  SamplerConfig_new k scale_q16.

(** ** Traces *)

Record SampleCandidate := MkSampleCandidate {
  cand_id : Z;
  cand_logit : Z;
  cand_lut_index : Z;
  cand_weight : Z;
}.

Record SampleTrace := MkSampleTrace {
  st_candidates : list SampleCandidate;
  st_total : Z;
  st_r : Z;
  st_threshold : Z;
  st_picked : Z;
}.

(** ** Weights, draw and cumulative walk, shared by both samplers *)

(** [d = logit_max - logit] as [u64], the table index, the weight. *)
Definition weigh {E} (lut : list Z) (scale_q16 logit_max : Z) (logit id : Z) : outcome E SampleCandidate :=
  let* diff := ichk I64 (logit_max - logit) in
  let* d := expect (try_from_u U64 diff) in
  let* prod := umul U64 d scale_q16 in
  let* biased := uadd U64 prod 0x8000 in
  let u := Z.min (Z.shiftr biased 16) 255 in
  let* weight := index lut u in
  Ok (MkSampleCandidate id logit (wrap U8 u) weight).

(** The cumulative walk over the candidates, in selection order. *)
Fixpoint walk {E} (threshold cum picked : Z) (cands : list SampleCandidate) : outcome E Z :=
  match cands with
  | [] => Ok picked
  | c :: cands' =>
      let* cum := uadd U16 cum (cand_weight c) in
      if threshold <? cum then Ok (cand_id c) else walk threshold cum picked cands'
  end.

Definition draw {E} `{BuildProfile} (cands : list SampleCandidate) (total rng : Z)
    : outcome E (SampleTrace * Z) :=
  let* _ := debug_assert (255 <=? total) in
  let r := next_u16 rng in
  let* prod := umul U32 r total in
  let threshold := wrap U16 (Z.shiftr prod 16) in
  let* first := expect (head cands) in
  let* picked := walk threshold 0 (cand_id first) cands in
  Ok (MkSampleTrace cands total r threshold picked, r).

Definition in_i24 (l : Z) : bool := fits I24 l.

(** ** The sampler over a full logit vector *)

(** One scan: the first unused id, then strictly greater logits. *)
Definition scan_step {E} (used : list bool) (logits : list Z) (best : option Z) (il : Z * Z)
    : outcome E (option Z) :=
  let '(id, l) := il in
  let* u := index used id in
  if (u : bool) then Ok best
  else match best with
       | None => Ok (Some id)
       | Some b => let* w := index logits b in Ok (if w <? l then Some id else best)
       end.

Record SelectState := MkSelectState {
  ss_used : list bool;
  ss_candidates : list SampleCandidate;
  ss_total : Z;
  ss_logit_max : Z;
}.

Definition select_pass {E} (lut : list Z) (scale_q16 : Z) (logits : list Z) (st : SelectState)
    (pass : Z) : outcome E SelectState :=
  let* best := ofold (scan_step (ss_used st) logits) None (enumerate logits) in
  let* id := expect best in
  let* used := set_index (ss_used st) id true in
  let* logit := index logits id in
  let logit_max := if pass =? 0 then logit else ss_logit_max st in
  let* c := weigh lut scale_q16 logit_max logit id in
  let* total := uadd U16 (ss_total st) (cand_weight c) in
  Ok (MkSelectState used (ss_candidates st ++ [c]) total logit_max).

(** The state of the generator is passed in and out. *)
Definition sample_topk_trace {E} `{Exp2} `{BuildProfile} (logits : list Z) (cfg : SamplerConfig)
    (rng : Z) : outcome E (SampleTrace * Z) :=
  let* _ := rust_assert (negb (zlen logits =? 0)) in
  let* _ := debug_assert (forallb in_i24 logits) in
  let* lut := build_exp2_lut in
  let k := Z.min (sc_k cfg) (zlen logits) in
  let* st := ofold (select_pass lut (sc_scale_q16 cfg) logits)
               (MkSelectState (repeat false (length logits)) [] 0 0) (zrange k) in
  draw (ss_candidates st) (ss_total st) rng.

Definition sample_topk {E} `{Exp2} `{BuildProfile} (logits : list Z) (cfg : SamplerConfig) (rng : Z)
    : outcome E (Z * Z) :=
  let* (t, rng) := sample_topk_trace logits cfg rng in Ok (st_picked t, rng).

(** ** The sampler over selected candidates *)

Definition weigh_step {E} (lut : list Z) (scale_q16 logit_max : Z)
    (st : list SampleCandidate * Z) (lc : Z * Z) : outcome E (list SampleCandidate * Z) :=
  let* c := weigh lut scale_q16 logit_max lc.1 lc.2 in
  let* total := uadd U16 st.2 (cand_weight c) in
  Ok (st.1 ++ [c], total).

Definition sample_topk_from_candidates_trace {E} `{Exp2} `{BuildProfile}
    (candidates : list (Z * Z)) (scale_q16 rng : Z) : outcome E (SampleTrace * Z) :=
  let* _ := rust_assert (negb (zlen candidates =? 0)) in
  let* _ := debug_assert (forallb (fun c => in_i24 c.1) candidates) in
  let* lut := build_exp2_lut in
  let* first := index candidates 0 in
  let* (selected, total) := ofold (weigh_step lut scale_q16 first.1) ([], 0) candidates in
  draw selected total rng.

Definition sample_topk_from_candidates {E} `{Exp2} `{BuildProfile}
    (candidates : list (Z * Z)) (scale_q16 rng : Z) : outcome E (Z * Z) :=
  let* (t, rng) := sample_topk_from_candidates_trace candidates scale_q16 rng in
  Ok (st_picked t, rng).

(** ** The running top-k ([state_model_ref.rs]) *)

Record HeapEntry := MkHeapEntry { he_logit : Z; he_id : Z }.

#[export] Instance HeapEntry_eq_dec : EqDecision HeapEntry.
Proof. solve_decision. Defined.

Record RunningTopK := MkRunningTopK { rt_k : Z; rt_entries : list HeapEntry }.

Definition RunningTopK_new {E} (k : Z) : outcome E RunningTopK :=
  let* _ := rust_assert (1 <=? k) in Ok (MkRunningTopK k []).

Definition ranks_above (a b : HeapEntry) : bool :=
  (he_logit b <? he_logit a) || ((he_logit a =? he_logit b) && (he_id a <? he_id b)).

(** Insertion before the first entry that ranks above the candidate. *)
Fixpoint insert_sorted (cand : HeapEntry) (entries : list HeapEntry) : list HeapEntry :=
  match entries with
  | [] => [cand]
  | e :: entries' => if ranks_above e cand then cand :: entries else e :: insert_sorted cand entries'
  end.

Definition offer {E} (h : RunningTopK) (logit id : Z) : outcome E RunningTopK :=
  let cand := MkHeapEntry logit id in
  if zlen (rt_entries h) <? rt_k h then Ok (MkRunningTopK (rt_k h) (insert_sorted cand (rt_entries h)))
  else
    let* worst := index (rt_entries h) 0 in
    if ranks_above cand worst
    then Ok (MkRunningTopK (rt_k h) (insert_sorted cand (tail (rt_entries h))))
    else Ok h.

Definition finalize (h : RunningTopK) : list HeapEntry := rev (rt_entries h).
