(* ===== verification/XorShift.v ===== *)
(** * The period of the xorshift generator

    [next_u16] is linear over GF(2), so it is a 16 by 16 bit matrix; powers of
    the matrix are computed by squaring, and the period is exactly 65535. *)

From S2P Require Import Prelude Numeric Sampler.
From Stdlib Require Import Znumtheory.

(** ** Linear maps on bit vectors

    A matrix is the list of the images of 1, 2, 4, ... *)

Fixpoint mat_app (cols : list Z) (x : Z) : Z :=
  match cols with
  | [] => 0
  | c :: cols' => Z.lxor (if Z.odd x then c else 0) (mat_app cols' (Z.div2 x))
  end.

Definition mat_mul (a b : list Z) : list Z := map (mat_app a) b.
Definition mat_add (a b : list Z) : list Z := zip_with Z.lxor a b.

Fixpoint mat_pow (a : list Z) (p : positive) : list Z :=
  match p with
  | xH => a
  | xO q => let b := mat_pow a q in mat_mul b b
  | xI q => let b := mat_pow a q in mat_mul a (mat_mul b b)
  end.

Definition mat_id : list Z := map (fun i => 2 ^ Z.of_nat i) (seq 0 16).

Lemma lxor_0_iff a b : Z.lxor a b = 0 <-> a = b.
Proof. split; [apply Z.lxor_eq | intros ->; apply Z.lxor_nilpotent]. Qed.

Lemma lxor_swap a b c d : Z.lxor (Z.lxor a b) (Z.lxor c d) = Z.lxor (Z.lxor a c) (Z.lxor b d).
Proof. rewrite !Z.lxor_assoc. f_equal. rewrite <- !Z.lxor_assoc. f_equal. apply Z.lxor_comm. Qed.

Lemma div2_lxor x y : Z.div2 (Z.lxor x y) = Z.lxor (Z.div2 x) (Z.div2 y).
Proof. by rewrite !Z.div2_spec, Z.shiftr_lxor. Qed.

Lemma odd_lxor x y : Z.odd (Z.lxor x y) = xorb (Z.odd x) (Z.odd y).
Proof. by rewrite <- !Z.bit0_odd, Z.lxor_spec. Qed.

Lemma mat_app_lxor cols : forall x y,
  mat_app cols (Z.lxor x y) = Z.lxor (mat_app cols x) (mat_app cols y).
Proof.
  induction cols as [|c cols IH]; intros x y; simpl; [done|].
  rewrite div2_lxor, IH, odd_lxor, lxor_swap. f_equal.
  destruct (Z.odd x), (Z.odd y); simpl; by rewrite ?Z.lxor_nilpotent, ?Z.lxor_0_r.
Qed.

Lemma mat_app_0 cols : mat_app cols 0 = 0.
Proof. induction cols as [|c cols IH]; simpl; [done|]. by rewrite IH. Qed.

Lemma mat_app_mul a b : forall x, mat_app (mat_mul a b) x = mat_app a (mat_app b x).
Proof.
  induction b as [|c b IH]; intros x; simpl; [by rewrite mat_app_0|].
  rewrite IH, mat_app_lxor. f_equal. destruct (Z.odd x); [done | by rewrite mat_app_0].
Qed.

Lemma mat_app_add a : forall b x, length a = length b ->
  mat_app (mat_add a b) x = Z.lxor (mat_app a x) (mat_app b x).
Proof.
  induction a as [|c a IH]; intros [|d b] x H; try done. injection H as H.
  cbn [mat_add zip_with mat_app]. fold (mat_add a b). rewrite IH, lxor_swap by done. f_equal.
  by destruct (Z.odd x).
Qed.

Lemma mat_app_pow a p : forall x, mat_app (mat_pow a p) x = Pos.iter (mat_app a) x p.
Proof.
  induction p as [p IH|p IH|]; intros x; cbn [mat_pow].
  - rewrite !mat_app_mul, !IH. simpl. by rewrite <- Pos.iter_add, Pos.add_diag.
  - rewrite mat_app_mul, !IH. by rewrite <- Pos.iter_add, Pos.add_diag.
  - done.
Qed.

(** An additive function on [n]-bit numbers is the matrix of its values. *)
Lemma additive_mat n : forall f x, 0 <= x < 2 ^ Z.of_nat n -> f 0 = 0 ->
  (forall y z, 0 <= y < 2 ^ Z.of_nat n -> 0 <= z < 2 ^ Z.of_nat n -> f (Z.lxor y z) = Z.lxor (f y) (f z)) ->
  f x = mat_app (map (fun i => f (2 ^ Z.of_nat i)) (seq 0 n)) x.
Proof.
  induction n as [|n IH]; intros f x Hx H0 Hf.
  - simpl in *. by replace x with 0 by lia.
  - rewrite Nat2Z.inj_succ, Z.pow_succ_r in * by lia.
    assert (Hp : 0 < 2 ^ Z.of_nat n) by (apply Z.pow_pos_nonneg; lia).
    assert (Hsplit : x = Z.lxor (if Z.odd x then 1 else 0) (2 * Z.div2 x)).
    { apply Z.bits_inj'. intros i Hi. rewrite Z.lxor_spec.
      destruct (Z.eq_dec i 0) as [->|Hi0].
      - rewrite Z.testbit_even_0, Z.bit0_odd. by destruct (Z.odd x).
      - replace i with (Z.succ (i - 1)) by lia. rewrite Z.testbit_even_succ, Z.div2_spec, Z.shiftr_spec by lia.
        replace (i - 1 + 1) with (Z.succ (i - 1)) by lia.
        destruct (Z.odd x); [by rewrite (Z.bits_above_log2 1) by (simpl; lia) | by rewrite Z.testbit_0_l]. }
    assert (Hd : 0 <= Z.div2 x < 2 ^ Z.of_nat n).
    { rewrite Z.div2_div. split; [apply Z.div_pos; lia | apply Z.div_lt_upper_bound; lia]. }
    rewrite Hsplit at 1. rewrite Hf by (destruct (Z.odd x); lia).
    cbn [seq map mat_app]. f_equal.
    + destruct (Z.odd x); [done | by rewrite H0].
    + rewrite <- seq_shift, map_map.
      rewrite (IH (fun y => f (2 * y))); [| done | by rewrite Z.mul_0_r |].
      * f_equal. apply map_ext. intros i. rewrite Nat2Z.inj_succ, Z.pow_succ_r by lia. done.
      * intros y z Hy Hz. rewrite <- Hf by lia. f_equal.
        rewrite !(Z.mul_comm 2), <- !(Z.shiftl_mul_pow2 _ 1) by lia. by rewrite Z.shiftl_lxor.
Qed.

(** ** The step *)

Lemma wrap_lxor x y : wrap U16 (Z.lxor x y) = Z.lxor (wrap U16 x) (wrap U16 y).
Proof.
  unfold wrap. rewrite <- !(Z.land_ones _ 16) by lia. apply Z.bits_inj'. intros i _.
  rewrite !Z.land_spec, !Z.lxor_spec, !Z.land_spec. by destruct (Z.testbit x i), (Z.testbit y i), (Z.testbit (Z.ones 16) i).
Qed.

Definition xor_left (k x : Z) : Z := Z.lxor x (wrap U16 (Z.shiftl x k)).
Definition xor_right (k x : Z) : Z := Z.lxor x (Z.shiftr x k).

Lemma next_xors x : next_u16 x = xor_left 8 (xor_right 9 (xor_left 7 x)).
Proof. done. Qed.

Lemma xor_left_lxor k x y : xor_left k (Z.lxor x y) = Z.lxor (xor_left k x) (xor_left k y).
Proof. unfold xor_left. by rewrite Z.shiftl_lxor, wrap_lxor, lxor_swap. Qed.

Lemma xor_right_lxor k x y : xor_right k (Z.lxor x y) = Z.lxor (xor_right k x) (xor_right k y).
Proof. unfold xor_right. by rewrite Z.shiftr_lxor, lxor_swap. Qed.

Lemma next_lxor x y : next_u16 (Z.lxor x y) = Z.lxor (next_u16 x) (next_u16 y).
Proof. by rewrite !next_xors, xor_left_lxor, xor_right_lxor, xor_left_lxor. Qed.

Definition step_mat : list Z := map (fun i => next_u16 (2 ^ Z.of_nat i)) (seq 0 16).

Lemma next_mat x : 0 <= x < 65536 -> next_u16 x = mat_app step_mat x.
Proof. intros Hx. apply (additive_mat 16); [done | done | intros; apply next_lxor]. Qed.

Lemma mat_id_app x : 0 <= x < 65536 -> mat_app mat_id x = x.
Proof. intros Hx. symmetry. by apply (additive_mat 16 (fun y => y)). Qed.

Lemma lxor_u16 x y : 0 <= x < 65536 -> 0 <= y < 65536 -> 0 <= Z.lxor x y < 65536.
Proof.
  intros Hx Hy. rewrite <- (Z.mod_small x 65536), <- (Z.mod_small y 65536) by done.
  fold (wrap U16 x) (wrap U16 y). rewrite <- wrap_lxor. by apply Z.mod_pos_bound.
Qed.

Lemma next_range x : 0 <= x < 65536 -> 0 <= next_u16 x < 65536.
Proof.
  intros Hx. unfold next_u16.
  assert (Hw : forall z, 0 <= wrap U16 z < 65536) by (intros z; by apply Z.mod_pos_bound).
  apply lxor_u16; [|apply Hw]. apply lxor_u16.
  - apply lxor_u16; [done | apply Hw].
  - set (a := Z.lxor x _). assert (0 <= a < 65536) by (apply lxor_u16; [done | apply Hw]).
    rewrite Z.shiftr_div_pow2 by lia. split; [apply Z.div_pos; lia|].
    apply Z.div_lt_upper_bound; lia.
Qed.

Lemma iter_range n : forall x, 0 <= x < 65536 -> 0 <= N.iter n next_u16 x < 65536.
Proof.
  induction n as [|n IH] using N.peano_ind; intros x Hx; [done|].
  rewrite N.iter_succ. by apply next_range, IH.
Qed.

Lemma iter_mat p x : 0 <= x < 65536 -> N.iter (Npos p) next_u16 x = mat_app (mat_pow step_mat p) x.
Proof.
  intros Hx. rewrite mat_app_pow.
  assert (forall n, N.iter n next_u16 x = N.iter n (mat_app step_mat) x) as H.
  { induction n as [|n IH] using N.peano_ind; [done|]. rewrite !N.iter_succ, <- IH.
    apply next_mat. by apply iter_range. }
  apply H.
Qed.

(** ** The period *)

Lemma step_order : mat_pow step_mat 65535 = mat_id.
Proof. vm_compute. reflexivity. Qed.

(** For each prime [p] of 65535 the power [65535 / p] fixes nothing but zero:
    adding the identity to it gives an invertible matrix. *)
Definition no_fixpoint (k : positive) : Prop :=
  mat_pow (mat_add (mat_pow step_mat k) mat_id) 65535 = mat_id.

Lemma no_fixpoints : no_fixpoint 21845 /\ no_fixpoint 13107 /\ no_fixpoint 3855 /\ no_fixpoint 255.
Proof. unfold no_fixpoint. split_and!; vm_compute; reflexivity. Qed.

Lemma mat_pow_length a p : length (mat_pow a p) = length a.
Proof. induction p as [p IH|p IH|]; simpl; unfold mat_mul; rewrite ?length_map; done. Qed.

Lemma no_fixpoint_spec k x : no_fixpoint k -> 0 <= x < 65536 -> N.iter (Npos k) next_u16 x = x -> x = 0.
Proof.
  intros Hk Hx Hfix. rewrite iter_mat in Hfix by done.
  assert (H0 : mat_app (mat_add (mat_pow step_mat k) mat_id) x = 0).
  { rewrite mat_app_add by (rewrite mat_pow_length; done). rewrite mat_id_app, Hfix by done.
    apply Z.lxor_nilpotent. }
  rewrite <- (mat_id_app x Hx), <- Hk, mat_app_pow. clear - H0.
  change 65535%positive with (Pos.succ 65534). rewrite Pos.iter_succ_r, H0.
  generalize 65534%positive as q. intros q. induction q as [|q IH] using Pos.peano_ind.
  - apply mat_app_0.
  - rewrite Pos.iter_succ, IH. apply mat_app_0.
Qed.

Lemma iter_multiple {A} (f : A -> A) k x : N.iter k f x = x -> forall a, N.iter (a * k) f x = x.
Proof.
  intros Hk a. induction a as [|a IH] using N.peano_ind; [done|].
  rewrite N.mul_succ_l, N.iter_add, Hk. done.
Qed.

Lemma iter_gcd {A} (f : A -> A) k n x : (0 < k)%N ->
  N.iter k f x = x -> N.iter n f x = x -> N.iter (N.gcd k n) f x = x.
Proof.
  intros Hpos Hk Hn. destruct (N.gcd_bezout_pos k n Hpos) as (a & b & Hab).
  pose proof (iter_multiple f k x Hk a) as Ha. rewrite Hab, N.iter_add in Ha.
  by rewrite (iter_multiple f n x Hn b) in Ha.
Qed.

(** A proper divisor of 65535 = 3 * 5 * 17 * 257 misses one of the primes. *)
Lemma small_prime p : In p [3; 5; 17; 257] -> Z.prime p.
Proof.
  intros Hp. assert (Hb : forallb (fun p => forallb (fun n => (n <=? 1) || (p <=? n) || negb (p mod n =? 0))
      (zrange 257)) [3; 5; 17; 257] = true) by (vm_compute; reflexivity).
  rewrite forallb_forall in Hb. specialize (Hb p Hp). rewrite forallb_forall in Hb.
  assert (1 < p <= 257) by (simpl in Hp; lia). split; [lia|].
  intros n Hn Hd%Z.mod_divide; [|lia].
  specialize (Hb n (proj1 (list_elem_of_In _ _) (proj2 (zrange_elem 257 n) ltac:(lia)))).
  rewrite !orb_true_iff, negb_true_iff in Hb. lia.
Qed.

Lemma proper_divisor m : (m | 65535) -> 1 < m -> (3 | m) \/ (5 | m) \/ (17 | m) \/ (257 | m).
Proof.
  intros Hm H1. assert (Hdec : forall p, 0 < p -> {(p | m)} + {~ (p | m)}).
  { intros p Hp. destruct (Z.eq_dec (m mod p) 0) as [H|H]; [left | right];
      rewrite <- Z.mod_divide; lia || done. }
  destruct (Hdec 3 ltac:(lia)) as [?|H3]; [tauto|]. destruct (Hdec 5 ltac:(lia)) as [?|H5]; [tauto|].
  destruct (Hdec 17 ltac:(lia)) as [?|H17]; [tauto|]. destruct (Hdec 257 ltac:(lia)) as [?|H257]; [tauto|].
  exfalso. assert (Hr : forall p, In p [3; 5; 17; 257] -> ~ (p | m) -> Z.coprime m p).
  { intros p Hp Hd. unfold Z.coprime. rewrite Z.gcd_comm.
    apply Z.coprime_prime_l; [by apply small_prime | done]. }
  assert (Hall : Z.coprime m 65535).
  { change 65535 with (3 * (5 * (17 * 257))).
    repeat (apply Z.coprime_mul_r; [apply Hr; [simpl; tauto | done] |]). apply Hr; [simpl; tauto | done]. }
  pose proof (Z.gcd_greatest m 65535 m (Z.divide_refl m) Hm) as Hg. rewrite Hall in Hg.
  apply Z.divide_1_r_nonneg in Hg; lia.
Qed.

Lemma divides_cofactor g p q : 0 < g -> 65535 = p * q -> (p | 65535 / g) -> (g | 65535) -> (g | q).
Proof.
  intros Hg Hpq [c Hc] [d Hd]. exists c. rewrite Hd, Z.div_mul in Hc by lia. subst d.
  apply (Z.mul_reg_l _ _ p); lia.
Qed.

Lemma iter_full x : 0 <= x < 65536 -> N.iter 65535 next_u16 x = x.
Proof. intros Hx. rewrite (iter_mat 65535), step_order by lia. apply mat_id_app. lia. Qed.

Lemma period_exact x k : 0 < x < 65536 -> (0 < k < 65535)%N -> N.iter k next_u16 x <> x.
Proof.
  intros Hx Hk Hfix.
  pose proof (iter_full x ltac:(lia)) as Hfull.
  set (g := N.gcd k 65535).
  assert (Hg : N.iter g next_u16 x = x) by (apply iter_gcd; [lia | done | done]).
  assert (Hdiv : (Z.of_N g | 65535)).
  { destruct (N.gcd_divide_r k 65535) as [c Hc]. exists (Z.of_N c). unfold g. lia. }
  assert (Hgk : (0 < g <= k)%N).
  { unfold g. split.
    - destruct (N.eq_0_gt_0_cases (N.gcd k 65535)) as [H0|]; [|done]. apply N.gcd_eq_0_r in H0. lia.
    - apply N.divide_pos_le; [lia | apply N.gcd_divide_l]. }
  assert (H1 : 1 < 65535 / Z.of_N g).
  { destruct Hdiv as [d Hd]. rewrite Hd, Z.div_mul by lia. destruct (Z.le_gt_cases d 1); nia. }
  destruct no_fixpoints as (F3 & F5 & F17 & F257).
  assert (Hkill : forall p q, 65535 = Zpos p * Zpos q -> no_fixpoint q -> (Zpos p | 65535 / Z.of_N g) -> False).
  { intros p q Hpq Hq Hp. pose proof (divides_cofactor (Z.of_N g) _ _ ltac:(lia) Hpq Hp Hdiv) as [c Hc].
    enough (x = 0) by lia. apply (no_fixpoint_spec q); [done | lia|].
    replace (Npos q) with (Z.to_N c * g)%N by nia. by apply iter_multiple. }
  assert (Hco : (65535 / Z.of_N g | 65535)).
  { destruct Hdiv as [d Hd]. exists (Z.of_N g). rewrite Hd, Z.div_mul by lia. apply Z.mul_comm. }
  clear Hfull Hfix Hg.
  destruct (proper_divisor _ Hco H1) as [H|[H|[H|H]]].
  - exact (Hkill 3%positive 21845%positive eq_refl F3 H).
  - exact (Hkill 5%positive 13107%positive eq_refl F5 H).
  - exact (Hkill 17%positive 3855%positive eq_refl F17 H).
  - exact (Hkill 257%positive 255%positive eq_refl F257 H).
Qed.

Lemma iter_nonzero x k : 0 < x < 65536 -> 0 < N.iter k next_u16 x < 65536.
Proof.
  intros Hx. pose proof (iter_range k x ltac:(lia)). enough (N.iter k next_u16 x <> 0) by lia.
  intros H0. assert (Hzero : forall n, N.iter n next_u16 0 = 0).
  { induction n as [|n IH] using N.peano_ind; [done|]. by rewrite N.iter_succ, IH. }
  assert (Hlong : N.iter (65535 * k) next_u16 x = x)
    by (rewrite N.mul_comm; apply iter_multiple, iter_full; lia).
  replace (65535 * k)%N with (65534 * k + k)%N in Hlong by lia.
  rewrite N.iter_add, H0, Hzero in Hlong. lia.
Qed.

(** The generator has full period: every seed gives a nonzero 16-bit state,
    from which the states stay nonzero 16-bit values, return to the start
    after exactly 65535 steps and not before. *)
Theorem xorshift_full_period seed : 0 <= seed < 65536 ->
  let x := XorShift16_new seed in
  0 < x < 65536
  /\ (forall k, 0 < N.iter k next_u16 x < 65536)
  /\ N.iter 65535 next_u16 x = x
  /\ forall k, (0 < k < 65535)%N -> N.iter k next_u16 x <> x.
Proof.
  intros Hs x. assert (Hx : 0 < x < 65536) by (unfold x, XorShift16_new; case_match; lia).
  split_and!; [lia.. | | apply iter_full; lia | intros k Hk; by apply period_exact].
  intros k. by apply iter_nonzero.
Qed.

Lemma xorshift_full_period_witness :
  N.iter 65535 next_u16 (XorShift16_new 0x5EED) = XorShift16_new 0x5EED.
Proof.
  destruct (xorshift_full_period 0x5EED) as (_ & _ & H & _); [split; [discriminate | reflexivity]|].
  exact H.
Defined.
