(* ===== verification/SamplerFacts.v ===== *)
(** * Correctness of sampling and of the running top-k

    Both selections are the first [k] entries of the ranked logits, so both
    samplers draw the same token; the draw always lands on a candidate of
    nonzero weight and is proportional to the weights up to rounding. *)

From S2P Require Import Prelude Numeric Float Sampler XorShift.
From Stdlib Require Import SpecFloat.

(** ** The ranking *)

(** [a] ranks above [b] or is [b]. *)
Definition rank_leb (a b : HeapEntry) : bool := negb (ranks_above b a).

Abbreviation ranked_le := (fun a b => rank_leb a b = true).

Lemma rank_leb_iff a b : rank_leb a b = true <->
  he_logit b < he_logit a \/ (he_logit a = he_logit b /\ he_id a <= he_id b).
Proof. unfold rank_leb, ranks_above. lia. Qed.

Lemma rank_total a b : rank_leb a b = true \/ rank_leb b a = true.
Proof. rewrite !rank_leb_iff. lia. Qed.

Lemma rank_trans a b c : rank_leb a b = true -> rank_leb b c = true -> rank_leb a c = true.
Proof. rewrite !rank_leb_iff. lia. Qed.

Lemma rank_antisym a b : rank_leb a b = true -> rank_leb b a = true -> a = b.
Proof. rewrite !rank_leb_iff. destruct a, b. simpl. intros. f_equal; lia. Qed.

(** Entries in selection order. *)
Definition ranked (l : list HeapEntry) : list HeapEntry := sort_by rank_leb l.

Lemma ranked_sorted l : StronglySorted ranked_le (ranked l).
Proof. apply sort_by_sorted; [apply rank_total | apply rank_trans]. Qed.

Lemma ranked_perm l l' : l ≡ₚ l' -> ranked l = ranked l'.
Proof.
  intros Hp. apply (sorted_perm_eq rank_leb).
  - intros x y _ _. apply rank_antisym.
  - apply ranked_sorted.
  - apply ranked_sorted.
  - unfold ranked. by rewrite !sort_by_perm.
Qed.

Lemma StronglySorted_app_intro {A} (R : A -> A -> Prop) l1 l2 :
  StronglySorted R l1 -> StronglySorted R l2 -> (forall x y, x ∈ l1 -> y ∈ l2 -> R x y) ->
  StronglySorted R (l1 ++ l2).
Proof.
  induction 1 as [|x l1 _ IH Hx]; intros H2 H; [done|]. simpl. constructor.
  - apply IH; [done|]. intros y z Hy Hz. apply H; [by right | done].
  - apply Forall_app. split; [done|]. apply Forall_forall. intros y Hy. apply H; [by left | done].
Qed.

Lemma StronglySorted_reverse {A} (R : A -> A -> Prop) l :
  StronglySorted R l -> StronglySorted (fun a b => R b a) (rev l).
Proof.
  induction 1 as [|x l _ IH Hx]; simpl; [constructor|]. apply StronglySorted_app_intro.
  - done.
  - repeat constructor.
  - intros y z Hy%list_elem_of_In Hz%list_elem_of_singleton. subst. rewrite Forall_forall in Hx. apply Hx.
    apply list_elem_of_In. by apply in_rev.
Qed.

(** The first [k] of a ranking, recognized from a split of the entries. *)
Lemma topk_unique k T R M : StronglySorted ranked_le T -> M ≡ₚ T ++ R ->
  (forall t r, t ∈ T -> r ∈ R -> rank_leb t r = true) ->
  (length T = k \/ (R = [] /\ length T <= k))%nat -> T = take k (ranked M).
Proof.
  intros HT HM Hle Hk. assert (ranked M = T ++ ranked R) as ->.
  { apply (sorted_perm_eq rank_leb).
    - intros x y _ _. apply rank_antisym.
    - apply ranked_sorted.
    - apply StronglySorted_app_intro; [done | apply ranked_sorted|].
      intros x y Hx Hy. apply Hle; [done|]. by apply elem_of_sort_by in Hy.
    - unfold ranked. rewrite sort_by_perm, HM. by rewrite sort_by_perm. }
  destruct Hk as [<-|[-> Hlen]]; [by rewrite take_app_length|].
  simpl. rewrite app_nil_r. symmetry. by apply take_ge.
Qed.

(** ** The running top-k *)

Lemma insert_sorted_perm c l : insert_sorted c l ≡ₚ c :: l.
Proof.
  induction l as [|e l IH]; simpl; [done|]. destruct (ranks_above e c); [done|].
  rewrite IH. apply perm_swap.
Qed.

Lemma insert_sorted_sorted c l : StronglySorted (fun a b => rank_leb b a = true) l ->
  StronglySorted (fun a b => rank_leb b a = true) (insert_sorted c l).
Proof.
  induction 1 as [|e l Hl IH He]; simpl; [repeat constructor|].
  destruct (ranks_above e c) eqn:Hec.
  - assert (rank_leb e c = true) by (unfold ranks_above, rank_leb in *; unfold ranks_above; lia).
    constructor; [by constructor|]. constructor; [done|]. eapply Forall_impl; [exact He|].
    intros x Hx. exact (rank_trans x e c Hx H).
  - constructor; [done|]. rewrite insert_sorted_perm. constructor; [|done]. unfold rank_leb. by rewrite Hec.
Qed.

(** The heap holds the first [k] of what it was offered, worst first. *)
Record heap_inv (offered : list HeapEntry) (h : RunningTopK) : Prop := {
  hi_k : 1 <= rt_k h;
  hi_sorted : StronglySorted (fun a b => rank_leb b a = true) (rt_entries h);
  hi_split : exists rest, offered ≡ₚ rt_entries h ++ rest
    /\ (forall t r, t ∈ rt_entries h -> r ∈ rest -> rank_leb t r = true)
    /\ (zlen (rt_entries h) = rt_k h \/ (rest = [] /\ zlen (rt_entries h) <= rt_k h));
}.

Lemma heap_topk offered h : heap_inv offered h -> finalize h = take (Z.to_nat (rt_k h)) (ranked offered).
Proof.
  intros [Hk Hs (rest & Hp & Hle & Hlen)]. unfold finalize. apply (topk_unique _ _ rest).
  - by apply StronglySorted_reverse in Hs.
  - rewrite Hp. apply Permutation_app_tail, Permutation_rev.
  - intros t r Ht Hr. apply Hle; [|done]. apply list_elem_of_In, in_rev, list_elem_of_In, Ht.
  - rewrite length_rev. unfold zlen in Hlen. destruct Hlen as [?|[? ?]]; [left | right; split; [done|]]; lia.
Qed.

Lemma offer_inv {E} offered h logit id : heap_inv offered h ->
  exists h', @offer E h logit id = Ok h' /\ rt_k h' = rt_k h
    /\ heap_inv (MkHeapEntry logit id :: offered) h'.
Proof.
  intros [Hk Hs (rest & Hp & Hle & Hlen)]. unfold offer. set (c := MkHeapEntry logit id).
  destruct (Z.ltb_spec (zlen (rt_entries h)) (rt_k h)) as [Hlt|Hge].
  - destruct Hlen as [?|[-> Hlen]]; [lia|]. eexists. split; [reflexivity|]. split; [done|].
    constructor; cbn [rt_k rt_entries]; [done | by apply insert_sorted_sorted|].
    exists []. split_and!.
    + rewrite insert_sorted_perm, Hp, !app_nil_r. done.
    + intros t r _ Hr. by apply elem_of_nil in Hr.
    + right. split; [done|]. unfold zlen in *. rewrite insert_sorted_perm. simpl. lia.
  - assert (Hfull : zlen (rt_entries h) = rt_k h) by (destruct Hlen as [?|[? ?]]; lia).
    destruct (rt_entries h) as [|w es] eqn:Hes; [unfold zlen in Hfull; simpl in Hfull; lia|].
    change (index (w :: es) 0) with (Ok (E := E) w). cbn [obind].
    apply StronglySorted_inv in Hs as [Hs Hw]. rewrite Forall_forall in Hw.
    assert (Hworst : forall t, t ∈ w :: es -> rank_leb t w = true).
    { intros t [->|Ht]%elem_of_cons; [apply rank_leb_iff; lia | by apply Hw]. }
    destruct (ranks_above c w) eqn:Hcw.
    + assert (Hc : rank_leb c w = true) by (unfold rank_leb, ranks_above in *; lia).
      eexists. split; [reflexivity|]. split; [done|].
      constructor; cbn [rt_k rt_entries tail]; [done | by apply insert_sorted_sorted|].
      exists (w :: rest). split_and!.
      * rewrite insert_sorted_perm, Hp. simpl. rewrite <- Permutation_middle. done.
      * intros t r Ht Hr. rewrite insert_sorted_perm in Ht.
        assert (Htw : rank_leb t w = true)
          by (apply elem_of_cons in Ht as [->|Ht]; [done | apply Hworst; by right]).
        apply elem_of_cons in Hr as [->|Hr]; [done|]. eapply rank_trans; [exact Htw|].
        apply Hle; [by left | done].
      * left. unfold zlen in *. rewrite insert_sorted_perm. done.
    + assert (Hc : rank_leb w c = true) by (unfold rank_leb; by rewrite Hcw).
      exists h. split; [done|]. split; [done|].
      constructor; rewrite ?Hes; [done | by constructor; [|apply Forall_forall]|].
      exists (c :: rest). split_and!.
      * rewrite Hp, <- Permutation_middle. done.
      * intros t r Ht Hr. apply elem_of_cons in Hr as [->|Hr]; [|by apply Hle].
        eapply rank_trans; [by apply Hworst | done].
      * by left.
Qed.

Definition offer_all {E} (h : RunningTopK) (l : list HeapEntry) : outcome E RunningTopK :=
  ofold (fun h e => offer h (he_logit e) (he_id e)) h l.

Lemma offer_all_inv {E} l : forall offered h, heap_inv offered h ->
  exists h', @offer_all E h l = Ok h' /\ rt_k h' = rt_k h /\ heap_inv (rev l ++ offered) h'.
Proof.
  induction l as [|e l IH]; intros offered h Hh; [by exists h|].
  destruct (@offer_inv E offered h (he_logit e) (he_id e) Hh) as (h1 & H1 & Hk1 & Hi1).
  destruct e as [v i]. destruct (IH _ _ Hi1) as (h2 & H2 & Hk2 & Hi2). exists h2.
  unfold offer_all in *. cbn [ofold he_logit he_id] in *. rewrite H1. cbn [obind].
  split_and!; [done | congruence|]. simpl. by rewrite <- app_assoc.
Qed.

Lemma offer_all_topk {E} k l : 1 <= k ->
  exists h, (let* h0 := RunningTopK_new k in @offer_all E h0 l) = Ok h
    /\ finalize h = take (Z.to_nat k) (ranked l).
Proof.
  intros Hk. unfold RunningTopK_new. rewrite rust_assert_true by lia. cbn [obind].
  assert (H0 : heap_inv [] (MkRunningTopK k [])).
  { constructor; cbn [rt_k rt_entries]; [done | constructor|]. exists []. split_and!; [done | |].
    - intros t r Ht. by apply elem_of_nil in Ht.
    - right. split; [done|]. unfold zlen. simpl. lia. }
  destruct (@offer_all_inv E l _ _ H0) as (h & Hh & Hkh & Hi). exists h. split; [exact Hh|].
  rewrite (heap_topk _ _ Hi), Hkh, app_nil_r. cbn [rt_k]. f_equal.
  apply ranked_perm. symmetry. apply Permutation_rev.
Qed.


(** ** The scan *)

Definition entry_of (il : Z * Z) : HeapEntry := MkHeapEntry il.2 il.1.
Definition entries_of (logits : list Z) : list HeapEntry := map entry_of (enumerate logits).

Lemma elem_of_app_1 {A} (l : list A) x y : y ∈ l ++ [x] -> y ∈ l \/ y = x.
Proof. intros [H|H]%elem_of_app; [by left|]. right. by apply list_elem_of_singleton. Qed.

(** The best of the unused entries seen so far. *)
Definition scan_best (used : list bool) (seen : list (Z * Z)) (best : option Z) : Prop :=
  match best with
  | None => forall i v, (i, v) ∈ seen -> used !! Z.to_nat i = Some true
  | Some b => exists w, (b, w) ∈ seen /\ used !! Z.to_nat b = Some false
      /\ forall i v, (i, v) ∈ seen -> used !! Z.to_nat i = Some false ->
           rank_leb (entry_of (b, w)) (entry_of (i, v)) = true
  end.

Lemma enumerate_ids_sorted {A} (l : list A) pre i x post : enumerate l = pre ++ (i, x) :: post ->
  forall j y, (j, y) ∈ pre -> j < i.
Proof.
  intros H j y [n Hn]%list_elem_of_lookup. pose proof (lookup_lt_Some _ _ _ Hn) as Hlt.
  assert (Hj : enumerate l !! n = Some (j, y)) by (rewrite H, lookup_app_l; done).
  assert (Hi : enumerate l !! length pre = Some (i, x))
    by (rewrite H, lookup_app_r, Nat.sub_diag by lia; done).
  unfold enumerate in *. apply lookup_zip_with_Some in Hj as (a & b & [= -> ->] & Ha & _).
  apply lookup_zip_with_Some in Hi as (a' & b' & [= -> ->] & Ha' & _).
  pose proof (lookup_lt_Some _ _ _ Ha) as H1. pose proof (lookup_lt_Some _ _ _ Ha') as H2.
  rewrite zrange_length in H1, H2. rewrite zrange_lookup in Ha, Ha' by done.
  injection Ha as <-. injection Ha' as <-. lia.
Qed.

Lemma scan_total {E} used logits : length used = length logits ->
  exists best, ofold (@scan_step E used logits) None (enumerate logits) = Ok best
    /\ scan_best used (enumerate logits) best.
Proof.
  intros Hu. assert (Hgen : forall l pre best, enumerate logits = pre ++ l -> scan_best used pre best ->
    exists best', ofold (@scan_step E used logits) best l = Ok best' /\ scan_best used (pre ++ l) best').
  { induction l as [|[i v] l IH]; intros pre best Heq Hb.
    - exists best. by rewrite app_nil_r.
    - pose proof (enumerate_ids_sorted _ _ _ _ _ Heq) as Hlt.
      assert (Hin : (i, v) ∈ enumerate logits) by (rewrite Heq; set_solver).
      apply enumerate_elem in Hin as [Hi Hv].
      replace (pre ++ (i, v) :: l) with ((pre ++ [(i, v)]) ++ l) in * by by rewrite <- app_assoc.
      cbn [ofold scan_step].
      destruct (@index_total E _ used i) as (u & -> & Hui); [unfold zlen in *; lia|]. cbn [obind].
      destruct u.
      + apply IH; [done|]. destruct best as [b|].
        * destruct Hb as (w & Hbw & Hbu & Hmin). exists w. split; [set_solver|]. split; [done|].
          intros j y [Hj|Hj]%elem_of_app_1 Hju; [by apply Hmin|].
          injection Hj as -> ->. congruence.
        * intros j y [Hj|Hj]%elem_of_app_1; [by eapply Hb|]. by injection Hj as -> ->.
      + destruct best as [b|].
        * destruct Hb as (w & Hbw & Hbu & Hmin). specialize (Hlt b w Hbw).
          assert (Hbl : (b, w) ∈ enumerate logits) by (rewrite Heq; set_solver).
          apply enumerate_elem in Hbl as [Hb0 Hbl]. rewrite (index_Some _ b w) by (done || lia). cbn [obind].
          destruct (Z.ltb_spec w v) as [Hwv|Hwv]; (apply IH; [done|]).
          -- exists v. split; [set_solver|]. split; [done|].
             intros j y [Hj|Hj]%elem_of_app_1 Hju.
             ++ pose proof (Hmin j y Hj Hju) as Hr. rewrite rank_leb_iff in *. simpl in *. lia.
             ++ injection Hj as -> ->. rewrite rank_leb_iff. simpl. lia.
          -- exists w. split; [set_solver|]. split; [done|].
             intros j y [Hj|Hj]%elem_of_app_1 Hju; [by apply Hmin|].
             injection Hj as -> ->. rewrite rank_leb_iff. simpl. lia.
        * cbn [obind]. apply IH; [done|]. exists v. split; [set_solver|]. split; [done|].
          intros j y [Hj|Hj]%elem_of_app_1 Hju.
          -- rewrite (Hb j y Hj) in Hju. discriminate.
          -- injection Hj as -> ->. rewrite rank_leb_iff. simpl. lia. }
  apply (Hgen (enumerate logits) [] None); [done|]. intros i v Hi. by apply elem_of_nil in Hi.
Qed.

(** ** Weights *)

Definition is_weight (w : Z) : Prop := 0 <= w <= 255.

(** The table the platform's [exp2] yields: bytes that start at 255. *)
Record table_ok (lut : list Z) : Prop := {
  tb_len : zlen lut = 256;
  tb_byte : Forall is_weight lut;
  tb_top : lut !! 0%nat = Some 255;
}.

(** What is used of [exp2]: [exp2(-0.0) = 1], and [255 * exp2(-u/16)] rounds
    into a byte. *)
Record exp2_ok `{Exp2} : Prop := {
  ex_zero : f64_exp2 (S754_zero true) = f64_of_Z 1;
  ex_range : forall u, 0 <= u < 256 ->
    is_weight (rte_i64 (f64_mul (f64_of_Z 255)
      (f64_exp2 (f64_div (f64_neg (f64_of_Z u)) (f64_of_Z EXP2_LUT_ALPHA)))));
}.

Definition exp2_table `{Exp2} : list Z :=
  map (fun u => rte_i64 (f64_mul (f64_of_Z 255)
         (f64_exp2 (f64_div (f64_neg (f64_of_Z u)) (f64_of_Z EXP2_LUT_ALPHA))))) (zrange 256).

Lemma build_exp2_total `{Exp2} {E} : exp2_ok -> @build_exp2_lut E _ = Ok exp2_table /\ table_ok exp2_table.
Proof.
  intros [Hz Hr]. split.
  - apply omapM_total, Forall_zrange. intros u Hu. specialize (Hr u Hu). unfold is_weight in Hr.
    unfold exp2_entry, try_from_u.
    rewrite (proj2 (Z.leb_le _ _)), (proj2 (Z.ltb_lt _ _)) by lia. done.
  - constructor.
    + unfold exp2_table, zlen. by rewrite length_map, zrange_length.
    + unfold exp2_table. by apply List.Forall_map, Forall_zrange.
    + unfold exp2_table. rewrite list_lookup_fmap, zrange_lookup by (simpl; lia). simpl.
      change (f64_div (f64_neg (f64_of_Z (Z.of_nat 0))) (f64_of_Z EXP2_LUT_ALPHA)) with (S754_zero true).
      by rewrite Hz.
Qed.

Definition lut_index (scale d : Z) : Z := Z.min ((d * scale + 32768) / 65536) 255.

Definition cand_of (lut : list Z) (scale top : Z) (e : HeapEntry) : SampleCandidate :=
  let u := lut_index scale (top - he_logit e) in
  MkSampleCandidate (he_id e) (he_logit e) u (default 0 (lut !! Z.to_nat u)).

Definition is_i24 (l : Z) : Prop := - I24 <= l < I24.

Lemma lut_index_range scale d : 0 <= scale -> 0 <= d -> 0 <= lut_index scale d <= 255.
Proof.
  intros Hs Hd. unfold lut_index. assert (0 <= (d * scale + 32768) / 65536) by (apply Z.div_pos; nia). lia.
Qed.

Lemma weigh_total {E} lut scale top e : table_ok lut -> 0 <= scale < U16 -> is_i24 top -> is_i24 (he_logit e) ->
  he_logit e <= top ->
  @weigh E lut scale top (he_logit e) (he_id e) = Ok (cand_of lut scale top e)
  /\ is_weight (cand_weight (cand_of lut scale top e)).
Proof.
  intros [Hlen Hb Htop] Hs Ht He Hle. unfold is_i24, I24 in *. unfold weigh.
  rewrite ichk_fits by (unfold I64; lia). cbn [obind].
  set (d := top - he_logit e). assert (Hd : 0 <= d < 2 ^ 24) by (unfold d; lia).
  unfold try_from_u. rewrite (proj2 (Z.leb_le _ _)), (proj2 (Z.ltb_lt _ _)) by lia.
  cbn [expect andb obind]. unfold umul. rewrite (proj2 (Z.ltb_lt _ _)) by nia. cbn [obind].
  unfold uadd. rewrite (proj2 (Z.ltb_lt _ _)) by nia. cbn [obind].
  change 0x8000 with 32768. rewrite Z.shiftr_div_pow2 by lia. change (2 ^ 16) with 65536.
  fold (lut_index scale d). pose proof (lut_index_range scale d ltac:(lia) ltac:(lia)) as Hu.
  destruct (@index_total E _ lut (lut_index scale d)) as (w & -> & Hw); [lia|]. cbn [obind].
  unfold wrap. rewrite Z.mod_small by lia. unfold cand_of. fold d. rewrite Hw. split; [done|].
  rewrite Forall_forall in Hb. apply Hb. by eapply list_elem_of_lookup_2.
Qed.

Lemma cand_of_top lut scale top e : table_ok lut -> he_logit e = top -> 0 <= scale ->
  cand_weight (cand_of lut scale top e) = 255.
Proof.
  intros Hlut <- Hs. unfold cand_of. rewrite Z.sub_diag. cbn [cand_weight].
  change (lut_index scale 0) with 0. change (Z.to_nat 0) with 0%nat. by rewrite (tb_top _ Hlut).
Qed.

Definition total_weight (cs : list SampleCandidate) : Z := zsum (map cand_weight cs).

(** ** The passes *)

Definition ranks (logits : list Z) : list HeapEntry := ranked (entries_of logits).

Lemma entries_ids_inj logits e e' : e ∈ entries_of logits -> e' ∈ entries_of logits ->
  he_id e = he_id e' -> e = e'.
Proof.
  unfold entries_of. intros [[i v] [-> Hi]]%list_elem_of_fmap [[j w] [-> Hj]]%list_elem_of_fmap. simpl.
  intros ->. apply enumerate_elem in Hi as [_ Hi], Hj as [_ Hj]. congruence.
Qed.

Lemma ranks_elem logits e : e ∈ ranks logits <->
  0 <= he_id e < zlen logits /\ logits !! Z.to_nat (he_id e) = Some (he_logit e).
Proof.
  unfold ranks, ranked. rewrite elem_of_sort_by. unfold entries_of. split.
  - intros [[i v] [-> Hi]]%list_elem_of_fmap. by apply enumerate_elem in Hi.
  - intros [Hr Hl]. apply list_elem_of_fmap. exists (he_id e, he_logit e). split; [by destruct e|].
    unfold enumerate. apply list_elem_of_lookup. exists (Z.to_nat (he_id e)).
    apply lookup_zip_with_Some. exists (he_id e), (he_logit e). split_and!; [done | | done].
    rewrite zrange_lookup by (unfold zlen in *; lia). f_equal. lia.
Qed.

Lemma ranks_length logits : length (ranks logits) = length logits.
Proof.
  unfold ranks, ranked. rewrite sort_by_perm. unfold entries_of. by rewrite length_map, enumerate_length.
Qed.

Lemma enumerate_NoDup {A} (l : list A) : NoDup (enumerate l).
Proof.
  apply NoDup_alt. intros i j [a x] Hi Hj. unfold enumerate in *.
  apply lookup_zip_with_Some in Hi as (? & ? & [= <- <-] & Hi & _).
  apply lookup_zip_with_Some in Hj as (? & ? & [= <- <-] & Hj & _).
  pose proof (lookup_lt_Some _ _ _ Hi). pose proof (lookup_lt_Some _ _ _ Hj). rewrite zrange_length in *.
  rewrite zrange_lookup in Hi, Hj by done. injection Hi. injection Hj. lia.
Qed.

Lemma ranks_NoDup logits : NoDup (ranks logits).
Proof.
  unfold ranks, ranked. rewrite sort_by_perm. unfold entries_of.
  assert (Inj (=) (=) entry_of) by (by intros [? ?] [? ?] [= -> ->]).
  apply (NoDup_fmap_2 entry_of), enumerate_NoDup.
Qed.

(** After [j] passes the first [j] of the ranking are selected and marked. *)
Record passes_inv (lut : list Z) (scale : Z) (logits : list Z) (top j : Z) (st : SelectState) : Prop := {
  pi_cands : ss_candidates st = map (cand_of lut scale top) (take (Z.to_nat j) (ranks logits));
  pi_len : length (ss_used st) = length logits;
  pi_used : forall e, e ∈ ranks logits ->
    ss_used st !! Z.to_nat (he_id e) = Some (bool_decide (e ∈ take (Z.to_nat j) (ranks logits)));
  pi_total : ss_total st = total_weight (ss_candidates st);
  pi_bound : 0 <= ss_total st <= 255 * j;
  pi_top : 0 < j -> ss_logit_max st = top;
}.

Lemma ranks_split logits j e : ranks logits !! j = Some e ->
  ranks logits = take j (ranks logits) ++ e :: drop (S j) (ranks logits)
  /\ take (S j) (ranks logits) = take j (ranks logits) ++ [e]
  /\ (e ∉ take j (ranks logits))
  /\ forall e', e' ∈ ranks logits -> e' ∉ take j (ranks logits) -> rank_leb e e' = true.
Proof.
  intros He. pose proof (take_drop_middle _ _ _ He) as Hs. pose proof (ranks_NoDup logits) as Hnd.
  pose proof (ranked_sorted (entries_of logits)) as Hso. fold (ranks logits) in Hso.
  split_and!; [done | by apply take_S_r | |].
  - rewrite <- Hs in Hnd. apply NoDup_app in Hnd as (_ & Hd & _). intros Hin. apply (Hd e Hin). by left.
  - intros e' Hin Hnot. rewrite <- Hs in Hin. apply elem_of_app in Hin as [?|Hin]; [done|].
    apply elem_of_cons in Hin as [->|Hin]; [apply rank_leb_iff; lia|].
    rewrite <- Hs in Hso. clear Hs Hnot Hnd He. revert Hso. generalize (take j (ranks logits)) as pre.
    induction pre as [|x pre IH]; intros Hso; apply StronglySorted_inv in Hso as [Hso Hf]; [|by apply IH].
    rewrite Forall_forall in Hf. by apply Hf.
Qed.

(** The scan of a pass finds the next entry of the ranking. *)
Lemma scan_next {E} lut scale logits top j st e : passes_inv lut scale logits top j st ->
  ranks logits !! Z.to_nat j = Some e ->
  ofold (@scan_step E (ss_used st) logits) None (enumerate logits) = Ok (Some (he_id e)).
Proof.
  intros Hi He. destruct (ranks_split _ _ _ He) as (_ & _ & Hnew & Hbest).
  destruct (@scan_total E (ss_used st) logits (pi_len _ _ _ _ _ _ Hi)) as (best & -> & Hb). do 2 f_equal.
  assert (Hen : forall i v, (i, v) ∈ enumerate logits <-> entry_of (i, v) ∈ ranks logits).
  { intros i v. unfold ranks, ranked, entries_of. rewrite elem_of_sort_by. split.
    - apply list_elem_of_fmap_2.
    - intros [[i' v'] [[= -> ->] Hin]]%list_elem_of_fmap. done. }
  assert (Hmem : e ∈ ranks logits) by (by eapply list_elem_of_lookup_2).
  assert (Hee : (he_id e, he_logit e) ∈ enumerate logits) by (apply Hen; by destruct e).
  pose proof (pi_used _ _ _ _ _ _ Hi e Hmem) as Hue. rewrite bool_decide_eq_false_2 in Hue by done.
  destruct best as [b|]; simpl in Hb.
  - destruct Hb as (w & Hw & Hu & Hmin). apply Hen in Hw.
    pose proof (pi_used _ _ _ _ _ _ Hi _ Hw) as Hub. simpl in Hub. rewrite Hu in Hub.
    injection Hub as Hub. symmetry in Hub. apply bool_decide_eq_false in Hub.
    assert (e = entry_of (b, w)) as ->; [|done].
    apply rank_antisym; [by apply Hbest|].
    specialize (Hmin _ _ Hee Hue). by destruct e.
  - rewrite (Hb _ _ Hee) in Hue. discriminate.
Qed.

Lemma select_pass_inv {E} lut scale logits top j st :
  table_ok lut -> 0 <= scale < U16 -> Forall is_i24 logits -> 0 <= j < Z.min 8 (zlen logits) ->
  head (ranks logits) = Some (MkHeapEntry top (default 0 (he_id <$> head (ranks logits)))) ->
  passes_inv lut scale logits top j st ->
  exists st', @select_pass E lut scale logits st j = Ok st' /\ passes_inv lut scale logits top (j + 1) st'.
Proof.
  intros Hlut Hs Hl Hj Htop Hi. rewrite Forall_forall in Hl.
  destruct (lookup_lt_is_Some_2 (ranks logits) (Z.to_nat j)) as [e He];
    [rewrite ranks_length; unfold zlen in Hj; lia|].
  destruct (ranks_split _ _ _ He) as (Hsplit & Htake & Hnew & _).
  assert (Hmem : e ∈ ranks logits) by (by eapply list_elem_of_lookup_2).
  pose proof Hmem as [Hid Hlog]%ranks_elem.
  rewrite head_lookup in Htop.
  pose proof (list_elem_of_lookup_2 _ _ _ Htop) as [_ Ht]%ranks_elem. simpl in Ht.
  unfold select_pass. rewrite (scan_next _ _ _ _ _ _ _ Hi He). cbn [obind expect].
  rewrite set_index_total by (unfold zlen in *; rewrite (pi_len _ _ _ _ _ _ Hi); lia). cbn [obind].
  rewrite (index_Some _ (he_id e) (he_logit e)) by (done || lia). cbn [obind].
  assert ((if j =? 0 then he_logit e else ss_logit_max st) = top) as ->.
  { destruct (Z.eqb_spec j 0) as [->|Hne]; [|apply (pi_top _ _ _ _ _ _ Hi); lia].
    change (Z.to_nat 0) with 0%nat in He. rewrite Htop in He. by injection He as <-. }
  assert (Hle : he_logit e <= top).
  { destruct (ranks_split _ _ _ Htop) as (_ & _ & _ & Hb).
    specialize (Hb e Hmem ltac:(apply not_elem_of_nil)). apply rank_leb_iff in Hb. simpl in Hb. lia. }
  destruct (@weigh_total E lut scale top e Hlut Hs) as [-> Hw];
    [by eapply Hl, list_elem_of_lookup_2 | by eapply Hl, list_elem_of_lookup_2 | done|]. cbn [obind].
  pose proof (pi_bound _ _ _ _ _ _ Hi). unfold is_weight in Hw.
  unfold uadd. rewrite (proj2 (Z.ltb_lt _ _)) by lia. cbn [obind].
  eexists. split; [reflexivity|]. replace (Z.to_nat (j + 1)) with (S (Z.to_nat j)) by lia.
  constructor; cbn [ss_candidates ss_used ss_total ss_logit_max];
    replace (Z.to_nat (j + 1)) with (S (Z.to_nat j)) by lia; rewrite ?Htake.
  - rewrite map_app, (pi_cands _ _ _ _ _ _ Hi). done.
  - rewrite length_insert. apply (pi_len _ _ _ _ _ _ Hi).
  - intros e' He'. destruct (decide (e' = e)) as [->|Hne].
    + rewrite list_lookup_insert_eq by (rewrite (pi_len _ _ _ _ _ _ Hi); unfold zlen in *; lia).
      rewrite bool_decide_eq_true_2; [done|]. apply elem_of_app. right. by apply list_elem_of_singleton.
    + pose proof He' as [Hid' _]%ranks_elem. rewrite list_lookup_insert_ne.
      * rewrite (pi_used _ _ _ _ _ _ Hi _ He'). f_equal. apply bool_decide_ext.
        rewrite elem_of_app, list_elem_of_singleton. tauto.
      * intros Heq. apply Hne. unfold ranks, ranked in *. rewrite elem_of_sort_by in *.
        apply (entries_ids_inj logits); [done..|lia].
  - unfold total_weight. rewrite map_app, zsum_app, (pi_total _ _ _ _ _ _ Hi). simpl. unfold total_weight. lia.
  - lia.
  - done.
Qed.

(** ** The draw *)

(** What a draw may be made from: byte weights, the first one 255. *)
Record drawable (cs : list SampleCandidate) : Prop := {
  dr_weights : Forall (fun c => is_weight (cand_weight c)) cs;
  dr_len : (length cs <= 8)%nat;
  dr_first : cand_weight <$> head cs = Some 255;
}.

(** [t] falls in the share of the cumulative weights that [c] owns. *)
Definition owns (cs : list SampleCandidate) (t : Z) (c : SampleCandidate) : Prop :=
  exists pre post, cs = pre ++ c :: post
    /\ total_weight pre <= t < total_weight pre + cand_weight c.

Lemma total_weight_app l1 l2 : total_weight (l1 ++ l2) = total_weight l1 + total_weight l2.
Proof. unfold total_weight. by rewrite map_app, zsum_app. Qed.

Lemma total_weight_cons c l : total_weight (c :: l) = cand_weight c + total_weight l.
Proof. done. Qed.

Lemma total_weight_bound cs : Forall (fun c => is_weight (cand_weight c)) cs ->
  0 <= total_weight cs <= 255 * zlen cs.
Proof.
  unfold total_weight, is_weight. induction 1 as [|c cs Hc _ IH]; [done|].
  rewrite zlen_cons. cbn [map zsum]. lia.
Qed.

Lemma drawable_total cs : drawable cs -> 255 <= total_weight cs <= 2040.
Proof.
  intros [Hw Hl Hf]. destruct cs as [|c cs]; [done|]. injection Hf as Hf.
  apply Forall_cons in Hw as [_ Hw]. apply total_weight_bound in Hw.
  unfold total_weight, zlen in *. simpl in *. lia.
Qed.

Lemma walk_owner {E} t p post : forall pre c cum,
  Forall (fun c => is_weight (cand_weight c)) (pre ++ [c]) -> 0 <= cum ->
  cum + total_weight pre <= t < cum + total_weight pre + cand_weight c -> t < U16 - 256 ->
  @walk E t cum p (pre ++ c :: post) = Ok (cand_id c).
Proof.
  induction pre as [|d pre IH]; intros c cum Hw Hc Ht Hmax; cbn [app walk];
    apply Forall_cons in Hw as [Hd Hw]; unfold is_weight in Hd.
  - unfold total_weight in Ht. cbn [map zsum] in Ht. unfold uadd. rewrite (proj2 (Z.ltb_lt _ _)) by lia.
    cbn [obind]. by rewrite (proj2 (Z.ltb_lt _ _)) by lia.
  - unfold total_weight in Ht. cbn [map zsum] in Ht. fold (total_weight pre) in Ht.
    pose proof (total_weight_bound pre ltac:(by apply Forall_app in Hw as [? _])).
    unfold uadd. rewrite (proj2 (Z.ltb_lt _ _)) by lia. cbn [obind].
    rewrite (proj2 (Z.ltb_ge _ _)) by lia. apply IH; [done|lia..].
Qed.

Lemma owner_exists cs : forall t, Forall (fun c => is_weight (cand_weight c)) cs ->
  0 <= t < total_weight cs -> exists c, owns cs t c.
Proof.
  induction cs as [|c cs IH]; intros t Hw Ht; [unfold total_weight in Ht; simpl in Ht; lia|].
  apply Forall_cons in Hw as [Hc Hw]. unfold total_weight in Ht. cbn [map zsum] in Ht.
  fold (total_weight cs) in Ht. destruct (Z.ltb_spec t (cand_weight c)).
  - exists c, [], cs. split; [done|]. unfold total_weight. simpl. lia.
  - destruct (IH (t - cand_weight c) Hw ltac:(lia)) as (d & pre & post & -> & Hd).
    exists d, (c :: pre), post. split; [done|]. unfold total_weight in *. cbn [map zsum]. lia.
Qed.

Definition threshold_of (total r : Z) : Z := r * total / 65536.

Lemma threshold_range total r : 0 < total -> 0 <= r < 65536 -> 0 <= threshold_of total r < total.
Proof.
  intros Ht Hr. unfold threshold_of. split; [apply Z.div_pos; nia|]. apply Z.div_lt_upper_bound; nia.
Qed.

(** A draw never fails, and returns the id of the owner of its threshold. *)
Lemma draw_total {E} `{BuildProfile} cs rng : drawable cs -> 0 <= rng < 65536 ->
  let r := next_u16 rng in let t := threshold_of (total_weight cs) r in
  exists c, owns cs t c
    /\ @draw E _ cs (total_weight cs) rng = Ok (MkSampleTrace cs (total_weight cs) r t (cand_id c), r).
Proof.
  intros Hd Hrng r t. pose proof (next_range rng Hrng) as Hr. fold r in Hr.
  pose proof (drawable_total _ Hd) as Htot. pose proof (threshold_range (total_weight cs) r ltac:(lia) Hr) as Ht.
  fold t in Ht. destruct Hd as [Hw Hl Hf]. destruct (owner_exists cs t Hw Ht) as (c & Hc). exists c.
  split; [done|]. unfold draw. rewrite debug_assert_true by lia. cbn [obind]. fold r.
  unfold umul. rewrite (proj2 (Z.ltb_lt _ _)) by nia. cbn [obind].
  rewrite Z.shiftr_div_pow2 by lia. change (2 ^ 16) with 65536. fold (threshold_of (total_weight cs) r). fold t.
  unfold wrap. rewrite Z.mod_small by lia. destruct (head cs) as [f|]; [|done]. cbn [expect obind].
  destruct Hc as (pre & post & -> & Hc). rewrite walk_owner; [done | | lia..].
  replace (pre ++ c :: post) with ((pre ++ [c]) ++ post) in Hw by by rewrite <- app_assoc.
  by apply Forall_app in Hw as [? _].
Qed.

(** ** The samplers *)

Definition valid_config (cfg : SamplerConfig) : Prop := 1 <= sc_k cfg <= MAX_TOP_K /\ 0 < sc_scale_q16 cfg < U16.

Lemma SamplerConfig_new_valid k scale cfg : 0 <= k -> 0 <= scale < U16 ->
  SamplerConfig_new k scale = Ok cfg <-> cfg = MkSamplerConfig k scale /\ valid_config cfg.
Proof.
  intros Hk Hs. unfold SamplerConfig_new, valid_config, MAX_TOP_K. split.
  - intros H. inv_ok. split; [done|]. simpl. lia.
  - intros [-> [H1 H2]]. cbn [sc_k sc_scale_q16] in *. rewrite (proj2 (Z.eqb_neq k 0)), (proj2 (Z.ltb_ge 8 k)) by lia.
    cbn [orb guard_err obind]. by rewrite (proj2 (Z.eqb_neq scale 0)) by lia.
Qed.

Definition max_logit (logits : list Z) : Z := default 0 (he_logit <$> head (ranks logits)).

(** The candidates both samplers draw from. *)
Definition candidates_of (lut : list Z) (cfg : SamplerConfig) (logits : list Z) : list SampleCandidate :=
  map (cand_of lut (sc_scale_q16 cfg) (max_logit logits)) (take (Z.to_nat (sc_k cfg)) (ranks logits)).

Lemma ranks_head logits : logits <> [] ->
  exists e rest, ranks logits = e :: rest /\ he_logit e = max_logit logits.
Proof.
  intros Hne. destruct (ranks logits) as [|e rest] eqn:Hr.
  - pose proof (ranks_length logits) as Hl. rewrite Hr in Hl. by destruct logits.
  - exists e, rest. split; [done|]. unfold max_logit. by rewrite Hr.
Qed.

Lemma ranks_le_max logits e : e ∈ ranks logits -> he_logit e <= max_logit logits.
Proof.
  intros He. destruct (ranks logits) as [|m rest] eqn:Hr; [by apply elem_of_nil in He|].
  destruct (ranks_split logits 0 m) as (_ & _ & _ & Hb); [by rewrite Hr|].
  unfold max_logit. rewrite Hr. cbn. rewrite <- Hr in He.
  specialize (Hb e He ltac:(apply not_elem_of_nil)). apply rank_leb_iff in Hb. lia.
Qed.

Lemma weigh_rank {E} lut cfg logits e : table_ok lut -> valid_config cfg -> Forall is_i24 logits ->
  e ∈ ranks logits ->
  @weigh E lut (sc_scale_q16 cfg) (max_logit logits) (he_logit e) (he_id e)
    = Ok (cand_of lut (sc_scale_q16 cfg) (max_logit logits) e)
  /\ is_weight (cand_weight (cand_of lut (sc_scale_q16 cfg) (max_logit logits) e)).
Proof.
  intros Hlut [_ Hs] Hl He. rewrite Forall_forall in Hl.
  assert (Hi : forall e, e ∈ ranks logits -> is_i24 (he_logit e))
    by (intros x [_ Hx]%ranks_elem; by eapply Hl, list_elem_of_lookup_2).
  destruct (ranks_head logits) as (m & rest & Hr & Hm); [intros ->; by apply elem_of_nil in He|].
  apply weigh_total; [done | lia | | by apply Hi | by apply ranks_le_max].
  rewrite <- Hm. apply Hi. rewrite Hr. by left.
Qed.

Lemma candidates_drawable lut cfg logits : table_ok lut -> valid_config cfg -> Forall is_i24 logits ->
  logits <> [] -> drawable (candidates_of lut cfg logits).
Proof.
  intros Hlut Hc Hl Hne. unfold candidates_of. split.
  - apply List.Forall_map, Forall_forall. intros e He%elem_of_take. destruct He as (i & He & _).
    apply (@weigh_rank unit); [done..|]. by eapply list_elem_of_lookup_2.
  - rewrite length_map, length_take. destruct Hc as [Hk _]. unfold MAX_TOP_K in Hk. lia.
  - destruct (ranks_head logits Hne) as (m & rest & -> & Hm). destruct Hc as [Hk Hs].
    replace (Z.to_nat (sc_k cfg)) with (S (Z.to_nat (sc_k cfg - 1))) by lia. cbn [take map head fmap option_fmap option_map].
    f_equal. apply cand_of_top; [done | done | lia].
Qed.

Lemma select_all {E} lut cfg logits : table_ok lut -> valid_config cfg -> Forall is_i24 logits -> logits <> [] ->
  exists st, ofold (@select_pass E lut (sc_scale_q16 cfg) logits)
      (MkSelectState (repeat false (length logits)) [] 0 0) (zrange (Z.min (sc_k cfg) (zlen logits))) = Ok st
    /\ ss_candidates st = candidates_of lut cfg logits
    /\ ss_total st = total_weight (candidates_of lut cfg logits).
Proof.
  intros Hlut [Hk Hs] Hl Hne. unfold MAX_TOP_K in Hk. pose proof (zlen_nonneg logits).
  destruct (ofold_zrange (passes_inv lut (sc_scale_q16 cfg) logits (max_logit logits))
    (@select_pass E lut (sc_scale_q16 cfg) logits) (MkSelectState (repeat false (length logits)) [] 0 0)
    (Z.min (sc_k cfg) (zlen logits))) as (st & Hst & Hi).
  - lia.
  - constructor; simpl; [done | by rewrite repeat_length | | done | lia | lia].
    intros e [Hid _]%ranks_elem. apply lookup_repeat_Some. unfold zlen in Hid. split; [done | lia].
  - intros j st Hj Hi. apply select_pass_inv; [done | lia | done | lia | | done].
    destruct (ranks_head logits Hne) as (m & rest & -> & <-). cbn. by destruct m.
  - exists st. split; [done|].
    assert (Hc : ss_candidates st = candidates_of lut cfg logits).
    { rewrite (pi_cands _ _ _ _ _ _ Hi). unfold candidates_of. f_equal.
      destruct (Z.min_spec (sc_k cfg) (zlen logits)) as [[_ ->]|[? ->]]; [done|].
      rewrite !take_ge by (rewrite ranks_length; unfold zlen in *; lia). done. }
    split; [done|]. by rewrite (pi_total _ _ _ _ _ _ Hi), Hc.
Qed.

(** The full sampler draws from [candidates_of]. *)
Lemma sample_trace_draw {E} `{Exp2} `{BuildProfile} logits cfg rng : exp2_ok -> valid_config cfg ->
  Forall is_i24 logits -> logits <> [] ->
  @sample_topk_trace E _ _ logits cfg rng =
    draw (candidates_of exp2_table cfg logits) (total_weight (candidates_of exp2_table cfg logits)) rng
  /\ drawable (candidates_of exp2_table cfg logits).
Proof.
  intros He Hc Hl Hne. destruct (@build_exp2_total _ E He) as [Hb Hlut].
  split; [|by apply candidates_drawable]. unfold sample_topk_trace.
  rewrite rust_assert_true by (destruct logits; done). cbn [obind]. rewrite debug_assert_true.
  2:{ apply forallb_forall. rewrite Forall_forall in Hl. intros l Hin. unfold in_i24, fits.
      specialize (Hl l (proj2 (list_elem_of_In _ _) Hin)). unfold is_i24 in Hl. lia. }
  cbn [obind]. rewrite Hb. cbn [obind].
  destruct (@select_all E _ _ _ Hlut Hc Hl Hne) as (st & -> & Hcs & Htot).
  cbn [obind]. by rewrite Hcs, Htot.
Qed.

Lemma weigh_all {E} lut cfg logits es : table_ok lut -> valid_config cfg -> Forall is_i24 logits ->
  (forall e, e ∈ es -> e ∈ ranks logits) -> forall cs total, 0 <= total -> total + 255 * zlen es < U16 ->
  ofold (@weigh_step E lut (sc_scale_q16 cfg) (max_logit logits)) (cs, total)
      (map (fun e => (he_logit e, he_id e)) es)
  = Ok (let new := map (cand_of lut (sc_scale_q16 cfg) (max_logit logits)) es in
        (cs ++ new, total + total_weight new)).
Proof.
  intros Hlut Hc Hl. induction es as [|e es IH]; intros Hin cs total H0 Ht.
  - cbn. by rewrite app_nil_r, Z.add_0_r.
  - rewrite zlen_cons in Ht. pose proof (zlen_nonneg es). cbn [map ofold]. unfold weigh_step at 1. cbn [fst snd].
    destruct (@weigh_rank E lut cfg logits e Hlut Hc Hl) as [-> Hw]; [apply Hin; by left|].
    unfold is_weight in Hw. cbn [obind]. unfold uadd. rewrite (proj2 (Z.ltb_lt _ _)) by lia. cbn [obind].
    rewrite IH by (lia || (intros x Hx; apply Hin; by right)). cbn zeta. f_equal. f_equal.
    + by rewrite <- app_assoc.
    + unfold total_weight. cbn [map zsum]. lia.
Qed.

Lemma sample_candidates_draw {E} `{Exp2} `{BuildProfile} logits cfg rng : exp2_ok -> valid_config cfg ->
  Forall is_i24 logits -> logits <> [] ->
  @sample_topk_from_candidates_trace E _ _
    (map (fun e => (he_logit e, he_id e)) (take (Z.to_nat (sc_k cfg)) (ranks logits))) (sc_scale_q16 cfg) rng =
    draw (candidates_of exp2_table cfg logits) (total_weight (candidates_of exp2_table cfg logits)) rng.
Proof.
  intros He Hc Hl Hne. destruct (@build_exp2_total _ E He) as [Hb Hlut].
  set (es := take (Z.to_nat (sc_k cfg)) (ranks logits)).
  assert (Hes : forall e, e ∈ es -> e ∈ ranks logits)
    by (intros e (i & Hi & _)%elem_of_take; by eapply list_elem_of_lookup_2).
  assert (Hlen : (length es <= 8)%nat).
  { unfold es. rewrite length_take. destruct Hc as [Hk _]. unfold MAX_TOP_K in Hk. lia. }
  assert (Hhd : exists m rest, es = m :: rest /\ he_logit m = max_logit logits).
  { destruct (ranks_head logits Hne) as (m & rest & Hr & Hm). unfold es. rewrite Hr.
    destruct Hc as [Hk _]. replace (Z.to_nat (sc_k cfg)) with (S (Z.to_nat (sc_k cfg - 1))) by lia.
    exists m. by eexists. }
  unfold sample_topk_from_candidates_trace. destruct Hhd as (m & rest & Hm & Hmax).
  rewrite rust_assert_true by (rewrite Hm; done). cbn [obind]. rewrite debug_assert_true.
  2:{ apply forallb_forall. rewrite Forall_forall in Hl. intros [l i] Hin.
      apply list_elem_of_In, list_elem_of_fmap in Hin as (e & [= -> ->] & Hin).
      apply Hes, ranks_elem in Hin as [_ Hin]. unfold in_i24, fits.
      specialize (Hl _ (list_elem_of_lookup_2 _ _ _ Hin)). unfold is_i24 in Hl. simpl. lia. }
  cbn [obind]. rewrite Hb. cbn [obind]. rewrite (index_Some _ 0 (max_logit logits, he_id m)).
  2: lia. 2:{ rewrite Hm, <- Hmax. done. }
  cbn [obind fst]. by rewrite (weigh_all _ _ logits) by (done || lia || (unfold zlen; lia)).
Qed.

(** C30: Both samplers are one: on the same generator state, the sampler that
    scans the whole logit vector and the one that is given the first [k]
    entries of a running top-k (of any capacity of at least [k], fed in any
    order) return the same trace and leave the same generator state. *)
Theorem samplers_agree {E} `{Exp2} `{BuildProfile} logits offered cfg capacity rng :
  exp2_ok -> valid_config cfg -> Forall is_i24 logits -> logits <> [] ->
  sc_k cfg <= capacity -> offered ≡ₚ entries_of logits ->
  exists h, (let* h0 := RunningTopK_new capacity in @offer_all E h0 offered) = Ok h
    /\ @sample_topk_from_candidates_trace E _ _
         (map (fun e => (he_logit e, he_id e)) (take (Z.to_nat (sc_k cfg)) (finalize h)))
         (sc_scale_q16 cfg) rng
       = sample_topk_trace logits cfg rng.
Proof.
  intros He Hc Hl Hne Hcap Hp. pose proof Hc as [Hk _].
  destruct (@offer_all_topk E capacity offered ltac:(lia)) as (h & Hh & Hf). exists h. split; [done|].
  assert (Hr : ranked offered = ranks logits) by (unfold ranks; by apply ranked_perm).
  rewrite Hf, Hr, take_take, Nat.min_l by lia.
  rewrite sample_candidates_draw by done. by destruct (@sample_trace_draw E _ _ logits cfg rng He Hc Hl Hne) as [-> _].
Qed.

(** Sampling never fails, and draws among the [k] best: the candidates are
    the first [k] of the ranked logits, the heaviest has weight 255, the
    threshold is [r * total / 2^16] for the next generator value [r], and the
    token picked is the one whose share of the cumulative weights holds the
    threshold, so a candidate of weight zero is never picked. *)
Theorem sample_topk_draws {E} `{Exp2} `{BuildProfile} logits cfg rng :
  exp2_ok -> valid_config cfg -> Forall is_i24 logits -> logits <> [] -> 0 <= rng < U16 ->
  let cs := candidates_of exp2_table cfg logits in
  let t := threshold_of (total_weight cs) (next_u16 rng) in
  exists c, @sample_topk_trace E _ _ logits cfg rng
      = Ok (MkSampleTrace cs (total_weight cs) (next_u16 rng) t (cand_id c), next_u16 rng)
    /\ owns cs t c /\ 0 < cand_weight c
    /\ cand_weight <$> head cs = Some 255
    /\ map cand_id cs = map he_id (take (Z.to_nat (sc_k cfg)) (ranks logits)).
Proof.
  intros He Hc Hl Hne Hrng cs t.
  destruct (@sample_trace_draw E _ _ logits cfg rng He Hc Hl Hne) as [-> Hd]. fold cs in Hd |- *.
  destruct (@draw_total E _ cs rng Hd Hrng) as (c & Hown & ->). exists c.
  split_and!; [done | done | | apply Hd | unfold cs, candidates_of; by rewrite map_map].
  destruct Hown as (pre & post & _ & Hp). lia.
Qed.

(** ** Fairness over a period of the generator *)

(** The [k]-th generator state from a given one. *)
Definition state_at (rng k : Z) : Z := N.iter (Z.to_N k) next_u16 rng.

Lemma state_at_inj rng i j : 0 < rng < 65536 -> 0 <= i < j -> j < 65535 -> state_at rng i <> state_at rng j.
Proof.
  intros Hs Hij Hj Heq. unfold state_at in Heq.
  replace (Z.to_N j) with (Z.to_N (j - i) + Z.to_N i)%N in Heq by lia. rewrite N.iter_add in Heq.
  pose proof (iter_nonzero rng (Z.to_N i) Hs) as Hr.
  by apply (period_exact _ (Z.to_N (j - i)) Hr ltac:(lia)).
Qed.

(** The draws of a period see every nonzero generator value once. *)
Lemma period_values rng : 0 < rng < 65536 ->
  map (fun k => next_u16 (state_at rng k)) (zrange 65535) ≡ₚ map Z.succ (zrange 65535).
Proof.
  intros Hs. assert (Hnd : NoDup (map (fun k => next_u16 (state_at rng k)) (zrange 65535))).
  { apply NoDup_alt. intros i j x Hi Hj.
    apply list_lookup_fmap_Some in Hi as (a & -> & Ha), Hj as (b & Hb & Hj).
    pose proof (lookup_lt_Some _ _ _ Ha). pose proof (lookup_lt_Some _ _ _ Hj). rewrite zrange_length in *.
    rewrite zrange_lookup in Ha, Hj by done. injection Ha as <-. injection Hj as <-.
    assert (Hn : forall n, next_u16 (state_at rng (Z.of_nat n)) = state_at (next_u16 rng) (Z.of_nat n))
      by (intros n; unfold state_at; rewrite <- N.iter_succ, N.iter_succ_r; done).
    rewrite !Hn in Hb. pose proof (iter_nonzero rng 1 Hs) as H1. cbn in H1.
    destruct (Nat.lt_trichotomy i j) as [Hlt|[?|Hlt]]; [|done|]; exfalso.
    - by apply (state_at_inj (next_u16 rng) (Z.of_nat i) (Z.of_nat j)); try lia.
    - by apply (state_at_inj (next_u16 rng) (Z.of_nat j) (Z.of_nat i)); try lia. }
  apply submseteq_length_Permutation.
  - apply NoDup_submseteq; [done|]. intros x (k & -> & Hk%zrange_elem)%list_elem_of_fmap.
    apply list_elem_of_fmap. exists (next_u16 (state_at rng k) - 1). split; [lia|]. apply zrange_elem.
    unfold state_at. rewrite <- N.iter_succ. pose proof (iter_nonzero rng (N.succ (Z.to_N k)) Hs). lia.
  - by rewrite !length_map.
Qed.

Lemma filter_succ_length a b n : 0 <= n ->
  zlen (filter (fun r => a <= r < b) (map Z.succ (zrange n))) = Z.max 0 (Z.min b (n + 1) - Z.max a 1).
Proof.
  revert n. apply natlike_ind.
  - change (zlen (filter (fun r => a <= r < b) (map Z.succ (zrange 0)))) with 0. lia.
  - intros n Hn IH. unfold Z.succ at 2. rewrite zrange_succ, map_app, filter_app by done.
    unfold zlen in *. rewrite length_app, Nat2Z.inj_add, IH. cbn [map]. rewrite filter_cons, filter_nil.
    case_decide; simpl; lia.
Qed.

Lemma threshold_in total r lo hi : 0 < total ->
  lo <= threshold_of total r < hi <-> - (- (lo * 65536) / total) <= r < - (- (hi * 65536) / total).
Proof.
  intros Ht. unfold threshold_of.
  pose proof (Z.div_mod (r * total) 65536 ltac:(lia)). pose proof (Z.mod_pos_bound (r * total) 65536 ltac:(lia)).
  pose proof (Z.div_mod (- (lo * 65536)) total ltac:(lia)). pose proof (Z.mod_pos_bound (- (lo * 65536)) total Ht).
  pose proof (Z.div_mod (- (hi * 65536)) total ltac:(lia)). pose proof (Z.mod_pos_bound (- (hi * 65536)) total Ht).
  split; nia.
Qed.

Lemma owns_position cs t c d : NoDup (map cand_id cs) -> owns cs t d -> cand_id d = cand_id c ->
  forall pre post, cs = pre ++ c :: post -> total_weight pre <= t < total_weight pre + cand_weight c.
Proof.
  intros Hnd (pre' & post' & H' & Ht) Hid pre post H. rewrite H in H'. rewrite H in Hnd. clear H.
  assert (length pre' = length pre) as Hlen.
  { apply (proj1 (NoDup_alt _) Hnd _ _ (cand_id c)).
    - rewrite H', map_app. cbn [map]. rewrite lookup_app_r, length_map, Nat.sub_diag by (by rewrite length_map).
      cbn. by rewrite Hid.
    - rewrite map_app. cbn [map]. by rewrite lookup_app_r, length_map, Nat.sub_diag by (by rewrite length_map). }
  apply app_inj_1 in H' as [-> [= -> _]]; done.
Qed.

Lemma owns_unique cs t c d : Forall (fun c => is_weight (cand_weight c)) cs -> owns cs t c -> owns cs t d -> c = d.
Proof.
  intros Hw (pre & post & H & Ht) (pre' & post' & H' & Ht').
  assert (Hlt : forall p1 q1 x p2 q2 y, cs = p1 ++ x :: q1 -> cs = p2 ++ y :: q2 ->
    (length p1 < length p2)%nat -> total_weight p1 + cand_weight x <= total_weight p2).
  { intros p1 q1 x p2 q2 y H1 H2 Hl. assert (Hp : p1 ++ [x] = take (S (length p1)) p2).
    { rewrite H1 in H2. replace (p1 ++ x :: q1) with ((p1 ++ [x]) ++ q1) in H2 by by rewrite <- app_assoc.
      apply (f_equal (take (S (length p1)))) in H2.
      rewrite take_app_length' in H2 by (rewrite length_app; simpl; lia). by rewrite take_app_le in H2 by lia. }
    rewrite <- (take_drop (S (length p1)) p2), <- Hp, !total_weight_app.
    assert (0 <= total_weight (drop (S (length p1)) p2)).
    { apply total_weight_bound, Forall_drop. rewrite H2 in Hw. by apply Forall_app in Hw as [? _]. }
    unfold total_weight at 3. cbn. lia. }
  destruct (Nat.lt_trichotomy (length pre) (length pre')) as [Hl|[Hl|Hl]].
  - pose proof (Hlt _ _ _ _ _ _ H H' Hl). lia.
  - rewrite H in H'. by apply app_inj_1 in H' as [_ [= -> _]].
  - pose proof (Hlt _ _ _ _ _ _ H' H Hl). lia.
Qed.

(** Does the draw from the [k]-th state pick the id? *)
Definition picks `{Exp2} `{BuildProfile} (logits : list Z) (cfg : SamplerConfig) (rng id k : Z) : bool :=
  match @sample_topk Empty_set _ _ logits cfg (state_at rng k) with
  | Ok (picked, _) => picked =? id
  | _ => false
  end.

Lemma candidates_NoDup lut cfg logits : NoDup (map cand_id (candidates_of lut cfg logits)).
Proof.
  unfold candidates_of. rewrite map_map. change (fun x => cand_id (cand_of lut _ _ x)) with he_id.
  apply NoDup_fmap_2_strong.
  - intros x y (i & Hi & _)%elem_of_take (j & Hj & _)%elem_of_take Hid.
    apply list_elem_of_lookup_2 in Hi, Hj. unfold ranks, ranked in *. rewrite elem_of_sort_by in *.
    by apply (entries_ids_inj logits).
  - pose proof (ranks_NoDup logits) as Hnd. rewrite <- (take_drop (Z.to_nat (sc_k cfg)) (ranks logits)) in Hnd.
    by apply NoDup_app in Hnd as [? _].
Qed.

Lemma picks_iff `{Exp2} `{BuildProfile} logits cfg rng pre c post k :
  exp2_ok -> valid_config cfg -> Forall is_i24 logits -> logits <> [] -> 0 < rng < U16 -> 
  candidates_of exp2_table cfg logits = pre ++ c :: post ->
  picks logits cfg rng (cand_id c) k = true <->
  total_weight pre <= threshold_of (total_weight (candidates_of exp2_table cfg logits)) (next_u16 (state_at rng k))
    < total_weight pre + cand_weight c.
Proof.
  intros He Hc Hl Hne Hrng Hcs. unfold picks, sample_topk.
  destruct (@sample_trace_draw Empty_set _ _ logits cfg (state_at rng k) He Hc Hl Hne) as [-> Hd].
  pose proof (iter_range (Z.to_N k) rng ltac:(lia)) as Hr. fold (state_at rng k) in Hr.
  destruct (@draw_total Empty_set _ _ (state_at rng k) Hd Hr) as (d & Hown & ->). cbn [obind st_picked].
  rewrite Z.eqb_eq. split.
  - intros Hid. by apply (owns_position _ _ c d (candidates_NoDup _ _ _) Hown Hid pre post).
  - intros Ht. assert (c = d) as ->; [|done]. eapply owns_unique; [apply Hd | | exact Hown].
    by exists pre, post.
Qed.

Lemma filter_map_length {A B} (P : B -> Prop) (Q : A -> Prop) (f : A -> B)
    `{!forall x, Decision (P x), !forall x, Decision (Q x)} l l' : map f l ≡ₚ l' ->
  (forall x, Q x <-> P (f x)) -> zlen (filter Q l) = zlen (filter P l').
Proof.
  intros Hp HQ. unfold zlen. f_equal. rewrite <- Hp. clear Hp. induction l as [|x l IH]; [done|]. cbn [map]. rewrite !filter_cons.
  destruct (decide (P (f x))), (decide (Q x)); simpl; try lia; exfalso; firstorder.
Qed.

(** Sampling is fair: over one full period of the generator, whatever the
    seed, each of the [k] best tokens is picked a number of times that is its
    share [weight / total] of 2^16 draws, to within two. *)
Theorem sampling_is_fair `{Exp2} `{BuildProfile} logits cfg rng c :
  exp2_ok -> valid_config cfg -> Forall is_i24 logits -> logits <> [] -> 0 < rng < U16 ->
  c ∈ candidates_of exp2_table cfg logits ->
  let total := total_weight (candidates_of exp2_table cfg logits) in
  let n := zlen (filter (fun k => picks logits cfg rng (cand_id c) k = true) (zrange 65535)) in
  Z.abs (n * total - cand_weight c * 65536) < 2 * total.
Proof.
  intros He Hc Hl Hne Hrng Hin total n.
  apply list_elem_of_split in Hin as (pre & post & Hcs).
  destruct (@build_exp2_total _ unit He) as [_ Hlut].
  pose proof (candidates_drawable _ _ _ Hlut Hc Hl Hne) as Hd. pose proof (drawable_total _ Hd) as Htot.
  fold total in Htot.
  set (a := - (- (total_weight pre * 65536) / total)).
  set (b := - (- ((total_weight pre + cand_weight c) * 65536) / total)).
  assert (Hn : n = zlen (filter (fun r => a <= r < b) (map Z.succ (zrange 65535)))).
  { apply (filter_map_length _ _ _ _ _ (period_values rng Hrng)).
    intros k. rewrite (picks_iff _ _ _ pre _ post) by done. apply threshold_in. lia. }
  rewrite Hn, filter_succ_length by lia.
  assert (Hpre : 0 <= total_weight pre /\ total_weight pre + cand_weight c <= total /\ 0 <= cand_weight c).
  { pose proof (dr_weights _ Hd) as Hw. unfold total. rewrite Hcs in *. apply Forall_app in Hw as [Hw1 Hw2].
    apply Forall_cons in Hw2 as [Hc0 Hw2]. apply total_weight_bound in Hw1, Hw2. unfold is_weight in Hc0.
    rewrite total_weight_app, total_weight_cons. lia. }
  destruct Hpre as (Hp0 & Hp1 & Hp2). fold total in a, b.
  pose proof (Z.div_mod (- (total_weight pre * 65536)) total ltac:(lia)).
  pose proof (Z.mod_pos_bound (- (total_weight pre * 65536)) total ltac:(lia)).
  pose proof (Z.div_mod (- ((total_weight pre + cand_weight c) * 65536)) total ltac:(lia)).
  pose proof (Z.mod_pos_bound (- ((total_weight pre + cand_weight c) * 65536)) total ltac:(lia)).
  nia.
Qed.

(** ** Witnesses *)

(** A power of two that rounds its exponent to an integer. *)
Definition demo_exp2 : Exp2 := fun x => binary_normalize 53 1024 1 (rte_i64 x) false.
Definition demo_logits : list Z := [3; 10; -2; 10].
Definition demo_config : SamplerConfig := MkSamplerConfig 3 8000.

Lemma demo_exp2_ok : @exp2_ok demo_exp2.
Proof.
  constructor; [vm_compute; reflexivity|]. apply Forall_zrange.
  apply (Forall_impl (fun u => Is_true (let w := rte_i64 (f64_mul (f64_of_Z 255)
      (demo_exp2 (f64_div (f64_neg (f64_of_Z u)) (f64_of_Z EXP2_LUT_ALPHA)))) in (0 <=? w) && (w <=? 255)))).
  - apply forallb_True. vm_compute. exact I.
  - intros u Hu. unfold is_weight, f64_exp2. apply Is_true_true in Hu. cbv zeta in Hu. lia.
Qed.

Lemma demo_valid : valid_config demo_config /\ Forall is_i24 demo_logits.
Proof.
  split; [split; [split; discriminate | split; reflexivity]|].
  repeat (constructor; [split; [discriminate | reflexivity]|]). constructor.
Qed.


Lemma samplers_agree_witness :
  exists h, (let* h0 := RunningTopK_new 3 in @offer_all unit h0 (entries_of demo_logits)) = Ok h
    /\ @sample_topk_from_candidates_trace unit demo_exp2 true
         (map (fun e => (he_logit e, he_id e)) (take 3 (finalize h))) 8000 0x1234
       = @sample_topk_trace unit demo_exp2 true demo_logits demo_config 0x1234.
Proof.
  apply (@samplers_agree unit demo_exp2 true demo_logits (entries_of demo_logits) demo_config 3 0x1234).
  - exact demo_exp2_ok.
  - exact (proj1 demo_valid).
  - exact (proj2 demo_valid).
  - discriminate.
  - discriminate.
  - reflexivity.
Defined.

Lemma sample_topk_draws_witness :
  is_ok (@sample_topk_trace unit demo_exp2 true demo_logits demo_config 0x1234) = true.
Proof.
  destruct (@sample_topk_draws unit demo_exp2 true demo_logits demo_config 0x1234) as (c & H & _).
  - exact demo_exp2_ok.
  - exact (proj1 demo_valid).
  - exact (proj2 demo_valid).
  - discriminate.
  - split; [discriminate | reflexivity].
  - rewrite H. reflexivity.
Defined.

Lemma sampling_is_fair_witness :
  exists c, cand_id c = 1 /\
    let total := total_weight (candidates_of (@exp2_table demo_exp2) demo_config demo_logits) in
    Z.abs (zlen (filter (fun k => @picks demo_exp2 false demo_logits demo_config 1 (cand_id c) k = true)
             (zrange 65535)) * total - cand_weight c * 65536) < 2 * total.
Proof.
  exists (MkSampleCandidate 1 10 0 255). split; [reflexivity|].
  apply (@sampling_is_fair demo_exp2 false demo_logits demo_config 1 (MkSampleCandidate 1 10 0 255)).
  - exact demo_exp2_ok.
  - exact (proj1 demo_valid).
  - exact (proj2 demo_valid).
  - discriminate.
  - split; reflexivity.
  - assert (head (candidates_of (@exp2_table demo_exp2) demo_config demo_logits)
            = Some (MkSampleCandidate 1 10 0 255)) as H by (vm_compute; reflexivity).
    destruct (candidates_of (@exp2_table demo_exp2) demo_config demo_logits); [discriminate|].
    injection H as ->. left.
Defined.
