(* ===== verification/Router.v ===== *)
(** * The expert router ([state_model_ref.rs])

    The low-rank router as exported, its validation and [f32] routing, and the
    fixed-point router that the deployed forward pass uses: quantization with
    structural width checks, routing in [i64], and the bytes of its tables. *)

From S2P Require Import Prelude Numeric Float KernelSpec ModelRef.

Definition STATE_VOCAB : Z := 80.
Definition HOST_VOCAB_CAP : Z := 4096.
Definition STATE_RESID_FRAC_BITS : Z := 5.
Definition STATE_RESID_ONE : Z := Z.shiftl 1 STATE_RESID_FRAC_BITS.
Definition STATE_CLAMP : Z := Z.shiftl 1 23 - 1.
Definition RESID_I24_MIN : Z := - Z.shiftl 1 23.
Definition RESID_I24_MAX : Z := Z.shiftl 1 23 - 1.
Definition DOWN_DELTA_WIDE_BOUND : Z := Z.shiftl 1 23 - 1.
Definition LOGIT_PAGE_IDS : Z := 85.
Definition LOGIT_PAGED_VOCAB_MAX : Z := 255 * LOGIT_PAGE_IDS.
Definition HEAP_K_MAX : Z := 40.

Inductive StateModelError :=
| Sm_Shape (what : string) (expected actual : Z)
| Sm_Topology (what : string) (value max : Z)
| Sm_NonFiniteEmbedding
| Sm_DecayRawTooWide (slot raw : Z)
| Sm_StateInAccTooWide (row bound : Z)
| Sm_DownEpilogueOverflow (block row scale_raw acc_bound : Z)
| Sm_DownDeltaEscapesI24 (block row scale_raw acc_bound delta_bound : Z)
| Sm_NonFiniteRouter (block : Z) (what : string)
| Sm_RouterWeightEscapesI32 (block : Z) (what : string) (index quantized : Z)
| Sm_RouterHiddenEscapesI62 (block row bound : Z)
| Sm_RouterRawLogitEscapesI62 (block expert bound : Z)
| Sm_MoeArityMismatch (block expected actual : Z)
| Sm_MoeDenseMixup (block n_experts : Z) (block_is_moe : bool)
| Sm_Model (e : ModelRefError).

#[export] Instance StateModelError_eq_dec : EqDecision StateModelError.
Proof. solve_decision. Defined.

(** ** The exported router *)

Record LowRankRouter := MkLowRankRouter {
  lr_rank : Z;
  lr_d_model : Z;
  lr_n_experts : Z;
  lr_input_projection : list f32;
  lr_input_bias : list f32;
  lr_expert_projection : list f32;
  lr_expert_bias : list f32;
}.

Definition check_shape (what : string) (actual expected : Z) : outcome StateModelError unit :=
  guard_err (negb (actual =? expected)) (Sm_Shape what expected actual).

Definition check_finite (block : Z) (what : string) (v : list f32) : outcome StateModelError unit :=
  guard_err (negb (forallb is_finite v)) (Sm_NonFiniteRouter block what).

Definition LowRankRouter_validate (r : LowRankRouter) (block : Z) : outcome StateModelError unit :=
  let* n_in := umul U64 (lr_rank r) (lr_d_model r) in
  let* _ := check_shape "router input_projection" (zlen (lr_input_projection r)) n_in in
  let* _ := check_shape "router input_bias" (zlen (lr_input_bias r)) (lr_rank r) in
  let* n_out := umul U64 (lr_n_experts r) (lr_rank r) in
  let* _ := check_shape "router expert_projection" (zlen (lr_expert_projection r)) n_out in
  let* _ := check_shape "router expert_bias" (zlen (lr_expert_bias r)) (lr_n_experts r) in
  let* _ := check_finite block "input_projection" (lr_input_projection r) in
  let* _ := check_finite block "input_bias" (lr_input_bias r) in
  let* _ := check_finite block "expert_projection" (lr_expert_projection r) in
  check_finite block "expert_bias" (lr_expert_bias r).

Definition LowRankRouter_new (rank d_model n_experts : Z)
    (input_projection input_bias expert_projection expert_bias : list f32)
    : outcome StateModelError LowRankRouter :=
  let router := MkLowRankRouter rank d_model n_experts input_projection input_bias
                  expert_projection expert_bias in
  let* _ := LowRankRouter_validate router (U64 - 1) in
  Ok router.

(** [chunks_exact(n)]; a chunk size of zero panics. *)
Fixpoint chunks_fuel {A} (fuel : nat) (n : nat) (l : list A) : list (list A) :=
  match fuel with
  | O => []
  | S fuel' => if (length l <? n)%nat then [] else take n l :: chunks_fuel fuel' n (drop n l)
  end.
Definition chunks_exact {E A} (n : Z) (l : list A) : outcome E (list (list A)) :=
  if n =? 0 then Panic else Ok (chunks_fuel (S (length l)) (Z.to_nat n) l).

Definition f32_dot (bias : f32) (row x : list f32) : f32 :=
  foldl f32_add bias (map (fun wx => f32_mul wx.1 wx.2) (zip row x)).

(** The [f32] reference: the argmax starts at index 0 with minus infinity. *)
Definition route_f32_step (st : Z * f32) (e_acc : Z * f32) : Z * f32 :=
  if SpecFloat.SFltb st.2 e_acc.2 then e_acc else st.

Definition route_f32_with_logits {E} `{BuildProfile} (r : LowRankRouter) (x : list f32)
    : outcome E (Z * list f32) :=
  let* _ := debug_assert (zlen x =? lr_d_model r) in
  let* in_rows := chunks_exact (lr_d_model r) (lr_input_projection r) in
  let hid := map (fun rb => f32_dot rb.2 rb.1 x) (zip in_rows (lr_input_bias r)) in
  let* out_rows := chunks_exact (lr_rank r) (lr_expert_projection r) in
  let accs := map (fun rb => f32_dot rb.2 rb.1 hid) (zip out_rows (lr_expert_bias r)) in
  let* _ := rust_assert (zlen accs <=? lr_n_experts r) in
  let raw := accs ++ repeat (f32_of_Z 0) (Z.to_nat (lr_n_experts r - zlen accs)) in
  let best := foldl route_f32_step (0, SpecFloat.S754_infinity true) (enumerate accs) in
  Ok (best.1, raw).

Definition route_f32 {E} `{BuildProfile} (r : LowRankRouter) (x : list f32) : outcome E Z :=
  let* (e, _) := route_f32_with_logits r x in Ok e.

(** ** The fixed-point router *)

Definition ROUTER_XR_SHIFT : Z := 11.
Definition ROUTER_WEIGHT_SHIFT : Z := 16.
Definition ROUTER_HIDDEN_SHIFT : Z := 16.
Definition ROUTER_ACC_I62_BOUND : Z := Z.shiftl 1 62 - 1.
Definition ROUTER_XR_MAX : Z := Z.shiftl (Z.shiftl 1 23 - 1) ROUTER_XR_SHIFT.

Record FixedRouter := MkFixedRouter {
  fr_rank : Z;
  fr_d_model : Z;
  fr_n_experts : Z;
  fr_win_q : list Z;
  fr_bin_q : list Z;
  fr_wout_q : list Z;
  fr_bout_q : list Z;
  fr_hidden_structural_bound : Z;
  fr_raw_structural_bound : Z;
}.

Definition quant_weight (block : Z) (what : string) (w : list f32) : outcome StateModelError (list Z) :=
  omapM (fun iv : Z * f32 =>
           let q := rte_i64 (f64_mul (f64_of_f32 iv.2) (f64_of_Z (Z.shiftl 1 ROUTER_WEIGHT_SHIFT))) in
           ok_or (try_from_i I32 q) (Sm_RouterWeightEscapesI32 block what iv.1 q))
    (enumerate w).

Definition quant_bias (b : list f32) : list Z :=
  map (fun v => rte_i64 (f64_mul (f64_of_f32 v) (f64_of_Z 4294967296))) b.

(** The hidden bound of row [k]; the quantized bound goes to [hidden_q_bound]. *)
Definition hidden_bound_row (block d_model : Z) (win_q bin_q : list Z) (st : Z * list Z) (k : Z)
    : outcome StateModelError (Z * list Z) :=
  let '(structural, bounds) := st in
  let* row := slice win_q (k * d_model) ((k + 1) * d_model) in
  let* abssum := ofold (fun acc w => uadd U64 acc (Z.abs w)) 0 row in
  let* bias := index bin_q k in
  let bound := saturating_add U64 (Z.abs bias) (saturating_mul U64 abssum ROUTER_XR_MAX) in
  let* _ := guard_err (ROUTER_ACC_I62_BOUND <? bound) (Sm_RouterHiddenEscapesI62 block k bound) in
  let* rounded := uadd U64 bound (Z.shiftl 1 (ROUTER_HIDDEN_SHIFT - 1)) in
  let* bounds := set_index bounds k (Z.shiftr rounded ROUTER_HIDDEN_SHIFT) in
  Ok (Z.max structural bound, bounds).

Definition raw_bound_row (block rank : Z) (wout_q bout_q hidden_q_bound : list Z) (structural e : Z)
    : outcome StateModelError Z :=
  let* bias := index bout_q e in
  let* bound := ofold (fun bound k =>
                         let* w := index wout_q (e * rank + k) in
                         let* h := index hidden_q_bound k in
                         Ok (saturating_add U64 bound (saturating_mul U64 (Z.abs w) h)))
                  (Z.abs bias) (zrange rank) in
  let* _ := guard_err (ROUTER_ACC_I62_BOUND <? bound) (Sm_RouterRawLogitEscapesI62 block e bound) in
  Ok (Z.max structural bound).

Definition FixedRouter_lower (router : LowRankRouter) (block : Z)
    : outcome StateModelError FixedRouter :=
  let rank := lr_rank router in
  let d_model := lr_d_model router in
  let n_experts := lr_n_experts router in
  let* win_q := quant_weight block "input_projection" (lr_input_projection router) in
  let bin_q := quant_bias (lr_input_bias router) in
  let* wout_q := quant_weight block "expert_projection" (lr_expert_projection router) in
  let bout_q := quant_bias (lr_expert_bias router) in
  let* (hidden, hidden_q_bound) :=
    ofold (hidden_bound_row block d_model win_q bin_q) (0, repeat 0 (Z.to_nat rank)) (zrange rank) in
  let* raw := ofold (raw_bound_row block rank wout_q bout_q hidden_q_bound) 0 (zrange n_experts) in
  Ok (MkFixedRouter rank d_model n_experts win_q bin_q wout_q bout_q hidden raw).

(** [acc += w * x] over a row, in [i64]. *)
Definition dot_i64 {E} (init : Z) (ws xs : list Z) : outcome E Z :=
  ofold (fun acc wx => let* p := ichk I64 (wx.1 * wx.2) in ichk I64 (acc + p)) init (zip ws xs).

Definition hidden_row {E} (fr : FixedRouter) (xr : list Z) (k : Z) : outcome E Z :=
  let* bias := index (fr_bin_q fr) k in
  let* row := slice (fr_win_q fr) (k * fr_d_model fr) ((k + 1) * fr_d_model fr) in
  let* acc := dot_i64 bias row xr in
  let* rounded := uadd U64 (Z.abs acc) (Z.shiftl 1 (ROUTER_HIDDEN_SHIFT - 1)) in
  let mag := as_signed I64 (Z.shiftr rounded ROUTER_HIDDEN_SHIFT) in
  if acc <? 0 then ichk I64 (- mag) else Ok mag.

Definition raw_row {E} (fr : FixedRouter) (hidden_q : list Z) (e : Z) : outcome E Z :=
  let* bias := index (fr_bout_q fr) e in
  let* row := slice (fr_wout_q fr) (e * fr_rank fr) ((e + 1) * fr_rank fr) in
  dot_i64 bias row hidden_q.

(** The running argmax: strictly greater wins, starting at index 0 and
    [i64::MIN]. *)
Definition route_step (st : Z * Z) (e_acc : Z * Z) : Z * Z :=
  if st.2 <? e_acc.2 then e_acc else st.

Definition route_with_logits {E} `{BuildProfile} (fr : FixedRouter) (x : list Z)
    : outcome E (Z * list Z) :=
  let* _ := debug_assert (zlen x =? fr_d_model fr) in
  let xr := map (fun v => as_signed I64 (Z.shiftl v ROUTER_XR_SHIFT)) x in
  let* hidden_q := omapM (hidden_row fr xr) (zrange (fr_rank fr)) in
  let* raw := omapM (raw_row fr hidden_q) (zrange (fr_n_experts fr)) in
  let best := foldl route_step (0, - I64) (enumerate raw) in
  Ok (best.1, raw).

Definition route {E} `{BuildProfile} (fr : FixedRouter) (x : list Z) : outcome E Z :=
  let* (e, _) := route_with_logits fr x in Ok e.

Definition param_bytes (fr : FixedRouter) : list Z :=
  flat_map (signed_le_bytes 4) (fr_win_q fr) ++ flat_map (signed_le_bytes 8) (fr_bin_q fr)
  ++ flat_map (signed_le_bytes 4) (fr_wout_q fr) ++ flat_map (signed_le_bytes 8) (fr_bout_q fr).
