(* ===== verification/RouterFacts.v ===== *)
(** * Correctness of the fixed-point router

    Lowering accepts a router only if its accumulators provably stay inside
    62 bits; routing on any residual then computes the exact integer logits
    without overflow and picks the first of the largest. *)

From S2P Require Import Prelude Numeric Float KernelSpec ModelRef ModelRefFacts Router.

(** ** Exact dot products *)

Definition dot (ws xs : list Z) : Z := zsum (map (fun wx => wx.1 * wx.2) (zip ws xs)).
Definition abs_sum (ws : list Z) : Z := zsum (map Z.abs ws).

Lemma abs_sum_nonneg ws : 0 <= abs_sum ws.
Proof. unfold abs_sum. induction ws as [|w ws IH]; [done|]. cbn [map zsum]. lia. Qed.

(** The sum of the magnitudes of the products bounds every partial sum. *)
Definition dot_mag (ws xs : list Z) : Z := zsum (map (fun wx => Z.abs (wx.1 * wx.2)) (zip ws xs)).

Lemma dot_mag_nonneg ws xs : 0 <= dot_mag ws xs.
Proof. unfold dot_mag. induction (zip ws xs) as [|wx l IH]; [done|]. cbn [map zsum]. lia. Qed.

Lemma dot_abs ws : forall xs, Z.abs (dot ws xs) <= dot_mag ws xs.
Proof.
  unfold dot, dot_mag. intros xs. induction (zip ws xs) as [|wx l IH]; [done|]. cbn [map zsum]. lia.
Qed.

Lemma dot_mag_uniform M ws : forall xs, 0 <= M -> Forall (fun x => Z.abs x <= M) xs ->
  dot_mag ws xs <= abs_sum ws * M.
Proof.
  unfold dot_mag, abs_sum. induction ws as [|w ws IH]; intros xs HM Hx; [done|].
  pose proof (abs_sum_nonneg ws) as H0. unfold abs_sum in H0.
  destruct xs as [|x xs]; [cbn [map zip_with zsum]; simpl; nia|]. apply Forall_cons in Hx as [Hx1 Hx].
  specialize (IH xs HM Hx). cbn [map zip_with zsum fst snd] in *. pose proof (Z.abs_mul w x). nia.
Qed.

Lemma dot_i64_total {E} ws : forall xs init, Z.abs init + dot_mag ws xs < I64 ->
  @dot_i64 E init ws xs = Ok (init + dot ws xs).
Proof.
  unfold dot_i64, dot, dot_mag. intros xs. induction (zip ws xs) as [|[w x] l IH]; intros init Hb.
  - cbn. by rewrite Z.add_0_r.
  - cbn [map zsum fst snd ofold] in *.
    assert (0 <= zsum (map (fun wx => Z.abs (wx.1 * wx.2)) l))
      by (clear; induction l as [|wx l IH]; [done | cbn [map zsum]; lia]).
    rewrite ichk_fits by lia. cbn [obind]. rewrite ichk_fits by lia. cbn [obind].
    rewrite IH by lia. f_equal. lia.
Qed.

(** ** What lowering establishes *)

Definition win_row (fr : FixedRouter) (k : Z) : list Z := table_row (fr_win_q fr) (fr_d_model fr) k.
Definition wout_row (fr : FixedRouter) (e : Z) : list Z := table_row (fr_wout_q fr) (fr_rank fr) e.
Definition nth_Z (l : list Z) (k : Z) : Z := default 0 (l !! Z.to_nat k).

(** The bounds that lowering checks, on the quantized tables. *)
Definition hidden_bound (fr : FixedRouter) (k : Z) : Z :=
  Z.abs (nth_Z (fr_bin_q fr) k) + abs_sum (win_row fr k) * ROUTER_XR_MAX.
Definition hidden_q_bound (fr : FixedRouter) (k : Z) : Z := (hidden_bound fr k + 32768) / 65536.
Definition raw_bound (fr : FixedRouter) (e : Z) : Z :=
  Z.abs (nth_Z (fr_bout_q fr) e)
  + zsum (map (fun k => Z.abs (nth_Z (fr_wout_q fr) (e * fr_rank fr + k)) * hidden_q_bound fr k)
      (zrange (fr_rank fr))).

Record router_ok (fr : FixedRouter) : Prop := {
  ro_rank : 0 <= fr_rank fr;
  ro_d : 0 <= fr_d_model fr;
  ro_n : 0 <= fr_n_experts fr;
  ro_win : zlen (fr_win_q fr) = fr_rank fr * fr_d_model fr;
  ro_bin : zlen (fr_bin_q fr) = fr_rank fr;
  ro_wout : zlen (fr_wout_q fr) = fr_n_experts fr * fr_rank fr;
  ro_bout : zlen (fr_bout_q fr) = fr_n_experts fr;
  ro_hidden : forall k, 0 <= k < fr_rank fr -> hidden_bound fr k <= ROUTER_ACC_I62_BOUND;
  ro_raw : forall e, 0 <= e < fr_n_experts fr -> raw_bound fr e <= ROUTER_ACC_I62_BOUND;
}.

Lemma nth_Z_total {E} l k : 0 <= k < zlen l -> @index E Z l k = Ok (nth_Z l k).
Proof.
  intros Hk. unfold nth_Z. destruct (@index_total E _ l k Hk) as (v & -> & ->). done.
Qed.

(** A saturated bound that passes the check did not saturate. *)
Lemma saturating_exact a b c : 0 <= a -> 0 <= b -> 0 <= c ->
  saturating_add U64 c (saturating_mul U64 a b) <= ROUTER_ACC_I62_BOUND ->
  saturating_add U64 c (saturating_mul U64 a b) = c + a * b.
Proof.
  unfold saturating_add, saturating_mul. change ROUTER_ACC_I62_BOUND with (2 ^ 62 - 1). nia.
Qed.

Lemma quant_weight_length block what w q : quant_weight block what w = Ok q -> zlen q = zlen w.
Proof.
  unfold quant_weight. intros H%omapM_length. unfold zlen. by rewrite H, enumerate_length.
Qed.

Lemma sum_u64_Ok {E} row : forall init s,
  ofold (fun acc w => @uadd E U64 acc (Z.abs w)) init row = Ok s -> s = init + abs_sum row.
Proof.
  unfold abs_sum. induction row as [|w row IH]; intros init s H; cbn [ofold map zsum] in *.
  - injection H as <-. lia.
  - apply obind_Ok in H as (t & Ht & H). unfold uadd in Ht. case_match; [|done]. injection Ht as <-.
    rewrite (IH _ _ H). lia.
Qed.

(** The tables of a lowering in progress. *)
Section lowering.
Context (block rank d n : Z) (win bin wout bout : list Z).
Hypothesis (Hrank : 0 <= rank) (Hd : 0 <= d) (Hn : 0 <= n).
Hypothesis (Hwin : zlen win = rank * d) (Hbin : zlen bin = rank).
Hypothesis (Hwout : zlen wout = n * rank) (Hbout : zlen bout = n).

Local Abbreviation fr := (MkFixedRouter rank d n win bin wout bout 0 0).

Lemma slice_row {E A} (l : list A) w k m : zlen l = m * w -> 0 <= w -> 0 <= k < m ->
  @slice E A l (k * w) ((k + 1) * w) = Ok (table_row l w k) /\ zlen (table_row l w k) = w.
Proof using Type.
  intros Hl Hw Hk. replace ((k + 1) * w) with (k * w + w) by lia.
  destruct (@table_row_total E A (fun _ => True) l m w k Hl Hw Hk) as (H1 & H2 & _); [|done].
  by apply Forall_forall.
Qed.

(** After [k] rows the first [k] quantized bounds are set. *)
Definition hidden_rows_inv (k : Z) (st : Z * list Z) : Prop :=
  zlen st.2 = rank
  /\ (forall j, 0 <= j < k -> st.2 !! Z.to_nat j = Some (hidden_q_bound fr j))
  /\ forall j, 0 <= j < k -> hidden_bound fr j <= ROUTER_ACC_I62_BOUND.

Lemma hidden_rows st : ofold (hidden_bound_row block d win bin) (0, repeat 0 (Z.to_nat rank)) (zrange rank) = Ok st ->
  hidden_rows_inv rank st.
Proof using Hrank Hd Hwin Hbin.
  apply (ofold_zrange_inv hidden_rows_inv); [done | |].
  - unfold hidden_rows_inv, zlen. cbn [snd]. rewrite repeat_length. split_and!; lia.
  - intros k [structural bounds] st' Hk (Hlen & Hq & Hb) H. unfold hidden_bound_row in H. cbn [fst snd] in *.
    destruct (@slice_row StateModelError Z win d k rank Hwin Hd Hk) as [Hrow _]. rewrite Hrow in H. cbn [obind] in H.
    apply obind_Ok in H as (s & Hs%sum_u64_Ok & H). rewrite Z.add_0_l in Hs.
    rewrite nth_Z_total in H by lia. cbn [obind] in H. inv_ok. apply Z.ltb_ge in Hx.
    assert (Hsat : saturating_add U64 (Z.abs (nth_Z bin k)) (saturating_mul U64 (abs_sum (table_row win d k)) ROUTER_XR_MAX)
                   = hidden_bound fr k).
    { unfold hidden_bound, win_row. cbn [fr_bin_q fr_win_q fr_d_model].
      apply saturating_exact; [apply abs_sum_nonneg | done | lia | done]. }
    rewrite Hsat in Hx, Hx0. unfold uadd in Hx0. case_match; [|done]. injection Hx0 as <-.
    apply set_index_Ok in Hx1 as [-> Hkl]; [|lia]. cbn [snd].
    change (Z.shiftl 1 (ROUTER_HIDDEN_SHIFT - 1)) with 32768.
    unfold hidden_rows_inv. cbn [snd]. split_and!.
    + unfold zlen in *. by rewrite length_insert.
    + intros j Hj. destruct (Z.eq_dec j k) as [->|Hne].
      * rewrite list_lookup_insert_eq by (unfold zlen in *; lia). f_equal. unfold hidden_q_bound.
        rewrite Z.shiftr_div_pow2 by done. done.
      * rewrite list_lookup_insert_ne by lia. apply Hq. lia.
    + intros j Hj. destruct (Z.eq_dec j k) as [->|Hne]; [done|]. apply Hb. lia.
Qed.

Lemma raw_row_sum bounds e bias k bound : (forall j, 0 <= j < rank -> bounds !! Z.to_nat j = Some (hidden_q_bound fr j)) ->
  (forall j, 0 <= j < rank -> 0 <= hidden_q_bound fr j) -> 0 <= bias -> 0 <= k <= rank -> 0 <= e < n ->
  ofold (fun bound k =>
           let* w := index wout (e * rank + k) in
           let* h := index bounds k in
           Ok (E := StateModelError) (saturating_add U64 bound (saturating_mul U64 (Z.abs w) h))) bias (zrange k) = Ok bound ->
  bound <= ROUTER_ACC_I62_BOUND ->
  bound = bias + zsum (map (fun j => Z.abs (nth_Z wout (e * rank + j)) * hidden_q_bound fr j) (zrange k)).
Proof using Hrank Hwout.
  intros Hb Hh Hbias [Hk0 Hk] He. revert k Hk0 Hk bound. apply (natlike_ind (fun k => k <= rank -> forall bound, _ -> _ -> _)).
  - intros _ bound [= <-] _. change (zrange 0) with (@nil Z). simpl. lia.
  - intros k Hk IH Hkr bound H Hle. unfold Z.succ in *. rewrite zrange_succ, ofold_app in H by done.
    apply obind_Ok in H as (t & Ht & H). simpl in H. rewrite nth_Z_total in H by nia. cbn [obind] in H.
    rewrite (index_Some bounds k (hidden_q_bound fr k)) in H by (lia || (apply Hb; lia)). cbn [obind] in H.
    injection H as <-. pose proof (Hh k ltac:(lia)) as Hhk.
    assert (Htle : t <= ROUTER_ACC_I62_BOUND).
    { unfold saturating_add in Hle. change ROUTER_ACC_I62_BOUND with (2 ^ 62 - 1) in *.
      assert (0 <= saturating_mul U64 (Z.abs (nth_Z wout (e * rank + k))) (hidden_q_bound fr k))
        by (unfold saturating_mul; nia). lia. }
    pose proof (IH ltac:(lia) t Ht Htle) as Heq.
    assert (0 <= zsum (map (fun j => Z.abs (nth_Z wout (e * rank + j)) * hidden_q_bound fr j) (zrange k))).
    { clear - Hh Hkr Hk. assert (forall j, j ∈ zrange k -> 0 <= hidden_q_bound fr j)
        by (intros j Hj%zrange_elem; apply Hh; lia). revert H. generalize (zrange k). induction l as [|j l IHl]; intros Hp; [done|].
      cbn [map zsum]. pose proof (Hp j ltac:(by left)). specialize (IHl ltac:(intros i Hi; apply Hp; by right)). nia. }
    rewrite saturating_exact by (done || lia). rewrite (zrange_succ k) by done. rewrite map_app, zsum_app. simpl. lia.
Qed.

Lemma raw_rows st raw : hidden_rows_inv rank st ->
  ofold (raw_bound_row block rank wout bout st.2) 0 (zrange n) = Ok raw ->
  forall e, 0 <= e < n -> raw_bound fr e <= ROUTER_ACC_I62_BOUND.
Proof using Hrank Hn Hwout Hbout.
  intros (Hlen & Hq & Hb) H.
  refine (ofold_zrange_inv (fun k _ => forall e, 0 <= e < k -> raw_bound fr e <= ROUTER_ACC_I62_BOUND)
            _ _ _ _ Hn _ _ H); [lia|].
  intros k t t' Hk IH Hstep e He. destruct (Z.eq_dec e k) as [->|Hne]; [|apply IH; lia].
  unfold raw_bound_row in Hstep. rewrite nth_Z_total in Hstep by lia. cbn [obind] in Hstep.
  apply obind_Ok in Hstep as (bound & Hbound & Hstep).
  apply obind_Ok in Hstep as (? & [Hx%Z.ltb_ge _]%guard_err_Ok & _).
  unfold raw_bound. cbn [fr_bout_q fr_wout_q fr_rank].
  rewrite <- (raw_row_sum st.2 k (Z.abs (nth_Z bout k)) rank bound); [done | exact Hq | | lia | lia | lia | done | done].
  intros j Hj. unfold hidden_q_bound, hidden_bound. apply Z.div_pos; [|done].
  pose proof (abs_sum_nonneg (win_row fr j)). change ROUTER_XR_MAX with ((2 ^ 23 - 1) * 2 ^ 11). nia.
Qed.

End lowering.

(** A router of valid shape that lowers satisfies the width bounds. *)
Lemma FixedRouter_lower_ok r block block' fr : 0 <= lr_rank r -> 0 <= lr_d_model r -> 0 <= lr_n_experts r ->
  LowRankRouter_validate r block = Ok tt -> FixedRouter_lower r block' = Ok fr ->
  router_ok fr /\ fr_rank fr = lr_rank r /\ fr_d_model fr = lr_d_model r /\ fr_n_experts fr = lr_n_experts r.
Proof.
  intros Hr Hd Hn Hv H. unfold LowRankRouter_validate in Hv. unfold check_shape, check_finite in Hv.
  apply obind_Ok in Hv as (n_in & Hin & Hv). unfold umul in Hin. case_match; [|done]. injection Hin as <-.
  apply obind_Ok in Hv as (? & [V1 _]%guard_err_Ok & Hv). apply obind_Ok in Hv as (? & [V2 _]%guard_err_Ok & Hv).
  apply obind_Ok in Hv as (n_out & Hout & Hv). unfold umul in Hout. case_match; [|done]. injection Hout as <-.
  apply obind_Ok in Hv as (? & [V3 _]%guard_err_Ok & Hv). apply obind_Ok in Hv as (? & [V4 _]%guard_err_Ok & Hv).
  clear Hv. unfold FixedRouter_lower in H.
  apply obind_Ok in H as (win & Hwin%quant_weight_length & H).
  apply obind_Ok in H as (wout & Hwout%quant_weight_length & H).
  assert (Hb : forall b, zlen (quant_bias b) = zlen b) by (intros b; unfold quant_bias, zlen; by rewrite length_map).
  apply obind_Ok in H as ([hidden hq] & Hh & H). apply obind_Ok in H as (raw & Hraw & [= <-]).
  assert (E1 : zlen win = lr_rank r * lr_d_model r) by lia.
  assert (E2 : zlen (quant_bias (lr_input_bias r)) = lr_rank r) by (rewrite Hb; lia).
  assert (E3 : zlen wout = lr_n_experts r * lr_rank r) by lia.
  assert (E4 : zlen (quant_bias (lr_expert_bias r)) = lr_n_experts r) by (rewrite Hb; lia).
  pose proof (hidden_rows _ _ _ (lr_n_experts r) _ _ wout (quant_bias (lr_expert_bias r)) Hr Hd E1 E2 _ Hh) as Hi.
  split; [|done]. constructor; cbn [fr_rank fr_d_model fr_n_experts fr_win_q fr_bin_q fr_wout_q fr_bout_q]; try done.
  - intros k Hk. by apply Hi.
  - exact (raw_rows _ _ _ _ _ _ _ _ Hr Hn E3 E4 _ _ Hi Hraw).
Qed.

(** ** Routing *)

(** A residual as the forward pass carries it: [d] wrapped 24-bit lanes. *)
Definition lanes24 (d : Z) (x : list Z) : Prop := zlen x = d /\ Forall (fun v => - I24 <= v < I24) x.

(** The exact hidden units and logits. *)
Definition ideal_hidden (fr : FixedRouter) (x : list Z) (k : Z) : Z :=
  round_half_away (nth_Z (fr_bin_q fr) k + dot (win_row fr k) (map (fun v => v * 2048) x)) 65536.
Definition ideal_raw (fr : FixedRouter) (x : list Z) (e : Z) : Z :=
  nth_Z (fr_bout_q fr) e + dot (wout_row fr e) (map (ideal_hidden fr x) (zrange (fr_rank fr))).

Lemma round_half_away_mag a b : 0 < b -> Z.abs (round_half_away a b) = (2 * Z.abs a + b) / (2 * b).
Proof.
  intros Hb. unfold round_half_away. pose proof (Z.div_pos (2 * Z.abs a + b) (2 * b) ltac:(lia) ltac:(lia)).
  rewrite Z.abs_mul. destruct (Z.eq_dec a 0) as [->|Ha]; [simpl; symmetry; apply Z.div_small; lia|].
  rewrite (Z.abs_eq (_ / _)) by done. assert (Z.abs (Z.sgn a) = 1) by lia. lia.
Qed.

Lemma shift_lanes d x : lanes24 d x ->
  map (fun v => as_signed I64 (Z.shiftl v ROUTER_XR_SHIFT)) x = map (fun v => v * 2048) x
  /\ Forall (fun v => Z.abs v <= 2 ^ 34) (map (fun v => v * 2048) x).
Proof.
  intros [_ Hx]. split.
  - apply map_ext_in. intros v Hv%list_elem_of_In. rewrite Forall_forall in Hx. specialize (Hx v Hv).
    rewrite Z.shiftl_mul_pow2 by done. change (2 ^ ROUTER_XR_SHIFT) with 2048.
    apply as_signed_id. unfold I24, I64 in *. lia.
  - apply List.Forall_map. eapply Forall_impl; [exact Hx|]. intros v Hv. cbv beta in Hv. unfold I24 in Hv. lia.
Qed.

Section routing.
Context (fr : FixedRouter) (x : list Z).
Hypothesis (Hok : router_ok fr) (Hx : lanes24 (fr_d_model fr) x).

Lemma hidden_acc_bound k : 0 <= k < fr_rank fr ->
  Z.abs (nth_Z (fr_bin_q fr) k) + dot_mag (win_row fr k) (map (fun v => v * 2048) x)
    <= Z.abs (nth_Z (fr_bin_q fr) k) + abs_sum (win_row fr k) * 2 ^ 34
  /\ Z.abs (nth_Z (fr_bin_q fr) k) + abs_sum (win_row fr k) * 2 ^ 34 < I64
  /\ Z.abs (ideal_hidden fr x k) <= 2 * hidden_q_bound fr k.
Proof using Hok Hx.
  intros Hk. destruct (shift_lanes _ _ Hx) as [_ Hs].
  pose proof (dot_mag_uniform (2 ^ 34) (win_row fr k) _ ltac:(done) Hs) as Hm.
  pose proof (ro_hidden _ Hok k Hk) as Hb. pose proof (abs_sum_nonneg (win_row fr k)) as H0.
  pose proof (dot_abs (win_row fr k) (map (fun v => v * 2048) x)) as Ha.
  unfold ideal_hidden. rewrite round_half_away_mag by done.
  unfold hidden_q_bound, hidden_bound in *. change ROUTER_XR_MAX with (2 ^ 34 - 2 ^ 11) in *.
  change ROUTER_ACC_I62_BOUND with (2 ^ 62 - 1) in *.
  set (b := Z.abs (nth_Z (fr_bin_q fr) k)) in *. set (a := abs_sum (win_row fr k)) in *.
  set (acc := nth_Z (fr_bin_q fr) k + dot (win_row fr k) (map (fun v => v * 2048) x)) in *.
  assert (Hacc : Z.abs acc <= b + a * 2 ^ 34) by (unfold acc, b; lia). clearbody acc.
  split; [lia|]. split; [unfold I64; lia|].
  pose proof (Z.div_mod (b + a * (2 ^ 34 - 2 ^ 11) + 32768) 65536 ltac:(done)) as D1.
  pose proof (Z.mod_pos_bound (b + a * (2 ^ 34 - 2 ^ 11) + 32768) 65536 ltac:(done)) as D2.
  pose proof (Z.div_mod (2 * Z.abs acc + 65536) (2 * 65536) ltac:(done)) as D3.
  pose proof (Z.mod_pos_bound (2 * Z.abs acc + 65536) (2 * 65536) ltac:(done)) as D4.
  assert (0 <= b) by (unfold b; lia). clearbody b a. destruct (Z.eq_dec a 0) as [->|]; lia.
Qed.

Lemma hidden_row_total {E} k : 0 <= k < fr_rank fr ->
  @hidden_row E fr (map (fun v => v * 2048) x) k = Ok (ideal_hidden fr x k).
Proof using Hok Hx.
  intros Hk. destruct (hidden_acc_bound k Hk) as (B1 & B2 & B3). unfold hidden_row.
  rewrite nth_Z_total by (rewrite (ro_bin _ Hok); lia). cbn [obind].
  destruct (@slice_row E Z (fr_win_q fr) (fr_d_model fr) k (fr_rank fr) (ro_win _ Hok) (ro_d _ Hok) Hk) as [-> _].
  cbn [obind]. fold (win_row fr k). rewrite dot_i64_total by lia. cbn [obind].
  unfold ideal_hidden in *. set (acc := nth_Z (fr_bin_q fr) k + _) in *.
  assert (Hacc : Z.abs acc < I64) by (pose proof (dot_abs (win_row fr k) (map (fun v => v * 2048) x)); unfold acc; lia).
  clearbody acc. unfold I64 in *. change (Z.shiftl 1 (ROUTER_HIDDEN_SHIFT - 1)) with 32768.
  unfold uadd. rewrite (proj2 (Z.ltb_lt _ _)) by lia. cbn [obind].
  rewrite Z.shiftr_div_pow2 by done. change (2 ^ ROUTER_HIDDEN_SHIFT) with 65536.
  assert (Hm : (Z.abs acc + 32768) / 65536 = Z.abs (round_half_away acc 65536)).
  { rewrite round_half_away_mag by done. replace (2 * Z.abs acc + 65536) with (2 * (Z.abs acc + 32768)) by lia.
    by rewrite Z.div_mul_cancel_l by done. }
  assert (0 <= (Z.abs acc + 32768) / 65536 < 2 ^ 48)
    by (split; [apply Z.div_pos; lia | apply Z.div_lt_upper_bound; lia]).
  rewrite as_signed_id by (unfold I64; lia). rewrite (neg_if_sgn (2 ^ 63)); [f_equal | lia |].
  - rewrite Hm. unfold round_half_away. rewrite Z.abs_mul.
    pose proof (Z.div_pos (2 * Z.abs acc + 65536) (2 * 65536) ltac:(lia) ltac:(lia)).
    rewrite (Z.abs_eq (_ / _)) by done. destruct (Z.sgn_spec acc) as [[_ ->]|[[_ ->]|[_ ->]]]; lia.
  - intros ->. done.
Qed.

Lemma table_row_nth (l : list Z) n d i : zlen l = n * d -> 0 <= d -> 0 <= i < n ->
  table_row l d i = map (fun k => nth_Z l (i * d + k)) (zrange d).
Proof using Type.
  intros Hl Hd Hi. unfold table_row, nth_Z, zlen in *. apply list_eq. intros j.
  destruct (decide (j < Z.to_nat d)%nat) as [Hj|Hj].
  - rewrite lookup_take_lt, lookup_drop by done. rewrite list_lookup_fmap, zrange_lookup by done. simpl.
    replace (Z.to_nat (i * d + Z.of_nat j)) with (Z.to_nat (i * d) + j)%nat by nia.
    destruct (lookup_lt_is_Some_2 l (Z.to_nat (i * d) + j)) as [v ->]; [nia | done].
  - rewrite !(proj2 (lookup_ge_None _ _)); [done | |].
    + rewrite length_map, zrange_length. lia.
    + rewrite length_take. lia.
Qed.

Lemma zip_map {A B C} (f : A -> B) (g : A -> C) l : zip (map f l) (map g l) = map (fun a => (f a, g a)) l.
Proof using Type. induction l as [|a l IH]; [done|]. simpl. by rewrite IH. Qed.

Lemma zsum_le {A} (f g : A -> Z) l : (forall a, a ∈ l -> f a <= g a) -> zsum (map f l) <= zsum (map g l).
Proof using Type.
  induction l as [|a l IH]; intros H; [done|]. cbn [map zsum].
  pose proof (H a ltac:(by left)). specialize (IH ltac:(intros b Hb; apply H; by right)). lia.
Qed.

Lemma raw_mag e : 0 <= e < fr_n_experts fr ->
  Z.abs (nth_Z (fr_bout_q fr) e) + dot_mag (wout_row fr e) (map (ideal_hidden fr x) (zrange (fr_rank fr)))
    <= 2 * raw_bound fr e.
Proof using Hok Hx.
  intros He. unfold wout_row, raw_bound, dot_mag.
  rewrite (table_row_nth _ (fr_n_experts fr)) by (apply Hok || done).
  rewrite zip_map, map_map, Z.mul_add_distr_l, <- zsum_scale, map_map.
  apply Z.add_le_mono; [lia|]. apply zsum_le. intros k Hk%zrange_elem. cbn [fst snd].
  destruct (hidden_acc_bound k Hk) as (_ & _ & Hb). rewrite Z.abs_mul.
  pose proof (Z.abs_nonneg (nth_Z (fr_wout_q fr) (e * fr_rank fr + k))). nia.
Qed.

Lemma raw_row_total {E} e : 0 <= e < fr_n_experts fr ->
  @raw_row E fr (map (ideal_hidden fr x) (zrange (fr_rank fr))) e = Ok (ideal_raw fr x e)
  /\ Z.abs (ideal_raw fr x e) <= 2 ^ 63 - 2.
Proof using Hok Hx.
  intros He. pose proof (raw_mag e He) as Hm. pose proof (ro_raw _ Hok e He) as Hb.
  change ROUTER_ACC_I62_BOUND with (2 ^ 62 - 1) in Hb. unfold raw_row, ideal_raw.
  rewrite nth_Z_total by (rewrite (ro_bout _ Hok); lia). cbn [obind].
  destruct (@slice_row E Z (fr_wout_q fr) (fr_rank fr) e (fr_n_experts fr) (ro_wout _ Hok) (ro_rank _ Hok) He) as [-> _].
  cbn [obind]. fold (wout_row fr e). split.
  - apply dot_i64_total. unfold I64. lia.
  - pose proof (dot_abs (wout_row fr e) (map (ideal_hidden fr x) (zrange (fr_rank fr)))). lia.
Qed.

(** The running argmax over logits above [i64::MIN] is the first maximum. *)
Lemma route_fold_first l : forall seen i v, first_max seen i v ->
  exists i' v', first_max (seen ++ l) i' v'
    /\ foldl route_step (Z.of_nat i, v) (zip (map Z.of_nat (seq (length seen) (length l))) l) = (Z.of_nat i', v').
Proof using Type.
  induction l as [|w l IH]; intros seen i v Hm.
  - exists i, v. by rewrite app_nil_r.
  - cbn [length seq map zip_with foldl]. unfold route_step at 2. cbn [fst snd].
    replace (seen ++ w :: l) with ((seen ++ [w]) ++ l) by by rewrite <- app_assoc.
    replace (S (length seen)) with (length (seen ++ [w])) by (rewrite length_app; simpl; lia).
    destruct (Z.ltb_spec v w).
    + apply IH. by apply (first_max_snoc seen i v w).
    + apply IH. apply first_max_app; [done|]. by repeat constructor.
Qed.

Lemma route_best raw : raw <> [] -> Forall (fun v => - I64 < v) raw ->
  exists i v, first_max raw i v /\ foldl route_step (0, - I64) (enumerate raw) = (Z.of_nat i, v).
Proof using Type.
  intros Hne Hv. destruct raw as [|v raw]; [done|]. apply Forall_cons in Hv as [Hv _].
  unfold enumerate, zrange. replace (Z.to_nat (zlen (v :: raw))) with (S (length raw)) by (unfold zlen; simpl; lia).
  cbn [seq map zip_with foldl]. unfold route_step at 2. cbn [fst snd]. rewrite (proj2 (Z.ltb_lt _ _) Hv).
  apply (route_fold_first raw [v] 0 v). constructor; [done | |].
  - intros [|j] u Hj; [by injection Hj as <- | done].
  - intros j u Hj _. lia.
Qed.

Lemma route_total `{BuildProfile} {E} : 0 < fr_n_experts fr ->
  exists e v, @route_with_logits E _ fr x = Ok (Z.of_nat e, map (ideal_raw fr x) (zrange (fr_n_experts fr)))
    /\ first_max (map (ideal_raw fr x) (zrange (fr_n_experts fr))) e v
    /\ Z.of_nat e < fr_n_experts fr
    /\ forall k, 0 <= k < fr_n_experts fr -> Z.abs (ideal_raw fr x k) < I64.
Proof using Hok Hx.
  intros Hn. destruct (shift_lanes _ _ Hx) as [Hs _]. pose proof (proj1 Hx) as Hlen.
  assert (Hb : forall k, 0 <= k < fr_n_experts fr -> Z.abs (ideal_raw fr x k) < I64).
  { intros k Hk. destruct (@raw_row_total E k Hk) as [_ Hk']. unfold I64. lia. }
  destruct (route_best (map (ideal_raw fr x) (zrange (fr_n_experts fr)))) as (e & v & Hm & Hf).
  - intros Hnil. apply (f_equal length) in Hnil. rewrite length_map, zrange_length in Hnil. simpl in Hnil. lia.
  - apply List.Forall_map, Forall_zrange. intros k Hk. specialize (Hb k Hk). lia.
  - exists e, v. split_and!; [| done | | done].
    + unfold route_with_logits. rewrite debug_assert_true by lia. cbn [obind]. rewrite Hs.
      rewrite (omapM_total _ (ideal_hidden fr x)) by (apply Forall_zrange; intros k Hk; by apply hidden_row_total).
      cbn [obind]. rewrite (omapM_total _ (ideal_raw fr x)) by (apply Forall_zrange; intros k Hk; by apply raw_row_total).
      cbn [obind]. by rewrite Hf.
    + pose proof (lookup_lt_Some _ _ _ (fm_at _ _ _ Hm)) as Hlt. rewrite length_map, zrange_length in Hlt. lia.
Qed.
End routing.

(** C35: Fixed-point routing is exact: a router that passes validation and
    lowers routes every 24-bit residual of its width, without overflow in
    [i64], to the first expert with the largest logit, and the logits are the
    exact integers of the definition (hidden units rounded half away from zero
    at 2^16); the 62-bit structural bounds of the lowering leave a factor two
    for the residual -2^23 that they do not count. *)
Theorem routing_exact `{BuildProfile} {E} r block block' fr x :
  0 <= lr_rank r -> 0 <= lr_d_model r -> 0 < lr_n_experts r ->
  LowRankRouter_validate r block = Ok tt -> FixedRouter_lower r block' = Ok fr ->
  lanes24 (lr_d_model r) x ->
  exists e v, @route_with_logits E _ fr x = Ok (Z.of_nat e, map (ideal_raw fr x) (zrange (lr_n_experts r)))
    /\ @route E _ fr x = Ok (Z.of_nat e)
    /\ first_max (map (ideal_raw fr x) (zrange (lr_n_experts r))) e v
    /\ 0 <= Z.of_nat e < lr_n_experts r
    /\ forall k, 0 <= k < lr_n_experts r -> Z.abs (ideal_raw fr x k) < I64.
Proof.
  intros Hr Hd Hn Hv Hl Hx. destruct (FixedRouter_lower_ok _ _ _ _ Hr Hd ltac:(lia) Hv Hl) as (Hok & Er & Ed & En).
  rewrite <- Ed in Hx. destruct (@route_total fr x Hok Hx _ E ltac:(lia)) as (e & v & H1 & H2 & H3 & H4).
  rewrite En in *. exists e, v. split_and!; try done; [|lia]. unfold route. by rewrite H1.
Qed.

(** ** The table bytes *)

Definition fits_bytes (n : nat) (v : Z) : Prop := - (256 ^ Z.of_nat n / 2) <= v < 256 ^ Z.of_nat n / 2.

Lemma signed_le_bytes_inj n v w : (0 < n)%nat -> fits_bytes n v -> fits_bytes n w ->
  signed_le_bytes n v = signed_le_bytes n w -> v = w.
Proof.
  intros Hn Hv Hw H. rewrite <- (signed_le_value n v Hn Hv), <- (signed_le_value n w Hn Hw). by rewrite H.
Qed.

Lemma signed_bytes_inj n l : forall l', (0 < n)%nat -> length l = length l' ->
  Forall (fits_bytes n) l -> Forall (fits_bytes n) l' ->
  flat_map (signed_le_bytes n) l = flat_map (signed_le_bytes n) l' -> l = l'.
Proof.
  induction l as [|v l IH]; intros [|w l'] Hn Hlen Hl Hl' H; try done.
  apply Forall_cons in Hl as [Hv Hl], Hl' as [Hw Hl']. injection Hlen as Hlen. cbn [flat_map] in H.
  apply app_inj_1 in H as [H1 H2]; [|unfold signed_le_bytes; by rewrite !le_bytes_len].
  f_equal; [by apply (signed_le_bytes_inj n) | by apply IH].
Qed.

Lemma flat_signed_length n l : length (flat_map (signed_le_bytes n) l) = (length l * n)%nat.
Proof.
  induction l as [|v l IH]; [done|]. cbn [flat_map]. rewrite length_app, IH.
  unfold signed_le_bytes. by rewrite le_bytes_len.
Qed.

Lemma rte_i64_fits v : - I64 <= rte_i64 v < I64.
Proof. unfold rte_i64, saturate_i64, I64. destruct v; try case_match; lia. Qed.

Record tables_fit (fr : FixedRouter) : Prop := {
  tf_win : Forall (fits_bytes 4) (fr_win_q fr);
  tf_bin : Forall (fits_bytes 8) (fr_bin_q fr);
  tf_wout : Forall (fits_bytes 4) (fr_wout_q fr);
  tf_bout : Forall (fits_bytes 8) (fr_bout_q fr);
}.

Lemma quant_weight_fits block what w q : quant_weight block what w = Ok q -> Forall (fits_bytes 4) q.
Proof.
  unfold quant_weight. intros H%omapM_Forall2. induction H as [|iv v ? ? H _ IH]; [constructor|].
  constructor; [|done]. apply ok_or_Ok in H. unfold try_from_i in H. case_match eqn:Hf; [|done].
  injection H as <-. apply fits_iff in Hf. exact Hf.
Qed.

Lemma quant_bias_fits b : Forall (fits_bytes 8) (quant_bias b).
Proof.
  unfold quant_bias. apply List.Forall_map, Forall_forall. intros v _.
  exact (rte_i64_fits (f64_mul (f64_of_f32 v) (f64_of_Z 4294967296))).
Qed.

Lemma FixedRouter_lower_fits r block fr : FixedRouter_lower r block = Ok fr -> tables_fit fr.
Proof.
  intros H. unfold FixedRouter_lower in H.
  apply obind_Ok in H as (win & Hwin%quant_weight_fits & H).
  apply obind_Ok in H as (wout & Hwout%quant_weight_fits & H).
  apply obind_Ok in H as ([hidden hq] & _ & H). apply obind_Ok in H as (raw & _ & [= <-]).
  constructor; [exact Hwin | apply quant_bias_fits | exact Hwout | apply quant_bias_fits].
Qed.

(** The parameter bytes of a fixed-point router identify its tables: two
    lowered routers of the same shape with equal bytes have equal weights and
    biases, so they route alike. *)
Theorem param_bytes_injective r r' block block' fr fr' :
  0 <= lr_rank r -> 0 <= lr_d_model r -> 0 <= lr_n_experts r ->
  LowRankRouter_validate r block = Ok tt -> LowRankRouter_validate r' block' = Ok tt ->
  FixedRouter_lower r block = Ok fr -> FixedRouter_lower r' block' = Ok fr' ->
  lr_rank r' = lr_rank r -> lr_d_model r' = lr_d_model r -> lr_n_experts r' = lr_n_experts r ->
  param_bytes fr = param_bytes fr' ->
  fr_win_q fr = fr_win_q fr' /\ fr_bin_q fr = fr_bin_q fr'
  /\ fr_wout_q fr = fr_wout_q fr' /\ fr_bout_q fr = fr_bout_q fr'.
Proof.
  intros Hr Hd Hn Hv Hv' Hl Hl' Er Ed En H.
  destruct (FixedRouter_lower_ok _ _ _ _ Hr Hd Hn Hv Hl) as ([_ _ _ W1 B1 W2 B2 _ _] & R1 & R2 & R3).
  rewrite <- Er in Hr. rewrite <- Ed in Hd. rewrite <- En in Hn.
  destruct (FixedRouter_lower_ok _ _ _ _ Hr Hd Hn Hv' Hl') as ([_ _ _ W1' B1' W2' B2' _ _] & R1' & R2' & R3').
  destruct (FixedRouter_lower_fits _ _ _ Hl) as [F1 F2 F3 F4].
  destruct (FixedRouter_lower_fits _ _ _ Hl') as [F1' F2' F3' F4'].
  rewrite R1, R2, R3 in *. rewrite R1', R2', R3', Er, Ed, En in *.
  assert (L1 : length (fr_win_q fr) = length (fr_win_q fr')) by (unfold zlen in *; lia).
  assert (L2 : length (fr_bin_q fr) = length (fr_bin_q fr')) by (unfold zlen in *; lia).
  assert (L3 : length (fr_wout_q fr) = length (fr_wout_q fr')) by (unfold zlen in *; lia).
  assert (L4 : length (fr_bout_q fr) = length (fr_bout_q fr')) by (unfold zlen in *; lia).
  unfold param_bytes in H.
  apply app_inj_1 in H as [H1 H]; [|by rewrite !flat_signed_length, L1].
  apply app_inj_1 in H as [H2 H]; [|by rewrite !flat_signed_length, L2].
  apply app_inj_1 in H as [H3 H4]; [|by rewrite !flat_signed_length, L3].
  split_and!; [apply (signed_bytes_inj 4) | apply (signed_bytes_inj 8) | apply (signed_bytes_inj 4)
    | apply (signed_bytes_inj 8)]; (lia || done).
Qed.

(** ** Witnesses *)

Definition demo_router : LowRankRouter :=
  MkLowRankRouter 1 2 2 [f32_of_Z 1; f32_of_Z (-2)] [f32_of_Z 3] [f32_of_Z 1; f32_of_Z (-1)]
    [f32_of_Z 0; f32_of_Z 1].

Definition demo_fixed : FixedRouter :=
  MkFixedRouter 1 2 2 [65536; -131072] [12884901888] [65536; -65536] [0; 4294967296]
    3377712202776576 3377716497743872.

Lemma routing_exact_witness :
  FixedRouter_lower demo_router 0 = Ok demo_fixed
  /\ exists e v, @route Empty_set true demo_fixed [-8388608; 100] = Ok (Z.of_nat e)
     /\ first_max (map (ideal_raw demo_fixed [-8388608; 100]) (zrange 2)) e v.
Proof.
  assert (H : FixedRouter_lower demo_router 0 = Ok demo_fixed) by (vm_compute; reflexivity).
  split; [exact H|].
  destruct (@routing_exact true Empty_set demo_router 0 0 demo_fixed [-8388608; 100])
    as (e & v & _ & Hr & Hm & _).
  - discriminate.
  - discriminate.
  - reflexivity.
  - vm_compute. reflexivity.
  - exact H.
  - split; [reflexivity|]. repeat (constructor; [split; [discriminate | reflexivity]|]). constructor.
  - exists e, v. exact (conj Hr Hm).
Defined.

Lemma param_bytes_injective_witness : fr_win_q demo_fixed = [65536; -131072].
Proof.
  assert (H : FixedRouter_lower demo_router 0 = Ok demo_fixed) by (vm_compute; reflexivity).
  assert (Hv : LowRankRouter_validate demo_router 0 = Ok tt) by (vm_compute; reflexivity).
  destruct (param_bytes_injective demo_router demo_router 0 0 demo_fixed demo_fixed) as (E & _).
  - discriminate.
  - discriminate.
  - discriminate.
  - exact Hv.
  - exact Hv.
  - exact H.
  - exact H.
  - reflexivity.
  - reflexivity.
  - reflexivity.
  - reflexivity.
  - exact E.
Defined.
