(* ===== verification/StateModel.v ===== *)
(** * The stateful integer model ([gbf-kernel/src/state_model_ref.rs])

    Topologies, checkpoints with dense or mixture-of-experts blocks, their
    lowering with the structural width checks, and the canonical integer
    forward pass: decayed saturating state, 24-bit residual, routed blocks and
    the paged head.  The [f32] evaluator and the synthetic checkpoints of the
    same file are not modelled. *)

From S2P Require Import Prelude Numeric Float KernelSpec ModelRef Sampler Router.
From Stdlib Require Import SpecFloat.

(** ** Topology *)

Inductive LogitPaging := Paging_SinglePage | Paging_Paged.

Record StateTopology := MkStateTopology {
  st_d_model : Z;
  st_d_ff : Z;
  st_n_blocks : Z;
  st_state_slots : Z;
  st_vocab : Z;
  st_n_experts : Z;
  st_logit_paging : LogitPaging;
}.

Definition ARM_B : StateTopology := MkStateTopology 64 128 4 64 STATE_VOCAB 1 Paging_SinglePage.
Definition D192 : StateTopology := MkStateTopology 192 384 6 192 STATE_VOCAB 1 Paging_SinglePage.
Definition D192_MOE : StateTopology := MkStateTopology 192 384 6 192 1024 8 Paging_Paged.
Definition D192_MOE_TEST : StateTopology := MkStateTopology 192 384 6 192 STATE_VOCAB 4 Paging_SinglePage.
Definition D1024_DENSE : StateTopology := MkStateTopology 64 128 2 64 1024 1 Paging_Paged.

Definition lim (what : string) (value max : Z) : outcome StateModelError unit :=
  guard_err ((value =? 0) || (max <? value)) (Sm_Topology what value max).

Definition validate_with_vocab_cap (t : StateTopology) (vocab_cap : Z) : outcome StateModelError unit :=
  let* _ := lim "d_model (u8 lane loops / head act page)" (st_d_model t) 255 in
  let* _ := lim "d_ff (activation buffer below scratch)" (st_d_ff t) 512 in
  let* _ := lim "n_blocks" (st_n_blocks t) 16 in
  let* _ := lim "state_slots (u8 slot loops)" (st_state_slots t) 255 in
  let* _ := lim "vocab (i24 logits single page)" (st_vocab t) vocab_cap in
  lim "n_experts (u8 expert loop / bank set)" (st_n_experts t) 255.

Definition topology_validate (t : StateTopology) : outcome StateModelError unit :=
  validate_with_vocab_cap t
    (match st_logit_paging t with
     | Paging_SinglePage => LOGIT_PAGE_IDS
     | Paging_Paged => LOGIT_PAGED_VOCAB_MAX
     end).

Definition validate_host (t : StateTopology) : outcome StateModelError unit :=
  validate_with_vocab_cap t
    (match st_logit_paging t with
     | Paging_SinglePage => HOST_VOCAB_CAP
     | Paging_Paged => Z.max LOGIT_PAGED_VOCAB_MAX HOST_VOCAB_CAP
     end).

Definition topology_is_moe (t : StateTopology) : bool := 1 <? st_n_experts t.

Definition macs_per_token {E} (t : StateTopology) : outcome E Z :=
  let* sd := umul U64 (st_state_slots t) (st_d_model t) in
  let* ds := umul U64 (st_d_model t) (st_state_slots t) in
  let* a := uadd U64 sd ds in
  let* b2 := umul U64 (st_n_blocks t) 2 in
  let* fd := umul U64 (st_d_ff t) (st_d_model t) in
  let* b := umul U64 b2 fd in
  let* ab := uadd U64 a b in
  let* vd := umul U64 (st_vocab t) (st_d_model t) in
  uadd U64 ab vd.

(** ** Checkpoints *)

Inductive BlockFfn :=
| Ffn_Dense (up down : TernaryLayer)
| Ffn_Moe (router : LowRankRouter) (experts : list (TernaryLayer * TernaryLayer)).

Definition block_is_moe (b : BlockFfn) : bool := match b with Ffn_Moe _ _ => true | Ffn_Dense _ _ => false end.

Definition ffn_pairs (b : BlockFfn) : list (TernaryLayer * TernaryLayer) :=
  match b with Ffn_Dense up down => [(up, down)] | Ffn_Moe _ experts => experts end.

Record StateCheckpoint := MkStateCheckpoint {
  sck_topology : StateTopology;
  sck_embedding : list f32;
  sck_state_in : TernaryLayer;
  sck_state_out : TernaryLayer;
  sck_decay_raw : list Z;
  sck_blocks : list BlockFfn;
}.

(** A layer of the wrong shape is reported by element counts. *)
Definition check_layer (what : string) (l : TernaryLayer) (rows cols : Z) : outcome StateModelError unit :=
  guard_err (negb (tl_rows l =? rows) || negb (tl_cols l =? cols))
    (Sm_Shape what (rows * cols) (tl_rows l * tl_cols l)).

Definition check_up_down (t : StateTopology) (ud : TernaryLayer * TernaryLayer) : outcome StateModelError unit :=
  let* _ := check_layer "up projection" ud.1 (st_d_ff t) (st_d_model t) in
  check_layer "down projection" ud.2 (st_d_model t) (st_d_ff t).

Definition check_state_block (t : StateTopology) (ib : Z * BlockFfn) : outcome StateModelError unit :=
  let '(bi, block) := ib in
  let* _ := guard_err (topology_is_moe t && negb (block_is_moe block))
              (Sm_MoeDenseMixup bi (st_n_experts t) (block_is_moe block)) in
  match block with
  | Ffn_Dense up down => check_up_down t (up, down)
  | Ffn_Moe router experts =>
      let* _ := guard_err (negb (zlen experts =? st_n_experts t))
                  (Sm_MoeArityMismatch bi (st_n_experts t) (zlen experts)) in
      let* _ := LowRankRouter_validate router bi in
      let* _ := guard_err (lr_rank router =? 0) (Sm_Shape "router rank" 1 0) in
      let* _ := guard_err (negb (lr_d_model router =? st_d_model t) || negb (lr_n_experts router =? st_n_experts t))
                  (Sm_Shape "router topology" (st_d_model t * st_n_experts t)
                     (lr_d_model router * lr_n_experts router)) in
      ofold (fun _ ud => check_up_down t ud) tt experts
  end.

Definition new_blocks (t : StateTopology) (embedding : list f32) (state_in state_out : TernaryLayer)
    (decay_raw : list Z) (blocks : list BlockFfn) : outcome StateModelError StateCheckpoint :=
  let* _ := validate_host t in
  let* _ := guard_err (negb (zlen embedding =? st_vocab t * st_d_model t))
              (Sm_Shape "embedding" (st_vocab t * st_d_model t) (zlen embedding)) in
  let* _ := guard_err (existsb (fun v => negb (is_finite v)) embedding) Sm_NonFiniteEmbedding in
  let* _ := check_layer "state in-projection" state_in (st_state_slots t) (st_d_model t) in
  let* _ := check_layer "state out-projection" state_out (st_d_model t) (st_state_slots t) in
  let* _ := guard_err (negb (zlen decay_raw =? st_state_slots t))
              (Sm_Shape "decay slots" (st_state_slots t) (zlen decay_raw)) in
  let* _ := ofold (fun _ sr => guard_err (255 <? sr.2) (Sm_DecayRawTooWide sr.1 sr.2)) tt (enumerate decay_raw) in
  let* _ := guard_err (negb (zlen blocks =? st_n_blocks t))
              (Sm_Shape "blocks" (st_n_blocks t) (zlen blocks)) in
  let* _ := ofold (fun _ ib => check_state_block t ib) tt (enumerate blocks) in
  Ok (MkStateCheckpoint t embedding state_in state_out decay_raw blocks).

Definition StateCheckpoint_new (t : StateTopology) (embedding : list f32) (state_in state_out : TernaryLayer)
    (decay_raw : list Z) (blocks : list BlockWeights) : outcome StateModelError StateCheckpoint :=
  new_blocks t embedding state_in state_out decay_raw (map (fun b => Ffn_Dense (bw_up b) (bw_down b)) blocks).

Definition embedding_row_at {E} (ck : StateCheckpoint) (id : Z) : outcome E (list f32) :=
  let t := sck_topology ck in
  let* _ := rust_assert (id <? st_vocab t) in
  slice (sck_embedding ck) (id * st_d_model t) (id * st_d_model t + st_d_model t).

(** ** Lowering *)

Definition isqrt_u48 {E} `{BuildProfile} (n : Z) : outcome E Z :=
  let* _ := debug_assert (n <? Z.shiftl 1 48) in
  let* root := isqrt_loop 24 n 0 (Z.shiftl 1 46) in
  expect (try_from_u U32 root).

Inductive AccWidth := Width_I16 | Width_I24.

#[export] Instance AccWidth_eq_dec : EqDecision AccWidth.
Proof. solve_decision. Defined.

(** The worst case of a row against activations in [-128, 127]; the counts are
    lengths, far below the [i64] range. *)
Definition row_acc_bounds (row : list Z) : Z * Z :=
  let pos := zlen (List.filter (fun w => w =? 1) row) in
  let neg := zlen (List.filter (fun w => w =? -1) row) in
  (- (128 * pos + 127 * neg), 127 * pos + 128 * neg).

Definition bounds_escape_i16 (b : Z * Z) : bool := (b.1 <? -32768) || (32767 <? b.2).

(** [any] stops at the first row that needs the wide carrier. *)
Fixpoint any_row {E} (l : TernaryLayer) (rows : list Z) : outcome E bool :=
  match rows with
  | [] => Ok false
  | r :: rows' =>
      let* row := layer_row l r in
      if bounds_escape_i16 (row_acc_bounds row) then Ok true else any_row l rows'
  end.
Definition layer_needs_i24 {E} (l : TernaryLayer) : outcome E bool := any_row l (zrange (tl_rows l)).

Fixpoint any_layer {E} (ls : list TernaryLayer) : outcome E bool :=
  match ls with
  | [] => Ok false
  | l :: ls' => let* b := layer_needs_i24 l in if (b : bool) then Ok true else any_layer ls'
  end.

Inductive LoweredBlockFfn :=
| Lw_Dense (up down : LoweredLayer)
| Lw_Moe (router : LowRankRouter) (fixed_router : FixedRouter) (experts : list (LoweredLayer * LoweredLayer)).

Record IntStateLoweredModel := MkIntStateLoweredModel {
  sm_topology : StateTopology;
  sm_emb_resid : list Z;
  sm_head_i8 : list Z;
  sm_head_step : f32;
  sm_gelu_lut : list Z;
  sm_y_resid_lut : list Z;
  sm_state_in : LoweredLayer;
  sm_state_out : TernaryLayer;
  sm_decay_u8 : list Z;
  sm_blocks : list (LoweredLayer * LoweredLayer);
  sm_block_ffns : list LoweredBlockFfn;
  sm_down_width : AccWidth;
  sm_down_acc_structural_bound : Z;
  sm_down_delta_structural_bound : Z;
}.

Definition state_emb_resid_of (v : f32) : Z :=
  as_signed I32 (i64_clamp (rte_i64 (f64_mul (f64_of_f32 v) (f64_of_Z STATE_RESID_ONE)))
                   RESID_I24_MIN RESID_I24_MAX).

Definition y_resid_entry {E} (idx : Z) : outcome E Z :=
  let p := idx - QMAX in
  let raw := rte_i64 (f64_div (f64_mul (f64_mul (f64_of_Z p) (f64_of_Z STATE_RESID_ONE)) (f64_of_Z ACT_RANGE))
                        (f64_of_Z QMAX)) in
  expect (try_from_i I16 raw).

Definition decay_byte (sr : Z * Z) : outcome StateModelError Z :=
  ok_or (try_from_u U8 sr.2) (Sm_DecayRawTooWide sr.1 sr.2).

(** The in-projection must keep 16-bit accumulators. *)
Definition check_in_row (l : TernaryLayer) (row : Z) : outcome StateModelError unit :=
  let* ws := layer_row l row in
  let '(lo, hi) := row_acc_bounds ws in
  guard_err (bounds_escape_i16 (lo, hi)) (Sm_StateInAccTooWide row (Z.max (Z.abs lo) hi)).

(** One row of a down projection: running bounds, and the carrier checks. *)
Definition check_down_row (width : AccWidth) (block : Z) (down : TernaryLayer) (bounds : Z * Z) (row : Z)
    : outcome StateModelError (Z * Z) :=
  let* ws := layer_row down row in
  let '(lo, hi) := row_acc_bounds ws in
  let bound := Z.max (Z.abs lo) hi in
  let* scale := scale_raw down row in
  let* num := ichk I64 (2 * scale * bound + 127) in
  let delta_bound := Z.abs (num / 254) in
  let* _ :=
    match width with
    | Width_I16 => Ok tt
    | Width_I24 =>
        let* _ := guard_err (Z.shiftl 1 32 <=? num) (Sm_DownEpilogueOverflow block row scale bound) in
        guard_err (DOWN_DELTA_WIDE_BOUND <? delta_bound)
          (Sm_DownDeltaEscapesI24 block row scale bound delta_bound)
    end in
  Ok (Z.max bounds.1 bound, Z.max bounds.2 delta_bound).

Definition check_pair `{BuildProfile} (width : AccWidth) (block : Z) (bounds : Z * Z)
    (ud : TernaryLayer * TernaryLayer) : outcome StateModelError (Z * Z) :=
  let* _ :=
    if debug_assertions
    then let* wide := layer_needs_i24 ud.1 in rust_assert (negb wide)
    else Ok tt in
  ofold (check_down_row width block ud.2) bounds (zrange (tl_rows ud.2)).

Definition check_block_widths `{BuildProfile} (width : AccWidth) (bounds : Z * Z) (ib : Z * BlockFfn)
    : outcome StateModelError (Z * Z) :=
  ofold (check_pair width ib.1) bounds (ffn_pairs ib.2).

Definition lower_pair {E} (ud : TernaryLayer * TernaryLayer) : outcome E (LoweredLayer * LoweredLayer) :=
  let* up := LoweredLayer_new ud.1 in
  let* down := LoweredLayer_new ud.2 in
  Ok (up, down).

Definition lower_block (ib : Z * BlockFfn)
    : outcome StateModelError ((LoweredLayer * LoweredLayer) * LoweredBlockFfn) :=
  match ib.2 with
  | Ffn_Dense up down =>
      let* (up, down) := lower_pair (up, down) in
      Ok ((up, down), Lw_Dense up down)
  | Ffn_Moe router experts =>
      let* lowered := omapM lower_pair experts in
      let* fixed_router := FixedRouter_lower router ib.1 in
      let* expert0 := index lowered 0 in
      Ok (expert0, Lw_Moe router fixed_router lowered)
  end.

Definition state_lower `{MathLib} `{BuildProfile} (ck : StateCheckpoint)
    : outcome StateModelError IntStateLoweredModel :=
  let t := sck_topology ck in
  let* rows := omapM (embedding_row_at ck) (zrange (st_vocab t)) in
  let values := concat rows in
  let max_abs := foldl (fun m v => f32_max m (f32_abs v)) (f32_of_Z 0) values in
  let* y_resid_lut := omapM y_resid_entry (zrange 255) in
  let* decay_u8 := omapM decay_byte (enumerate (sck_decay_raw ck)) in
  let* _ := ofold (fun _ row => check_in_row (sck_state_in ck) row) tt (zrange (tl_rows (sck_state_in ck))) in
  let* wide := any_layer (map snd (flat_map ffn_pairs (sck_blocks ck))) in
  let width := if (wide : bool) then Width_I24 else Width_I16 in
  let* (acc_bound, delta_bound) :=
    ofold (check_block_widths width) (0, 0) (enumerate (sck_blocks ck)) in
  let* blocks := omapM lower_block (enumerate (sck_blocks ck)) in
  let* state_in := LoweredLayer_new (sck_state_in ck) in
  Ok (MkIntStateLoweredModel t (map state_emb_resid_of values) (map (head_i8_of max_abs) values)
        (f32_div max_abs (f32_of_Z QMAX)) build_gelu_lut y_resid_lut state_in (sck_state_out ck)
        decay_u8 (map fst blocks) (map snd blocks) width acc_bound delta_bound).

Definition emb_resid_row_at {E} (m : IntStateLoweredModel) (id : Z) : outcome E (list Z) :=
  let t := sm_topology m in
  let* _ := rust_assert (id <? st_vocab t) in
  slice (sm_emb_resid m) (id * st_d_model t) (id * st_d_model t + st_d_model t).

Definition head_i8_row_at {E} (m : IntStateLoweredModel) (id : Z) : outcome E (list Z) :=
  let t := sm_topology m in
  let* _ := rust_assert (id <? st_vocab t) in
  slice (sm_head_i8 m) (id * st_d_model t) (id * st_d_model t + st_d_model t).

Definition zero_state (m : IntStateLoweredModel) : list Z := zeros (st_state_slots (sm_topology m)).

(** ** Statistics and trace *)

Record StateForwardStats := MkStateForwardStats {
  sf_ffn : IntForwardStats;
  sf_max_abs_in_acc : Z;
  sf_max_abs_state_delta : Z;
  sf_max_abs_state : Z;
  sf_state_clamp_events : Z;
  sf_max_abs_out_acc : Z;
  sf_max_abs_out_scale_product : Z;
  sf_y_saturation_events : Z;
  sf_residual_i24_wrap_events : Z;
  sf_max_abs_down_acc : Z;
}.

Definition StateStats_new : StateForwardStats := MkStateForwardStats Stats_new 0 0 0 0 0 0 0 0 0.

Definition StateStats_merge (s o : StateForwardStats) : StateForwardStats :=
  MkStateForwardStats (Stats_merge (sf_ffn s) (sf_ffn o))
    (Z.max (sf_max_abs_in_acc s) (sf_max_abs_in_acc o))
    (Z.max (sf_max_abs_state_delta s) (sf_max_abs_state_delta o))
    (Z.max (sf_max_abs_state s) (sf_max_abs_state o))
    (sf_state_clamp_events s + sf_state_clamp_events o)
    (Z.max (sf_max_abs_out_acc s) (sf_max_abs_out_acc o))
    (Z.max (sf_max_abs_out_scale_product s) (sf_max_abs_out_scale_product o))
    (sf_y_saturation_events s + sf_y_saturation_events o)
    (sf_residual_i24_wrap_events s + sf_residual_i24_wrap_events o)
    (Z.max (sf_max_abs_down_acc s) (sf_max_abs_down_acc o)).

(** Single observations. *)
Definition obs_in_acc (v : Z) := MkStateForwardStats Stats_new v 0 0 0 0 0 0 0 0.
Definition obs_state (delta h clamps : Z) := MkStateForwardStats Stats_new 0 delta h clamps 0 0 0 0 0.
Definition obs_out (acc product saturations : Z) :=
  MkStateForwardStats Stats_new 0 0 0 0 acc product saturations 0 0.
Definition obs_residual (v wraps : Z) := MkStateForwardStats (stat_residual v 0) 0 0 0 0 0 0 0 wraps 0.
Definition obs_down_acc (v : Z) := MkStateForwardStats Stats_new 0 0 0 0 0 0 0 0 v.
Definition obs_ffn (i : IntForwardStats) := MkStateForwardStats i 0 0 0 0 0 0 0 0 0.

(** Running a kernel of the dense model on [&mut stats.ffn]. *)
Definition with_ffn {E A} (f : IntForwardStats -> outcome E (A * IntForwardStats)) (s : StateForwardStats)
    : outcome E (A * StateForwardStats) :=
  let* (a, i) := f (sf_ffn s) in
  Ok (a, MkStateForwardStats i (sf_max_abs_in_acc s) (sf_max_abs_state_delta s) (sf_max_abs_state s)
           (sf_state_clamp_events s) (sf_max_abs_out_acc s) (sf_max_abs_out_scale_product s)
           (sf_y_saturation_events s) (sf_residual_i24_wrap_events s) (sf_max_abs_down_acc s)).

Record IntStateForwardTrace := MkIntStateForwardTrace {
  tr_state_norm_act : list Z;
  tr_state_in_acc : list Z;
  tr_state_after : list Z;
  tr_state_out_acc : list Z;
  tr_y_act : list Z;
  tr_block_residuals : list (list Z);
  tr_selected_experts : list Z;
  tr_block0_norm_act : list Z;
  tr_block0_up_acc : list Z;
  tr_block0_gelu_act : list Z;
  tr_block0_down_acc : list Z;
  tr_final_q : list Z;
  tr_logits : list Z;
  tr_logit_pages : list (list Z);
  tr_argmax : Z;
  tr_argmax_full : Z;
  tr_topk_heap : list HeapEntry;
  tr_stats : StateForwardStats;
}.

(** ** Kernels *)

Definition norm_lane24 {E} `{BuildProfile} (d d2 v : Z) : outcome E Z :=
  let* scaled := umul U64 (Z.abs v) 254 in
  let* num := uadd U64 scaled d in
  let* _ := debug_assert (num <? Z.shiftl 1 32) in
  if d2 =? 0 then Panic
  else let q_abs := as_signed I16 (Z.min (num / d2) QMAX) in
       if v <? 0 then ichk I16 (- q_abs) else Ok q_abs.

Definition int_norm_quant24 {E} `{BuildProfile} (x : list Z) (stats : IntForwardStats)
    : outcome E (list Z * IntForwardStats) :=
  let* ss := sum_squares x in
  let stats := Stats_merge stats (stat_norm_sumsq ss) in
  let* mean := if zlen x =? 0 then Panic else Ok (ss / zlen x) in
  let* _ := debug_assert (mean <? Z.shiftl 1 46) in
  let* mean1 := uadd U64 mean 1 in
  let* r := isqrt_u48 mean1 in
  let stats := Stats_merge stats (stat_norm_rms (wrap U32 r)) in
  let* d := umul U64 8 r in
  let* d2 := umul U64 16 r in
  let* q := omapM (norm_lane24 d d2) x in
  Ok (q, stats).

Definition int_matvec_i24_row {E} (layer : TernaryLayer) (act : list Z) (stats : StateForwardStats) (row : Z)
    : outcome E (Z * StateForwardStats) :=
  let* ws := layer_row layer row in
  let* acc := ofold (fun acc wu => let* p := ichk I64 (wu.1 * (wu.2 - 128)) in ichk I64 (acc + p)) 0 (zip ws act) in
  let* _ := rust_assert (fits I24 acc) in
  Ok (as_signed I32 acc, StateStats_merge stats (obs_down_acc (wrap U32 (Z.abs acc)))).

Definition int_matvec_i24 {E} `{BuildProfile} (layer : TernaryLayer) (act : list Z) (out_len : Z)
    (stats : StateForwardStats) : outcome E (list Z * StateForwardStats) :=
  let* _ := debug_assert (zlen act =? tl_cols layer) in
  let* _ := debug_assert (out_len =? tl_rows layer) in
  omap_acc (int_matvec_i24_row layer act) stats (zrange out_len).

(** The histogram of down deltas. *)
Record DownDeltaProbe := MkDownDeltaProbe { pb_counts : list Z; pb_max : Z; pb_total : Z }.

Definition BUCKET_WIDTH : Z := 32.
Definition BUCKETS : Z := Z.shiftl 1 19 + 1.

Definition Probe_new : DownDeltaProbe := MkDownDeltaProbe (zeros BUCKETS) 0 0.

Definition Probe_record {E} (p : DownDeltaProbe) (d_abs : Z) : outcome E DownDeltaProbe :=
  let bucket := Z.min (d_abs / BUCKET_WIDTH) (BUCKETS - 1) in
  let* c := index (pb_counts p) bucket in
  let* c := uadd U64 c 1 in
  let* counts := set_index (pb_counts p) bucket c in
  let* total := uadd U64 (pb_total p) 1 in
  Ok (MkDownDeltaProbe counts (Z.max (pb_max p) d_abs) total).

(** [zip] stops at the shorter histogram; the rest of [self] stays. *)
Fixpoint add_counts {E} (a b : list Z) : outcome E (list Z) :=
  match a, b with
  | x :: a', y :: b' => let* s := uadd U64 x y in let* r := add_counts a' b' in Ok (s :: r)
  | _, _ => Ok a
  end.

Definition Probe_merge {E} (p other : DownDeltaProbe) : outcome E DownDeltaProbe :=
  let* counts := add_counts (pb_counts p) (pb_counts other) in
  let* total := uadd U64 (pb_total p) (pb_total other) in
  Ok (MkDownDeltaProbe counts (Z.max (pb_max p) (pb_max other)) total).

Definition count_at_or_above {E} (p : DownDeltaProbe) (raw : Z) : outcome E Z :=
  let* _ := rust_assert (raw mod BUCKET_WIDTH =? 0) in
  let from := Z.min (raw / BUCKET_WIDTH) BUCKETS in
  let* tail := slice (pb_counts p) from (zlen (pb_counts p)) in
  ofold (fun s c => uadd U64 s c) 0 tail.

Definition int_down_delta_i24 {E} (acc scale : Z) (stats : IntForwardStats) (probe : option DownDeltaProbe)
    : outcome E (Z * IntForwardStats * option DownDeltaProbe) :=
  let* m := ichk I64 (scale * acc) in
  let stats := Stats_merge stats (stat_scale_product (Z.abs m)) in
  let* twice := umul U64 (Z.abs m) 2 in
  let* num := uadd U64 twice 127 in
  let d_abs := num / 254 in
  let* probe :=
    match probe with
    | Some p => let* p := Probe_record p d_abs in Ok (Some p)
    | None => Ok None
    end in
  let* _ := rust_assert (d_abs <=? DOWN_DELTA_WIDE_BOUND) in
  let stats := Stats_merge stats (stat_down_delta d_abs 0) in
  let* r := if m <? 0 then ichk I32 (- as_signed I32 d_abs) else Ok (as_signed I32 d_abs) in
  Ok (r, stats, probe).

(** [(v << 8) >> 8] on [i32]. *)
Definition wrap_i24 (v : Z) : Z := Z.shiftr (as_signed I32 (Z.shiftl v 8)) 8.

(** ** The forward pass *)

(** One slot of the recurrence: decay rounded half away, exact delta,
    saturation at [STATE_CLAMP]. *)
Definition slot_step {E} (m : IntStateLoweredModel) (in_acc : list Z) (stats : StateForwardStats)
    (sh : Z * Z) : outcome E (Z * StateForwardStats) :=
  let '(slot, h) := sh in
  let* decay := index (sm_decay_u8 m) slot in
  let* scaled := umul U64 (Z.abs h) decay in
  let* rounded := uadd U64 scaled 128 in
  let decayed_abs := as_signed I64 (Z.shiftr rounded 8) in
  let* decayed := if h <? 0 then ichk I64 (- decayed_abs) else Ok decayed_abs in
  let* scale := scale_raw (ll_layer (sm_state_in m)) slot in
  let* acc := index in_acc slot in
  let* delta := ichk I64 (scale * acc) in
  let* next := ichk I64 (decayed + delta) in
  let clamped := STATE_CLAMP <? Z.abs next in
  let next := if clamped then Z.sgn next * STATE_CLAMP else next in
  let h' := as_signed I32 next in
  Ok (h', StateStats_merge stats (obs_state (Z.abs delta) (Z.abs h') (if clamped then 1 else 0))).

(** One row of the out-projection: accumulator, activation and residual. *)
Definition out_row {E} `{BuildProfile} (m : IntStateLoweredModel) (state x : list Z) (stats : StateForwardStats)
    (row : Z) : outcome E ((Z * Z * Z) * StateForwardStats) :=
  let* ws := layer_row (sm_state_out m) row in
  let* acc := dot_i64 0 ws state in
  let* _ := debug_assert (Z.abs acc <? Z.shiftl 1 31) in
  let out_acc := as_signed I32 acc in
  let* scale := scale_raw (sm_state_out m) row in
  let* prod := ichk I64 (scale * acc) in
  let* rounded := uadd U64 (Z.abs prod) 32768 in
  let p_abs := as_signed I32 (Z.min (Z.shiftr rounded 16) QMAX) in
  let saturated := (p_abs =? QMAX) && (QMAX <? Z.shiftr rounded 16) in
  let* p := if prod <? 0 then ichk I32 (- p_abs) else Ok p_abs in
  let* shifted := ichk I32 (p + 128) in
  let y := wrap U8 shifted in
  let* i := ichk I32 (p + QMAX) in
  let* delta := index (sm_y_resid_lut m) i in
  let* xv := index x row in
  let* wide := ichk I32 (xv + delta) in
  let wrapped := wrap_i24 wide in
  let wraps := if negb (wrapped =? wide) then 1 else 0 in
  Ok ((out_acc, y, wrapped),
      StateStats_merge (StateStats_merge stats (obs_out (Z.abs acc) (Z.abs prod) (if saturated then 1 else 0)))
        (obs_residual (Z.abs wrapped) wraps)).

(** [act[..d_model]] of the [d_ff]-lane buffer after the norm was copied into
    its first lanes; the lanes past them are never read. *)
Definition norm_into_act {E} (t : StateTopology) (q : list Z) : outcome E (list Z) :=
  let* bytes := omapM act_byte (take (Z.to_nat (st_d_ff t)) q) in
  slice (bytes ++ zeros (st_d_ff t - zlen bytes)) 0 (st_d_model t).

Definition select_pair {E} `{BuildProfile} (block : LoweredBlockFfn) (block_idx : Z) (x : list Z)
    (audit : option (list (Z * list Z)))
    : outcome E ((LoweredLayer * LoweredLayer) * option Z * option (list (Z * list Z))) :=
  match block with
  | Lw_Dense up down => Ok ((up, down), None, audit)
  | Lw_Moe _ fixed_router experts =>
      let audit := (fun sink => sink ++ [(block_idx, x)]) <$> audit in
      let* e := route fixed_router x in
      let* ud := index experts e in
      Ok (ud, Some e, audit)
  end.

(** The residual add of one lane, on the carrier of the down projection. *)
Definition state_down_row {E} `{BuildProfile} (width : AccWidth) (down : TernaryLayer)
    (sp : StateForwardStats * option DownDeltaProbe) (row : Z * (Z * Z))
    : outcome E (Z * (StateForwardStats * option DownDeltaProbe)) :=
  let '(stats, probe) := sp in
  let '(i, (x, acc)) := row in
  let* scale := scale_raw down i in
  let* (dp, stats) :=
    match width with
    | Width_I16 =>
        with_ffn (fun s => let* (d, s) := int_down_delta acc scale s in Ok ((d, probe), s)) stats
    | Width_I24 =>
        with_ffn (fun s => let* (ds, p) := int_down_delta_i24 acc scale s probe in Ok ((ds.1, p), ds.2)) stats
    end in
  let '(d_raw, probe) := dp in
  let* wide := ichk I32 (x + d_raw) in
  let wrapped := wrap_i24 wide in
  let wraps := if negb (wrapped =? wide) then 1 else 0 in
  Ok (wrapped, (StateStats_merge stats (obs_residual (Z.abs wrapped) wraps), probe)).

Record StateBlockTrace := MkStateBlockTrace {
  sb_norm_act : list Z;
  sb_up_acc : list Z;
  sb_gelu_act : list Z;
  sb_down_acc : list Z;
  sb_residual : list Z;
}.

Definition state_ffn {E} `{BuildProfile} (m : IntStateLoweredModel) (ud : LoweredLayer * LoweredLayer) (x : list Z)
    (sp : StateForwardStats * option DownDeltaProbe)
    : outcome E (StateBlockTrace * (StateForwardStats * option DownDeltaProbe)) :=
  let t := sm_topology m in
  let '(up, down) := ud in
  let '(stats, probe) := sp in
  let* (q, stats) := with_ffn (int_norm_quant24 x) stats in
  let* norm_act := norm_into_act t q in
  let* (up_acc, stats) := with_ffn (int_matvec (ll_layer up) (ll_biases up) norm_act (st_d_ff t)) stats in
  let* (gelu_act, stats) :=
    with_ffn (fun s => omap_acc (up_row (sm_gelu_lut m) (ll_layer up)) s (enumerate up_acc)) stats in
  let* (down_acc, stats) :=
    match sm_down_width m with
    | Width_I16 => with_ffn (int_matvec (ll_layer down) (ll_biases down) gelu_act (st_d_model t)) stats
    | Width_I24 => int_matvec_i24 (ll_layer down) gelu_act (st_d_model t) stats
    end in
  let* (x', sp) :=
    omap_acc (state_down_row (sm_down_width m) (ll_layer down)) (stats, probe) (enumerate (zip x down_acc)) in
  Ok (MkStateBlockTrace norm_act up_acc gelu_act down_acc x', sp).

Record BlockLoop := MkBlockLoop {
  bl_x : list Z;
  bl_traces : list StateBlockTrace;
  bl_selected : list Z;
  bl_stats : StateForwardStats;
  bl_probe : option DownDeltaProbe;
  bl_audit : option (list (Z * list Z));
}.

Definition block_step {E} `{BuildProfile} (m : IntStateLoweredModel) (st : BlockLoop) (ib : Z * LoweredBlockFfn)
    : outcome E BlockLoop :=
  let* (sel, audit) := select_pair ib.2 ib.1 (bl_x st) (bl_audit st) in
  let '(ud, e) := sel in
  let* (trace, sp) := state_ffn m ud (bl_x st) (bl_stats st, bl_probe st) in
  Ok (MkBlockLoop (sb_residual trace) (bl_traces st ++ [trace])
        (bl_selected st ++ match e with Some e => [e] | None => [] end) sp.1 sp.2 audit).

(** ** The paged head *)

Record HeadState := MkHeadState {
  hd_stats : StateForwardStats;
  hd_argmax : Z;
  hd_best : Z;
  hd_seen : bool;
  hd_heap : RunningTopK;
}.

Definition head_id {E} (m : IntStateLoweredModel) (final_q : list Z) (st : HeadState) (id : Z)
    : outcome E (Z * HeadState) :=
  let* row := head_i8_row_at m id in
  let* acc32 := dot_i32 0 final_q row in
  let stats := StateStats_merge (hd_stats st) (obs_ffn (stat_logit (Z.abs acc32))) in
  let better := negb (hd_seen st) || (hd_best st <? acc32) in
  let* heap := offer (hd_heap st) acc32 id in
  Ok (acc32,
      MkHeadState stats (if better then id else hd_argmax st) (if better then acc32 else hd_best st)
        (hd_seen st || better) heap).

Definition id_range (lo hi : Z) : list Z := map (Z.add lo) (zrange (hi - lo)).

Definition head_page {E} (m : IntStateLoweredModel) (final_q : list Z) (st : HeadState) (page : Z)
    : outcome E (list Z * HeadState) :=
  let lo := page * LOGIT_PAGE_IDS in
  let hi := Z.min ((page + 1) * LOGIT_PAGE_IDS) (st_vocab (sm_topology m)) in
  omap_acc (head_id m final_q) st (id_range lo hi).

Definition n_pages (t : StateTopology) : Z := Z.max (div_ceil (st_vocab t) LOGIT_PAGE_IDS) 1.

(** ** The pass *)

Definition state_block0 (f : StateBlockTrace -> list Z) (n : Z) (traces : list StateBlockTrace) : list Z :=
  match traces with [] => zeros n | t :: _ => f t end.

Definition forward_at_core {E} `{BuildProfile} (m : IntStateLoweredModel) (prev : Z) (state : list Z)
    (probe : option DownDeltaProbe) (audit : option (list (Z * list Z)))
    : outcome E (IntStateForwardTrace * list Z * option DownDeltaProbe * option (list (Z * list Z))) :=
  let t := sm_topology m in
  let* _ := rust_assert (zlen state =? st_state_slots t) in
  let* x := emb_resid_row_at m prev in
  let* (q, stats) := with_ffn (int_norm_quant24 x) StateStats_new in
  let* norm_act := omapM act_byte q in
  let* (in_acc, stats) :=
    with_ffn (int_matvec (ll_layer (sm_state_in m)) (ll_biases (sm_state_in m)) norm_act (st_state_slots t)) stats in
  let stats := foldl (fun s acc => StateStats_merge s (obs_in_acc (Z.abs acc))) stats in_acc in
  let* (state, stats) := omap_acc (slot_step m in_acc) stats (enumerate state) in
  let* (outs, stats) := omap_acc (out_row m state x) stats (zrange (st_d_model t)) in
  let x := map snd outs in
  let* st := ofold (block_step m) (MkBlockLoop x [] [] stats probe audit) (enumerate (sm_block_ffns m)) in
  let* (final_q, stats) := with_ffn (int_norm_quant24 (bl_x st)) (bl_stats st) in
  let* heap := RunningTopK_new (Z.min HEAP_K_MAX (Z.max (st_vocab t) 1)) in
  let* (pages, hd) :=
    omap_acc (head_page m final_q) (MkHeadState stats 0 (- I32) false heap) (zrange (n_pages t)) in
  let logits :=
    match st_logit_paging t with
    | Paging_SinglePage => concat pages
    | Paging_Paged => List.last pages []
    end in
  Ok (MkIntStateForwardTrace norm_act in_acc state (map (fun o => o.1.1) outs) (map (fun o => o.1.2) outs)
        (map sb_residual (bl_traces st)) (bl_selected st)
        (state_block0 sb_norm_act (st_d_model t) (bl_traces st))
        (state_block0 sb_up_acc (st_d_ff t) (bl_traces st))
        (state_block0 sb_gelu_act (st_d_ff t) (bl_traces st))
        (state_block0 sb_down_acc (st_d_model t) (bl_traces st))
        final_q logits pages (wrap U8 (hd_argmax hd)) (hd_argmax hd) (finalize (hd_heap hd)) (hd_stats hd),
      state, bl_probe st, bl_audit st).

Definition forward_at_probed {E} `{BuildProfile} (m : IntStateLoweredModel) (prev : Z) (state : list Z)
    (probe : option DownDeltaProbe) : outcome E (IntStateForwardTrace * list Z * option DownDeltaProbe) :=
  let* (tsp, _) := forward_at_core m prev state probe None in Ok tsp.

Definition forward_at {E} `{BuildProfile} (m : IntStateLoweredModel) (prev : Z) (state : list Z)
    : outcome E (IntStateForwardTrace * list Z) :=
  let* (ts, _) := forward_at_probed m prev state None in Ok ts.

Definition forward_at_route_audit {E} `{BuildProfile} (m : IntStateLoweredModel) (prev : Z) (state : list Z)
    (audit : list (Z * list Z)) : outcome E (IntStateForwardTrace * list Z * option (list (Z * list Z))) :=
  let* (tsp, audit) := forward_at_core m prev state None (Some audit) in Ok (tsp.1, audit).
