(* ===== verification/StateModelFacts.v ===== *)
(** * Correctness of the stateful integer model

    Every model that lowers runs without overflow on every token and every
    saturated state, and computes exactly the definition of the integer
    semantics on unbounded integers. *)

From S2P Require Import Prelude Numeric Float KernelSpec KernelSpecFacts ModelRef ModelRefFacts Sampler XorShift SamplerFacts Router RouterFacts StateModel.

(** ** The norm *)

(** What the debug assertion of the norm needs: not every lane is -2^23. *)
Definition norm_safe `{BuildProfile} (x : list Z) : Prop :=
  debug_assertions = true -> Exists (fun v => v <> - I24) x.

Lemma squares_below x : Forall is_i24 x -> Exists (fun v => v <> - I24) x -> squares x < zlen x * 2 ^ 46.
Proof.
  intros Hx He. unfold squares. induction He as [v l Hv|v l He IH]; apply Forall_cons in Hx as [Hx1 Hx];
    rewrite zlen_cons; cbn [map zsum]; unfold is_i24, I24 in Hx1.
  - assert (Hl : Forall (fun v => Z.abs v <= 2 ^ 23) l)
      by (eapply Forall_impl; [exact Hx|]; unfold is_i24, I24; lia).
    apply squares_bound in Hl. unfold squares in Hl. unfold I24 in Hv. nia.
  - specialize (IH Hx). nia.
Qed.

Lemma isqrt_u48_total `{BuildProfile} {E} n : 0 <= n < 2 ^ 48 -> @isqrt_u48 E _ n = Ok (Z.sqrt n).
Proof.
  intros Hn. unfold isqrt_u48. rewrite debug_assert_true by (change (Z.shiftl 1 48) with (2 ^ 48); lia). cbn [obind].
  pose proof (@isqrt_loop_correct E 24 0 n ltac:(lia) ltac:(lia) ltac:(lia)) as Hs.
  change (4 ^ Z.of_nat 24) with (2 ^ 48) in Hs. rewrite !Z.mul_0_l, Z.sub_0_r in Hs.
  change (Z.shiftl 1 46) with (4 ^ Z.of_nat 23). rewrite Hs by lia. cbn [obind].
  pose proof (Z.sqrt_nonneg n). assert (Z.sqrt n < 2 ^ 24) by (apply Z.sqrt_lt_square; lia).
  unfold try_from_u. rewrite (proj2 (Z.leb_le _ _)), (proj2 (Z.ltb_lt _ _)) by lia. done.
Qed.

Lemma norm_lane24_total `{BuildProfile} {E} r v : 0 < r <= 2 ^ 23 -> Z.abs v <= 2 ^ 23 ->
  @norm_lane24 E _ (8 * r) (16 * r) v = Ok (norm_value r v).
Proof.
  intros Hr Hv. rewrite <- (@norm_lane_total E r v) by lia. unfold norm_lane24, norm_lane, umul, uadd.
  rewrite (proj2 (Z.ltb_lt (Z.abs v * 254) _)) by lia. cbn [obind].
  rewrite (proj2 (Z.ltb_lt (Z.abs v * 254 + 8 * r) _)) by lia. cbn [obind].
  by rewrite debug_assert_true by (change (Z.shiftl 1 32) with (2 ^ 32); lia).
Qed.

Lemma int_norm_quant24_yields `{BuildProfile} {E} x : 0 < zlen x <= 255 -> Forall is_i24 x -> norm_safe x ->
  yields (@int_norm_quant24 E _ x) (norm_quant (zlen x) x).
Proof.
  intros Hlen Hx Hsafe s. unfold int_norm_quant24.
  assert (Habs : Forall (fun v => Z.abs v <= 2 ^ 23) x)
    by (eapply Forall_impl; [exact Hx|]; unfold is_i24, I24; lia).
  pose proof (squares_bound _ _ Habs) as Hsq.
  rewrite (sum_squares_total (2 ^ 23)) by (done || lia). cbn [obind].
  rewrite (proj2 (Z.eqb_neq (zlen x) 0)) by lia. cbn [obind].
  assert (Hm : 0 <= squares x / zlen x <= 2 ^ 46)
    by (split; [apply Z.div_pos; lia | apply Z.div_le_upper_bound; lia]).
  assert (Hd : @debug_assert E _ (squares x / zlen x <? Z.shiftl 1 46) = Ok tt).
  { unfold debug_assert. unfold norm_safe in Hsafe. destruct debug_assertions; [|done].
    pose proof (squares_below x Hx (Hsafe eq_refl)) as Hb.
    assert (squares x / zlen x < 2 ^ 46) by (apply Z.div_lt_upper_bound; lia).
    by rewrite (proj2 (Z.ltb_lt _ _)) by (change (Z.shiftl 1 46) with (2 ^ 46); lia). }
  rewrite Hd. cbn [obind]. unfold uadd at 1. rewrite (proj2 (Z.ltb_lt _ _)) by lia. cbn [obind].
  rewrite isqrt_u48_total by lia. cbn [obind]. fold (rms_of (zlen x) x).
  assert (Hr : 0 < rms_of (zlen x) x <= 2 ^ 23).
  { split; [apply rms_of_pos; lia|]. unfold rms_of.
    assert (Z.sqrt (squares x / zlen x + 1) < 2 ^ 23 + 1) by (apply Z.sqrt_lt_square; lia). lia. }
  unfold umul. rewrite (proj2 (Z.ltb_lt (8 * _) _)) by lia. cbn [obind].
  rewrite (proj2 (Z.ltb_lt (16 * _) _)) by lia. cbn [obind].
  rewrite (omapM_total _ (norm_value (rms_of (zlen x) x))); [by eexists|].
  eapply Forall_impl; [exact Habs|]. intros v Hv. cbv beta in Hv. apply norm_lane24_total; lia.
Qed.

(** ** Structural row bounds *)

Definition pos_count (row : list Z) : Z := zlen (List.filter (fun w => w =? 1) row).
Definition neg_count (row : list Z) : Z := zlen (List.filter (fun w => w =? -1) row).

Lemma counts_cons w row : ternary w ->
  pos_count (w :: row) = (if w =? 1 then 1 else 0) + pos_count row
  /\ neg_count (w :: row) = (if w =? -1 then 1 else 0) + neg_count row.
Proof.
  intros Hw. unfold pos_count, neg_count. cbn [List.filter].
  destruct (ternary_cases w Hw) as [->|[->| ->]]; cbn; rewrite ?zlen_cons; lia.
Qed.

Lemma counts_bound row : Forall ternary row ->
  0 <= pos_count row /\ 0 <= neg_count row /\ pos_count row + neg_count row <= zlen row.
Proof.
  induction 1 as [|w row Hw _ IH]; [done|]. destruct (counts_cons w row Hw) as [-> ->]. rewrite zlen_cons.
  destruct (ternary_cases w Hw) as [->|[->| ->]]; cbn; lia.
Qed.

Lemma row_bounds_sound ws : forall us, Forall ternary ws -> Forall is_byte us -> length ws = length us ->
  (row_acc_bounds ws).1 <= dot_zp ws us <= (row_acc_bounds ws).2.
Proof.
  unfold row_acc_bounds. fold (pos_count ws) (neg_count ws). cbn [fst snd].
  induction ws as [|w ws IH]; intros [|u us] Hw Hu Hlen; try done.
  apply Forall_cons in Hw as [Hw1 Hw], Hu as [Hu1 Hu]. injection Hlen as Hlen. specialize (IH us Hw Hu Hlen).
  destruct (counts_cons w ws Hw1) as [-> ->]. unfold dot_zp in *. cbn [zip_with map zsum fst snd].
  unfold is_byte in Hu1. destruct (ternary_cases w Hw1) as [->|[->| ->]]; cbn; lia.
Qed.

Lemma row_bounds_attained ws : Forall ternary ws ->
  (exists us, length us = length ws /\ Forall is_byte us /\ dot_zp ws us = (row_acc_bounds ws).1)
  /\ exists us, length us = length ws /\ Forall is_byte us /\ dot_zp ws us = (row_acc_bounds ws).2.
Proof.
  unfold row_acc_bounds. fold (pos_count ws) (neg_count ws). cbn [fst snd]. unfold is_byte.
  induction 1 as [|w ws Hw _ [(lo & Hl1 & Hl2 & Hl3) (hi & Hh1 & Hh2 & Hh3)]]; [split; by exists []|].
  destruct (counts_cons w ws Hw) as [-> ->]. unfold dot_zp in *. split.
  - exists ((if w =? 1 then 0 else 255) :: lo). split; [simpl; lia|]. split; [constructor; [case_match; lia | done]|].
    cbn [zip_with map zsum fst snd]. destruct (ternary_cases w Hw) as [->|[->| ->]]; cbn; lia.
  - exists ((if w =? -1 then 0 else 255) :: hi). split; [simpl; lia|]. split; [constructor; [case_match; lia | done]|].
    cbn [zip_with map zsum fst snd]. destruct (ternary_cases w Hw) as [->|[->| ->]]; cbn; lia.
Qed.

(** The structural accumulator bounds of a ternary row are exact: every
    product with byte activations lies between them, and both are attained. *)
Theorem row_acc_bounds_exact ws : Forall ternary ws ->
  (forall us, Forall is_byte us -> length us = length ws ->
     (row_acc_bounds ws).1 <= dot_zp ws us <= (row_acc_bounds ws).2)
  /\ (exists us, length us = length ws /\ Forall is_byte us /\ dot_zp ws us = (row_acc_bounds ws).1)
  /\ exists us, length us = length ws /\ Forall is_byte us /\ dot_zp ws us = (row_acc_bounds ws).2.
Proof.
  intros Hw. split; [|by apply row_bounds_attained]. intros us Hu Hlen. by apply row_bounds_sound.
Qed.

(** ** Kernels *)

Lemma with_ffn_yields {E A} (f : IntForwardStats -> outcome E (A * IntForwardStats)) v :
  yields f v -> yields (with_ffn f) v.
Proof. intros Hf s. destruct (Hf (sf_ffn s)) as (i & Hi). unfold with_ffn. rewrite Hi. by eexists. Qed.

Lemma dot_zp_i64 {E} ws us : forall init, Forall ternary ws -> Forall is_byte us ->
  Z.abs init + 128 * zlen ws < I64 ->
  ofold (fun acc wu => let* p := @ichk E I64 (wu.1 * (wu.2 - 128)) in ichk I64 (acc + p)) init (zip ws us)
    = Ok (init + dot_zp ws us).
Proof.
  unfold dot_zp. revert us. induction ws as [|w ws IH]; intros [|u us] init Hw Hu Hb;
    try (cbn; by rewrite Z.add_0_r). rewrite zlen_cons in Hb. pose proof (zlen_nonneg ws).
  apply Forall_cons in Hw as [Hw1 Hw], Hu as [Hu1 Hu]. unfold is_byte in Hu1.
  cbn [zip_with ofold fst snd map zsum].
  assert (Z.abs (w * (u - 128)) <= 128) by (destruct (ternary_cases w Hw1) as [->|[->| ->]]; lia).
  rewrite ichk_fits by (unfold I64 in *; lia). cbn [obind]. rewrite ichk_fits by lia. cbn [obind].
  rewrite IH by (done || lia). f_equal. lia.
Qed.

Lemma int_matvec_i24_yields `{BuildProfile} {E} r c l act : layer_ok r c l -> 0 <= r -> 0 <= c <= 65535 ->
  zlen act = c -> Forall is_byte act -> yields (@int_matvec_i24 E _ l act r) (matvec l act).
Proof.
  intros Hl Hr Hc Hact Hbytes s. unfold int_matvec_i24.
  rewrite debug_assert_true by (rewrite (lo_cols _ _ _ Hl); lia). cbn [obind].
  rewrite debug_assert_true by (rewrite (lo_rows _ _ _ Hl); lia). cbn [obind].
  unfold matvec. rewrite (lo_rows _ _ _ Hl).
  apply (omap_acc_yields _ (fun row => dot_zp (lrow l row) act)). apply Forall_zrange. intros row Hrow s1.
  destruct (@layer_row_total _ _ _ Hl Hc E row Hrow) as (Hlr & Hlen & Ht).
  unfold int_matvec_i24_row. rewrite Hlr. cbn [obind]. rewrite dot_zp_i64 by (done || unfold I64; lia). cbn [obind].
  pose proof (dot_zp_abs _ _ Ht Hbytes ltac:(unfold zlen in *; lia)) as Hb. rewrite Z.add_0_l.
  rewrite rust_assert_true by (apply fits_iff; unfold I24; lia). cbn [obind].
  rewrite as_signed_id by (unfold I32; lia). by eexists.
Qed.

(** The exact delta of the wide carrier: no clamp. *)
Definition wide_delta (scale acc : Z) : Z := round_half_away (scale * acc) 127.

Lemma div254_round m : (Z.abs m * 2 + 127) / 254 = Z.abs (round_half_away m 127).
Proof. rewrite round_half_away_mag by done. f_equal; lia. Qed.

Lemma sgn_abs_round a b : 0 < b -> Z.sgn a * Z.abs (round_half_away a b) = round_half_away a b.
Proof.
  intros Hb. rewrite round_half_away_mag by done. reflexivity.
Qed.

Lemma Probe_record_total {E} p d : 0 <= d -> zlen (pb_counts p) = BUCKETS ->
  Forall (fun c => 0 <= c <= pb_total p) (pb_counts p) -> pb_total p + 1 < U64 ->
  exists p', @Probe_record E p d = Ok p' /\ zlen (pb_counts p') = BUCKETS
    /\ Forall (fun c => 0 <= c <= pb_total p') (pb_counts p') /\ pb_total p' = pb_total p + 1
    /\ pb_max p' = Z.max (pb_max p) d.
Proof.
  intros Hd Hlen Hc Ht. unfold Probe_record.
  assert (HB : 0 <= Z.min (d / BUCKET_WIDTH) (BUCKETS - 1) < BUCKETS).
  { pose proof (Z.div_pos d BUCKET_WIDTH Hd ltac:(done)). change BUCKETS with 524289. lia. }
  destruct (@index_total E _ (pb_counts p) (Z.min (d / BUCKET_WIDTH) (BUCKETS - 1))) as (c & -> & Hi); [lia|].
  cbn [obind]. rewrite Forall_forall in Hc. pose proof (Hc c ltac:(by eapply list_elem_of_lookup_2)) as Hcb.
  unfold uadd. rewrite (proj2 (Z.ltb_lt (c + 1) _)) by lia. cbn [obind].
  rewrite set_index_total by lia. cbn [obind]. rewrite (proj2 (Z.ltb_lt (_ + 1) _)) by lia. cbn [obind].
  eexists. split; [reflexivity|]. cbn [pb_counts pb_total pb_max]. split_and!; try done.
  - unfold zlen in *. by rewrite length_insert.
  - apply Forall_insert; [|lia]. apply Forall_forall. intros v Hv. specialize (Hc v Hv). lia.
Qed.

(** ** The recurrence *)

Definition clamp_state (v : Z) : Z := Z.max (- STATE_CLAMP) (Z.min v STATE_CLAMP).
Definition is_state (h : Z) : Prop := Z.abs h <= STATE_CLAMP.

(** One slot: decay, exact delta, saturation. *)
Definition ideal_slot (m : IntStateLoweredModel) (in_acc : list Z) (sh : Z * Z) : Z :=
  clamp_state (round_half_away (sh.2 * nth_Z (sm_decay_u8 m) sh.1) 256
               + lscale (ll_layer (sm_state_in m)) sh.1 * nth_Z in_acc sh.1).

Lemma is_state_clamp v : is_state (clamp_state v).
Proof. unfold is_state, clamp_state. change STATE_CLAMP with (2 ^ 23 - 1). lia. Qed.

Lemma shiftr_round a b k : 0 <= k -> b = 2 ^ k -> 0 < k -> Z.shiftr (Z.abs a + b / 2) k = Z.abs (round_half_away a b).
Proof.
  intros Hk -> Hk1. assert (0 < 2 ^ k) by (apply Z.pow_pos_nonneg; lia).
  rewrite Z.shiftr_div_pow2, round_half_away_mag by lia.
  assert (2 ^ k = 2 * (2 ^ k / 2)).
  { replace k with (Z.succ (k - 1)) by lia. rewrite Z.pow_succ_r, Z.mul_comm, Z.div_mul by lia. lia. }
  rewrite <- (Z.div_mul_cancel_l (Z.abs a + 2 ^ k / 2) (2 ^ k) 2) by lia. f_equal. lia.
Qed.

Lemma signed_round {E} M a b : 0 < b -> Z.abs (round_half_away a b) < M ->
  (if a <? 0 then @ichk E M (- Z.abs (round_half_away a b)) else Ok (Z.abs (round_half_away a b)))
  = Ok (round_half_away a b).
Proof.
  intros Hb HM. rewrite neg_if_sgn; [by rewrite sgn_abs_round | lia |]. intros ->. done.
Qed.

Lemma round_half_away_bound a b : 0 < b -> Z.abs (round_half_away a b) <= Z.abs a.
Proof.
  intros Hb. rewrite round_half_away_mag by done. destruct (Z.eq_dec a 0) as [->|].
  - rewrite Z.div_small by (cbn [Z.abs]; lia). cbn [Z.abs]. lia.
  - apply Z.lt_succ_r, Z.div_lt_upper_bound; nia.
Qed.

Section recurrence.
Context (m : IntStateLoweredModel) (slots d : Z) (in_acc : list Z).
Hypothesis (Hlayer : layer_ok slots d (ll_layer (sm_state_in m))).
Hypothesis (Hdecay : zlen (sm_decay_u8 m) = slots) (Hbytes : Forall is_byte (sm_decay_u8 m)).
Hypothesis (Hacc : zlen in_acc = slots) (Hi16 : Forall is_i16 in_acc).

Lemma nth_Z_Forall (P : Z -> Prop) l k : Forall P l -> 0 <= k < zlen l -> P (nth_Z l k).
Proof using Type.
  intros HP Hk. unfold nth_Z. destruct (lookup_lt_is_Some_2 l (Z.to_nat k)) as [v Hv]; [unfold zlen in Hk; lia|].
  rewrite Hv. rewrite Forall_forall in HP. apply HP. by eapply list_elem_of_lookup_2.
Qed.

Lemma slot_step_yields {E} slot h : 0 <= slot < slots -> is_state h ->
  yields (fun s => @slot_step E m in_acc s (slot, h)) (ideal_slot m in_acc (slot, h)).
Proof using Hlayer Hdecay Hbytes Hacc Hi16.
  intros Hslot Hh s. unfold is_state in Hh. change STATE_CLAMP with (2 ^ 23 - 1) in Hh. unfold slot_step.
  pose proof (nth_Z_Forall _ _ slot Hbytes ltac:(lia)) as Hd. unfold is_byte in Hd.
  pose proof (nth_Z_Forall _ _ slot Hi16 ltac:(lia)) as Ha. unfold is_i16 in Ha.
  destruct (@layer_scale_total _ _ _ Hlayer E slot Hslot) as [Hs Hsb].
  unfold ideal_slot. cbn [fst snd]. rewrite nth_Z_total by lia. cbn [obind].
  set (dec := nth_Z (sm_decay_u8 m) slot) in *. set (acc := nth_Z in_acc slot) in *.
  set (sc := lscale (ll_layer (sm_state_in m)) slot) in *.
  unfold umul. rewrite (proj2 (Z.ltb_lt _ _)) by nia. cbn [obind].
  unfold uadd. rewrite (proj2 (Z.ltb_lt _ _)) by nia. cbn [obind].
  assert (Hq : Z.shiftr (Z.abs h * dec + 128) 8 = Z.abs (round_half_away (h * dec) 256)).
  { rewrite <- (shiftr_round (h * dec) 256 8) by done. f_equal. rewrite Z.abs_mul, (Z.abs_eq dec) by lia. done. }
  rewrite Hq. pose proof (round_half_away_bound (h * dec) 256 ltac:(done)) as Hb.
  assert (Habs : Z.abs (h * dec) <= 2 ^ 31) by (rewrite Z.abs_mul; nia).
  rewrite as_signed_id by (unfold I64; lia).
  assert (Hsgn : (if h <? 0 then @ichk E I64 (- Z.abs (round_half_away (h * dec) 256))
                  else Ok (Z.abs (round_half_away (h * dec) 256))) = Ok (round_half_away (h * dec) 256)).
  { rewrite <- (@signed_round E I64 (h * dec) 256) by (done || unfold I64; lia).
    destruct (Z.ltb_spec h 0), (Z.ltb_spec (h * dec) 0); try done; try nia.
    assert (h * dec = 0) as -> by nia. done. }
  rewrite Hsgn. cbn [obind]. rewrite Hs. cbn [obind]. rewrite nth_Z_total by lia. cbn [obind]. fold acc.
  rewrite ichk_fits by (unfold I64; nia). cbn [obind]. rewrite ichk_fits by (unfold I64; nia). cbn [obind].
  set (next := round_half_away (h * dec) 256 + sc * acc).
  assert (Hclamp : (if STATE_CLAMP <? Z.abs next then Z.sgn next * STATE_CLAMP else next) = clamp_state next).
  { unfold clamp_state. change STATE_CLAMP with (2 ^ 23 - 1). destruct (Z.ltb_spec (2 ^ 23 - 1) (Z.abs next)); lia. }
  rewrite Hclamp. pose proof (is_state_clamp next) as Hc. unfold is_state in Hc. change STATE_CLAMP with (2 ^ 23 - 1) in Hc.
  rewrite as_signed_id by (unfold I32; lia). by eexists.
Qed.

Lemma slots_yield {E} state : zlen state = slots -> Forall is_state state ->
  yields (fun s => omap_acc (@slot_step E m in_acc) s (enumerate state)) (map (ideal_slot m in_acc) (enumerate state))
  /\ Forall is_state (map (ideal_slot m in_acc) (enumerate state))
  /\ zlen (map (ideal_slot m in_acc) (enumerate state)) = slots.
Proof using Hlayer Hdecay Hbytes Hacc Hi16.
  intros Hlen Hst. split_and!.
  - apply (omap_acc_yields _ (ideal_slot m in_acc)). apply Forall_forall. intros [slot h] Hin.
    apply enumerate_elem in Hin as [Hr Hh]. apply slot_step_yields; [lia|].
    rewrite Forall_forall in Hst. apply Hst. by eapply list_elem_of_lookup_2.
  - apply List.Forall_map, Forall_forall. intros sh _. apply is_state_clamp.
  - unfold zlen in *. by rewrite length_map, enumerate_length.
Qed.
End recurrence.

(** ** The residual carrier and the out-projection *)

Lemma wrap_i24_spec v : wrap_i24 v = as_signed I24 v.
Proof.
  unfold wrap_i24, as_signed. rewrite Z.shiftl_mul_pow2, Z.shiftr_div_pow2 by done.
  change (2 ^ 8) with 256. change I32 with (256 * 2 ^ 23). change I24 with (2 ^ 23).
  replace (v * 256 + 256 * 2 ^ 23) with (256 * (v + 2 ^ 23)) by lia.
  replace (2 * (256 * 2 ^ 23)) with (256 * (2 * 2 ^ 23)) by lia. rewrite Z.mul_mod_distr_l by lia.
  rewrite <- Z.mul_sub_distr_l, Z.mul_comm. by apply Z.div_mul.
Qed.

Lemma as_signed_i24 v : is_i24 (as_signed I24 v).
Proof. unfold is_i24. by apply as_signed_range. Qed.

(** The residual step of an activation, [round(p * 256 / 127)]. *)
Definition y_resid (p : Z) : Z := round_half_away (p * 256) 127.

Definition y_lut : list Z := map (fun i => y_resid (i - 127)) (zrange 255).

Lemma y_lut_built {E} : omapM (@y_resid_entry E) (zrange 255) = Ok y_lut.
Proof. vm_compute. reflexivity. Qed.

Lemma y_lut_total {E} p : - 127 <= p <= 127 -> @index E Z y_lut (p + QMAX) = Ok (y_resid p) /\ Z.abs (y_resid p) <= 256.
Proof.
  intros Hp. split.
  - apply index_Some; [unfold QMAX; lia|]. unfold y_lut. rewrite list_lookup_fmap.
    rewrite zrange_lookup by (unfold QMAX; lia). simpl. do 2 f_equal. unfold QMAX. lia.
  - unfold y_resid. rewrite round_half_away_mag by done. apply Z.lt_succ_r, Z.div_lt_upper_bound; lia.
Qed.

Definition y_value (scale acc : Z) : Z :=
  Z.sgn (scale * acc) * Z.min QMAX (round_half_away (Z.abs (scale * acc)) 65536).

Lemma y_value_range scale acc : - 127 <= y_value scale acc <= 127.
Proof.
  unfold y_value, QMAX. apply (sgn_min_range (scale * acc) _ 127); [|lia]. apply round_half_away_nonneg; lia.
Qed.

(** One row: the accumulator, the activation byte and the new residual lane. *)
Definition ideal_out (l : TernaryLayer) (state x : list Z) (row : Z) : Z * Z * Z :=
  let acc := dot (lrow l row) state in
  let p := y_value (lscale l row) acc in
  (acc, p + 128, as_signed I24 (nth_Z x row + y_resid p)).

Lemma ternary_abs_sum ws : Forall ternary ws -> abs_sum ws <= zlen ws.
Proof.
  unfold abs_sum. induction 1 as [|w ws Hw _ IH]; [done|]. rewrite zlen_cons. cbn [map zsum].
  unfold ternary in Hw. lia.
Qed.

Lemma out_row_yields `{BuildProfile} {E} m d slots state x row :
  layer_ok d slots (sm_state_out m) -> 0 <= slots <= 255 -> sm_y_resid_lut m = y_lut ->
  zlen state = slots -> Forall is_state state -> zlen x = d -> Forall is_i24 x -> 0 <= row < d ->
  yields (fun s => @out_row E _ m state x s row) (ideal_out (sm_state_out m) state x row).
Proof.
  intros Hl Hs Hy Hlen Hst Hx Hx24 Hrow s. unfold out_row, ideal_out.
  destruct (@layer_row_total _ _ _ Hl ltac:(lia) E row Hrow) as (-> & Hwl & Hw). cbn [obind].
  destruct (@layer_scale_total _ _ _ Hl E row Hrow) as [-> Hsb]. cbn [obind].
  assert (Hst' : Forall (fun h => Z.abs h <= 2 ^ 23 - 1) state).
  { eapply Forall_impl; [exact Hst|]. intros h Hh. exact Hh. }
  pose proof (dot_mag_uniform (2 ^ 23 - 1) (lrow (sm_state_out m) row) state ltac:(done) Hst') as Hm.
  pose proof (ternary_abs_sum _ Hw) as Ha. pose proof (dot_abs (lrow (sm_state_out m) row) state) as Hd.
  rewrite dot_i64_total by (unfold I64; lia). cbn [obind]. rewrite Z.add_0_l.
  set (acc := dot (lrow (sm_state_out m) row) state) in *. set (sc := lscale (sm_state_out m) row) in *.
  assert (Hacc : Z.abs acc < 2 ^ 31) by lia. clearbody acc sc.
  rewrite debug_assert_true by (change (Z.shiftl 1 31) with (2 ^ 31); lia). cbn [obind].
  rewrite ichk_fits by (unfold I64; nia). cbn [obind]. set (m' := sc * acc).
  assert (Hm' : Z.abs m' < 2 ^ 47) by (unfold m'; rewrite Z.abs_mul; nia).
  unfold uadd. rewrite (proj2 (Z.ltb_lt _ _)) by lia. cbn [obind].
  change 32768 with (65536 / 2). rewrite (shiftr_round m' 65536 16) by done.
  replace (Z.abs (round_half_away m' 65536)) with (round_half_away (Z.abs m') 65536)
    by (rewrite round_half_away_mag, round_half_away_abs by done; done).
  pose proof (round_half_away_nonneg (Z.abs m') 65536 ltac:(lia) ltac:(done)) as H0.
  rewrite as_signed_id by (unfold I32, QMAX; lia). rewrite Z.min_comm.
  rewrite neg_if_sgn; [| unfold I32, QMAX; lia | intros ->; done]. cbn [obind].
  unfold y_value. fold m'. pose proof (y_value_range sc acc) as Hp. unfold y_value in Hp. fold m' in Hp.
  set (p := Z.sgn m' * Z.min QMAX (round_half_away (Z.abs m') 65536)) in *. clearbody p.
  rewrite ichk_fits by (unfold I32; lia). cbn [obind]. rewrite ichk_fits by (unfold I32, QMAX; lia). cbn [obind].
  rewrite Hy. destruct (@y_lut_total E p Hp) as [-> Hyb]. cbn [obind].
  rewrite nth_Z_total by lia. cbn [obind].
  pose proof (nth_Z_Forall _ _ row Hx24 ltac:(lia)) as Hxr. unfold is_i24, I24 in Hxr.
  rewrite ichk_fits by (unfold I32; lia). cbn [obind]. unfold wrap. rewrite Z.mod_small by lia.
  rewrite wrap_i24_spec. rewrite (as_signed_id I32 acc) by (unfold I32; lia). by eexists.
Qed.

(** ** Blocks *)

(** A computation that consumes [k] units of a resource of its state. *)
Definition yields_n {E A S} (P : Z -> S -> Prop) (k : Z) (f : S -> outcome E (A * S)) (v : A) : Prop :=
  forall n s, 0 <= n -> P (n + k) s -> exists s', f s = Ok (v, s') /\ P n s'.

Lemma omap_acc_yields_n {E A B S} (P : Z -> S -> Prop) (f : S -> A -> outcome E (B * S)) (g : A -> B) l :
  Forall (fun x => yields_n P 1 (fun s => f s x) (g x)) l ->
  yields_n P (zlen l) (fun s => omap_acc f s l) (map g l).
Proof.
  induction 1 as [|x l Hx _ IH]; intros n s Hn HP.
  - exists s. rewrite Z.add_0_r in HP. done.
  - rewrite zlen_cons in HP. pose proof (zlen_nonneg l).
    destruct (Hx (n + zlen l) s ltac:(lia)) as (s1 & H1 & HP1); [by rewrite <- Z.add_assoc|].
    destruct (IH n s1 Hn HP1) as (s2 & H2 & HP2). exists s2. split; [|done].
    simpl. rewrite H1. simpl. by rewrite H2.
Qed.

(** The histogram has room for [n] more deltas. *)
Definition probe_ok (n : Z) (probe : option DownDeltaProbe) : Prop :=
  match probe with
  | None => True
  | Some p => zlen (pb_counts p) = BUCKETS /\ Forall (fun c => 0 <= c <= pb_total p) (pb_counts p)
              /\ pb_total p + n < U64
  end.

Definition down_value (width : AccWidth) (scale acc : Z) : Z :=
  match width with Width_I16 => delta_value scale acc | Width_I24 => wide_delta scale acc end.

(** What lowering guarantees of an accumulator of the down projection. *)
Definition acc_ok (width : AccWidth) (scale acc : Z) : Prop :=
  match width with
  | Width_I16 => is_i16 acc
  | Width_I24 => Z.abs acc < 2 ^ 31 /\ Z.abs (wide_delta scale acc) <= DOWN_DELTA_WIDE_BOUND
  end.

Definition ideal_down (width : AccWidth) (down : TernaryLayer) (row : Z * (Z * Z)) : Z :=
  as_signed I24 (row.2.1 + down_value width (lscale down row.1) row.2.2).

Lemma int_down_delta_i24_total {E} acc scale s probe n : is_u16 scale -> Z.abs acc < 2 ^ 31 ->
  Z.abs (wide_delta scale acc) <= DOWN_DELTA_WIDE_BOUND -> 0 <= n -> probe_ok (n + 1) probe ->
  exists s' probe', @int_down_delta_i24 E acc scale s probe = Ok (wide_delta scale acc, s', probe') /\ probe_ok n probe'.
Proof.
  intros Hs Ha Hw Hn Hp. unfold is_u16 in Hs. unfold int_down_delta_i24. unfold wide_delta in *.
  assert (Hm : Z.abs (scale * acc) < 2 ^ 47) by (rewrite Z.abs_mul; nia). set (m := scale * acc) in *. clearbody m.
  rewrite ichk_fits by (unfold I64; lia). cbn [obind]. unfold umul. rewrite (proj2 (Z.ltb_lt _ _)) by lia. cbn [obind].
  unfold uadd. rewrite (proj2 (Z.ltb_lt _ _)) by lia. cbn [obind]. rewrite div254_round.
  assert (Hrec : exists probe', match probe with
      | Some p => let* p := @Probe_record E p (Z.abs (round_half_away m 127)) in Ok (Some p)
      | None => Ok None end = Ok probe' /\ probe_ok n probe').
  { destruct probe as [p|]; [|by exists None]. destruct Hp as (Hl & Hc & Ht).
    destruct (@Probe_record_total E p (Z.abs (round_half_away m 127)) ltac:(lia) Hl Hc ltac:(lia))
      as (p' & -> & Hl' & Hc' & Ht' & _). exists (Some p'). split; [done|]. split_and!; [done | done | lia]. }
  destruct Hrec as (probe' & -> & Hp'). cbn [obind]. rewrite rust_assert_true by lia. cbn [obind].
  change DOWN_DELTA_WIDE_BOUND with (2 ^ 23 - 1) in Hw.
  rewrite as_signed_id by (unfold I32; lia). rewrite signed_round by (unfold I32; lia). cbn [obind]. eauto.
Qed.

Lemma state_down_row_yields `{BuildProfile} {E} r c width down i x acc : layer_ok r c down -> 0 <= i < r ->
  is_i24 x -> acc_ok width (lscale down i) acc ->
  yields_n (fun n sp => probe_ok n sp.2) 1 (fun sp => @state_down_row E _ width down sp (i, (x, acc)))
    (ideal_down width down (i, (x, acc))).
Proof.
  intros Hl Hi Hx Ha n [s probe] Hn Hp. cbn [snd] in Hp. unfold state_down_row, ideal_down. cbn [fst snd].
  destruct (@layer_scale_total _ _ _ Hl E i Hi) as [-> Hs]. cbn [obind].
  set (sc := lscale down i) in *. clearbody sc.
  assert (Hd : exists s' probe', match width with
      | Width_I16 => with_ffn (fun s => let* (d, s) := @int_down_delta E _ acc sc s in Ok ((d, probe), s)) s
      | Width_I24 => with_ffn (fun s => let* (ds, p) := int_down_delta_i24 acc sc s probe in Ok ((ds.1, p), ds.2)) s
      end = Ok (down_value width sc acc, probe', s') /\ probe_ok n probe'
      /\ Z.abs (down_value width sc acc) < 2 ^ 23).
  { unfold with_ffn. destruct width; cbn [acc_ok down_value] in *.
    - destruct (@int_down_delta_yields _ E acc sc Hs Ha (sf_ffn s)) as (i' & ->). cbn [obind].
      eexists _, probe. split; [reflexivity|]. pose proof (delta_value_range sc acc). split; [|lia].
      destruct probe; [|done]. destruct Hp as (? & ? & ?). split_and!; [done | done | lia].
    - destruct Ha as [Ha Hw]. destruct (@int_down_delta_i24_total E acc sc (sf_ffn s) probe n Hs Ha Hw Hn Hp)
        as (i' & probe' & -> & Hp'). cbn [obind fst snd]. change DOWN_DELTA_WIDE_BOUND with (2 ^ 23 - 1) in Hw.
      eexists _, probe'. split; [reflexivity|]. split; [done | lia]. }
  destruct Hd as (s' & probe' & -> & Hp' & Hv). cbn [obind]. unfold is_i24, I24 in Hx.
  rewrite ichk_fits by (unfold I32; lia). cbn [obind]. rewrite wrap_i24_spec.
  eexists. split; [reflexivity|]. done.
Qed.

Lemma norm_into_act_total {E} t q : zlen q = st_d_model t -> st_d_model t <= st_d_ff t ->
  Forall (fun q => - 127 <= q <= 127) q ->
  @norm_into_act E t q = Ok (map (fun q => q + 128) q) /\ Forall is_byte (map (fun q => q + 128) q).
Proof.
  intros Hlen Hle Hq. destruct (@act_bytes_total E q Hq) as [Hb Hbytes]. split; [|done].
  unfold norm_into_act. rewrite take_ge by (unfold zlen in *; lia). rewrite Hb. cbn [obind].
  unfold slice. rewrite (proj2 (Z.leb_le 0 _)) by (rewrite <- Hlen; apply zlen_nonneg).
  assert (Hz : zlen (map (fun q => q + 128) q) = st_d_model t) by (unfold zlen in *; by rewrite length_map).
  rewrite (proj2 (Z.leb_le _ _)).
  - cbn [andb]. f_equal. rewrite Z.sub_0_r, drop_0. apply take_app_length'. unfold zlen in *. lia.
  - rewrite zlen_app. pose proof (zlen_nonneg (zeros (st_d_ff t - zlen (map (fun q => q + 128) q)))). lia.
Qed.

(** Accumulators inside the structural bounds fit the carrier. *)
Definition width_ok (width : AccWidth) (l : TernaryLayer) : Prop :=
  forall row acc, 0 <= row < tl_rows l ->
    (row_acc_bounds (lrow l row)).1 <= acc <= (row_acc_bounds (lrow l row)).2 -> acc_ok width (lscale l row) acc.

Record pair_ok (t : StateTopology) (width : AccWidth) (ud : LoweredLayer * LoweredLayer) : Prop := {
  po_up : lowered_ok (st_d_ff t) (st_d_model t) ud.1;
  po_down : lowered_ok (st_d_model t) (st_d_ff t) ud.2;
  po_width : width_ok width (ll_layer ud.2);
}.

Record topology_ok (t : StateTopology) : Prop := {
  to_d : 0 < st_d_model t <= 255;
  to_ff : st_d_model t <= st_d_ff t <= 512;
  to_slots : 0 < st_state_slots t <= 255;
  to_vocab : 0 < st_vocab t <= 21675;
}.

Definition state_lanes (t : StateTopology) (x : list Z) : Prop := zlen x = st_d_model t /\ Forall is_i24 x.

(** One block on unbounded integers. *)
Definition ideal_ffn (m : IntStateLoweredModel) (ud : LoweredLayer * LoweredLayer) (x : list Z) : StateBlockTrace :=
  let act := norm_act (zlen x) x in
  let up_acc := matvec (ll_layer ud.1) act in
  let gelu := map (gelu_row (sm_gelu_lut m) (ll_layer ud.1)) (enumerate up_acc) in
  let down_acc := matvec (ll_layer ud.2) gelu in
  MkStateBlockTrace act up_acc gelu down_acc
    (map (ideal_down (sm_down_width m) (ll_layer ud.2)) (enumerate (zip x down_acc))).

Lemma matvec_in_bounds r c l act row : layer_ok r c l -> 0 <= c <= 65535 -> zlen act = c -> Forall is_byte act ->
  0 <= row < r ->
  (row_acc_bounds (lrow l row)).1 <= dot_zp (lrow l row) act <= (row_acc_bounds (lrow l row)).2.
Proof.
  intros Hl Hc Ha Hb Hr. destruct (@layer_row_total _ _ _ Hl Hc unit row Hr) as (_ & Hlen & Ht).
  apply row_bounds_sound; [done | done | unfold zlen in *; lia].
Qed.

Lemma down_accs_ok width r c l act : layer_ok r c l -> 0 <= c <= 65535 -> zlen act = c -> Forall is_byte act ->
  width_ok width l -> 0 <= r ->
  forall i acc, matvec l act !! Z.to_nat i = Some acc -> 0 <= i -> acc_ok width (lscale l i) acc.
Proof.
  intros Hl Hc Ha Hb Hw Hr i acc Hi H0. unfold matvec in Hi. rewrite (lo_rows _ _ _ Hl) in Hi.
  apply list_lookup_fmap_Some in Hi as (row & -> & Hi).
  pose proof (lookup_lt_Some _ _ _ Hi) as Hlt. rewrite zrange_length in Hlt.
  rewrite zrange_lookup in Hi by done. injection Hi as <-. rewrite Z2Nat.id by done.
  apply Hw; [rewrite (lo_rows _ _ _ Hl); lia|]. apply (matvec_in_bounds r c); done || lia.
Qed.

Lemma state_ffn_yields `{BuildProfile} {E} m ud x : let t := sm_topology m in
  topology_ok t -> lut_ok (sm_gelu_lut m) -> pair_ok t (sm_down_width m) ud -> state_lanes t x -> norm_safe x ->
  yields_n (fun n sp => probe_ok n sp.2) (st_d_model t) (@state_ffn E _ m ud x) (ideal_ffn m ud x)
  /\ state_lanes t (sb_residual (ideal_ffn m ud x)).
Proof.
  intros t Ht Hlut [Hup Hdown Hw] [Hx Hx24] Hsafe. destruct ud as [up down]. cbn [fst snd] in *.
  pose proof (to_d _ Ht). pose proof (to_ff _ Ht). fold t in Hup, Hdown.
  assert (Hq : Forall (fun q => - 127 <= q <= 127) (norm_quant (zlen x) x)) by (apply norm_quant_range; lia).
  assert (Hql : zlen (norm_quant (zlen x) x) = st_d_model t) by (unfold norm_quant, zlen in *; by rewrite length_map).
  destruct (@norm_into_act_total E t _ Hql ltac:(lia) Hq) as [Hact Hactb].
  fold (norm_act (zlen x) x) in Hact, Hactb. set (act := norm_act (zlen x) x) in *.
  assert (Hactl : zlen act = st_d_model t) by (unfold act, norm_act, zlen in *; by rewrite length_map).
  pose proof (matvec_i16 _ _ _ act (lw_layer _ _ _ Hup) ltac:(lia) Hactl Hactb) as Hup16.
  set (up_acc := matvec (ll_layer up) act) in *.
  assert (Hupl : zlen up_acc = st_d_ff t) by (apply (matvec_zlen _ _ _ _ (lw_layer _ _ _ Hup)); lia).
  destruct (@up_rows_yield _ E _ _ _ _ up_acc Hlut (lw_layer _ _ _ Hup) Hupl Hup16) as [Hg Hgb].
  set (gelu := map (gelu_row (sm_gelu_lut m) (ll_layer up)) (enumerate up_acc)) in *.
  assert (Hgl : zlen gelu = st_d_ff t) by (unfold gelu, zlen in *; by rewrite length_map, enumerate_length).
  pose proof (down_accs_ok _ _ _ _ gelu (lw_layer _ _ _ Hdown) ltac:(lia) Hgl Hgb Hw ltac:(lia)) as Hacc.
  set (down_acc := matvec (ll_layer down) gelu) in *.
  assert (Hdl : zlen down_acc = st_d_model t) by (apply (matvec_zlen _ _ _ _ (lw_layer _ _ _ Hdown)); lia).
  assert (Hzl : zlen (zip x down_acc) = st_d_model t) by (unfold zlen in *; rewrite length_zip_with; lia).
  split.
  2:{ unfold state_lanes, ideal_ffn. cbn [sb_residual fst snd]. fold act up_acc gelu down_acc. split.
      - unfold zlen in *. rewrite length_map, enumerate_length. lia.
      - apply List.Forall_map, Forall_forall. intros row _. apply as_signed_i24. }
  intros n [s probe] Hn Hp. cbn [snd] in Hp. unfold state_ffn. fold t.
  destruct (with_ffn_yields _ _ (@int_norm_quant24_yields _ E x ltac:(lia) Hx24 Hsafe) s) as (s1 & ->). cbn [obind].
  rewrite Hact. cbn [obind].
  destruct (with_ffn_yields _ _ (@int_matvec_yields _ E _ _ up act Hup ltac:(lia) ltac:(lia) Hactl Hactb Hup16) s1) as (s2 & ->).
  cbn [obind]. fold up_acc. destruct (with_ffn_yields _ _ Hg s2) as (s3 & ->). cbn [obind].
  assert (Hdown' : exists s4, match sm_down_width m with
      | Width_I16 => with_ffn (@int_matvec E _ (ll_layer down) (ll_biases down) gelu (st_d_model t)) s3
      | Width_I24 => int_matvec_i24 (ll_layer down) gelu (st_d_model t) s3 end = Ok (down_acc, s4)).
  { destruct (sm_down_width m) eqn:Hwidth.
    - apply with_ffn_yields, (@int_matvec_yields _ E _ _ down gelu Hdown); [lia | lia | done | done|].
      apply Forall_forall. intros v [i Hi]%list_elem_of_lookup.
      apply (Hacc (Z.of_nat i) v); [by rewrite Nat2Z.id | lia].
    - apply (@int_matvec_i24_yields _ E _ _ _ gelu (lw_layer _ _ _ Hdown)); [lia | lia | done | done]. }
  destruct Hdown' as (s4 & ->). cbn [obind].
  destruct (omap_acc_yields_n (fun n sp => probe_ok n sp.2) (@state_down_row E _ (sm_down_width m) (ll_layer down))
    (ideal_down (sm_down_width m) (ll_layer down)) (enumerate (zip x down_acc))) with (n := n) (s := (s4, probe))
    as (sp & -> & Hp').
  - apply Forall_forall. intros [i [xv acc]] [Hir Hil]%enumerate_elem.
    apply lookup_zip_with_Some in Hil as (? & ? & [= <- <-] & Hxv & Hav).
    apply (state_down_row_yields _ _ _ _ _ _ _ (lw_layer _ _ _ Hdown)); [lia | | apply (Hacc i acc Hav); lia].
    rewrite Forall_forall in Hx24. apply Hx24. by eapply list_elem_of_lookup_2.
  - done.
  - cbn [snd]. assert (zlen (enumerate (zip x down_acc)) = st_d_model t) as -> by (unfold zlen in *; rewrite enumerate_length; lia).
    done.
  - cbn [obind]. eexists. split; [reflexivity | done].
Qed.

(** ** The block loop *)

Definition ideal_route (fr : FixedRouter) (x : list Z) : Z :=
  (foldl route_step (0, - I64) (enumerate (map (ideal_raw fr x) (zrange (fr_n_experts fr))))).1.

Definition no_layer : LoweredLayer := MkLoweredLayer (MkTernaryLayer 0 0 [] []) [].

Definition ideal_select (b : LoweredBlockFfn) (x : list Z) : (LoweredLayer * LoweredLayer) * option Z :=
  match b with
  | Lw_Dense up down => ((up, down), None)
  | Lw_Moe _ fr experts =>
      let e := ideal_route fr x in (default (no_layer, no_layer) (experts !! Z.to_nat e), Some e)
  end.

Fixpoint ideal_loop (m : IntStateLoweredModel) (x : list Z) (bs : list LoweredBlockFfn)
    : list (StateBlockTrace * option Z) :=
  match bs with
  | [] => []
  | b :: bs' =>
      let '(ud, e) := ideal_select b x in
      let tr := ideal_ffn m ud x in
      (tr, e) :: ideal_loop m (sb_residual tr) bs'
  end.

Definition loop_residual (x : list Z) (trs : list (StateBlockTrace * option Z)) : list Z :=
  foldl (fun _ tr => sb_residual tr.1) x trs.

Definition block_ok (t : StateTopology) (width : AccWidth) (b : LoweredBlockFfn) : Prop :=
  match b with
  | Lw_Dense up down => pair_ok t width (up, down)
  | Lw_Moe _ fr experts =>
      router_ok fr /\ fr_d_model fr = st_d_model t /\ fr_n_experts fr = zlen experts /\ 0 < zlen experts
      /\ Forall (pair_ok t width) experts
  end.

Lemma route_ideal `{BuildProfile} {E} t fr x : router_ok fr -> fr_d_model fr = st_d_model t ->
  0 < fr_n_experts fr -> state_lanes t x ->
  @route E _ fr x = Ok (ideal_route fr x) /\ 0 <= ideal_route fr x < fr_n_experts fr.
Proof.
  intros Hok Hd Hn [Hx Hx24]. destruct (@route_total fr x Hok ltac:(split; [lia | done]) _ E Hn)
    as (e & v & Hr & Hm & Hlt & _).
  unfold route. rewrite Hr. cbn [obind]. unfold ideal_route.
  destruct (route_best (map (ideal_raw fr x) (zrange (fr_n_experts fr)))) as (e' & v' & Hm' & Hf).
  - intros Hnil. pose proof (fm_at _ _ _ Hm) as Hat. by rewrite Hnil in Hat.
  - apply List.Forall_map, Forall_zrange. intros k Hk.
    destruct (@route_total fr x Hok ltac:(split; [lia | done]) _ E Hn) as (_ & _ & _ & _ & _ & Hb).
    specialize (Hb k Hk). lia.
  - rewrite Hf. cbn [fst]. destruct (first_max_unique _ _ _ _ _ Hm Hm') as [-> _]. split; [done | lia].
Qed.

Lemma select_pair_total `{BuildProfile} {E} t width b idx x audit : block_ok t width b -> state_lanes t x ->
  exists audit', @select_pair E _ b idx x audit = Ok (ideal_select b x, audit')
    /\ pair_ok t width (ideal_select b x).1 /\ (audit = None -> audit' = None).
Proof.
  intros Hb Hx. destruct b as [up down|r fr experts]; cbn [select_pair ideal_select block_ok] in *.
  - by exists audit.
  - destruct Hb as (Hok & Hd & Hn & Hpos & Hpairs).
    destruct (@route_ideal _ E t fr x Hok Hd ltac:(lia) Hx) as [-> He]. cbn [obind].
    destruct (@index_total E _ experts (ideal_route fr x)) as (ud & -> & Hud); [lia|]. cbn [obind]. rewrite Hud. cbn.
    eexists. split; [reflexivity|]. split; [|by intros ->].
    rewrite Forall_forall in Hpairs. apply Hpairs. by eapply list_elem_of_lookup_2.
Qed.

Definition chosen (trs : list (StateBlockTrace * option Z)) : list Z :=
  flat_map (fun tr => match tr.2 with Some e => [e] | None => [] end) trs.

Lemma blocks_total `{BuildProfile} {E} m : let t := sm_topology m in
  topology_ok t -> lut_ok (sm_gelu_lut m) ->
  forall l st n, Forall (fun ib => block_ok t (sm_down_width m) ib.2) l -> state_lanes t (bl_x st) ->
  let trs := ideal_loop m (bl_x st) (map snd l) in
  Forall norm_safe (bl_x st :: map (fun tr => sb_residual tr.1) trs) ->
  0 <= n -> probe_ok (n + zlen l * st_d_model t) (bl_probe st) ->
  exists stats probe audit, ofold (@block_step E _ m) st l
      = Ok (MkBlockLoop (loop_residual (bl_x st) trs) (bl_traces st ++ map fst trs) (bl_selected st ++ chosen trs)
              stats probe audit)
    /\ probe_ok n probe /\ state_lanes t (loop_residual (bl_x st) trs) /\ (bl_audit st = None -> audit = None).
Proof.
  intros t Ht Hlut. pose proof (to_d _ Ht) as Hd. induction l as [|[i b] l IH]; intros st n Hl Hx trs Hsafe Hn Hp.
  - exists (bl_stats st), (bl_probe st), (bl_audit st). unfold trs. cbn.
    rewrite !app_nil_r. rewrite Z.mul_0_l, Z.add_0_r in Hp. by destruct st.
  - apply Forall_cons in Hl as [Hb Hl]. cbn [snd] in Hb. rewrite zlen_cons in Hp. pose proof (zlen_nonneg l).
    unfold trs in *. cbn [map snd ideal_loop ofold] in *. unfold block_step at 1. cbn [fst snd].
    destruct (@select_pair_total _ E t _ b i (bl_x st) (bl_audit st) Hb Hx) as (audit & -> & Hpair & Hnone).
    cbn [obind]. destruct (ideal_select b (bl_x st)) as [ud e]. cbn [fst] in Hpair. cbn [map fst] in Hsafe.
    apply Forall_cons in Hsafe as [Hs1 Hsafe].
    destruct (@state_ffn_yields _ E m ud (bl_x st) Ht Hlut Hpair Hx Hs1) as [Hf Hx'].
    destruct (Hf (n + zlen l * st_d_model t) (bl_stats st, bl_probe st)) as (sp & -> & Hp1).
    { nia. } { cbn [snd]. fold t. replace (_ + st_d_model t) with (n + (zlen l + 1) * st_d_model t) by lia. done. }
    cbn [obind]. set (tr := ideal_ffn m ud (bl_x st)) in *.
    destruct (IH (MkBlockLoop (sb_residual tr) (bl_traces st ++ [tr])
        (bl_selected st ++ match e with Some e => [e] | None => [] end) sp.1 sp.2 audit) n Hl Hx' Hsafe Hn Hp1)
      as (stats & probe & audit' & Heq & Hp2 & Hx2 & Hn2). cbn [bl_x bl_traces bl_selected bl_audit] in *.
    exists stats, probe, audit'. split_and!; [|done | exact Hx2 | by intros ?%Hnone%Hn2].
    rewrite Heq. unfold chosen, loop_residual. cbn [map flat_map fst snd foldl]. by rewrite <- !app_assoc.
Qed.

(** ** The paged head *)

Definition ideal_logit (m : IntStateLoweredModel) (q : list Z) (id : Z) : Z :=
  dot q (table_row (sm_head_i8 m) (st_d_model (sm_topology m)) id).
Definition ideal_state_logits (m : IntStateLoweredModel) (q : list Z) : list Z :=
  map (ideal_logit m q) (zrange (st_vocab (sm_topology m))).

Lemma omap_acc_range {E B St} (P : Z -> St -> Prop) (f : St -> Z -> outcome E (B * St)) (g : Z -> B) lo n :
  (forall k s, lo <= k < lo + n -> P k s -> exists s', f s k = Ok (g k, s') /\ P (k + 1) s') -> 0 <= n ->
  forall s, P lo s -> exists s', omap_acc f s (map (Z.add lo) (zrange n)) = Ok (map g (map (Z.add lo) (zrange n)), s')
    /\ P (lo + n) s'.
Proof.
  intros Hf Hn. assert (Hgen : forall j : nat, forall k, lo <= k -> k + Z.of_nat j <= lo + n -> forall s, P k s ->
    exists s', omap_acc f s (map (fun i => k + Z.of_nat i) (seq 0 j))
      = Ok (map g (map (fun i => k + Z.of_nat i) (seq 0 j)), s') /\ P (k + Z.of_nat j) s').
  { induction j as [|j IH]; intros k Hk Hkj s HP.
    - exists s. rewrite Z.add_0_r. done.
    - destruct (Hf k s ltac:(lia) HP) as (s1 & H1 & HP1).
      destruct (IH (k + 1) ltac:(lia) ltac:(lia) s1 HP1) as (s2 & H2 & HP2). exists s2.
      replace (k + Z.of_nat (S j)) with (k + 1 + Z.of_nat j) by lia. split; [|done].
      cbn [seq map]. rewrite Z.add_0_r. cbn [omap_acc map]. rewrite H1. cbn [obind].
      assert (Hs : map (fun i => k + Z.of_nat i) (seq 1 j) = map (fun i => k + 1 + Z.of_nat i) (seq 0 j)).
      { rewrite <- seq_shift, map_map. apply map_ext. intros i. lia. }
      rewrite Hs, H2. done. }
  intros s HP. destruct (Hgen (Z.to_nat n) lo ltac:(lia) ltac:(lia) s HP) as (s' & H1 & H2). exists s'.
  rewrite Z2Nat.id in H2 by done. split; [|done]. unfold zrange. rewrite (map_map Z.of_nat (Z.add lo)). exact H1.
Qed.

Lemma zrange_app lo k : 0 <= lo -> 0 <= k -> zrange lo ++ map (Z.add lo) (zrange k) = zrange (lo + k).
Proof.
  intros Hlo Hk. revert k Hk. apply (natlike_ind (fun k => zrange lo ++ map (Z.add lo) (zrange k) = zrange (lo + k))).
  - by rewrite Z.add_0_r, app_nil_r.
  - intros k Hk IH. unfold Z.succ. rewrite zrange_succ, map_app, app_assoc, IH, Z.add_assoc, zrange_succ by lia. done.
Qed.

Definition page_ids (vocab page : Z) : list Z :=
  id_range (page * LOGIT_PAGE_IDS) (Z.min ((page + 1) * LOGIT_PAGE_IDS) vocab).

Lemma pages_cover vocab n : 0 <= n -> 0 <= vocab ->
  concat (map (page_ids vocab) (zrange n)) = zrange (Z.min (n * LOGIT_PAGE_IDS) vocab).
Proof.
  intros Hn Hv. revert n Hn. apply (natlike_ind (fun n => concat (map (page_ids vocab) (zrange n)) = zrange (Z.min (n * LOGIT_PAGE_IDS) vocab))).
  - change (zrange 0) with (@nil Z). cbn [map concat]. rewrite Z.min_l by (unfold LOGIT_PAGE_IDS; lia). done.
  - intros n Hn IH. unfold Z.succ. rewrite zrange_succ, map_app, concat_app, IH by done. cbn [map concat].
    rewrite app_nil_r. unfold page_ids, id_range, LOGIT_PAGE_IDS. destruct (Z.le_gt_cases (n * 85) vocab) as [Hle|Hgt].
    + rewrite Z.min_l by done. rewrite zrange_app by lia. f_equal. lia.
    + rewrite !Z.min_r by lia. replace (zrange (vocab - n * 85)) with (@nil Z); [by rewrite app_nil_r|].
      unfold zrange. by replace (Z.to_nat (vocab - n * 85)) with 0%nat by lia.
Qed.

Lemma n_pages_enough t : 0 < st_vocab t -> 0 < n_pages t /\ st_vocab t <= n_pages t * LOGIT_PAGE_IDS
  /\ (forall page, 0 <= page < n_pages t -> page * LOGIT_PAGE_IDS <= st_vocab t).
Proof.
  intros Hv. unfold n_pages, div_ceil, LOGIT_PAGE_IDS. pose proof (Z.div_mod (st_vocab t) 85 ltac:(lia)).
  pose proof (Z.mod_pos_bound (st_vocab t) 85 ltac:(lia)). destruct (Z.eqb_spec (st_vocab t mod 85) 0); split_and!; lia.
Qed.

Section head.
Context (m : IntStateLoweredModel) (q : list Z).
Let d := st_d_model (sm_topology m).
Let vocab := st_vocab (sm_topology m).
Hypothesis (Hd : 0 < d <= 255) (Hvocab : 0 < vocab).
Hypothesis (Hlen : zlen (sm_head_i8 m) = vocab * d) (Hhead : Forall (fun e => - 127 <= e <= 127) (sm_head_i8 m)).
Hypothesis (Hq : Forall (fun q => - 127 <= q <= 127) q).

Definition head_entry (id : Z) : HeapEntry := MkHeapEntry (ideal_logit m q id) id.

(** After the ids below [c]. *)
Record head_inv (k c : Z) (st : HeadState) : Prop := {
  hv_heap : heap_inv (rev (map head_entry (zrange c))) (hd_heap st);
  hv_k : rt_k (hd_heap st) = k;
  hv_none : c = 0 -> hd_seen st = false;
  hv_best : 0 < c -> hd_seen st = true
    /\ exists i, first_max (map (ideal_logit m q) (zrange c)) i (hd_best st) /\ hd_argmax st = Z.of_nat i;
}.

Lemma logit_total {E} id : 0 <= id < vocab ->
  (let* row := @head_i8_row_at E m id in dot_i32 0 q row) = Ok (ideal_logit m q id)
  /\ Z.abs (ideal_logit m q id) <= 255 * 127 * 127.
Proof using Hd Hlen Hhead Hq.
  intros Hid. unfold head_i8_row_at. fold d vocab. rewrite rust_assert_true by lia. cbn [obind].
  destruct (@table_row_total E Z (fun e => - 127 <= e <= 127) (sm_head_i8 m) vocab d id Hlen ltac:(lia) Hid Hhead)
    as (-> & Hrl & Hr). cbn [obind]. unfold ideal_logit, dot. fold d.
  destruct (@head_dot_total E q _ Hq Hr ltac:(lia)) as [Hdot Hb]. split; [exact Hdot|]. nia.
Qed.

Lemma head_id_step {E} k c st : 0 <= c < vocab -> head_inv k c st ->
  exists st', @head_id E m q st c = Ok (ideal_logit m q c, st') /\ head_inv k (c + 1) st'.
Proof using Hd Hlen Hhead Hq.
  intros Hc [Hh Hk Hnone Hbest]. destruct (@logit_total E c Hc) as [Hl Hb]. unfold head_id.
  apply obind_Ok in Hl as (row & -> & Hl). cbn [obind]. rewrite Hl. cbn [obind].
  destruct (@offer_inv E _ _ (ideal_logit m q c) c Hh) as (h' & -> & Hk' & Hh'). cbn [obind].
  eexists. split; [reflexivity|]. constructor; cbn [hd_heap hd_seen hd_best hd_argmax].
  - rewrite zrange_succ, map_app, rev_app_distr by lia. done.
  - congruence.
  - lia.
  - intros _. rewrite zrange_succ, map_app by lia. cbn [map]. destruct (Z.eq_dec c 0) as [->|Hne].
    + rewrite (Hnone eq_refl). cbn [negb orb]. split; [done|]. exists 0%nat. split; [|done].
      change (zrange 0) with (@nil Z). constructor; [done | |].
      * intros [|j] w Hw; [by injection Hw as <- | done].
      * intros j w Hj _. lia.
    + destruct (Hbest ltac:(lia)) as (Hs & i & Hm & Ha). rewrite Hs. cbn [negb orb]. split; [done|].
      destruct (Z.ltb_spec (hd_best st) (ideal_logit m q c)).
      * exists (length (map (ideal_logit m q) (zrange c))). split; [by eapply first_max_snoc|].
        rewrite length_map, zrange_length. lia.
      * exists i. split; [|done]. apply first_max_app; [done|]. by repeat constructor.
Qed.

Lemma head_pages_total {E} k st : head_inv k 0 st ->
  exists st', omap_acc (@head_page E m q) st (zrange (n_pages (sm_topology m)))
      = Ok (map (fun page => map (ideal_logit m q) (page_ids vocab page)) (zrange (n_pages (sm_topology m))), st')
    /\ head_inv k vocab st'.
Proof using Hd Hvocab Hlen Hhead Hq.
  intros H0. destruct (n_pages_enough _ Hvocab) as (Hpos & Hcover & Hlo). set (np := n_pages (sm_topology m)) in *.
  destruct (omap_acc_range (fun page => head_inv k (Z.min (page * LOGIT_PAGE_IDS) vocab)) (@head_page E m q)
    (fun page => map (ideal_logit m q) (page_ids vocab page)) 0 np) with (s := st) as (st' & Hst & Hi).
  - intros page s Hpage Hs. rewrite Z.add_0_l in Hpage. specialize (Hlo page Hpage).
    rewrite Z.min_l in Hs by exact Hlo. unfold head_page, page_ids, id_range. fold vocab.
    set (lo := page * LOGIT_PAGE_IDS) in *. set (hi := Z.min ((page + 1) * LOGIT_PAGE_IDS) vocab).
    assert (Hhi : lo <= hi <= vocab) by (unfold hi, lo, LOGIT_PAGE_IDS in *; lia).
    destruct (omap_acc_range (head_inv k) (@head_id E m q) (ideal_logit m q) lo (hi - lo)) with (s := s)
      as (s' & Hs' & Hi'); [|lia | exact Hs |].
    + intros c s1 Hc Hs1. apply head_id_step; [|exact Hs1]. unfold lo, LOGIT_PAGE_IDS in *. lia.
    + exists s'. split; [exact Hs'|]. by replace (lo + (hi - lo)) with hi in Hi' by lia.
  - lia.
  - by rewrite Z.min_l by (unfold vocab; lia).
  - exists st'. rewrite Z.add_0_l, Z.min_r in Hi by exact Hcover. split; [|exact Hi].
    assert (Hid : forall l, map (Z.add 0) l = l) by (intros l; rewrite <- (map_id l) at 2; apply map_ext; lia).
    by rewrite Hid in Hst.
Qed.

Lemma head_ranks : ranked (rev (map head_entry (zrange vocab))) = ranks (map (ideal_logit m q) (zrange vocab)).
Proof using Hd Hvocab.
  unfold ranks. apply ranked_perm. rewrite <- Permutation_rev.
  enough (map head_entry (zrange vocab) = entries_of (map (ideal_logit m q) (zrange vocab))) as -> by done.
  unfold entries_of, enumerate. assert (zlen (map (ideal_logit m q) (zrange vocab)) = Z.max 0 vocab) as ->.
  { unfold zlen. rewrite length_map, zrange_length. lia. }
  assert (zrange (Z.max 0 vocab) = zrange vocab) as -> by (unfold zrange; f_equal; f_equal; lia).
  pose proof (zip_map (fun i => i) (ideal_logit m q) (zrange vocab)) as Hz. rewrite map_id in Hz.
  by rewrite Hz, map_map.
Qed.
End head.

(** ** The forward pass *)

Record smodel_ok (m : IntStateLoweredModel) : Prop := {
  so_topology : topology_ok (sm_topology m);
  so_emb_len : zlen (sm_emb_resid m) = st_vocab (sm_topology m) * st_d_model (sm_topology m);
  so_emb : Forall is_i24 (sm_emb_resid m);
  so_head_len : zlen (sm_head_i8 m) = st_vocab (sm_topology m) * st_d_model (sm_topology m);
  so_head : Forall (fun e => - 127 <= e <= 127) (sm_head_i8 m);
  so_gelu : lut_ok (sm_gelu_lut m);
  so_y : sm_y_resid_lut m = y_lut;
  so_in : lowered_ok (st_state_slots (sm_topology m)) (st_d_model (sm_topology m)) (sm_state_in m);
  so_out : layer_ok (st_d_model (sm_topology m)) (st_state_slots (sm_topology m)) (sm_state_out m);
  so_decay_len : zlen (sm_decay_u8 m) = st_state_slots (sm_topology m);
  so_decay : Forall is_byte (sm_decay_u8 m);
  so_blocks : Forall (block_ok (sm_topology m) (sm_down_width m)) (sm_block_ffns m);
}.

(** The pass on unbounded integers, stage by stage. *)
Definition ideal_embedding (m : IntStateLoweredModel) (prev : Z) : list Z :=
  table_row (sm_emb_resid m) (st_d_model (sm_topology m)) prev.
Definition ideal_in_acc (m : IntStateLoweredModel) (prev : Z) : list Z :=
  matvec (ll_layer (sm_state_in m)) (norm_act (st_d_model (sm_topology m)) (ideal_embedding m prev)).
Definition ideal_state (m : IntStateLoweredModel) (prev : Z) (state : list Z) : list Z :=
  map (ideal_slot m (ideal_in_acc m prev)) (enumerate state).
Definition ideal_outs (m : IntStateLoweredModel) (prev : Z) (state : list Z) : list (Z * Z * Z) :=
  map (ideal_out (sm_state_out m) (ideal_state m prev state) (ideal_embedding m prev))
    (zrange (st_d_model (sm_topology m))).
Definition ideal_residual0 (m : IntStateLoweredModel) (prev : Z) (state : list Z) : list Z :=
  map snd (ideal_outs m prev state).
Definition ideal_traces (m : IntStateLoweredModel) (prev : Z) (state : list Z) : list (StateBlockTrace * option Z) :=
  ideal_loop m (ideal_residual0 m prev state) (sm_block_ffns m).
Definition ideal_final_q (m : IntStateLoweredModel) (prev : Z) (state : list Z) : list Z :=
  norm_quant (st_d_model (sm_topology m)) (loop_residual (ideal_residual0 m prev state) (ideal_traces m prev state)).

(** The vectors that are normalized. *)
Definition norm_inputs (m : IntStateLoweredModel) (prev : Z) (state : list Z) : list (list Z) :=
  ideal_embedding m prev :: ideal_residual0 m prev state
  :: map (fun tr => sb_residual tr.1) (ideal_traces m prev state).

Definition state_ok (m : IntStateLoweredModel) (state : list Z) : Prop :=
  zlen state = st_state_slots (sm_topology m) /\ Forall is_state state.

(** What a trace must say. *)
Record trace_exact (m : IntStateLoweredModel) (prev : Z) (state : list Z) (tr : IntStateForwardTrace) : Prop := {
  te_in_acc : tr_state_in_acc tr = ideal_in_acc m prev;
  te_state : tr_state_after tr = ideal_state m prev state;
  te_out_acc : tr_state_out_acc tr = map (fun o => o.1.1) (ideal_outs m prev state);
  te_y : tr_y_act tr = map (fun o => o.1.2) (ideal_outs m prev state);
  te_residuals : tr_block_residuals tr = map (fun t => sb_residual t.1) (ideal_traces m prev state);
  te_selected : tr_selected_experts tr = chosen (ideal_traces m prev state);
  te_final : tr_final_q tr = ideal_final_q m prev state;
  te_pages : concat (tr_logit_pages tr) = ideal_state_logits m (ideal_final_q m prev state);
  te_page_len : Forall (fun p => zlen p <= LOGIT_PAGE_IDS) (tr_logit_pages tr);
  te_logits : tr_logits tr = match st_logit_paging (sm_topology m) with
    | Paging_SinglePage => ideal_state_logits m (ideal_final_q m prev state)
    | Paging_Paged => List.last (tr_logit_pages tr) [] end;
  te_argmax : exists i v, first_max (ideal_state_logits m (ideal_final_q m prev state)) i v
    /\ tr_argmax_full tr = Z.of_nat i /\ tr_argmax tr = wrap U8 (Z.of_nat i);
  te_heap : tr_topk_heap tr = take (Z.to_nat (Z.min HEAP_K_MAX (st_vocab (sm_topology m))))
                                (ranks (ideal_state_logits m (ideal_final_q m prev state)));
}.

Lemma page_len m q vocab page : 0 <= page -> zlen (map (ideal_logit m q) (page_ids vocab page)) <= LOGIT_PAGE_IDS.
Proof.
  intros Hp. unfold page_ids, id_range, zlen, LOGIT_PAGE_IDS. rewrite !length_map, zrange_length. lia.
Qed.

Lemma residual0_lanes m prev state : smodel_ok m -> state_lanes (sm_topology m) (ideal_residual0 m prev state).
Proof.
  intros Hm. pose proof (to_d _ (so_topology _ Hm)). unfold ideal_residual0, ideal_outs. rewrite map_map. split.
  - unfold zlen. rewrite length_map, zrange_length. lia.
  - apply List.Forall_map, Forall_forall. intros row _. apply as_signed_i24.
Qed.

Lemma head_inv_start {E} m q k : 1 <= k -> exists heap, @RunningTopK_new E k = Ok heap
  /\ forall stats, head_inv m q k 0 (MkHeadState stats 0 (- I32) false heap).
Proof.
  intros Hk. unfold RunningTopK_new. rewrite rust_assert_true by lia. eexists. split; [reflexivity|].
  intros stats. constructor; cbn [hd_heap hd_seen]; [|done | done | lia].
  change (zrange 0) with (@nil Z). constructor; cbn [rt_k rt_entries]; [done | constructor|].
  exists []. split_and!; [done | by intros t r ?%elem_of_nil |]. right. split; [done|]. unfold zlen. simpl. lia.
Qed.

(** From the out-projection to the logits. *)
Lemma loop_and_head `{BuildProfile} {E} m prev state stats probe audit : smodel_ok m ->
  Forall norm_safe (ideal_residual0 m prev state :: map (fun tr => sb_residual tr.1) (ideal_traces m prev state)) ->
  probe_ok (zlen (sm_block_ffns m) * st_d_model (sm_topology m)) probe ->
  exists st, ofold (@block_step E _ m) (MkBlockLoop (ideal_residual0 m prev state) [] [] stats probe audit)
      (enumerate (sm_block_ffns m)) = Ok st
    /\ bl_x st = loop_residual (ideal_residual0 m prev state) (ideal_traces m prev state)
    /\ bl_traces st = map fst (ideal_traces m prev state) /\ bl_selected st = chosen (ideal_traces m prev state)
    /\ (audit = None -> bl_audit st = None)
    /\ exists s, with_ffn (@int_norm_quant24 E _ (bl_x st)) (bl_stats st) = Ok (ideal_final_q m prev state, s)
    /\ exists hd, (let* heap := @RunningTopK_new E (Z.min HEAP_K_MAX (Z.max (st_vocab (sm_topology m)) 1)) in
        omap_acc (head_page m (ideal_final_q m prev state)) (MkHeadState s 0 (- I32) false heap)
          (zrange (n_pages (sm_topology m))))
      = Ok (map (fun page => map (ideal_logit m (ideal_final_q m prev state)) (page_ids (st_vocab (sm_topology m)) page))
              (zrange (n_pages (sm_topology m))), hd)
    /\ head_inv m (ideal_final_q m prev state) (Z.min HEAP_K_MAX (st_vocab (sm_topology m)))
         (st_vocab (sm_topology m)) hd.
Proof.
  intros Hm Hsafe Hprobe. pose proof (so_topology _ Hm) as Ht. pose proof (to_d _ Ht) as Hd. pose proof (to_vocab _ Ht) as Hv.
  assert (Hsnd : map snd (enumerate (sm_block_ffns m)) = sm_block_ffns m)
    by (unfold enumerate; apply snd_zip; rewrite zrange_length; unfold zlen; lia).
  destruct (@blocks_total _ E m Ht (so_gelu _ Hm) (enumerate (sm_block_ffns m))
    (MkBlockLoop (ideal_residual0 m prev state) [] [] stats probe audit) 0) as (s6 & probe' & audit' & Hb & _ & Hx & Hnone).
  - apply (proj1 (List.Forall_map snd _ _)). rewrite Hsnd. apply Hm.
  - by apply residual0_lanes.
  - cbn [bl_x]. rewrite Hsnd. exact Hsafe.
  - done.
  - assert (zlen (enumerate (sm_block_ffns m)) = zlen (sm_block_ffns m)) as -> by (unfold zlen; by rewrite enumerate_length).
    exact Hprobe.
  - cbn [bl_x bl_traces bl_selected bl_audit app] in *. rewrite Hsnd in *.
    change (ideal_loop m (ideal_residual0 m prev state) (sm_block_ffns m)) with (ideal_traces m prev state) in *.
    rewrite Hb. eexists. split; [reflexivity|]. cbn [bl_x bl_traces bl_selected bl_audit bl_stats].
    split_and!; [done.. |]. destruct Hx as [Hxl Hx24].
    set (x := loop_residual (ideal_residual0 m prev state) (ideal_traces m prev state)) in *.
    assert (Hsx : norm_safe x).
    { unfold x, loop_residual. revert Hsafe. generalize (ideal_traces m prev state) as l. generalize (ideal_residual0 m prev state) as y.
      intros y l. revert y. induction l as [|tr l IH]; intros y Hs; [by apply Forall_cons in Hs as [? _]|].
      cbn [foldl map] in *. apply Forall_cons in Hs as [_ Hs]. by apply IH. }
    destruct (with_ffn_yields _ _ (@int_norm_quant24_yields _ E x ltac:(lia) Hx24 Hsx) s6) as (s7 & Hn).
    rewrite Hxl in Hn. exists s7. split; [exact Hn|].
    rewrite (Z.max_l (st_vocab _)) by lia.
    destruct (@head_inv_start E m (ideal_final_q m prev state) (Z.min HEAP_K_MAX (st_vocab (sm_topology m)))) as (heap & -> & Hh);
      [unfold HEAP_K_MAX; lia|].
    assert (Hq : Forall (fun q => - 127 <= q <= 127) (ideal_final_q m prev state)) by (apply norm_quant_range; lia).
    destruct (@head_pages_total m _ Hd ltac:(lia) (so_head_len _ Hm) (so_head _ Hm) Hq E _ _ (Hh s7)) as (hd & Hp & Hi).
    exists hd. split; [exact Hp | exact Hi].
Qed.

Lemma forward_core_total `{BuildProfile} {E} m prev state probe audit : smodel_ok m ->
  0 <= prev < st_vocab (sm_topology m) -> state_ok m state -> Forall norm_safe (norm_inputs m prev state) ->
  probe_ok (zlen (sm_block_ffns m) * st_d_model (sm_topology m)) probe ->
  exists tr probe' audit',
    @forward_at_core E _ m prev state probe audit = Ok (tr, ideal_state m prev state, probe', audit')
    /\ trace_exact m prev state tr /\ state_ok m (ideal_state m prev state) /\ (audit = None -> audit' = None).
Proof.
  intros Hm Hprev [Hsl Hst] Hsafe Hprobe. pose proof (so_topology _ Hm) as Ht.
  pose proof (to_d _ Ht) as Hd. pose proof (to_slots _ Ht) as Hs. pose proof (to_vocab _ Ht) as Hv.
  destruct (@table_row_total E Z is_i24 (sm_emb_resid m) (st_vocab (sm_topology m)) (st_d_model (sm_topology m)) prev (so_emb_len _ Hm)
    ltac:(lia) Hprev (so_emb _ Hm)) as (Hemb & Hel & Hei).
  fold (ideal_embedding m prev) in Hemb, Hel, Hei. set (emb := ideal_embedding m prev) in *.
  apply Forall_cons in Hsafe as [Hsafe0 Hsafe].
  unfold forward_at_core.  rewrite rust_assert_true by lia. cbn [obind].
  unfold emb_resid_row_at.  rewrite rust_assert_true by lia. cbn [obind]. rewrite Hemb. cbn [obind].
  destruct (with_ffn_yields _ _ (@int_norm_quant24_yields _ E emb ltac:(lia) Hei Hsafe0) StateStats_new) as (s1 & ->).
  cbn [obind]. rewrite Hel. pose proof (norm_quant_range (st_d_model (sm_topology m)) emb ltac:(lia)) as Hqr.
  destruct (@act_bytes_total E _ Hqr) as [-> Hab]. cbn [obind].
  change (map (fun q => q + 128) (norm_quant (st_d_model (sm_topology m)) emb)) with (norm_act (st_d_model (sm_topology m)) emb) in *.
  assert (Hal : zlen (norm_act (st_d_model (sm_topology m)) emb) = st_d_model (sm_topology m))
    by (unfold norm_act, norm_quant, zlen in *; by rewrite !length_map).
  pose proof (matvec_i16 _ _ _ _ (lw_layer _ _ _ (so_in _ Hm)) ltac:(lia) Hal Hab) as Hi16.
  destruct (with_ffn_yields _ _ (@int_matvec_yields _ E _ _ (sm_state_in m) _ (so_in _ Hm) ltac:(lia) ltac:(lia) Hal Hab Hi16) s1)
    as (s2 & ->). cbn [obind].
  change (matvec (ll_layer (sm_state_in m)) (norm_act (st_d_model (sm_topology m)) emb)) with (ideal_in_acc m prev) in *.
  assert (Hil : zlen (ideal_in_acc m prev) = st_state_slots (sm_topology m))
    by (apply (matvec_zlen _ _ _ _ (lw_layer _ _ _ (so_in _ Hm))); lia).
  set (s3 := foldl _ s2 _).
  destruct (@slots_yield m _ _ _ (lw_layer _ _ _ (so_in _ Hm)) (so_decay_len _ Hm) (so_decay _ Hm) Hil Hi16 E state Hsl Hst)
    as (Hslots & Hst' & Hsl').
  destruct (Hslots s3) as (s4 & ->). cbn [obind]. fold (ideal_state m prev state) in Hst', Hsl' |- *.
  destruct (omap_acc_yields (@out_row E _ m (ideal_state m prev state) emb)
    (ideal_out (sm_state_out m) (ideal_state m prev state) emb) (zrange (st_d_model (sm_topology m)))) with (s := s4) as (s5 & ->).
  { apply Forall_zrange. intros row Hrow.
    apply (out_row_yields m (st_d_model (sm_topology m)) (st_state_slots (sm_topology m))); try done; [apply Hm | lia | apply Hm]. }
  cbn [obind]. change (map _ (zrange (st_d_model (sm_topology m)))) with (ideal_outs m prev state).
  fold (ideal_residual0 m prev state).
  destruct (@loop_and_head _ E m prev state s5 probe audit Hm Hsafe Hprobe) as
    (st & Hblocks & Hx & Htr & Hsel & Hnone & s6 & Hnorm & hd & Hpages & Hhd).
  rewrite Hblocks. cbn [obind]. rewrite Hnorm. cbn [obind].
  destruct (RunningTopK_new _) as [h0| | |]; try done. cbn [obind] in *. rewrite Hpages. cbn [obind].
  eexists _, _, _. split; [reflexivity|]. split_and!; [|split; done | exact Hnone].
  destruct (hv_best _ _ _ _ _ Hhd ltac:(lia)) as (_ & i & Hmax & Harg).
  destruct (n_pages_enough _ (proj1 Hv)) as (Hnp & Hcover & _).
  assert (Hcat : concat (map (fun page => map (ideal_logit m (ideal_final_q m prev state)) (page_ids (st_vocab (sm_topology m)) page))
            (zrange (n_pages (sm_topology m)))) = ideal_state_logits m (ideal_final_q m prev state)).
  { rewrite <- (map_map (page_ids _) (map _)), <- concat_map, pages_cover by lia. by rewrite Z.min_r by exact Hcover. }
  constructor; cbn [tr_state_in_acc tr_state_after tr_state_out_acc tr_y_act tr_block_residuals tr_selected_experts
    tr_final_q tr_logit_pages tr_logits tr_argmax_full tr_argmax tr_topk_heap]; try done.
  - by rewrite Htr, map_map.
  - apply List.Forall_map, Forall_zrange. intros page Hpage. apply page_len. lia.
  - destruct (st_logit_paging (sm_topology m)); [exact Hcat | done].
  - exists i, (hd_best hd). by rewrite Harg.
  - rewrite (heap_topk _ _ (hv_heap _ _ _ _ _ Hhd)), (hv_k _ _ _ _ _ Hhd). unfold ideal_state_logits. f_equal.
    apply head_ranks; [exact Hd | lia].
Qed.

(** ** Checkpoints and lowering *)

Definition pair_shape (t : StateTopology) (ud : TernaryLayer * TernaryLayer) : Prop :=
  layer_ok (st_d_ff t) (st_d_model t) ud.1 /\ layer_ok (st_d_model t) (st_d_ff t) ud.2.

Definition block_shape (t : StateTopology) (b : BlockFfn) : Prop :=
  match b with
  | Ffn_Dense up down => pair_shape t (up, down)
  | Ffn_Moe r experts =>
      zlen experts = st_n_experts t /\ (exists block, LowRankRouter_validate r block = Ok tt)
      /\ lr_d_model r = st_d_model t /\ lr_n_experts r = st_n_experts t /\ Forall (pair_shape t) experts
  end.

Record sck_ok (ck : StateCheckpoint) : Prop := {
  ko_d : 0 < st_d_model (sck_topology ck) <= 255;
  ko_ff : 0 < st_d_ff (sck_topology ck) <= 512;
  ko_slots : 0 < st_state_slots (sck_topology ck) <= 255;
  ko_vocab : 0 < st_vocab (sck_topology ck) <= 21675;
  ko_experts : 0 < st_n_experts (sck_topology ck) <= 255;
  ko_emb : zlen (sck_embedding ck) = st_vocab (sck_topology ck) * st_d_model (sck_topology ck);
  ko_in : layer_ok (st_state_slots (sck_topology ck)) (st_d_model (sck_topology ck)) (sck_state_in ck);
  ko_out : layer_ok (st_d_model (sck_topology ck)) (st_state_slots (sck_topology ck)) (sck_state_out ck);
  ko_decay_len : zlen (sck_decay_raw ck) = st_state_slots (sck_topology ck);
  ko_decay : Forall is_byte (sck_decay_raw ck);
  ko_blocks : Forall (block_shape (sck_topology ck)) (sck_blocks ck);
}.

(** What the types of the arguments say: layers come from [TernaryLayer::new],
    lengths and raws are unsigned. *)
Definition layer_wf (l : TernaryLayer) : Prop := layer_ok (tl_rows l) (tl_cols l) l.

Record inputs_wf (t : StateTopology) (state_in state_out : TernaryLayer) (decay : list Z) (blocks : list BlockFfn) : Prop := {
  iw_d : 0 <= st_d_model t;
  iw_ff : 0 <= st_d_ff t;
  iw_slots : 0 <= st_state_slots t;
  iw_vocab : 0 <= st_vocab t;
  iw_experts : 0 <= st_n_experts t;
  iw_in : layer_wf state_in;
  iw_out : layer_wf state_out;
  iw_decay : Forall (fun r => 0 <= r) decay;
  iw_blocks : Forall (fun b => Forall (fun ud => layer_wf ud.1 /\ layer_wf ud.2) (ffn_pairs b)) blocks;
  iw_ranks : Forall (fun b => match b with Ffn_Moe r _ => 0 <= lr_rank r | _ => True end) blocks;
}.

Lemma check_layer_Ok what l r c u : check_layer what l r c = Ok u -> layer_wf l -> layer_ok r c l.
Proof.
  unfold check_layer, layer_wf. intros [H _]%guard_err_Ok Hl. apply orb_false_iff in H as [H1 H2].
  apply negb_false_iff, Z.eqb_eq in H1. apply negb_false_iff, Z.eqb_eq in H2. by rewrite <- H1, <- H2.
Qed.

Lemma check_up_down_Ok t ud u : check_up_down t ud = Ok u -> layer_wf ud.1 -> layer_wf ud.2 -> pair_shape t ud.
Proof.
  unfold check_up_down. intros (? & H1 & H2)%obind_Ok Hu Hd.
  split; [exact (check_layer_Ok _ _ _ _ _ H1 Hu) | exact (check_layer_Ok _ _ _ _ _ H2 Hd)].
Qed.

Lemma enumerate_snd {A} (l : list A) : map snd (enumerate l) = l.
Proof. unfold enumerate. apply snd_zip. rewrite zrange_length. unfold zlen. lia. Qed.

Lemma check_state_block_Ok t ib u : check_state_block t ib = Ok u ->
  Forall (fun ud => layer_wf ud.1 /\ layer_wf ud.2) (ffn_pairs ib.2) -> block_shape t ib.2.
Proof.
  destruct ib as [i b]. cbn [snd]. unfold check_state_block. intros (? & _ & H)%obind_Ok Hwf. destruct b as [up down|r experts].
  - cbn [ffn_pairs] in Hwf. apply Forall_cons in Hwf as [[Hu Hd] _]. by eapply check_up_down_Ok.
  - cbn [ffn_pairs block_shape] in *. apply obind_Ok in H as (? & [Hn _]%guard_err_Ok & H).
    apply obind_Ok in H as ([] & Hv & H). apply obind_Ok in H as (? & _ & H).
    apply obind_Ok in H as (? & [Hs _]%guard_err_Ok & H). apply orb_false_iff in Hs as [Hs1 Hs2].
    apply negb_false_iff, Z.eqb_eq in Hs1, Hs2, Hn. split_and!; [done | by exists i | done | done|].
    apply Forall_forall. intros ud Hud. rewrite Forall_forall in Hwf. destruct (Hwf ud Hud).
    eapply check_up_down_Ok; [|done | done]. eapply ofold_unit_Ok; [exact H | done].
Qed.

Lemma new_blocks_ok t emb si so decay blocks ck : inputs_wf t si so decay blocks ->
  new_blocks t emb si so decay blocks = Ok ck ->
  ck = MkStateCheckpoint t emb si so decay blocks /\ sck_ok ck.
Proof.
  intros Hw H. unfold new_blocks in H. apply obind_Ok in H as (? & Hv & H).
  apply obind_Ok in H as (? & [He _]%guard_err_Ok & H). apply obind_Ok in H as (? & _ & H).
  apply obind_Ok in H as (? & Hin & H). apply obind_Ok in H as (? & Hout & H).
  apply obind_Ok in H as (? & [Hdl _]%guard_err_Ok & H). apply obind_Ok in H as (? & Hd & H).
  apply obind_Ok in H as (? & _ & H). apply obind_Ok in H as (? & Hb & [= <-]). split; [done|].
  apply negb_false_iff, Z.eqb_eq in He, Hdl.
  assert (Hlims : (st_d_model t <> 0 /\ st_d_model t <= 255) /\ (st_d_ff t <> 0 /\ st_d_ff t <= 512)
    /\ (st_state_slots t <> 0 /\ st_state_slots t <= 255) /\ (st_vocab t <> 0 /\ st_vocab t <= 21675)
    /\ st_n_experts t <> 0 /\ st_n_experts t <= 255).
  { unfold validate_host, validate_with_vocab_cap, lim in Hv. clear - Hv. inv_ok.
    assert (match st_logit_paging t with Paging_SinglePage => HOST_VOCAB_CAP
            | Paging_Paged => Z.max LOGIT_PAGED_VOCAB_MAX HOST_VOCAB_CAP end <= 21675)
      by (destruct (st_logit_paging t); vm_compute; discriminate).
    split_and!; lia. }
  destruct Hw as [W1 W2 W3 W4 W5 W6 W7 W8 W9 W10].
  constructor; cbn [sck_topology sck_embedding sck_state_in sck_state_out sck_decay_raw sck_blocks]; try lia.
  - exact (check_layer_Ok _ _ _ _ _ Hin W6).
  - exact (check_layer_Ok _ _ _ _ _ Hout W7).
  - apply Forall_forall. intros r Hr. rewrite Forall_forall in W8. specialize (W8 r Hr).
    rewrite <- (enumerate_snd decay) in Hr. apply list_elem_of_fmap in Hr as (sr & -> & Hr).
    pose proof (ofold_unit_Ok _ _ _ _ Hd sr Hr) as [Hg _]%guard_err_Ok. unfold is_byte. lia.
  - apply Forall_forall. intros b Hbb. rewrite Forall_forall in W9. specialize (W9 b Hbb).
    rewrite <- (enumerate_snd blocks) in Hbb. apply list_elem_of_fmap in Hbb as (ib & -> & Hib).
    eapply check_state_block_Ok; [|done]. eapply ofold_unit_Ok; [exact Hb | done].
Qed.

(** ** Witnesses *)

Lemma row_acc_bounds_exact_witness : (row_acc_bounds [1; -1; 0]).1 <= dot_zp [1; -1; 0] [3; 200; 9] <= (row_acc_bounds [1; -1; 0]).2.
Proof.
  apply (proj1 (row_acc_bounds_exact [1; -1; 0] ltac:(repeat constructor; vm_compute; congruence)) [3; 200; 9]).
  - repeat constructor; vm_compute; congruence.
  - reflexivity.
Defined.
