(* ===== verification/StateLowerFacts.v ===== *)
(** * Lowering a stateful checkpoint

    The structural width checks of [IntStateLoweredModel::lower] are exactly
    what the forward pass needs: a checkpoint that validates and lowers gives
    a model on which the pass is exact. *)

From S2P Require Import Prelude Numeric Float KernelSpec KernelSpecFacts ModelRef ModelRefFacts Sampler XorShift SamplerFacts Router RouterFacts StateModel StateModelFacts.

(** ** Width checks *)

Definition row_wide (l : TernaryLayer) (row : Z) : bool := bounds_escape_i16 (row_acc_bounds (lrow l row)).
Definition layer_wide (l : TernaryLayer) : bool := existsb (row_wide l) (zrange (tl_rows l)).

Lemma layer_needs_i24_total {E} r c l : layer_ok r c l -> 0 <= c <= 65535 ->
  @layer_needs_i24 E l = Ok (layer_wide l).
Proof.
  intros Hl Hc. unfold layer_needs_i24, layer_wide. rewrite (lo_rows _ _ _ Hl).
  assert (Hr : Forall (fun k => 0 <= k < r) (zrange r)) by (by apply Forall_zrange).
  induction Hr as [|k rows Hk _ IH]; [done|]. cbn [any_row existsb].
  destruct (@layer_row_total _ _ _ Hl Hc E k Hk) as (-> & _). cbn [obind]. unfold row_wide at 1.
  destruct (bounds_escape_i16 _); [done | exact IH].
Qed.

Lemma any_layer_total {E} ls : Forall (fun l => exists r c, layer_ok r c l /\ 0 <= c <= 65535) ls ->
  @any_layer E ls = Ok (existsb layer_wide ls).
Proof.
  induction 1 as [|l ls (r & c & Hl & Hc) _ IH]; [done|]. cbn [any_layer existsb].
  rewrite (layer_needs_i24_total r c) by done. cbn [obind]. by destruct (layer_wide l).
Qed.

Lemma elem_of_zrange k n : 0 <= k < n -> k ∈ zrange n.
Proof.
  intros Hk. unfold zrange. apply list_elem_of_fmap. exists (Z.to_nat k). split; [lia|]. apply elem_of_seq. lia.
Qed.

Lemma elem_of_zrange_inv k n : k ∈ zrange n -> 0 <= k < n.
Proof. unfold zrange. intros (i & -> & Hi)%list_elem_of_fmap. apply elem_of_seq in Hi. lia. Qed.

(** A row of at most 255 weights keeps 16-bit accumulators. *)
Lemma narrow_layer r c l : layer_ok r c l -> 0 <= c <= 255 -> layer_wide l = false.
Proof.
  intros Hl Hc. unfold layer_wide. apply not_true_is_false. intros (k & Hk & Hw)%existsb_exists.
  rewrite <- list_elem_of_In in Hk.
  assert (Hr : 0 <= k < r) by (rewrite <- (lo_rows _ _ _ Hl); by apply elem_of_zrange_inv).
  destruct (@layer_row_total _ _ _ Hl ltac:(lia) unit k Hr) as (_ & Hlen & Ht).
  pose proof (counts_bound _ Ht) as Hb. unfold row_wide, bounds_escape_i16, row_acc_bounds in Hw.
  fold (pos_count (lrow l k)) (neg_count (lrow l k)) in Hw. cbn [fst snd] in Hw. lia.
Qed.

Lemma wide_false_row l row : layer_wide l = false -> 0 <= row < tl_rows l -> row_wide l row = false.
Proof.
  intros Hw Hr. apply not_true_is_false. intros Ht. apply not_true_iff_false in Hw. apply Hw.
  apply existsb_exists. exists row. split; [|done]. rewrite <- list_elem_of_In.
  by apply elem_of_zrange.
Qed.

Lemma width_ok_i16 l : layer_wide l = false -> width_ok Width_I16 l.
Proof.
  intros Hw row acc Hr Hb. pose proof (wide_false_row l row Hw Hr) as Hn.
  unfold row_wide, bounds_escape_i16 in Hn. apply orb_false_iff in Hn as [H1 H2]. unfold acc_ok, is_i16. lia.
Qed.

(** What one step of a fold that succeeds does. *)
Lemma ofold_each {E A S} (f : S -> A -> outcome E S) l : forall s u,
  ofold f s l = Ok u -> forall x, x ∈ l -> exists s' u', f s' x = Ok u'.
Proof.
  induction l as [|y l IH]; intros s u H x Hx; [by apply elem_of_nil in Hx|]. cbn [ofold] in H.
  apply obind_Ok in H as (s' & Hy & H). apply elem_of_cons in Hx as [->|Hx]; [by eexists _, _ | by eapply IH].
Qed.

(** The carrier checks of the wide down projection bound every accumulator. *)
Lemma check_down_row_ok r c l block bounds u row : layer_ok r c l -> 0 <= c <= 512 -> 0 <= row < r ->
  check_down_row Width_I24 block l bounds row = Ok u ->
  forall acc, (row_acc_bounds (lrow l row)).1 <= acc <= (row_acc_bounds (lrow l row)).2 ->
    acc_ok Width_I24 (lscale l row) acc.
Proof.
  intros Hl Hc Hr H acc Hacc. unfold check_down_row in H.
  destruct (@layer_row_total _ _ _ Hl ltac:(lia) StateModelError row Hr) as (Hrow & Hlen & Ht).
  rewrite Hrow in H. cbn [obind] in H. pose proof (counts_bound _ Ht) as Hcb.
  destruct (row_acc_bounds (lrow l row)) as [lo hi] eqn:Eb.
  assert (Hlohi : - 128 * 512 <= lo <= 0 /\ 0 <= hi <= 128 * 512).
  { unfold row_acc_bounds in Eb. fold (pos_count (lrow l row)) (neg_count (lrow l row)) in Eb.
    injection Eb as <- <-. lia. }
  destruct (@layer_scale_total _ _ _ Hl StateModelError row Hr) as (Hs & Hu). rewrite Hs in H. cbn [obind] in H.
  cbn [fst snd] in Hacc. set (b := Z.max (Z.abs lo) hi) in *.
  assert (Hb : 0 <= b <= 65536 /\ Z.abs acc <= b) by (unfold b; lia). clearbody b.
  assert (Hsb : 0 <= lscale l row * b <= 65535 * 65536) by (split; [nia | apply Z.mul_le_mono_nonneg; lia]).
  rewrite ichk_fits in H by (unfold I64; lia). cbn [obind] in H.
  apply obind_Ok in H as ([] & H & _). apply obind_Ok in H as ([] & [Hov _]%guard_err_Ok & [Hd _]%guard_err_Ok).
  assert (Hsc : 0 <= lscale l row) by lia. clear - Hb Hd Hsc. unfold acc_ok, wide_delta. split; [lia|].
  rewrite <- div254_round.
  assert (Z.abs (lscale l row * acc) <= lscale l row * b) by (rewrite Z.abs_mul, (Z.abs_eq (lscale l row)) by done; nia).
  assert (H1 : (Z.abs (lscale l row * acc) * 2 + 127) / 254 <= (2 * lscale l row * b + 127) / 254)
    by (apply Z.div_le_mono; lia).
  assert (H0 : 0 <= (Z.abs (lscale l row * acc) * 2 + 127) / 254) by (apply Z.div_pos; lia).
  lia.
Qed.

(** ** The model of a checkpoint *)

Lemma enumerate_has {A} (x : A) l : x ∈ l -> exists i, (i, x) ∈ enumerate l.
Proof.
  intros Hx. rewrite <- (enumerate_snd l) in Hx. apply list_elem_of_fmap in Hx as ([i y] & -> & Hx). by exists i.
Qed.

(** The carrier chosen for the model is one every down projection fits. *)
Lemma widths_ok `{BuildProfile} t blocks bounds : 0 < st_d_ff t <= 512 ->
  Forall (block_shape t) blocks ->
  (let* wide := any_layer (map snd (flat_map ffn_pairs blocks)) in
   ofold (check_block_widths (if (wide : bool) then Width_I24 else Width_I16)) (0, 0) (enumerate blocks)) = Ok bounds ->
  forall width, @any_layer StateModelError (map snd (flat_map ffn_pairs blocks))
    = Ok (match width with Width_I24 => true | Width_I16 => false end) ->
  Forall (fun b => Forall (fun ud => pair_shape t ud /\ width_ok width ud.2) (ffn_pairs b)) blocks.
Proof.
  intros Hff Hsh Hrun width Hw. rewrite Hw in Hrun. cbn [obind] in Hrun.
  assert (Hpairs : Forall (fun b => Forall (pair_shape t) (ffn_pairs b)) blocks).
  { eapply Forall_impl; [exact Hsh|]. intros [up down|r experts]; cbn [block_shape ffn_pairs].
    - intros Hp. by constructor.
    - by intros (_ & _ & _ & _ & ?). }
  rewrite any_layer_total in Hw.
  2: { apply List.Forall_map, Forall_flat_map. eapply Forall_impl; [exact Hpairs|]. intros b Hb.
       eapply Forall_impl; [exact Hb|]. intros ud [_ Hd]. exists (st_d_model t), (st_d_ff t). split; [done | lia]. }
  injection Hw as Hw. apply Forall_forall. intros b Hb. apply Forall_forall. intros ud Hud.
  rewrite Forall_forall in Hpairs. pose proof (Hpairs b Hb) as Hp. rewrite Forall_forall in Hp.
  specialize (Hp ud Hud). split; [done|]. destruct width.
  - apply width_ok_i16, not_true_is_false. intros Ht. apply not_true_iff_false in Hw. apply Hw.
    apply existsb_exists. exists ud.2. split; [|done]. rewrite <- list_elem_of_In.
    apply list_elem_of_fmap. exists ud. split; [done|]. apply list_elem_of_In, in_flat_map.
    exists b. by rewrite <- !list_elem_of_In.
  - destruct (enumerate_has b blocks Hb) as (i & Hi).
    destruct (ofold_each _ _ _ _ Hrun _ Hi) as (s1 & u1 & H1). unfold check_block_widths in H1. cbn [fst snd] in H1.
    destruct (ofold_each _ _ _ _ H1 _ Hud) as (s2 & u2 & H2). unfold check_pair in H2.
    apply obind_Ok in H2 as (? & _ & H2). intros row acc Hrow Hacc. destruct Hp as [_ Hd].
    destruct (ofold_each _ _ _ _ H2 row (elem_of_zrange _ _ Hrow)) as (s3 & u3 & H3).
    rewrite (lo_rows _ _ _ Hd) in Hrow. by eapply (check_down_row_ok _ _ _ _ _ _ _ Hd); [lia | | exact H3 |].
Qed.

(** The lowered form of a checkpoint block. *)
Definition lowers_pair (ud : TernaryLayer * TernaryLayer) (lw : LoweredLayer * LoweredLayer) : Prop :=
  ll_layer lw.1 = ud.1 /\ ll_layer lw.2 = ud.2.

Definition lowers_block (b : BlockFfn) (lb : LoweredBlockFfn) : Prop :=
  match b, lb with
  | Ffn_Dense up down, Lw_Dense up' down' => lowers_pair (up, down) (up', down')
  | Ffn_Moe r experts, Lw_Moe r' fr experts' =>
      r' = r /\ (exists block, FixedRouter_lower r block = Ok fr) /\ Forall2 lowers_pair experts experts'
  | _, _ => False
  end.

Lemma lower_pair_total {E} t width ud : 0 < st_d_model t <= 255 -> 0 < st_d_ff t <= 512 ->
  pair_shape t ud -> width_ok width ud.2 ->
  exists lw, @lower_pair E ud = Ok lw /\ lowers_pair ud lw /\ pair_ok t width lw.
Proof.
  intros Hd Hff [Hu Hw] Hwid. unfold lower_pair.
  destruct (@LoweredLayer_new_total E _ _ _ Hu ltac:(lia)) as (u & -> & Hu1 & Hu2). cbn [obind].
  destruct (@LoweredLayer_new_total E _ _ _ Hw ltac:(lia)) as (d & -> & Hd1 & Hd2). cbn [obind].
  eexists. split; [reflexivity|]. split; [by split|]. constructor; cbn [fst snd]; [done | done|]. by rewrite Hd1.
Qed.

Lemma omapM_some {E A B} (f : A -> outcome E B) (R : A -> B -> Prop) l :
  (forall x, x ∈ l -> exists y, f x = Ok y /\ R x y) -> exists l', omapM f l = Ok l' /\ Forall2 R l l'.
Proof.
  induction l as [|x l IH]; intros H; [by exists []|]. destruct (H x) as (y & Hy & HR); [by left|].
  destruct IH as (l' & Hl' & HF); [intros z Hz; apply H; by right|].
  exists (y :: l'). cbn [omapM]. rewrite Hy. cbn [obind]. rewrite Hl'. split; [done | by constructor].
Qed.

Lemma Forall2_impl_l {A B} (R R' : A -> B -> Prop) (Q : A -> Prop) l l' :
  Forall2 R l l' -> Forall Q l -> (forall x y, Q x -> R x y -> R' x y) -> Forall2 R' l l'.
Proof.
  induction 1 as [|x y l l' Hxy _ IH]; intros HQ Himp; [constructor|]. apply Forall_cons in HQ as [Hx HQ].
  constructor; [by apply Himp | by apply IH].
Qed.

Lemma enumerate_Forall {A} (P : A -> Prop) l : Forall P l -> Forall (fun ix => P ix.2) (enumerate l).
Proof. intros HP. apply (List.Forall_map snd P). by rewrite enumerate_snd. Qed.

Definition block_widths_ok (t : StateTopology) (width : AccWidth) (b : BlockFfn) : Prop :=
  Forall (fun ud => pair_shape t ud /\ width_ok width ud.2) (ffn_pairs b).

Lemma lower_block_ok t width ib lb : 0 < st_d_model t <= 255 -> 0 < st_d_ff t <= 512 -> 0 < st_n_experts t ->
  block_shape t ib.2 -> block_widths_ok t width ib.2 ->
  match ib.2 with Ffn_Moe r _ => 0 <= lr_rank r | _ => True end ->
  lower_block ib = Ok lb -> lowers_block ib.2 lb.2 /\ block_ok t width lb.2.
Proof.
  destruct ib as [i b]. cbn [snd]. intros Hd Hff Hn Hs Hw Hrank H. unfold lower_block in H. cbn [snd fst] in H.
  unfold block_widths_ok in Hw. destruct b as [up down|r experts]; cbn [ffn_pairs block_shape] in *.
  - apply Forall_cons in Hw as [[Hp Hwd] _].
    destruct (@lower_pair_total StateModelError t width (up, down) Hd Hff Hp Hwd) as ([u d] & Hl & Hlw & Hok).
    rewrite Hl in H. cbn [obind] in H. injection H as <-. by split.
  - destruct (omapM_some (@lower_pair StateModelError) (fun ud lw => lowers_pair ud lw /\ pair_ok t width lw) experts)
      as (lws & Hl & HF).
    { intros ud Hud. rewrite Forall_forall in Hw. destruct (Hw ud Hud) as [Hp Hwd]. by apply lower_pair_total. }
    rewrite Hl in H. cbn [obind] in H. apply obind_Ok in H as (fr & Hfr & H).
    apply obind_Ok in H as (e0 & _ & [= <-]). cbn [snd]. destruct Hs as (Hne & (block & Hv) & Hdm & Hne' & _).
    destruct (FixedRouter_lower_ok r block i fr) as (Hro & _ & Hfd & Hfn); [done | lia | lia | done | done|].
    pose proof (Forall2_length _ _ _ HF) as Hlen. split.
    + cbn [lowers_block]. split_and!; [done | by exists i|]. eapply Forall2_impl; [exact HF|]. by intros ? ? [].
    + cbn [block_ok]. unfold zlen in *. split_and!; [done | lia | lia | lia|].
      apply Forall_forall. intros lw Hlw. apply list_elem_of_lookup in Hlw as (k & Hk).
      destruct (Forall2_lookup_r _ _ _ _ _ HF Hk) as (ud & _ & _ & Hok). exact Hok.
Qed.

Lemma decay_bytes_total l : Forall is_byte l -> omapM decay_byte (enumerate l) = Ok l.
Proof.
  intros Hl. rewrite (omapM_total _ snd); [by rewrite enumerate_snd|].
  apply Forall_forall. intros [i v] Hiv. rewrite Forall_forall in Hl.
  assert (Hv : is_byte v).
  { apply Hl. rewrite <- (enumerate_snd l). apply list_elem_of_fmap. by exists (i, v). }
  unfold decay_byte. cbn [fst snd]. rewrite (proj2 (try_from_u_Some U8 v v)); [done|]. unfold is_byte in Hv. lia.
Qed.

Lemma head_i8_range max_abs v : - 127 <= head_i8_of max_abs v <= 127.
Proof.
  unfold head_i8_of. match goal with |- context [i64_clamp ?x ?a ?b] =>
    pose proof (i64_clamp_range x a b ltac:(done)) as Hr end.
  unfold QMAX in *. rewrite as_signed_id; [lia | unfold I8; lia].
Qed.

Lemma state_emb_resid_range v : is_i24 (state_emb_resid_of v).
Proof.
  unfold state_emb_resid_of. match goal with |- context [i64_clamp ?x ?a ?b] =>
    pose proof (i64_clamp_range x a b ltac:(done)) as Hr end.
  unfold is_i24, I24, RESID_I24_MIN, RESID_I24_MAX in *. change (Z.shiftl 1 23) with (2 ^ 23) in *.
  rewrite as_signed_id; [lia | unfold I32; lia].
Qed.

Definition ranks_wf (ck : StateCheckpoint) : Prop :=
  Forall (fun b => match b with Ffn_Moe r _ => 0 <= lr_rank r | _ => True end) (sck_blocks ck).

Lemma state_lower_ok `{MathLib} `{BuildProfile} ck m : sck_ok ck -> ranks_wf ck ->
  st_d_model (sck_topology ck) <= st_d_ff (sck_topology ck) -> state_lower ck = Ok m ->
  smodel_ok m /\ sm_topology m = sck_topology ck /\ Forall2 lowers_block (sck_blocks ck) (sm_block_ffns m).
Proof.
  intros [Hd Hff Hs Hv Hne Hemb Hin Hout Hdl Hdec Hblk] Hranks Hle Hrun. unfold state_lower in Hrun.
  set (t := sck_topology ck) in *.
  rewrite (omapM_total (embedding_row_at ck) (table_row (sck_embedding ck) (st_d_model t))) in Hrun.
  2: { apply Forall_zrange. intros i Hi. unfold embedding_row_at. fold t. rewrite rust_assert_true by lia. cbn [obind].
       apply (table_row_total (fun _ => True) _ (st_vocab t)); [done | lia | done | by apply Forall_true]. }
  assert (Hcat : concat (map (table_row (sck_embedding ck) (st_d_model t)) (zrange (st_vocab t))) = sck_embedding ck)
    by (apply concat_rows; lia).
  cbn [obind] in Hrun. rewrite Hcat in Hrun.
  apply obind_Ok in Hrun as (ylut & Hylut & Hrun). rewrite (@y_lut_built StateModelError) in Hylut.
  injection Hylut as Hylut. rewrite decay_bytes_total in Hrun by done. cbn [obind] in Hrun.
  apply obind_Ok in Hrun as (? & _ & Hrun). apply obind_Ok in Hrun as (wide & Hwide & Hrun).
  apply obind_Ok in Hrun as ([accb deltab] & Hbounds & Hrun). apply obind_Ok in Hrun as (lbs & Hlbs & Hrun).
  destruct (@LoweredLayer_new_total StateModelError _ _ _ Hin ltac:(lia)) as (lin & Hlin & Hlin1 & Hlin2).
  rewrite Hlin in Hrun. cbn [obind] in Hrun. injection Hrun as <-.
  set (width := if wide then Width_I24 else Width_I16) in *.
  pose proof (widths_ok t (sck_blocks ck) (accb, deltab) Hff Hblk) as Hwo. rewrite Hwide in Hwo.
  specialize (Hwo Hbounds width). unfold width in Hwo at 1.
  assert (Hblocks : Forall2 (fun ib lb => lowers_block ib.2 lb.2 /\ block_ok t width lb.2) (enumerate (sck_blocks ck)) lbs).
  { apply omapM_Forall2 in Hlbs. eapply (Forall2_impl_l _ _ _ _ _ Hlbs).
    - apply enumerate_Forall. apply Forall_and. split; [exact Hblk|]. apply Forall_and. split; [|exact Hranks].
      apply Hwo. by destruct wide.
    - intros ib lb (Hb & Hw & Hr) Hl. apply (lower_block_ok t width ib lb); [exact Hd | exact Hff | apply Hne | done..]. }
  split; [|split; [done|]].
  - constructor; cbn [sm_topology sm_emb_resid sm_head_i8 sm_gelu_lut sm_y_resid_lut sm_state_in sm_state_out
      sm_decay_u8 sm_block_ffns sm_down_width]; try done.
    + constructor; [exact Hd | split; [exact Hle | apply Hff] | exact Hs | exact Hv].
    + unfold zlen in *. by rewrite length_map.
    + apply List.Forall_map, Forall_forall. intros v _. apply state_emb_resid_range.
    + unfold zlen in *. by rewrite length_map.
    + apply List.Forall_map, Forall_forall. intros v _. apply head_i8_range.
    + apply gelu_lut_ok.
    + apply List.Forall_map, Forall_forall. intros lb Hlb. apply list_elem_of_lookup in Hlb as (k & Hk).
      destruct (Forall2_lookup_r _ _ _ _ _ Hblocks Hk) as (ib & _ & _ & Hok). exact Hok.
  - cbn [sm_block_ffns]. rewrite <- (enumerate_snd (sck_blocks ck)). apply Forall2_fmap.
    eapply Forall2_impl; [exact Hblocks|]. by intros ? ? [].
Qed.
