(* ===== verification/StateForwardFacts.v ===== *)
(** * The stateful forward pass: end-to-end theorems

    Exactness from a validated checkpoint to the trace, the equivalences that
    hold between models (one expert and dense blocks, single page and paged
    logits), transparency of the probe and the routing audit, and the two
    inputs on which the pass stops. *)

From S2P Require Import Prelude Numeric Float KernelSpec KernelSpecFacts ModelRef ModelRefFacts Sampler XorShift SamplerFacts Router RouterFacts StateModel StateModelFacts StateLowerFacts.

(** ** From the checkpoint to the trace *)

Lemma forward_at_total `{BuildProfile} {E} m prev state : smodel_ok m ->
  0 <= prev < st_vocab (sm_topology m) -> state_ok m state -> Forall norm_safe (norm_inputs m prev state) ->
  exists tr, @forward_at E _ m prev state = Ok (tr, ideal_state m prev state)
    /\ trace_exact m prev state tr /\ state_ok m (ideal_state m prev state).
Proof.
  intros Hm Hp Hs Hn. destruct (@forward_core_total _ E m prev state None None Hm Hp Hs Hn I) as (tr & p & a & Hf & Ht & Ho & _).
  exists tr. split; [|by split]. unfold forward_at, forward_at_probed. by rewrite Hf.
Qed.

(** C29: From a checkpoint to logits: every checkpoint that validates and lowers
    (with [d_model <= d_ff]) runs on every token and every saturated state, in
    debug and release builds: no accumulator, product, index or histogram
    leaves its machine width.  The trace is the unbounded computation stage by
    stage: state update, out-projection, routed blocks, final activations and
    paged logits; the argmax is the lowest index of the largest logit and the
    heap is the top of the ranking.  The next state is saturated again, so
    runs chain.  In debug builds no normalized vector may be all -2^23. *)
Theorem state_forward_exact `{MathLib} `{BuildProfile} t emb si so decay blocks ck m prev state :
  inputs_wf t si so decay blocks -> new_blocks t emb si so decay blocks = Ok ck -> state_lower ck = Ok m ->
  st_d_model t <= st_d_ff t -> 0 <= prev < st_vocab t -> state_ok m state ->
  Forall norm_safe (norm_inputs m prev state) ->
  exists tr, @forward_at Empty_set _ m prev state = Ok (tr, ideal_state m prev state)
    /\ trace_exact m prev state tr /\ state_ok m (ideal_state m prev state).
Proof.
  intros Hw Hnew Hlow Hle Hprev Hst Hsafe. destruct (new_blocks_ok _ _ _ _ _ _ _ Hw Hnew) as [-> Hok].
  destruct (state_lower_ok _ _ Hok (iw_ranks _ _ _ _ _ Hw) Hle Hlow) as (Hm & Ht & _). cbn [sck_topology] in Ht.
  apply forward_at_total; try done. by rewrite Ht.
Qed.

(** ** Models that compute the same *)

(** [m] with another paging of the same head. *)
Definition with_paging (p : LogitPaging) (m : IntStateLoweredModel) : IntStateLoweredModel :=
  let t := sm_topology m in
  MkIntStateLoweredModel
    (MkStateTopology (st_d_model t) (st_d_ff t) (st_n_blocks t) (st_state_slots t) (st_vocab t) (st_n_experts t) p)
    (sm_emb_resid m) (sm_head_i8 m) (sm_head_step m) (sm_gelu_lut m) (sm_y_resid_lut m) (sm_state_in m)
    (sm_state_out m) (sm_decay_u8 m) (sm_blocks m) (sm_block_ffns m) (sm_down_width m)
    (sm_down_acc_structural_bound m) (sm_down_delta_structural_bound m).

Lemma ideal_loop_paging p m bs : forall x, ideal_loop (with_paging p m) x bs = ideal_loop m x bs.
Proof.
  induction bs as [|b bs IH]; intros x; [done|]. cbn [ideal_loop]. destruct (ideal_select b x) as [ud e].
  change (ideal_ffn (with_paging p m) ud x) with (ideal_ffn m ud x). by rewrite IH.
Qed.

Lemma ideal_traces_paging p m prev state : ideal_traces (with_paging p m) prev state = ideal_traces m prev state.
Proof. apply ideal_loop_paging. Qed.

Lemma smodel_ok_paging p m : smodel_ok m -> smodel_ok (with_paging p m).
Proof.
  intros [Ht ? ? ? ? ? ? ? ? ? ? Hb]. constructor; try done.
  - destruct Ht. by constructor.
  - eapply Forall_impl; [exact Hb|]. intros [up down|r fr experts]; cbn [block_ok].
    + intros [? ? ?]. by constructor.
    + intros (? & ? & ? & ? & Hp). split_and!; try done. eapply Forall_impl; [exact Hp|]. intros ud [? ? ?]. by constructor.
Qed.

(** Paging only changes which logits the trace keeps: with the single-page
    head the trace holds the logits of the whole vocabulary, with the paged
    head those of the last page; state, residuals, pages, argmax and heap are
    the same, and the kept page is the last one. *)
Theorem paging_transparent `{BuildProfile} m prev state : smodel_ok m ->
  0 <= prev < st_vocab (sm_topology m) -> state_ok m state -> Forall norm_safe (norm_inputs m prev state) ->
  exists tr1 tr2 s,
    @forward_at Empty_set _ (with_paging Paging_SinglePage m) prev state = Ok (tr1, s)
    /\ @forward_at Empty_set _ (with_paging Paging_Paged m) prev state = Ok (tr2, s)
    /\ tr_block_residuals tr1 = tr_block_residuals tr2 /\ tr_selected_experts tr1 = tr_selected_experts tr2
    /\ concat (tr_logit_pages tr1) = concat (tr_logit_pages tr2)
    /\ tr_argmax_full tr1 = tr_argmax_full tr2 /\ tr_topk_heap tr1 = tr_topk_heap tr2
    /\ tr_logits tr1 = concat (tr_logit_pages tr2) /\ tr_logits tr2 = List.last (tr_logit_pages tr2) [].
Proof.
  intros Hm Hp Hs Hn.
  assert (Hsafe : forall p, Forall norm_safe (norm_inputs (with_paging p m) prev state))
    by (intros p; unfold norm_inputs; rewrite ideal_traces_paging; exact Hn).
  destruct (@forward_at_total _ Empty_set (with_paging Paging_SinglePage m) prev state (smodel_ok_paging _ m Hm) Hp Hs (Hsafe _))
    as (tr1 & H1 & T1 & _).
  destruct (@forward_at_total _ Empty_set (with_paging Paging_Paged m) prev state (smodel_ok_paging _ m Hm) Hp Hs (Hsafe _))
    as (tr2 & H2 & T2 & _).
  exists tr1, tr2, (ideal_state m prev state). split; [exact H1|]. split; [exact H2|].
  assert (Hq : forall p, ideal_final_q (with_paging p m) prev state = ideal_final_q m prev state)
    by (intros p; unfold ideal_final_q; rewrite ideal_traces_paging; done).
  destruct T1 as [_ _ _ _ R1 S1 _ P1 _ L1 (i1 & v1 & M1 & A1 & _) K1].
  destruct T2 as [_ _ _ _ R2 S2 _ P2 _ L2 (i2 & v2 & M2 & A2 & _) K2].
  rewrite ideal_traces_paging in R1, R2, S1, S2. rewrite Hq in P1, P2, L1, M1, M2, K1, K2.
  change (ideal_state_logits (with_paging ?p m) ?q) with (ideal_state_logits m q) in *.
  split_and!; [congruence | congruence | congruence | | | | exact L2].
  - rewrite A1, A2. destruct (first_max_unique _ _ _ _ _ M1 M2) as [-> _]. done.
  - rewrite K1, K2. done.
  - rewrite L1, P2. done.
Qed.

(** [m] with other blocks. *)
Definition with_blocks (bs : list LoweredBlockFfn) (m : IntStateLoweredModel) : IntStateLoweredModel :=
  MkIntStateLoweredModel (sm_topology m) (sm_emb_resid m) (sm_head_i8 m) (sm_head_step m) (sm_gelu_lut m)
    (sm_y_resid_lut m) (sm_state_in m) (sm_state_out m) (sm_decay_u8 m) (sm_blocks m) bs (sm_down_width m)
    (sm_down_acc_structural_bound m) (sm_down_delta_structural_bound m).

(** A dense block and a router over that block alone. *)
Definition sole_expert (d : Z) (b b' : LoweredBlockFfn) : Prop :=
  match b, b' with
  | Lw_Dense up down, Lw_Moe _ fr experts =>
      experts = [(up, down)] /\ router_ok fr /\ fr_d_model fr = d /\ fr_n_experts fr = 1
  | _, _ => False
  end.

Lemma ideal_route_one fr x : fr_n_experts fr = 1 -> ideal_route fr x = 0.
Proof.
  intros Hn. unfold ideal_route. rewrite Hn. change (zrange 1) with [0]. cbn [map].
  change (enumerate [ideal_raw fr x 0]) with [(0, ideal_raw fr x 0)]. cbn [foldl]. unfold route_step. cbn [fst snd].
  by destruct (_ <? _).
Qed.

Lemma ideal_loop_blocks bs m l : forall x, ideal_loop (with_blocks bs m) x l = ideal_loop m x l.
Proof.
  induction l as [|b l IH]; intros x; [done|]. cbn [ideal_loop]. destruct (ideal_select b x) as [ud e].
  change (ideal_ffn (with_blocks bs m) ud x) with (ideal_ffn m ud x). by rewrite IH.
Qed.

Lemma ideal_loop_sole m bs bs' : Forall2 (sole_expert (st_d_model (sm_topology m))) bs bs' ->
  forall x, ideal_loop (with_blocks bs' m) x bs' = map (fun tr => (tr.1, Some 0)) (ideal_loop m x bs)
  /\ chosen (ideal_loop m x bs) = [].
Proof.
  intros HF. assert (Hgen : forall x, ideal_loop m x bs' = map (fun tr => (tr.1, Some 0)) (ideal_loop m x bs)
    /\ chosen (ideal_loop m x bs) = []).
  { induction HF as [|b b' bs bs' Hb _ IH]; intros x; [done|]. destruct b as [up down|], b' as [|r fr exs]; try done.
    destruct Hb as (-> & _ & _ & Hn). cbn [ideal_loop ideal_select]. rewrite ideal_route_one by done.
    change (default _ _) with (up, down). cbn [map fst]. destruct (IH (sb_residual (ideal_ffn m (up, down) x))) as [-> Hc].
    by split. }
  intros x. destruct (Hgen x) as [Hl Hc]. split; [|done]. rewrite <- Hl.
  apply ideal_loop_blocks.
Qed.

Lemma smodel_ok_sole m bs : smodel_ok m ->
  Forall2 (sole_expert (st_d_model (sm_topology m))) (sm_block_ffns m) bs -> smodel_ok (with_blocks bs m).
Proof.
  intros [? ? ? ? ? ? ? ? ? ? ? Hb] HF. constructor; try done. cbn [with_blocks sm_block_ffns sm_topology sm_down_width].
  revert Hb. induction HF as [|b b' l l' Hbb _ IH]; intros Hb; [constructor|]. apply Forall_cons in Hb as [Hb Hl].
  constructor; [|by apply IH]. destruct b as [up down|], b' as [|r fr exs]; try done.
  destruct Hbb as (-> & Hro & Hd & Hn). cbn [block_ok] in *. split_and!; [done | done | done | done | by constructor].
Qed.

(** A mixture of one expert is the dense block: replacing every dense block
    of a model by a router over that block alone changes nothing but the list
    of selected experts, which is expert 0 at every block. *)
Theorem one_expert_is_dense `{BuildProfile} m bs prev state : smodel_ok m ->
  Forall2 (sole_expert (st_d_model (sm_topology m))) (sm_block_ffns m) bs ->
  0 <= prev < st_vocab (sm_topology m) -> state_ok m state -> Forall norm_safe (norm_inputs m prev state) ->
  exists tr1 tr2 s,
    @forward_at Empty_set _ m prev state = Ok (tr1, s) /\ @forward_at Empty_set _ (with_blocks bs m) prev state = Ok (tr2, s)
    /\ tr_block_residuals tr1 = tr_block_residuals tr2 /\ tr_final_q tr1 = tr_final_q tr2
    /\ concat (tr_logit_pages tr1) = concat (tr_logit_pages tr2)
    /\ tr_argmax_full tr1 = tr_argmax_full tr2 /\ tr_topk_heap tr1 = tr_topk_heap tr2
    /\ tr_selected_experts tr1 = [] /\ Forall (fun e => e = 0) (tr_selected_experts tr2)
    /\ length (tr_selected_experts tr2) = length (sm_block_ffns m).
Proof.
  intros Hm HF Hp Hs Hn. pose proof (smodel_ok_sole m bs Hm HF) as Hm'.
  destruct (ideal_loop_sole m _ _ HF (ideal_residual0 m prev state)) as [Hl Hc].
  fold (ideal_traces m prev state) in Hl, Hc.
  change (ideal_loop (with_blocks bs m) _ bs) with (ideal_traces (with_blocks bs m) prev state) in Hl.
  assert (Hres : map (fun tr => sb_residual tr.1) (ideal_traces (with_blocks bs m) prev state)
      = map (fun tr => sb_residual tr.1) (ideal_traces m prev state)) by (rewrite Hl, map_map; done).
  assert (Hsafe : Forall norm_safe (norm_inputs (with_blocks bs m) prev state))
    by (unfold norm_inputs; rewrite Hres; exact Hn).
  assert (Hq : ideal_final_q (with_blocks bs m) prev state = ideal_final_q m prev state).
  { unfold ideal_final_q, loop_residual. rewrite Hl. generalize (ideal_traces m prev state). intros l.
    change (ideal_residual0 (with_blocks bs m) prev state) with (ideal_residual0 m prev state).
    f_equal. generalize (ideal_residual0 m prev state). induction l as [|tr l IH]; intros x; [done|]. apply IH. }
  destruct (@forward_at_total _ Empty_set m prev state Hm Hp Hs Hn) as (tr1 & H1 & [_ _ _ _ R1 S1 F1 P1 _ _ (i1 & v1 & M1 & A1 & _) K1] & _).
  destruct (@forward_at_total _ Empty_set _ prev state Hm' Hp Hs Hsafe) as (tr2 & H2 & [_ _ _ _ R2 S2 F2 P2 _ _ (i2 & v2 & M2 & A2 & _) K2] & _).
  exists tr1, tr2, (ideal_state m prev state). split; [exact H1|]. split; [exact H2|].
  rewrite Hq in P2, M2, K2, F2. change (ideal_state_logits (with_blocks bs m) ?q) with (ideal_state_logits m q) in *.
  split_and!; [congruence | congruence | congruence | | by rewrite K1, K2 | congruence | |].
  - rewrite A1, A2. by destruct (first_max_unique _ _ _ _ _ M1 M2) as [-> _].
  - rewrite S2, Hl. unfold chosen. clear. induction (ideal_traces m prev state) as [|tr l IH]; [done|]. by constructor.
  - rewrite S2, Hl. unfold ideal_traces. clear. generalize (ideal_residual0 m prev state).
    induction (sm_block_ffns m) as [|b l IH]; intros x; [done|]. cbn [ideal_loop]. destruct (ideal_select b x) as [ud e].
    cbn. f_equal. apply IH.
Qed.

(** ** Probes and audits only observe *)

Section observe.
Context {E : Type} `{BuildProfile}.

Lemma omap_acc_sim {A B S S'} (R : S -> S' -> Prop) (f : S -> A -> outcome E (B * S)) (g : S' -> A -> outcome E (B * S')) l :
  (forall s s' x b t, R s s' -> f s x = Ok (b, t) -> exists t', g s' x = Ok (b, t') /\ R t t') ->
  forall s s' bs t, R s s' -> omap_acc f s l = Ok (bs, t) -> exists t', omap_acc g s' l = Ok (bs, t') /\ R t t'.
Proof.
  intros Hsim. induction l as [|x l IH]; intros s s' bs t HR Hf.
  - injection Hf as <- <-. by exists s'.
  - cbn [omap_acc] in *. apply obind_Ok in Hf as ([b s1] & H1 & Hf). apply obind_Ok in Hf as ([bs1 s2] & H2 & Hf).
    injection Hf as <- <-. destruct (Hsim _ _ _ _ _ HR H1) as (s1' & H1' & HR1). rewrite H1'. cbn [obind].
    destruct (IH _ _ _ _ HR1 H2) as (t' & Ht' & HRt). rewrite Ht'. by exists t'.
Qed.

(** The same statistics, and no probe. *)
Definition unprobed (sp sp' : StateForwardStats * option DownDeltaProbe) : Prop := sp' = (sp.1, None).

Lemma down_row_unprobed width down sp sp' row b t : unprobed sp sp' ->
  @state_down_row E _ width down sp row = Ok (b, t) ->
  exists t', @state_down_row E _ width down sp' row = Ok (b, t') /\ unprobed t t'.
Proof.
  intros ->. destruct sp as [stats probe], row as [i [x acc]]. unfold state_down_row, unprobed. cbn [fst].
  intros Hf. apply obind_Ok in Hf as (scale & Hsc & Hf). rewrite Hsc. cbn [obind].
  apply obind_Ok in Hf as ([[d p] s] & Hd & Hf). destruct width.
  - unfold with_ffn in *. apply obind_Ok in Hd as ([dp i'] & Hd & [= -> <-]).
    apply obind_Ok in Hd as ([d1 i1] & Hd & [= <- <- <-]). rewrite Hd. cbn [obind].
    apply obind_Ok in Hf as (wide & Hw & [= <- <-]). rewrite Hw. cbn [obind]. by eexists.
  - unfold with_ffn in *. apply obind_Ok in Hd as ([dp i'] & Hd & [= -> <-]).
    apply obind_Ok in Hd as ([[d1 i1] p1] & Hd & [= <- <- <-]).
    assert (Hn : int_down_delta_i24 (E := E) acc scale (sf_ffn stats) None = Ok (d1, i1, None)).
    { unfold int_down_delta_i24 in *. apply obind_Ok in Hd as (m & -> & Hd). cbn [obind].
      apply obind_Ok in Hd as (tw & -> & Hd). cbn [obind]. apply obind_Ok in Hd as (num & -> & Hd). cbn [obind].
      apply obind_Ok in Hd as (p' & _ & Hd). apply obind_Ok in Hd as (? & -> & Hd). cbn [obind].
      apply obind_Ok in Hd as (r & -> & [= -> <- <-]). done. }
    rewrite Hn. cbn [obind fst snd]. apply obind_Ok in Hf as (wide & Hw & [= <- <-]). rewrite Hw. cbn [obind]. by eexists.
Qed.

Lemma ffn_unprobed m ud x sp sp' b t : unprobed sp sp' -> @state_ffn E _ m ud x sp = Ok (b, t) ->
  exists t', @state_ffn E _ m ud x sp' = Ok (b, t') /\ unprobed t t'.
Proof.
  intros ->. destruct sp as [stats probe], ud as [up down]. unfold state_ffn. cbn [fst].
  intros Hf. apply obind_Ok in Hf as ([q s1] & -> & Hf). cbn [obind].
  apply obind_Ok in Hf as (act & -> & Hf). cbn [obind]. apply obind_Ok in Hf as ([upa s2] & -> & Hf). cbn [obind].
  apply obind_Ok in Hf as ([gelu s3] & -> & Hf). cbn [obind]. apply obind_Ok in Hf as ([dacc s4] & -> & Hf). cbn [obind].
  apply obind_Ok in Hf as ([x' s5] & Hx & [= <- <-]).
  destruct (omap_acc_sim unprobed _ _ _ (down_row_unprobed _ _) (s4, probe) (s4, None) _ _ eq_refl Hx) as (t' & -> & Hu).
  cbn [obind]. by eexists.
Qed.

Lemma select_unaudited block i x audit sel a : @select_pair E _ block i x audit = Ok (sel, a) ->
  @select_pair E _ block i x None = Ok (sel, None).
Proof.
  destruct block as [up down|r fr experts]; cbn [select_pair]; [by intros [= <- <-]|].
  intros Hf. apply obind_Ok in Hf as (e & -> & Hf). cbn [obind]. apply obind_Ok in Hf as (ud & -> & [= <- <-]). done.
Qed.

Definition unobserved (st : BlockLoop) : BlockLoop :=
  MkBlockLoop (bl_x st) (bl_traces st) (bl_selected st) (bl_stats st) None None.

Lemma block_step_unobserved m st ib st' : @block_step E _ m st ib = Ok st' ->
  @block_step E _ m (unobserved st) ib = Ok (unobserved st').
Proof.
  unfold block_step, unobserved. cbn [bl_x bl_audit bl_stats bl_probe bl_traces bl_selected].
  intros Hf. apply obind_Ok in Hf as ([[ud e] a] & Hs & Hf). apply select_unaudited in Hs. rewrite Hs. cbn [obind].
  apply obind_Ok in Hf as ([tr sp] & Hx & [= <-]).
  destruct (ffn_unprobed _ _ _ (bl_stats st, bl_probe st) (bl_stats st, None) _ _ eq_refl Hx) as (sp' & -> & ->). done.
Qed.

Lemma blocks_unobserved m l : forall st st', ofold (@block_step E _ m) st l = Ok st' ->
  ofold (@block_step E _ m) (unobserved st) l = Ok (unobserved st').
Proof.
  induction l as [|b l IH]; intros st st' Hf; [by injection Hf as <-|]. cbn [ofold] in *.
  apply obind_Ok in Hf as (s1 & H1 & Hf). apply block_step_unobserved in H1. rewrite H1. by apply IH.
Qed.

Lemma forward_core_unobserved m prev state probe audit tr s p a :
  @forward_at_core E _ m prev state probe audit = Ok (tr, s, p, a) ->
  @forward_at_core E _ m prev state None None = Ok (tr, s, None, None).
Proof.
  unfold forward_at_core. intros Hf. apply obind_Ok in Hf as (u0 & -> & Hf). cbn [obind].
  apply obind_Ok in Hf as (x & -> & Hf). cbn [obind]. apply obind_Ok in Hf as ([q s1] & -> & Hf). cbn [obind].
  apply obind_Ok in Hf as (act & -> & Hf). cbn [obind]. apply obind_Ok in Hf as ([ina s2] & -> & Hf). cbn [obind].
  apply obind_Ok in Hf as ([st' s3] & -> & Hf). cbn [obind]. apply obind_Ok in Hf as ([outs s4] & -> & Hf). cbn [obind].
  apply obind_Ok in Hf as (bl & Hbl & Hf). apply blocks_unobserved in Hbl. unfold unobserved at 1 in Hbl.
  cbn [bl_x bl_traces bl_selected bl_stats] in Hbl. rewrite Hbl. cbn [obind unobserved bl_x bl_stats bl_traces bl_selected bl_probe bl_audit].
  apply obind_Ok in Hf as ([fq s5] & -> & Hf). cbn [obind]. apply obind_Ok in Hf as (heap & -> & Hf). cbn [obind].
  apply obind_Ok in Hf as ([pages hd] & -> & Hf). cbn [obind]. by injection Hf as <- <- <- <-.
Qed.
End observe.


(** ** Where the pass stops *)

(** The debug assertion of the 24-bit norm is reachable: on a vector whose
    lanes are all -2^23 (the floor every embedding lane is clamped to) the
    norm aborts in debug builds, and in release builds it returns -16 in
    every lane.  The mean square is then exactly [2^46], which the assertion
    excludes; a finite embedding weight of -1000000 lowers to such a lane. *)
Theorem norm_floor_vector n s : 0 < n <= 255 ->
  @int_norm_quant24 Empty_set true (repeat (- I24) (Z.to_nat n)) s = Panic
  /\ (exists s', @int_norm_quant24 Empty_set false (repeat (- I24) (Z.to_nat n)) s = Ok (repeat (-16) (Z.to_nat n), s'))
  /\ state_emb_resid_of (f32_of_Z (-1000000)) = - I24.
Proof.
  intros Hn. set (x := repeat (- I24) (Z.to_nat n)).
  assert (Hlen : zlen x = n) by (apply zlen_repeat; lia).
  assert (Hx : Forall is_i24 x) by (apply Forall_repeat'; done).
  assert (Hsq : squares x = n * 2 ^ 46).
  { unfold squares, x. replace n with (Z.of_nat (Z.to_nat n)) at 2 by lia. clear. generalize (Z.to_nat n).
    induction n0 as [|k IH]; [done|]. cbn [repeat map zsum]. rewrite IH. unfold I24. lia. }
  split; [|split; [|vm_compute; reflexivity]].
  - unfold int_norm_quant24. assert (Habs : Forall (fun v => Z.abs v <= 2 ^ 23) x)
      by (eapply Forall_impl; [exact Hx|]; unfold is_i24, I24; lia).
    rewrite (sum_squares_total (2 ^ 23)) by (done || lia). cbn [obind].
    rewrite (proj2 (Z.eqb_neq (zlen x) 0)) by lia. cbn [obind]. rewrite Hsq, Hlen, Z.mul_comm, Z.div_mul by lia. done.
  - destruct (@int_norm_quant24_yields false Empty_set x ltac:(lia) Hx ltac:(intros [=]) s) as (s' & Hs). exists s'. rewrite Hs.
    do 2 f_equal. rewrite Hlen. unfold norm_quant, rms_of. rewrite Hsq, Z.mul_comm, Z.div_mul by lia.
    assert (Hv : norm_value (Z.sqrt (2 ^ 46 + 1)) (- I24) = -16) by (vm_compute; reflexivity).
    unfold x. generalize (Z.to_nat n). induction n0 as [|k IH]; [done|]. cbn [repeat map]. by rewrite Hv, IH.
Qed.

(** A topology with [d_ff < d_model] is accepted by the validation, but no
    block runs on it: the norm of a [d_model]-lane residual does not fit the
    [d_ff]-lane activation buffer it is sliced from, so every block aborts on
    every residual. *)
Theorem narrow_ff_rejected_late `{BuildProfile} m ud x sp : let t := sm_topology m in
  0 <= st_d_ff t < st_d_model t -> st_d_model t <= 255 -> state_lanes t x -> norm_safe x ->
  @state_ffn Empty_set _ m ud x sp = Panic
  /\ @validate_host (MkStateTopology 2 1 1 1 1 1 Paging_SinglePage) = Ok tt.
Proof.
  intros t Hff Hd [Hlen Hx] Hsafe. split; [|vm_compute; reflexivity]. destruct ud as [up down], sp as [s p].
  unfold state_ffn. fold t.
  destruct (with_ffn_yields _ _ (@int_norm_quant24_yields _ Empty_set x ltac:(lia) Hx Hsafe) s) as (s1 & ->). cbn [obind].
  set (q := norm_quant (zlen x) x).
  assert (Hq : Forall (fun q => - 127 <= q <= 127) (take (Z.to_nat (st_d_ff t)) q))
    by (apply Forall_take, norm_quant_range; lia).
  unfold norm_into_act. destruct (@act_bytes_total Empty_set _ Hq) as [-> _]. cbn [obind].
  set (b := map _ _). assert (Hb : zlen b = st_d_ff t).
  { unfold b, q, norm_quant, zlen in *. rewrite length_map, length_take, length_map. lia. }
  assert (Hz : zlen (b ++ zeros (st_d_ff t - zlen b)) = st_d_ff t).
  { rewrite zlen_app, Hb, Z.sub_diag. change (zeros 0) with (@nil Z). change (zlen (@nil Z)) with 0. lia. }
  unfold slice. rewrite Hz, andb_comm, (proj2 (Z.leb_gt _ _)) by lia. done.
Qed.

(** ** Witnesses *)

#[local] Instance demo_math : MathLib := {| f64_tanh := fun x => x; f64_powi := fun x _ => x |}.
#[local] Instance demo_profile : BuildProfile := true.

Definition demo_topology : StateTopology := MkStateTopology 2 3 2 2 3 2 Paging_Paged.
Definition demo_up : TernaryLayer := MkTernaryLayer 3 2 [1; -1; 0; 1; -1; -1] [65535; 300; 9000].
Definition demo_down : TernaryLayer := MkTernaryLayer 2 3 [1; -1; 0; 1; -1; -1] [40000; 1].
Definition demo_square : TernaryLayer := MkTernaryLayer 2 2 [1; -1; 0; 1] [500; 65535].
Definition demo_block : BlockFfn := Ffn_Moe demo_router [(demo_up, demo_down); (demo_up, demo_down)].
Definition demo_emb : list f32 := map f32_of_Z [1; -2; 3; 0; -5; 7].

Definition demo_sck : StateCheckpoint :=
  MkStateCheckpoint demo_topology demo_emb demo_square demo_square [200; 255] [demo_block; demo_block].

Definition demo_model : IntStateLoweredModel :=
  match state_lower demo_sck with
  | Ok m => m
  | _ => MkIntStateLoweredModel demo_topology [] [] (f32_of_Z 0) [] [] (MkLoweredLayer demo_up []) demo_up [] [] [] Width_I16 0 0
  end.

Lemma demo_new : new_blocks demo_topology demo_emb demo_square demo_square [200; 255] [demo_block; demo_block] = Ok demo_sck.
Proof. vm_compute. reflexivity. Qed.

Lemma demo_lowers : state_lower demo_sck = Ok demo_model.
Proof. vm_compute. reflexivity. Qed.

Lemma demo_layers_wf : layer_wf demo_up /\ layer_wf demo_down /\ layer_wf demo_square.
Proof.
  split_and!; constructor; try reflexivity; repeat constructor; vm_compute; congruence.
Qed.

Lemma demo_inputs_wf : inputs_wf demo_topology demo_square demo_square [200; 255] [demo_block; demo_block].
Proof.
  destruct demo_layers_wf as (Hu & Hd & Hs).
  assert (Hb : Forall (fun ud => layer_wf ud.1 /\ layer_wf ud.2) (ffn_pairs demo_block))
    by (apply Forall_cons; split; [by split | apply Forall_cons; split; [by split | constructor]]).
  constructor; [vm_compute; discriminate.. | exact Hs | exact Hs | | |].
  - apply Forall_cons; split; [lia | apply Forall_cons; split; [lia | constructor]].
  - apply Forall_cons; split; [exact Hb | apply Forall_cons; split; [exact Hb | constructor]].
  - apply Forall_cons; split; [discriminate | apply Forall_cons; split; [discriminate | constructor]].
Qed.

Lemma demo_state_ok : state_ok demo_model [5; -7].
Proof. split; [vm_compute; reflexivity | repeat constructor; vm_compute; discriminate]. Qed.

Lemma demo_model_ok : smodel_ok demo_model.
Proof.
  destruct (new_blocks_ok _ _ _ _ _ _ _ demo_inputs_wf demo_new) as [_ Hok].
  apply (state_lower_ok demo_sck); [exact Hok | apply demo_inputs_wf | vm_compute; discriminate | exact demo_lowers].
Qed.

Lemma demo_safe : Forall norm_safe (norm_inputs demo_model 1 [5; -7]).
Proof.
  assert (H : norm_inputs demo_model 1 [5; -7] = ltac:(let v := eval vm_compute in (norm_inputs demo_model 1 [5; -7]) in exact v))
    by (vm_compute; reflexivity).
  rewrite H. repeat (apply Forall_cons; split); [intros _; apply Exists_cons_hd; vm_compute; discriminate..|]. constructor.
Qed.

Lemma state_forward_exact_witness :
  exists tr, @forward_at Empty_set _ demo_model 1 [5; -7] = Ok (tr, ideal_state demo_model 1 [5; -7])
    /\ trace_exact demo_model 1 [5; -7] tr.
Proof.
  destruct (state_forward_exact demo_topology demo_emb demo_square demo_square [200; 255] [demo_block; demo_block]
    demo_sck demo_model 1 [5; -7]) as (tr & Hf & Ht & _).
  - exact demo_inputs_wf.
  - exact demo_new.
  - exact demo_lowers.
  - vm_compute; discriminate.
  - split; [discriminate | reflexivity].
  - exact demo_state_ok.
  - exact demo_safe.
  - exists tr. exact (conj Hf Ht).
Defined.

Lemma paging_transparent_witness :
  exists tr1 tr2 s, @forward_at Empty_set _ (with_paging Paging_SinglePage demo_model) 1 [5; -7] = Ok (tr1, s)
    /\ @forward_at Empty_set _ (with_paging Paging_Paged demo_model) 1 [5; -7] = Ok (tr2, s)
    /\ tr_argmax_full tr1 = tr_argmax_full tr2.
Proof.
  destruct (paging_transparent demo_model 1 [5; -7]) as (tr1 & tr2 & s & H1 & H2 & _ & _ & _ & Ha & _).
  - exact demo_model_ok.
  - split; [discriminate | reflexivity].
  - exact demo_state_ok.
  - exact demo_safe.
  - exists tr1, tr2, s. exact (conj H1 (conj H2 Ha)).
Defined.

Definition demo_dense_topology : StateTopology := MkStateTopology 2 3 1 2 3 1 Paging_SinglePage.
Definition demo_dense_sck : StateCheckpoint :=
  MkStateCheckpoint demo_dense_topology demo_emb demo_square demo_square [200; 255] [Ffn_Dense demo_up demo_down].
Definition demo_dense_model : IntStateLoweredModel :=
  match state_lower demo_dense_sck with Ok m => m | _ => demo_model end.

Lemma demo_dense_inputs_wf :
  inputs_wf demo_dense_topology demo_square demo_square [200; 255] [Ffn_Dense demo_up demo_down].
Proof.
  destruct demo_layers_wf as (Hu & Hd & Hs). constructor; [vm_compute; discriminate.. | exact Hs | exact Hs | | |].
  - apply Forall_cons; split; [lia | apply Forall_cons; split; [lia | constructor]].
  - apply Forall_cons; split; [|constructor]. apply Forall_cons; split; [by split | constructor].
  - apply Forall_cons; split; [exact I | constructor].
Qed.

Lemma demo_dense_ok : smodel_ok demo_dense_model.
Proof.
  assert (Hnew : new_blocks demo_dense_topology demo_emb demo_square demo_square [200; 255] [Ffn_Dense demo_up demo_down]
    = Ok demo_dense_sck) by (vm_compute; reflexivity).
  destruct (new_blocks_ok _ _ _ _ _ _ _ demo_dense_inputs_wf Hnew) as [_ Hok].
  apply (state_lower_ok demo_dense_sck); [exact Hok | apply demo_dense_inputs_wf | vm_compute; discriminate|].
  vm_compute. reflexivity.
Qed.

Definition demo_sole_router : FixedRouter := MkFixedRouter 1 2 1 [65536; -131072] [12884901888] [65536] [0] 0 0.

Lemma demo_sole_router_ok : router_ok demo_sole_router.
Proof.
  constructor; try done; intros k Hk; cbn [demo_sole_router fr_rank fr_n_experts] in Hk;
    assert (k = 0) as -> by lia; vm_compute; discriminate.
Qed.

Definition demo_moe_blocks : list LoweredBlockFfn :=
  map (fun b => match b with Lw_Dense up down => Lw_Moe demo_router demo_sole_router [(up, down)] | b => b end)
    (sm_block_ffns demo_dense_model).

Lemma demo_dense_safe : Forall norm_safe (norm_inputs demo_dense_model 1 [5; -7]).
Proof.
  assert (H : norm_inputs demo_dense_model 1 [5; -7]
    = ltac:(let v := eval vm_compute in (norm_inputs demo_dense_model 1 [5; -7]) in exact v)) by (vm_compute; reflexivity).
  rewrite H. repeat (apply Forall_cons; split); [intros _; apply Exists_cons_hd; vm_compute; discriminate..|]. constructor.
Qed.

Lemma one_expert_is_dense_witness :
  exists tr1 tr2 s, @forward_at Empty_set _ demo_dense_model 1 [5; -7] = Ok (tr1, s)
    /\ @forward_at Empty_set _ (with_blocks demo_moe_blocks demo_dense_model) 1 [5; -7] = Ok (tr2, s)
    /\ tr_final_q tr1 = tr_final_q tr2 /\ tr_selected_experts tr1 = [].
Proof.
  destruct (one_expert_is_dense demo_dense_model demo_moe_blocks 1 [5; -7])
    as (tr1 & tr2 & s & H1 & H2 & _ & Hq & _ & _ & _ & Hs & _).
  - exact demo_dense_ok.
  - assert (E : sm_block_ffns demo_dense_model
      = ltac:(let v := eval vm_compute in (sm_block_ffns demo_dense_model) in exact v)) by (vm_compute; reflexivity).
    unfold demo_moe_blocks. rewrite E. cbn [map]. apply Forall2_cons. split; [|constructor].
    cbn [sole_expert]. split; [reflexivity|]. split; [exact demo_sole_router_ok|]. split; vm_compute; reflexivity.
  - split; [discriminate | reflexivity].
  - split; [vm_compute; reflexivity | repeat constructor; vm_compute; discriminate].
  - exact demo_dense_safe.
  - exists tr1, tr2, s. exact (conj H1 (conj H2 (conj Hq Hs))).
Defined.

Definition demo_probe : DownDeltaProbe := MkDownDeltaProbe [0; 0; 0] 0 0.


Lemma norm_floor_vector_witness :
  @int_norm_quant24 Empty_set true (repeat (- I24) 2) Stats_new = Panic.
Proof. apply (norm_floor_vector 2 Stats_new). split; [reflexivity | discriminate]. Defined.

Definition demo_narrow : IntStateLoweredModel :=
  MkIntStateLoweredModel (MkStateTopology 2 1 1 1 1 1 Paging_SinglePage) [] [] (f32_of_Z 0) [] []
    (MkLoweredLayer demo_up []) demo_up [] [] [] Width_I16 0 0.

Lemma narrow_ff_rejected_late_witness : 
  @state_ffn Empty_set _ demo_narrow (MkLoweredLayer demo_up [], MkLoweredLayer demo_down []) [5; -7] (StateStats_new, None)
  = Panic.
Proof.
  apply (narrow_ff_rejected_late demo_narrow (MkLoweredLayer demo_up [], MkLoweredLayer demo_down []) [5; -7] (StateStats_new, None)).
  - split; [discriminate | reflexivity].
  - discriminate.
  - split; [reflexivity|]. repeat (constructor; [split; [discriminate | reflexivity]|]). constructor.
  - intros _. apply Exists_cons_hd. discriminate.
Defined.
