(* ===== verification/Banking.v ===== *)
(** * Bank leases and the MBC5 banking lowerer ([gbf-runtime/src/banking.rs])

    The runtime's only authoring path to MBC5 register writes.  Callers
    acquire and release typed leases on a section builder; the lowerer turns
    the recorded operations into instruction fragments and tracks what the
    bank registers hold.  The lowerer sits behind the lowering driver, so the
    driver is repeated here with the lowerer's state threaded through.

    Errors that the source converts to text
    ([BankingEmitError::Builder(err.to_string())], [LoweringError::Runtime])
    carry the error itself. *)

From S2P Require Import Prelude Numeric Hw Isa IsaCodec Names SectionIr Effect SectionOps Builder SymTable Lowering.

(** ** HRAM shadows *)

Definition HRAM_SHADOW_BASE : Z := HRAM_BASE.
Definition HRAM_ADDR_CURRENT_ROM_BANK_LO : Z := HRAM_SHADOW_BASE.
Definition HRAM_ADDR_CURRENT_ROM_BANK_HI : Z := HRAM_SHADOW_BASE + 1.
Definition HRAM_ADDR_CURRENT_SRAM_BANK : Z := HRAM_SHADOW_BASE + 2.
Definition HRAM_ADDR_SRAM_ENABLED : Z := HRAM_SHADOW_BASE + 3.

Definition HRAM_LDH_CURRENT_ROM_BANK_LO : Z := 0x80.
Definition HRAM_LDH_CURRENT_ROM_BANK_HI : Z := 0x81.
Definition HRAM_LDH_CURRENT_SRAM_BANK : Z := 0x82.
Definition HRAM_LDH_SRAM_ENABLED : Z := 0x83.

Definition BANKING_SOURCE_OP : string := "gbf-runtime::banking".
Definition BANKING_PROVENANCE_NOTE_PREFIX : string := "f-a4-banking-lowered".

(** ** Residency *)

Inductive SectionResidency := Res_FixedRom0 | Res_Hram | Res_SwitchableRom | Res_Wram | Res_Other.
#[export] Instance SectionResidency_eq_dec : EqDecision SectionResidency. Proof. solve_decision. Defined.

Definition from_section_role (role : SectionRole) : SectionResidency :=
  match role with
  | Role_InterruptVector | Role_Bank0Nucleus | Role_Bank0Data | Role_HeaderCartridge => Res_FixedRom0
  | Role_HramFastFlags => Res_Hram
  | Role_CommonBank | Role_ExpertBank => Res_SwitchableRom
  | Role_WramHotArena | Role_WramOverlay => Res_Wram
  | Role_CommonData | Role_ExpertData | Role_SramPersistent | Role_VramOwnedByUi | Role_OamOwnedByUi => Res_Other
  end.

Definition allows_banking_emit (r : SectionResidency) : bool :=
  match r with Res_FixedRom0 | Res_Hram => true | _ => false end.

(** ** Policies, safety and errors *)

Inductive InterruptPolicy := Pol_Enabled | Pol_ShortCriticalSection | Pol_Disabled.
#[export] Instance InterruptPolicy_eq_dec : EqDecision InterruptPolicy. Proof. solve_decision. Defined.

Inductive InterruptSafetyKind := Saf_InterruptDisabled | Saf_InterruptEnabledBank0Only | Saf_InterruptHandler.
#[export] Instance InterruptSafetyKind_eq_dec : EqDecision InterruptSafetyKind. Proof. solve_decision. Defined.

Record InterruptSafety := MkInterruptSafety { safety_kind : InterruptSafetyKind }.

Inductive InterruptSafetyError := ConflictingDeclaration (section : SectionId) (old new : InterruptSafetyKind).

Abbreviation InterruptSafetyTable := (gmap SectionId InterruptSafety).

Definition declare (t : InterruptSafetyTable) (section : SectionId) (kind : InterruptSafetyKind)
    : outcome InterruptSafetyError InterruptSafetyTable :=
  match t !! section with
  | Some old =>
      if negb (bool_decide (safety_kind old = kind)) then Err (ConflictingDeclaration section (safety_kind old) kind)
      else Ok t
  | None => Ok (<[section := MkInterruptSafety kind]> t)
  end.

Definition safety_lookup (t : InterruptSafetyTable) (section : SectionId) : option InterruptSafety := t !! section.

Definition mark_isr_unreachable (t : InterruptSafetyTable) (s : AsmSection) := declare t (sec_id s) Saf_InterruptDisabled.
Definition mark_isr_reachable (t : InterruptSafetyTable) (s : AsmSection) := declare t (sec_id s) Saf_InterruptEnabledBank0Only.
Definition mark_isr (t : InterruptSafetyTable) (s : AsmSection) := declare t (sec_id s) Saf_InterruptHandler.

Inductive BankAbiViolation :=
| Ba_RomBankOutOfRange (bank : Z)
| Ba_SramBankOutOfRange (bank : Z)
| Ba_RomBankZeroReservedByAbi
| Ba_LeaseSpecWrongClass (expected found : MbcBankClass)
| Ba_ManualLeaseInYieldingSection (section : SectionId)
| Ba_IsrCannotAcquire (section : SectionId)
| Ba_SectionNotPrivileged (section : SectionId) (found : PrivilegeClass)
| Ba_BankingPrimitiveNotFixedResident (section : SectionId) (residency : SectionResidency)
| Ba_UnreleasedLease (lease : LeaseId)
| Ba_SramBankAcquiredWhileDisabled
| Ba_ReturnBankOutOfRange (bank : Z)
| Ba_ReturnStateWrongClass (lease_class : MbcBankClass) (return_class : string)
| Ba_NestedLeaseNotSupported (class : MbcBankClass) (existing attempted : LeaseId)
| Ba_UnsupportedRestoringLifetime (lifetime : LeaseLifetime)
| Ba_RumbleCartProfileRejected
| Ba_StaleBankGuard (lease : LeaseId)
| Ba_KeepCurrentProofMissing (lease : LeaseId)
| Ba_MbcWriteOutsideBankingProvenance (section : SectionId).

(** [Builder] holds the builder's error, or the text that reports a fragment
    with more than 65536 items. *)
Inductive BankingEmitError :=
| Be_Abi (v : BankAbiViolation)
| Be_Builder (e : BuilderError)
| Be_SubIndexOverflow
| Be_ShadowOffsetOutOfRange (offset : Z)
| Be_EnabledPolicyForRomAcquire
| Be_EnabledPolicyForSramAcquire
| Be_EnabledPolicyForSramEnable
| Be_EnabledPolicyForSramDisable
| Be_SymbolName (e : SymbolNameError).

(** ** Lease specifications and return states *)

Record ValidatedBankLeaseSpec := MkValidated { vs_class : MbcBankClass; vs_bank : Z; vs_lifetime : LeaseLifetime }.

Definition for_rom_switchable (bank_n : Z) (lifetime : LeaseLifetime) : outcome BankAbiViolation ValidatedBankLeaseSpec :=
  let* _ := guard_err (bank_n =? 0) Ba_RomBankZeroReservedByAbi in
  let* _ := guard_err (MAX_ROM_BANK <? bank_n) (Ba_RomBankOutOfRange bank_n) in
  Ok (MkValidated Mbc_Rom bank_n lifetime).

Definition for_sram_bank (bank_n : Z) (lifetime : LeaseLifetime) : outcome BankAbiViolation ValidatedBankLeaseSpec :=
  let* _ := guard_err (MAX_SRAM_BANK <? bank_n) (Ba_SramBankOutOfRange bank_n) in
  Ok (MkValidated Mbc_Sram bank_n lifetime).

Definition for_sram (bank_n : Z) (lifetime : LeaseLifetime) := for_sram_bank bank_n lifetime.

Definition to_pre_layout_spec (s : ValidatedBankLeaseSpec) (id : LeaseId) (generation : LeaseGeneration)
    : outcome BankAbiViolation BankLeaseSpec :=
  map_err (fun e => match e with
                    | RomBankOutOfRange bank => Ba_RomBankOutOfRange bank
                    | SramBankOutOfRange bank => Ba_SramBankOutOfRange bank
                    end)
    (BankLeaseSpec_new id generation (vs_class s) (vs_bank s) (vs_lifetime s)).

Definition validate_return_rom_bank (bank : Z) : outcome BankAbiViolation unit :=
  guard_err ((bank =? 0) || (MAX_ROM_BANK <? bank)) (Ba_ReturnBankOutOfRange bank).

Definition validate_sram_bank (bank : Z) : outcome BankAbiViolation unit :=
  guard_err (MAX_SRAM_BANK <? bank) (Ba_SramBankOutOfRange bank).

Inductive ReturnRomBank := Rr_Bank1 | Rr_Manual (bank : Z).
Inductive ReturnSramState := Rs_Disable | Rs_Bank (bank : Z).
Inductive ReturnState := Ret_Rom (r : ReturnRomBank) | Ret_Sram (s : ReturnSramState) | Ret_KeepCurrent.

Definition disposition (r : ReturnState) : outcome BankAbiViolation BankReleaseDisposition :=
  match r with
  | Ret_Rom Rr_Bank1 => Ok Rel_RomBank1
  | Ret_Rom (Rr_Manual bank) => let* _ := validate_return_rom_bank bank in Ok (Rel_RomManual bank)
  | Ret_Sram Rs_Disable => Ok Rel_SramDisable
  | Ret_Sram (Rs_Bank bank) => let* _ := validate_sram_bank bank in Ok (Rel_SramBank bank)
  | Ret_KeepCurrent => Ok Rel_KeepCurrent
  end.

Definition return_class_name (r : ReturnState) : string :=
  match r with Ret_Rom _ => "rom" | Ret_Sram _ => "sram" | Ret_KeepCurrent => "keep_current" end.

Definition validate_return_state_class (lease_class : MbcBankClass) (r : ReturnState) : outcome BankAbiViolation unit :=
  match lease_class, r with
  | Mbc_Rom, (Ret_Rom _ | Ret_KeepCurrent) => Ok tt
  | Mbc_Sram, (Ret_Sram _ | Ret_KeepCurrent) => Ok tt
  | _, _ => Err (Ba_ReturnStateWrongClass lease_class (return_class_name r))
  end.

Record BankGuard := MkBankGuard {
  bg_lease_id : LeaseId;
  bg_source_section_id : SectionId;
  bg_generation : LeaseGeneration;
  bg_class : MbcBankClass;
  bg_bank : Z;
  bg_lifetime : LeaseLifetime;
}.

Record BankLease := MkBankLease { bl_id : LeaseId; bl_spec : BankLeaseSpec; bl_lifetime : LeaseLifetime }.

(** ** Emission on the builder *)

Abbreviation BE := (EM BankingEmitError).

(** An outcome as a builder computation. *)
Definition bout {E A} (o : outcome E A) : EM E A := fun b => (o, b).

(** [?] with [From<BuilderError>]. *)
Definition via {E F A} (f : E -> F) (m : EM E A) : EM F A :=
  fun b => let '(r, b') := m b in (map_err f r, b').
Definition builder_err {A} (m : BM A) : BE A := via Be_Builder m.
Definition abi {A} (o : outcome BankAbiViolation A) : BE A := bout (map_err Be_Abi o).

Definition untrusted_banking_provenance (p : InstrProvenance) : InstrProvenance := with_source_op p BANKING_SOURCE_OP.
Definition with_untrusted {E R} (m : EM E R) : EM E R :=
  fun b => with_provenance (untrusted_banking_provenance (b_cur_provenance b)) m b.

Definition emit_i (i : Instr) : BE unit := builder_err (try_emit i).

Definition direct {E} (addr : Z) : outcome E DirectAddr := expect (DirectAddr_new addr).

Definition validate_banking_shadow_offset (offset : HighDirectOffset) : outcome BankingEmitError unit :=
  guard_err (negb ((HighDirectOffset_get offset =? HRAM_LDH_CURRENT_ROM_BANK_LO)
                   || (HighDirectOffset_get offset =? HRAM_LDH_CURRENT_ROM_BANK_HI)
                   || (HighDirectOffset_get offset =? HRAM_LDH_CURRENT_SRAM_BANK)
                   || (HighDirectOffset_get offset =? HRAM_LDH_SRAM_ENABLED)))
    (Be_ShadowOffsetOutOfRange (HighDirectOffset_get offset)).

Definition emit_store_bank_shadow_byte_from_a (offset : HighDirectOffset) : BE unit :=
  let! _ := bout (validate_banking_shadow_offset offset) in
  emit_i (I_LdHighDirectFromA offset).

Definition emit_store_bank_shadow_byte_imm (offset : HighDirectOffset) (value : Z) : BE unit :=
  let! _ := bout (validate_banking_shadow_offset offset) in
  let! _ := emit_i (I_Ld8RegFromImm Reg8_A value) in
  emit_store_bank_shadow_byte_from_a offset.

Definition emit_load_bank_shadow_byte_into_a (offset : HighDirectOffset) : BE unit :=
  let! _ := bout (validate_banking_shadow_offset offset) in
  emit_i (I_LdAFromHighDirect offset).

Definition lower_banking_shadow_zero_init : BE unit :=
  with_untrusted
    (let! _ := emit_store_bank_shadow_byte_imm (HighDirectOffset_new HRAM_LDH_CURRENT_ROM_BANK_LO) 0 in
     let! _ := emit_store_bank_shadow_byte_from_a (HighDirectOffset_new HRAM_LDH_CURRENT_ROM_BANK_HI) in
     let! _ := emit_store_bank_shadow_byte_from_a (HighDirectOffset_new HRAM_LDH_CURRENT_SRAM_BANK) in
     emit_store_bank_shadow_byte_from_a (HighDirectOffset_new HRAM_LDH_SRAM_ENABLED)).

(** ** The lease ABI *)

(** The global generation counter is an argument and a result; a computation
    that fails returns it too. *)
Definition next_lease_generation (counter : Z) : LeaseGeneration * Z :=
  (MkLeaseGeneration counter, wrap U32 (counter + 1)).

Definition lease_bank (counter : Z) (spec : ValidatedBankLeaseSpec)
    : EM (BankingEmitError * Z) (BankGuard * Z) :=
  let! lease_id := via (fun e => (Be_Builder e, counter)) allocate_lease_id in
  let '(generation, counter) := next_lease_generation counter in
  let fail {A} (m : BE A) : EM (BankingEmitError * Z) A := via (fun e => (e, counter)) m in
  let! first := bget first_active_lease_id in
  let! _ := fail (match first with
                  | Some existing => berr (Be_Abi (Ba_NestedLeaseNotSupported (vs_class spec) existing lease_id))
                  | None => bret tt
                  end) in
  let! pre_layout := fail (abi (to_pre_layout_spec spec lease_id generation)) in
  let! _ := fail (with_untrusted (builder_err (try_bank_lease pre_layout))) in
  let! section := bget (fun b => sec_id (b_section b)) in
  bret (MkBankGuard lease_id section generation (vs_class spec) (vs_bank spec) (vs_lifetime spec), counter).

Definition lease_rom_switchable (counter : Z) (spec : ValidatedBankLeaseSpec)
    : EM (BankingEmitError * Z) (BankGuard * Z) :=
  let! _ := bguard (negb (bool_decide (vs_class spec = Mbc_Rom)))
              (Be_Abi (Ba_LeaseSpecWrongClass Mbc_Rom (vs_class spec)), counter) in
  lease_bank counter spec.

Definition lease_sram (counter : Z) (spec : ValidatedBankLeaseSpec)
    : EM (BankingEmitError * Z) (BankGuard * Z) :=
  let! _ := bguard (negb (bool_decide (vs_class spec = Mbc_Sram)))
              (Be_Abi (Ba_LeaseSpecWrongClass Mbc_Sram (vs_class spec)), counter) in
  lease_bank counter spec.

Definition validate_guard_matches_builder (guard : BankGuard) : BE unit :=
  let! active := bget (active_lease_spec (bg_lease_id guard)) in
  match active with
  | None => berr (Be_Abi (Ba_StaleBankGuard (bg_lease_id guard)))
  | Some active =>
      let! section := bget (fun b => sec_id (b_section b)) in
      let matches_active :=
        bool_decide (section = bg_source_section_id guard)
        && bool_decide (spec_generation active = bg_generation guard)
        && bool_decide (spec_class active = bg_class guard)
        && (spec_bank active =? bg_bank guard)
        && bool_decide (spec_lifetime active = bg_lifetime guard) in
      bguard (negb matches_active) (Be_Abi (Ba_StaleBankGuard (bg_lease_id guard)))
  end.

Definition release_bank (guard : BankGuard) (return_state : ReturnState) : BE unit :=
  let! _ := abi (validate_return_state_class (bg_class guard) return_state) in
  let! _ := validate_guard_matches_builder guard in
  let! return_to := abi (disposition return_state) in
  via (fun e => match e with
                | B_UnknownLease lease => Be_Abi (Ba_StaleBankGuard lease)
                | other => Be_Builder other
                end)
    (with_untrusted (try_bank_release_to (bg_lease_id guard) return_to)).

(** ** The lowerer *)

Definition check_lease_emission_legal_parts (section : SectionId) (privilege : SectionPrivilege)
    (safety : InterruptSafety) (residency : SectionResidency) : outcome BankAbiViolation unit :=
  let* _ := guard_err (bool_decide (safety_kind safety = Saf_InterruptHandler)) (Ba_IsrCannotAcquire section) in
  let* _ := guard_err (negb (bool_decide (default_privilege privilege = Priv_Privileged)))
              (Ba_SectionNotPrivileged section (default_privilege privilege)) in
  guard_err (negb (allows_banking_emit residency)) (Ba_BankingPrimitiveNotFixedResident section residency).

Definition check_lease_emission_legal (s : AsmSection) (safety : InterruptSafety) (residency : SectionResidency) :=
  check_lease_emission_legal_parts (sec_id s) (sec_privilege s) safety residency.

Record BankingLoweringState := MkBankingLoweringState {
  current_rom_bank : option Z;
  current_sram_bank : option Z;
  sram_enabled : bool;
  active_leases : gmap LeaseId BankLease;
}.

Definition BankingLoweringState_default : BankingLoweringState := MkBankingLoweringState (Some 1) None false ∅.

(** The first key of the [BTreeMap]. *)
Definition active_lease_id (st : BankingLoweringState) : option LeaseId :=
  head (sort_by lease_leb (map fst (map_to_list (active_leases st)))).

Inductive BankingPolicyOp := Op_RomAcquire | Op_SramAcquire | Op_SramEnable | Op_SramDisable.

Definition guard_policy (policy : InterruptPolicy) (op : BankingPolicyOp) : outcome BankingEmitError unit :=
  if negb (bool_decide (policy = Pol_Enabled)) then Ok tt
  else Err (match op with
            | Op_RomAcquire => Be_EnabledPolicyForRomAcquire
            | Op_SramAcquire => Be_EnabledPolicyForSramAcquire
            | Op_SramEnable => Be_EnabledPolicyForSramEnable
            | Op_SramDisable => Be_EnabledPolicyForSramDisable
            end).

Definition emit_policy_prologue (policy : InterruptPolicy) : BE unit :=
  if bool_decide (policy = Pol_ShortCriticalSection) then emit_i I_Di else bret tt.
Definition emit_policy_epilogue (policy : InterruptPolicy) : BE unit :=
  if bool_decide (policy = Pol_ShortCriticalSection) then emit_i I_Ei else bret tt.

(** [ld a, value; ld (addr), a]. *)
Definition emit_mbc_write (addr value : Z) : BE unit :=
  let! _ := emit_i (I_Ld8RegFromImm Reg8_A value) in
  let! addr := bout (direct addr) in
  emit_i (I_LdDirectFromA addr).

(** The lowering functions mutate the state only after their emission
    succeeded; an error carries the state it leaves. *)
Abbreviation SE := (EM (BankingEmitError * BankingLoweringState)).
Definition at_state {A} (st : BankingLoweringState) (m : BE A) : SE A := via (fun e => (e, st)) m.

Definition lower_enable_sram (st : BankingLoweringState) (policy : InterruptPolicy) : SE BankingLoweringState :=
  let! _ := at_state st (bout (guard_policy policy Op_SramEnable)) in
  let! _ := at_state st (with_untrusted
    (let! _ := emit_policy_prologue policy in
     let! _ := emit_mbc_write MBC5_RAMG_BASE MBC5_RAM_ENABLE_VALUE in
     let! _ := emit_store_bank_shadow_byte_from_a (HighDirectOffset_new HRAM_LDH_SRAM_ENABLED) in
     emit_policy_epilogue policy)) in
  bret (MkBankingLoweringState (current_rom_bank st) (current_sram_bank st) true (active_leases st)).

Definition lower_disable_sram (st : BankingLoweringState) (policy : InterruptPolicy) : SE BankingLoweringState :=
  let! _ := at_state st (bout (guard_policy policy Op_SramDisable)) in
  let! _ := at_state st (with_untrusted
    (let! _ := emit_policy_prologue policy in
     let! _ := emit_mbc_write MBC5_RAMG_BASE MBC5_RAM_DISABLE_VALUE in
     let! _ := emit_store_bank_shadow_byte_from_a (HighDirectOffset_new HRAM_LDH_SRAM_ENABLED) in
     emit_policy_epilogue policy)) in
  bret (MkBankingLoweringState (current_rom_bank st) None false (active_leases st)).

Definition bank_lo (bank : Z) : Z := wrap U8 bank.
Definition bank_hi (bank : Z) : Z := wrap U8 (Z.land (Z.shiftr bank 8) 0x01).

Definition lower_acquire_rom_bank (st : BankingLoweringState) (bank : Z) (policy : InterruptPolicy)
    : SE BankingLoweringState :=
  let! _ := at_state st (abi (guard_err (bank =? 0) Ba_RomBankZeroReservedByAbi)) in
  let! _ := at_state st (abi (validate_return_rom_bank bank)) in
  let! _ := at_state st (bout (guard_policy policy Op_RomAcquire)) in
  let! _ := at_state st (with_untrusted
    (let! _ := emit_policy_prologue policy in
     let! _ := emit_mbc_write MBC5_BANK1_BASE (bank_lo bank) in
     let! _ := emit_mbc_write MBC5_BANK2_BASE (bank_hi bank) in
     let! _ := emit_store_bank_shadow_byte_imm (HighDirectOffset_new HRAM_LDH_CURRENT_ROM_BANK_LO) (bank_lo bank) in
     let! _ := emit_store_bank_shadow_byte_imm (HighDirectOffset_new HRAM_LDH_CURRENT_ROM_BANK_HI) (bank_hi bank) in
     emit_policy_epilogue policy)) in
  bret (MkBankingLoweringState (Some bank) (current_sram_bank st) (sram_enabled st) (active_leases st)).

Definition lower_acquire_sram_bank (st : BankingLoweringState) (bank : Z) (policy : InterruptPolicy)
    : SE BankingLoweringState :=
  let! _ := at_state st (abi (validate_sram_bank bank)) in
  let! _ := at_state st (abi (guard_err (negb (sram_enabled st)) Ba_SramBankAcquiredWhileDisabled)) in
  let! _ := at_state st (bout (guard_policy policy Op_SramAcquire)) in
  let! _ := at_state st (with_untrusted
    (let! _ := emit_policy_prologue policy in
     let! _ := emit_mbc_write MBC5_RAMB_BASE bank in
     let! _ := emit_store_bank_shadow_byte_from_a (HighDirectOffset_new HRAM_LDH_CURRENT_SRAM_BANK) in
     emit_policy_epilogue policy)) in
  bret (MkBankingLoweringState (current_rom_bank st) (Some bank) (sram_enabled st) (active_leases st)).

Definition banking_label (segment : string) : outcome BankingEmitError SymbolName :=
  map_err Be_SymbolName (SymbolName_runtime "banking" segment).

Definition emit_release_label (lease : LeaseId) : BE unit :=
  let! name := bout (banking_label ("release_keep_current_" +:+ dec (LeaseId_get lease))) in
  with_untrusted (let! _ := builder_err (label name) in bret tt).

Definition lower_release (st : BankingLoweringState) (lease : BankLease) (return_to : BankReleaseDisposition)
    (policy : InterruptPolicy) : SE BankingLoweringState :=
  match spec_class (bl_spec lease), return_to with
  | _, Rel_KeepCurrent => let! _ := at_state st (emit_release_label (bl_id lease)) in bret st
  | Mbc_Rom, Rel_RomBank1 => lower_acquire_rom_bank st 1 policy
  | Mbc_Rom, Rel_RomManual bank => lower_acquire_rom_bank st bank policy
  | Mbc_Sram, Rel_SramDisable => lower_disable_sram st policy
  | Mbc_Sram, Rel_SramBank bank => lower_acquire_sram_bank st bank policy
  | lease_class, (Rel_RomBank1 | Rel_RomManual _) => berr (Be_Abi (Ba_ReturnStateWrongClass lease_class "rom"), st)
  | lease_class, (Rel_SramDisable | Rel_SramBank _) => berr (Be_Abi (Ba_ReturnStateWrongClass lease_class "sram"), st)
  end.

Inductive BankingAssertBankPolicy := Ass_LabelOnly | Ass_CompareAndTrap.
#[export] Instance BankingAssertBankPolicy_eq_dec : EqDecision BankingAssertBankPolicy. Proof. solve_decision. Defined.

Record BankingLoweringToken := MkToken { token_0 : Z }.

(** The global token counter is threaded like the generation counter. *)
Definition Token_new (counter : Z) : BankingLoweringToken * Z := (MkToken counter, wrap U64 (counter + 1)).

(** [{:016x}]: lower-case, at least sixteen digits. *)
Definition hex_digit_lower (d : Z) : ascii := ascii_of_N (Z.to_N (if d <? 10 then 48 + d else 87 + d)).
Fixpoint hex_lower (n : nat) (v : Z) : string :=
  match n with
  | O => EmptyString
  | S n' => hex_lower n' (v / 16) +:+ String (hex_digit_lower (v mod 16)) EmptyString
  end.
Definition token_note (t : BankingLoweringToken) : string :=
  BANKING_PROVENANCE_NOTE_PREFIX +:+ ":" +:+ hex_lower 16 (token_0 t).

(** The lowerer without its [RefCell], which is threaded by the driver. *)
Record BankingPreLayoutLowering := MkBankingPreLayoutLowering {
  bp_default_policy : InterruptPolicy;
  bp_default_lifetime : LeaseLifetime;
  bp_assert_bank_policy : BankingAssertBankPolicy;
  bp_safety_table : InterruptSafetyTable;
  bp_residency_table : gmap SectionId SectionResidency;
  bp_trust_token : BankingLoweringToken;
}.

Definition Banking_new (counter : Z) (policy : InterruptPolicy) (lifetime : LeaseLifetime) (safety : InterruptSafetyTable)
    : (BankingPreLayoutLowering * BankingLoweringState) * Z :=
  let '(token, counter) := Token_new counter in
  ((MkBankingPreLayoutLowering policy lifetime Ass_LabelOnly safety ∅ token, BankingLoweringState_default), counter).

Definition Banking_default (counter : Z) := Banking_new counter Pol_ShortCriticalSection Life_Slice ∅.

Definition with_residency (section : SectionId) (r : SectionResidency) (l : BankingPreLayoutLowering)
    : BankingPreLayoutLowering :=
  MkBankingPreLayoutLowering (bp_default_policy l) (bp_default_lifetime l) (bp_assert_bank_policy l) (bp_safety_table l)
    (<[section := r]> (bp_residency_table l)) (bp_trust_token l).

Definition with_assert_bank_policy (p : BankingAssertBankPolicy) (l : BankingPreLayoutLowering) : BankingPreLayoutLowering :=
  MkBankingPreLayoutLowering (bp_default_policy l) (bp_default_lifetime l) p (bp_safety_table l) (bp_residency_table l)
    (bp_trust_token l).

Definition banking_provenance (p : InstrProvenance) (t : BankingLoweringToken) : InstrProvenance :=
  with_note (with_source_op p BANKING_SOURCE_OP) (token_note t).

Definition is_trusted_banking_op (p : InstrProvenance) (t : BankingLoweringToken) : bool :=
  bool_decide (prov_source_op p = Some BANKING_SOURCE_OP) && bool_decide (prov_note p = Some (token_note t)).

Definition bank_class_segment (class : MbcBankClass) : string := match class with Mbc_Rom => "rom" | Mbc_Sram => "sram" end.

Definition fragment_builder (ctx : LoweringContext) (symbol : string) : outcome BankingEmitError Builder :=
  let* name := banking_label (symbol +:+ "_s" +:+ dec (SectionId_get (ctx_source_section_id ctx))) in
  match set_section_privilege SectionPrivilege_privileged
          (Builder_new_with_id (ctx_source_section_id ctx) (ctx_source_section_role ctx) name) with
  | (Ok _, b) => Ok b
  | (Err e, _) => Err (Be_Builder e)
  | (Panic, _) => Panic
  | (NoFuel, _) => NoFuel
  end.

Definition checked_sub_index (seq_index : Z) : outcome BankingEmitError Z :=
  ok_or (try_from_u U16 seq_index) Be_SubIndexOverflow.

Definition fragment_item {T} (i : OrderedItem T) : outcome BankingEmitError (FragmentItem T) :=
  let* sub := checked_sub_index (item_seq i) in
  Ok (FragmentItem_new_with_sub_index (item_data i) sub (item_prov i)).

Definition fragment_from_builder (b : Builder) : outcome BankingEmitError LoweredFragment :=
  let* s := map_err Be_Builder (try_finish b) in
  let* labels := omapM fragment_item (sec_labels s) in
  let* instrs := omapM fragment_item (sec_instrs s) in
  let* data_blocks := omapM fragment_item (sec_data_blocks s) in
  let* alignments := omapM fragment_item (sec_alignments s) in
  let* legalization_ops := omapM fragment_item (sec_legalization_ops s) in
  let* branches := omapM fragment_item (sec_branches s) in
  Ok (MkLoweredFragment labels instrs data_blocks alignments legalization_ops branches).

Definition safety_or_default (t : InterruptSafetyTable) (section : SectionId) : InterruptSafety :=
  default (MkInterruptSafety Saf_InterruptDisabled) (safety_lookup t section).

Definition check_ctx (l : BankingPreLayoutLowering) (ctx : LoweringContext) : outcome BankingEmitError unit :=
  let residency := default (from_section_role (ctx_source_section_role ctx))
                     (bp_residency_table l !! ctx_source_section_id ctx) in
  map_err Be_Abi
    (check_lease_emission_legal_parts (ctx_source_section_id ctx) (ctx_source_section_privilege ctx)
       (safety_or_default (bp_safety_table l) (ctx_source_section_id ctx)) residency).

(** Running a closure on the local fragment builder under the trusted
    provenance, then closing the fragment. *)
Definition on_fragment (l : BankingPreLayoutLowering) (ctx : LoweringContext) (b : Builder) {A} (m : SE A)
    : outcome (BankingEmitError * BankingLoweringState) (A * Builder) :=
  match with_provenance (banking_provenance (ctx_provenance ctx) (bp_trust_token l)) m b with
  | (Ok a, b') => Ok (a, b')
  | (Err e, _) => Err e
  | (Panic, _) => Panic
  | (NoFuel, _) => NoFuel
  end.

Definition at_st {A} (st : BankingLoweringState) (m : outcome BankingEmitError A)
    : outcome (BankingEmitError * BankingLoweringState) A := map_err (fun e => (e, st)) m.

Definition set_active_leases (a : gmap LeaseId BankLease) (st : BankingLoweringState) : BankingLoweringState :=
  MkBankingLoweringState (current_rom_bank st) (current_sram_bank st) (sram_enabled st) a.

Definition validate_lease_class (spec : BankLeaseSpec) : outcome BankAbiViolation unit :=
  match spec_class spec with
  | Mbc_Rom => let* _ := for_rom_switchable (spec_bank spec) (spec_lifetime spec) in Ok tt
  | Mbc_Sram => let* _ := for_sram_bank (spec_bank spec) (spec_lifetime spec) in Ok tt
  end.

Definition acquire_for_lease (st : BankingLoweringState) (spec : BankLeaseSpec) (policy : InterruptPolicy)
    : SE BankingLoweringState :=
  match spec_class spec with
  | Mbc_Rom => lower_acquire_rom_bank st (spec_bank spec) policy
  | Mbc_Sram =>
      let! st := lower_enable_sram st policy in
      lower_acquire_sram_bank st (wrap U8 (spec_bank spec)) policy
  end.

Definition lower_bank_lease (l : BankingPreLayoutLowering) (spec : BankLeaseSpec) (ctx : LoweringContext)
    (st : BankingLoweringState)
    : outcome (BankingEmitError * BankingLoweringState) (LoweredFragment * BankingLoweringState) :=
  let* _ := at_st st (check_ctx l ctx) in
  let lifetime := spec_lifetime spec in
  let* _ := at_st st (guard_err (bool_decide (lifetime = Life_ResumeWindow) || bool_decide (lifetime = Life_Token))
                        (Be_Abi (Ba_UnsupportedRestoringLifetime lifetime))) in
  let* _ := at_st st (map_err Be_Abi (validate_lease_class spec)) in
  let* _ := at_st st
    (match active_lease_id st with
     | Some existing => Err (Be_Abi (Ba_NestedLeaseNotSupported (spec_class spec) existing (spec_lease_id spec)))
     | None => Ok tt
     end) in
  let lease := MkBankLease (spec_lease_id spec) spec lifetime in
  let* b := at_st st (fragment_builder ctx "lease") in
  let* (st, b) := on_fragment l ctx b (acquire_for_lease st spec (bp_default_policy l)) in
  let st := set_active_leases (<[bl_id lease := lease]> (active_leases st)) st in
  let* f := at_st st (fragment_from_builder b) in
  Ok (f, st).

(** The lease leaves the table before anything else is checked. *)
Definition lower_bank_release (l : BankingPreLayoutLowering) (lease_id : LeaseId) (return_to : BankReleaseDisposition)
    (ctx : LoweringContext) (st : BankingLoweringState)
    : outcome (BankingEmitError * BankingLoweringState) (LoweredFragment * BankingLoweringState) :=
  let* _ := at_st st (check_ctx l ctx) in
  let* active := at_st st (ok_or (active_leases st !! lease_id) (Be_Abi (Ba_UnreleasedLease lease_id))) in
  let st := set_active_leases (delete lease_id (active_leases st)) st in
  let* _ := at_st st (guard_err (bool_decide (return_to = Rel_KeepCurrent)) (Be_Abi (Ba_KeepCurrentProofMissing lease_id))) in
  let* b := at_st st (fragment_builder ctx "release") in
  let* (st, b) := on_fragment l ctx b (lower_release st active return_to (bp_default_policy l)) in
  let* f := at_st st (fragment_from_builder b) in
  Ok (f, st).

(** The compare sequences that follow the label of an assertion. *)
Definition emit_assert_bank_compare_and_trap (expected : MbcBankClass) (expected_n : Z) : BE unit :=
  let! _ :=
    match expected with
    | Mbc_Rom =>
        let! _ := abi (guard_err (expected_n =? 0) Ba_RomBankZeroReservedByAbi) in
        let! _ := abi (guard_err (MAX_ROM_BANK <? expected_n) (Ba_RomBankOutOfRange expected_n)) in
        let! _ := emit_i (I_LdAFromHighDirect (HighDirectOffset_new HRAM_LDH_CURRENT_ROM_BANK_LO)) in
        let! _ := emit_i (I_CpA (Alu_Imm (bank_lo expected_n))) in
        let! _ := emit_i (I_JrRel (Some Cond_NZ) 6) in
        let! _ := emit_i (I_LdAFromHighDirect (HighDirectOffset_new HRAM_LDH_CURRENT_ROM_BANK_HI)) in
        let! _ := emit_i (I_CpA (Alu_Imm (bank_hi expected_n))) in
        emit_i (I_JrRel (Some Cond_NZ) 0)
    | Mbc_Sram =>
        let! _ := abi (validate_sram_bank expected_n) in
        let! _ := emit_i (I_LdAFromHighDirect (HighDirectOffset_new HRAM_LDH_CURRENT_SRAM_BANK)) in
        let! _ := emit_i (I_CpA (Alu_Imm (wrap U8 expected_n))) in
        emit_i (I_JrRel (Some Cond_NZ) 0)
    end in
  emit_i (I_Rst Rst_V38).

Definition lower_assert_bank (l : BankingPreLayoutLowering) (expected : MbcBankClass) (expected_n : Z)
    (ctx : LoweringContext) (st : BankingLoweringState)
    : outcome (BankingEmitError * BankingLoweringState) (LoweredFragment * BankingLoweringState) :=
  let* b := at_st st (fragment_builder ctx "assert_bank") in
  let* name := at_st st (banking_label ("assert_" +:+ bank_class_segment expected +:+ "_" +:+ dec expected_n
                          +:+ "_s" +:+ dec (SectionId_get (ctx_source_section_id ctx)))) in
  let* (_, b) := on_fragment l ctx b
    (let! _ := at_state st (builder_err (label name)) in
     at_state st (if bool_decide (bp_assert_bank_policy l = Ass_CompareAndTrap)
                  then emit_assert_bank_compare_and_trap expected expected_n else bret tt)) in
  let* f := at_st st (fragment_from_builder b) in
  Ok (f, st).

(** [LoweringError::Runtime] carries the error itself. *)
Inductive BankingLoweringError := Bl_Lowering (e : LoweringError) | Bl_Runtime (e : BankingEmitError).
Inductive BankingDisposition :=
| Bd_Lowered (f : LoweredFragment) | Bd_NotOwned | Bd_Error (e : BankingEmitError) | Bd_Panic.

Definition disposition_of (st : BankingLoweringState)
    (r : outcome (BankingEmitError * BankingLoweringState) (LoweredFragment * BankingLoweringState))
    : BankingDisposition * BankingLoweringState :=
  match r with
  | Ok (f, st') => (Bd_Lowered f, st')
  | Err (e, st') => (Bd_Error e, st')
  | _ => (Bd_Panic, st)
  end.

Definition lower_with_state (l : BankingPreLayoutLowering) (op : PreLayoutOp) (ctx : LoweringContext)
    (st : BankingLoweringState) : BankingDisposition * BankingLoweringState :=
  match op with
  | Op_BankLease spec => disposition_of st (lower_bank_lease l spec ctx st)
  | Op_BankRelease lease_id return_to => disposition_of st (lower_bank_release l lease_id return_to ctx st)
  | Op_AssertBank expected expected_n => disposition_of st (lower_assert_bank l expected expected_n ctx st)
  | Op_Yield _ | Op_TraceProbe _ _ => (Bd_NotOwned, st)
  end.

(** [PreLayoutOpLowering::lower] of the lowerer. *)
Definition banking_lower (l : BankingPreLayoutLowering) (op : PreLayoutOp) (ctx : LoweringContext)
    (st : BankingLoweringState) : outcome BankingLoweringError LoweredFragment * BankingLoweringState :=
  let '(d, st) := lower_with_state l op ctx st in
  (match d with
   | Bd_Lowered f => Ok f
   | Bd_NotOwned => Err (Bl_Lowering (Low_UnsupportedStructuredOp (op_kind op)))
   | Bd_Error e => Err (Bl_Runtime e)
   | Bd_Panic => Panic
   end, st).

(** ** The driver with the lowerer's state threaded through *)

Definition banking_lower_op (l : BankingPreLayoutLowering) (s : AsmSection) (symbols : SymbolTable)
    (ast : LowerArrays * BankingLoweringState) (op : OrderedItem PreLayoutOp)
    : outcome BankingLoweringError (LowerArrays * BankingLoweringState) :=
  let '(a, st) := ast in
  let '(r, st) := banking_lower l (item_data op) (lowering_context s symbols op) st in
  let* fragment := r in
  let* _ := map_err Bl_Lowering (validate_fragment fragment (sec_privilege s) (item_seq op)) in
  Ok (merge_fragment fragment (item_seq op) a, st).

Definition banking_lower_one (l : BankingPreLayoutLowering) (symbols : SymbolTable) (st : BankingLoweringState)
    (s : AsmSection) : outcome BankingLoweringError (LoweredSection * BankingLoweringState) :=
  let* (a, st) := ofold (banking_lower_op l s symbols) (section_arrays s, st) (sec_pre_layout_ops s) in
  Ok (lowered_section s a, st).

Definition banking_lower_sections (l : BankingPreLayoutLowering) (symbols : SymbolTable) (st : BankingLoweringState)
    (sections : list AsmSection) : outcome BankingLoweringError (list LoweredSection * BankingLoweringState) :=
  omap_acc (banking_lower_one l symbols) st sections.

(** ** The audit *)

Definition is_mbc_store (i : Instr) : bool := match classify_effect i with E_StoreToMbcRegister _ => true | _ => false end.

Definition audit_item (safety_table : InterruptSafetyTable) (l : BankingPreLayoutLowering) (s : LoweredSection)
    (item : OrderedItem Instr) : outcome BankAbiViolation unit :=
  if is_mbc_store (item_data item) then
    let* _ := check_lease_emission_legal_parts (low_id s) (low_privilege s)
                (safety_or_default safety_table (low_id s)) (from_section_role (low_role s)) in
    guard_err (negb (is_trusted_banking_op (item_prov item) (bp_trust_token l)))
      (Ba_MbcWriteOutsideBankingProvenance (low_id s))
  else Ok tt.

Definition mbc_write_provenance_audit (sections : list LoweredSection) (safety_table : InterruptSafetyTable)
    (l : BankingPreLayoutLowering) : outcome BankAbiViolation unit :=
  ofold (fun _ s => ofold (fun _ item => audit_item safety_table l s item) tt (low_instrs s)) tt sections.
