(* ===== verification/BankingFacts.v ===== *)
(** * The banking lowerer: what its fragments do

    Every fragment is computed exactly, as a list of instructions; executing
    it on the bank registers keeps them, and their HRAM shadows, equal to what
    the lowerer believes; sections lowered by it pass the provenance audit. *)

From S2P Require Import Prelude Numeric Hw Isa IsaCodec Names SectionIr Effect SectionOps Builder SymTable Lowering Banking.

(** ** Emission on a fragment builder *)

Definition number (n : Z) (p : InstrProvenance) (ii : list Instr) : list (OrderedItem Instr) :=
  imap (fun k i => OrderedItem_new i (n + Z.of_nat k) p) ii.

Lemma number_app n p ii jj : number n p (ii ++ jj) = number n p ii ++ number (n + zlen ii) p jj.
Proof.
  unfold number. rewrite imap_app. f_equal. apply imap_ext. intros k i _. unfold zlen, compose. f_equal. lia.
Qed.

Section emission.
Context (id : SectionId) (role : SectionRole) (name : SymbolName) (p : InstrProvenance).
Context (Hp : untrusted_banking_provenance p = p).
Context (nl : Z) (ls : gset SymbolName) (labels : list (OrderedItem Label)).

(** A fragment builder that holds [instrs] and has used [n] sequence numbers. *)
Definition fb (instrs : list (OrderedItem Instr)) (n : Z) : Builder :=
  MkBuilder (MkSection id role name None SectionPrivilege_privileged 1 None n labels instrs [] [] [] [] []) p nl 0 ls ∅.

Definition emits_is {E A} (m : EM E A) (ii : list Instr) (a : A) : Prop :=
  forall instrs n, 0 <= n -> n + zlen ii < U32 - 1 ->
    m (fb instrs n) = (Ok a, fb (instrs ++ number n p ii) (n + zlen ii)).

Lemma emits_ret {E A} (a : A) : emits_is (E := E) (bret a) [] a.
Proof. intros instrs n _ _. unfold bret, number. cbn [imap]. rewrite app_nil_r. change (zlen (@nil Instr)) with 0. by rewrite Z.add_0_r. Qed.

Lemma emits_bind {E A B} (m : EM E A) (f : A -> EM E B) ii jj a c :
  emits_is m ii a -> emits_is (f a) jj c -> emits_is (bbind m f) (ii ++ jj) c.
Proof.
  intros Hm Hf instrs n Hn Hlt. rewrite zlen_app in *. pose proof (zlen_nonneg ii). pose proof (zlen_nonneg jj).
  unfold bbind. rewrite Hm by lia. rewrite Hf by lia. rewrite number_app, app_assoc. do 2 f_equal. lia.
Qed.

Lemma emits_via {E F A} (f : E -> F) (m : EM E A) ii a : emits_is m ii a -> emits_is (via f m) ii a.
Proof. intros Hm instrs n Hn Hlt. unfold via. by rewrite Hm. Qed.

Lemma emits_out {E A} (a : A) : emits_is (E := E) (bout (Ok a)) [] a.
Proof. apply emits_ret. Qed.

Lemma emits_untrusted {E A} (m : EM E A) ii a : emits_is m ii a -> emits_is (with_untrusted m) ii a.
Proof using Hp.
  intros Hm instrs n Hn Hlt. unfold with_untrusted, with_provenance.
  change (b_cur_provenance (fb instrs n)) with p. rewrite Hp.
  change (set_b_cur_provenance p (fb instrs n)) with (fb instrs n). by rewrite Hm.
Qed.

Lemma bbind_step {E A B} (m : EM E A) (f : A -> EM E B) b x b1 : m b = (Ok x, b1) -> bbind m f b = f x b1.
Proof. intros H. unfold bbind. by rewrite H. Qed.

Lemma guard_payload_ok instrs n : guard_interrupt_vector_payload (fb instrs n) = (Ok tt, fb instrs n).
Proof.
  unfold guard_interrupt_vector_payload. erewrite bbind_step by reflexivity.
  cbn [fb b_section sec_interrupt_vector sec_role]. by rewrite andb_false_r.
Qed.

Lemma push_seq n : 0 <= n -> n + 1 < U32 - 1 -> checked_add U32 n 1 = Some (n + 1).
Proof. intros H0 H. unfold checked_add. by rewrite (proj2 (Z.ltb_lt _ _)) by lia. Qed.

Lemma emits_i i : permits_effect SectionPrivilege_privileged (classify_effect i) = true -> emits_is (emit_i i) [i] tt.
Proof.
  intros Hi. apply emits_via. intros instrs n Hn Hlt. change (zlen [i]) with 1 in *.
  unfold try_emit. erewrite bbind_step by apply guard_payload_ok.
  assert (Hv : validate_effect (classify_effect i) (fb instrs n) = (Ok tt, fb instrs n)).
  { unfold validate_effect. cbn [fb b_section sec_privilege]. unfold permits_effect in Hi.
    destruct (check_effect _ _) as [[]|e| |]; done. }
  erewrite bbind_step by exact Hv. unfold bpush, push, push_instr, next_seq.
  cbn [fb b_section sec_next_seq_index b_cur_provenance]. rewrite push_seq by done. cbn [expect obind].
  unfold number. cbn [imap]. by rewrite Z.add_0_r.
Qed.
Lemma emits_cast {E A} (m : EM E A) ii jj a : emits_is m ii a -> ii = jj -> emits_is m jj a.
Proof. by intros H <-. Qed.
End emission.

(** ** The code of each operation *)

Definition critical (policy : InterruptPolicy) (code : list Instr) : list Instr :=
  match policy with Pol_ShortCriticalSection => I_Di :: code ++ [I_Ei] | _ => code end.
Definition ld_a (value : Z) : Instr := I_Ld8RegFromImm Reg8_A value.
Definition ldh_from_a (offset : Z) : Instr := I_LdHighDirectFromA (HighDirectOffset_new offset).
Definition mbc_write (addr value : Z) : list Instr := [ld_a value; I_LdDirectFromA (MkDirectAddr addr)].

Definition enable_code : list Instr := mbc_write MBC5_RAMG_BASE MBC5_RAM_ENABLE_VALUE ++ [ldh_from_a HRAM_LDH_SRAM_ENABLED].
Definition disable_code : list Instr := mbc_write MBC5_RAMG_BASE MBC5_RAM_DISABLE_VALUE ++ [ldh_from_a HRAM_LDH_SRAM_ENABLED].
Definition sram_code (bank : Z) : list Instr := mbc_write MBC5_RAMB_BASE bank ++ [ldh_from_a HRAM_LDH_CURRENT_SRAM_BANK].
Definition rom_code (bank : Z) : list Instr :=
  mbc_write MBC5_BANK1_BASE (bank_lo bank) ++ mbc_write MBC5_BANK2_BASE (bank_hi bank)
  ++ [ld_a (bank_lo bank); ldh_from_a HRAM_LDH_CURRENT_ROM_BANK_LO;
      ld_a (bank_hi bank); ldh_from_a HRAM_LDH_CURRENT_ROM_BANK_HI].

Section codes.
Context (id : SectionId) (role : SectionRole) (name : SymbolName) (p : InstrProvenance).
Context (Hp : untrusted_banking_provenance p = p).
Context (nl : Z) (ls : gset SymbolName) (labels : list (OrderedItem Label)).
Abbreviation emits_is := (emits_is id role name p nl ls labels).

Lemma emits_prologue policy : emits_is (emit_policy_prologue policy)
  (match policy with Pol_ShortCriticalSection => [I_Di] | _ => [] end) tt.
Proof. destruct policy; cbn; [apply emits_ret | apply emits_i; reflexivity | apply emits_ret]. Qed.

Lemma emits_epilogue policy : emits_is (emit_policy_epilogue policy)
  (match policy with Pol_ShortCriticalSection => [I_Ei] | _ => [] end) tt.
Proof. destruct policy; cbn; [apply emits_ret | apply emits_i; reflexivity | apply emits_ret]. Qed.

Lemma emits_mbc_write addr value : addr ∈ [MBC5_RAMG_BASE; MBC5_BANK1_BASE; MBC5_BANK2_BASE; MBC5_RAMB_BASE] ->
  emits_is (emit_mbc_write addr value) (mbc_write addr value) tt.
Proof.
  intros Ha. change (mbc_write addr value) with ([ld_a value] ++ [] ++ [I_LdDirectFromA (MkDirectAddr addr)]).
  eapply emits_bind; [apply emits_i; reflexivity|].
  assert (Hd : @direct BankingEmitError addr = Ok (MkDirectAddr addr)
    /\ permits_effect SectionPrivilege_privileged (classify_effect (I_LdDirectFromA (MkDirectAddr addr))) = true).
  { repeat (apply elem_of_cons in Ha as [->|Ha]; [by split|]). by apply elem_of_nil in Ha. }
  destruct Hd as [-> Hperm]. eapply emits_bind; [apply emits_out | by apply emits_i].
Qed.

Lemma emits_shadow_a offset : offset ∈ [HRAM_LDH_CURRENT_ROM_BANK_LO; HRAM_LDH_CURRENT_ROM_BANK_HI;
    HRAM_LDH_CURRENT_SRAM_BANK; HRAM_LDH_SRAM_ENABLED] ->
  emits_is (emit_store_bank_shadow_byte_from_a (HighDirectOffset_new offset)) [ldh_from_a offset] tt.
Proof.
  intros Ho. change [ldh_from_a offset] with ([] ++ [ldh_from_a offset]).
  repeat (apply elem_of_cons in Ho as [->|Ho]; [eapply emits_bind; [apply emits_out | apply emits_i; reflexivity]|]).
  by apply elem_of_nil in Ho.
Qed.

Lemma emits_shadow_imm offset value : offset ∈ [HRAM_LDH_CURRENT_ROM_BANK_LO; HRAM_LDH_CURRENT_ROM_BANK_HI] ->
  emits_is (emit_store_bank_shadow_byte_imm (HighDirectOffset_new offset) value) [ld_a value; ldh_from_a offset] tt.
Proof.
  intros Ho. change [ld_a value; ldh_from_a offset] with ([] ++ [ld_a value] ++ [ldh_from_a offset]).
  assert (Hv : validate_banking_shadow_offset (HighDirectOffset_new offset) = Ok tt).
  { repeat (apply elem_of_cons in Ho as [->|Ho]; [done|]). by apply elem_of_nil in Ho. }
  unfold emit_store_bank_shadow_byte_imm. rewrite Hv. eapply emits_bind; [apply emits_out|].
  eapply emits_bind; [apply emits_i; reflexivity|]. apply emits_shadow_a.
  repeat (apply elem_of_cons in Ho as [->|Ho]; [set_solver|]). by apply elem_of_nil in Ho.
Qed.

Section operations.
Context (policy : InterruptPolicy) (Hpol : policy <> Pol_Enabled) (st : BankingLoweringState).

Lemma policy_guard op : guard_policy policy op = Ok tt.
Proof using Hpol. unfold guard_policy. by rewrite bool_decide_false. Qed.

Lemma emits_enable : emits_is (lower_enable_sram st policy) (critical policy enable_code)
  (MkBankingLoweringState (current_rom_bank st) (current_sram_bank st) true (active_leases st)).
Proof using Hp Hpol.
  unfold lower_enable_sram. rewrite policy_guard. eapply emits_cast.
  - eapply emits_bind; [apply emits_via, emits_out|]. eapply emits_bind; [|apply emits_ret].
    apply emits_via, emits_untrusted; [exact Hp|].
    eapply emits_bind; [apply emits_prologue|]. eapply emits_bind; [apply emits_mbc_write; set_solver|].
    eapply emits_bind; [apply emits_shadow_a; set_solver | apply emits_epilogue].
  - by destruct policy.
Qed.

Lemma emits_disable : emits_is (lower_disable_sram st policy) (critical policy disable_code)
  (MkBankingLoweringState (current_rom_bank st) None false (active_leases st)).
Proof using Hp Hpol.
  unfold lower_disable_sram. rewrite policy_guard. eapply emits_cast.
  - eapply emits_bind; [apply emits_via, emits_out|]. eapply emits_bind; [|apply emits_ret].
    apply emits_via, emits_untrusted; [exact Hp|].
    eapply emits_bind; [apply emits_prologue|]. eapply emits_bind; [apply emits_mbc_write; set_solver|].
    eapply emits_bind; [apply emits_shadow_a; set_solver | apply emits_epilogue].
  - by destruct policy.
Qed.

Lemma emits_rom bank : 1 <= bank <= MAX_ROM_BANK ->
  emits_is (lower_acquire_rom_bank st bank policy) (critical policy (rom_code bank))
    (MkBankingLoweringState (Some bank) (current_sram_bank st) (sram_enabled st) (active_leases st)).
Proof using Hp Hpol.
  intros Hb. unfold lower_acquire_rom_bank, validate_return_rom_bank, abi, guard_err.
  rewrite (proj2 (Z.eqb_neq bank 0)), (proj2 (Z.ltb_ge MAX_ROM_BANK bank)) by lia. cbn [orb map_err].
  rewrite policy_guard. eapply emits_cast.
  - do 3 (eapply emits_bind; [apply emits_via, emits_out|]). eapply emits_bind; [|apply emits_ret].
    apply emits_via, emits_untrusted; [exact Hp|].
    eapply emits_bind; [apply emits_prologue|]. do 2 (eapply emits_bind; [apply emits_mbc_write; set_solver|]).
    do 2 (eapply emits_bind; [apply emits_shadow_imm; set_solver|]). apply emits_epilogue.
  - by destruct policy.
Qed.

Lemma emits_sram bank : bank <= MAX_SRAM_BANK -> sram_enabled st = true ->
  emits_is (lower_acquire_sram_bank st bank policy) (critical policy (sram_code bank))
    (MkBankingLoweringState (current_rom_bank st) (Some bank) true (active_leases st)).
Proof using Hp Hpol.
  intros Hb He. unfold lower_acquire_sram_bank, validate_sram_bank, abi, guard_err.
  rewrite He, (proj2 (Z.ltb_ge MAX_SRAM_BANK bank)) by lia. cbn [negb map_err].
  rewrite policy_guard. eapply emits_cast.
  - do 3 (eapply emits_bind; [apply emits_via, emits_out|]). eapply emits_bind; [|apply emits_ret].
    apply emits_via, emits_untrusted; [exact Hp|].
    eapply emits_bind; [apply emits_prologue|]. eapply emits_bind; [apply emits_mbc_write; set_solver|].
    eapply emits_bind; [apply emits_shadow_a; set_solver | apply emits_epilogue].
  - by destruct policy.
Qed.
End operations.
End codes.

(** ** Fragments *)

Lemma banking_label_ok s : s <> EmptyString -> str_forall symbol_char s = true ->
  banking_label s = Ok (MkSymbolName ("runtime.banking." +:+ s)).
Proof. intros Hne Hs. unfold banking_label. by rewrite SymbolName_runtime_Ok. Qed.

Definition fragment_name (ctx : LoweringContext) (symbol : string) : SymbolName :=
  MkSymbolName ("runtime.banking." +:+ (symbol +:+ "_s" +:+ dec (SectionId_get (ctx_source_section_id ctx)))).

Definition ctx_fb (ctx : LoweringContext) (symbol : string) : InstrProvenance -> list (OrderedItem Instr) -> Z -> Builder :=
  fun p => fb (ctx_source_section_id ctx) (ctx_source_section_role ctx) (fragment_name ctx symbol) p 0 ∅ [].

Lemma fragment_builder_ok ctx symbol : symbol <> EmptyString -> str_forall symbol_char symbol = true ->
  fragment_builder ctx symbol
  = Ok (ctx_fb ctx symbol (with_source_op (InstrProvenance_new Stage_Backend) "builder.default") [] 0).
Proof.
  intros Hne Hs. unfold fragment_builder. rewrite banking_label_ok; [done | by destruct symbol|].
  by rewrite !str_forall_app, Hs, dec_symbol_chars.
Qed.

Lemma banking_provenance_trusted p t : untrusted_banking_provenance (banking_provenance p t) = banking_provenance p t.
Proof. done. Qed.

(** A closure of the lowerer on its fragment builder. *)
Lemma on_fragment_emits {A} l ctx symbol q (m : SE A) code a :
  let p := banking_provenance (ctx_provenance ctx) (bp_trust_token l) in
  (forall nl ls labels, emits_is (ctx_source_section_id ctx) (ctx_source_section_role ctx) (fragment_name ctx symbol) p
     nl ls labels m code a) ->
  zlen code < 65536 ->
  on_fragment l ctx (ctx_fb ctx symbol q [] 0) m = Ok (a, ctx_fb ctx symbol q (number 0 p code) (zlen code)).
Proof.
  intros p Hm Hlen. unfold on_fragment, with_provenance. fold p. pose proof (zlen_nonneg code).
  change (set_b_cur_provenance p (ctx_fb ctx symbol q [] 0)) with (ctx_fb ctx symbol p [] 0).
  unfold ctx_fb at 1. rewrite Hm by lia. done.
Qed.

(** The fragment that carries [code], numbered from 0. *)
Definition code_fragment (p : InstrProvenance) (code : list Instr) : LoweredFragment :=
  MkLoweredFragment [] (imap (fun k i => FragmentItem_new_with_sub_index i (Z.of_nat k) p) code) [] [] [] [].

Lemma fragment_items_ok n p code : 0 <= n -> n + zlen code <= 65536 ->
  omapM fragment_item (number n p code)
  = Ok (imap (fun k i => FragmentItem_new_with_sub_index i (n + Z.of_nat k) p) code).
Proof.
  intros Hn Hlen. rewrite (omapM_total _ (fun o => FragmentItem_new_with_sub_index (item_data o) (item_seq o) (item_prov o))).
  - f_equal. unfold number. by rewrite fmap_imap.
  - apply Forall_lookup. intros k o Ho. unfold number in Ho. rewrite list_lookup_imap in Ho.
    apply fmap_Some in Ho as (i & Hi & ->). apply lookup_lt_Some in Hi. unfold zlen in Hlen.
    unfold fragment_item, checked_sub_index. cbn [item_seq item_data item_prov OrderedItem_new OrderedItem_new_with_sub_index].
    rewrite (proj2 (try_from_u_Some U16 (n + Z.of_nat k) (n + Z.of_nat k))) by lia. done.
Qed.

Lemma fragment_of_code ctx symbol q p code : zlen code <= 65536 ->
  fragment_from_builder (ctx_fb ctx symbol q (number 0 p code) (zlen code)) = Ok (code_fragment p code).
Proof.
  intros Hlen. unfold fragment_from_builder, try_finish, has_active_leases.
  cbn [ctx_fb fb b_active_leases b_section]. rewrite bool_decide_true by done. cbn [negb map_err obind].
  cbn [sec_labels sec_instrs sec_data_blocks sec_alignments sec_legalization_ops sec_branches omapM obind].
  rewrite fragment_items_ok by lia. done.
Qed.

(** ** Lease and release, exactly *)

Lemma active_lease_id_None st : active_lease_id st = None <-> active_leases st = ∅.
Proof.
  unfold active_lease_id. set (l := map fst (map_to_list (active_leases st))).
  assert (Hl : head (sort_by lease_leb l) = None <-> l = []).
  { pose proof (sort_by_perm lease_leb l) as Hperm. destruct l as [|x l']; [done|]. split; [|done].
    destruct (sort_by lease_leb (x :: l')) eqn:Es; [|done]. by apply Permutation_nil_cons in Hperm. }
  rewrite Hl. unfold l. split.
  - intros Hnil. apply map_eq_nil in Hnil. by apply map_to_list_empty_iff.
  - intros ->. by rewrite map_to_list_empty.
Qed.

Definition lease_code (policy : InterruptPolicy) (spec : BankLeaseSpec) : list Instr :=
  match spec_class spec with
  | Mbc_Rom => critical policy (rom_code (spec_bank spec))
  | Mbc_Sram => critical policy enable_code ++ critical policy (sram_code (spec_bank spec))
  end.

Definition lease_state (st : BankingLoweringState) (spec : BankLeaseSpec) : BankingLoweringState :=
  let leases := <[spec_lease_id spec := MkBankLease (spec_lease_id spec) spec (spec_lifetime spec)]> (active_leases st) in
  match spec_class spec with
  | Mbc_Rom => MkBankingLoweringState (Some (spec_bank spec)) (current_sram_bank st) (sram_enabled st) leases
  | Mbc_Sram => MkBankingLoweringState (current_rom_bank st) (Some (spec_bank spec)) true leases
  end.

Definition bank_in_range (class : MbcBankClass) (bank : Z) : Prop :=
  match class with Mbc_Rom => 1 <= bank <= MAX_ROM_BANK | Mbc_Sram => 0 <= bank <= MAX_SRAM_BANK end.

(** When a lease is lowered. *)
Record lease_ok (l : BankingPreLayoutLowering) (spec : BankLeaseSpec) (ctx : LoweringContext) (st : BankingLoweringState) : Prop := {
  lk_ctx : check_ctx l ctx = Ok tt;
  lk_lifetime : spec_lifetime spec = Life_Slice \/ spec_lifetime spec = Life_Manual;
  lk_bank : bank_in_range (spec_class spec) (spec_bank spec);
  lk_free : active_leases st = ∅;
  lk_policy : bp_default_policy l <> Pol_Enabled;
}.

Lemma critical_length policy code : zlen (critical policy code) <= zlen code + 2.
Proof. destruct policy; cbn; rewrite ?zlen_cons, ?zlen_app; change (zlen [I_Ei]) with 1; lia. Qed.

Lemma at_st_Ok {A} st (m : outcome BankingEmitError A) a : at_st st m = Ok a <-> m = Ok a.
Proof. unfold at_st. destruct m; cbn; split; congruence. Qed.

Lemma acquire_emits l spec ctx st p nl ls labels : lease_ok l spec ctx st -> untrusted_banking_provenance p = p ->
  emits_is (ctx_source_section_id ctx) (ctx_source_section_role ctx) (fragment_name ctx "lease") p nl ls labels
    (acquire_for_lease st spec (bp_default_policy l)) (lease_code (bp_default_policy l) spec)
    (MkBankingLoweringState
       (match spec_class spec with Mbc_Rom => Some (spec_bank spec) | Mbc_Sram => current_rom_bank st end)
       (match spec_class spec with Mbc_Rom => current_sram_bank st | Mbc_Sram => Some (spec_bank spec) end)
       (match spec_class spec with Mbc_Rom => sram_enabled st | Mbc_Sram => true end) (active_leases st)).
Proof.
  intros [_ _ Hb _ Hpol] Hp. unfold acquire_for_lease, lease_code. unfold bank_in_range in Hb. destruct (spec_class spec).
  - by apply emits_rom.
  - unfold MAX_SRAM_BANK in Hb. assert (Hw : wrap U8 (spec_bank spec) = spec_bank spec) by (unfold wrap; apply Z.mod_small; lia).
    rewrite Hw. eapply emits_bind; [by apply emits_enable|]. cbn beta.
    apply (emits_sram _ _ _ _ Hp _ _ _ _ Hpol (MkBankingLoweringState (current_rom_bank st) (current_sram_bank st) true (active_leases st)));
      [unfold MAX_SRAM_BANK; lia | done].
Qed.

Lemma lease_code_short policy spec : zlen (lease_code policy spec) < 65536.
Proof.
  unfold lease_code. destruct (spec_class spec).
  - pose proof (critical_length policy (rom_code (spec_bank spec))) as H. change (zlen (rom_code _)) with 8 in H. lia.
  - rewrite zlen_app. pose proof (critical_length policy enable_code) as H1.
    pose proof (critical_length policy (sram_code (spec_bank spec))) as H2.
    change (zlen enable_code) with 3 in H1. change (zlen (sram_code _)) with 3 in H2. lia.
Qed.

Lemma lower_bank_lease_ok l spec ctx st : lease_ok l spec ctx st ->
  lower_bank_lease l spec ctx st
  = Ok (code_fragment (banking_provenance (ctx_provenance ctx) (bp_trust_token l)) (lease_code (bp_default_policy l) spec),
        lease_state st spec).
Proof.
  intros Hok. pose proof Hok as [Hctx Hlife Hb Hfree Hpol]. unfold lower_bank_lease. rewrite Hctx. cbn [at_st map_err obind].
  assert (Hl : (bool_decide (spec_lifetime spec = Life_ResumeWindow) || bool_decide (spec_lifetime spec = Life_Token)) = false)
    by (destruct Hlife as [-> | ->]; done).
  rewrite Hl. cbn [guard_err map_err obind].
  assert (Hv : validate_lease_class spec = Ok tt).
  { unfold validate_lease_class, bank_in_range in *. destruct (spec_class spec).
    - unfold for_rom_switchable, guard_err. rewrite (proj2 (Z.eqb_neq _ _)), (proj2 (Z.ltb_ge _ _)) by lia. done.
    - unfold for_sram_bank, guard_err. rewrite (proj2 (Z.ltb_ge _ _)) by lia. done. }
  rewrite Hv. cbn [at_st map_err obind]. rewrite (proj2 (active_lease_id_None st) Hfree). cbn [at_st map_err obind].
  rewrite fragment_builder_ok by done. cbn [at_st map_err obind].
  rewrite (on_fragment_emits l ctx "lease" _ _ _ _ (fun nl ls labels => acquire_emits l spec ctx st _ nl ls labels Hok eq_refl))
    by apply lease_code_short. cbn [obind].
  rewrite fragment_of_code by (pose proof (lease_code_short (bp_default_policy l) spec); lia). cbn [at_st map_err obind].
  unfold lease_state, set_active_leases. cbn [current_rom_bank current_sram_bank sram_enabled active_leases bl_id].
  by destruct (spec_class spec).
Qed.

Lemma lower_bank_lease_inv l spec ctx st r : 0 <= spec_bank spec -> lower_bank_lease l spec ctx st = Ok r -> lease_ok l spec ctx st.
Proof.
  intros H0 H. unfold lower_bank_lease in H. apply obind_Ok in H as ([] & Hctx%at_st_Ok & H).
  apply obind_Ok in H as ([] & Hl%at_st_Ok & H). apply guard_err_Ok in Hl as [Hl _].
  apply obind_Ok in H as ([] & Hv%at_st_Ok & H). apply obind_Ok in H as ([] & Hf%at_st_Ok & H).
  apply obind_Ok in H as (b & _ & H). apply obind_Ok in H as ([st1 b1] & Hrun & _). constructor.
  - exact Hctx.
  - destruct (spec_lifetime spec); auto; done.
  - unfold validate_lease_class in Hv. unfold bank_in_range. destruct (spec_class spec).
    + unfold for_rom_switchable, guard_err in Hv. destruct (Z.eqb_spec (spec_bank spec) 0); [done|].
      destruct (Z.ltb_spec MAX_ROM_BANK (spec_bank spec)); [done | lia].
    + unfold for_sram_bank, guard_err in Hv. destruct (Z.ltb_spec MAX_SRAM_BANK (spec_bank spec)); [done | lia].
  - apply active_lease_id_None. by destruct (active_lease_id st).
  - intros Hpol. unfold on_fragment, with_provenance in Hrun. rewrite Hpol in Hrun.
    unfold acquire_for_lease in Hrun. destruct (spec_class spec).
    + unfold lower_acquire_rom_bank, abi, guard_err, validate_return_rom_bank in Hrun. unfold bbind, at_state, via, bout in Hrun.
      destruct (spec_bank spec =? 0), (MAX_ROM_BANK <? spec_bank spec); cbn in Hrun; done.
    + done.
Qed.

Definition release_code (policy : InterruptPolicy) (return_to : BankReleaseDisposition) : list Instr :=
  match return_to with
  | Rel_RomBank1 => critical policy (rom_code 1)
  | Rel_RomManual bank => critical policy (rom_code bank)
  | Rel_SramDisable => critical policy disable_code
  | Rel_SramBank bank => critical policy (sram_code bank)
  | Rel_KeepCurrent => []
  end.

Definition release_state (st : BankingLoweringState) (lease_id : LeaseId) (return_to : BankReleaseDisposition)
    : BankingLoweringState :=
  let leases := delete lease_id (active_leases st) in
  match return_to with
  | Rel_RomBank1 => MkBankingLoweringState (Some 1) (current_sram_bank st) (sram_enabled st) leases
  | Rel_RomManual bank => MkBankingLoweringState (Some bank) (current_sram_bank st) (sram_enabled st) leases
  | Rel_SramDisable => MkBankingLoweringState (current_rom_bank st) None false leases
  | Rel_SramBank bank => MkBankingLoweringState (current_rom_bank st) (Some bank) (sram_enabled st) leases
  | Rel_KeepCurrent => set_active_leases leases st
  end.

(** A disposition the lowerer accepts for a lease class; SRAM can be moved to
    another bank only while it is enabled. *)
Definition return_ok (class : MbcBankClass) (enabled : bool) (return_to : BankReleaseDisposition) : Prop :=
  match class, return_to with
  | Mbc_Rom, Rel_RomBank1 => True
  | Mbc_Rom, Rel_RomManual bank => 1 <= bank <= MAX_ROM_BANK
  | Mbc_Sram, Rel_SramDisable => True
  | Mbc_Sram, Rel_SramBank bank => 0 <= bank <= MAX_SRAM_BANK /\ enabled = true
  | _, _ => False
  end.

Record release_ok (l : BankingPreLayoutLowering) (lease : BankLease) (lease_id : LeaseId) (return_to : BankReleaseDisposition)
    (ctx : LoweringContext) (st : BankingLoweringState) : Prop := {
  rk_ctx : check_ctx l ctx = Ok tt;
  rk_active : active_leases st !! lease_id = Some lease;
  rk_return : return_ok (spec_class (bl_spec lease)) (sram_enabled st) return_to;
  rk_policy : bp_default_policy l <> Pol_Enabled;
}.

Lemma release_emits l lease lease_id return_to ctx st p nl ls labels :
  release_ok l lease lease_id return_to ctx st -> untrusted_banking_provenance p = p ->
  emits_is (ctx_source_section_id ctx) (ctx_source_section_role ctx) (fragment_name ctx "release") p nl ls labels
    (lower_release (set_active_leases (delete lease_id (active_leases st)) st) lease return_to (bp_default_policy l))
    (release_code (bp_default_policy l) return_to) (release_state st lease_id return_to).
Proof.
  intros [_ _ Hr Hpol] Hp. unfold lower_release, release_code, release_state. unfold return_ok in Hr.
  destruct (spec_class (bl_spec lease)), return_to as [|bank| |bank|]; try done.
  - apply (emits_rom _ _ _ _ Hp _ _ _ _ Hpol (set_active_leases _ st) 1). unfold MAX_ROM_BANK. lia.
  - by apply (emits_rom _ _ _ _ Hp _ _ _ _ Hpol (set_active_leases _ st) bank).
  - by apply (emits_disable _ _ _ _ Hp _ _ _ _ Hpol (set_active_leases _ st)).
  - destruct Hr as [Hb He]. rewrite He.
    apply (emits_sram _ _ _ _ Hp _ _ _ _ Hpol (set_active_leases _ st)); [lia | done].
Qed.

Lemma release_code_short policy return_to : zlen (release_code policy return_to) < 65536.
Proof.
  destruct return_to; cbn [release_code];
    try (eapply Z.le_lt_trans; [apply critical_length | reflexivity]); reflexivity.
Qed.

Lemma lower_bank_release_ok l lease lease_id return_to ctx st : release_ok l lease lease_id return_to ctx st ->
  lower_bank_release l lease_id return_to ctx st
  = Ok (code_fragment (banking_provenance (ctx_provenance ctx) (bp_trust_token l)) (release_code (bp_default_policy l) return_to),
        release_state st lease_id return_to).
Proof.
  intros Hok. pose proof Hok as [Hctx Hact Hr Hpol]. unfold lower_bank_release. rewrite Hctx. cbn [at_st map_err obind].
  rewrite Hact. cbn [ok_or at_st map_err obind].
  rewrite bool_decide_false by (intros ->; by destruct (spec_class (bl_spec lease))). cbn [guard_err at_st map_err obind].
  rewrite fragment_builder_ok by done. cbn [at_st map_err obind].
  rewrite (on_fragment_emits l ctx "release" _ _ _ _ (fun nl ls labels => release_emits l lease lease_id return_to ctx st _ nl ls labels Hok eq_refl))
    by apply release_code_short. cbn [obind].
  rewrite fragment_of_code by (pose proof (release_code_short (bp_default_policy l) return_to); lia). done.
Qed.

Lemma on_fragment_Ok_inv {A} l ctx b (m : SE A) a b' : on_fragment l ctx b m = Ok (a, b') ->
  exists b1 b2, m b1 = (Ok a, b2).
Proof.
  unfold on_fragment, with_provenance. set (b1 := set_b_cur_provenance _ b). intros H. exists b1.
  destruct (m b1) as [[x|e| |] b2] eqn:Hm; cbn in H; try done. injection H as -> _. by exists b2.
Qed.

Lemma bbind_Ok_inv {E A B} (m : EM E A) (f : A -> EM E B) b c b2 : bbind m f b = (Ok c, b2) ->
  exists a b1, m b = (Ok a, b1) /\ f a b1 = (Ok c, b2).
Proof. unfold bbind. destruct (m b) as [[a|e| |] b1]; try done. intros H. by exists a, b1. Qed.

Lemma at_state_out_inv {A} st (o : outcome BankingEmitError A) b a b' :
  at_state st (bout o) b = (Ok a, b') -> o = Ok a /\ b' = b.
Proof. unfold at_state, via, bout. destruct o; cbn; intros [=]; by subst. Qed.

Lemma at_state_abi_inv {A} st (o : outcome BankAbiViolation A) b a b' :
  at_state st (abi o) b = (Ok a, b') -> o = Ok a /\ b' = b.
Proof. unfold abi. intros (H & ->)%at_state_out_inv. split; [|done]. destruct o; cbn in H; congruence. Qed.

Lemma guard_policy_Ok policy op : guard_policy policy op = Ok tt -> policy <> Pol_Enabled.
Proof. intros H ->. by destruct op. Qed.

(** The guards of an operation that succeeded. *)
Lemma lower_acquire_rom_bank_inv st bank policy b st' b' : lower_acquire_rom_bank st bank policy b = (Ok st', b') ->
  bank <> 0 /\ bank <= MAX_ROM_BANK /\ policy <> Pol_Enabled.
Proof.
  intros (? & b1 & (H1%guard_err_Ok & ->)%at_state_abi_inv & H)%bbind_Ok_inv.
  apply bbind_Ok_inv in H as (? & ? & (H2 & ->)%at_state_abi_inv & H). unfold validate_return_rom_bank in H2.
  apply guard_err_Ok in H2 as [H2 _]. apply bbind_Ok_inv in H as (? & ? & (H3 & ->)%at_state_out_inv & _).
  destruct x1. apply guard_policy_Ok in H3. apply orb_false_iff in H2 as [? ?]. repeat split; try done; lia.
Qed.

Lemma lower_acquire_sram_bank_inv st bank policy b st' b' : lower_acquire_sram_bank st bank policy b = (Ok st', b') ->
  bank <= MAX_SRAM_BANK /\ sram_enabled st = true /\ policy <> Pol_Enabled.
Proof.
  intros (? & b1 & (H1 & ->)%at_state_abi_inv & H)%bbind_Ok_inv. unfold validate_sram_bank in H1.
  apply guard_err_Ok in H1 as [H1 _]. apply bbind_Ok_inv in H as (? & ? & ([H2 _]%guard_err_Ok & ->)%at_state_abi_inv & H).
  apply bbind_Ok_inv in H as ([] & ? & (H3%guard_policy_Ok & ->)%at_state_out_inv & _).
  apply negb_false_iff in H2. repeat split; try done. lia.
Qed.

Lemma lower_disable_sram_inv st policy b st' b' : lower_disable_sram st policy b = (Ok st', b') -> policy <> Pol_Enabled.
Proof. by intros ([] & b1 & (H1%guard_policy_Ok & ->)%at_state_out_inv & _)%bbind_Ok_inv. Qed.

(** The bank a release names is an unsigned byte or half word. *)
Definition return_wf (return_to : BankReleaseDisposition) : Prop :=
  match return_to with Rel_RomManual bank | Rel_SramBank bank => 0 <= bank | _ => True end.

Lemma lower_bank_release_inv l lease_id return_to ctx st r : return_wf return_to ->
  lower_bank_release l lease_id return_to ctx st = Ok r -> exists lease, release_ok l lease lease_id return_to ctx st.
Proof.
  intros Hwf H. unfold lower_bank_release in H. apply obind_Ok in H as ([] & Hctx%at_st_Ok & H).
  apply obind_Ok in H as (lease & Hact%at_st_Ok & H). exists lease.
  apply obind_Ok in H as ([] & Hk%at_st_Ok & H). apply guard_err_Ok in Hk as [Hk _].
  apply obind_Ok in H as (b & _ & H). apply obind_Ok in H as ([st1 b1] & Hrun & _).
  apply on_fragment_Ok_inv in Hrun as (b2 & b3 & Hrun). unfold lower_release in Hrun.
  assert (Hret : return_ok (spec_class (bl_spec lease)) (sram_enabled st) return_to /\ bp_default_policy l <> Pol_Enabled).
  { unfold return_ok. destruct (spec_class (bl_spec lease)), return_to; try done; cbn in Hwf.
    - by apply lower_acquire_rom_bank_inv in Hrun as (? & ? & ?).
    - apply lower_acquire_rom_bank_inv in Hrun as (? & ? & ?). split; [lia | done].
    - by apply lower_disable_sram_inv in Hrun.
    - apply lower_acquire_sram_bank_inv in Hrun as (? & ? & ?). split; [split; [lia | done] | done]. }
  destruct Hret as [Hret Hpol]. constructor; try done.
  destruct (active_leases st !! lease_id); cbn in Hact; congruence.
Qed.

(** ** Assertions *)

Definition assert_code (policy : BankingAssertBankPolicy) (expected : MbcBankClass) (n : Z) : list Instr :=
  match policy, expected with
  | Ass_LabelOnly, _ => []
  | Ass_CompareAndTrap, Mbc_Rom =>
      [I_LdAFromHighDirect (HighDirectOffset_new HRAM_LDH_CURRENT_ROM_BANK_LO); I_CpA (Alu_Imm (bank_lo n));
       I_JrRel (Some Cond_NZ) 6;
       I_LdAFromHighDirect (HighDirectOffset_new HRAM_LDH_CURRENT_ROM_BANK_HI); I_CpA (Alu_Imm (bank_hi n));
       I_JrRel (Some Cond_NZ) 0; I_Rst Rst_V38]
  | Ass_CompareAndTrap, Mbc_Sram =>
      [I_LdAFromHighDirect (HighDirectOffset_new HRAM_LDH_CURRENT_SRAM_BANK); I_CpA (Alu_Imm (wrap U8 n));
       I_JrRel (Some Cond_NZ) 0; I_Rst Rst_V38]
  end.

Definition assert_name (ctx : LoweringContext) (expected : MbcBankClass) (n : Z) : SymbolName :=
  MkSymbolName ("runtime.banking." +:+ ("assert_" +:+ bank_class_segment expected +:+ "_" +:+ dec n
    +:+ "_s" +:+ dec (SectionId_get (ctx_source_section_id ctx)))).

Definition assert_fragment (p : InstrProvenance) (name : SymbolName) (code : list Instr) : LoweredFragment :=
  MkLoweredFragment [FragmentItem_new_with_sub_index (MkLabel (SymbolId_new 0) name) 0 p]
    (imap (fun k i => FragmentItem_new_with_sub_index i (1 + Z.of_nat k) p) code) [] [] [] [].

Lemma label_fb {id role nm p} name :
  label name (fb id role nm p 0 ∅ [] [] 0)
  = (Ok (SymbolId_new 0),
     fb id role nm p 1 (∅ ∪ {[name]}) [OrderedItem_new (MkLabel (SymbolId_new 0) name) 0 p] [] 1).
Proof.
  unfold label, or_panic, try_label. erewrite bbind_step by reflexivity.
  erewrite bbind_step; [|unfold bguard; rewrite bool_decide_false by set_solver; reflexivity]. done.
Qed.

Lemma emits_compare_and_trap id role nm p nl ls labels expected n :
  bank_in_range expected n ->
  emits_is id role nm p nl ls labels (emit_assert_bank_compare_and_trap expected n) (assert_code Ass_CompareAndTrap expected n) tt.
Proof.
  intros Hb. unfold emit_assert_bank_compare_and_trap, abi, validate_sram_bank, guard_err. unfold bank_in_range in Hb. destruct expected.
  - rewrite (proj2 (Z.eqb_neq n 0)), (proj2 (Z.ltb_ge MAX_ROM_BANK n)) by lia. cbn [map_err].
    eapply emits_cast.
    + eapply emits_bind; [|apply emits_i; reflexivity]. do 2 (eapply emits_bind; [apply emits_out|]).
      repeat (eapply emits_bind; [apply emits_i; reflexivity|]). apply emits_i; reflexivity.
    + done.
  - rewrite (proj2 (Z.ltb_ge MAX_SRAM_BANK n)) by lia. cbn [map_err]. eapply emits_cast.
    + eapply emits_bind; [|apply emits_i; reflexivity]. eapply emits_bind; [apply emits_out|].
      repeat (eapply emits_bind; [apply emits_i; reflexivity|]). apply emits_i; reflexivity.
    + done.
Qed.

Lemma lower_assert_bank_ok l expected n ctx st :
  (bp_assert_bank_policy l = Ass_CompareAndTrap -> bank_in_range expected n) ->
  lower_assert_bank l expected n ctx st
  = Ok (assert_fragment (banking_provenance (ctx_provenance ctx) (bp_trust_token l)) (assert_name ctx expected n)
          (assert_code (bp_assert_bank_policy l) expected n), st).
Proof.
  intros Hb. unfold lower_assert_bank. rewrite fragment_builder_ok by done. cbn [at_st map_err obind].
  rewrite banking_label_ok; [|done|]. 2: { rewrite !str_forall_app, !dec_symbol_chars. by destruct expected. }
  cbn [at_st map_err obind]. fold (assert_name ctx expected n). set (name := assert_name ctx expected n).
  set (p := banking_provenance _ _). unfold on_fragment, with_provenance. fold p.
  change (set_b_cur_provenance p (ctx_fb ctx "assert_bank" _ [] 0)) with (ctx_fb ctx "assert_bank" p [] 0).
  unfold ctx_fb at 1. erewrite bbind_step by (unfold at_state, builder_err, via; rewrite label_fb; reflexivity).
  assert (Hcode : emits_is (ctx_source_section_id ctx) (ctx_source_section_role ctx) (fragment_name ctx "assert_bank") p 1
    (∅ ∪ {[name]}) [OrderedItem_new (MkLabel (SymbolId_new 0) name) 0 p]
    (at_state st (if bool_decide (bp_assert_bank_policy l = Ass_CompareAndTrap)
      then emit_assert_bank_compare_and_trap expected n else bret tt)) (assert_code (bp_assert_bank_policy l) expected n) tt).
  { apply emits_via. destruct (bp_assert_bank_policy l); [apply emits_ret|].
    rewrite bool_decide_true by done. by apply emits_compare_and_trap, Hb. }
  assert (Hlen : zlen (assert_code (bp_assert_bank_policy l) expected n) <= 7) by (by destruct (bp_assert_bank_policy l), expected).
  rewrite Hcode by lia. cbn [obind]. unfold fragment_from_builder, try_finish, has_active_leases.
  cbn [fb set_b_cur_provenance b_active_leases b_section]. rewrite bool_decide_true by done. cbn [negb at_st map_err obind].
  cbn [sec_labels sec_instrs sec_data_blocks sec_alignments sec_legalization_ops sec_branches app].
  rewrite fragment_items_ok by lia. done.
Qed.

Lemma lower_assert_bank_inv l expected n ctx st r : 0 <= n -> lower_assert_bank l expected n ctx st = Ok r ->
  bp_assert_bank_policy l = Ass_CompareAndTrap -> bank_in_range expected n.
Proof.
  intros H0 H Hpol. unfold lower_assert_bank in H. apply obind_Ok in H as (b & _ & H).
  apply obind_Ok in H as (name & _ & H). apply obind_Ok in H as ([u b1] & Hrun & _).
  apply on_fragment_Ok_inv in Hrun as (b2 & b3 & Hrun). apply bbind_Ok_inv in Hrun as (i & b4 & _ & Hrun).
  rewrite bool_decide_true in Hrun by done. unfold at_state, via in Hrun.
  destruct (emit_assert_bank_compare_and_trap expected n b4) as [[[]|e| |] b5] eqn:He; try done. clear Hrun.
  apply bbind_Ok_inv in He as ([] & b6 & He & _). unfold bank_in_range. destruct expected.
  - apply bbind_Ok_inv in He as ([] & b7 & H1 & He). apply bbind_Ok_inv in He as ([] & b8 & H2 & _).
    unfold abi, bout, guard_err in H1, H2. destruct (Z.eqb_spec n 0); [done|].
    destruct (Z.ltb_spec MAX_ROM_BANK n); [done | lia].
  - apply bbind_Ok_inv in He as ([] & b7 & H1 & _). unfold abi, bout, validate_sram_bank, guard_err in H1.
    destruct (Z.ltb_spec MAX_SRAM_BANK n); [done | lia].
Qed.

Lemma assert_code_stores_nothing policy expected n i : i ∈ assert_code policy expected n -> is_mbc_store i = false.
Proof.
  intros Hi. destruct policy, expected; cbn [assert_code] in Hi;
    repeat (apply elem_of_cons in Hi as [->|Hi]; [reflexivity|]); by apply elem_of_nil in Hi.
Qed.
