(* ===== verification/BankMachine.v ===== *)
(** * The bank registers behind the banking lowerer

    A specification-level machine: the accumulator, the interrupt switch, the
    four MBC5 registers and HRAM.  Running the fragments the lowerer returns
    keeps the registers and their shadows equal to what the lowerer believes,
    with one lease at most and its bank selected. *)

From S2P Require Import Prelude Numeric Hw Isa IsaCodec Names SectionIr Effect SectionOps Builder SymTable Lowering Banking BankingFacts.

(** ** The machine *)

(** [c_exposed] records that a bank register was written while interrupts were
    on: a handler could have run between two writes of one bank switch. *)
Record Cpu := MkCpu {
  c_a : Z;
  c_ime : bool;
  c_ramg : Z;
  c_bank1 : Z;
  c_bank2 : Z;
  c_ramb : Z;
  c_hram : gmap Z Z;
  c_exposed : bool;
}.

Definition set_a (v : Z) (c : Cpu) : Cpu :=
  MkCpu v (c_ime c) (c_ramg c) (c_bank1 c) (c_bank2 c) (c_ramb c) (c_hram c) (c_exposed c).
Definition set_ime (v : bool) (c : Cpu) : Cpu :=
  MkCpu (c_a c) v (c_ramg c) (c_bank1 c) (c_bank2 c) (c_ramb c) (c_hram c) (c_exposed c).
Definition set_hram (offset v : Z) (c : Cpu) : Cpu :=
  MkCpu (c_a c) (c_ime c) (c_ramg c) (c_bank1 c) (c_bank2 c) (c_ramb c) (<[offset := v]> (c_hram c)) (c_exposed c).

Definition write_mbc (reg : MbcRegisterClass) (v : Z) (c : Cpu) : Cpu :=
  let exposed := c_exposed c || c_ime c in
  match reg with
  | Mbc_RamEnable => MkCpu (c_a c) (c_ime c) v (c_bank1 c) (c_bank2 c) (c_ramb c) (c_hram c) exposed
  | Mbc_RomBankLow => MkCpu (c_a c) (c_ime c) (c_ramg c) v (c_bank2 c) (c_ramb c) (c_hram c) exposed
  | Mbc_RomBankHigh => MkCpu (c_a c) (c_ime c) (c_ramg c) (c_bank1 c) v (c_ramb c) (c_hram c) exposed
  | Mbc_SramBank => MkCpu (c_a c) (c_ime c) (c_ramg c) (c_bank1 c) (c_bank2 c) v (c_hram c) exposed
  | Mbc_Reserved => c
  end.

(** The straight-line instructions that touch the registers; [None] elsewhere. *)
Definition exec1 (i : Instr) (c : Cpu) : option Cpu :=
  match i with
  | I_Di => Some (set_ime false c)
  | I_Ei => Some (set_ime true c)
  | I_Ld8RegFromImm Reg8_A v => Some (set_a v c)
  | I_LdHighDirectFromA o => Some (set_hram (HighDirectOffset_get o) (c_a c) c)
  | I_LdDirectFromA addr =>
      reg ← MbcRegisterClass_for_addr (DirectAddr_get addr); Some (write_mbc reg (c_a c) c)
  | _ => None
  end.

Fixpoint exec (ii : list Instr) (c : Cpu) : option Cpu :=
  match ii with [] => Some c | i :: ii' => c' ← exec1 i c; exec ii' c' end.

Lemma exec_app ii jj c : exec (ii ++ jj) c = c' ← exec ii c; exec jj c'.
Proof.
  revert c. induction ii as [|i ii IH]; intros c; [done|]. cbn [exec app]. destruct (exec1 i c); cbn; [apply IH | done].
Qed.

Definition fragment_instrs (f : LoweredFragment) : list Instr := map frag_data (frag_instrs f).

Lemma imap_const {A B} (g : nat -> A -> B) (h : B -> A) (xs : list A) :
  (forall k x, h (g k x) = x) -> map h (imap g xs) = xs.
Proof.
  intros H. revert g H. induction xs as [|x xs IH]; intros g H; [done|]. cbn [imap map]. rewrite H. f_equal. apply IH. intros. apply H.
Qed.

Lemma code_fragment_instrs p code : fragment_instrs (code_fragment p code) = code.
Proof. by apply imap_const. Qed.
Lemma assert_fragment_instrs p name code : fragment_instrs (assert_fragment p name code) = code.
Proof. by apply imap_const. Qed.

(** ** What each piece of code does *)

Definition rom_selected (c : Cpu) : Z := rom_bank_number (c_bank1 c) (c_bank2 c).

(** Whether the code emitted under a policy may start here. *)
Definition ready (policy : InterruptPolicy) (c : Cpu) : Prop :=
  match policy with Pol_Enabled => False | Pol_ShortCriticalSection => True | Pol_Disabled => c_ime c = false end.

(** Everything the banking code reads or writes, the accumulator and the
    interrupt switch aside. *)
Definition same_banking (c c' : Cpu) : Prop :=
  c_ramg c' = c_ramg c /\ c_bank1 c' = c_bank1 c /\ c_bank2 c' = c_bank2 c /\ c_ramb c' = c_ramb c
  /\ c_exposed c' = c_exposed c
  /\ (forall o, o ∈ [HRAM_LDH_CURRENT_ROM_BANK_LO; HRAM_LDH_CURRENT_ROM_BANK_HI; HRAM_LDH_CURRENT_SRAM_BANK;
                    HRAM_LDH_SRAM_ENABLED] -> c_hram c' !! o = c_hram c !! o).

(** A critical section runs its body with interrupts off. *)
Lemma exec_critical policy code c c' :
  ready policy c -> exec code (set_ime false c) = Some c' -> c_ime c' = false ->
  exists c2, exec (critical policy code) c = Some c2 /\ ready policy c2 /\ same_banking c' c2.
Proof.
  intros Hr He Hi. destruct policy; [done| |].
  - exists (set_ime true c'). cbn [critical exec exec1]. change (mbind ?f (Some ?x)) with (f x). cbn beta.
    rewrite exec_app, He. done.
  - exists c'. cbn in Hr. cbn [critical]. split; [|done]. rewrite <- He. f_equal. destruct c. cbn in *. by subst.
Qed.

Lemma exec_enable c : c_ime c = false -> exists c', exec enable_code c = Some c' /\ c_ime c' = false
  /\ c' = MkCpu MBC5_RAM_ENABLE_VALUE false MBC5_RAM_ENABLE_VALUE (c_bank1 c) (c_bank2 c) (c_ramb c)
           (<[HRAM_LDH_SRAM_ENABLED := MBC5_RAM_ENABLE_VALUE]> (c_hram c)) (c_exposed c).
Proof. intros Hi. destruct c as [a i]. cbn in Hi. subst i. eexists. split; [reflexivity|]. cbn. by rewrite orb_false_r. Qed.

Lemma exec_disable c : c_ime c = false -> exists c', exec disable_code c = Some c' /\ c_ime c' = false
  /\ c' = MkCpu MBC5_RAM_DISABLE_VALUE false MBC5_RAM_DISABLE_VALUE (c_bank1 c) (c_bank2 c) (c_ramb c)
           (<[HRAM_LDH_SRAM_ENABLED := MBC5_RAM_DISABLE_VALUE]> (c_hram c)) (c_exposed c).
Proof. intros Hi. destruct c as [a i]. cbn in Hi. subst i. eexists. split; [reflexivity|]. cbn. by rewrite orb_false_r. Qed.

Lemma exec_sram bank c : c_ime c = false -> exists c', exec (sram_code bank) c = Some c' /\ c_ime c' = false
  /\ c' = MkCpu bank false (c_ramg c) (c_bank1 c) (c_bank2 c) bank
           (<[HRAM_LDH_CURRENT_SRAM_BANK := bank]> (c_hram c)) (c_exposed c).
Proof. intros Hi. destruct c as [a i]. cbn in Hi. subst i. eexists. split; [reflexivity|]. cbn. by rewrite orb_false_r. Qed.

Lemma exec_rom bank c : c_ime c = false -> exists c', exec (rom_code bank) c = Some c' /\ c_ime c' = false
  /\ c' = MkCpu (bank_hi bank) false (c_ramg c) (bank_lo bank) (bank_hi bank) (c_ramb c)
           (<[HRAM_LDH_CURRENT_ROM_BANK_HI := bank_hi bank]> (<[HRAM_LDH_CURRENT_ROM_BANK_LO := bank_lo bank]> (c_hram c)))
           (c_exposed c).
Proof. intros Hi. destruct c as [a i]. cbn in Hi. subst i. eexists. split; [reflexivity|]. cbn. by rewrite !orb_false_r. Qed.

(** ** The lowerer's belief and the machine *)

(** The shadows of the ROM bank start at zero while bank 1 is selected, and
    agree with the registers from the first bank switch on. *)
Record mirrors (st : BankingLoweringState) (c : Cpu) : Prop := {
  mi_rom : current_rom_bank st = Some (rom_selected c);
  mi_rom_shadow :
    (c_hram c !! HRAM_LDH_CURRENT_ROM_BANK_LO = Some (bank_lo (rom_selected c))
     /\ c_hram c !! HRAM_LDH_CURRENT_ROM_BANK_HI = Some (bank_hi (rom_selected c)))
    \/ (rom_selected c = 1 /\ c_hram c !! HRAM_LDH_CURRENT_ROM_BANK_LO = Some 0
        /\ c_hram c !! HRAM_LDH_CURRENT_ROM_BANK_HI = Some 0);
  mi_enabled : sram_enabled st = (c_ramg c =? MBC5_RAM_ENABLE_VALUE);
  mi_enabled_shadow : c_hram c !! HRAM_LDH_SRAM_ENABLED = Some (c_ramg c);
  mi_sram : forall b, current_sram_bank st = Some b ->
    c_ramb c = b /\ c_hram c !! HRAM_LDH_CURRENT_SRAM_BANK = Some b;
}.

Lemma mirrors_same st c c' : mirrors st c -> same_banking c c' -> mirrors st c'.
Proof.
  intros [Hr Hs He Hes Hb] (E1 & E2 & E3 & E4 & _ & Hh).
  constructor; unfold rom_selected in *; rewrite ?E1, ?E2, ?E3, ?E4, ?Hh by (rewrite !elem_of_cons; tauto); done.
Qed.

(** A check of every number below [n]. *)
Lemma forallb_seqZ f n a : 0 <= a < n -> forallb f (seqZ 0 n) = true -> f a = true.
Proof. intros Ha Hall. rewrite forallb_forall in Hall. apply Hall, list_elem_of_In, elem_of_seqZ. lia. Qed.

Lemma rom_bank_split bank : 0 <= bank <= MAX_ROM_BANK -> rom_bank_number (bank_lo bank) (bank_hi bank) = bank.
Proof.
  intros H. apply Z.eqb_eq. apply (forallb_seqZ (fun b => rom_bank_number (bank_lo b) (bank_hi b) =? b) 512).
  - unfold MAX_ROM_BANK in H. lia.
  - vm_compute. reflexivity.
Qed.

(** One step of the machine under a policy that ends in [st']. *)
Definition runs_to (policy : InterruptPolicy) (code : list Instr) (c : Cpu) (st' : BankingLoweringState) (c2 : Cpu) : Prop :=
  exec code c = Some c2 /\ ready policy c2 /\ c_exposed c2 = c_exposed c /\ mirrors st' c2.

Section runs.
Context (policy : InterruptPolicy) (st : BankingLoweringState) (c : Cpu).
Context (Hready : ready policy c) (Hm : mirrors st c).

Lemma runs_critical code c' st' :
  exec code (set_ime false c) = Some c' -> c_ime c' = false -> c_exposed c' = c_exposed c -> mirrors st' c' ->
  exists c2, runs_to policy (critical policy code) c st' c2 /\ same_banking c' c2.
Proof using Hready.
  intros He Hi Hx Hm'. destruct (exec_critical policy code c c' Hready He Hi) as (c2 & Hrun & Hr2 & Hsame).
  exists c2. split; [|done]. split_and!; [done | done | | by eapply mirrors_same].
  destruct Hsame as (_ & _ & _ & _ & -> & _). done.
Qed.

Ltac hram := cbn [c_hram]; repeat first [rewrite lookup_insert_eq | rewrite lookup_insert_ne by done]; try done.

Lemma run_rom bank leases : 1 <= bank <= MAX_ROM_BANK ->
  exists c2, runs_to policy (critical policy (rom_code bank)) c
      (MkBankingLoweringState (Some bank) (current_sram_bank st) (sram_enabled st) leases) c2
    /\ rom_selected c2 = bank.
Proof using Hready Hm.
  intros Hb. destruct (exec_rom bank (set_ime false c) eq_refl) as (c' & He & Hi & ->). destruct Hm as [Hr Hs Hen Hes Hsb].
  assert (Hsel : rom_bank_number (bank_lo bank) (bank_hi bank) = bank) by (apply rom_bank_split; lia).
  edestruct (runs_critical _ _ (MkBankingLoweringState (Some bank) (current_sram_bank st) (sram_enabled st) leases) He Hi eq_refl) as (c2 & Hrun & (E1 & E2 & E3 & _)); [|].
  - constructor; unfold rom_selected; cbn [c_bank1 c_bank2 c_ramg c_ramb current_rom_bank sram_enabled current_sram_bank];
      rewrite ?Hsel; [done | left; split; hram | exact Hen | hram |].
    intros b Hb'. destruct (Hsb b Hb') as [? ?]. split; [done | hram].
  - exists c2. split; [exact Hrun|]. unfold rom_selected. by rewrite E2, E3.
Qed.

Lemma run_enable leases :
  exists c2, runs_to policy (critical policy enable_code) c
      (MkBankingLoweringState (current_rom_bank st) (current_sram_bank st) true leases) c2.
Proof using Hready Hm.
  destruct (exec_enable (set_ime false c) eq_refl) as (c' & He & Hi & ->). destruct Hm as [Hr Hs Hen Hes Hsb].
  edestruct (runs_critical _ _ (MkBankingLoweringState (current_rom_bank st) (current_sram_bank st) true leases) He Hi eq_refl) as (c2 & Hrun & _); [| by exists c2].
  constructor; unfold rom_selected in *; cbn [c_bank1 c_bank2 c_ramg c_ramb set_ime current_rom_bank sram_enabled current_sram_bank];
    [exact Hr | hram | done | hram |].
  intros b Hb'. destruct (Hsb b Hb') as [? ?]. split; [done | hram].
Qed.

Lemma run_disable leases :
  exists c2, runs_to policy (critical policy disable_code) c
      (MkBankingLoweringState (current_rom_bank st) None false leases) c2.
Proof using Hready Hm.
  destruct (exec_disable (set_ime false c) eq_refl) as (c' & He & Hi & ->). destruct Hm as [Hr Hs Hen Hes Hsb].
  edestruct (runs_critical _ _ (MkBankingLoweringState (current_rom_bank st) None false leases) He Hi eq_refl) as (c2 & Hrun & _); [| by exists c2].
  constructor; unfold rom_selected in *; cbn [c_bank1 c_bank2 c_ramg c_ramb set_ime current_rom_bank sram_enabled current_sram_bank];
    [exact Hr | hram | done | hram | done].
Qed.

Lemma run_sram bank leases : sram_enabled st = true ->
  exists c2, runs_to policy (critical policy (sram_code bank)) c
      (MkBankingLoweringState (current_rom_bank st) (Some bank) true leases) c2
    /\ c_ramg c2 = MBC5_RAM_ENABLE_VALUE /\ c_ramb c2 = bank.
Proof using Hready Hm.
  intros Hon. destruct (exec_sram bank (set_ime false c) eq_refl) as (c' & He & Hi & ->). destruct Hm as [Hr Hs Hen Hes Hsb].
  rewrite Hon in Hen. symmetry in Hen. apply Z.eqb_eq in Hen.
  edestruct (runs_critical _ _ (MkBankingLoweringState (current_rom_bank st) (Some bank) true leases) He Hi eq_refl) as (c2 & Hrun & (E1 & _ & _ & E4 & _)); [|].
  - constructor; unfold rom_selected in *; cbn [c_bank1 c_bank2 c_ramg c_ramb set_ime current_rom_bank sram_enabled current_sram_bank];
      [exact Hr | hram | by rewrite Hen | hram |].
    intros b [= ->]. split; [done | hram].
  - exists c2. split; [exact Hrun|]. split; [by rewrite E1 | by rewrite E4].
Qed.
End runs.

(** ** One lowered operation *)

(** The leased bank is the one the hardware selects. *)
Definition holds_bank (spec : BankLeaseSpec) (c : Cpu) : Prop :=
  match spec_class spec with
  | Mbc_Rom => rom_selected c = spec_bank spec
  | Mbc_Sram => c_ramg c = MBC5_RAM_ENABLE_VALUE /\ c_ramb c = spec_bank spec
  end.

Definition lease_held (st : BankingLoweringState) (c : Cpu) : Prop :=
  active_leases st = ∅
  \/ exists lease, active_leases st = {[bl_id lease := lease]} /\ holds_bank (bl_spec lease) c.

(** The banks an operation names are unsigned. *)
Definition op_wf (op : PreLayoutOp) : Prop :=
  match op with
  | Op_BankLease spec => 0 <= spec_bank spec
  | Op_BankRelease _ return_to => return_wf return_to
  | Op_AssertBank _ expected_n => 0 <= expected_n
  | _ => True
  end.

(** A successful lowering with the machine state it leads to. *)
Definition lowered_to (l : BankingPreLayoutLowering) (code : list Instr) (c : Cpu) (st' : BankingLoweringState) : Prop :=
  exists c2, runs_to (bp_default_policy l) code c st' c2 /\ lease_held st' c2.

Lemma lease_lowered l spec ctx st c : lease_ok l spec ctx st -> ready (bp_default_policy l) c -> mirrors st c ->
  0 <= spec_bank spec -> lowered_to l (lease_code (bp_default_policy l) spec) c (lease_state st spec).
Proof.
  intros [_ _ Hb Hfree _] Hr Hm _. unfold lowered_to, lease_code, lease_state, lease_held, bank_in_range, holds_bank in *.
  set (lease := MkBankLease (spec_lease_id spec) spec (spec_lifetime spec)). rewrite Hfree.
  destruct (spec_class spec) eqn:Ecls.
  - destruct (run_rom _ st c Hr Hm (spec_bank spec) (<[spec_lease_id spec := lease]> ∅) Hb) as (c2 & Hrun & Hsel).
    exists c2. split; [exact Hrun|]. right. exists lease. split; [done|]. cbn [bl_spec lease]. by rewrite Ecls.
  - destruct (run_enable _ st c Hr Hm ∅) as (c1 & He1 & Hr1 & Hx1 & Hm1).
    destruct (run_sram _ _ c1 Hr1 Hm1 (spec_bank spec) (<[spec_lease_id spec := lease]> ∅) eq_refl)
      as (c2 & (He2 & Hr2 & Hx2 & Hm2) & Hg & Hsel).
    exists c2. split.
    + split_and!; [| done | by rewrite Hx2 | done]. rewrite exec_app, He1. exact He2.
    + right. exists lease. split; [done|]. cbn [bl_spec lease]. by rewrite Ecls.
Qed.

Lemma release_lowered l lease lease_id return_to ctx st c :
  release_ok l lease lease_id return_to ctx st -> ready (bp_default_policy l) c -> mirrors st c -> lease_held st c ->
  lowered_to l (release_code (bp_default_policy l) return_to) c (release_state st lease_id return_to).
Proof.
  intros [_ Hact Hret _] Hr Hm Hheld. unfold lowered_to, release_code, release_state.
  assert (Hnone : delete lease_id (active_leases st) = ∅).
  { destruct Hheld as [Hnil|(lease' & Hone & _)]; [by rewrite Hnil, delete_empty|].
    rewrite Hone in Hact |- *. apply lookup_singleton_Some in Hact as [<- _]. apply delete_singleton_eq. }
  rewrite Hnone. unfold return_ok in Hret.
  destruct (spec_class (bl_spec lease)), return_to as [|bank| |bank|]; try done.
  - destruct (run_rom _ st c Hr Hm 1 ∅) as (c2 & Hrun & _); [by unfold MAX_ROM_BANK|]. exists c2. split; [exact Hrun | by left].
  - destruct (run_rom _ st c Hr Hm bank ∅ Hret) as (c2 & Hrun & _). exists c2. split; [exact Hrun | by left].
  - destruct (run_disable _ st c Hr Hm ∅) as (c2 & Hrun). exists c2. split; [exact Hrun | by left].
  - destruct Hret as [_ He]. destruct (run_sram _ st c Hr Hm bank ∅ He) as (c2 & Hrun & _). exists c2.
    rewrite He. split; [exact Hrun | by left].
Qed.

Lemma banking_lower_Ok l op ctx st f st' : banking_lower l op ctx st = (Ok f, st') ->
  match op with
  | Op_BankLease spec => lower_bank_lease l spec ctx st = Ok (f, st')
  | Op_BankRelease lease_id return_to => lower_bank_release l lease_id return_to ctx st = Ok (f, st')
  | Op_AssertBank expected expected_n => lower_assert_bank l expected expected_n ctx st = Ok (f, st')
  | _ => False
  end.
Proof.
  unfold banking_lower, lower_with_state, disposition_of. intros H.
  destruct op; repeat case_match; simplify_eq; done.
Qed.

Lemma op_lowered l op ctx st f st' c : bp_assert_bank_policy l = Ass_LabelOnly -> op_wf op ->
  banking_lower l op ctx st = (Ok f, st') -> ready (bp_default_policy l) c -> mirrors st c -> lease_held st c ->
  lowered_to l (fragment_instrs f) c st'.
Proof.
  intros Hlab Hwf H%banking_lower_Ok Hr Hm Hheld. destruct op as [spec|lease_id return_to| | |expected n]; try done.
  - pose proof (lower_bank_lease_inv l spec ctx st _ Hwf H) as Hok. rewrite lower_bank_lease_ok in H by done.
    injection H as <- <-. rewrite code_fragment_instrs. by eapply lease_lowered.
  - destruct (lower_bank_release_inv l lease_id return_to ctx st _ Hwf H) as [lease Hok].
    rewrite (lower_bank_release_ok _ _ _ _ _ _ Hok) in H. injection H as <- <-. rewrite code_fragment_instrs.
    by eapply release_lowered.
  - rewrite lower_assert_bank_ok in H by congruence. injection H as <- <-. rewrite assert_fragment_instrs, Hlab.
    exists c. split; [split_and!; done | done].
Qed.

(** ** All reachable states *)

(** Power-on registers, and the zeroed shadows of the boot code. *)
Definition booted (c : Cpu) : Prop :=
  c_bank1 c = 1 /\ c_bank2 c = 0 /\ c_ramg c = 0 /\ c_exposed c = false
  /\ Forall (fun o => c_hram c !! o = Some 0)
       [HRAM_LDH_CURRENT_ROM_BANK_LO; HRAM_LDH_CURRENT_ROM_BANK_HI; HRAM_LDH_CURRENT_SRAM_BANK; HRAM_LDH_SRAM_ENABLED].

Inductive bank_reachable (l : BankingPreLayoutLowering) : BankingLoweringState -> Cpu -> Prop :=
| bank_boot c : booted c -> ready (bp_default_policy l) c -> bank_reachable l BankingLoweringState_default c
| bank_op st c op ctx f st' c' : bank_reachable l st c -> op_wf op -> banking_lower l op ctx st = (Ok f, st') ->
    exec (fragment_instrs f) c = Some c' -> bank_reachable l st' c'
| bank_other st c c' : bank_reachable l st c -> same_banking c c' -> ready (bp_default_policy l) c' ->
    bank_reachable l st c'.

Definition bank_inv (l : BankingPreLayoutLowering) (st : BankingLoweringState) (c : Cpu) : Prop :=
  ready (bp_default_policy l) c /\ c_exposed c = false /\ mirrors st c /\ lease_held st c.

Lemma holds_bank_same spec c c' : same_banking c c' -> holds_bank spec c -> holds_bank spec c'.
Proof.
  intros (E1 & E2 & E3 & E4 & _) H. unfold holds_bank, rom_selected in *.
  destruct (spec_class spec); rewrite ?E1, ?E2, ?E3, ?E4; done.
Qed.

Lemma booted_inv l c : booted c -> ready (bp_default_policy l) c -> bank_inv l BankingLoweringState_default c.
Proof.
  intros (E1 & E2 & E3 & Hx & Hz) Hr. apply Forall_cons in Hz as [Z1 Hz]. apply Forall_cons in Hz as [Z2 Hz].
  apply Forall_cons in Hz as [Z3 Hz]. apply Forall_cons in Hz as [Z4 _].
  assert (Hsel : rom_selected c = 1) by (unfold rom_selected; by rewrite E1, E2).
  split_and!; [done | done | | by left]. constructor; rewrite ?Hsel, ?E3; auto. done.
Qed.

Lemma bank_reachable_inv l st c : bp_assert_bank_policy l = Ass_LabelOnly -> bank_reachable l st c -> bank_inv l st c.
Proof.
  intros Hlab. induction 1 as [c Hb Hr|st c op ctx f st' c' _ (Hr & Hx & Hm & Hh) Hwf Hl He|st c c' _ (Hr & Hx & Hm & Hh) Hs Hr'].
  - by apply booted_inv.
  - destruct (op_lowered l op ctx st f st' c Hlab Hwf Hl Hr Hm Hh) as (c2 & (He2 & Hr2 & Hx2 & Hm2) & Hh2).
    rewrite He in He2. injection He2 as <-. split_and!; try done. by rewrite Hx2.
  - split_and!; [done | | by eapply mirrors_same |].
    + destruct Hs as (_ & _ & _ & _ & -> & _). done.
    + destruct Hh as [Hn|(lease & Hone & Hb)]; [by left | right]. exists lease. split; [done | by eapply holds_bank_same].
Qed.

(** ** Properties *)


(** A session: lease ROM bank 259, release it to bank 2, lease SRAM bank 3. *)
Definition session_lowerer : BankingPreLayoutLowering := fst (fst (Banking_default 7)).
Definition session_ctx : LoweringContext :=
  MkLoweringContext (SectionId_new 1) Role_Bank0Nucleus SectionPrivilege_privileged (InstrProvenance_new Stage_Backend) SymbolTable_new.
Definition session_ops : list PreLayoutOp :=
  [Op_BankLease (MkBankLeaseSpec (LeaseId_new 0) (MkLeaseGeneration 0) Mbc_Rom 259 Life_Slice);
   Op_AssertBank Mbc_Rom 259;
   Op_BankRelease (LeaseId_new 0) (Rel_RomManual 2);
   Op_BankLease (MkBankLeaseSpec (LeaseId_new 1) (MkLeaseGeneration 1) Mbc_Sram 3 Life_Slice)].

Fixpoint run_session (l : BankingPreLayoutLowering) (ctx : LoweringContext) (ops : list PreLayoutOp)
    (st : BankingLoweringState) (c : Cpu) : option (BankingLoweringState * Cpu) :=
  match ops with
  | [] => Some (st, c)
  | op :: ops' =>
      match banking_lower l op ctx st with
      | (Ok f, st') => c' ← exec (fragment_instrs f) c; run_session l ctx ops' st' c'
      | _ => None
      end
  end.

Lemma run_session_reachable l ctx ops st c st' c' : Forall op_wf ops -> bank_reachable l st c ->
  run_session l ctx ops st c = Some (st', c') -> bank_reachable l st' c'.
Proof.
  intros Hwf. revert st c. induction Hwf as [|op ops Hop _ IH]; intros st c Hr H; cbn [run_session] in H; [by injection H as <- <-|].
  destruct (banking_lower l op ctx st) as [[f|e| |] st1] eqn:Hl; try done.
  destruct (exec (fragment_instrs f) c) as [c1|] eqn:He; [|done]. by eapply IH; [eapply bank_op | exact H].
Qed.

Definition boot_cpu : Cpu :=
  MkCpu 0 true 0 1 0 0 (list_to_map [(0x80, 0); (0x81, 0); (0x82, 0); (0x83, 0)]) false.

Lemma boot_cpu_booted : booted boot_cpu.
Proof. repeat split. repeat (constructor; [reflexivity|]). constructor. Qed.

