(* ===== verification/BankAuditFacts.v ===== *)
(** * The provenance audit of lowered banking code

    The audit accepts what the lowerer produced exactly when no authored
    instruction writes an MBC register; the token that marks the lowerer's
    instructions identifies one lowerer. *)

From S2P Require Import Prelude Numeric Hw Isa IsaCodec Names SectionIr Effect SectionOps Builder SymTable Lowering Banking BankingFacts BankMachine.

(** ** Trust tokens *)

Lemma hex_digit_inj a b : 0 <= a < 16 -> 0 <= b < 16 -> hex_digit_lower a = hex_digit_lower b -> a = b.
Proof.
  intros Ha Hb H. set (f := fun x y => implb (Ascii.eqb (hex_digit_lower x) (hex_digit_lower y)) (x =? y)).
  assert (Hall : forallb (fun x => forallb (f x) (seqZ 0 16)) (seqZ 0 16) = true) by (vm_compute; reflexivity).
  apply (forallb_seqZ _ 16 a Ha) in Hall. apply (forallb_seqZ _ 16 b Hb) in Hall. unfold f in Hall.
  rewrite H, Ascii.eqb_refl in Hall. by apply Z.eqb_eq in Hall.
Qed.

Lemma string_snoc_inj s1 s2 a b : s1 +:+ String a "" = s2 +:+ String b "" -> s1 = s2 /\ a = b.
Proof.
  revert s2. induction s1 as [|c s1 IH]; intros [|d s2] H; cbn in H.
  - by injection H as ->.
  - injection H as -> H. by destruct s2.
  - injection H as -> H. by destruct s1.
  - injection H as -> H. apply IH in H as [-> ->]. done.
Qed.

Lemma hex_lower_inj n a b : 0 <= a < 16 ^ Z.of_nat n -> 0 <= b < 16 ^ Z.of_nat n -> hex_lower n a = hex_lower n b -> a = b.
Proof.
  revert a b. induction n as [|n IH]; intros a b Ha Hb H; [change (16 ^ Z.of_nat 0) with 1 in *; lia|].
  rewrite Nat2Z.inj_succ, Z.pow_succ_r in Ha, Hb by lia. cbn [hex_lower] in H. apply string_snoc_inj in H as [Hhi Hlo].
  apply hex_digit_inj in Hlo; [|by apply Z.mod_pos_bound..].
  assert (Hq : a / 16 = b / 16).
  { apply IH; [| |done]; (split; [apply Z.div_pos; lia | apply Z.div_lt_upper_bound; lia]). }
  rewrite (Z.div_mod a 16), (Z.div_mod b 16) by done. by rewrite Hq, Hlo.
Qed.

Lemma token_note_inj t1 t2 : 0 <= token_0 t1 < 2 ^ 64 -> 0 <= token_0 t2 < 2 ^ 64 ->
  token_note t1 = token_note t2 -> t1 = t2.
Proof.
  intros H1 H2 H. unfold token_note in H. apply (inj (String.append _)) in H. apply (inj (String.append _)) in H.
  destruct t1 as [a], t2 as [b]. f_equal. by eapply (hex_lower_inj 16).
Qed.

(** ** What a fragment holds *)

Definition trusted (l : BankingPreLayoutLowering) (p : InstrProvenance) : bool := is_trusted_banking_op p (bp_trust_token l).

Lemma banking_provenance_is_trusted l p : trusted l (banking_provenance p (bp_trust_token l)) = true.
Proof. unfold trusted, is_trusted_banking_op. by rewrite !bool_decide_true. Qed.

(** Every instruction of a fragment is marked; a bank register is written only
    where the context allows it. *)
Lemma lowered_fragment_marked l op ctx st f st' : op_wf op -> banking_lower l op ctx st = (Ok f, st') ->
  forall i, i ∈ frag_instrs f -> trusted l (frag_prov i) = true
    /\ (is_mbc_store (frag_data i) = true -> check_ctx l ctx = Ok tt).
Proof.
  intros Hwf H%banking_lower_Ok i Hi.
  assert (Hcode : forall p code n, i ∈ imap (fun k x => FragmentItem_new_with_sub_index x (n + Z.of_nat k) p) code ->
    frag_prov i = p /\ frag_data i ∈ code).
  { intros p code n (k & Hk)%list_elem_of_lookup. rewrite list_lookup_imap in Hk.
    apply fmap_Some in Hk as (x & Hx & ->). split; [done | by eapply list_elem_of_lookup_2]. }
  destruct op as [spec|lease_id return_to| | |expected n]; try done.
  - pose proof (lower_bank_lease_inv l spec ctx st _ Hwf H) as Hok. rewrite lower_bank_lease_ok in H by done.
    injection H as <- _. apply (Hcode _ _ 0) in Hi as [-> _]. split; [apply banking_provenance_is_trusted | by destruct Hok].
  - destruct (lower_bank_release_inv l lease_id return_to ctx st _ Hwf H) as [lease Hok].
    rewrite (lower_bank_release_ok _ _ _ _ _ _ Hok) in H. injection H as <- _.
    apply (Hcode _ _ 0) in Hi as [-> _]. split; [apply banking_provenance_is_trusted | by destruct Hok].
  - pose proof (lower_assert_bank_inv l expected n ctx st _ Hwf H) as Hb. rewrite lower_assert_bank_ok in H by done.
    injection H as <- _. apply (Hcode _ _ 1) in Hi as [-> Hi].
    split; [apply banking_provenance_is_trusted|]. by rewrite (assert_code_stores_nothing _ _ _ _ Hi).
Qed.

(** ** Lowered sections *)

Definition no_mbc_stores (s : AsmSection) : Prop := Forall (fun o => is_mbc_store (item_data o) = false) (sec_instrs s).
(** No authored instruction carries the note of this lowerer; it may carry any
    other provenance, the banking source operation included. *)
Definition untrusted_section (l : BankingPreLayoutLowering) (s : AsmSection) : Prop :=
  Forall (fun o => prov_note (item_prov o) <> Some (token_note (bp_trust_token l))) (sec_instrs s).
Definition section_ops_wf (s : AsmSection) : Prop := Forall (fun o => op_wf (item_data o)) (sec_pre_layout_ops s).

(** The check the lowerer and the audit share, for a section whose residency
    follows its role. *)
Definition section_legal (l : BankingPreLayoutLowering) (s : AsmSection) : outcome BankAbiViolation unit :=
  check_lease_emission_legal_parts (sec_id s) (sec_privilege s) (safety_or_default (bp_safety_table l) (sec_id s))
    (from_section_role (sec_role s)).

Lemma check_ctx_legal l s symbols op : bp_residency_table l = ∅ ->
  check_ctx l (lowering_context s symbols op) = Ok tt -> section_legal l s = Ok tt.
Proof.
  intros Hres H. unfold check_ctx in H. cbn [lowering_context ctx_source_section_id ctx_source_section_role ctx_source_section_privilege] in H.
  rewrite Hres, lookup_empty in H. cbn [default] in H. fold (section_legal l s) in H. destruct (section_legal l s) as [[]|e| |]; done.
Qed.

(** An instruction of a lowered section: authored, or marked and legal. *)
Definition lowered_item (l : BankingPreLayoutLowering) (s : AsmSection) (o : OrderedItem Instr) : Prop :=
  o ∈ sec_instrs s \/ (trusted l (item_prov o) = true /\ (is_mbc_store (item_data o) = true -> section_legal l s = Ok tt)).

Lemma banking_lower_one_items l symbols st s low st' : bp_residency_table l = ∅ -> section_ops_wf s ->
  banking_lower_one l symbols st s = Ok (low, st') ->
  low_id low = sec_id s /\ low_privilege low = sec_privilege s /\ low_role low = sec_role s
  /\ (forall o, o ∈ sec_instrs s -> o ∈ low_instrs low) /\ (forall o, o ∈ low_instrs low -> lowered_item l s o).
Proof.
  intros Hres Hwf H. unfold banking_lower_one in H. apply obind_Ok in H as ([a st1] & Hf & H). injection H as <- _.
  apply (ofold_inv' (fun ast => (forall o, o ∈ sec_instrs s -> o ∈ la_instrs ast.1)
                                /\ (forall o, o ∈ la_instrs ast.1 -> lowered_item l s o))) in Hf; [by destruct Hf| |].
  - split; [done|]. intros o Ho. by left.
  - intros op [a1 st2] [a2 st3] Hin [Hkeep Hitem] Hstep. unfold banking_lower_op in Hstep.
    destruct (banking_lower l (item_data op) (lowering_context s symbols op) st2) as [r st4] eqn:Hlow.
    apply obind_Ok in Hstep as (f & -> & Hstep). apply obind_Ok in Hstep as ([] & _ & Hstep). injection Hstep as <- <-.
    assert (Hop : op_wf (item_data op)).
    { unfold section_ops_wf in Hwf. rewrite Forall_forall in Hwf. by apply Hwf, list_elem_of_In. }
    cbn [fst merge_fragment la_instrs] in *. split; [intros o Ho; apply elem_of_app; left; auto|].
    intros o [Ho|(i & -> & Hi)%list_elem_of_fmap]%elem_of_app; [auto | right].
    destruct (lowered_fragment_marked _ _ _ _ _ _ Hop Hlow i Hi) as [Htr Hst]. split; [exact Htr|].
    intros Hm. eapply check_ctx_legal; [done | by apply Hst].
Qed.

Lemma omap_acc_Forall2 {E A B S} (R : A -> B -> Prop) (f : S -> A -> outcome E (B * S)) xs :
  (forall s x y s', x ∈ xs -> f s x = Ok (y, s') -> R x y) ->
  forall s ys s', omap_acc f s xs = Ok (ys, s') -> Forall2 R xs ys.
Proof.
  induction xs as [|x xs IH]; intros HR s ys s' H; cbn [omap_acc] in H; [injection H as <- _; constructor|].
  apply obind_Ok in H as ([y s1] & Hy & H). apply obind_Ok in H as ([ys1 s2] & Hys & H). injection H as <- _.
  constructor; [eapply HR; [by left | exact Hy]|]. eapply IH; [|exact Hys]. intros. eapply HR; [by right | done].
Qed.

Lemma ofold_unit_all {E A} (f : A -> outcome E unit) l :
  (forall x, x ∈ l -> f x = Ok tt) -> ofold (fun _ x => f x) tt l = Ok tt.
Proof.
  induction l as [|x l IH]; intros H; [done|]. cbn [ofold]. rewrite H by left. apply IH. intros y Hy. apply H. by right.
Qed.

Lemma audit_all t l lows : mbc_write_provenance_audit lows t l = Ok tt <->
  forall low, low ∈ lows -> forall o, o ∈ low_instrs low -> audit_item t l low o = Ok tt.
Proof.
  unfold mbc_write_provenance_audit. split.
  - intros H low Hlow o Ho.
    pose proof (ofold_unit_Ok (fun s => ofold (fun _ item => audit_item t l s item) tt (low_instrs s)) _ _ _ H low Hlow) as Hs.
    exact (ofold_unit_Ok (audit_item t l low) _ _ _ Hs o Ho).
  - intros H. apply (ofold_unit_all (fun s => ofold (fun _ item => audit_item t l s item) tt (low_instrs s))).
    intros low Hlow. apply ofold_unit_all. by apply H.
Qed.


(** One section with a lease and its release, and one with an authored write. *)
Definition audited_ops : list (OrderedItem PreLayoutOp) :=
  [OrderedItem_new (Op_BankLease (MkBankLeaseSpec (LeaseId_new 0) (MkLeaseGeneration 0) Mbc_Rom 5 Life_Slice)) 0 (InstrProvenance_new Stage_Backend);
   OrderedItem_new (Op_BankRelease (LeaseId_new 0) Rel_RomBank1) 2 (InstrProvenance_new Stage_Backend)].
Definition audited_section (instrs : list Instr) : AsmSection :=
  MkSection (SectionId_new 1) Role_Bank0Nucleus (MkSymbolName "main") None SectionPrivilege_privileged 1 None 3 []
    (map (fun i => OrderedItem_new i 1 (InstrProvenance_new Stage_Backend)) instrs) [] [] audited_ops [] [].
Definition authored_write : Instr := I_LdDirectFromA (MkDirectAddr MBC5_RAMG_BASE).


(** ** The compare-and-trap assertion *)

(** A fetch by byte offset, and the instructions of an assertion over the
    shadows; [Some] is the restart vector reached. *)
Fixpoint fetch (ii : list Instr) (pc : Z) : option Instr :=
  match ii with [] => None | i :: ii' => if pc =? 0 then Some i else fetch ii' (pc - Instr_byte_len i) end.

(** The zero flag after [CP]. *)
Definition compare (a n : Z) : bool := a =? n.

Fixpoint assert_run (fuel : nat) (ii : list Instr) (shadow : Z -> Z) (pc a : Z) (zero : bool) : option RstVector :=
  match fuel with
  | O => None
  | S fuel' =>
      match fetch ii pc with
      | Some (I_LdAFromHighDirect o) => assert_run fuel' ii shadow (pc + 2) (shadow (HighDirectOffset_get o)) zero
      | Some (I_CpA (Alu_Imm n)) => assert_run fuel' ii shadow (pc + 2) a (compare a n)
      | Some (I_JrRel (Some Cond_NZ) off) => assert_run fuel' ii shadow (pc + 2 + (if zero then 0 else off)) a zero
      | Some (I_Rst vector) => Some vector
      | _ => None
      end
  end.

(** the compare-and-trap assertion traps whatever the shadows hold, the
    asserted bank included: every branch of the comparison leads to the
    [RST $38] at the end. *)
Theorem compare_and_trap_always_traps (l : BankingPreLayoutLowering) (expected : MbcBankClass) (expected_n : Z)
    (ctx : LoweringContext) (st st' : BankingLoweringState) (f : LoweredFragment) (shadow : Z -> Z) (a : Z) (zero : bool)
    (Hpol : bp_assert_bank_policy l = Ass_CompareAndTrap) (Hn : 0 <= expected_n)
    (Hlow : lower_assert_bank l expected expected_n ctx st = Ok (f, st')) :
  assert_run 7 (fragment_instrs f) shadow 0 a zero = Some Rst_V38.
Proof.
  pose proof (lower_assert_bank_inv l expected expected_n ctx st _ Hn Hlow) as Hb.
  rewrite lower_assert_bank_ok in Hlow by done. injection Hlow as <- _. rewrite assert_fragment_instrs, Hpol.
  clear. unfold assert_code. generalize (bank_lo expected_n) (bank_hi expected_n) (wrap U8 expected_n). intros lo hi n.
  destruct expected.
  - cbv -[compare]. destruct (compare _ lo); [|done]. by destruct (compare _ hi).
  - cbv -[compare]. by destruct (compare _ n).
Qed.

Lemma compare_and_trap_always_traps_witness :
  match lower_assert_bank (with_assert_bank_policy Ass_CompareAndTrap session_lowerer) Mbc_Rom 259 session_ctx
          BankingLoweringState_default with
  | Ok (f, _) => assert_run 7 (fragment_instrs f) (fun o => if o =? 0x80 then 3 else 1) 0 0 false = Some Rst_V38
  | _ => False
  end.
Proof.
  destruct (lower_assert_bank _ _ _ _ _) as [[f st]|e| |] eqn:E; try (vm_compute in E; discriminate E).
  eapply compare_and_trap_always_traps; [| |exact E]; [reflexivity | lia].
Defined.
