(* ===== verification/BankAbiFacts.v ===== *)
(** * The lease ABI on a section builder

    A lease taken through the ABI can be released once, with a return state of
    its class, and leaves the builder without active leases; while it is held
    no other lease can be taken; afterwards its guard is stale. *)

From S2P Require Import Prelude Numeric Hw Isa IsaCodec Names SectionIr Effect SectionOps Builder SymTable Lowering Banking BankingFacts BankMachine.

(** The section after an op was appended to it. *)
Definition appended (op : PreLayoutOp) (p : InstrProvenance) (s : AsmSection) : AsmSection :=
  set_sec_pre_layout_ops (sec_pre_layout_ops s ++ [OrderedItem_new op (sec_next_seq_index s) p])
    (set_sec_next_seq_index (sec_next_seq_index s + 1) s).

Lemma push_op_Ok {E} op p s s' : @push E s (Emit_pre_layout_op op, p) = Ok s' -> s' = appended op p s.
Proof.
  unfold push, push_pre_layout_op, next_seq, checked_add. destruct (_ <? _); [|done]. cbn [expect obind].
  intros [= <-]. done.
Qed.

Lemma push_op_fits {E} op p s : sec_next_seq_index s + 1 < U32 -> @push E s (Emit_pre_layout_op op, p) = Ok (appended op p s).
Proof.
  intros H. unfold push, push_pre_layout_op, next_seq, checked_add. rewrite (proj2 (Z.ltb_lt _ _)) by lia. done.
Qed.

Lemma via_Ok {E F A} (f : E -> F) (m : EM E A) b a b' : via f m b = (Ok a, b') -> m b = (Ok a, b').
Proof. unfold via. destruct (m b) as [[x|e| |] b1]; intros [=]; by subst. Qed.

Lemma with_provenance_Ok {E A} p (m : EM E A) b a b' : with_provenance p m b = (Ok a, b') ->
  exists b1, m (set_b_cur_provenance p b) = (Ok a, b1) /\ b' = set_b_cur_provenance (b_cur_provenance b) b1.
Proof.
  unfold with_provenance. destruct (m (set_b_cur_provenance p b)) as [r b1]. intros [= -> <-]. by exists b1.
Qed.

(** A successful lease on the builder. *)
Lemma try_bank_lease_inv' lease b b' : try_bank_lease lease b = (Ok tt, b') ->
  guard_interrupt_vector_payload b = (Ok tt, b)
  /\ permits_effect (sec_privilege (b_section b)) (E_SystemCall Sys_BankLease) = true
  /\ b' = set_b_section (appended (Op_BankLease lease) (b_cur_provenance b) (b_section b))
            (set_b_active_leases (<[spec_lease_id lease := lease]> (b_active_leases b)) b).
Proof.
  unfold try_bank_lease. intros ([] & b1 & Hg & H)%bbind_Ok.
  assert (b1 = b) as ->. { unfold guard_interrupt_vector_payload in Hg. bm_ok. done. }
  unfold pre_layout_op_unchecked in H. bm_ok. apply push_op_Ok in H as ->. split_and!; done.
Qed.

(** What a system call of one kind may do, one of another kind may. *)
Lemma permits_system_call p k1 k2 : permits_effect p (E_SystemCall k1) = true -> permits_effect p (E_SystemCall k2) = true.
Proof. done. Qed.

(** ** Taking a lease *)

Record lease_taken (spec : ValidatedBankLeaseSpec) (b : Builder) (guard : BankGuard) (b1 : Builder) : Prop := {
  lt_none : b_active_leases b = ∅;
  lt_guard : bg_class guard = vs_class spec /\ bg_bank guard = vs_bank spec /\ bg_lifetime guard = vs_lifetime spec
             /\ bg_source_section_id guard = sec_id (b_section b);
  lt_active : b_active_leases b1 = {[bg_lease_id guard :=
    MkBankLeaseSpec (bg_lease_id guard) (bg_generation guard) (vs_class spec) (vs_bank spec) (vs_lifetime spec)]};
  lt_section : b_section b1 = appended
    (Op_BankLease (MkBankLeaseSpec (bg_lease_id guard) (bg_generation guard) (vs_class spec) (vs_bank spec) (vs_lifetime spec)))
    (untrusted_banking_provenance (b_cur_provenance b)) (b_section b);
  lt_unsealed : guard_interrupt_vector_payload b1 = (Ok tt, b1);
  lt_permits : permits_effect (sec_privilege (b_section b1)) (E_SystemCall Sys_BankRelease) = true;
}.

Lemma first_active_None b : first_active_lease_id b = None -> b_active_leases b = ∅.
Proof.
  unfold first_active_lease_id, active_lease_ids. set (l := map fst (map_to_list (b_active_leases b))).
  pose proof (sort_by_perm lease_leb l) as Hperm. destruct (sort_by lease_leb l); [intros _ | by intros [=]].
  apply Permutation_nil in Hperm. by apply map_eq_nil, map_to_list_empty_iff in Hperm.
Qed.

Lemma to_pre_layout_spec_Ok spec id generation pre : to_pre_layout_spec spec id generation = Ok pre ->
  pre = MkBankLeaseSpec id generation (vs_class spec) (vs_bank spec) (vs_lifetime spec).
Proof.
  unfold to_pre_layout_spec, BankLeaseSpec_new. intros H.
  destruct (vs_class spec); cbn in H; unfold guard_err in H; case_match; cbn in H; congruence.
Qed.

Lemma guard_payload_same_section b b1 :
  sec_role (b_section b1) = sec_role (b_section b) -> sec_interrupt_vector (b_section b1) = sec_interrupt_vector (b_section b) ->
  guard_interrupt_vector_payload b = (Ok tt, b) -> guard_interrupt_vector_payload b1 = (Ok tt, b1).
Proof.
  intros E1 E2 H. unfold guard_interrupt_vector_payload, bbind, bget, bguard in *. rewrite E1, E2.
  by destruct (_ && _).
Qed.

Lemma lease_bank_inv counter spec b guard counter' b1 :
  lease_bank counter spec b = (Ok (guard, counter'), b1) -> lease_taken spec b guard b1.
Proof.
  unfold lease_bank. intros (id & b2 & Hid%via_Ok & H)%bbind_Ok_inv.
  apply allocate_lease_loop_inv in Hid as [n ->]. destruct (next_lease_generation counter) as [generation counter2].
  apply bbind_Ok_inv in H as (first & b3 & [= <- <-] & H).
  apply bbind_Ok_inv in H as ([] & b4 & Hfirst%via_Ok & H).
  destruct (first_active_lease_id _) eqn:Hnone in Hfirst; [done|]. injection Hfirst as <-. apply first_active_None in Hnone.
  apply bbind_Ok_inv in H as (pre & b5 & Hpre%via_Ok & H). unfold abi, bout in Hpre.
  destruct (to_pre_layout_spec spec id generation) as [pre'|e| |] eqn:Hspec; try done. injection Hpre as -> <-.
  apply to_pre_layout_spec_Ok in Hspec as ->.
  apply bbind_Ok_inv in H as ([] & b6 & Hlease%via_Ok & H). unfold with_untrusted in Hlease.
  apply with_provenance_Ok in Hlease as (b7 & Hlease%via_Ok & ->).
  apply try_bank_lease_inv' in Hlease as (Hg & Hperm & ->).
  apply bbind_Ok_inv in H as (section & b8 & [= <- <-] & H). injection H as <- <- <-.
  cbn in Hnone. constructor; [done | done | cbn; by rewrite Hnone | done | | exact Hperm].
  by eapply guard_payload_same_section; [| |exact Hg].
Qed.

Lemma first_active_singleton b id spec : b_active_leases b = {[id := spec]} -> first_active_lease_id b = Some id.
Proof. intros H. unfold first_active_lease_id, active_lease_ids. by rewrite H, map_to_list_singleton. Qed.

(** ** Releasing it *)

Definition after_release (id : LeaseId) (d : BankReleaseDisposition) (b : Builder) : Builder :=
  set_b_section (appended (Op_BankRelease id d) (untrusted_banking_provenance (b_cur_provenance b)) (b_section b))
    (set_b_active_leases (delete id (b_active_leases b)) b).

Lemma try_bank_release_to_Ok id d p b spec :
  guard_interrupt_vector_payload b = (Ok tt, b) ->
  permits_effect (sec_privilege (b_section b)) (E_SystemCall Sys_BankRelease) = true ->
  b_active_leases b !! id = Some spec -> sec_next_seq_index (b_section b) + 1 < U32 ->
  with_provenance p (try_bank_release_to id d) b
  = (Ok tt, set_b_section (appended (Op_BankRelease id d) p (b_section b))
              (set_b_active_leases (delete id (b_active_leases b)) b)).
Proof.
  intros Hg Hperm Hact Hseq. unfold with_provenance, try_bank_release_to.
  erewrite bbind_step by (eapply (guard_payload_same_section b); [done | done | exact Hg]).
  erewrite bbind_step by (apply (validate_effect_Ok _ _ tt); split; [exact Hperm | done]).
  erewrite bbind_step by reflexivity. cbn [set_b_cur_provenance b_active_leases]. rewrite Hact.
  erewrite bbind_step by reflexivity. erewrite bbind_step by reflexivity.
  unfold pre_layout_op_unchecked, bpush. cbn [set_b_active_leases set_b_cur_provenance b_section b_cur_provenance].
  rewrite push_op_fits by done. done.
Qed.

Lemma release_bank_ok counter spec b guard counter' b1 r d :
  lease_bank counter spec b = (Ok (guard, counter'), b1) ->
  validate_return_state_class (vs_class spec) r = Ok tt -> disposition r = Ok d ->
  sec_next_seq_index (b_section b1) + 1 < U32 ->
  release_bank guard r b1 = (Ok tt, after_release (bg_lease_id guard) d b1).
Proof.
  intros Hl Hret Hd Hseq. destruct (lease_bank_inv _ _ _ _ _ _ Hl) as [_ (Ec & Eb & El & Es) Hact Hsec Hg Hperm].
  unfold release_bank. rewrite Ec, Hret. erewrite bbind_step by reflexivity.
  assert (Hv : validate_guard_matches_builder guard b1 = (Ok tt, b1)).
  { unfold validate_guard_matches_builder. erewrite bbind_step by reflexivity. unfold active_lease_spec.
    rewrite Hact, lookup_singleton_eq. erewrite bbind_step by reflexivity. rewrite Hsec.
    cbn [appended set_sec_pre_layout_ops set_sec_next_seq_index sec_id spec_generation spec_class spec_bank spec_lifetime].
    rewrite Ec, Eb, El, Es, !bool_decide_true, Z.eqb_refl by done. done. }
  erewrite bbind_step by exact Hv. rewrite Hd. erewrite bbind_step by reflexivity. unfold via, with_untrusted.
  rewrite (try_bank_release_to_Ok _ _ _ b1 (MkBankLeaseSpec (bg_lease_id guard) (bg_generation guard) (vs_class spec) (vs_bank spec) (vs_lifetime spec)));
    [done | done | done | by rewrite Hact, lookup_singleton_eq | done].
Qed.

Lemma release_stale guard r d b : validate_return_state_class (bg_class guard) r = Ok tt -> disposition r = Ok d ->
  b_active_leases b !! bg_lease_id guard = None ->
  release_bank guard r b = (Err (Be_Abi (Ba_StaleBankGuard (bg_lease_id guard))), b).
Proof.
  intros Hret Hd Hnone. unfold release_bank. rewrite Hret. erewrite bbind_step by reflexivity.
  unfold validate_guard_matches_builder, bbind at 1. unfold bbind at 1, bget at 1, active_lease_spec at 1. by rewrite Hnone.
Qed.

(** ** Properties *)

Lemma lease_bank_nested counter spec b id other : first_active_lease_id b = Some id ->
  0 <= b_next_lease_id b < 4294967296 -> Z.of_nat (size (b_active_leases b)) < 4294967296 ->
  b_active_leases b !! id = Some other ->
  exists id' n, lease_bank counter spec b
    = (Err (Be_Abi (Ba_NestedLeaseNotSupported (vs_class spec) id id'), wrap U32 (counter + 1)), set_b_next_lease_id n b)
    /\ id' <> id.
Proof.
  intros Hf Hn Hs Hid.
  destruct (allocate_lease_loop_spec (S (size (b_active_leases b))) b Hn) as [(id' & n & Ha & Hfresh & _)|Hall];
    [|apply probes_bounded in Hall; lia].
  exists id', n. split; [|congruence]. unfold lease_bank.
  erewrite bbind_step by (unfold via, allocate_lease_id; rewrite Ha; reflexivity). cbn [next_lease_generation].
  erewrite bbind_step by reflexivity.
  assert (Hf' : first_active_lease_id (set_b_next_lease_id n b) = Some id) by exact Hf. rewrite Hf'. done.
Qed.

(** a lease taken through the ABI is released exactly once.  While it is held
    a second lease is refused and leaves the section and the leases alone;
    releasing it with a return state of its class that passes validation
    succeeds, records the lease and its release in order under the banking
    provenance, and leaves no active lease; releasing it again is refused as
    stale and changes nothing. *)
Theorem lease_released_exactly_once (counter counter' : Z) (spec : ValidatedBankLeaseSpec) (b b1 : Builder) (guard : BankGuard)
    (r : ReturnState) (d : BankReleaseDisposition)
    (Hids : 0 <= b_next_lease_id b1 < 4294967296)
    (Hlease : lease_bank counter spec b = (Ok (guard, counter'), b1))
    (Hclass : validate_return_state_class (vs_class spec) r = Ok tt) (Hd : disposition r = Ok d)
    (Hroom : sec_next_seq_index (b_section b1) + 1 < U32) :
  (forall spec2, exists id2 n, lease_bank counter' spec2 b1
     = (Err (Be_Abi (Ba_NestedLeaseNotSupported (vs_class spec2) (bg_lease_id guard) id2), wrap U32 (counter' + 1)),
        set_b_next_lease_id n b1))
  /\ exists b2, release_bank guard r b1 = (Ok tt, b2)
       /\ b_active_leases b = ∅ /\ b_active_leases b2 = ∅
       /\ map item_data (sec_pre_layout_ops (b_section b2))
          = map item_data (sec_pre_layout_ops (b_section b))
            ++ [Op_BankLease (MkBankLeaseSpec (bg_lease_id guard) (bg_generation guard) (vs_class spec) (vs_bank spec) (vs_lifetime spec));
                Op_BankRelease (bg_lease_id guard) d]
       /\ release_bank guard r b2 = (Err (Be_Abi (Ba_StaleBankGuard (bg_lease_id guard))), b2).
Proof.
  destruct (lease_bank_inv _ _ _ _ _ _ Hlease) as [Hnone (Ec & _) Hact Hsec _ _]. split.
  - intros spec2. edestruct (lease_bank_nested counter' spec2 b1 (bg_lease_id guard)) as (id2 & n & Hn & _);
      [by eapply first_active_singleton | exact Hids | | by rewrite Hact, lookup_singleton_eq | by exists id2, n].
    rewrite Hact, map_size_singleton. lia.
  - exists (after_release (bg_lease_id guard) d b1).
    assert (Hempty : b_active_leases (after_release (bg_lease_id guard) d b1) = ∅).
    { unfold after_release. cbn [set_b_section set_b_active_leases b_active_leases]. rewrite Hact. apply delete_singleton_eq. }
    split_and!; [by eapply release_bank_ok | done | exact Hempty | |].
    + unfold after_release. cbn [set_b_section b_section appended set_sec_pre_layout_ops sec_pre_layout_ops set_sec_next_seq_index].
      rewrite map_app, Hsec. cbn [appended set_sec_pre_layout_ops sec_pre_layout_ops]. by rewrite map_app, <- app_assoc.
    + apply (release_stale _ _ d); [by rewrite Ec | done | by rewrite Hempty].
Qed.

Lemma lease_released_exactly_once_witness :
  match for_rom_switchable 5 Life_Slice with
  | Ok spec =>
      let b := Builder_new Role_Bank0Nucleus (MkSymbolName "m") in
      match lease_bank 0 spec b with
      | (Ok (guard, counter'), b1) =>
          exists b2, release_bank guard (Ret_Rom (Rr_Manual 7)) b1 = (Ok tt, b2) /\ b_active_leases b2 = ∅
      | _ => False
      end
  | _ => False
  end.
Proof.
  destruct (for_rom_switchable 5 Life_Slice) as [spec|e| |] eqn:Es; try (vm_compute in Es; discriminate Es).
  vm_compute in Es. injection Es as <-.
  set (spec := MkValidated Mbc_Rom 5 Life_Slice). set (b := Builder_new Role_Bank0Nucleus (MkSymbolName "m")). cbv zeta.
  destruct (lease_bank 0 spec b) as [[[guard counter']|e| |] b1] eqn:E; try (vm_compute in E; discriminate E).
  destruct (lease_released_exactly_once 0 counter' spec b b1 guard (Ret_Rom (Rr_Manual 7)) (Rel_RomManual 7)) as [_ (b2 & H2 & _ & Ha & _)].
  - vm_compute in E. injection E as <- <- <-. vm_compute. by split.
  - exact E.
  - reflexivity.
  - reflexivity.
  - vm_compute in E. injection E as <- <- <-. vm_compute. reflexivity.
  - by exists b2.
Defined.
