(* ===== verification/Bpe.v ===== *)
(** * The byte-level BPE tokenizer ([gbf-data/src/bpe.rs])

    Text is its UTF-8 bytes.  The JSON parser and the regex engine are not
    under src/: loading starts at the parsed artifact, and the pre-tokenizer is
    a parameter whose documented totality is a hypothesis of the theorems. *)

From S2P Require Import Prelude Numeric.

Definition BASE_VOCAB : Z := 256.

(** [IdBytesTable] carries a text in the source; here, what the text says. *)
Inductive IdBytesProblem :=
| Table_WrongCount (found expected : Z)
| Table_MissingEntry (id : Z)
| Table_InvalidHex (id : Z) (hex : string).

Inductive BpeError :=
| Bpe_UndefinedMergeId (step : Z) (pair : Z * Z)
| Bpe_VocabSizeMismatch (declared replayed : Z)
| Bpe_BaseVocabMismatch (found : Z)
| Bpe_IdBytesTable (p : IdBytesProblem)
| Bpe_IdBytesMismatch (id : Z).

Record BpeArtifact := MkBpeArtifact {
  art_base_vocab : Z;
  art_vocab_size : Z;
  art_merges : list (Z * Z);
  art_id_bytes_hex : gmap string string;
}.

Record BpeModel := MkBpeModel {
  bm_merges : list (Z * Z);
  bm_rank : gmap (Z * Z) Z;
  bm_id_bytes : list (list Z);
}.

(** ** Loading *)

(** [bytes.chunks_exact(2)] with [to_digit(16)] on each half. *)
Fixpoint decode_hex_pairs (hex : string) : option (list Z) :=
  match hex with
  | String a (String b rest) =>
      hi ← hex_value a; lo ← hex_value b; out ← decode_hex_pairs rest; Some (hi * 16 + lo :: out)
  | _ => Some []
  end.
Definition decode_hex (hex : string) : option (list Z) :=
  if negb (Z.of_nat (String.length hex) mod 2 =? 0) then None else decode_hex_pairs hex.

Definition replay_step (id_bytes : list (list Z)) (m : Z * (Z * Z)) : outcome BpeError (list (list Z)) :=
  let '(i, (a, b)) := m in
  let defined := wrap U16 (BASE_VOCAB + i) in
  let* _ := guard_err ((defined <=? a) || (defined <=? b)) (Bpe_UndefinedMergeId i (a, b)) in
  let* bytes := index id_bytes a in
  let* tail := index id_bytes b in
  Ok (id_bytes ++ [bytes ++ tail]).

Definition base_id_bytes : list (list Z) := map (fun i => [wrap U8 i]) (zrange BASE_VOCAB).

Definition replay_merges (merges : list (Z * Z)) : outcome BpeError (list (list Z)) :=
  ofold replay_step base_id_bytes (enumerate merges).

Definition check_entry (table : gmap string string) (e : Z * list Z) : outcome BpeError unit :=
  let '(id, expect) := e in
  let* hex := ok_or (table !! dec id) (Bpe_IdBytesTable (Table_MissingEntry id)) in
  let* actual := ok_or (decode_hex hex) (Bpe_IdBytesTable (Table_InvalidHex id hex)) in
  guard_err (negb (bool_decide (actual = expect))) (Bpe_IdBytesMismatch (wrap U16 id)).

(** A pair that occurs twice keeps its last index, as [collect] does. *)
Definition merge_ranks (merges : list (Z * Z)) : gmap (Z * Z) Z :=
  foldl (fun rank e => <[e.2 := e.1]> rank) ∅ (enumerate merges).

(** [BpeModel::from_json] after the JSON was parsed. *)
Definition from_artifact (a : BpeArtifact) : outcome BpeError BpeModel :=
  let* _ := guard_err (negb (art_base_vocab a =? BASE_VOCAB)) (Bpe_BaseVocabMismatch (art_base_vocab a)) in
  let replayed_size := BASE_VOCAB + zlen (art_merges a) in
  let* _ := guard_err (negb (art_vocab_size a =? replayed_size)) (Bpe_VocabSizeMismatch (art_vocab_size a) replayed_size) in
  let* id_bytes := replay_merges (art_merges a) in
  let* _ := guard_err (negb (Z.of_nat (size (art_id_bytes_hex a)) =? replayed_size))
              (Bpe_IdBytesTable (Table_WrongCount (Z.of_nat (size (art_id_bytes_hex a))) replayed_size)) in
  let* _ := ofold (fun _ e => check_entry (art_id_bytes_hex a) e) tt (enumerate id_bytes) in
  Ok (MkBpeModel (art_merges a) (merge_ranks (art_merges a)) id_bytes).

Definition vocab_size (m : BpeModel) : Z := BASE_VOCAB + zlen (bm_merges m).

(** [iter().map(Vec::len).max().unwrap_or(1)] *)
Definition max_token_len (m : BpeModel) : Z :=
  match map zlen (bm_id_bytes m) with [] => 1 | x :: l => foldl Z.max x l end.

Definition id_bytes (m : BpeModel) (id : Z) : option (list Z) :=
  if id <? 0 then None else bm_id_bytes m !! Z.to_nat id.

(** ** Encoding *)

Definition scan_pair (m : BpeModel) (ids : list Z) (best : option Z * Z) (pos : Z) : outcome BpeError (option Z * Z) :=
  let* a := index ids pos in
  let* b := index ids (pos + 1) in
  match bm_rank m !! (a, b) with
  | Some rank =>
      if match best.1 with None => true | Some best_rank => rank <? best_rank end
      then Ok (Some rank, pos) else Ok best
  | None => Ok best
  end.

(** [Vec::remove], which panics out of range. *)
Definition remove_at {E A} (l : list A) (i : Z) : outcome E (list A) :=
  if (0 <=? i) && (i <? zlen l) then Ok (take (Z.to_nat i) l ++ drop (Z.to_nat (i + 1)) l) else Panic.

Fixpoint merge_loop (fuel : nat) (m : BpeModel) (ids : list Z) : outcome BpeError (list Z) :=
  match fuel with
  | O => NoFuel
  | S fuel' =>
      let* last := usub (zlen ids) 1 in
      let* (best_rank, best_pos) := ofold (scan_pair m ids) (None, 0) (zrange last) in
      match best_rank with
      | None => Ok ids
      | Some rank =>
          let new_id := wrap U16 (BASE_VOCAB + rank) in
          let* ids := set_index ids best_pos new_id in
          let* ids := remove_at ids (best_pos + 1) in
          merge_loop fuel' m ids
      end
  end.

(** Every round shortens the chunk, so its length is fuel enough. *)
Definition merge_chunk (m : BpeModel) (ids : list Z) : outcome BpeError (list Z) :=
  if zlen ids <? 2 then Ok ids else merge_loop (length ids) m ids.

(** [PRETOKENIZER.find_iter], of the regex crate. *)
Class Pretokenizer := pretokenize : list Z -> list (list Z).

Definition encode `{Pretokenizer} (m : BpeModel) (text : list Z) : outcome BpeError (list Z) :=
  ofold (fun out chunk => let* ids := merge_chunk m chunk in Ok (out ++ ids)) [] (pretokenize text).

(** ** Decoding *)

Definition decode_bytes (m : BpeModel) (ids : list Z) : list Z :=
  foldl (fun buf id => match id_bytes m id with Some bytes => buf ++ bytes | None => buf end) [] ids.
