(* ===== verification/BpeFacts.v ===== *)
(** * The BPE tokenizer: loading, canonical encoding, lossless decoding

    A loaded model is consistent: merge [i] concatenates the bytes of the two
    tokens it joins.  Encoding a chunk reaches the normal form of the canonical
    merge relation, and decoding an encoded text gives its bytes back. *)

From stdpp Require Import relations.
From S2P Require Import Prelude Numeric Bpe.

(** ** Loaded models *)

Record bpe_ok (m : BpeModel) : Prop := {
  bo_len : zlen (bm_id_bytes m) = vocab_size m;
  bo_u16 : vocab_size m <= U16;
  bo_base : forall i, 0 <= i < BASE_VOCAB -> id_bytes m i = Some [i];
  bo_rank : forall a b r, bm_rank m !! (a, b) = Some r ->
    0 <= r < zlen (bm_merges m)
    /\ exists x y, id_bytes m a = Some x /\ id_bytes m b = Some y /\ id_bytes m (BASE_VOCAB + r) = Some (x ++ y);
}.

Lemma zlen_map {A B} (f : A -> B) l : zlen (map f l) = zlen l.
Proof. unfold zlen. by rewrite length_map. Qed.

Lemma enumerate_split {A} (l : list A) pre i x post : enumerate l = pre ++ (i, x) :: post -> i = zlen pre.
Proof.
  intros H. assert (Hk : enumerate l !! length pre = Some (i, x)) by (rewrite H; by apply list_lookup_middle).
  unfold enumerate in Hk. apply lookup_zip_with_Some in Hk as (a & b & [= -> ->] & Ha & Hb).
  pose proof (lookup_lt_Some _ _ _ Hb) as Hlt. rewrite zrange_lookup in Ha by (unfold zlen; lia). by injection Ha as <-.
Qed.

(** The bytes of [id] in a table. *)
Definition table_at (t : list (list Z)) (id : Z) : option (list Z) := if id <? 0 then None else t !! Z.to_nat id.

Lemma table_at_snoc t x id bytes : table_at t id = Some bytes -> table_at (t ++ [x]) id = Some bytes.
Proof.
  unfold table_at. destruct (id <? 0); [done|]. intros H. rewrite lookup_app_l; [done|]. by eapply lookup_lt_Some.
Qed.

Lemma table_at_last t x : table_at (t ++ [x]) (zlen t) = Some x.
Proof.
  pose proof (zlen_nonneg t). unfold table_at. rewrite (proj2 (Z.ltb_ge _ _)) by lia. unfold zlen. rewrite Nat2Z.id.
  by apply list_lookup_middle.
Qed.

Lemma index_table {E} t id bytes : @index E _ t id = Ok bytes -> table_at t id = Some bytes.
Proof.
  unfold index, table_at. destruct (Z.leb_spec 0 id); [|done]. rewrite (proj2 (Z.ltb_ge _ _)) by done.
  destruct (t !! Z.to_nat id); [|done]. by intros [= ->].
Qed.

Lemma base_table i : 0 <= i < BASE_VOCAB -> table_at base_id_bytes i = Some [i].
Proof.
  unfold BASE_VOCAB. intros H. unfold table_at, base_id_bytes. rewrite (proj2 (Z.ltb_ge _ _)) by lia.
  rewrite list_lookup_fmap, zrange_lookup by (unfold BASE_VOCAB; lia). cbn. unfold wrap. rewrite Z.mod_small by lia. f_equal. f_equal. lia.
Qed.

(** What the replay of the first merges has built. *)
Record replayed (done : list (Z * (Z * Z))) (t : list (list Z)) : Prop := {
  rp_len : zlen t = BASE_VOCAB + zlen done;
  rp_u16 : BASE_VOCAB + zlen done <= U16;
  rp_base : forall i, 0 <= i < BASE_VOCAB -> table_at t i = Some [i];
  rp_merge : forall i a b, (i, (a, b)) ∈ done ->
    exists x y, table_at t a = Some x /\ table_at t b = Some y /\ table_at t (BASE_VOCAB + i) = Some (x ++ y);
}.

Lemma replay_merges_ok merges t : replay_merges merges = Ok t -> replayed (enumerate merges) t.
Proof.
  unfold replay_merges. intros H. change (enumerate merges) with ([] ++ enumerate merges).
  eapply (ofold_inv replayed); [| |exact H].
  - constructor; [by vm_compute | by vm_compute | apply base_table|]. intros i a b Hin. by apply elem_of_nil in Hin.
  - intros pre [i [a b]] post t1 t2 Heq [Hlen Hu Hbase Hmerge] Hstep. apply enumerate_split in Heq as ->.
    unfold replay_step in Hstep. apply obind_Ok in Hstep as ([] & Hg & Hstep). apply guard_err_Ok in Hg as [Hg _].
    apply orb_false_iff in Hg as [Ha Hb]. apply Z.leb_gt in Ha, Hb.
    apply obind_Ok in Hstep as (x & Hx%index_table & Hstep). apply obind_Ok in Hstep as (y & Hy%index_table & [= <-]).
    assert (Ha0 : 0 <= a) by (unfold table_at in Hx; destruct (Z.ltb_spec a 0); [done | done]).
    assert (Hlt : BASE_VOCAB + zlen pre < U16).
    { destruct (decide (BASE_VOCAB + zlen pre = U16)) as [E|]; [|lia]. rewrite E in Ha. unfold wrap in Ha.
      rewrite Z.mod_same in Ha by lia. lia. }
    constructor.
    + rewrite !zlen_app, Hlen. change (zlen [_]) with 1. lia.
    + rewrite zlen_app. change (zlen [_]) with 1. lia.
    + intros j Hj. by apply table_at_snoc, Hbase.
    + intros j c d [Hin|Hin]%elem_of_app.
      * destruct (Hmerge _ _ _ Hin) as (x' & y' & H1 & H2 & H3). exists x', y'. split_and!; by apply table_at_snoc.
      * apply list_elem_of_singleton in Hin as [= -> -> ->]. exists x, y. split_and!; [by apply table_at_snoc..|].
        rewrite <- Hlen. apply table_at_last.
Qed.

Lemma merge_ranks_inv merges a b r : merge_ranks merges !! (a, b) = Some r -> (r, (a, b)) ∈ enumerate merges.
Proof.
  unfold merge_ranks. set (l := enumerate merges). clearbody l.
  assert (Hgen : forall acc : gmap (Z * Z) Z, foldl (fun rank e => <[e.2 := e.1]> rank) acc l !! (a, b) = Some r ->
    (r, (a, b)) ∈ l \/ acc !! (a, b) = Some r).
  { induction l as [|[i p] l IH]; intros acc H; cbn in H; [by right|]. apply IH in H as [H|H]; [left; by right|].
    apply lookup_insert_Some in H as [[-> ->]|[_ H]]; [left; by left | by right]. }
  intros H. apply Hgen in H as [H|H]; [done | by rewrite lookup_empty in H].
Qed.

Lemma from_artifact_ok a m : from_artifact a = Ok m -> bpe_ok m.
Proof.
  intros H. unfold from_artifact in H. apply obind_Ok in H as ([] & _ & H). apply obind_Ok in H as ([] & _ & H).
  apply obind_Ok in H as (t & Ht%replay_merges_ok & H). apply obind_Ok in H as ([] & _ & H).
  apply obind_Ok in H as ([] & _ & [= <-]). destruct Ht as [Hlen Hu Hbase Hmerge].
  assert (He : zlen (enumerate (art_merges a)) = zlen (art_merges a)) by (unfold zlen; by rewrite enumerate_length).
  rewrite He in Hlen, Hu. constructor; [exact Hlen | exact Hu | exact Hbase|].
  intros x y r Hr%merge_ranks_inv. split; [by apply enumerate_elem in Hr as [? _] | by apply Hmerge].
Qed.

(** ** Decoding *)

Definition token_bytes (m : BpeModel) (id : Z) : list Z := default [] (id_bytes m id).

Lemma decode_bytes_concat m ids : decode_bytes m ids = concat (map (token_bytes m) ids).
Proof.
  unfold decode_bytes. assert (Hgen : forall buf, foldl (fun buf id => match id_bytes m id with Some bytes => buf ++ bytes | None => buf end) buf ids
    = buf ++ concat (map (token_bytes m) ids)).
  { induction ids as [|id ids IH]; intros buf; [cbn; by rewrite app_nil_r|]. cbn [foldl map concat]. rewrite IH. unfold token_bytes.
    destruct (id_bytes m id); cbn; [by rewrite app_assoc | done]. }
  by rewrite Hgen.
Qed.

Lemma decode_bytes_app m ids1 ids2 : decode_bytes m (ids1 ++ ids2) = decode_bytes m ids1 ++ decode_bytes m ids2.
Proof. by rewrite !decode_bytes_concat, map_app, concat_app. Qed.

Definition token (m : BpeModel) (id : Z) : Prop := 0 <= id < vocab_size m.
Definition byte (b : Z) : Prop := 0 <= b < BASE_VOCAB.

Lemma byte_token m b : byte b -> token m b.
Proof. unfold byte, token, vocab_size. pose proof (zlen_nonneg (bm_merges m)). lia. Qed.

Lemma decode_byte_chunk m bytes : bpe_ok m -> Forall byte bytes -> decode_bytes m bytes = bytes.
Proof.
  intros Hm Hb. rewrite decode_bytes_concat. induction Hb as [|b bytes Hb _ IH]; [done|]. cbn [map concat].
  unfold token_bytes at 1. rewrite (bo_base _ Hm) by exact Hb. cbn. by rewrite IH.
Qed.

(** ** The canonical merge

    [pair_rank m ids j] is the rank of the pair that starts at [j].  One step
    joins the leftmost pair of the least rank. *)

Definition pair_rank (m : BpeModel) (ids : list Z) (j : nat) : option Z :=
  a ← ids !! j; b ← ids !! S j; bm_rank m !! (a, b).

Definition best_pair (m : BpeModel) (ids : list Z) (p : nat) (r : Z) : Prop :=
  pair_rank m ids p = Some r
  /\ forall j r', pair_rank m ids j = Some r' -> r <= r' /\ ((j < p)%nat -> r < r').

Definition joined (ids : list Z) (p : nat) (r : Z) : list Z := take p ids ++ (BASE_VOCAB + r) :: drop (p + 2) ids.

Definition canonical_step (m : BpeModel) (ids ids' : list Z) : Prop :=
  exists p r, best_pair m ids p r /\ ids' = joined ids p r.

(** The specification of a chunk's encoding. *)
Definition canonical_encoding (m : BpeModel) (bytes ids : list Z) : Prop :=
  rtc (canonical_step m) bytes ids /\ forall j, pair_rank m ids j = None.

Lemma best_pair_unique m ids p r p' r' : best_pair m ids p r -> best_pair m ids p' r' -> p = p' /\ r = r'.
Proof.
  intros [H1 H2] [H1' H2']. destruct (H2 _ _ H1') as [Hle Hlt]. destruct (H2' _ _ H1) as [Hle' Hlt'].
  assert (r = r') as -> by lia. split; [|done].
  destruct (lt_eq_lt_dec p p') as [[Hp|Hp]|Hp]; [|done|]; [specialize (Hlt' Hp) | specialize (Hlt Hp)]; lia.
Qed.

Lemma canonical_encoding_unique m bytes ids ids' : canonical_encoding m bytes ids -> canonical_encoding m bytes ids' -> ids = ids'.
Proof.
  intros [Hs Hn] [Hs' Hn'].
  assert (Hstuck : forall x y, (forall j, pair_rank m x j = None) -> canonical_step m x y -> False).
  { intros x y Hx (p & r & [Hp _] & _). by rewrite Hx in Hp. }
  revert ids' Hs' Hn'. induction Hs as [x|x y z Hxy _ IH]; intros ids' Hs' Hn'.
  - inversion Hs' as [|? y ? Hstep _]; [done|]. by destruct (Hstuck _ _ Hn Hstep).
  - inversion Hs' as [E|? y' ? Hstep Hrest]; subst.
    + by destruct (Hstuck _ _ Hn' Hxy).
    + destruct Hxy as (p & r & Hb & ->), Hstep as (p' & r' & Hb' & ->).
      destruct (best_pair_unique _ _ _ _ _ _ Hb Hb') as [-> ->]. by apply IH.
Qed.

Lemma pair_rank_Some m ids p r : pair_rank m ids p = Some r ->
  exists a b, ids !! p = Some a /\ ids !! S p = Some b /\ bm_rank m !! (a, b) = Some r
    /\ ids = take p ids ++ a :: b :: drop (p + 2) ids.
Proof.
  unfold pair_rank. intros H. apply bind_Some in H as (a & Ha & H). apply bind_Some in H as (b & Hb & H).
  exists a, b. split_and!; try done. rewrite <- (take_drop_middle ids p a Ha) at 1. f_equal. f_equal.
  rewrite <- (take_drop_middle ids (S p) b Hb) at 1. rewrite drop_app_ge; rewrite length_take;
    pose proof (lookup_lt_Some _ _ _ Hb); [|lia].
  replace (S p - S p `min` length ids)%nat with 0%nat by lia. cbn. f_equal. f_equal. lia.
Qed.

(** A step keeps the tokens, the bytes they stand for, and shortens. *)
Lemma joined_ok m ids p r : bpe_ok m -> pair_rank m ids p = Some r ->
  (Forall (token m) ids -> Forall (token m) (joined ids p r))
  /\ decode_bytes m (joined ids p r) = decode_bytes m ids
  /\ (length (joined ids p r) < length ids)%nat.
Proof.
  intros Hm Hr. destruct (pair_rank_Some _ _ _ _ Hr) as (a & b & Ha & Hb & Hrank & Heq).
  destruct (bo_rank _ Hm _ _ _ Hrank) as (Hrange & x & y & Hx & Hy & Hxy). unfold joined. split_and!.
  - intros Hall. rewrite Heq in Hall. apply Forall_app in Hall as [H1 H2]. apply Forall_cons in H2 as [_ H2].
    apply Forall_cons in H2 as [_ H2]. apply Forall_app. split; [done|]. apply Forall_cons. split; [|done].
    unfold token, vocab_size, BASE_VOCAB. unfold BASE_VOCAB in *. lia.
  - rewrite Heq at 3. rewrite !decode_bytes_app. f_equal. rewrite !decode_bytes_concat. cbn [map concat].
    unfold token_bytes at 1 3 4. rewrite Hx, Hy, Hxy. cbn [default]. by rewrite app_assoc.
  - rewrite Heq at 3. rewrite !length_app. cbn [length]. lia.
Qed.

(** ** The merge loop *)

(** What the scan of the first [k] pairs has found. *)
Definition scanned (m : BpeModel) (ids : list Z) (k : Z) (best : option Z * Z) : Prop :=
  match best with
  | (None, _) => forall j, Z.of_nat j < k -> pair_rank m ids j = None
  | (Some r, p) =>
      0 <= p < k /\ pair_rank m ids (Z.to_nat p) = Some r
      /\ forall j r', Z.of_nat j < k -> pair_rank m ids j = Some r' -> r <= r' /\ (Z.of_nat j < p -> r < r')
  end.

Lemma scan_pair_ok m ids best k : 0 <= k < zlen ids - 1 -> scanned m ids k best ->
  exists best', scan_pair m ids best k = Ok best' /\ scanned m ids (k + 1) best'.
Proof.
  intros Hk Hinv. destruct (index_total (E := BpeError) ids k) as (a & Ha & La); [lia|].
  destruct (index_total (E := BpeError) ids (k + 1)) as (b & Hb & Lb); [lia|].
  assert (Hpair : pair_rank m ids (Z.to_nat k) = bm_rank m !! (a, b)).
  { unfold pair_rank. rewrite La. cbn. replace (S (Z.to_nat k)) with (Z.to_nat (k + 1)) by lia. by rewrite Lb. }
  assert (Hsplit : forall j, Z.of_nat j < k + 1 -> Z.of_nat j < k \/ j = Z.to_nat k) by lia.
  unfold scan_pair. rewrite Ha, Hb. cbn [obind]. destruct (bm_rank m !! (a, b)) as [rank|] eqn:Hr.
  - destruct best as [[r|] p]; cbn [fst] in *.
    + destruct Hinv as (Hp & Hat & Hmin). destruct (Z.ltb_spec rank r); eexists; (split; [reflexivity|]).
      * split_and!; [lia | lia | done|]. intros j r' [Hj| ->]%Hsplit Hj'; [|rewrite Hpair in Hj'; injection Hj' as <-; lia].
        destruct (Hmin _ _ Hj Hj'). lia.
      * split_and!; [lia | lia | done|]. intros j r' [Hj| ->]%Hsplit Hj'; [by apply Hmin|].
        rewrite Hpair in Hj'. injection Hj' as <-. lia.
    + eexists. split; [reflexivity|]. split_and!; [lia | lia | done|].
      intros j r' [Hj| ->]%Hsplit Hj'; [by rewrite Hinv in Hj'|]. rewrite Hpair in Hj'. injection Hj' as <-. lia.
  - exists best. split; [done|]. destruct best as [[r|] p].
    + destruct Hinv as (Hp & Hat & Hmin). split_and!; [lia | lia | done|].
      intros j r' [Hj| ->]%Hsplit Hj'; [by apply Hmin | by rewrite Hpair in Hj'].
    + intros j [Hj| ->]%Hsplit; [by apply Hinv | done].
Qed.

Lemma pair_rank_short m ids j : zlen ids <= Z.of_nat j + 1 -> pair_rank m ids j = None.
Proof.
  intros H. unfold pair_rank. destruct (ids !! j); [|done]. cbn. rewrite (proj2 (lookup_ge_None _ _)); [done|].
  unfold zlen in H. lia.
Qed.

Lemma scan_ok m ids : 1 <= zlen ids -> exists best,
  ofold (scan_pair m ids) (None, 0) (zrange (zlen ids - 1)) = Ok best
  /\ match best with
     | (None, _) => forall j, pair_rank m ids j = None
     | (Some r, p) => 0 <= p /\ best_pair m ids (Z.to_nat p) r
     end.
Proof.
  intros Hlen. destruct (ofold_zrange (scanned m ids) (scan_pair m ids) (None, 0) (zlen ids - 1)) as (best & Hf & Hs);
    [lia | intros j Hj; lia | intros k t Hk Ht; by apply scan_pair_ok|].
  exists best. split; [done|].
  assert (Hin : forall j r, pair_rank m ids j = Some r -> Z.of_nat j < zlen ids - 1).
  { intros j r Hj. destruct (decide (Z.of_nat j < zlen ids - 1)); [done|]. rewrite pair_rank_short in Hj by lia. done. }
  destruct best as [[r|] p].
  - destruct Hs as (Hp & Hat & Hmin). split; [lia|]. split; [done|]. intros j r' Hj.
    destruct (Hmin j r' (Hin _ _ Hj) Hj) as [H1 H2]. split; [done|]. intros. apply H2. lia.
  - intros j. destruct (pair_rank m ids j) as [r|] eqn:Hj; [|done]. by rewrite (Hs j (Hin _ _ Hj)) in Hj.
Qed.

(** Replacing one element and removing the next is the join. *)
Lemma merge_in_place m ids p r : bpe_ok m -> pair_rank m ids p = Some r ->
  obind (set_index ids (Z.of_nat p) (wrap U16 (BASE_VOCAB + r))) (fun ids1 => remove_at ids1 (Z.of_nat p + 1))
  = (Ok (joined ids p r) : outcome BpeError (list Z)).
Proof.
  intros Hm Hr. destruct (pair_rank_Some _ _ _ _ Hr) as (a & b & Ha & Hb & Hrank & Heq).
  destruct (bo_rank _ Hm _ _ _ Hrank) as [Hrange _]. pose proof (bo_u16 _ Hm) as Hu. unfold vocab_size, BASE_VOCAB in Hu.
  assert (Hw : wrap U16 (BASE_VOCAB + r) = BASE_VOCAB + r) by (unfold wrap, BASE_VOCAB; apply Z.mod_small; lia).
  pose proof (lookup_lt_Some _ _ _ Hb) as Hlt.
  rewrite Hw, set_index_total by (unfold zlen; lia). cbn [obind]. rewrite Nat2Z.id. unfold remove_at.
  assert (Hlen : zlen (<[p := BASE_VOCAB + r]> ids) = zlen ids) by (unfold zlen; by rewrite length_insert).
  rewrite Hlen, (proj2 (Z.leb_le _ _)), (proj2 (Z.ltb_lt _ _)) by (unfold zlen; lia). cbn [andb]. f_equal. unfold joined.
  replace (Z.to_nat (Z.of_nat p + 1)) with (p + 1)%nat by lia. replace (Z.to_nat (Z.of_nat p + 1 + 1)) with (p + 2)%nat by lia.
  rewrite drop_insert_lt by lia. replace (p + 1)%nat with (S p) by lia.
  rewrite (take_S_r _ _ (BASE_VOCAB + r)) by (apply list_lookup_insert_eq; lia).
  by rewrite take_insert_ge, <- app_assoc by lia.
Qed.

Lemma merge_loop_ok m fuel ids : bpe_ok m -> 1 <= zlen ids -> (length ids <= fuel)%nat -> Forall (token m) ids ->
  exists ids', merge_loop fuel m ids = Ok ids' /\ canonical_encoding m ids ids' /\ Forall (token m) ids'
    /\ decode_bytes m ids' = decode_bytes m ids /\ zlen ids' <= zlen ids.
Proof.
  intros Hm. revert ids. induction fuel as [|fuel IH]; intros ids Hlen Hfuel Htok; [unfold zlen in Hlen; lia|].
  cbn [merge_loop]. unfold usub. rewrite (proj2 (Z.leb_le _ _)) by lia. cbn [obind].
  destruct (scan_ok m ids Hlen) as ([[r|] p] & Hscan & Hbest); rewrite Hscan; cbn [obind].
  - destruct Hbest as [Hp Hbest]. pose proof (proj1 Hbest) as Hrank.
    pose proof (merge_in_place m ids _ r Hm Hrank) as Hstep. rewrite Z2Nat.id in Hstep by lia.
    apply obind_Ok in Hstep as (ids1 & H1 & H2). rewrite H1. cbn [obind]. rewrite H2. cbn [obind].
    destruct (joined_ok m ids _ r Hm Hrank) as (Ht & Hd & Hl).
    destruct (IH (joined ids (Z.to_nat p) r)) as (ids' & He & [Hrtc Hnf] & Ht' & Hd' & Hl'); [| lia | by apply Ht |].
    + unfold joined. rewrite zlen_app, zlen_cons. pose proof (zlen_nonneg (take (Z.to_nat p) ids)).
      pose proof (zlen_nonneg (drop (Z.to_nat p + 2) ids)). lia.
    + exists ids'. split; [done|]. split; [|split_and!; [done | by rewrite Hd' | unfold zlen in *; lia]].
      split; [|done]. eapply rtc_l; [|exact Hrtc]. by exists (Z.to_nat p), r.
  - exists ids. split; [done|]. split; [by split; [apply rtc_refl|] | done].
Qed.

Lemma merge_chunk_ok m chunk : bpe_ok m -> Forall byte chunk ->
  exists ids, merge_chunk m chunk = Ok ids /\ canonical_encoding m chunk ids /\ Forall (token m) ids
    /\ decode_bytes m ids = chunk /\ zlen ids <= zlen chunk.
Proof.
  intros Hm Hb. unfold merge_chunk.
  assert (Ht : Forall (token m) chunk) by (eapply Forall_impl; [exact Hb | apply byte_token]).
  destruct (Z.ltb_spec (zlen chunk) 2).
  - exists chunk. split_and!; try done; [|by apply decode_byte_chunk].
    split; [apply rtc_refl|]. intros j. apply pair_rank_short. lia.
  - destruct (merge_loop_ok m (length chunk) chunk Hm) as (ids & He & Hc & Ht' & Hd & Hl); [lia | lia | done|].
    exists ids. split_and!; try done. rewrite Hd. by apply decode_byte_chunk.
Qed.

(** ** Texts *)

(** The documented totality of the pre-tokenizer: its chunks, joined, are the
    text. *)
Definition pretokenizer_total `{Pretokenizer} (text : list Z) : Prop := concat (pretokenize text) = text.

Lemma encode_chunks `{Pretokenizer} m chunks out : bpe_ok m -> Forall (Forall byte) chunks ->
  exists parts, ofold (fun out chunk => let* ids := merge_chunk m chunk in Ok (out ++ ids)) out chunks = Ok (out ++ concat parts)
    /\ Forall2 (canonical_encoding m) chunks parts /\ Forall (token m) (concat parts)
    /\ decode_bytes m (concat parts) = concat chunks /\ zlen (concat parts) <= zlen (concat chunks).
Proof.
  intros Hm Hb. revert out. induction Hb as [|chunk chunks Hc _ IH]; intros out.
  - exists []. cbn. rewrite app_nil_r. split_and!; try done; constructor.
  - destruct (merge_chunk_ok m chunk Hm Hc) as (ids & He & Hcan & Ht & Hd & Hl).
    destruct (IH (out ++ ids)) as (parts & Hf & H2 & Ht' & Hd' & Hl'). exists (ids :: parts). cbn [ofold].
    rewrite He. cbn [obind]. rewrite Hf. cbn [concat]. rewrite app_assoc, decode_bytes_app, Hd, Hd', !zlen_app.
    split; [done|]. split; [by constructor|]. split; [by apply Forall_app|]. split; [done | lia].
Qed.

(** C16: encoding with a loaded model is canonical and loses nothing.  For every
    artifact the loader accepts and every text, [encode] returns; each
    pre-token chunk becomes the one normal form of "join the leftmost pair of
    least rank"; every id is in the vocabulary; the ids are no more than the
    bytes; and [decode_bytes] of them is the text. *)
Theorem encode_canonical_lossless `{Pretokenizer} (a : BpeArtifact) (m : BpeModel) (text : list Z)
    (Hload : from_artifact a = Ok m) (Hbytes : Forall byte text) (Htotal : pretokenizer_total text) :
  exists parts, encode m text = Ok (concat parts)
    /\ Forall2 (fun chunk ids => forall ids', canonical_encoding m chunk ids' <-> ids' = ids) (pretokenize text) parts
    /\ Forall (token m) (concat parts) /\ zlen (concat parts) <= zlen text
    /\ decode_bytes m (concat parts) = text.
Proof.
  pose proof (from_artifact_ok _ _ Hload) as Hm. unfold pretokenizer_total in Htotal.
  assert (Hchunks : Forall (Forall byte) (pretokenize text)) by (apply Forall_concat; by rewrite Htotal).
  destruct (encode_chunks m (pretokenize text) [] Hm Hchunks) as (parts & He & Hcan & Ht & Hd & Hl).
  exists parts. rewrite Htotal in Hd, Hl. split; [exact He|]. split; [|done].
  eapply Forall2_impl; [exact Hcan|]. intros chunk ids Hc ids'. split; [|by intros ->].
  intros Hc'. by eapply canonical_encoding_unique.
Qed.

(** A vocabulary of one merge, and a pre-tokenizer that keeps the text whole. *)
Definition demo_hex (i : Z) : string :=
  String (hex_digit (i / 16)) (String (hex_digit (i mod 16)) EmptyString).
Definition demo_table : gmap string string :=
  <["256" := "6162"]> (list_to_map (map (fun i => (dec i, demo_hex i)) (zrange 256))).
Definition demo_artifact : BpeArtifact := MkBpeArtifact 256 257 [(97, 98)] demo_table.
Definition whole_text : Pretokenizer := fun text => [text].

Lemma encode_canonical_lossless_witness :
  match from_artifact demo_artifact with
  | Ok m => encode (H := whole_text) m [97; 98; 97; 97; 98] = Ok [256; 97; 256]
      /\ exists parts, encode (H := whole_text) m [97; 98; 97; 97; 98] = Ok (concat parts)
           /\ decode_bytes m (concat parts) = [97; 98; 97; 97; 98]
  | _ => False
  end.
Proof.
  destruct (from_artifact demo_artifact) as [m|e| |] eqn:E; try (vm_compute in E; discriminate E).
  split.
  - vm_compute in E. injection E as <-. vm_compute. reflexivity.
  - assert (Hb : Forall byte [97; 98; 97; 97; 98]) by (repeat (constructor; [unfold byte, BASE_VOCAB; lia|]); constructor).
    destruct (encode_canonical_lossless (H := whole_text) demo_artifact m [97; 98; 97; 97; 98] E Hb eq_refl)
      as (parts & He & _ & _ & _ & Hd).
    exact (ex_intro _ parts (conj He Hd)).
Defined.
