(* ===== verification/KnobLattice.v ===== *)
(** * Knob lattices

    The values a compile knob takes ([gbf-policy/src/compile.rs]): the ordered
    enums with their ranks, the knob groups built of them, the pressure
    thresholds, and the trait [MonotoneKnob] that orders all of these.  The
    repair policy of [gbf-policy/src/repair.rs] is here too.

    The trait becomes a class of two methods; [LawfulKnob] is the promise that
    the clients of the trait rely on: ranks tell values apart and the successor
    test is the order of ranks.  [GroupOrder] is the promise of the groups. *)

From S2P Require Import Prelude.

(** ** The trait *)

(** [{:?}] of a derived [Debug]: the name of a variant. *)
Class RDebug (A : Type) := debug : A -> string.

Class MonotoneKnob (A : Type) := {
  rank : A -> Z;
  is_monotone_successor_of : A -> A -> bool;  (* self, previous *)
}.

Definition is_monotone_advance {A} `{MonotoneKnob A} (from to : A) : bool :=
  rank from <=? rank to.

Definition is_strict_advance {A} `{MonotoneKnob A} (from to : A) : bool :=
  rank from <? rank to.

(** The macro: the rank is the discriminant and [>=] the derived order, which
    compares discriminants. *)
Definition monotone_enum {A} (discriminant : A -> Z) : MonotoneKnob A := {|
  rank := discriminant;
  is_monotone_successor_of self previous := discriminant previous <=? discriminant self |}.

(** A group has no rank of its own: the trait's default is 0. *)
Definition monotone_group {A} (successor : A -> A -> bool) : MonotoneKnob A := {|
  rank _ := 0;
  is_monotone_successor_of := successor |}.

Class LawfulKnob (A : Type) `{MonotoneKnob A} := {
  rank_inj : forall a b : A, rank a = rank b -> a = b;
  rank_u8 : forall a : A, 0 <= rank a < 256;
  successor_rank : forall a b : A, is_monotone_successor_of a b = (rank b <=? rank a);
}.

Create HintDb knobs.

Ltac solve_lawful :=
  split;
  [ by intros [] []
         | by intros []; vm_compute
         | by intros [] [] ].

(** ** The ordered enums *)

Inductive PlacementProfile := StrictOnePerBank | Budgeted | PackedExperts.
#[export] Instance PlacementProfile_eq_dec : EqDecision PlacementProfile.
Proof. solve_decision. Defined.
#[export] Instance PlacementProfile_debug : RDebug PlacementProfile := fun p =>
  match p with StrictOnePerBank => "StrictOnePerBank" | Budgeted => "Budgeted"
             | PackedExperts => "PackedExperts" end.
#[export] Instance PlacementProfile_knob : MonotoneKnob PlacementProfile := monotone_enum (fun p =>
  match p with StrictOnePerBank => 0 | Budgeted => 1 | PackedExperts => 2 end).
#[export] Instance PlacementProfile_lawful : LawfulKnob PlacementProfile.
Proof. solve_lawful. Qed.

Inductive ObservabilityMode := Invariant | Flexible.
#[export] Instance ObservabilityMode_eq_dec : EqDecision ObservabilityMode.
Proof. solve_decision. Defined.

Inductive ProbeCollectionLevel := PCL_RequiredOnly | PCL_Operational | PCL_Verbose.
#[export] Instance ProbeCollectionLevel_eq_dec : EqDecision ProbeCollectionLevel.
Proof. solve_decision. Defined.
#[export] Instance ProbeCollectionLevel_knob : MonotoneKnob ProbeCollectionLevel := monotone_enum (fun p =>
  match p with PCL_RequiredOnly => 0 | PCL_Operational => 1 | PCL_Verbose => 2 end).
#[export] Instance ProbeCollectionLevel_lawful : LawfulKnob ProbeCollectionLevel.
Proof. solve_lawful. Qed.

Inductive TraceDemotionLevel :=
| TD_None | TD_DropBestEffort | TD_DropDiagnosticAndBestEffort | TD_RequiredOnly.
#[export] Instance TraceDemotionLevel_eq_dec : EqDecision TraceDemotionLevel.
Proof. solve_decision. Defined.
#[export] Instance TraceDemotionLevel_debug : RDebug TraceDemotionLevel := fun p =>
  match p with TD_None => "None" | TD_DropBestEffort => "DropBestEffort"
             | TD_DropDiagnosticAndBestEffort => "DropDiagnosticAndBestEffort"
             | TD_RequiredOnly => "RequiredOnly" end.
#[export] Instance TraceDemotionLevel_knob : MonotoneKnob TraceDemotionLevel := monotone_enum (fun p =>
  match p with TD_None => 0 | TD_DropBestEffort => 1
             | TD_DropDiagnosticAndBestEffort => 2 | TD_RequiredOnly => 3 end).
#[export] Instance TraceDemotionLevel_lawful : LawfulKnob TraceDemotionLevel.
Proof. solve_lawful. Qed.

Inductive ReductionPlanCeiling := ExactOnly | Conservative | Adaptive.
#[export] Instance ReductionPlanCeiling_eq_dec : EqDecision ReductionPlanCeiling.
Proof. solve_decision. Defined.
#[export] Instance ReductionPlanCeiling_debug : RDebug ReductionPlanCeiling := fun p =>
  match p with ExactOnly => "ExactOnly" | Conservative => "Conservative" | Adaptive => "Adaptive" end.
#[export] Instance ReductionPlanCeiling_knob : MonotoneKnob ReductionPlanCeiling := monotone_enum (fun p =>
  match p with ExactOnly => 0 | Conservative => 1 | Adaptive => 2 end).
#[export] Instance ReductionPlanCeiling_lawful : LawfulKnob ReductionPlanCeiling.
Proof. solve_lawful. Qed.

Inductive StorageMaterialization := PreserveAll | RecomputePureValues | SpillColdValues.
#[export] Instance StorageMaterialization_eq_dec : EqDecision StorageMaterialization.
Proof. solve_decision. Defined.
#[export] Instance StorageMaterialization_debug : RDebug StorageMaterialization := fun p =>
  match p with PreserveAll => "PreserveAll" | RecomputePureValues => "RecomputePureValues"
             | SpillColdValues => "SpillColdValues" end.
#[export] Instance StorageMaterialization_knob : MonotoneKnob StorageMaterialization := monotone_enum (fun p =>
  match p with PreserveAll => 0 | RecomputePureValues => 1 | SpillColdValues => 2 end).
#[export] Instance StorageMaterialization_lawful : LawfulKnob StorageMaterialization.
Proof. solve_lawful. Qed.

Inductive SramPageAggression := SPA_Preserve | SPA_PackCold | SPA_MinimizeResident.
#[export] Instance SramPageAggression_eq_dec : EqDecision SramPageAggression.
Proof. solve_decision. Defined.
#[export] Instance SramPageAggression_debug : RDebug SramPageAggression := fun p =>
  match p with SPA_Preserve => "Preserve" | SPA_PackCold => "PackCold"
             | SPA_MinimizeResident => "MinimizeResident" end.
#[export] Instance SramPageAggression_knob : MonotoneKnob SramPageAggression := monotone_enum (fun p =>
  match p with SPA_Preserve => 0 | SPA_PackCold => 1 | SPA_MinimizeResident => 2 end).
#[export] Instance SramPageAggression_lawful : LawfulKnob SramPageAggression.
Proof. solve_lawful. Qed.

Inductive SramSpillPolicy := NoSpill | SpillOnPressure | SpillEager.
#[export] Instance SramSpillPolicy_eq_dec : EqDecision SramSpillPolicy.
Proof. solve_decision. Defined.
#[export] Instance SramSpillPolicy_debug : RDebug SramSpillPolicy := fun p =>
  match p with NoSpill => "NoSpill" | SpillOnPressure => "SpillOnPressure"
             | SpillEager => "SpillEager" end.
#[export] Instance SramSpillPolicy_knob : MonotoneKnob SramSpillPolicy := monotone_enum (fun p =>
  match p with NoSpill => 0 | SpillOnPressure => 1 | SpillEager => 2 end).
#[export] Instance SramSpillPolicy_lawful : LawfulKnob SramSpillPolicy.
Proof. solve_lawful. Qed.

Inductive RomKernelResidencyBias := PreferCommonBank | PreferExpertBank | PreferWramOverlay.
#[export] Instance RomKernelResidencyBias_eq_dec : EqDecision RomKernelResidencyBias.
Proof. solve_decision. Defined.
#[export] Instance RomKernelResidencyBias_debug : RDebug RomKernelResidencyBias := fun p =>
  match p with PreferCommonBank => "PreferCommonBank" | PreferExpertBank => "PreferExpertBank"
             | PreferWramOverlay => "PreferWramOverlay" end.
#[export] Instance RomKernelResidencyBias_knob : MonotoneKnob RomKernelResidencyBias := monotone_enum (fun p =>
  match p with PreferCommonBank => 0 | PreferExpertBank => 1 | PreferWramOverlay => 2 end).
#[export] Instance RomKernelResidencyBias_lawful : LawfulKnob RomKernelResidencyBias.
Proof. solve_lawful. Qed.

Inductive RomKernelDuplicationBias := Share | DuplicateHot | DuplicateAllFit.
#[export] Instance RomKernelDuplicationBias_eq_dec : EqDecision RomKernelDuplicationBias.
Proof. solve_decision. Defined.
#[export] Instance RomKernelDuplicationBias_debug : RDebug RomKernelDuplicationBias := fun p =>
  match p with Share => "Share" | DuplicateHot => "DuplicateHot"
             | DuplicateAllFit => "DuplicateAllFit" end.
#[export] Instance RomKernelDuplicationBias_knob : MonotoneKnob RomKernelDuplicationBias := monotone_enum (fun p =>
  match p with Share => 0 | DuplicateHot => 1 | DuplicateAllFit => 2 end).
#[export] Instance RomKernelDuplicationBias_lawful : LawfulKnob RomKernelDuplicationBias.
Proof. solve_lawful. Qed.

Inductive OverlayPromotion := OP_Disabled | OP_TinyLuts | OP_EligibleKernels.
#[export] Instance OverlayPromotion_eq_dec : EqDecision OverlayPromotion.
Proof. solve_decision. Defined.
#[export] Instance OverlayPromotion_debug : RDebug OverlayPromotion := fun p =>
  match p with OP_Disabled => "Disabled" | OP_TinyLuts => "TinyLuts"
             | OP_EligibleKernels => "EligibleKernels" end.
#[export] Instance OverlayPromotion_knob : MonotoneKnob OverlayPromotion := monotone_enum (fun p =>
  match p with OP_Disabled => 0 | OP_TinyLuts => 1 | OP_EligibleKernels => 2 end).
#[export] Instance OverlayPromotion_lawful : LawfulKnob OverlayPromotion.
Proof. solve_lawful. Qed.

Inductive ScheduleTileSearch := TS_Fixed | TS_Local | TS_ProfileGuided.
#[export] Instance ScheduleTileSearch_eq_dec : EqDecision ScheduleTileSearch.
Proof. solve_decision. Defined.
#[export] Instance ScheduleTileSearch_knob : MonotoneKnob ScheduleTileSearch := monotone_enum (fun p =>
  match p with TS_Fixed => 0 | TS_Local => 1 | TS_ProfileGuided => 2 end).
#[export] Instance ScheduleTileSearch_lawful : LawfulKnob ScheduleTileSearch.
Proof. solve_lawful. Qed.

Inductive ScheduleSliceCoarsening := SC_Fine | SC_Balanced | SC_Coarse.
#[export] Instance ScheduleSliceCoarsening_eq_dec : EqDecision ScheduleSliceCoarsening.
Proof. solve_decision. Defined.
#[export] Instance ScheduleSliceCoarsening_debug : RDebug ScheduleSliceCoarsening := fun p =>
  match p with SC_Fine => "Fine" | SC_Balanced => "Balanced" | SC_Coarse => "Coarse" end.
#[export] Instance ScheduleSliceCoarsening_knob : MonotoneKnob ScheduleSliceCoarsening := monotone_enum (fun p =>
  match p with SC_Fine => 0 | SC_Balanced => 1 | SC_Coarse => 2 end).
#[export] Instance ScheduleSliceCoarsening_lawful : LawfulKnob ScheduleSliceCoarsening.
Proof. solve_lawful. Qed.

Inductive ScheduleResourcePressure := RP_Conservative | RP_Balanced | RP_FitFirst.
#[export] Instance ScheduleResourcePressure_eq_dec : EqDecision ScheduleResourcePressure.
Proof. solve_decision. Defined.
#[export] Instance ScheduleResourcePressure_knob : MonotoneKnob ScheduleResourcePressure := monotone_enum (fun p =>
  match p with RP_Conservative => 0 | RP_Balanced => 1 | RP_FitFirst => 2 end).
#[export] Instance ScheduleResourcePressure_lawful : LawfulKnob ScheduleResourcePressure.
Proof. solve_lawful. Qed.

Inductive KernelResidency :=
| KR_ProfileDefault | KR_CoResident | KR_Bank0Streaming | KR_WramOverlay | KR_FitFirst.
#[export] Instance KernelResidency_eq_dec : EqDecision KernelResidency.
Proof. solve_decision. Defined.
#[export] Instance KernelResidency_knob : MonotoneKnob KernelResidency := monotone_enum (fun p =>
  match p with KR_ProfileDefault => 0 | KR_CoResident => 1 | KR_Bank0Streaming => 2
             | KR_WramOverlay => 3 | KR_FitFirst => 4 end).
#[export] Instance KernelResidency_lawful : LawfulKnob KernelResidency.
Proof. solve_lawful. Qed.

(** ** Pressure limits and stage ceilings *)

(** [PressureLimit<T>] for [T] one of [u64], [u16], [u8]; every operation on
    a limit compares or prints it. *)
Record PressureLimit := { soft : Z; hard : Z }.
#[export] Instance PressureLimit_eq_dec : EqDecision PressureLimit.
Proof. solve_decision. Defined.

Definition pressure_limit_le (a b : PressureLimit) : bool :=
  (a.(soft) <=? b.(soft)) && (a.(hard) <=? b.(hard)).

Record ResourcePressureThresholds := {
  wram_hot : PressureLimit;
  hram_hot : PressureLimit;
  bank0_rom : PressureLimit;
  switchable_rom_window : PressureLimit;
  sram_window : PressureLimit;
  slice_cycles : PressureLimit;
  interrupt_latency : PressureLimit;
  trace_bytes_per_frame : PressureLimit;
  persist_bytes_per_frame : PressureLimit;
  overlay_installs_per_frame : PressureLimit;
  bank_switches_per_token : PressureLimit;
  sram_page_switches_per_token : PressureLimit;
}.
#[export] Instance ResourcePressureThresholds_eq_dec : EqDecision ResourcePressureThresholds.
Proof. solve_decision. Defined.

Definition thresholds_all_le (a b : ResourcePressureThresholds) : bool :=
  pressure_limit_le a.(wram_hot) b.(wram_hot)
  && pressure_limit_le a.(hram_hot) b.(hram_hot)
  && pressure_limit_le a.(bank0_rom) b.(bank0_rom)
  && pressure_limit_le a.(switchable_rom_window) b.(switchable_rom_window)
  && pressure_limit_le a.(sram_window) b.(sram_window)
  && pressure_limit_le a.(slice_cycles) b.(slice_cycles)
  && pressure_limit_le a.(interrupt_latency) b.(interrupt_latency)
  && pressure_limit_le a.(trace_bytes_per_frame) b.(trace_bytes_per_frame)
  && pressure_limit_le a.(persist_bytes_per_frame) b.(persist_bytes_per_frame)
  && pressure_limit_le a.(overlay_installs_per_frame) b.(overlay_installs_per_frame)
  && pressure_limit_le a.(bank_switches_per_token) b.(bank_switches_per_token)
  && pressure_limit_le a.(sram_page_switches_per_token) b.(sram_page_switches_per_token).

Definition thresholds_all_ge (a b : ResourcePressureThresholds) : bool := thresholds_all_le b a.

Definition ResourcePressureThresholds_default : ResourcePressureThresholds := {|
  wram_hot := {| soft := 6 * 1024; hard := 8 * 1024 |};
  hram_hot := {| soft := 96; hard := 127 |};
  bank0_rom := {| soft := 14 * 1024; hard := 16 * 1024 |};
  switchable_rom_window := {| soft := 14 * 1024; hard := 16 * 1024 |};
  sram_window := {| soft := 6 * 1024; hard := 8 * 1024 |};
  slice_cycles := {| soft := 4000; hard := 8000 |};
  interrupt_latency := {| soft := 512; hard := 1024 |};
  trace_bytes_per_frame := {| soft := 512; hard := 1024 |};
  persist_bytes_per_frame := {| soft := 512; hard := 1024 |};
  overlay_installs_per_frame := {| soft := 1; hard := 4 |};
  bank_switches_per_token := {| soft := 2; hard := 8 |};
  sram_page_switches_per_token := {| soft := 1; hard := 4 |} |}.

Definition default_max_resource_pressure_thresholds : ResourcePressureThresholds := {|
  wram_hot := {| soft := 8 * 1024; hard := 8 * 1024 |};
  hram_hot := {| soft := 127; hard := 127 |};
  bank0_rom := {| soft := 16 * 1024; hard := 16 * 1024 |};
  switchable_rom_window := {| soft := 16 * 1024; hard := 16 * 1024 |};
  sram_window := {| soft := 8 * 1024; hard := 8 * 1024 |};
  slice_cycles := {| soft := (2 ^ 64 - 1) / 2; hard := (2 ^ 64 - 1) / 2 |};
  interrupt_latency := {| soft := (2 ^ 64 - 1) / 2; hard := (2 ^ 64 - 1) / 2 |};
  trace_bytes_per_frame := {| soft := 2 ^ 16 - 1; hard := 2 ^ 16 - 1 |};
  persist_bytes_per_frame := {| soft := 2 ^ 16 - 1; hard := 2 ^ 16 - 1 |};
  overlay_installs_per_frame := {| soft := 2 ^ 8 - 1; hard := 2 ^ 8 - 1 |};
  bank_switches_per_token := {| soft := 2 ^ 16 - 1; hard := 2 ^ 16 - 1 |};
  sram_page_switches_per_token := {| soft := 2 ^ 16 - 1; hard := 2 ^ 16 - 1 |} |}.

Record StageIterationLimits := {
  sil_range_plan : Z;
  sil_storage_plan : Z;
  sil_sram_page_plan : Z;
  sil_rom_window_plan : Z;
  sil_overlay_plan : Z;
  sil_arena_plan : Z;
  sil_gb_sched_ir : Z;
  sil_resource_state_validation : Z;
}.
#[export] Instance StageIterationLimits_eq_dec : EqDecision StageIterationLimits.
Proof. solve_decision. Defined.

Definition StageIterationLimits_uniform (limit : Z) : StageIterationLimits := {|
  sil_range_plan := limit; sil_storage_plan := limit; sil_sram_page_plan := limit;
  sil_rom_window_plan := limit; sil_overlay_plan := limit; sil_arena_plan := limit;
  sil_gb_sched_ir := limit; sil_resource_state_validation := limit |}.

Definition StageIterationLimits_all_le (a b : StageIterationLimits) : bool :=
  (a.(sil_range_plan) <=? b.(sil_range_plan))
  && (a.(sil_storage_plan) <=? b.(sil_storage_plan))
  && (a.(sil_sram_page_plan) <=? b.(sil_sram_page_plan))
  && (a.(sil_rom_window_plan) <=? b.(sil_rom_window_plan))
  && (a.(sil_overlay_plan) <=? b.(sil_overlay_plan))
  && (a.(sil_arena_plan) <=? b.(sil_arena_plan))
  && (a.(sil_gb_sched_ir) <=? b.(sil_gb_sched_ir))
  && (a.(sil_resource_state_validation) <=? b.(sil_resource_state_validation)).

Definition StageIterationLimits_default : StageIterationLimits := StageIterationLimits_uniform 4.

(** ** Knob groups and their bounds *)

Record PlacementKnob := { pk_profile : PlacementProfile }.
Record PlacementKnobBounds := { max_profile : PlacementProfile }.
Record ObservationKnob := {
  ok_observability : ObservabilityMode;
  ok_trace_demotion : TraceDemotionLevel;
  ok_probe_level : ProbeCollectionLevel;
}.
Record ObservationKnobBounds := {
  max_trace_demotion : TraceDemotionLevel;
  max_probe_level : ProbeCollectionLevel;
}.
Record RangeKnob := { rk_reduction_ceiling : ReductionPlanCeiling }.
Record RangeKnobBounds := { max_reduction_ceiling : ReductionPlanCeiling }.
Record StorageKnob := { stk_materialization : StorageMaterialization }.
Record StorageKnobBounds := { max_materialization : StorageMaterialization }.
Record SramKnob := {
  srk_page_aggression : SramPageAggression;
  srk_spill_policy : SramSpillPolicy;
}.
Record SramKnobBounds := {
  max_page_aggression : SramPageAggression;
  max_spill_policy : SramSpillPolicy;
}.
Record RomWindowKnob := {
  rwk_kernel_residency_bias : RomKernelResidencyBias;
  rwk_kernel_duplication_bias : RomKernelDuplicationBias;
}.
Record RomWindowKnobBounds := {
  max_kernel_residency_bias : RomKernelResidencyBias;
  max_kernel_duplication_bias : RomKernelDuplicationBias;
}.
Record OverlayKnob := { olk_promotion : OverlayPromotion }.
Record OverlayKnobBounds := { max_promotion : OverlayPromotion }.
Record ScheduleKnob := {
  sk_tile_search : ScheduleTileSearch;
  sk_slice_coarsening : ScheduleSliceCoarsening;
  sk_resource_pressure : ScheduleResourcePressure;
  sk_pressure_thresholds : ResourcePressureThresholds;
  sk_stage_iteration_ceilings : StageIterationLimits;
}.
Record ScheduleKnobBounds := {
  max_tile_search : ScheduleTileSearch;
  max_slice_coarsening : ScheduleSliceCoarsening;
  max_resource_pressure : ScheduleResourcePressure;
  max_pressure_thresholds : ResourcePressureThresholds;
  max_stage_iteration_ceilings : StageIterationLimits;
}.

#[export] Instance PlacementKnob_mono : MonotoneKnob PlacementKnob := monotone_group (fun self previous =>
  is_monotone_successor_of self.(pk_profile) previous.(pk_profile)).
#[export] Instance PlacementKnobBounds_mono : MonotoneKnob PlacementKnobBounds := monotone_group (fun self previous =>
  rank self.(max_profile) <=? rank previous.(max_profile)).
#[export] Instance ObservationKnob_mono : MonotoneKnob ObservationKnob := monotone_group (fun self previous =>
  is_monotone_successor_of self.(ok_trace_demotion) previous.(ok_trace_demotion)
  && is_monotone_successor_of self.(ok_probe_level) previous.(ok_probe_level)).
#[export] Instance ObservationKnobBounds_mono : MonotoneKnob ObservationKnobBounds := monotone_group (fun self previous =>
  (rank self.(max_trace_demotion) <=? rank previous.(max_trace_demotion))
  && (rank self.(max_probe_level) <=? rank previous.(max_probe_level))).
#[export] Instance RangeKnob_mono : MonotoneKnob RangeKnob := monotone_group (fun self previous =>
  is_monotone_successor_of self.(rk_reduction_ceiling) previous.(rk_reduction_ceiling)).
#[export] Instance RangeKnobBounds_mono : MonotoneKnob RangeKnobBounds := monotone_group (fun self previous =>
  rank self.(max_reduction_ceiling) <=? rank previous.(max_reduction_ceiling)).
#[export] Instance StorageKnob_mono : MonotoneKnob StorageKnob := monotone_group (fun self previous =>
  is_monotone_successor_of self.(stk_materialization) previous.(stk_materialization)).
#[export] Instance StorageKnobBounds_mono : MonotoneKnob StorageKnobBounds := monotone_group (fun self previous =>
  rank self.(max_materialization) <=? rank previous.(max_materialization)).
#[export] Instance SramKnob_mono : MonotoneKnob SramKnob := monotone_group (fun self previous =>
  is_monotone_successor_of self.(srk_page_aggression) previous.(srk_page_aggression)
  && is_monotone_successor_of self.(srk_spill_policy) previous.(srk_spill_policy)).
#[export] Instance SramKnobBounds_mono : MonotoneKnob SramKnobBounds := monotone_group (fun self previous =>
  (rank self.(max_page_aggression) <=? rank previous.(max_page_aggression))
  && (rank self.(max_spill_policy) <=? rank previous.(max_spill_policy))).
#[export] Instance RomWindowKnob_mono : MonotoneKnob RomWindowKnob := monotone_group (fun self previous =>
  is_monotone_successor_of self.(rwk_kernel_residency_bias) previous.(rwk_kernel_residency_bias)
  && is_monotone_successor_of self.(rwk_kernel_duplication_bias) previous.(rwk_kernel_duplication_bias)).
#[export] Instance RomWindowKnobBounds_mono : MonotoneKnob RomWindowKnobBounds := monotone_group (fun self previous =>
  (rank self.(max_kernel_residency_bias) <=? rank previous.(max_kernel_residency_bias))
  && (rank self.(max_kernel_duplication_bias) <=? rank previous.(max_kernel_duplication_bias))).
#[export] Instance OverlayKnob_mono : MonotoneKnob OverlayKnob := monotone_group (fun self previous =>
  is_monotone_successor_of self.(olk_promotion) previous.(olk_promotion)).
#[export] Instance OverlayKnobBounds_mono : MonotoneKnob OverlayKnobBounds := monotone_group (fun self previous =>
  rank self.(max_promotion) <=? rank previous.(max_promotion)).
#[export] Instance ScheduleKnob_mono : MonotoneKnob ScheduleKnob := monotone_group (fun self previous =>
  is_monotone_successor_of self.(sk_tile_search) previous.(sk_tile_search)
  && is_monotone_successor_of self.(sk_slice_coarsening) previous.(sk_slice_coarsening)
  && is_monotone_successor_of self.(sk_resource_pressure) previous.(sk_resource_pressure)
  && thresholds_all_ge self.(sk_pressure_thresholds) previous.(sk_pressure_thresholds)
  && StageIterationLimits_all_le self.(sk_stage_iteration_ceilings)
       previous.(sk_stage_iteration_ceilings)).
#[export] Instance ScheduleKnobBounds_mono : MonotoneKnob ScheduleKnobBounds := monotone_group (fun self previous =>
  (rank self.(max_tile_search) <=? rank previous.(max_tile_search))
  && (rank self.(max_slice_coarsening) <=? rank previous.(max_slice_coarsening))
  && (rank self.(max_resource_pressure) <=? rank previous.(max_resource_pressure))
  && thresholds_all_le self.(max_pressure_thresholds) previous.(max_pressure_thresholds)
  && StageIterationLimits_all_le self.(max_stage_iteration_ceilings)
       previous.(max_stage_iteration_ceilings)).

(** ** The repair policy *)

Inductive RepairReason :=
| AccumulatorOverflow | ArenaOverflow | SramPagePressure | RomWindowOverflow
| KernelResidencyImpossible | OverlayBudgetExceeded | BankNotFitting | SliceCycleOverrun
| InterruptLatencyExceeded | ResourceStateValidationFailed | ScheduleCostMissedTarget
| PlacementProfileFallback.
#[export] Instance RepairReason_eq_dec : EqDecision RepairReason.
Proof. solve_decision. Defined.

Inductive RepairPolicyProfile :=
| RPP_Bringup | RPP_BringupFirstFit | RPP_Default | RPP_TraceInvariant | RPP_Recovery.
#[export] Instance RepairPolicyProfile_eq_dec : EqDecision RepairPolicyProfile.
Proof. solve_decision. Defined.

Record RepairPolicy := {
  max_refinement_iters : Z;
  allow_placement_profile_fallback : bool;
  allow_trace_demotion : bool;
  allow_overlay_promotion : bool;
  allow_recompute_promotion : bool;
}.

Definition bringup_strict_first_fit : RepairPolicy := {|
  max_refinement_iters := 0;
  allow_placement_profile_fallback := false;
  allow_trace_demotion := false;
  allow_overlay_promotion := false;
  allow_recompute_promotion := false |}.

Definition for_profile (profile : RepairPolicyProfile) : RepairPolicy :=
  match profile with
  | RPP_Bringup => {|
      max_refinement_iters := 1; allow_placement_profile_fallback := false;
      allow_trace_demotion := false; allow_overlay_promotion := false;
      allow_recompute_promotion := false |}
  | RPP_BringupFirstFit => bringup_strict_first_fit
  | RPP_Default => {|
      max_refinement_iters := 4; allow_placement_profile_fallback := true;
      allow_trace_demotion := true; allow_overlay_promotion := true;
      allow_recompute_promotion := true |}
  | RPP_TraceInvariant => {|
      max_refinement_iters := 2; allow_placement_profile_fallback := false;
      allow_trace_demotion := false; allow_overlay_promotion := false;
      allow_recompute_promotion := false |}
  | RPP_Recovery => {|
      max_refinement_iters := 6; allow_placement_profile_fallback := true;
      allow_trace_demotion := true; allow_overlay_promotion := true;
      allow_recompute_promotion := true |}
  end.

(** ** Profile caps and policy sources *)

Inductive RenormStrategyPolicy := Policy_ExactPostBoundaryOnly | Policy_DynamicMargin (margin_q16_16 : Z).
Record RangeCapsSpec := MkRangeCapsSpec {
  profile_chunk_max : Z;
  profile_tile_max : Z;
  profile_tile_min : Z;
  renorm_strategy : RenormStrategyPolicy;
}.

Inductive PolicySource :=
| TargetDefault | ProfileDefault | CompileRequestOverride | HintBundle | Calibration
| PS_RepairProposal (id : string).

(** ** The groups are ordered *)

Class GroupOrder (A : Type) `{MonotoneKnob A} := {
  successor_refl : forall a : A, is_monotone_successor_of a a = true;
  successor_trans : forall a b c : A, is_monotone_successor_of a b = true ->
    is_monotone_successor_of b c = true -> is_monotone_successor_of a c = true;
}.

#[export] Instance lawful_group {A} `{LawfulKnob A} : GroupOrder A.
Proof.
  split.
  - intros a. rewrite successor_rank. apply Z.leb_refl.
  - intros a b c. rewrite !successor_rank, !Z.leb_le. lia.
Qed.

Lemma pressure_limit_le_spec a b :
  pressure_limit_le a b = true <-> soft a <= soft b /\ hard a <= hard b.
Proof. unfold pressure_limit_le. rewrite andb_true_iff, !Z.leb_le. done. Qed.

Lemma pressure_limit_le_refl a : pressure_limit_le a a = true.
Proof. apply pressure_limit_le_spec. lia. Qed.

Lemma pressure_limit_le_trans a b c :
  pressure_limit_le a b = true -> pressure_limit_le b c = true -> pressure_limit_le a c = true.
Proof. rewrite !pressure_limit_le_spec. lia. Qed.

#[export] Hint Resolve pressure_limit_le_refl : knobs.

Lemma thresholds_all_le_refl a : thresholds_all_le a a = true.
Proof. unfold thresholds_all_le. by rewrite !pressure_limit_le_refl. Qed.

Lemma thresholds_all_le_trans a b c :
  thresholds_all_le a b = true -> thresholds_all_le b c = true -> thresholds_all_le a c = true.
Proof.
  unfold thresholds_all_le. rewrite !andb_true_iff. intros Hab Hbc.
  destruct_and!. split_and!; by eapply pressure_limit_le_trans.
Qed.

Lemma StageIterationLimits_all_le_refl a : StageIterationLimits_all_le a a = true.
Proof. unfold StageIterationLimits_all_le. by rewrite !Z.leb_refl. Qed.

Lemma StageIterationLimits_all_le_trans a b c :
  StageIterationLimits_all_le a b = true -> StageIterationLimits_all_le b c = true ->
  StageIterationLimits_all_le a c = true.
Proof. unfold StageIterationLimits_all_le. rewrite !andb_true_iff, !Z.leb_le. lia. Qed.

#[export] Hint Resolve thresholds_all_le_refl StageIterationLimits_all_le_refl : knobs.

(** Each conjunct of a group's test is one of the orders above. *)
Ltac group_leaf :=
  first [ apply thresholds_all_le_refl | apply StageIterationLimits_all_le_refl
        | by eapply thresholds_all_le_trans | by eapply StageIterationLimits_all_le_trans
        | rewrite ?Z.leb_le in *; lia ].

Ltac solve_group :=
  split; [intros [] | intros [] [] []];
  unfold is_monotone_successor_of, thresholds_all_ge; simpl;
  rewrite ?andb_true_iff; intros; destruct_and?; split_and?; group_leaf.

#[export] Instance PlacementKnob_order : GroupOrder PlacementKnob.
Proof. solve_group. Qed.
#[export] Instance ObservationKnob_order : GroupOrder ObservationKnob.
Proof. solve_group. Qed.
#[export] Instance RangeKnob_order : GroupOrder RangeKnob.
Proof. solve_group. Qed.
#[export] Instance StorageKnob_order : GroupOrder StorageKnob.
Proof. solve_group. Qed.
#[export] Instance SramKnob_order : GroupOrder SramKnob.
Proof. solve_group. Qed.
#[export] Instance RomWindowKnob_order : GroupOrder RomWindowKnob.
Proof. solve_group. Qed.
#[export] Instance OverlayKnob_order : GroupOrder OverlayKnob.
Proof. solve_group. Qed.
#[export] Instance ScheduleKnob_order : GroupOrder ScheduleKnob.
Proof. solve_group. Qed.
