(* ===== verification/KnobDelta.v ===== *)
(** * Compile knobs and their repair deltas

    [gbf-policy/src/compile.rs]: the knob record of a compilation with its
    bounds, locks, overrides and provenance, the deltas by which a planning
    stage proposes to change it, and the checks that decide whether a delta is
    admissible.  The functions that apply a delta are those of
    [gbf-codegen/src/refinement_loop.rs].

    Identifiers, budgets and hashes are [Z]; paths and ids over strings are strings.  A
    [BTreeSet] is a [gset], except the values of [ForceRecompute], which the
    purity check walks in order and which are therefore a list. *)

From S2P Require Import Prelude KnobLattice.

(** ** Knob identifiers *)

Inductive CompileKnobId :=
| K_Placement | K_Observation | K_Range | K_Storage | K_Sram | K_RomWindow | K_Overlay | K_Schedule
| K_PlacementProfile | K_ObservationTraceDemotion | K_ObservationProbeSelection
| K_RangeReductionCeiling | K_StorageRecomputePromotion | K_StorageMaterializationOverrides
| K_SramPageAggression | K_SramSpillPolicy | K_RomKernelResidencyBias
| K_RomKernelDuplicationBias | K_RomKernelResidencyOverrides | K_OverlayPromotion
| K_ScheduleTileSearch | K_ScheduleSliceCoarsening | K_ScheduleResourcePressure
| K_StageIterationCeilings.
#[export] Instance CompileKnobId_eq_dec : EqDecision CompileKnobId.
Proof. solve_decision. Defined.
#[export] Program Instance CompileKnobId_finite : Finite CompileKnobId := {|
  enum := [K_Placement; K_Observation; K_Range; K_Storage; K_Sram; K_RomWindow; K_Overlay;
           K_Schedule; K_PlacementProfile; K_ObservationTraceDemotion;
           K_ObservationProbeSelection; K_RangeReductionCeiling; K_StorageRecomputePromotion;
           K_StorageMaterializationOverrides; K_SramPageAggression; K_SramSpillPolicy;
           K_RomKernelResidencyBias; K_RomKernelDuplicationBias;
           K_RomKernelResidencyOverrides; K_OverlayPromotion; K_ScheduleTileSearch;
           K_ScheduleSliceCoarsening; K_ScheduleResourcePressure; K_StageIterationCeilings] |}.
Next Obligation. by vm_compute; repeat constructor; set_solver. Qed.
Next Obligation. intros []; set_solver. Qed.

Definition top_level (k : CompileKnobId) : CompileKnobId :=
  match k with
  | K_Placement | K_PlacementProfile => K_Placement
  | K_Observation | K_ObservationTraceDemotion | K_ObservationProbeSelection => K_Observation
  | K_Range | K_RangeReductionCeiling => K_Range
  | K_Storage | K_StorageRecomputePromotion | K_StorageMaterializationOverrides => K_Storage
  | K_Sram | K_SramPageAggression | K_SramSpillPolicy => K_Sram
  | K_RomWindow | K_RomKernelResidencyBias | K_RomKernelDuplicationBias
  | K_RomKernelResidencyOverrides => K_RomWindow
  | K_Overlay | K_OverlayPromotion => K_Overlay
  | K_Schedule | K_ScheduleTileSearch | K_ScheduleSliceCoarsening
  | K_ScheduleResourcePressure | K_StageIterationCeilings => K_Schedule
  end.

(** ** Provenance *)

Inductive ConstraintOperation :=
| SeedDefault | TightenBound | ApplyPreference | ApplyHardConstraint | ApplyOverride
| ApplyCalibration
| AppliedRepairProposal (id : string)
| AuthorizedRelaxation (reason : RepairReason).

Record EvidenceRef := { ev_kind : string; ev_reference : string; ev_hash : option Z }.

Record ConstraintProvenance := {
  cp_source : PolicySource;
  cp_operation : ConstraintOperation;
  cp_evidence : list EvidenceRef;
}.

Record CompileKnobPath := {
  kp_knob : CompileKnobId;
  kp_selector : option string;
  kp_field : option string;
}.

Record CompileKnobProvenanceEntry := {
  pe_path : CompileKnobPath;
  pe_chain : list ConstraintProvenance;
}.

(** ** Selectors *)

Inductive KernelSelector :=
| KernelSpec (id : string)
| LayerExpert (layer expert : Z)
| KS_Section (id : Z).
#[export] Instance KernelSelector_eq_dec : EqDecision KernelSelector.
Proof. solve_decision. Defined.
#[export] Program Instance KernelSelector_countable : Countable KernelSelector :=
  inj_countable'
    (fun s => match s with KernelSpec i => inl i | LayerExpert l e => inr (inl (l, e))
                         | KS_Section i => inr (inr i) end)
    (fun c => match c with inl i => KernelSpec i | inr (inl (l, e)) => LayerExpert l e
                         | inr (inr i) => KS_Section i end) _.
Next Obligation. by intros []. Qed.

Inductive ValueSelector := VS_Value (id : Z) | VS_AliasClass (id : Z).
#[export] Instance ValueSelector_eq_dec : EqDecision ValueSelector.
Proof. solve_decision. Defined.
#[export] Program Instance ValueSelector_countable : Countable ValueSelector :=
  inj_countable'
    (fun s => match s with VS_Value i => inl i | VS_AliasClass i => inr i end)
    (fun c => match c with inl i => VS_Value i | inr i => VS_AliasClass i end) _.
Next Obligation. by intros []. Qed.

Inductive ReductionSelector := RS_Site (id : string) | RS_Layer (id : Z).
#[export] Instance ReductionSelector_eq_dec : EqDecision ReductionSelector.
Proof. solve_decision. Defined.
#[export] Program Instance ReductionSelector_countable : Countable ReductionSelector :=
  inj_countable'
    (fun s => match s with RS_Site i => inl i | RS_Layer i => inr i end)
    (fun c => match c with inl i => RS_Site i | inr i => RS_Layer i end) _.
Next Obligation. by intros []. Qed.

Inductive SliceClass := Micro | Frame | TokenBoundary | TraceHeavy.
#[export] Instance SliceClass_eq_dec : EqDecision SliceClass.
Proof. solve_decision. Defined.
#[export] Program Instance SliceClass_finite : Finite SliceClass := {|
  enum := [Micro; Frame; TokenBoundary; TraceHeavy] |}.
Next Obligation. repeat constructor; set_solver. Qed.
Next Obligation. intros []; set_solver. Qed.

Inductive TileSelector := TS_Kernel (id : string) | TS_Layer (id : Z) | TS_SliceClass (class : SliceClass).
#[export] Instance TileSelector_eq_dec : EqDecision TileSelector.
Proof. solve_decision. Defined.
#[export] Program Instance TileSelector_countable : Countable TileSelector :=
  inj_countable'
    (fun s => match s with TS_Kernel i => inl i | TS_Layer i => inr (inl i)
                         | TS_SliceClass c => inr (inr c) end)
    (fun c => match c with inl i => TS_Kernel i | inr (inl i) => TS_Layer i
                         | inr (inr c) => TS_SliceClass c end) _.
Next Obligation. by intros []. Qed.

Inductive TileCandidateClass := SmallWorkingSet | TC_Balanced | SwitchAmortized.
#[export] Instance TileCandidateClass_eq_dec : EqDecision TileCandidateClass.
Proof. solve_decision. Defined.
#[export] Program Instance TileCandidateClass_finite : Finite TileCandidateClass := {|
  enum := [SmallWorkingSet; TC_Balanced; SwitchAmortized] |}.
Next Obligation. repeat constructor; set_solver. Qed.
Next Obligation. intros []; set_solver. Qed.

(** ** The knobs of a compilation *)

Record CompileKnobValues := {
  placement : PlacementKnob;
  observation : ObservationKnob;
  range : RangeKnob;
  storage : StorageKnob;
  sram : SramKnob;
  rom_window : RomWindowKnob;
  overlay : OverlayKnob;
  schedule : ScheduleKnob;
}.

Record CompileKnobPartialValues := {
  pv_placement : option PlacementKnob;
  pv_observation : option ObservationKnob;
  pv_range : option RangeKnob;
  pv_storage : option StorageKnob;
  pv_sram : option SramKnob;
  pv_rom_window : option RomWindowKnob;
  pv_overlay : option OverlayKnob;
  pv_schedule : option ScheduleKnob;
}.

Record CompileKnobBounds := {
  b_placement : PlacementKnobBounds;
  b_observation : ObservationKnobBounds;
  b_range : RangeKnobBounds;
  b_storage : StorageKnobBounds;
  b_sram : SramKnobBounds;
  b_rom_window : RomWindowKnobBounds;
  b_overlay : OverlayKnobBounds;
  b_schedule : ScheduleKnobBounds;
}.

Record CompileKnobPartialBounds := {
  pb_placement : option PlacementKnobBounds;
  pb_observation : option ObservationKnobBounds;
  pb_range : option RangeKnobBounds;
  pb_storage : option StorageKnobBounds;
  pb_sram : option SramKnobBounds;
  pb_rom_window : option RomWindowKnobBounds;
  pb_overlay : option OverlayKnobBounds;
  pb_schedule : option ScheduleKnobBounds;
}.

Record CompileKnobOverrides := {
  ov_values : CompileKnobPartialValues;
  ov_bounds : CompileKnobPartialBounds;
  disabled_optional_probes : gset Z;
  forced_kernel_residency : gmap KernelSelector KernelResidency;
  forced_recompute : gset ValueSelector;
  reduction_ceiling_overrides : gmap ReductionSelector ReductionPlanCeiling;
  tile_class_overrides : gmap TileSelector (gset TileCandidateClass);
}.

Definition no_partial_values : CompileKnobPartialValues := {|
  pv_placement := None; pv_observation := None; pv_range := None; pv_storage := None;
  pv_sram := None; pv_rom_window := None; pv_overlay := None; pv_schedule := None |}.

Definition no_partial_bounds : CompileKnobPartialBounds := {|
  pb_placement := None; pb_observation := None; pb_range := None; pb_storage := None;
  pb_sram := None; pb_rom_window := None; pb_overlay := None; pb_schedule := None |}.

Definition CompileKnobOverrides_default : CompileKnobOverrides := {|
  ov_values := no_partial_values;
  ov_bounds := no_partial_bounds;
  disabled_optional_probes := ∅;
  forced_kernel_residency := ∅;
  forced_recompute := ∅;
  reduction_ceiling_overrides := ∅;
  tile_class_overrides := ∅ |}.

(** [KnobLockSet]. *)
Definition is_locked (locked : gset CompileKnobId) (knob : CompileKnobId) : bool :=
  bool_decide (knob ∈ locked) || bool_decide (top_level knob ∈ locked).

Record CompileKnobs := {
  global : CompileKnobValues;
  bounds : CompileKnobBounds;
  locks : gset CompileKnobId;
  overrides : CompileKnobOverrides;
  provenance : list CompileKnobProvenanceEntry;
}.

(** ** Deltas *)

Inductive ResourcePressureUpdate :=
| WramHot (limit : PressureLimit)
| HramHot (limit : PressureLimit)
| Bank0Rom (limit : PressureLimit)
| SwitchableRomWindow (limit : PressureLimit)
| SramWindow (limit : PressureLimit)
| SliceCycles (limit : PressureLimit)
| InterruptLatency (limit : PressureLimit)
| TraceBytesPerFrame (limit : PressureLimit)
| PersistBytesPerFrame (limit : PressureLimit)
| OverlayInstallsPerFrame (limit : PressureLimit)
| BankSwitchesPerToken (limit : PressureLimit)
| SramPageSwitchesPerToken (limit : PressureLimit).

Inductive KnobDelta :=
| AdvancePlacementProfile (to : PlacementProfile)
| SetTraceDemotion (to : TraceDemotionLevel)
| DisableOptionalProbes (probes : gset Z)
| RaiseReductionCeiling (selector : option ReductionSelector) (to : ReductionPlanCeiling)
| PromoteRecomputeLevel (to : StorageMaterialization)
| ForceRecompute (values : list ValueSelector)
| AdvanceSramPageAggression (to : SramPageAggression)
| AdvanceSramSpillPolicy (to : SramSpillPolicy)
| AdvanceKernelResidencyBias (to : RomKernelResidencyBias)
| AdvanceKernelDuplicationBias (to : RomKernelDuplicationBias)
| ForceKernelResidency (selector : KernelSelector) (to : KernelResidency)
| PromoteOverlay (to : OverlayPromotion)
| NarrowTileClasses (selector : TileSelector) (remaining : gset TileCandidateClass)
| SetSliceCoarsening (to : ScheduleSliceCoarsening)
| UpdatePressureThreshold (update : ResourcePressureUpdate).

(** [ConstraintDelta]. *)
Record ConstraintDelta := { changes : list KnobDelta }.

Definition knob_id (d : KnobDelta) : CompileKnobId :=
  match d with
  | AdvancePlacementProfile _ => K_PlacementProfile
  | SetTraceDemotion _ => K_ObservationTraceDemotion
  | DisableOptionalProbes _ => K_ObservationProbeSelection
  | RaiseReductionCeiling _ _ => K_RangeReductionCeiling
  | PromoteRecomputeLevel _ => K_StorageRecomputePromotion
  | ForceRecompute _ => K_StorageMaterializationOverrides
  | AdvanceSramPageAggression _ => K_SramPageAggression
  | AdvanceSramSpillPolicy _ => K_SramSpillPolicy
  | AdvanceKernelResidencyBias _ => K_RomKernelResidencyBias
  | AdvanceKernelDuplicationBias _ => K_RomKernelDuplicationBias
  | ForceKernelResidency _ _ => K_RomKernelResidencyOverrides
  | PromoteOverlay _ => K_OverlayPromotion
  | NarrowTileClasses _ _ => K_ScheduleTileSearch
  | SetSliceCoarsening _ => K_ScheduleSliceCoarsening
  | UpdatePressureThreshold _ => K_ScheduleResourcePressure
  end.

Record RecomputePurityFacts := {
  pure_values : gset ValueSelector;
  effectful_values : gset ValueSelector;
}.

Definition allows (f : RecomputePurityFacts) (v : ValueSelector) : bool :=
  bool_decide (v ∈ f.(pure_values)) && negb (bool_decide (v ∈ f.(effectful_values))).

Inductive DeltaRejection :=
| DR_AcceptedRefinementBudgetExhausted (max_refinement_iters : Z)
| DR_KnobLocked (knob : CompileKnobId)
| DR_PolicyToggleDisabled (knob : CompileKnobId) (toggle : string)
| DR_BeyondBounds (knob : CompileKnobId) (attempted max : string)
| DR_NotMonotone (knob : CompileKnobId) (current attempted : string)
| DR_InvariantObservabilityViolation (knob : CompileKnobId)
| DR_EffectfulRecompute (value : ValueSelector).
#[export] Instance DeltaRejection_eq_dec : EqDecision DeltaRejection.
Proof. solve_decision. Defined.

(** ** The checks *)

Definition disabled_policy_toggle (d : KnobDelta) (p : RepairPolicy) : option string :=
  match d with
  | AdvancePlacementProfile _ =>
      if negb p.(allow_placement_profile_fallback) then Some "allow_placement_profile_fallback" else None
  | SetTraceDemotion _ | DisableOptionalProbes _ =>
      if negb p.(allow_trace_demotion) then Some "allow_trace_demotion" else None
  | PromoteRecomputeLevel _ | ForceRecompute _ =>
      if negb p.(allow_recompute_promotion) then Some "allow_recompute_promotion" else None
  | PromoteOverlay _ =>
      if negb p.(allow_overlay_promotion) then Some "allow_overlay_promotion" else None
  | ForceKernelResidency _ KR_WramOverlay =>
      if negb p.(allow_overlay_promotion) then Some "allow_overlay_promotion" else None
  | _ => None
  end.

Definition check_ordered_bound {T} `{MonotoneKnob T, RDebug T}
    (knob : CompileKnobId) (attempted max : T) : outcome DeltaRejection unit :=
  if rank attempted <=? rank max then Ok ()
  else Err (DR_BeyondBounds knob (debug attempted) (debug max)).

Definition check_strict_advance {T} `{MonotoneKnob T, RDebug T}
    (knob : CompileKnobId) (current attempted : T) : outcome DeltaRejection unit :=
  if is_strict_advance current attempted then Ok ()
  else Err (DR_NotMonotone knob (debug current) (debug attempted)).

Definition soft_text (field : string) (l : PressureLimit) : string :=
  String.append field (String.append ".soft=" (pretty l.(soft))).
Definition limit_text (field : string) (l : PressureLimit) : string :=
  String.append (soft_text field l)
    (String.append ", " (String.append field (String.append ".hard=" (pretty l.(hard))))).

Definition check_pressure_limit (field : string) (l : PressureLimit) : outcome DeltaRejection unit :=
  if l.(soft) <=? l.(hard) then Ok ()
  else Err (DR_BeyondBounds K_ScheduleResourcePressure (soft_text field l)
              (String.append field (String.append ".hard="
                 (String.append (pretty l.(hard)) "; invariant soft <= hard")))).

Definition check_pressure_limit_bound (field : string) (attempted max : PressureLimit)
    : outcome DeltaRejection unit :=
  if (attempted.(soft) <=? max.(soft)) && (attempted.(hard) <=? max.(hard)) then Ok ()
  else Err (DR_BeyondBounds K_ScheduleResourcePressure
              (limit_text field attempted) (limit_text field max)).

Definition check_pressure_limit_monotone (field : string) (attempted current : PressureLimit)
    : outcome DeltaRejection unit :=
  if (current.(soft) <=? attempted.(soft)) && (current.(hard) <=? attempted.(hard))
     && (negb (attempted.(soft) =? current.(soft)) || negb (attempted.(hard) =? current.(hard)))
  then Ok ()
  else Err (DR_NotMonotone K_ScheduleResourcePressure
              (limit_text field current) (limit_text field attempted)).

Definition check_pressure_update_limit (u : ResourcePressureUpdate) : outcome DeltaRejection unit :=
  match u with
  | WramHot l => check_pressure_limit "wram_hot" l
  | HramHot l => check_pressure_limit "hram_hot" l
  | Bank0Rom l => check_pressure_limit "bank0_rom" l
  | SwitchableRomWindow l => check_pressure_limit "switchable_rom_window" l
  | SramWindow l => check_pressure_limit "sram_window" l
  | SliceCycles l => check_pressure_limit "slice_cycles" l
  | InterruptLatency l => check_pressure_limit "interrupt_latency" l
  | TraceBytesPerFrame l => check_pressure_limit "trace_bytes_per_frame" l
  | PersistBytesPerFrame l => check_pressure_limit "persist_bytes_per_frame" l
  | OverlayInstallsPerFrame l => check_pressure_limit "overlay_installs_per_frame" l
  | BankSwitchesPerToken l => check_pressure_limit "bank_switches_per_token" l
  | SramPageSwitchesPerToken l => check_pressure_limit "sram_page_switches_per_token" l
  end.

Definition check_pressure_update_bound (u : ResourcePressureUpdate) (max : ResourcePressureThresholds)
    : outcome DeltaRejection unit :=
  match u with
  | WramHot l => check_pressure_limit_bound "wram_hot" l max.(wram_hot)
  | HramHot l => check_pressure_limit_bound "hram_hot" l max.(hram_hot)
  | Bank0Rom l => check_pressure_limit_bound "bank0_rom" l max.(bank0_rom)
  | SwitchableRomWindow l =>
      check_pressure_limit_bound "switchable_rom_window" l max.(switchable_rom_window)
  | SramWindow l => check_pressure_limit_bound "sram_window" l max.(sram_window)
  | SliceCycles l => check_pressure_limit_bound "slice_cycles" l max.(slice_cycles)
  | InterruptLatency l => check_pressure_limit_bound "interrupt_latency" l max.(interrupt_latency)
  | TraceBytesPerFrame l =>
      check_pressure_limit_bound "trace_bytes_per_frame" l max.(trace_bytes_per_frame)
  | PersistBytesPerFrame l =>
      check_pressure_limit_bound "persist_bytes_per_frame" l max.(persist_bytes_per_frame)
  | OverlayInstallsPerFrame l =>
      check_pressure_limit_bound "overlay_installs_per_frame" l max.(overlay_installs_per_frame)
  | BankSwitchesPerToken l =>
      check_pressure_limit_bound "bank_switches_per_token" l max.(bank_switches_per_token)
  | SramPageSwitchesPerToken l =>
      check_pressure_limit_bound "sram_page_switches_per_token" l max.(sram_page_switches_per_token)
  end.

Definition check_pressure_update_monotone (u : ResourcePressureUpdate)
    (current : ResourcePressureThresholds) : outcome DeltaRejection unit :=
  match u with
  | WramHot l => check_pressure_limit_monotone "wram_hot" l current.(wram_hot)
  | HramHot l => check_pressure_limit_monotone "hram_hot" l current.(hram_hot)
  | Bank0Rom l => check_pressure_limit_monotone "bank0_rom" l current.(bank0_rom)
  | SwitchableRomWindow l =>
      check_pressure_limit_monotone "switchable_rom_window" l current.(switchable_rom_window)
  | SramWindow l => check_pressure_limit_monotone "sram_window" l current.(sram_window)
  | SliceCycles l => check_pressure_limit_monotone "slice_cycles" l current.(slice_cycles)
  | InterruptLatency l =>
      check_pressure_limit_monotone "interrupt_latency" l current.(interrupt_latency)
  | TraceBytesPerFrame l =>
      check_pressure_limit_monotone "trace_bytes_per_frame" l current.(trace_bytes_per_frame)
  | PersistBytesPerFrame l =>
      check_pressure_limit_monotone "persist_bytes_per_frame" l current.(persist_bytes_per_frame)
  | OverlayInstallsPerFrame l =>
      check_pressure_limit_monotone "overlay_installs_per_frame" l current.(overlay_installs_per_frame)
  | BankSwitchesPerToken l =>
      check_pressure_limit_monotone "bank_switches_per_token" l current.(bank_switches_per_token)
  | SramPageSwitchesPerToken l =>
      check_pressure_limit_monotone "sram_page_switches_per_token" l
        current.(sram_page_switches_per_token)
  end.

Definition check_delta_bounds (d : KnobDelta) (k : CompileKnobs) : outcome DeltaRejection unit :=
  let b := k.(bounds) in
  match d with
  | AdvancePlacementProfile to =>
      check_ordered_bound K_PlacementProfile to b.(b_placement).(max_profile)
  | SetTraceDemotion to =>
      check_ordered_bound K_ObservationTraceDemotion to b.(b_observation).(max_trace_demotion)
  | RaiseReductionCeiling _ to =>
      check_ordered_bound K_RangeReductionCeiling to b.(b_range).(max_reduction_ceiling)
  | PromoteRecomputeLevel to =>
      check_ordered_bound K_StorageRecomputePromotion to b.(b_storage).(max_materialization)
  | AdvanceSramPageAggression to =>
      check_ordered_bound K_SramPageAggression to b.(b_sram).(max_page_aggression)
  | AdvanceSramSpillPolicy to =>
      check_ordered_bound K_SramSpillPolicy to b.(b_sram).(max_spill_policy)
  | AdvanceKernelResidencyBias to =>
      check_ordered_bound K_RomKernelResidencyBias to b.(b_rom_window).(max_kernel_residency_bias)
  | AdvanceKernelDuplicationBias to =>
      check_ordered_bound K_RomKernelDuplicationBias to b.(b_rom_window).(max_kernel_duplication_bias)
  | PromoteOverlay to =>
      check_ordered_bound K_OverlayPromotion to b.(b_overlay).(max_promotion)
  | SetSliceCoarsening to =>
      check_ordered_bound K_ScheduleSliceCoarsening to b.(b_schedule).(max_slice_coarsening)
  | DisableOptionalProbes _ | ForceRecompute _ | ForceKernelResidency _ _
  | NarrowTileClasses _ _ => Ok ()
  | UpdatePressureThreshold u =>
      let* _ := check_pressure_update_limit u in
      check_pressure_update_bound u b.(b_schedule).(max_pressure_thresholds)
  end.

Definition check_delta_monotone (d : KnobDelta) (k : CompileKnobs) : outcome DeltaRejection unit :=
  let g := k.(global) in
  match d with
  | AdvancePlacementProfile to =>
      check_strict_advance K_PlacementProfile g.(placement).(pk_profile) to
  | SetTraceDemotion to =>
      check_strict_advance K_ObservationTraceDemotion g.(observation).(ok_trace_demotion) to
  | RaiseReductionCeiling _ to =>
      check_strict_advance K_RangeReductionCeiling g.(range).(rk_reduction_ceiling) to
  | PromoteRecomputeLevel to =>
      check_strict_advance K_StorageRecomputePromotion g.(storage).(stk_materialization) to
  | AdvanceSramPageAggression to =>
      check_strict_advance K_SramPageAggression g.(sram).(srk_page_aggression) to
  | AdvanceSramSpillPolicy to =>
      check_strict_advance K_SramSpillPolicy g.(sram).(srk_spill_policy) to
  | AdvanceKernelResidencyBias to =>
      check_strict_advance K_RomKernelResidencyBias g.(rom_window).(rwk_kernel_residency_bias) to
  | AdvanceKernelDuplicationBias to =>
      check_strict_advance K_RomKernelDuplicationBias g.(rom_window).(rwk_kernel_duplication_bias) to
  | PromoteOverlay to =>
      check_strict_advance K_OverlayPromotion g.(overlay).(olk_promotion) to
  | SetSliceCoarsening to =>
      check_strict_advance K_ScheduleSliceCoarsening g.(schedule).(sk_slice_coarsening) to
  | DisableOptionalProbes probes =>
      if bool_decide (probes = ∅)
      then Err (DR_NotMonotone K_ObservationProbeSelection "disabled_optional_probes" "empty")
      else Ok ()
  | ForceRecompute values =>
      match values with
      | [] => Err (DR_NotMonotone K_StorageMaterializationOverrides "forced_recompute" "empty")
      | _ => Ok ()
      end
  | ForceKernelResidency _ _ => Ok ()
  | UpdatePressureThreshold u =>
      check_pressure_update_monotone u g.(schedule).(sk_pressure_thresholds)
  | NarrowTileClasses _ remaining =>
      if bool_decide (remaining = ∅)
      then Err (DR_NotMonotone K_ScheduleTileSearch "tile_class_overrides" "empty")
      else Ok ()
  end.

Definition check_recompute_purity (d : KnobDelta) (facts : RecomputePurityFacts)
    : outcome DeltaRejection unit :=
  match d with
  | ForceRecompute values =>
      match find (fun v => negb (allows facts v)) values with
      | Some v => Err (DR_EffectfulRecompute v)
      | None => Ok ()
      end
  | _ => Ok ()
  end.

Definition is_trace_knob (k : CompileKnobId) : bool :=
  match k with K_ObservationTraceDemotion | K_ObservationProbeSelection => true | _ => false end.

Definition check_delta_admissible_with_recompute_purity (d : KnobDelta) (current : CompileKnobs)
    (policy : RepairPolicy) (observability : ObservabilityMode) (purity : RecomputePurityFacts)
    : outcome DeltaRejection unit :=
  let knob := knob_id d in
  if is_locked current.(locks) knob then Err (DR_KnobLocked knob) else
  match disabled_policy_toggle d policy with
  | Some toggle => Err (DR_PolicyToggleDisabled knob toggle)
  | None =>
      let* _ := check_delta_bounds d current in
      let* _ := check_delta_monotone d current in
      let* _ := check_recompute_purity d purity in
      if bool_decide (observability = Invariant) && is_trace_knob knob
      then Err (DR_InvariantObservabilityViolation knob)
      else Ok ()
  end.

Definition check_delta_admissible (d : KnobDelta) (current : CompileKnobs) (policy : RepairPolicy)
    (observability : ObservabilityMode) : outcome DeltaRejection unit :=
  check_delta_admissible_with_recompute_purity d current policy observability
    {| pure_values := ∅; effectful_values := ∅ |}.

(** ** Applying a delta *)

Definition set_global (f : CompileKnobValues -> CompileKnobValues) (k : CompileKnobs) : CompileKnobs :=
  {| global := f k.(global); bounds := k.(bounds); locks := k.(locks);
     overrides := k.(overrides); provenance := k.(provenance) |}.

Definition set_overrides (f : CompileKnobOverrides -> CompileKnobOverrides) (k : CompileKnobs)
    : CompileKnobs :=
  {| global := k.(global); bounds := k.(bounds); locks := k.(locks);
     overrides := f k.(overrides); provenance := k.(provenance) |}.

Definition push_provenance (e : CompileKnobProvenanceEntry) (k : CompileKnobs) : CompileKnobs :=
  {| global := k.(global); bounds := k.(bounds); locks := k.(locks);
     overrides := k.(overrides); provenance := k.(provenance) ++ [e] |}.

Definition set_placement (x : PlacementKnob) (g : CompileKnobValues) : CompileKnobValues :=
  {| placement := x; observation := g.(observation); range := g.(range); storage := g.(storage);
     sram := g.(sram); rom_window := g.(rom_window); overlay := g.(overlay);
     schedule := g.(schedule) |}.
Definition set_observation (x : ObservationKnob) (g : CompileKnobValues) : CompileKnobValues :=
  {| placement := g.(placement); observation := x; range := g.(range); storage := g.(storage);
     sram := g.(sram); rom_window := g.(rom_window); overlay := g.(overlay);
     schedule := g.(schedule) |}.
Definition set_range (x : RangeKnob) (g : CompileKnobValues) : CompileKnobValues :=
  {| placement := g.(placement); observation := g.(observation); range := x;
     storage := g.(storage); sram := g.(sram); rom_window := g.(rom_window);
     overlay := g.(overlay); schedule := g.(schedule) |}.
Definition set_storage (x : StorageKnob) (g : CompileKnobValues) : CompileKnobValues :=
  {| placement := g.(placement); observation := g.(observation); range := g.(range);
     storage := x; sram := g.(sram); rom_window := g.(rom_window);
     overlay := g.(overlay); schedule := g.(schedule) |}.
Definition set_sram (x : SramKnob) (g : CompileKnobValues) : CompileKnobValues :=
  {| placement := g.(placement); observation := g.(observation); range := g.(range);
     storage := g.(storage); sram := x; rom_window := g.(rom_window);
     overlay := g.(overlay); schedule := g.(schedule) |}.
Definition set_rom_window (x : RomWindowKnob) (g : CompileKnobValues) : CompileKnobValues :=
  {| placement := g.(placement); observation := g.(observation); range := g.(range);
     storage := g.(storage); sram := g.(sram); rom_window := x;
     overlay := g.(overlay); schedule := g.(schedule) |}.
Definition set_overlay (x : OverlayKnob) (g : CompileKnobValues) : CompileKnobValues :=
  {| placement := g.(placement); observation := g.(observation); range := g.(range);
     storage := g.(storage); sram := g.(sram); rom_window := g.(rom_window);
     overlay := x; schedule := g.(schedule) |}.
Definition set_schedule (x : ScheduleKnob) (g : CompileKnobValues) : CompileKnobValues :=
  {| placement := g.(placement); observation := g.(observation); range := g.(range);
     storage := g.(storage); sram := g.(sram); rom_window := g.(rom_window);
     overlay := g.(overlay); schedule := x |}.

(** [&mut thresholds.<field> = *limit]. *)
Definition set_threshold (u : ResourcePressureUpdate) (t : ResourcePressureThresholds)
    : ResourcePressureThresholds :=
  let '(Build_ResourcePressureThresholds wh hh b0 sw sr sl il tb pb oi bs ss) := t in
  match u with
  | WramHot l => Build_ResourcePressureThresholds l hh b0 sw sr sl il tb pb oi bs ss
  | HramHot l => Build_ResourcePressureThresholds wh l b0 sw sr sl il tb pb oi bs ss
  | Bank0Rom l => Build_ResourcePressureThresholds wh hh l sw sr sl il tb pb oi bs ss
  | SwitchableRomWindow l => Build_ResourcePressureThresholds wh hh b0 l sr sl il tb pb oi bs ss
  | SramWindow l => Build_ResourcePressureThresholds wh hh b0 sw l sl il tb pb oi bs ss
  | SliceCycles l => Build_ResourcePressureThresholds wh hh b0 sw sr l il tb pb oi bs ss
  | InterruptLatency l => Build_ResourcePressureThresholds wh hh b0 sw sr sl l tb pb oi bs ss
  | TraceBytesPerFrame l => Build_ResourcePressureThresholds wh hh b0 sw sr sl il l pb oi bs ss
  | PersistBytesPerFrame l => Build_ResourcePressureThresholds wh hh b0 sw sr sl il tb l oi bs ss
  | OverlayInstallsPerFrame l => Build_ResourcePressureThresholds wh hh b0 sw sr sl il tb pb l bs ss
  | BankSwitchesPerToken l => Build_ResourcePressureThresholds wh hh b0 sw sr sl il tb pb oi l ss
  | SramPageSwitchesPerToken l => Build_ResourcePressureThresholds wh hh b0 sw sr sl il tb pb oi bs l
  end.

Definition apply_pressure_update (k : CompileKnobs) (u : ResourcePressureUpdate) : CompileKnobs :=
  set_global (fun g => set_schedule
    {| sk_tile_search := g.(schedule).(sk_tile_search);
       sk_slice_coarsening := g.(schedule).(sk_slice_coarsening);
       sk_resource_pressure := g.(schedule).(sk_resource_pressure);
       sk_pressure_thresholds := set_threshold u g.(schedule).(sk_pressure_thresholds);
       sk_stage_iteration_ceilings := g.(schedule).(sk_stage_iteration_ceilings) |} g) k.

Definition apply_knob_delta (k : CompileKnobs) (d : KnobDelta) : CompileKnobs :=
  match d with
  | AdvancePlacementProfile to => set_global (set_placement {| pk_profile := to |}) k
  | SetTraceDemotion to =>
      set_global (fun g => set_observation
        {| ok_observability := g.(observation).(ok_observability);
           ok_trace_demotion := to;
           ok_probe_level := g.(observation).(ok_probe_level) |} g) k
  | DisableOptionalProbes probes =>
      set_overrides (fun o => {|
        ov_values := o.(ov_values); ov_bounds := o.(ov_bounds);
        disabled_optional_probes := o.(disabled_optional_probes) ∪ probes;
        forced_kernel_residency := o.(forced_kernel_residency);
        forced_recompute := o.(forced_recompute);
        reduction_ceiling_overrides := o.(reduction_ceiling_overrides);
        tile_class_overrides := o.(tile_class_overrides) |}) k
  | RaiseReductionCeiling (Some selector) to =>
      set_overrides (fun o => {|
        ov_values := o.(ov_values); ov_bounds := o.(ov_bounds);
        disabled_optional_probes := o.(disabled_optional_probes);
        forced_kernel_residency := o.(forced_kernel_residency);
        forced_recompute := o.(forced_recompute);
        reduction_ceiling_overrides := <[selector := to]> o.(reduction_ceiling_overrides);
        tile_class_overrides := o.(tile_class_overrides) |}) k
  | RaiseReductionCeiling None to => set_global (set_range {| rk_reduction_ceiling := to |}) k
  | PromoteRecomputeLevel to => set_global (set_storage {| stk_materialization := to |}) k
  | ForceRecompute values =>
      set_overrides (fun o => {|
        ov_values := o.(ov_values); ov_bounds := o.(ov_bounds);
        disabled_optional_probes := o.(disabled_optional_probes);
        forced_kernel_residency := o.(forced_kernel_residency);
        forced_recompute := o.(forced_recompute) ∪ list_to_set values;
        reduction_ceiling_overrides := o.(reduction_ceiling_overrides);
        tile_class_overrides := o.(tile_class_overrides) |}) k
  | AdvanceSramPageAggression to =>
      set_global (fun g => set_sram
        {| srk_page_aggression := to; srk_spill_policy := g.(sram).(srk_spill_policy) |} g) k
  | AdvanceSramSpillPolicy to =>
      set_global (fun g => set_sram
        {| srk_page_aggression := g.(sram).(srk_page_aggression); srk_spill_policy := to |} g) k
  | AdvanceKernelResidencyBias to =>
      set_global (fun g => set_rom_window
        {| rwk_kernel_residency_bias := to;
           rwk_kernel_duplication_bias := g.(rom_window).(rwk_kernel_duplication_bias) |} g) k
  | AdvanceKernelDuplicationBias to =>
      set_global (fun g => set_rom_window
        {| rwk_kernel_residency_bias := g.(rom_window).(rwk_kernel_residency_bias);
           rwk_kernel_duplication_bias := to |} g) k
  | ForceKernelResidency selector to =>
      set_overrides (fun o => {|
        ov_values := o.(ov_values); ov_bounds := o.(ov_bounds);
        disabled_optional_probes := o.(disabled_optional_probes);
        forced_kernel_residency := <[selector := to]> o.(forced_kernel_residency);
        forced_recompute := o.(forced_recompute);
        reduction_ceiling_overrides := o.(reduction_ceiling_overrides);
        tile_class_overrides := o.(tile_class_overrides) |}) k
  | PromoteOverlay to => set_global (set_overlay {| olk_promotion := to |}) k
  | NarrowTileClasses selector remaining =>
      set_overrides (fun o => {|
        ov_values := o.(ov_values); ov_bounds := o.(ov_bounds);
        disabled_optional_probes := o.(disabled_optional_probes);
        forced_kernel_residency := o.(forced_kernel_residency);
        forced_recompute := o.(forced_recompute);
        reduction_ceiling_overrides := o.(reduction_ceiling_overrides);
        tile_class_overrides := <[selector := remaining]> o.(tile_class_overrides) |}) k
  | SetSliceCoarsening to =>
      set_global (fun g => set_schedule
        {| sk_tile_search := g.(schedule).(sk_tile_search);
           sk_slice_coarsening := to;
           sk_resource_pressure := g.(schedule).(sk_resource_pressure);
           sk_pressure_thresholds := g.(schedule).(sk_pressure_thresholds);
           sk_stage_iteration_ceilings := g.(schedule).(sk_stage_iteration_ceilings) |} g) k
  | UpdatePressureThreshold u => apply_pressure_update k u
  end.

Definition repair_provenance_entry (knob : CompileKnobId) (id : string) : CompileKnobProvenanceEntry := {|
  pe_path := {| kp_knob := knob; kp_selector := None; kp_field := Some "repair.delta" |};
  pe_chain := [{| cp_source := PS_RepairProposal id;
                  cp_operation := AppliedRepairProposal id;
                  cp_evidence := [] |}] |}.

Definition apply_constraint_delta (k : CompileKnobs) (id : string) (delta : ConstraintDelta)
    : CompileKnobs :=
  fold_left (fun k change =>
      push_provenance (repair_provenance_entry (knob_id change) id) (apply_knob_delta k change))
    delta.(changes) k.
