(* ===== verification/KnobFacts.v ===== *)
(** * What an admissible delta does to the knobs

    The order on knob values that the repair policy promises to climb, the
    bounds and locks it promises to respect, and that one admissible delta, or
    a proposal of several, keeps these promises.  The overrides of single sites,
    kernels and tiles are the exception: [overrides_may_regress] shows admissible
    deltas that move them backwards. *)

From S2P Require Import Prelude KnobLattice KnobDelta.

(** ** The promises *)

(** Every group of knob values is a monotone successor of the old one. *)
Definition values_advance (old new : CompileKnobValues) : Prop :=
  is_monotone_successor_of new.(placement) old.(placement) = true
  /\ is_monotone_successor_of new.(observation) old.(observation) = true
  /\ is_monotone_successor_of new.(range) old.(range) = true
  /\ is_monotone_successor_of new.(storage) old.(storage) = true
  /\ is_monotone_successor_of new.(sram) old.(sram) = true
  /\ is_monotone_successor_of new.(rom_window) old.(rom_window) = true
  /\ is_monotone_successor_of new.(overlay) old.(overlay) = true
  /\ is_monotone_successor_of new.(schedule) old.(schedule) = true.

#[export] Instance values_advance_preorder : PreOrder values_advance.
Proof.
  split.
  - intros v. unfold values_advance. by rewrite !successor_refl.
  - intros u v w (?&?&?&?&?&?&?&?) (?&?&?&?&?&?&?&?).
    split_and!; by eapply successor_trans.
Qed.

Definition limit_wf (l : PressureLimit) : Prop := soft l <= hard l.

Definition thresholds_wf (t : ResourcePressureThresholds) : Prop :=
  limit_wf t.(wram_hot) /\ limit_wf t.(hram_hot) /\ limit_wf t.(bank0_rom)
  /\ limit_wf t.(switchable_rom_window) /\ limit_wf t.(sram_window) /\ limit_wf t.(slice_cycles)
  /\ limit_wf t.(interrupt_latency) /\ limit_wf t.(trace_bytes_per_frame)
  /\ limit_wf t.(persist_bytes_per_frame) /\ limit_wf t.(overlay_installs_per_frame)
  /\ limit_wf t.(bank_switches_per_token) /\ limit_wf t.(sram_page_switches_per_token).

(** The values that deltas change are within their bounds. *)
Definition within_bounds (k : CompileKnobs) : Prop :=
  let g := k.(global) in let b := k.(bounds) in
  rank g.(placement).(pk_profile) <= rank b.(b_placement).(max_profile)
  /\ rank g.(observation).(ok_trace_demotion) <= rank b.(b_observation).(max_trace_demotion)
  /\ rank g.(range).(rk_reduction_ceiling) <= rank b.(b_range).(max_reduction_ceiling)
  /\ rank g.(storage).(stk_materialization) <= rank b.(b_storage).(max_materialization)
  /\ rank g.(sram).(srk_page_aggression) <= rank b.(b_sram).(max_page_aggression)
  /\ rank g.(sram).(srk_spill_policy) <= rank b.(b_sram).(max_spill_policy)
  /\ rank g.(rom_window).(rwk_kernel_residency_bias)
     <= rank b.(b_rom_window).(max_kernel_residency_bias)
  /\ rank g.(rom_window).(rwk_kernel_duplication_bias)
     <= rank b.(b_rom_window).(max_kernel_duplication_bias)
  /\ rank g.(overlay).(olk_promotion) <= rank b.(b_overlay).(max_promotion)
  /\ rank g.(schedule).(sk_slice_coarsening) <= rank b.(b_schedule).(max_slice_coarsening)
  /\ thresholds_all_le g.(schedule).(sk_pressure_thresholds)
       b.(b_schedule).(max_pressure_thresholds) = true
  /\ thresholds_wf g.(schedule).(sk_pressure_thresholds)
  /\ map_Forall (fun _ c => rank c <= rank b.(b_range).(max_reduction_ceiling))
       k.(overrides).(reduction_ceiling_overrides).

(** No override is dropped, and only pure values are forced to be recomputed. *)
Definition overrides_grow (pur : RecomputePurityFacts) (old new : CompileKnobOverrides) : Prop :=
  new.(ov_values) = old.(ov_values) /\ new.(ov_bounds) = old.(ov_bounds)
  /\ old.(disabled_optional_probes) ⊆ new.(disabled_optional_probes)
  /\ old.(forced_recompute) ⊆ new.(forced_recompute)
  /\ (forall v, v ∈ new.(forced_recompute) -> v ∈ old.(forced_recompute) \/ allows pur v = true)
  /\ dom old.(forced_kernel_residency) ⊆ dom new.(forced_kernel_residency)
  /\ dom old.(reduction_ceiling_overrides) ⊆ dom new.(reduction_ceiling_overrides)
  /\ dom old.(tile_class_overrides) ⊆ dom new.(tile_class_overrides).

#[export] Instance overrides_grow_preorder pur : PreOrder (overrides_grow pur).
Proof.
  split.
  - intros o. unfold overrides_grow. split_and!; by auto.
  - intros o1 o2 o3 (?&?&?&?&Hv&?&?&?) (?&?&?&?&Hv'&?&?&?).
    unfold overrides_grow. split_and!; try (by etrans).
    intros v [Hv2|Hp]%Hv'; auto.
Qed.

(** What a knob stands for is the same in both. *)
Definition same_knob (knob : CompileKnobId) (k k' : CompileKnobs) : Prop :=
  let g := k.(global) in let g' := k'.(global) in
  let o := k.(overrides) in let o' := k'.(overrides) in
  match knob with
  | K_Placement | K_PlacementProfile => g.(placement) = g'.(placement)
  | K_Observation =>
      g.(observation) = g'.(observation)
      /\ o.(disabled_optional_probes) = o'.(disabled_optional_probes)
  | K_ObservationTraceDemotion =>
      g.(observation).(ok_trace_demotion) = g'.(observation).(ok_trace_demotion)
  | K_ObservationProbeSelection => o.(disabled_optional_probes) = o'.(disabled_optional_probes)
  | K_Range | K_RangeReductionCeiling =>
      g.(range) = g'.(range) /\ o.(reduction_ceiling_overrides) = o'.(reduction_ceiling_overrides)
  | K_Storage => g.(storage) = g'.(storage) /\ o.(forced_recompute) = o'.(forced_recompute)
  | K_StorageRecomputePromotion => g.(storage) = g'.(storage)
  | K_StorageMaterializationOverrides => o.(forced_recompute) = o'.(forced_recompute)
  | K_Sram => g.(sram) = g'.(sram)
  | K_SramPageAggression => g.(sram).(srk_page_aggression) = g'.(sram).(srk_page_aggression)
  | K_SramSpillPolicy => g.(sram).(srk_spill_policy) = g'.(sram).(srk_spill_policy)
  | K_RomWindow =>
      g.(rom_window) = g'.(rom_window)
      /\ o.(forced_kernel_residency) = o'.(forced_kernel_residency)
  | K_RomKernelResidencyBias =>
      g.(rom_window).(rwk_kernel_residency_bias) = g'.(rom_window).(rwk_kernel_residency_bias)
  | K_RomKernelDuplicationBias =>
      g.(rom_window).(rwk_kernel_duplication_bias) = g'.(rom_window).(rwk_kernel_duplication_bias)
  | K_RomKernelResidencyOverrides => o.(forced_kernel_residency) = o'.(forced_kernel_residency)
  | K_Overlay | K_OverlayPromotion => g.(overlay) = g'.(overlay)
  | K_Schedule =>
      g.(schedule) = g'.(schedule) /\ o.(tile_class_overrides) = o'.(tile_class_overrides)
  | K_ScheduleTileSearch =>
      g.(schedule).(sk_tile_search) = g'.(schedule).(sk_tile_search)
      /\ o.(tile_class_overrides) = o'.(tile_class_overrides)
  | K_ScheduleSliceCoarsening =>
      g.(schedule).(sk_slice_coarsening) = g'.(schedule).(sk_slice_coarsening)
  | K_ScheduleResourcePressure =>
      g.(schedule).(sk_resource_pressure) = g'.(schedule).(sk_resource_pressure)
      /\ g.(schedule).(sk_pressure_thresholds) = g'.(schedule).(sk_pressure_thresholds)
  | K_StageIterationCeilings =>
      g.(schedule).(sk_stage_iteration_ceilings) = g'.(schedule).(sk_stage_iteration_ceilings)
  end.

#[export] Instance same_knob_preorder knob : PreOrder (same_knob knob).
Proof.
  split.
  - intros k. by destruct knob.
  - intros k1 k2 k3. destruct knob; simpl; intuition congruence.
Qed.

(** ** One delta *)

Section Delta.
  Context (pol : RepairPolicy) (o : ObservabilityMode) (pur : RecomputePurityFacts).

Abbreviation admits k d :=
  (check_delta_admissible_with_recompute_purity d k pol o pur = Ok ()).

(** The verdict of each stage of the check. *)
Lemma admits_inv k d : admits k d ->
  is_locked k.(locks) (knob_id d) = false
  /\ disabled_policy_toggle d pol = None
  /\ check_delta_bounds d k = Ok () /\ check_delta_monotone d k = Ok ()
  /\ check_recompute_purity d pur = Ok ()
  /\ (o = Invariant -> is_trace_knob (knob_id d) = false).
Proof.
  unfold check_delta_admissible_with_recompute_purity.
  case_match; [done|]. case_match; [done|].
  intros ([] & -> & Hc)%obind_Ok. apply obind_Ok in Hc as ([] & -> & Hc).
  apply obind_Ok in Hc as ([] & -> & Hc). split_and!; try done.
  intros ->. by destruct (is_trace_knob (knob_id d)).
Qed.

Lemma ordered_bound_Ok {T} `{MonotoneKnob T, RDebug T} knob (a m : T) :
  check_ordered_bound knob a m = Ok () -> rank a <= rank m.
Proof. unfold check_ordered_bound. destruct (_ <=? _) eqn:Hr; [|done]. lia. Qed.

Lemma strict_advance_Ok {T} `{MonotoneKnob T, RDebug T} knob (a b : T) :
  check_strict_advance knob a b = Ok () -> rank a < rank b.
Proof.
  unfold check_strict_advance, is_strict_advance. destruct (_ <? _) eqn:Hr; [|done]. lia.
Qed.

Lemma pressure_limit_Ok f l : check_pressure_limit f l = Ok () -> limit_wf l.
Proof. unfold check_pressure_limit, limit_wf. destruct (_ <=? _) eqn:Hr; [|done]. lia. Qed.

Lemma pressure_bound_Ok f l m :
  check_pressure_limit_bound f l m = Ok () -> pressure_limit_le l m = true.
Proof. unfold check_pressure_limit_bound, pressure_limit_le. by case_match. Qed.

Lemma pressure_monotone_Ok f l c :
  check_pressure_limit_monotone f l c = Ok () -> pressure_limit_le c l = true /\ l <> c.
Proof.
  unfold check_pressure_limit_monotone, pressure_limit_le.
  destruct (_ && _) eqn:Hc; [|done]. apply andb_true_iff in Hc as [Hc Hn]. split; [done|].
  intros ->. rewrite !Z.eqb_refl in Hn. done.
Qed.

(** Writing one threshold. *)
Lemma set_threshold_le u t0 t : check_pressure_update_monotone u t0 = Ok () ->
  thresholds_all_le t0 t = true -> thresholds_all_le t0 (set_threshold u t) = true.
Proof.
  destruct t. unfold thresholds_all_le. rewrite !andb_true_iff.
  destruct u; simpl; intros [Hm _]%pressure_monotone_Ok; intuition.
Qed.

Lemma set_threshold_bound u m t : check_pressure_update_bound u m = Ok () ->
  thresholds_all_le t m = true -> thresholds_all_le (set_threshold u t) m = true.
Proof.
  destruct t. unfold thresholds_all_le. rewrite !andb_true_iff.
  destruct u; simpl; intros Hm%pressure_bound_Ok; intuition.
Qed.

Lemma set_threshold_wf u t : check_pressure_update_limit u = Ok () ->
  thresholds_wf t -> thresholds_wf (set_threshold u t).
Proof.
  destruct t. unfold thresholds_wf.
  destruct u; simpl; intros Hl%pressure_limit_Ok; intuition.
Qed.

(** A delta admissible for [k0] keeps what is above [k0] above it: the changes
    of one proposal are all checked against the knobs before the first. *)
Lemma delta_advances k0 k d : admits k0 d ->
  values_advance k0.(global) k.(global) ->
  values_advance k0.(global) (apply_knob_delta k d).(global).
Proof.
  intros (_ & _ & _ & Hm & _)%admits_inv Ha. revert Hm.
  destruct d as [to|to|ps|[sel|] to|to|vs|to|to|to|to|sel to|to|sel rem|to|u]; simpl;
    intros Hm; try exact Ha; try apply strict_advance_Ok in Hm;
    destruct Ha as (?&?&?&?&?&?&?&?); unfold values_advance; simpl; split_and!; try done;
    unfold is_monotone_successor_of, thresholds_all_ge in *; simpl in *;
    rewrite ?andb_true_iff, ?Z.leb_le in *; destruct_and?; split_and?; try done; try lia.
  by apply set_threshold_le.
Qed.

Lemma delta_within_bounds k0 k d : admits k0 d -> k.(bounds) = k0.(bounds) ->
  within_bounds k -> within_bounds (apply_knob_delta k d).
Proof.
  intros (_ & _ & Hb & _ & _)%admits_inv Hk Hw. revert Hb. unfold check_delta_bounds. rewrite <- Hk.
  destruct d as [to|to|ps|[sel|] to|to|vs|to|to|to|to|sel to|to|sel rem|to|u]; simpl;
    intros Hb; try exact Hw; try apply ordered_bound_Ok in Hb;
    destruct Hw as (?&?&?&?&?&?&?&?&?&?&?&?&?); unfold within_bounds; simpl; split_and!; try done.
  - by apply map_Forall_insert_2.
  - apply obind_Ok in Hb as ([] & _ & Hb). by apply set_threshold_bound.
  - apply obind_Ok in Hb as ([] & Hl & _). by apply set_threshold_wf.
Qed.

Lemma delta_overrides_grow k0 k d : admits k0 d ->
  overrides_grow pur k.(overrides) (apply_knob_delta k d).(overrides).
Proof.
  intros (_ & _ & _ & _ & Hp & _)%admits_inv. revert Hp.
  destruct d as [to|to|ps|[sel|] to|to|vs|to|to|to|to|sel to|to|sel rem|to|u]; simpl;
    intros Hp; try reflexivity;
    unfold overrides_grow; simpl; split_and!; try done; try set_solver.
  intros v [Hv|Hv%elem_of_list_to_set]%elem_of_union; [by auto|]. constructor 2.
  destruct (find _ vs) as [x|] eqn:Hf; [done|].
  pose proof (find_none _ _ Hf v) as Hn. simpl in Hn.
  rewrite negb_false_iff in Hn. apply Hn. by apply list_elem_of_In.
Qed.

Lemma delta_locked k0 k d knob : admits k0 d ->
  is_locked k0.(locks) knob = true -> same_knob knob k (apply_knob_delta k d).
Proof.
  intros (Hl & _)%admits_inv Hk.
  destruct d as [to|to|ps|[sel|] to|to|vs|to|to|to|to|sel to|to|sel rem|to|u], knob;
    try reflexivity; try (by repeat split);
    exfalso; revert Hl Hk; unfold is_locked; simpl;
    rewrite orb_false_iff, orb_true_iff, !bool_decide_eq_false, !bool_decide_eq_true; naive_solver.
Qed.

Lemma delta_invariant_trace k0 k d knob : admits k0 d -> o = Invariant ->
  is_trace_knob knob = true -> same_knob knob k (apply_knob_delta k d).
Proof.
  intros (_ & _ & _ & _ & _ & Ht)%admits_inv Ho Hk. specialize (Ht Ho).
  destruct knob; try done;
    destruct d as [to|to|ps|[sel|] to|to|vs|to|to|to|to|sel to|to|sel rem|to|u]; done.
Qed.

Lemma delta_frame k d :
  (apply_knob_delta k d).(bounds) = k.(bounds) /\ (apply_knob_delta k d).(locks) = k.(locks)
  /\ (apply_knob_delta k d).(provenance) = k.(provenance)
  /\ (apply_knob_delta k d).(global).(schedule).(sk_stage_iteration_ceilings)
     = k.(global).(schedule).(sk_stage_iteration_ceilings).
Proof. by destruct d as [| | |[]| | | | | | | | | | |]. Qed.

(** ** A proposal *)

(** The promises together, for knobs that come from [k0]. *)
Record policy_kept (k0 k : CompileKnobs) : Prop := {
  kept_bounds : k.(bounds) = k0.(bounds) /\ k.(locks) = k0.(locks);
  kept_advance : values_advance k0.(global) k.(global);
  kept_within : within_bounds k0 -> within_bounds k;
  kept_overrides : overrides_grow pur k0.(overrides) k.(overrides);
  kept_locked : forall knob, is_locked k0.(locks) knob = true -> same_knob knob k0 k;
  kept_trace : o = Invariant -> forall knob, is_trace_knob knob = true -> same_knob knob k0 k;
  kept_ceilings : k.(global).(schedule).(sk_stage_iteration_ceilings)
    = k0.(global).(schedule).(sk_stage_iteration_ceilings);
}.

#[export] Instance policy_kept_preorder : PreOrder policy_kept.
Proof.
  split.
  - intros k. split; done.
  - intros k0 k1 k2 [[Hb Hl] Ha Hw Hg Hk Ht Hc] [[Hb' Hl'] Ha' Hw' Hg' Hk' Ht' Hc'].
    split; [split; congruence|by etrans|by auto|by etrans| | |congruence].
    + intros knob Hlk. etrans; [by apply Hk|]. apply Hk'. by rewrite Hl.
    + intros Ho knob Hkn. etrans; [by apply Ht|by apply Ht'].
Qed.

Lemma policy_kept_delta k0 k d e :
  admits k0 d -> policy_kept k0 k -> policy_kept k0 (push_provenance e (apply_knob_delta k d)).
Proof.
  intros Hd [[Hb Hl] Ha Hw Hg Hk Ht Hc]. destruct (delta_frame k d) as (Hfb & Hfl & _ & Hfc).
  split; simpl.
  - by rewrite Hfb, Hfl.
  - by apply delta_advances.
  - intros H0. apply (delta_within_bounds k0 k d Hd Hb). by apply Hw.
  - etrans; [exact Hg|]. by eapply delta_overrides_grow.
  - intros knob Hlk. etrans; [by apply Hk|]. apply (delta_locked k0 k d knob Hd Hlk).
  - intros Ho knob Hkn. etrans; [by apply Ht|]. apply (delta_invariant_trace k0 k d knob Hd Ho Hkn).
  - by rewrite Hfc.
Qed.

Lemma policy_kept_proposal k0 id delta :
  Forall (fun d => admits k0 d) delta.(changes) ->
  policy_kept k0 (apply_constraint_delta k0 id delta).
Proof.
  unfold apply_constraint_delta. intros Hds.
  assert (Hk : policy_kept k0 k0) by reflexivity. revert Hk. generalize k0 at 2 4.
  induction delta.(changes) as [|d ds IH]; intros k Hk; simpl; [done|].
  apply Forall_cons in Hds as [Hd Hds]. apply IH; [done|]. by apply policy_kept_delta.
Qed.

End Delta.

(** ** Overrides of single sites, kernels and tiles *)

(** The override deltas are admitted without a look at the override they
    replace: [forced_kernel_residency], [tile_class_overrides] and
    [reduction_ceiling_overrides] may move to any value, backwards included. *)
Lemma overrides_may_regress pol pur k :
  (forall sel to, is_locked k.(locks) K_RomKernelResidencyOverrides = false ->
     pol.(allow_overlay_promotion) = true ->
     check_delta_admissible_with_recompute_purity (ForceKernelResidency sel to) k pol Flexible pur = Ok ()
     /\ (apply_knob_delta k (ForceKernelResidency sel to)).(overrides).(forced_kernel_residency) !! sel
        = Some to)
  /\ (forall sel rem, is_locked k.(locks) K_ScheduleTileSearch = false -> rem <> ∅ ->
     check_delta_admissible_with_recompute_purity (NarrowTileClasses sel rem) k pol Flexible pur = Ok ()
     /\ (apply_knob_delta k (NarrowTileClasses sel rem)).(overrides).(tile_class_overrides) !! sel
        = Some rem)
  /\ (forall sel to, is_locked k.(locks) K_RangeReductionCeiling = false ->
     rank k.(global).(range).(rk_reduction_ceiling) < rank to
       <= rank k.(bounds).(b_range).(max_reduction_ceiling) ->
     check_delta_admissible_with_recompute_purity (RaiseReductionCeiling (Some sel) to) k pol Flexible pur = Ok ()
     /\ (apply_knob_delta k (RaiseReductionCeiling (Some sel) to)).(overrides).(reduction_ceiling_overrides) !! sel
        = Some to).
Proof.
  unfold check_delta_admissible_with_recompute_purity, knob_id. split_and!.
  - intros sel to Hl Ho. rewrite Hl. split; [|apply lookup_insert_eq]. simpl.
    destruct to; rewrite ?Ho; done.
  - intros sel rem Hl Hr. rewrite Hl. split; [|apply lookup_insert_eq].
    simpl. by rewrite (bool_decide_eq_false_2 (rem = ∅)).
  - intros sel to Hl [Hlo Hhi]. rewrite Hl. split; [|apply lookup_insert_eq].
    cbn [disabled_policy_toggle check_delta_bounds check_delta_monotone].
    unfold check_ordered_bound, check_strict_advance, is_strict_advance.
    by rewrite (proj2 (Z.leb_le _ _) Hhi), (proj2 (Z.ltb_lt _ _) Hlo).
Qed.
