(* ===== verification/Refinement.v ===== *)
(** * The feasibility-refinement loop

    [gbf-codegen/src/refinement_loop.rs]: the controller that runs the planning
    stages, applies the knob deltas they propose when the policy admits them,
    restarts from the first stage after each accepted proposal, and stops when
    every stage succeeds or a budget is spent.

    The trait [CompilerPipeline] is a class over the type [P] of the pipeline's
    own state; a call takes and returns it, also when it fails, as
    [&mut self] does.  The inner loop, which asks the pipeline for another
    proposal after each rejection, is not bounded by the code: its bound here
    is the fuel of [run_refinement_loop].  The outer loop gets one pass more
    than the global budget.  [serde_json] is the class [SerdeJson]; the text of
    an unrepairable failure is the data it is formatted from. *)

From S2P Require Import Prelude KnobLattice KnobDelta.

(** ** Stages and their budgets *)

Inductive PlanningStage :=
| RangePlan | StoragePlan | SramPagePlan | RomWindowPlan | OverlayPlan | ArenaPlan | GbSchedIr
| ResourceStateValidation.
#[export] Instance PlanningStage_eq_dec : EqDecision PlanningStage.
Proof. solve_decision. Defined.
#[export] Program Instance PlanningStage_finite : Finite PlanningStage := {|
  enum := [RangePlan; StoragePlan; SramPagePlan; RomWindowPlan; OverlayPlan; ArenaPlan; GbSchedIr;
           ResourceStateValidation] |}.
Next Obligation. repeat constructor; set_solver. Qed.
Next Obligation. intros []; set_solver. Qed.

Definition WRAPPED_PLANNING_STAGES : list PlanningStage :=
  [RangePlan; StoragePlan; SramPagePlan; RomWindowPlan; OverlayPlan; ArenaPlan; GbSchedIr;
   ResourceStateValidation].

Record StageIterationCeilings := {
  range_plan : Z;
  storage_plan : Z;
  sram_page_plan : Z;
  rom_window_plan : Z;
  overlay_plan : Z;
  arena_plan : Z;
  gb_sched_ir : Z;
  resource_state_validation : Z;
}.

Definition uniform (limit : Z) : StageIterationCeilings := {|
  range_plan := limit; storage_plan := limit; sram_page_plan := limit; rom_window_plan := limit;
  overlay_plan := limit; arena_plan := limit; gb_sched_ir := limit;
  resource_state_validation := limit |}.

Definition from_limits (l : StageIterationLimits) : StageIterationCeilings := {|
  range_plan := l.(sil_range_plan); storage_plan := l.(sil_storage_plan);
  sram_page_plan := l.(sil_sram_page_plan); rom_window_plan := l.(sil_rom_window_plan);
  overlay_plan := l.(sil_overlay_plan); arena_plan := l.(sil_arena_plan);
  gb_sched_ir := l.(sil_gb_sched_ir);
  resource_state_validation := l.(sil_resource_state_validation) |}.

Definition total_saturating (c : StageIterationCeilings) : Z :=
  let total := c.(range_plan) in
  let total := saturating_add U8 total c.(storage_plan) in
  let total := saturating_add U8 total c.(sram_page_plan) in
  let total := saturating_add U8 total c.(rom_window_plan) in
  let total := saturating_add U8 total c.(overlay_plan) in
  let total := saturating_add U8 total c.(arena_plan) in
  let total := saturating_add U8 total c.(gb_sched_ir) in
  saturating_add U8 total c.(resource_state_validation).

Definition remaining (c : StageIterationCeilings) (stage : PlanningStage) : Z :=
  match stage with
  | RangePlan => c.(range_plan)
  | StoragePlan => c.(storage_plan)
  | SramPagePlan => c.(sram_page_plan)
  | RomWindowPlan => c.(rom_window_plan)
  | OverlayPlan => c.(overlay_plan)
  | ArenaPlan => c.(arena_plan)
  | GbSchedIr => c.(gb_sched_ir)
  | ResourceStateValidation => c.(resource_state_validation)
  end.

(** [saturating_sub]. *)
Definition saturating_sub (a b : Z) : Z := Z.max 0 (a - b).

Definition decrement (c : StageIterationCeilings) (stage : PlanningStage) : StageIterationCeilings :=
  let '(Build_StageIterationCeilings r st sp rw ov ar gs rv) := c in
  match stage with
  | RangePlan => Build_StageIterationCeilings (saturating_sub r 1) st sp rw ov ar gs rv
  | StoragePlan => Build_StageIterationCeilings r (saturating_sub st 1) sp rw ov ar gs rv
  | SramPagePlan => Build_StageIterationCeilings r st (saturating_sub sp 1) rw ov ar gs rv
  | RomWindowPlan => Build_StageIterationCeilings r st sp (saturating_sub rw 1) ov ar gs rv
  | OverlayPlan => Build_StageIterationCeilings r st sp rw (saturating_sub ov 1) ar gs rv
  | ArenaPlan => Build_StageIterationCeilings r st sp rw ov (saturating_sub ar 1) gs rv
  | GbSchedIr => Build_StageIterationCeilings r st sp rw ov ar (saturating_sub gs 1) rv
  | ResourceStateValidation => Build_StageIterationCeilings r st sp rw ov ar gs (saturating_sub rv 1)
  end.

(** ** Proposals and their records *)

Record EstimatedCostDelta := { ec_cycles : option Z; ec_bytes : option Z }.

Record RepairProposal := {
  rp_id : string;
  rp_source_stage : PlanningStage;
  rp_reason : RepairReason;
  rp_delta : ConstraintDelta;
  rp_estimated_cost : EstimatedCostDelta;
}.

Record PerKnobDeltaSummary := {
  pk_knob : CompileKnobId;
  pk_before : string;
  pk_after : string;
  pk_operation : ConstraintOperation;
}.

Record KnobDeltaSummary := {
  kd_changed_knobs : gset CompileKnobId;
  kd_changes : list KnobDelta;
  kd_per_knob : list PerKnobDeltaSummary;
  kd_before : CompileKnobs;
  kd_after : CompileKnobs;
}.

Inductive ProposalOutcome :=
| Accepted (applied_at_iter : Z) (knobs_delta : KnobDeltaSummary)
| Rejected (reason : DeltaRejection).

Record RepairProposalRecord := {
  rr_id : string;
  rr_source_stage : PlanningStage;
  rr_reason : RepairReason;
  rr_delta : ConstraintDelta;
  rr_knob_delta : option KnobDelta;
  rr_resource_pressure : option ResourcePressureUpdate;
  rr_estimated_cost_delta : option EstimatedCostDelta;
  rr_iter_emitted : Z;
  rr_outcome : ProposalOutcome;
}.

Record RepairHistory := {
  proposals : list RepairProposalRecord;
  stage_iteration_counts : gmap PlanningStage Z;
}.

Definition RepairHistory_default : RepairHistory := {| proposals := []; stage_iteration_counts := ∅ |}.

Definition record_stage_run (h : RepairHistory) (stage : PlanningStage) : RepairHistory := {|
  proposals := h.(proposals);
  stage_iteration_counts :=
    <[stage := saturating_add U8 (default 0 (h.(stage_iteration_counts) !! stage)) 1]>
      h.(stage_iteration_counts) |}.

Definition push_proposal (h : RepairHistory) (r : RepairProposalRecord) : RepairHistory := {|
  proposals := h.(proposals) ++ [r];
  stage_iteration_counts := h.(stage_iteration_counts) |}.

Record LoopState := {
  knobs : CompileKnobs;
  repair_policy : RepairPolicy;
  observability : ObservabilityMode;
  recompute_purity : RecomputePurityFacts;
  accepted_iters_remaining : Z;
  global_iters_remaining : Z;
  stage_iters_remaining : StageIterationCeilings;
  history : RepairHistory;
}.

Definition from_profile (k : CompileKnobs) (profile : RepairPolicyProfile) (o : ObservabilityMode)
    (purity : RecomputePurityFacts) : LoopState :=
  let policy := for_profile profile in
  let ceilings := from_limits k.(global).(schedule).(sk_stage_iteration_ceilings) in
  {| knobs := k; repair_policy := policy; observability := o; recompute_purity := purity;
     accepted_iters_remaining := policy.(max_refinement_iters);
     global_iters_remaining := total_saturating ceilings;
     stage_iters_remaining := ceilings;
     history := RepairHistory_default |}.

Definition set_history (h : RepairHistory) (s : LoopState) : LoopState :=
  {| knobs := s.(knobs); repair_policy := s.(repair_policy); observability := s.(observability);
     recompute_purity := s.(recompute_purity);
     accepted_iters_remaining := s.(accepted_iters_remaining);
     global_iters_remaining := s.(global_iters_remaining);
     stage_iters_remaining := s.(stage_iters_remaining); history := h |}.

(** The three assignments that charge a stage run. *)
Definition charge (s : LoopState) (stage : PlanningStage) : LoopState :=
  {| knobs := s.(knobs); repair_policy := s.(repair_policy); observability := s.(observability);
     recompute_purity := s.(recompute_purity);
     accepted_iters_remaining := s.(accepted_iters_remaining);
     global_iters_remaining := saturating_sub s.(global_iters_remaining) 1;
     stage_iters_remaining := decrement s.(stage_iters_remaining) stage;
     history := record_stage_run s.(history) stage |}.

Inductive StageRunOutcome :=
| Succeeded
| ProposedRepair (proposal : RepairProposal)
| Unrepairable (message : string).

(** [last_error]: the pipeline's message, or the rejection that the loop
    formats into one. *)
Inductive LastError :=
| LE_Message (message : string)
| LE_ProposalRejected (rejection : DeltaRejection).
#[export] Instance LastError_eq_dec : EqDecision LastError.
Proof. solve_decision. Defined.

Inductive TerminalState :=
| Converged
| AcceptedRefinementBudgetExhausted (stage : PlanningStage)
| GlobalBudgetExhausted
| StageBudgetExhausted (stage : PlanningStage)
| StagedFailureUnrepairable (stage : PlanningStage) (last_error : LastError).
#[export] Instance TerminalState_eq_dec : EqDecision TerminalState.
Proof. solve_decision. Defined.

Record RefinementLoopResult := { res_state : LoopState; res_terminal : TerminalState }.

Definition terminal (s : LoopState) (t : TerminalState) : RefinementLoopResult :=
  {| res_state := s; res_terminal := t |}.

Inductive RefinementLoopError := ProposalStageMismatch (expected actual : PlanningStage).
#[export] Instance RefinementLoopError_eq_dec : EqDecision RefinementLoopError.
Proof. solve_decision. Defined.

(** A computation that may call the pipeline. *)
Definition Piped (P A : Type) : Type := P -> outcome RefinementLoopError A * P.

#[export] Instance piped_ret P : MRet (Piped P) := fun A a p => (Ok a, p).
#[export] Instance piped_bind P : MBind (Piped P) := fun A B k m p =>
  match m p with
  | (Ok a, p') => k a p'
  | (Err e, p') => (Err e, p')
  | (Panic, p') => (Panic, p')
  | (NoFuel, p') => (NoFuel, p')
  end.
Definition piped_fail {P A} (e : RefinementLoopError) : Piped P A := fun p => (Err e, p).
Definition piped_out_of_fuel {P A} : Piped P A := fun p => (NoFuel, p).

Class CompilerPipeline (P : Type) := {
  run_stage : PlanningStage -> LoopState -> Piped P StageRunOutcome;
  handle_rejected_repair :
    PlanningStage -> LoopState -> RepairProposalRecord -> Piped P (option RepairProposal);
}.

(** The trait's default method. *)
Definition no_alternatives {P} (_ : PlanningStage) (_ : LoopState) (_ : RepairProposalRecord)
    : Piped P (option RepairProposal) := mret None.

(** ** Admission and recording *)

Definition err {E A} (o : outcome E A) : option E := match o with Err e => Some e | _ => None end.

Fixpoint find_map {A B} (f : A -> option B) (l : list A) : option B :=
  match l with
  | [] => None
  | a :: l => match f a with Some b => Some b | None => find_map f l end
  end.

Definition first_rejection (delta : ConstraintDelta) (s : LoopState) : option DeltaRejection :=
  find_map (fun change => err (check_delta_admissible_with_recompute_purity change
      s.(knobs) s.(repair_policy) s.(observability) s.(recompute_purity)))
    delta.(changes).

Definition resource_pressure_update (change : KnobDelta) : option ResourcePressureUpdate :=
  match change with UpdatePressureThreshold u => Some u | _ => None end.

Definition record_of (p : RepairProposal) (cost : option EstimatedCostDelta) (iter_emitted : Z)
    (o : ProposalOutcome) : RepairProposalRecord := {|
  rr_id := p.(rp_id);
  rr_source_stage := p.(rp_source_stage);
  rr_reason := p.(rp_reason);
  rr_delta := p.(rp_delta);
  rr_knob_delta := head p.(rp_delta).(changes);
  rr_resource_pressure := find_map resource_pressure_update p.(rp_delta).(changes);
  rr_estimated_cost_delta := cost;
  rr_iter_emitted := iter_emitted;
  rr_outcome := o |}.

Definition record_accepted (h : RepairHistory) (p : RepairProposal)
    (iter_emitted applied_at_iter : Z) (summary : KnobDeltaSummary) : RepairHistory :=
  push_proposal h (record_of p (Some p.(rp_estimated_cost)) iter_emitted
                     (Accepted applied_at_iter summary)).

Definition record_rejected (h : RepairHistory) (p : RepairProposal) (iter_emitted : Z)
    (reason : DeltaRejection) : RepairProposalRecord * RepairHistory :=
  let record := record_of p (Some p.(rp_estimated_cost)) iter_emitted (Rejected reason) in
  (record, push_proposal h record).

(** The value that [knob_value_string] serialises, by knob. *)
Inductive KnobJsonValue :=
| JV_PlacementProfile (v : PlacementProfile)
| JV_TraceDemotion (v : TraceDemotionLevel)
| JV_ReductionCeiling (v : ReductionPlanCeiling)
| JV_Materialization (v : StorageMaterialization)
| JV_PageAggression (v : SramPageAggression)
| JV_SpillPolicy (v : SramSpillPolicy)
| JV_ResidencyBias (v : RomKernelResidencyBias)
| JV_DuplicationBias (v : RomKernelDuplicationBias)
| JV_OverlayPromotion (v : OverlayPromotion)
| JV_TileSearch (v : ScheduleTileSearch)
| JV_SliceCoarsening (v : ScheduleSliceCoarsening)
| JV_ResourcePressure (resource_pressure : ScheduleResourcePressure)
    (pressure_thresholds : ResourcePressureThresholds)
| JV_StageIterationCeilings (v : StageIterationLimits).

Class SerdeJson := serde_json_to_string : KnobJsonValue -> string.

Definition knob_json_value (k : CompileKnobs) (knob : CompileKnobId) : KnobJsonValue :=
  let g := k.(global) in
  match knob with
  | K_Placement | K_PlacementProfile => JV_PlacementProfile g.(placement).(pk_profile)
  | K_Observation | K_ObservationTraceDemotion | K_ObservationProbeSelection =>
      JV_TraceDemotion g.(observation).(ok_trace_demotion)
  | K_Range | K_RangeReductionCeiling => JV_ReductionCeiling g.(range).(rk_reduction_ceiling)
  | K_Storage | K_StorageRecomputePromotion | K_StorageMaterializationOverrides =>
      JV_Materialization g.(storage).(stk_materialization)
  | K_Sram | K_SramPageAggression => JV_PageAggression g.(sram).(srk_page_aggression)
  | K_SramSpillPolicy => JV_SpillPolicy g.(sram).(srk_spill_policy)
  | K_RomWindow | K_RomKernelResidencyBias =>
      JV_ResidencyBias g.(rom_window).(rwk_kernel_residency_bias)
  | K_RomKernelDuplicationBias | K_RomKernelResidencyOverrides =>
      JV_DuplicationBias g.(rom_window).(rwk_kernel_duplication_bias)
  | K_Overlay | K_OverlayPromotion => JV_OverlayPromotion g.(overlay).(olk_promotion)
  | K_Schedule | K_ScheduleTileSearch => JV_TileSearch g.(schedule).(sk_tile_search)
  | K_ScheduleSliceCoarsening => JV_SliceCoarsening g.(schedule).(sk_slice_coarsening)
  | K_ScheduleResourcePressure =>
      JV_ResourcePressure g.(schedule).(sk_resource_pressure) g.(schedule).(sk_pressure_thresholds)
  | K_StageIterationCeilings =>
      JV_StageIterationCeilings g.(schedule).(sk_stage_iteration_ceilings)
  end.

Section Loop.
  Context `{SerdeJson} {P : Type} `{CompilerPipeline P}.

Definition knob_value_string (k : CompileKnobs) (knob : CompileKnobId) : string :=
  serde_json_to_string (knob_json_value k knob).

Definition KnobDeltaSummary_from_delta (delta : ConstraintDelta) (before after : CompileKnobs)
    (proposal_id : string) : KnobDeltaSummary := {|
  kd_changed_knobs := list_to_set (map knob_id delta.(changes));
  kd_changes := delta.(changes);
  kd_per_knob := map (fun change => {|
      pk_knob := knob_id change;
      pk_before := knob_value_string before (knob_id change);
      pk_after := knob_value_string after (knob_id change);
      pk_operation := AppliedRepairProposal proposal_id |}) delta.(changes);
  kd_before := before;
  kd_after := after |}.

(** The body of the arm that accepts. *)
Definition accept (s : LoopState) (accepted_iters : Z) (p : RepairProposal) (iter_emitted : Z)
    : LoopState * Z :=
  let before := s.(knobs) in
  let after := apply_constraint_delta before p.(rp_id) p.(rp_delta) in
  let summary := KnobDeltaSummary_from_delta p.(rp_delta) before after p.(rp_id) in
  let accepted_iters := saturating_add U8 accepted_iters 1 in
  ({| knobs := after; repair_policy := s.(repair_policy); observability := s.(observability);
      recompute_purity := s.(recompute_purity);
      accepted_iters_remaining := saturating_sub s.(accepted_iters_remaining) 1;
      global_iters_remaining := s.(global_iters_remaining);
      stage_iters_remaining := s.(stage_iters_remaining);
      history := record_accepted s.(history) p iter_emitted accepted_iters summary |},
   accepted_iters).

(** ** The loop *)

(** How a part of the loop body leaves it: on to the next stage, with
    [continue 'restart], or with [return]. *)
Inductive Flow :=
| Next (s : LoopState)
| Restart (s : LoopState) (accepted_iters : Z)
| Return (r : RefinementLoopResult).

Fixpoint repair_loop (fuel : nat) (stage : PlanningStage) (proposal : RepairProposal)
    (s : LoopState) (accepted_iters : Z) : Piped P Flow :=
  match fuel with
  | O => piped_out_of_fuel
  | S fuel =>
      let iter_emitted := saturating_add U8 accepted_iters 1 in
      if negb (bool_decide (proposal.(rp_source_stage) = stage))
      then piped_fail (ProposalStageMismatch stage proposal.(rp_source_stage))
      else
        match first_rejection proposal.(rp_delta) s with
        | Some rejection =>
            let '(record, h) := record_rejected s.(history) proposal iter_emitted rejection in
            let s := set_history h s in
            alternative ← handle_rejected_repair stage s record;
            match alternative with
            | Some alternative => repair_loop fuel stage alternative s accepted_iters
            | None =>
                mret (Return (terminal s
                        (StagedFailureUnrepairable stage (LE_ProposalRejected rejection))))
            end
        | None =>
            if s.(accepted_iters_remaining) =? 0 then
              let rejection := DR_AcceptedRefinementBudgetExhausted
                                 s.(repair_policy).(max_refinement_iters) in
              let '(_, h) := record_rejected s.(history) proposal iter_emitted rejection in
              mret (Return (terminal (set_history h s) (AcceptedRefinementBudgetExhausted stage)))
            else
              let '(s, accepted_iters) := accept s accepted_iters proposal iter_emitted in
              mret (Restart s accepted_iters)
        end
  end.

Fixpoint run_stages (fuel : nat) (stages : list PlanningStage) (s : LoopState) (accepted_iters : Z)
    : Piped P Flow :=
  match stages with
  | [] => mret (Next s)
  | stage :: stages =>
      if s.(global_iters_remaining) =? 0 then mret (Return (terminal s GlobalBudgetExhausted))
      else if remaining s.(stage_iters_remaining) stage =? 0
      then mret (Return (terminal s (StageBudgetExhausted stage)))
      else
        let s := charge s stage in
        o ← run_stage stage s;
        match o with
        | Succeeded => run_stages fuel stages s accepted_iters
        | Unrepairable message =>
            mret (Return (terminal s (StagedFailureUnrepairable stage (LE_Message message))))
        | ProposedRepair proposal => repair_loop fuel stage proposal s accepted_iters
        end
  end.

Fixpoint restart_loop (passes fuel : nat) (s : LoopState) (accepted_iters : Z)
    : Piped P RefinementLoopResult :=
  match passes with
  | O => piped_out_of_fuel
  | S passes =>
      flow ← run_stages fuel WRAPPED_PLANNING_STAGES s accepted_iters;
      match flow with
      | Next s => mret (terminal s Converged)
      | Restart s accepted_iters => restart_loop passes fuel s accepted_iters
      | Return r => mret r
      end
  end.

Definition run_refinement_loop (fuel : nat) (initial_state : LoopState)
    : Piped P RefinementLoopResult :=
  restart_loop (S (Z.to_nat initial_state.(global_iters_remaining))) fuel initial_state 0.

End Loop.

(** ** The report ([gbf-report/src/report_schemas/repair_report_v1.rs]) *)

Inductive ReportOutcome := Report_Passed | Report_Failed.
#[export] Instance ReportOutcome_eq_dec : EqDecision ReportOutcome.
Proof. solve_decision. Defined.

Definition repair_report_outcome (t : TerminalState) : ReportOutcome :=
  match t with
  | Converged => Report_Passed
  | AcceptedRefinementBudgetExhausted _ | GlobalBudgetExhausted | StageBudgetExhausted _
  | StagedFailureUnrepairable _ _ => Report_Failed
  end.

Definition is_converged (t : TerminalState) : bool :=
  match t with Converged => true | _ => false end.

Definition is_authorized_relaxation (o : ConstraintOperation) : bool :=
  match o with AuthorizedRelaxation _ => true | _ => false end.

Definition accepted_authorized_relaxation (r : RepairProposalRecord) : bool :=
  match r.(rr_outcome) with
  | Accepted _ d => existsb (fun c => is_authorized_relaxation c.(pk_operation)) d.(kd_per_knob)
  | Rejected _ => false
  end.

Definition has_authorized_relaxation (k : CompileKnobs) : bool :=
  existsb (fun entry =>
      existsb (fun frame => is_authorized_relaxation frame.(cp_operation)) entry.(pe_chain))
    k.(provenance).

Record RepairReportInputsSection := {
  policy_resolution_self_hash : Z;
  artifact_validation_self_hash : Z;
  static_budget_self_hash : option Z;
  schedule_cost_self_hash : option Z;
}.

Record CompileKnobsSnapshot := {
  sn_values : CompileKnobValues;
  sn_bounds : CompileKnobBounds;
  sn_overrides : CompileKnobOverrides;
  sn_locks : gset CompileKnobId;
  sn_snapshot_hash : Z;
}.

(** [domain_hash] of the snapshot's material. *)
Class SnapshotHash :=
  snapshot_hash : CompileKnobValues -> CompileKnobBounds -> CompileKnobOverrides ->
                  gset CompileKnobId -> Z.

Definition from_compile_knobs `{SnapshotHash} (k : CompileKnobs) : CompileKnobsSnapshot := {|
  sn_values := k.(global);
  sn_bounds := k.(bounds);
  sn_overrides := k.(overrides);
  sn_locks := k.(locks);
  sn_snapshot_hash := snapshot_hash k.(global) k.(bounds) k.(overrides) k.(locks) |}.

Record StageIterationCount := { sc_stage : PlanningStage; sc_iterations : Z }.

Record RepairReportBody := {
  report_inputs : RepairReportInputsSection;
  initial_knobs : CompileKnobsSnapshot;
  final_knobs : CompileKnobsSnapshot;
  body_proposals : list RepairProposalRecord;
  body_stage_iteration_counts : list StageIterationCount;
  termination : TerminalState;
  global_iters_used : Z;
  authorized_relaxation_applied : bool;
}.

(** The entries of the [BTreeMap], by the derived order of its keys. *)
Definition stage_counts (m : gmap PlanningStage Z) : list StageIterationCount :=
  omap (fun stage => (fun n => {| sc_stage := stage; sc_iterations := n |}) <$> m !! stage)
    (enum PlanningStage).

Definition repair_report_body `{SnapshotHash} (initial_state : LoopState)
    (result : RefinementLoopResult) (inputs : RepairReportInputsSection) : RepairReportBody := {|
  report_inputs := inputs;
  initial_knobs := from_compile_knobs initial_state.(knobs);
  final_knobs := from_compile_knobs result.(res_state).(knobs);
  body_proposals := result.(res_state).(history).(proposals);
  body_stage_iteration_counts := stage_counts result.(res_state).(history).(stage_iteration_counts);
  termination := result.(res_terminal);
  global_iters_used := saturating_sub initial_state.(global_iters_remaining)
                         result.(res_state).(global_iters_remaining);
  authorized_relaxation_applied := has_authorized_relaxation result.(res_state).(knobs) |}.

(** The derived order of the stages. *)
Definition stage_index (s : PlanningStage) : Z :=
  match s with
  | RangePlan => 0 | StoragePlan => 1 | SramPagePlan => 2 | RomWindowPlan => 3
  | OverlayPlan => 4 | ArenaPlan => 5 | GbSchedIr => 6 | ResourceStateValidation => 7
  end.

(** [windows(2).any(bad)]. *)
Fixpoint any_pair {A} (bad : A -> A -> bool) (l : list A) : bool :=
  match l with
  | a :: ((b :: _) as tl) => bad a b || any_pair bad tl
  | _ => false
  end.

(** The set of ids grows along the list; the loop breaks at a repetition. *)
Fixpoint repeated_id (seen : gset string) (l : list RepairProposalRecord) : bool :=
  match l with
  | [] => false
  | r :: l => bool_decide (r.(rr_id) ∈ seen) || repeated_id ({[r.(rr_id)]} ∪ seen) l
  end.

(** [>] on pairs of an iteration and an id. *)
Definition later_record (a b : RepairProposalRecord) : bool :=
  (b.(rr_iter_emitted) <? a.(rr_iter_emitted))
  || ((b.(rr_iter_emitted) =? a.(rr_iter_emitted)) && negb (String.leb a.(rr_id) b.(rr_id))).

Definition is_zero (h : Z) : bool := h =? 0.
Definition is_some_zero (h : option Z) : bool := match h with Some h => h =? 0 | None => false end.

(** The diagnostics are the fields they name. *)
Definition validate_semantics (b : RepairReportBody) (o : ReportOutcome) : outcome (list string) unit :=
  let check (bad : bool) (field : string) := if bad then [field] else [] in
  let errors :=
    check (negb (Bool.eqb (bool_decide (o = Report_Passed)) (is_converged b.(termination)))) "termination"
    ++ check (is_zero b.(report_inputs).(policy_resolution_self_hash))
         "report_inputs.policy_resolution_self_hash"
    ++ check (is_zero b.(report_inputs).(artifact_validation_self_hash))
         "report_inputs.artifact_validation_self_hash"
    ++ check (is_some_zero b.(report_inputs).(static_budget_self_hash))
         "report_inputs.static_budget_self_hash"
    ++ check (is_some_zero b.(report_inputs).(schedule_cost_self_hash))
         "report_inputs.schedule_cost_self_hash"
    ++ check (any_pair (fun x y => stage_index y.(sc_stage) <=? stage_index x.(sc_stage))
                b.(body_stage_iteration_counts)) "stage_iteration_counts"
    ++ check (repeated_id ∅ b.(body_proposals)) "proposals.id"
    ++ check (any_pair later_record b.(body_proposals)) "proposals"
    ++ check (negb (Bool.eqb b.(authorized_relaxation_applied)
                      (existsb accepted_authorized_relaxation b.(body_proposals))))
         "authorized_relaxation_applied" in
  match errors with
  | [] => Ok ()
  | _ => Err errors
  end.
