(* ===== verification/RefinementFacts.v ===== *)
(** * The refinement loop stays within its policy

    The loop's behaviour as a step relation on its state, which every run of
    [run_refinement_loop] follows whatever the pipeline does; invariants by
    induction over the steps; the meaning of each terminal state; termination
    and convergence; the report. *)

From S2P Require Import Prelude Numeric KnobLattice KnobDelta Refinement.

(** ** Steps *)

Section Steps.
  Context `{SerdeJson}.

Definition iter_of (acc : Z) : Z := saturating_add U8 acc 1.

Definition push_rejected (s : LoopState) (acc : Z) (p : RepairProposal) (r : DeltaRejection)
    : LoopState :=
  set_history (snd (record_rejected s.(history) p (iter_of acc) r)) s.

(** One change of the loop's state and of its count of accepted proposals. *)
Inductive step : LoopState * Z -> LoopState * Z -> Prop :=
| step_run s acc stage :
    s.(global_iters_remaining) <> 0 -> remaining s.(stage_iters_remaining) stage <> 0 ->
    step (s, acc) (charge s stage, acc)
| step_reject s acc p r :
    first_rejection p.(rp_delta) s = Some r ->
    step (s, acc) (push_rejected s acc p r, acc)
| step_spent s acc p :
    first_rejection p.(rp_delta) s = None -> s.(accepted_iters_remaining) = 0 ->
    step (s, acc)
      (push_rejected s acc p
         (DR_AcceptedRefinementBudgetExhausted s.(repair_policy).(max_refinement_iters)), acc)
| step_accept s acc p :
    first_rejection p.(rp_delta) s = None -> s.(accepted_iters_remaining) <> 0 ->
    step (s, acc) (accept s acc p (iter_of acc)).

Definition last_record (s : LoopState) (stage : PlanningStage) (reason : DeltaRejection) : Prop :=
  exists r, last s.(history).(proposals) = Some r
    /\ rr_source_stage r = stage /\ rr_outcome r = Rejected reason.

(** What a [return] from inside a pass says of the final state. *)
Definition stop_explained (r : RefinementLoopResult) : Prop :=
  let s := r.(res_state) in
  match r.(res_terminal) with
  | Converged => False
  | GlobalBudgetExhausted => s.(global_iters_remaining) = 0
  | StageBudgetExhausted stage => remaining s.(stage_iters_remaining) stage = 0
  | AcceptedRefinementBudgetExhausted stage =>
      s.(accepted_iters_remaining) = 0
      /\ last_record s stage
           (DR_AcceptedRefinementBudgetExhausted s.(repair_policy).(max_refinement_iters))
  | StagedFailureUnrepairable stage (LE_ProposalRejected reason) => last_record s stage reason
  | StagedFailureUnrepairable _ (LE_Message _) => True
  end.

Section Pipeline.
  Context {P : Type} `{CompilerPipeline P}.

(** A pass in which every stage had budget left, ran and succeeded. *)
Inductive clean_pass : list PlanningStage -> LoopState -> P -> LoopState -> P -> Prop :=
| clean_nil s p : clean_pass [] s p s p
| clean_cons stage stages s p p1 s' p' :
    s.(global_iters_remaining) <> 0 -> remaining s.(stage_iters_remaining) stage <> 0 ->
    run_stage stage (charge s stage) p = (Ok Succeeded, p1) ->
    clean_pass stages (charge s stage) p1 s' p' ->
    clean_pass (stage :: stages) s p s' p'.

Lemma clean_pass_steps stages s p s' p' acc :
  clean_pass stages s p s' p' -> rtc step (s, acc) (s', acc).
Proof.
  induction 1; [done|]. eapply rtc_l; [by apply step_run|done].
Qed.

Lemma clean_pass_charges stages s p s' p' :
  clean_pass stages s p s' p' -> s' = fold_left charge stages s.
Proof. by induction 1. Qed.

(** ** Every run follows the steps *)

Definition flow_steps (c : LoopState * Z) (f : Flow) : Prop :=
  match f with
  | Next s => rtc step c (s, snd c)
  | Restart s acc => rtc step c (s, acc)
  | Return r => (exists acc, rtc step c (r.(res_state), acc)) /\ stop_explained r
  end.

Lemma flow_steps_l c c' f : rtc step c c' -> snd c' = snd c -> flow_steps c' f -> flow_steps c f.
Proof.
  intros Hc Hs. destruct f as [s|s acc|r]; simpl.
  - intros. rewrite <- Hs. by etrans.
  - intros. by etrans.
  - intros ((acc & Hr) & He). split; [|done]. exists acc. by etrans.
Qed.

Lemma last_pushed s acc p r : last_record (push_rejected s acc p r) (rp_source_stage p) r.
Proof. eexists. split; [apply last_snoc|done]. Qed.

Lemma repair_loop_steps fuel stage : forall proposal s acc p f p',
  repair_loop fuel stage proposal s acc p = (Ok f, p') ->
  flow_steps (s, acc) f /\ forall s', f <> Next s'.
Proof.
  induction fuel as [|fuel IH]; intros proposal s acc p f p' Hrun; [done|].
  simpl in Hrun. case_bool_decide as Hst; simpl in Hrun; [|done].
  destruct (first_rejection _ _) as [r|] eqn:Hr.
  - unfold mbind, piped_bind in Hrun.
    pose proof (step_reject s acc proposal r Hr) as Hstep.
    destruct (handle_rejected_repair _ _ _ p) as [[[alt|]| | |] p1]; try done.
    + apply IH in Hrun as [Hf Hn]. split; [|done].
      by eapply flow_steps_l; [apply rtc_once, Hstep|..].
    + injection Hrun as <- <-. split; [|done]. split; simpl.
      * eexists. by apply rtc_once.
      * subst stage. apply (last_pushed s acc).
  - destruct (accepted_iters_remaining s =? 0) eqn:Hz.
    + apply Z.eqb_eq in Hz. injection Hrun as <- <-. split; [|done]. split.
      * exists acc. by apply rtc_once, step_spent.
      * subst stage. split; [done|]. apply (last_pushed s acc).
    + apply Z.eqb_neq in Hz. injection Hrun as <- <-. split; [|done].
      by apply rtc_once, step_accept.
Qed.

Lemma run_stages_steps fuel stages : forall s acc p f p',
  run_stages fuel stages s acc p = (Ok f, p') ->
  flow_steps (s, acc) f
  /\ forall s', f = Next s' -> clean_pass stages s p s' p'.
Proof.
  induction stages as [|stage stages IH]; intros s acc p f p' Hrun; simpl in Hrun.
  { injection Hrun as <- <-. split; [apply rtc_refl|]. intros s' [= <-]. constructor. }
  destruct (global_iters_remaining s =? 0) eqn:Hg.
  { apply Z.eqb_eq in Hg. injection Hrun as <- <-. split; [|done]. split; [exists acc; apply rtc_refl|done]. }
  destruct (remaining _ stage =? 0) eqn:Hs.
  { apply Z.eqb_eq in Hs. injection Hrun as <- <-. split; [|done]. split; [exists acc; apply rtc_refl|done]. }
  apply Z.eqb_neq in Hg, Hs.
  pose proof (step_run s acc stage Hg Hs) as Hstep.
  unfold mbind, piped_bind in Hrun.
  destruct (run_stage _ _ p) as [[[|proposal|message]| | |] p1] eqn:Hp; try done.
  - apply IH in Hrun as [Hf Hc]. split.
    + by eapply flow_steps_l; [apply rtc_once, Hstep|..].
    + intros s' ->. econstructor; eauto.
  - apply repair_loop_steps in Hrun as [Hf Hn]. split.
    + by eapply flow_steps_l; [apply rtc_once, Hstep|..].
    + intros s' ->. by destruct (Hn s').
  - injection Hrun as <- <-. split; [|done]. split; [|done].
    eexists. by apply rtc_once.
Qed.

(** The run of a loop that returns: steps to the final state, which either a
    clean pass or the reason of the return explains. *)
Definition run_explained (c : LoopState * Z) (r : RefinementLoopResult) (p' : P) : Prop :=
  (exists s acc p, rtc step c (s, acc) /\ r.(res_terminal) = Converged
     /\ clean_pass WRAPPED_PLANNING_STAGES s p r.(res_state) p')
  \/ (exists acc, rtc step c (r.(res_state), acc)) /\ stop_explained r.

Lemma restart_loop_steps passes fuel : forall s acc p r p',
  restart_loop passes fuel s acc p = (Ok r, p') -> run_explained (s, acc) r p'.
Proof.
  induction passes as [|passes IH]; intros s acc p r p' Hrun; [done|].
  cbn [restart_loop] in Hrun. unfold mbind, piped_bind in Hrun.
  destruct (run_stages _ _ _ _ p) as [[f| | |] p1] eqn:Hf; try done.
  apply run_stages_steps in Hf as [Hf Hc]. destruct f as [s1|s1 acc1|r1].
  - injection Hrun as <- <-. constructor. exists s, acc, p. split_and!; [done|done|by apply Hc].
  - apply IH in Hrun as [(s2 & acc2 & p2 & Hr & Ht)|((acc2 & Hr) & He)].
    + constructor. exists s2, acc2, p2. split; [by etrans|done].
    + constructor 2. split; [exists acc2; by etrans|done].
  - injection Hrun as <- <-. by constructor 2.
Qed.

Lemma run_steps fuel s p r p' :
  run_refinement_loop fuel s p = (Ok r, p') -> exists acc, rtc step (s, 0) (r.(res_state), acc).
Proof.
  intros [(s1 & acc & p1 & Hr & _ & Hc)|[Hr _]]%restart_loop_steps; [|done].
  exists acc. etrans; [done|]. by eapply clean_pass_steps.
Qed.

End Pipeline.
End Steps.

(** ** Admission *)

(** The check gives a verdict: it neither panics nor diverges. *)
Lemma check_verdict d k pol o pur :
  check_delta_admissible_with_recompute_purity d k pol o pur = Ok ()
  \/ exists e, check_delta_admissible_with_recompute_purity d k pol o pur = Err e.
Proof.
  unfold check_delta_admissible_with_recompute_purity.
  case_match; [by eauto|]. case_match; [by eauto|].
  assert (Hb : check_delta_bounds d k = Ok () \/ exists e, check_delta_bounds d k = Err e).
  { destruct d; simpl; unfold check_ordered_bound; try (by eauto); try (case_match; by eauto).
    destruct update; simpl; unfold check_pressure_limit, check_pressure_limit_bound;
      repeat (case_match; simpl; try by eauto). }
  assert (Hm : check_delta_monotone d k = Ok () \/ exists e, check_delta_monotone d k = Err e).
  { destruct d; simpl; unfold check_strict_advance; try (by eauto); try (case_match; by eauto).
    destruct update; simpl; unfold check_pressure_limit_monotone; case_match; by eauto. }
  assert (Hp : check_recompute_purity d pur = Ok () \/ exists e, check_recompute_purity d pur = Err e).
  { destruct d; simpl; try (by eauto). case_match; by eauto. }
  destruct Hb as [->|[e ->]]; [|by eauto]. destruct Hm as [->|[e ->]]; [|by eauto].
  destruct Hp as [->|[e ->]]; [|by eauto]. simpl. case_match; by eauto.
Qed.

Definition admissible (s : LoopState) (k : CompileKnobs) (d : KnobDelta) : Prop :=
  check_delta_admissible_with_recompute_purity d k s.(repair_policy) s.(observability)
    s.(recompute_purity) = Ok ().

Lemma find_map_none {A B} (f : A -> option B) l : find_map f l = None <-> Forall (fun a => f a = None) l.
Proof.
  induction l as [|a l IH]; simpl; [by split|]. rewrite Forall_cons, <- IH.
  destruct (f a); [split; [done|by intros []]|]. split; [done|by intros []].
Qed.

Lemma first_rejection_none delta s :
  first_rejection delta s = None <-> Forall (admissible s s.(knobs)) delta.(changes).
Proof.
  unfold first_rejection. rewrite find_map_none.
  split; intros Hd; eapply Forall_impl; [exact Hd| |exact Hd|]; intros d; unfold admissible;
    destruct (check_verdict d s.(knobs) s.(repair_policy) s.(observability) s.(recompute_purity))
      as [->|[e ->]]; done.
Qed.

(** ** The audited history

    The promise of the loop about its history: read from the start, each record
    is either a justified rejection, which changes nothing, or an accepted
    proposal all of whose changes were admissible for the knobs at that point,
    and which turned these knobs into the next ones.  The policy is that of the
    initial state. *)

Section Audit.
  Context `{SerdeJson} (s0 : LoopState).

Inductive audited : list RepairProposalRecord -> CompileKnobs -> Z -> Prop :=
| audited_nil : audited [] s0.(knobs) 0
| audited_rejected l k n r reason :
    audited l k n ->
    rr_outcome r = Rejected reason -> rr_iter_emitted r = iter_of n ->
    (~ Forall (admissible s0 k) (rr_delta r).(changes)
     \/ Forall (admissible s0 k) (rr_delta r).(changes)
        /\ n = s0.(accepted_iters_remaining)
        /\ reason = DR_AcceptedRefinementBudgetExhausted
                      s0.(repair_policy).(max_refinement_iters)) ->
    audited (l ++ [r]) k n
| audited_accepted l k n r k' :
    audited l k n ->
    rr_outcome r = Accepted (n + 1) (KnobDeltaSummary_from_delta (rr_delta r) k k' (rr_id r)) ->
    rr_iter_emitted r = iter_of n ->
    Forall (admissible s0 k) (rr_delta r).(changes) ->
    n < s0.(accepted_iters_remaining) ->
    k' = apply_constraint_delta k (rr_id r) (rr_delta r) ->
    audited (l ++ [r]) k' (n + 1).

Definition runs_of (s : LoopState) (stage : PlanningStage) : Z :=
  default 0 (s.(history).(stage_iteration_counts) !! stage).

Definition total_runs (s : LoopState) : Z :=
  zsum (map (runs_of s) WRAPPED_PLANNING_STAGES).

(** The types of the counters, and an empty history. *)
Record fresh_state (s : LoopState) : Prop := {
  fresh_history : s.(history) = RepairHistory_default;
  fresh_accepted : 0 <= s.(accepted_iters_remaining) < U8;
  fresh_global : 0 <= s.(global_iters_remaining) < U8;
  fresh_stages : forall stage, 0 <= remaining s.(stage_iters_remaining) stage < U8;
}.

Record loop_inv (c : LoopState * Z) : Prop := {
  inv_audit : audited c.1.(history).(proposals) c.1.(knobs) c.2;
  inv_policy : c.1.(repair_policy) = s0.(repair_policy)
    /\ c.1.(observability) = s0.(observability)
    /\ c.1.(recompute_purity) = s0.(recompute_purity);
  inv_accepted : c.1.(accepted_iters_remaining) + c.2 = s0.(accepted_iters_remaining)
    /\ 0 <= c.2 /\ 0 <= c.1.(accepted_iters_remaining);
  inv_runs : forall stage,
    runs_of c.1 stage + remaining c.1.(stage_iters_remaining) stage
      = remaining s0.(stage_iters_remaining) stage
    /\ 0 <= runs_of c.1 stage /\ 0 <= remaining c.1.(stage_iters_remaining) stage;
  inv_global : total_runs c.1 + c.1.(global_iters_remaining) = s0.(global_iters_remaining)
    /\ 0 <= c.1.(global_iters_remaining);
}.

Lemma remaining_decrement c stage stage' :
  remaining (decrement c stage) stage'
  = if bool_decide (stage = stage') then saturating_sub (remaining c stage') 1
    else remaining c stage'.
Proof. by destruct c, stage, stage'. Qed.

Lemma runs_of_charge s stage stage' :
  runs_of (charge s stage) stage'
  = if bool_decide (stage = stage') then saturating_add U8 (runs_of s stage') 1
    else runs_of s stage'.
Proof.
  unfold runs_of. simpl. case_bool_decide; [subst|].
  - by rewrite lookup_insert_eq.
  - by rewrite lookup_insert_ne.
Qed.

Lemma total_runs_charge s stage :
  runs_of s stage < U8 - 1 -> total_runs (charge s stage) = total_runs s + 1.
Proof.
  intros Hr. unfold total_runs. simpl map. rewrite !runs_of_charge.
  destruct stage; rewrite ?bool_decide_eq_true_2, ?bool_decide_eq_false_2 by done;
    simpl; unfold saturating_add; lia.
Qed.

Hypothesis Hfresh : fresh_state s0.

Lemma refinement_inv_init : loop_inv (s0, 0).
Proof.
  destruct Hfresh as [Hh Ha Hg Hs]. split; simpl.
  - rewrite Hh. constructor.
  - done.
  - lia.
  - intros stage. unfold runs_of. rewrite Hh. specialize (Hs stage). simpl. rewrite lookup_empty. simpl. lia.
  - unfold total_runs, runs_of. rewrite Hh. simpl. rewrite !lookup_empty. simpl. lia.
Qed.

Lemma admissible_policy s k : s.(repair_policy) = s0.(repair_policy) ->
  s.(observability) = s0.(observability) -> s.(recompute_purity) = s0.(recompute_purity) ->
  admissible s k = admissible s0 k.
Proof. unfold admissible. by intros -> -> ->. Qed.

(** A push of a record changes only the audit. *)
Lemma loop_inv_push s acc r :
  loop_inv (s, acc) -> audited (s.(history).(proposals) ++ [r]) s.(knobs) acc ->
  loop_inv (set_history (push_proposal s.(history) r) s, acc).
Proof. intros [Ha Hp Hc Hr Hg] Hn. by split. Qed.

Lemma loop_inv_step c c' : loop_inv c -> step c c' -> loop_inv c'.
Proof.
  intros Hinv Hstep.
  assert (Hadm : forall d, Forall (admissible c.1 c.1.(knobs)) d
                   <-> Forall (admissible s0 c.1.(knobs)) d).
  { destruct (inv_policy _ Hinv) as (? & ? & ?). intros d.
    by rewrite admissible_policy. }
  pose proof (inv_accepted _ Hinv) as Hacc.
  destruct Hstep as [s acc stage Hg Hst|s acc p r Hr|s acc p Hr Hz|s acc p Hr Hz]; simpl in *.
  - destruct Hinv as [Ha Hp Hc Hr Hgl]. simpl in *.
    pose proof (fresh_stages _ Hfresh stage) as Hu. pose proof (Hr stage) as Hrs.
    split; simpl; [done|done|done| |].
    + intros stage'. rewrite runs_of_charge, remaining_decrement. specialize (Hr stage').
      case_bool_decide; [subst|done]. unfold saturating_add, saturating_sub. lia.
    + rewrite total_runs_charge by lia. unfold saturating_sub. lia.
  - apply loop_inv_push; [done|]. eapply audited_rejected; [apply Hinv|done|done|].
    constructor. simpl. rewrite <- Hadm. intros Hf%first_rejection_none. congruence.
  - apply loop_inv_push; [done|]. eapply audited_rejected; [apply Hinv|done|done|].
    constructor 2. simpl. rewrite <- Hadm. split_and!; [by apply first_rejection_none|lia|].
    destruct (inv_policy _ Hinv) as (Hpol & _). simpl in Hpol. by rewrite Hpol.
  - assert (Hn : saturating_add U8 acc 1 = acc + 1).
    { pose proof (fresh_accepted _ Hfresh). unfold saturating_add. lia. }
    apply first_rejection_none in Hr. rewrite Hadm in Hr.
    destruct Hinv as [Ha Hp Hc Hrs Hgl]. simpl in *. unfold accept. rewrite Hn.
    split; simpl; [|done| |done|done].
    + by eapply audited_accepted; [..|lia|].
    + unfold saturating_sub. lia.
Qed.

Lemma loop_inv_reach_from c c' : loop_inv c -> rtc step c c' -> loop_inv c'.
Proof.
  intros Hc Hr. revert Hc. induction Hr as [|x y z Hxy _ IH]; [done|].
  intros Hx. apply IH. by eapply loop_inv_step.
Qed.

Lemma loop_inv_reach c : rtc step (s0, 0) c -> loop_inv c.
Proof. apply loop_inv_reach_from, refinement_inv_init. Qed.

End Audit.
