(* ===== verification/RefinementRunFacts.v ===== *)
(** * Runs of the refinement loop

    The theorems about [run_refinement_loop]: what its history proves, what its
    budgets count, what each terminal state means, when it terminates and when
    it converges, and that its report validates. *)

From S2P Require Import Prelude Numeric KnobLattice KnobDelta KnobFacts Refinement RefinementFacts.

(** ** Policy *)

Lemma audited_policy_kept `{SerdeJson} s0 l k n : audited s0 l k n ->
  policy_kept s0.(observability) s0.(recompute_purity) s0.(knobs) k.
Proof.
  induction 1 as [|l k n r reason Ha IH _ _ _|l k n r k' Ha IH _ _ Hadm _ ->]; [reflexivity|done|].
  etrans; [exact IH|]. eapply policy_kept_proposal. exact Hadm.
Qed.

(** ** Counting runs *)

Section Counts.
  Context `{SerdeJson} {P : Type} `{CompilerPipeline P}.

(** What the rest of a pass does to the ceiling of a stage it does not run, and to
    the budget of accepted proposals. *)
Definition spends (stage : PlanningStage) (s s' : LoopState) (runs accepted : Z) : Prop :=
  remaining s'.(stage_iters_remaining) stage = remaining s.(stage_iters_remaining) stage - runs
  /\ s'.(accepted_iters_remaining) = s.(accepted_iters_remaining) - accepted.

Definition flow_spends (stage : PlanningStage) (s : LoopState) (runs : Z) (f : Flow) : Prop :=
  match f with
  | Next s' => spends stage s s' runs 0
  | Restart s' _ => spends stage s s' runs 1
  | Return r => r.(res_terminal) <> Converged
  end.

Lemma flow_spends_charge stage st s runs f : 0 < remaining s.(stage_iters_remaining) st ->
  flow_spends stage (charge s st) runs f ->
  flow_spends stage s (runs + if bool_decide (st = stage) then 1 else 0) f.
Proof.
  intros Hp. unfold flow_spends, spends. simpl. rewrite remaining_decrement.
  destruct f; try done; (case_bool_decide; [subst|]); unfold saturating_sub; lia.
Qed.

Lemma repair_loop_spends fuel stage stage' : forall proposal s acc p f p',
  0 <= s.(accepted_iters_remaining) ->
  repair_loop fuel stage proposal s acc p = (Ok f, p') ->
  (forall s', f <> Next s') /\ flow_spends stage' s 0 f.
Proof.
  induction fuel as [|fuel IH]; intros proposal s acc p f p' Ha Hrun; [done|].
  simpl in Hrun. case_bool_decide; simpl in Hrun; [|done].
  destruct (first_rejection _ _).
  - unfold mbind, piped_bind in Hrun.
    destruct (handle_rejected_repair _ _ _ p) as [[[alt|]| | |] p1]; try done.
    + by apply IH in Hrun.
    + by injection Hrun as <- <-.
  - destruct (accepted_iters_remaining s =? 0) eqn:Hz; injection Hrun as <- <-; [done|].
    split; [done|]. apply Z.eqb_neq in Hz. unfold flow_spends, spends, saturating_sub. simpl. lia.
Qed.

Lemma run_stages_spends fuel stage stages : forall s acc p f p',
  0 <= s.(accepted_iters_remaining) ->
  (forall st, 0 <= remaining s.(stage_iters_remaining) st) -> stage ∉ stages ->
  run_stages fuel stages s acc p = (Ok f, p') -> flow_spends stage s 0 f.
Proof.
  induction stages as [|st stages IH]; intros s acc p f p' Ha Hpos Hn Hrun; simpl in Hrun.
  { injection Hrun as <- <-. unfold flow_spends, spends. lia. }
  apply not_elem_of_cons in Hn as [Hne Hn].
  destruct (_ =? 0); [by injection Hrun as <- <-|].
  destruct (remaining _ st =? 0) eqn:Hz; [by injection Hrun as <- <-|]. apply Z.eqb_neq in Hz.
  unfold mbind, piped_bind in Hrun.
  assert (Hpos' : forall st', 0 <= remaining (charge s st).(stage_iters_remaining) st').
  { intros st'. simpl. rewrite remaining_decrement. unfold saturating_sub.
    specialize (Hpos st'). case_bool_decide; lia. }
  assert (Hstep : flow_spends stage (charge s st) 0 f -> flow_spends stage s 0 f).
  { intros Hf%flow_spends_charge; [by rewrite bool_decide_eq_false_2 in Hf|].
    specialize (Hpos st). lia. }
  destruct (run_stage _ _ p) as [[[|proposal|message]| | |] p1]; try done.
  - by apply Hstep; eapply IH.
  - by apply Hstep; eapply repair_loop_spends.
  - by injection Hrun as <- <-.
Qed.

(** The first stage runs once in every pass. *)
Lemma pass_spends fuel s acc p f p' :
  0 <= s.(accepted_iters_remaining) ->
  (forall st, 0 <= remaining s.(stage_iters_remaining) st) ->
  run_stages fuel WRAPPED_PLANNING_STAGES s acc p = (Ok f, p') -> flow_spends RangePlan s 1 f.
Proof.
  assert (exists later, WRAPPED_PLANNING_STAGES = RangePlan :: later /\ RangePlan ∉ later)
    as (later & -> & Hl) by (eexists; split; [done|set_solver]).
  cbn [run_stages]. intros Ha Hpos Hrun.
  destruct (_ =? 0); [by injection Hrun as <- <-|].
  destruct (remaining _ RangePlan =? 0) eqn:Hz; [by injection Hrun as <- <-|]. apply Z.eqb_neq in Hz.
  unfold mbind, piped_bind in Hrun.
  assert (Hpos' : forall st', 0 <= remaining (charge s RangePlan).(stage_iters_remaining) st').
  { intros st'. simpl. rewrite remaining_decrement. unfold saturating_sub.
    specialize (Hpos st'). case_bool_decide; lia. }
  assert (Hstep : flow_spends RangePlan (charge s RangePlan) 0 f -> flow_spends RangePlan s 1 f).
  { intros Hf%flow_spends_charge; [done|]. specialize (Hpos RangePlan). lia. }
  destruct (run_stage _ _ p) as [[[|proposal|message]| | |] p1]; try done.
  - by apply Hstep; eapply run_stages_spends.
  - by apply Hstep; eapply repair_loop_spends.
  - by injection Hrun as <- <-.
Qed.

Lemma loop_inv_pos s0 c : loop_inv s0 c ->
  0 <= c.1.(accepted_iters_remaining)
  /\ forall st, 0 <= remaining c.1.(stage_iters_remaining) st.
Proof.
  intros Hi. pose proof (inv_accepted _ _ Hi). split; [lia|]. intros st.
  pose proof (inv_runs _ _ Hi st). lia.
Qed.

(** Restarts spend both budgets in step; the last pass spends only a run. *)
Lemma converged_spends s0 passes fuel : fresh_state s0 -> forall s acc p r p',
  loop_inv s0 (s, acc) ->
  restart_loop passes fuel s acc p = (Ok r, p') -> r.(res_terminal) = Converged ->
  s.(accepted_iters_remaining) - r.(res_state).(accepted_iters_remaining) + 1
  = remaining s.(stage_iters_remaining) RangePlan
    - remaining r.(res_state).(stage_iters_remaining) RangePlan.
Proof.
  intros Hs0. induction passes as [|passes IH]; intros s acc p r p' Hi Hrun Hcv; [done|].
  destruct (loop_inv_pos _ _ Hi) as [Ha Hpos]. simpl in Ha, Hpos.
  cbn [restart_loop] in Hrun. unfold mbind, piped_bind in Hrun.
  destruct (run_stages _ _ _ _ p) as [[f| | |] p1] eqn:Hf; try done.
  pose proof (pass_spends _ _ _ _ _ _ Ha Hpos Hf) as Hsp. apply run_stages_steps in Hf as [Hf _].
  destruct f as [s1|s1 acc1|r1]; simpl in *.
  - injection Hrun as <- <-. unfold spends in Hsp. simpl in *. lia.
  - apply IH in Hrun; [|by eapply loop_inv_reach_from|done]. unfold spends in Hsp. simpl in Hsp. lia.
  - injection Hrun as <- <-. done.
Qed.

(** ** Termination *)

(** A restart has spent global budget. *)
Lemma repair_loop_global fuel stage : forall proposal s acc p s' acc' p',
  repair_loop fuel stage proposal s acc p = (Ok (Restart s' acc'), p') ->
  s'.(global_iters_remaining) = s.(global_iters_remaining).
Proof.
  induction fuel as [|fuel IH]; intros proposal s acc p s' acc' p' Hrun; [done|].
  simpl in Hrun. case_bool_decide; simpl in Hrun; [|done].
  destruct (first_rejection _ _).
  - unfold mbind, piped_bind in Hrun.
    destruct (handle_rejected_repair _ _ _ p) as [[[alt|]| | |] p1]; try done.
    by apply IH in Hrun.
  - destruct (_ =? 0); [done|]. by injection Hrun as <- <- <-.
Qed.

Lemma run_stages_global fuel stages : forall s acc p s' acc' p',
  0 <= s.(global_iters_remaining) ->
  run_stages fuel stages s acc p = (Ok (Restart s' acc'), p') ->
  0 <= s'.(global_iters_remaining) < s.(global_iters_remaining).
Proof.
  induction stages as [|stage stages IH]; intros s acc p s' acc' p' Hg Hrun; simpl in Hrun; [done|].
  destruct (global_iters_remaining s =? 0) eqn:Hz; [done|].
  destruct (remaining _ stage =? 0); [done|].
  unfold mbind, piped_bind in Hrun.
  assert (Hc : (charge s stage).(global_iters_remaining) = s.(global_iters_remaining) - 1)
    by (simpl; unfold saturating_sub; lia).
  destruct (run_stage _ _ p) as [[[|proposal|message]| | |] p1]; try done.
  - apply IH in Hrun; lia.
  - apply repair_loop_global in Hrun. lia.
Qed.

(** A computation that neither panics nor diverges. *)
Definition answers {A} (o : outcome RefinementLoopError A) : Prop :=
  match o with Ok _ | Err _ => True | Panic | NoFuel => False end.

(** The pipeline answers every call, and offers at most [n] alternatives in a
    row: [patience] counts what it has left. *)
Record patient_pipeline (patience : P -> nat) (n : nat) : Prop := {
  run_answers : forall stage s p, answers (run_stage stage s p).1;
  handle_answers : forall stage s r p, answers (handle_rejected_repair stage s r p).1;
  patience_bound : forall stage s p, (patience (run_stage stage s p).2 <= n)%nat;
  patience_spent : forall stage s r p alt p',
    handle_rejected_repair stage s r p = (Ok (Some alt), p') -> (patience p' < patience p)%nat;
}.

Lemma repair_loop_answers patience n fuel stage : patient_pipeline patience n ->
  forall proposal s acc p, (patience p < fuel)%nat ->
  answers (repair_loop fuel stage proposal s acc p).1.
Proof.
  intros Hp. induction fuel as [|fuel IH]; intros proposal s acc p Hf; [lia|].
  simpl. case_bool_decide; simpl; [|done]. destruct (first_rejection _ _) as [r|].
  - unfold mbind, piped_bind. set (s1 := set_history _ s). set (r1 := record_of _ _ _ _).
    pose proof (handle_answers _ _ Hp stage s1 r1 p) as Ha.
    pose proof (patience_spent _ _ Hp stage s1 r1 p) as Hs.
    destruct (handle_rejected_repair stage s1 r1 p) as [[[alt|]| | |] p1]; try done.
    apply IH. specialize (Hs alt p1 eq_refl). lia.
  - by destruct (_ =? 0).
Qed.

Lemma run_stages_answers patience n fuel stages : patient_pipeline patience n -> (n < fuel)%nat ->
  forall s acc p, answers (run_stages fuel stages s acc p).1.
Proof.
  intros Hp Hf. induction stages as [|stage stages IH]; intros s acc p; simpl; [done|].
  destruct (_ =? 0); [done|]. destruct (_ =? 0); [done|].
  unfold mbind, piped_bind.
  pose proof (run_answers _ _ Hp stage (charge s stage) p) as Ha.
  pose proof (patience_bound _ _ Hp stage (charge s stage) p) as Hb.
  destruct (run_stage _ _ p) as [[[|proposal|message]| | |] p1]; try done; simpl in *.
  eapply repair_loop_answers; [done|lia].
Qed.

Lemma restart_loop_answers patience n passes fuel : patient_pipeline patience n -> (n < fuel)%nat ->
  forall s acc p, 0 <= s.(global_iters_remaining) < Z.of_nat passes ->
  answers (restart_loop passes fuel s acc p).1.
Proof.
  intros Hp Hf. induction passes as [|passes IH]; intros s acc p Hg; [lia|].
  cbn [restart_loop]. unfold mbind, piped_bind.
  pose proof (run_stages_answers _ _ _ WRAPPED_PLANNING_STAGES Hp Hf s acc p) as Ha.
  destruct (run_stages _ _ s acc p) as [[[s1|s1 acc1|r1]| | |] p1] eqn:Hr; try done.
  apply IH. apply run_stages_global in Hr; lia.
Qed.

(** ** Convergence *)

(** A pipeline whose stages, in every state that the loop reaches from [s0],
    succeed or ask for what the policy admits, each proposal bringing the knobs
    nearer to what they need. *)
Definition cooperative (s0 : LoopState) (need : CompileKnobs -> nat) : Prop :=
  forall stage s acc p, rtc step (s0, 0) (s, acc) ->
    (exists p', run_stage stage s p = (Ok Succeeded, p'))
    \/ exists proposal p', run_stage stage s p = (Ok (ProposedRepair proposal), p')
         /\ rp_source_stage proposal = stage
         /\ first_rejection (rp_delta proposal) s = None
         /\ (need (apply_constraint_delta s.(knobs) (rp_id proposal) (rp_delta proposal))
              < need s.(knobs))%nat.

(** Budget for [j] repairs and a last pass that still has [stages] to run. *)
Record funded (s : LoopState) (j : nat) (stages : list PlanningStage) : Prop := {
  funded_accepted : Z.of_nat j <= s.(accepted_iters_remaining);
  funded_global : 8 * Z.of_nat j + zlen stages <= s.(global_iters_remaining);
  funded_stages : forall stage,
    Z.of_nat j + (if bool_decide (stage ∈ stages) then 1 else 0)
      <= remaining s.(stage_iters_remaining) stage;
}.

Lemma funded_charge s j stage stages : stage ∉ stages ->
  funded s j (stage :: stages) -> funded (charge s stage) j stages.
Proof.
  intros Hn [Ha Hg Hs]. unfold zlen in *. simpl in *. split; simpl; [done| |].
  - unfold saturating_sub, zlen. lia.
  - intros stage'. specialize (Hs stage'). rewrite remaining_decrement.
    destruct (decide (stage = stage')) as [->|Hne].
    + rewrite bool_decide_eq_true_2 in Hs by set_solver.
      rewrite (bool_decide_eq_false_2 (stage' ∈ stages)), bool_decide_eq_true_2 by done.
      unfold saturating_sub. lia.
    + rewrite (bool_decide_eq_false_2 (stage = stage')) by done.
      case_bool_decide; case_bool_decide; try lia; set_solver.
Qed.

Lemma funded_less s j j' stages : (j' < j)%nat -> funded s j stages ->
  funded s j' WRAPPED_PLANNING_STAGES.
Proof.
  intros Hj [Ha Hg Hs]. split; [lia| |].
  - unfold zlen in *. simpl. lia.
  - intros stage. specialize (Hs stage). case_bool_decide; case_bool_decide; lia.
Qed.

Definition need_of (need : CompileKnobs -> nat) (s : LoopState) : nat := need s.(knobs).

(** A funded pass goes through or restarts with less need. *)
Lemma run_stages_cooperative s0 need fuel stages : cooperative s0 need -> forall s acc p,
  rtc step (s0, 0) (s, acc) -> NoDup stages -> funded s (need_of need s) stages ->
  exists f p', run_stages (S fuel) stages s acc p = (Ok f, p')
    /\ match f with
       | Next _ => True
       | Restart s' acc' => rtc step (s0, 0) (s', acc')
                            /\ (need_of need s' < need_of need s)%nat
                            /\ funded s' (need_of need s') WRAPPED_PLANNING_STAGES
       | Return _ => False
       end.
Proof.
  intros Hco. induction stages as [|stage stages IH]; intros s acc p Hreach Hnd Hf; cbn [run_stages].
  { by eexists _, _. }
  apply NoDup_cons in Hnd as [Hn Hnd]. pose proof (funded_charge _ _ _ _ Hn Hf) as Hf'.
  destruct Hf as [Ha Hg Hs]. specialize (Hs stage).
  rewrite bool_decide_eq_true_2 in Hs by set_solver.
  unfold zlen in Hg. simpl in Hg.
  assert (Hg0 : global_iters_remaining s <> 0) by lia.
  assert (Hs0 : remaining (stage_iters_remaining s) stage <> 0) by lia.
  rewrite (proj2 (Z.eqb_neq _ _) Hg0), (proj2 (Z.eqb_neq _ _) Hs0).
  assert (Hr1 : rtc step (s0, 0) (charge s stage, acc)) by (eapply rtc_r; [done|by apply step_run]).
  unfold mbind, piped_bind.
  destruct (Hco stage (charge s stage) acc p Hr1)
    as [(p1 & ->)|(proposal & p1 & -> & Hst & Hr & Hneed)].
  - exact (IH (charge s stage) acc p1 Hr1 Hnd Hf').
  - cbn [repair_loop]. rewrite bool_decide_eq_true_2 by done. cbn [negb]. rewrite Hr.
    simpl in Hneed. assert (Hpos : accepted_iters_remaining (charge s stage) <> 0).
    { simpl. unfold need_of in Ha. lia. }
    rewrite (proj2 (Z.eqb_neq _ _) Hpos). eexists _, _. split; [reflexivity|].
    split; [eapply rtc_r; [exact Hr1|by apply step_accept]|].
    unfold need_of in *. simpl. split; [done|].
    pose proof (funded_less _ _ _ _ Hneed Hf') as [Ha' Hg' Hs']. split; [|done|done].
    simpl. unfold saturating_sub. lia.
Qed.

Lemma restart_loop_cooperative s0 need fuel : cooperative s0 need -> forall passes s acc p,
  rtc step (s0, 0) (s, acc) ->
  funded s (need_of need s) WRAPPED_PLANNING_STAGES -> (need_of need s < passes)%nat ->
  exists r p', restart_loop passes (S fuel) s acc p = (Ok r, p') /\ r.(res_terminal) = Converged.
Proof.
  intros Hco. induction passes as [|passes IH]; intros s acc p Hreach Hf Hp; [lia|].
  cbn [restart_loop]. unfold mbind, piped_bind.
  assert (Hnd : NoDup WRAPPED_PLANNING_STAGES) by (repeat constructor; set_solver).
  destruct (run_stages_cooperative s0 need fuel _ Hco s acc p Hreach Hnd Hf) as (f & p1 & -> & Hc).
  destruct f as [s1|s1 acc1|r1]; [|destruct Hc as (Hr1 & Hlt & Hf1)|done].
  - by eexists _, _.
  - apply IH; [done|done|lia].
Qed.

End Counts.
