(* ===== verification/RefinementTheorems.v ===== *)
(** * The refinement loop: theorems

    The statements about [run_refinement_loop] and its report, each with a run
    of a concrete pipeline where it has hypotheses. *)

From S2P Require Import Prelude Numeric KnobLattice KnobDelta KnobFacts Refinement RefinementFacts RefinementRunFacts.

(** ** The report *)

Lemma any_pair_snoc {A} (bad : A -> A -> bool) l x :
  any_pair bad (l ++ [x])
  = any_pair bad l || match last l with Some a => bad a x | None => false end.
Proof.
  induction l as [|a [|b l] IH]; [done|simpl; by rewrite orb_false_r|].
  change (bad a b || any_pair bad ((b :: l) ++ [x])
          = (bad a b || any_pair bad (b :: l))
            || match last (b :: l) with Some a => bad a x | None => false end).
  by rewrite IH, orb_assoc.
Qed.

Lemma any_pair_ext {A} (f g : A -> A -> bool) l :
  (forall x y, x ∈ l -> y ∈ l -> f x y = g x y) -> any_pair f l = any_pair g l.
Proof.
  induction l as [|a [|b l] IH]; intros Hfg; [done..|].
  change (f a b || any_pair f (b :: l) = g a b || any_pair g (b :: l)).
  rewrite Hfg, IH; [done| |set_solver..]. intros. apply Hfg; set_solver.
Qed.

Lemma repeated_id_spec l : forall seen,
  repeated_id seen l = false
  <-> NoDup (map rr_id l) /\ forall r, r ∈ l -> rr_id r ∉ seen.
Proof.
  induction l as [|r l IH]; intros seen; simpl.
  { split; [|done]. intros _. split; [constructor|set_solver]. }
  rewrite orb_false_iff, bool_decide_eq_false, IH, NoDup_cons.
  split.
  - intros (Hs & Hnd & Hl). split_and!; [|done|set_solver].
    intros (r' & He & Hr')%list_elem_of_fmap. specialize (Hl r' Hr'). set_solver.
  - intros ((Hn & Hnd) & Hl). split_and!; [set_solver|done|].
    intros r' Hr'. apply not_elem_of_union. split; [|set_solver].
    rewrite elem_of_singleton. intros He. apply Hn. rewrite <- He. by apply list_elem_of_fmap_2.
Qed.

Lemma stage_counts_ascend m :
  any_pair (fun x y => stage_index y.(sc_stage) <=? stage_index x.(sc_stage)) (stage_counts m) = false.
Proof.
  unfold stage_counts. cbn [enum PlanningStage_finite omap list_omap].
  repeat match goal with |- context [m !! ?k] => destruct (m !! k); cbn [fmap option_fmap option_map] end;
    reflexivity.
Qed.

(** The emission numbers of an audited history never fall. *)
Lemma audited_iterations `{SerdeJson} s0 l k n : audited s0 l k n ->
  0 <= n /\ forall r, last l = Some r -> rr_iter_emitted r <= iter_of n.
Proof.
  induction 1 as [|l k n r reason Ha [Hn IH] _ He _|l k n r k' Ha [Hn IH] _ He _ _ _]; [done|..];
    (split; [lia|]); intros r'; rewrite last_snoc; intros [= <-]; rewrite He;
    unfold iter_of, saturating_add; lia.
Qed.

(** Records of one iteration whose ids do not ascend. *)
Definition same_iteration_disorder (a b : RepairProposalRecord) : bool :=
  (a.(rr_iter_emitted) =? b.(rr_iter_emitted)) && negb (String.leb a.(rr_id) b.(rr_id)).

Lemma audited_disorder `{SerdeJson} s0 l k n : audited s0 l k n ->
  any_pair later_record l = any_pair same_iteration_disorder l.
Proof.
  assert (Hpair : forall a b, rr_iter_emitted a <= rr_iter_emitted b ->
            later_record a b = same_iteration_disorder a b).
  { intros a b Hab. unfold later_record, same_iteration_disorder.
    rewrite (proj2 (Z.ltb_ge _ _)) by done. by rewrite (Z.eqb_sym (rr_iter_emitted b)). }
  induction 1 as [|l k n r reason Ha IH _ He _|l k n r k' Ha IH _ He _ _ _]; [done|..];
    rewrite !any_pair_snoc, IH; f_equal; destruct (last l) as [a|] eqn:Hl; try done;
    apply Hpair; rewrite He; eapply audited_iterations; done.
Qed.

(** The loop neither performs nor records a relaxation. *)
Lemma no_relaxation_applied id delta : forall k,
  has_authorized_relaxation (apply_constraint_delta k id delta) = has_authorized_relaxation k.
Proof.
  unfold apply_constraint_delta. induction delta.(changes) as [|d ds IH]; intros k; simpl; [done|].
  rewrite IH. unfold has_authorized_relaxation. simpl.
  destruct (delta_frame k d) as (_ & _ & -> & _). rewrite existsb_app. simpl.
  by rewrite !orb_false_r.
Qed.

Lemma audited_relaxation `{SerdeJson} s0 l k n : audited s0 l k n ->
  has_authorized_relaxation k = has_authorized_relaxation s0.(knobs)
  /\ existsb accepted_authorized_relaxation l = false.
Proof.
  induction 1 as [|l k n r reason Ha [IHk IHl] Ho _ _|l k n r k' Ha [IHk IHl] Ho _ _ _ ->];
    [done|..]; rewrite existsb_app, IHl; simpl; unfold accepted_authorized_relaxation; rewrite Ho.
  - done.
  - split; [by rewrite no_relaxation_applied|]. simpl.
    rewrite orb_false_r. clear. by induction (changes (rr_delta r)).
Qed.

Lemma check_nil (b : bool) (f : string) (l : list string) :
  (if b then [f] else []) ++ l = [] <-> b = false /\ l = [].
Proof. destruct b; simpl; [split; [done|by intros []]|]. split; [done|by intros [_ ?]]. Qed.

Lemma validate_Ok b o : validate_semantics b o = Ok () <->
  bool_decide (o = Report_Passed) = is_converged b.(termination)
  /\ is_zero b.(report_inputs).(policy_resolution_self_hash) = false
  /\ is_zero b.(report_inputs).(artifact_validation_self_hash) = false
  /\ is_some_zero b.(report_inputs).(static_budget_self_hash) = false
  /\ is_some_zero b.(report_inputs).(schedule_cost_self_hash) = false
  /\ any_pair (fun x y => stage_index y.(sc_stage) <=? stage_index x.(sc_stage))
       b.(body_stage_iteration_counts) = false
  /\ repeated_id ∅ b.(body_proposals) = false
  /\ any_pair later_record b.(body_proposals) = false
  /\ b.(authorized_relaxation_applied) = existsb accepted_authorized_relaxation b.(body_proposals).
Proof.
  unfold validate_semantics.
  set (l := _ ++ _). assert (Hl : match l with [] => Ok () | _ => Err l end = Ok () <-> l = [])
    by (by destruct l; split).
  rewrite Hl. unfold l. rewrite !check_nil.
  rewrite <- (app_nil_r (if negb (Bool.eqb (authorized_relaxation_applied b) _) then _ else _)).
  rewrite check_nil, !negb_false_iff, !eqb_true_iff. tauto.
Qed.

(** ** Two concrete pipelines *)

(** Knobs with every bound at its loosest and the default ceilings. *)
Definition demo_knobs (locked : gset CompileKnobId) : CompileKnobs := {|
  global := {|
    placement := {| pk_profile := StrictOnePerBank |};
    observation := {| ok_observability := Flexible; ok_trace_demotion := TD_None;
                      ok_probe_level := PCL_Operational |};
    range := {| rk_reduction_ceiling := ExactOnly |};
    storage := {| stk_materialization := PreserveAll |};
    sram := {| srk_page_aggression := SPA_Preserve; srk_spill_policy := NoSpill |};
    rom_window := {| rwk_kernel_residency_bias := PreferCommonBank;
                     rwk_kernel_duplication_bias := Share |};
    overlay := {| olk_promotion := OP_Disabled |};
    schedule := {| sk_tile_search := TS_Fixed; sk_slice_coarsening := SC_Fine;
                   sk_resource_pressure := RP_Conservative;
                   sk_pressure_thresholds := ResourcePressureThresholds_default;
                   sk_stage_iteration_ceilings := StageIterationLimits_default |} |};
  bounds := {|
    b_placement := {| max_profile := PackedExperts |};
    b_observation := {| max_trace_demotion := TD_RequiredOnly; max_probe_level := PCL_Verbose |};
    b_range := {| max_reduction_ceiling := Adaptive |};
    b_storage := {| max_materialization := SpillColdValues |};
    b_sram := {| max_page_aggression := SPA_MinimizeResident; max_spill_policy := SpillEager |};
    b_rom_window := {| max_kernel_residency_bias := PreferWramOverlay;
                       max_kernel_duplication_bias := DuplicateAllFit |};
    b_overlay := {| max_promotion := OP_EligibleKernels |};
    b_schedule := {| max_tile_search := TS_ProfileGuided; max_slice_coarsening := SC_Coarse;
                     max_resource_pressure := RP_FitFirst;
                     max_pressure_thresholds := default_max_resource_pressure_thresholds;
                     max_stage_iteration_ceilings := StageIterationLimits_uniform 255 |} |};
  locks := locked;
  overrides := CompileKnobOverrides_default;
  provenance := [] |}.

Definition demo_state (locked : gset CompileKnobId) : LoopState :=
  from_profile (demo_knobs locked) RPP_Default Flexible
    {| pure_values := ∅; effectful_values := ∅ |}.

Definition advance_proposal (to : PlacementProfile) : RepairProposal := {|
  rp_id := "rp-placement";
  rp_source_stage := StoragePlan;
  rp_reason := BankNotFitting;
  rp_delta := {| changes := [AdvancePlacementProfile to] |};
  rp_estimated_cost := {| ec_cycles := None; ec_bytes := None |} |}.

(** Storage planning asks for packed experts until it has them. *)
#[local] Instance packing_pipeline : CompilerPipeline unit := {|
  run_stage stage s :=
    match stage, s.(knobs).(global).(placement).(pk_profile) with
    | StoragePlan, StrictOnePerBank => mret (ProposedRepair (advance_proposal Budgeted))
    | StoragePlan, Budgeted => mret (ProposedRepair (advance_proposal PackedExperts))
    | _, _ => mret Succeeded
    end;
  handle_rejected_repair := no_alternatives |}.

(** A pipeline that makes the same proposal again after a rejection. *)
Definition insistent_pipeline (proposal : RepairProposal) : CompilerPipeline unit := {|
  run_stage _ _ := mret (ProposedRepair proposal);
  handle_rejected_repair _ _ _ := mret (Some proposal) |}.

#[local] Instance plain_json : SerdeJson := fun _ => "".

Definition demo_run (locked : gset CompileKnobId) : outcome RefinementLoopError RefinementLoopResult :=
  (run_refinement_loop 1 (demo_state locked) tt).1.

Example packing_converges :
  match demo_run ∅ with Ok r => r.(res_terminal) = Converged | _ => False end.
Proof. vm_compute. reflexivity. Qed.

Example packing_locked :
  match demo_run {[K_Placement]} with
  | Ok r => r.(res_terminal) = StagedFailureUnrepairable StoragePlan
              (LE_ProposalRejected (DR_KnobLocked K_PlacementProfile))
  | _ => False end.
Proof. vm_compute. reflexivity. Qed.

(** ** Theorems *)

Lemma run_inv `{SerdeJson} {P} `{CompilerPipeline P} fuel s p r p' :
  fresh_state s -> run_refinement_loop fuel s p = (Ok r, p') ->
  exists n, rtc step (s, 0) (r.(res_state), n) /\ loop_inv s (r.(res_state), n).
Proof.
  intros Hs [n Hr]%run_steps. exists n. split; [done|]. by eapply loop_inv_reach.
Qed.

(** C21: whatever the planning stages do, the history that the loop returns
    replays: starting from the initial knobs, every record is either a justified
    rejection that changes nothing or a proposal all of whose changes the policy
    admitted for the knobs at that point, applied to give the next knobs; the
    last knobs are the final ones, and the accepted proposals are numbered from
    1 and are as many as the budget they used. *)
Theorem refinement_audited `{SerdeJson} {P} `{CompilerPipeline P} fuel s p r p' :
  fresh_state s -> run_refinement_loop fuel s p = (Ok r, p') ->
  exists n, audited s r.(res_state).(history).(proposals) r.(res_state).(knobs) n
    /\ r.(res_state).(accepted_iters_remaining) = s.(accepted_iters_remaining) - n
    /\ 0 <= n <= s.(accepted_iters_remaining).
Proof.
  intros Hs (n & _ & Hi)%run_inv; [|done]. exists n.
  destruct (inv_accepted _ _ Hi) as (?&?&?). simpl in *.
  split; [apply (inv_audit _ _ Hi)|lia].
Qed.

(** C11: a run keeps the repair policy: bounds, locks and stage ceilings are those
    it started with, every knob group is a monotone successor of the initial
    one, knobs within their bounds stay within them, locked knobs and, under
    invariant observability, the trace knobs are untouched, no override is
    dropped, and no value is forced to be recomputed that is not pure. *)
Theorem refinement_respects_policy `{SerdeJson} {P} `{CompilerPipeline P} fuel s p r p' :
  fresh_state s -> run_refinement_loop fuel s p = (Ok r, p') ->
  policy_kept s.(observability) s.(recompute_purity) s.(knobs) r.(res_state).(knobs).
Proof.
  intros Hs (n & _ & Hi)%run_inv; [|done]. eapply audited_policy_kept, (inv_audit _ _ Hi).
Qed.

(** C22: the budgets count exactly: each stage ran as often as its ceiling fell,
    all runs together as often as the global budget fell, and no counter passed
    its initial value. *)
Theorem refinement_accounts `{SerdeJson} {P} `{CompilerPipeline P} fuel s p r p' :
  fresh_state s -> run_refinement_loop fuel s p = (Ok r, p') ->
  (forall stage, 0 <= runs_of r.(res_state) stage
     /\ runs_of r.(res_state) stage
        = remaining s.(stage_iters_remaining) stage
          - remaining r.(res_state).(stage_iters_remaining) stage)
  /\ total_runs r.(res_state)
     = s.(global_iters_remaining) - r.(res_state).(global_iters_remaining)
  /\ 0 <= r.(res_state).(global_iters_remaining) <= s.(global_iters_remaining).
Proof.
  intros Hs (n & _ & Hi)%run_inv; [|done].
  destruct (inv_global _ _ Hi) as [Hg Hg0]. simpl in *.
  assert (Ht : 0 <= total_runs (res_state r)).
  { unfold total_runs. simpl. pose proof (fun st => proj1 (proj2 (inv_runs _ _ Hi st))) as Hr.
    simpl in Hr.
    pose proof (Hr RangePlan). pose proof (Hr StoragePlan). pose proof (Hr SramPagePlan).
    pose proof (Hr RomWindowPlan). pose proof (Hr OverlayPlan). pose proof (Hr ArenaPlan).
    pose proof (Hr GbSchedIr). pose proof (Hr ResourceStateValidation). lia. }
  split; [|lia]. intros stage. destruct (inv_runs _ _ Hi stage) as (?&?&?). simpl in *. lia.
Qed.

(** what the terminal states mean: [Converged] that the last pass ran all
    eight stages in order with budget for each and each succeeded; the budget
    states that the counter they name is 0, for accepted proposals with the
    admitted proposal recorded as rejected for that reason; an unrepairable
    failure after a rejection that the last record is this rejection of a
    proposal of the failing stage. *)
Theorem terminal_explained `{SerdeJson} {P} `{CompilerPipeline P} fuel s p r p' :
  run_refinement_loop fuel s p = (Ok r, p') -> run_explained (s, 0) r p'.
Proof. apply restart_loop_steps. Qed.

(** C14: if the pipeline answers every call and never offers more than [n]
    alternatives in a row, the loop returns. *)
Theorem refinement_terminates `{SerdeJson} {P} `{CompilerPipeline P} patience n fuel s p :
  patient_pipeline patience n -> (n < fuel)%nat -> 0 <= s.(global_iters_remaining) ->
  answers (run_refinement_loop fuel s p).1.
Proof.
  intros Hp Hf Hg. unfold run_refinement_loop. eapply restart_loop_answers; [done|done|lia].
Qed.

(** without that promise it need not: while a proposal is rejected, a pipeline
    that makes it again keeps the loop going, since neither budget counts
    rejections. *)
Theorem refinement_may_diverge `{SerdeJson} fuel s proposal :
  s.(global_iters_remaining) <> 0 -> remaining s.(stage_iters_remaining) RangePlan <> 0 ->
  rp_source_stage proposal = RangePlan -> first_rejection (rp_delta proposal) s <> None ->
  run_refinement_loop (H0 := insistent_pipeline proposal) fuel s tt = (NoFuel, tt).
Proof.
  intros Hg Hr Hst Hrej. set (pipe := insistent_pipeline proposal).
  assert (Hloop : forall s' acc, first_rejection (rp_delta proposal) s' <> None ->
            repair_loop fuel RangePlan proposal s' acc tt = (NoFuel, tt)).
  { clear s Hg Hr Hrej. induction fuel as [|fuel IH]; intros s acc Hrej; [done|].
    simpl. rewrite bool_decide_eq_true_2 by done. simpl.
    destruct (first_rejection _ s) as [r|] eqn:He; [|done].
    unfold mbind, piped_bind. simpl. apply IH. unfold first_rejection in *. simpl. by rewrite He. }
  unfold run_refinement_loop. cbn [restart_loop]. unfold mbind, piped_bind.
  unfold WRAPPED_PLANNING_STAGES. cbn [run_stages].
  apply Z.eqb_neq in Hg as ->, Hr as ->. unfold mbind, piped_bind. simpl. by rewrite Hloop.
Qed.

(** C23: liveness.  If, in the states the loop reaches, every stage either succeeds or makes a proposal that the
    policy admits and that lowers a measure of what the knobs still need, and
    the budgets cover the initial need, the loop converges. *)
Theorem refinement_converges `{SerdeJson} {P} `{CompilerPipeline P} need fuel s p :
  cooperative s need -> funded s (need s.(knobs)) WRAPPED_PLANNING_STAGES ->
  exists r p', run_refinement_loop (S fuel) s p = (Ok r, p') /\ r.(res_terminal) = Converged.
Proof.
  intros Hco Hf. unfold run_refinement_loop. apply (restart_loop_cooperative s need); [done|apply rtc_refl|done|].
  destruct Hf as [_ Hg _]. unfold zlen in Hg. simpl in Hg. unfold need_of. lia.
Qed.

(** a run that converges accepted fewer proposals than the ceiling of the
    first stage, which every restart runs again: of [max_refinement_iters] = 4
    and 6 in the default and the recovery policy, no more than 3 can be used
    under the default ceiling of 4. *)
Theorem converged_repairs_bounded `{SerdeJson} {P} `{CompilerPipeline P} fuel s p r p' :
  fresh_state s -> run_refinement_loop fuel s p = (Ok r, p') -> r.(res_terminal) = Converged ->
  s.(accepted_iters_remaining) - r.(res_state).(accepted_iters_remaining)
    < remaining s.(stage_iters_remaining) RangePlan.
Proof.
  intros Hs Hrun Hc. pose proof Hrun as (n & _ & Hi)%run_inv; [|done].
  apply (converged_spends s) in Hrun; [|done|by apply refinement_inv_init|done].
  destruct (loop_inv_pos _ _ Hi) as [_ Hpos]. specialize (Hpos RangePlan). simpl in *. lia.
Qed.

(** the report that the loop writes validates exactly when its input hashes
    are set, the pipeline gave every proposal its own id, and the ids of the
    proposals of one iteration ascend; the loop guarantees the rest, provided
    the initial knobs carry no authorized relaxation. *)
Theorem report_validates_iff `{SerdeJson} `{SnapshotHash} {P} `{CompilerPipeline P}
    fuel s p r p' inputs :
  fresh_state s -> has_authorized_relaxation s.(knobs) = false ->
  run_refinement_loop fuel s p = (Ok r, p') ->
  validate_semantics (repair_report_body s r inputs) (repair_report_outcome r.(res_terminal)) = Ok ()
  <-> inputs.(policy_resolution_self_hash) <> 0 /\ inputs.(artifact_validation_self_hash) <> 0
      /\ inputs.(static_budget_self_hash) <> Some 0 /\ inputs.(schedule_cost_self_hash) <> Some 0
      /\ NoDup (map rr_id r.(res_state).(history).(proposals))
      /\ any_pair same_iteration_disorder r.(res_state).(history).(proposals) = false.
Proof.
  intros Hs Hax (n & _ & Hi)%run_inv; [|done]. pose proof (inv_audit _ _ Hi) as Hau. simpl in Hau.
  rewrite validate_Ok. simpl. rewrite stage_counts_ascend, (audited_disorder _ _ _ _ Hau), repeated_id_spec.
  destruct (audited_relaxation _ _ _ _ Hau) as [-> ->].
  assert (Ho : bool_decide (repair_report_outcome (res_terminal r) = Report_Passed)
               = is_converged (res_terminal r)) by by destruct (res_terminal r).
  assert (Hz : forall h, is_some_zero h = false <-> h <> Some 0).
  { intros [h|]; simpl; [rewrite Z.eqb_neq; naive_solver|by split]. }
  unfold is_zero. rewrite Ho, !Hz, !Z.eqb_neq, Hax. set_solver.
Qed.

(** ** Witnesses *)

Lemma demo_fresh locked : fresh_state (demo_state locked).
Proof. split; try done. by intros []. Qed.

Definition demo_result : RefinementLoopResult :=
  match demo_run ∅ with Ok r => r | _ => terminal (demo_state ∅) Converged end.

Lemma demo_run_eq : run_refinement_loop 1 (demo_state ∅) tt = (Ok demo_result, tt).
Proof.
  assert (Hok : match demo_run ∅ with Ok _ => true | _ => false end = true) by (vm_compute; reflexivity).
  revert Hok. unfold demo_result, demo_run.
  destruct (run_refinement_loop 1 (demo_state ∅) tt) as [[r| | |] []]; done.
Qed.

Lemma refinement_audited_witness :
  length demo_result.(res_state).(history).(proposals) = 2%nat
  /\ exists n, audited (demo_state ∅) demo_result.(res_state).(history).(proposals)
       demo_result.(res_state).(knobs) n
     /\ demo_result.(res_state).(accepted_iters_remaining) = 4 - n /\ 0 <= n <= 4.
Proof.
  split; [vm_compute; reflexivity|].
  exact (refinement_audited 1 _ tt _ tt (demo_fresh ∅) demo_run_eq).
Defined.

Lemma refinement_respects_policy_witness :
  policy_kept Flexible {| pure_values := ∅; effectful_values := ∅ |} (demo_knobs ∅)
    demo_result.(res_state).(knobs).
Proof. exact (refinement_respects_policy 1 _ tt _ tt (demo_fresh ∅) demo_run_eq). Defined.

Lemma refinement_accounts_witness :
  runs_of demo_result.(res_state) RangePlan = 3
  /\ total_runs demo_result.(res_state)
     = (demo_state ∅).(global_iters_remaining) - demo_result.(res_state).(global_iters_remaining).
Proof.
  split; [vm_compute; reflexivity|].
  exact (proj1 (proj2 (refinement_accounts 1 _ tt _ tt (demo_fresh ∅) demo_run_eq))).
Defined.

Lemma terminal_explained_witness : run_explained (demo_state ∅, 0) demo_result tt.
Proof. exact (terminal_explained 1 _ tt _ tt demo_run_eq). Defined.

Lemma packing_patient : patient_pipeline (P := unit) (fun _ => O) O.
Proof.
  split; try done. intros [] s []; simpl; by destruct (pk_profile (placement (global (knobs s)))).
Qed.

Lemma refinement_terminates_witness :
  answers (run_refinement_loop 1 (demo_state {[K_Placement]}) tt).1.
Proof.
  apply (refinement_terminates (fun _ => O) O 1 (demo_state {[K_Placement]}) tt packing_patient);
    [lia|vm_compute; discriminate].
Defined.

(** A proposal whose knob is locked, made again and again. *)
Lemma refinement_may_diverge_witness :
  run_refinement_loop (H0 := insistent_pipeline
    {| rp_id := "rp"; rp_source_stage := RangePlan; rp_reason := AccumulatorOverflow;
       rp_delta := {| changes := [AdvancePlacementProfile Budgeted] |};
       rp_estimated_cost := {| ec_cycles := None; ec_bytes := None |} |})
    1000 (demo_state {[K_Placement]}) tt = (NoFuel, tt).
Proof.
  apply refinement_may_diverge; [discriminate|discriminate|reflexivity|vm_compute; discriminate].
Defined.

Definition packing_need (k : CompileKnobs) : nat :=
  Z.to_nat (2 - rank k.(global).(placement).(pk_profile)).

Lemma packing_cooperative : cooperative (demo_state ∅) packing_need.
Proof.
  intros stage s acc p Hr. pose proof (loop_inv_reach _ (demo_fresh ∅) _ Hr) as Hi.
  destruct (inv_policy _ _ Hi) as (Hpol & Hobs & Hpur). simpl in Hpol, Hobs, Hpur.
  destruct (kept_bounds _ _ _ _ (audited_policy_kept _ _ _ _ (inv_audit _ _ Hi))) as [Hb Hl].
  simpl in Hb, Hl.
  destruct stage; simpl; try (by constructor; eexists).
  destruct (pk_profile (placement (global (knobs s)))) eqn:Hp; [constructor 2..|by constructor; eexists];
    eexists _, _; (split; [reflexivity|]); unfold first_rejection, packing_need; simpl;
    unfold check_delta_admissible_with_recompute_purity, check_delta_bounds, check_delta_monotone,
      check_strict_advance, is_strict_advance;
    rewrite Hl, Hpol, Hb, Hobs, Hp; simpl; (split; [done|]); (split; [vm_compute; reflexivity|]); lia.
Qed.

Lemma refinement_converges_witness :
  exists r p', run_refinement_loop 1 (demo_state ∅) tt = (Ok r, p') /\ r.(res_terminal) = Converged.
Proof.
  apply (refinement_converges packing_need 0 (demo_state ∅) tt packing_cooperative).
  split; [vm_compute; discriminate|vm_compute; discriminate|].
  intros []; vm_compute; discriminate.
Defined.

Lemma converged_repairs_bounded_witness :
  demo_result.(res_terminal) = Converged
  /\ 4 - demo_result.(res_state).(accepted_iters_remaining) < 4.
Proof.
  split; [vm_compute; reflexivity|].
  exact (converged_repairs_bounded 1 _ tt _ tt (demo_fresh ∅) demo_run_eq eq_refl).
Defined.

#[local] Instance zero_hash : SnapshotHash := fun _ _ _ _ => 0.

(** The packing pipeline gives both its proposals the same id: its report does
    not validate. *)
Lemma report_validates_iff_witness :
  validate_semantics
    (repair_report_body (demo_state ∅) demo_result
       {| policy_resolution_self_hash := 1; artifact_validation_self_hash := 2;
          static_budget_self_hash := None; schedule_cost_self_hash := None |})
    (repair_report_outcome demo_result.(res_terminal)) <> Ok ().
Proof.
  intros Hv.
  apply (report_validates_iff 1 (demo_state ∅) tt demo_result tt
           {| policy_resolution_self_hash := 1; artifact_validation_self_hash := 2;
              static_budget_self_hash := None; schedule_cost_self_hash := None |}
           (demo_fresh ∅) eq_refl demo_run_eq) in Hv as (_ & _ & _ & _ & Hnd & _).
  vm_compute in Hnd. apply NoDup_cons in Hnd as [Hn _]. apply Hn. by constructor.
Defined.
