(* ===== verification/KnobResolve.v ===== *)
(** * Initial knobs and pressure thresholds

    [gbf-policy/src/compile.rs]: the knobs that a compile profile starts with,
    its lock set and repair policy, and the resource-pressure thresholds that
    the runtime budget, the objective and the trace budget give.  The budget
    itself is that of [gbf-policy/src/budget.rs] and [wram.rs].

    The compile profile and the objective have the fields that resolution
    reads.  An unchecked sum panics on overflow. *)

From S2P Require Import Prelude Numeric KnobLattice KnobDelta Refinement.

(** ** The runtime budget *)

Definition DMG_WRAM_SIZE_BYTES : Z := 0x2000.

Record WramReserved := { wr_overlay : Z; wr_hot_arena_floor : Z; wr_total : Z }.
#[export] Instance WramReserved_eq_dec : EqDecision WramReserved.
Proof. solve_decision. Defined.

Inductive WramPolicyError :=
| LayoutExceedsWram (required_bytes wram_bytes : Z)
| ReservedTotalExceedsWram (total wram_bytes : Z)
| ReservedOverlayExceedsTotal (overlay total : Z)
| HotArenaFloorExceedsWram (hot_arena_floor wram_bytes : Z).

Definition WramReserved_new `{BuildProfile} (overlay hot_arena_floor total : Z)
    : outcome WramPolicyError WramReserved :=
  if DMG_WRAM_SIZE_BYTES <? total then Err (ReservedTotalExceedsWram total DMG_WRAM_SIZE_BYTES)
  else if total <? overlay then Err (ReservedOverlayExceedsTotal overlay total)
  else if DMG_WRAM_SIZE_BYTES <? hot_arena_floor
  then Err (HotArenaFloorExceedsWram hot_arena_floor DMG_WRAM_SIZE_BYTES)
  else
    let* _ := debug_assert (total <=? DMG_WRAM_SIZE_BYTES) in
    Ok {| wr_overlay := overlay; wr_hot_arena_floor := hot_arena_floor; wr_total := total |}.

Definition runtime_internal_bytes (w : WramReserved) : Z := saturating_sub w.(wr_total) w.(wr_overlay).

Inductive RuntimeShellModule :=
| Boot | Interrupts | Scheduler | ShellBanking | Joypad | Text | Keyboard | VideoCommit | ShellPanic
| FuturePersistence | FutureTrace | FutureHarness.
#[export] Instance RuntimeShellModule_eq_dec : EqDecision RuntimeShellModule.
Proof. solve_decision. Defined.
#[export] Program Instance RuntimeShellModule_finite : Finite RuntimeShellModule := {|
  enum := [Boot; Interrupts; Scheduler; ShellBanking; Joypad; Text; Keyboard; VideoCommit; ShellPanic;
           FuturePersistence; FutureTrace; FutureHarness] |}.
Next Obligation. repeat constructor; set_solver. Qed.
Next Obligation. intros []; set_solver. Qed.

#[export] Program Instance PlacementProfile_finite : Finite PlacementProfile := {|
  enum := [StrictOnePerBank; Budgeted; PackedExperts] |}.
Next Obligation. repeat constructor; set_solver. Qed.
Next Obligation. intros []; set_solver. Qed.

Inductive BudgetSlotClass := Bank0Free | CommonBank | ExpertBank.
#[export] Instance BudgetSlotClass_eq_dec : EqDecision BudgetSlotClass.
Proof. solve_decision. Defined.

Record RomBudgetSlot := {
  slot_id : Z;
  slot_class : BudgetSlotClass;
  usable_bytes : Z;
  reserved_slack : Z;
  placement_caps : gset PlacementProfile;
}.

Record RuntimeMemoryCapSection := {
  wram_usable_bytes : Z;
  sram_usable_bytes : Z;
  hram_usable_bytes : Z;
  source_target_profile_hash : Z;
}.

Inductive RuntimeNucleusHash := Real (hash : Z) | SyntheticReference (hash : Z).

Definition nucleus_hash (h : RuntimeNucleusHash) : Z :=
  match h with Real hash | SyntheticReference hash => hash end.

Record RuntimeChromeBudget := {
  rcb_target : string;
  rcb_profile : string;
  runtime_nucleus_hash : RuntimeNucleusHash;
  reference_shell_modules : gset RuntimeShellModule;
  rom_slots : list RomBudgetSlot;
  memory_caps : RuntimeMemoryCapSection;
  wram_reserved : WramReserved;
  sram_reserved : Z;
}.

Inductive RuntimeChromeBudgetValidationError :=
| NoRomSlots
| NoReferenceShellModules
| DuplicateSlotId (id : Z)
| ZeroUsableBytes (id : Z)
| ReservedSlackOutOfRange (id reserved_slack usable_bytes : Z)
| EmptyPlacementCaps (id : Z)
| WramReservedOutOfRange (wram_reserved : WramReserved) (wram_usable_bytes : Z)
| WramHotArenaFloorOutOfRange (hot_arena_floor wram_usable_bytes : Z)
| SramReservedOutOfRange (sram_reserved sram_usable_bytes : Z).

Definition RomBudgetSlot_validate (s : RomBudgetSlot)
    : outcome RuntimeChromeBudgetValidationError unit :=
  if s.(usable_bytes) =? 0 then Err (ZeroUsableBytes s.(slot_id))
  else if s.(usable_bytes) <=? s.(reserved_slack)
  then Err (ReservedSlackOutOfRange s.(slot_id) s.(reserved_slack) s.(usable_bytes))
  else if bool_decide (s.(placement_caps) = ∅) then Err (EmptyPlacementCaps s.(slot_id))
  else Ok ().

Definition validate_slot (seen : gset Z) (s : RomBudgetSlot)
    : outcome RuntimeChromeBudgetValidationError (gset Z) :=
  let* _ := RomBudgetSlot_validate s in
  if bool_decide (s.(slot_id) ∈ seen) then Err (DuplicateSlotId s.(slot_id))
  else Ok ({[s.(slot_id)]} ∪ seen).

Definition RuntimeChromeBudget_validate (b : RuntimeChromeBudget)
    : outcome RuntimeChromeBudgetValidationError unit :=
  let* _ := guard_err (bool_decide (b.(rom_slots) = [])) NoRomSlots in
  let* _ := ofold validate_slot ∅ b.(rom_slots) in
  let* _ := guard_err (bool_decide (b.(reference_shell_modules) = ∅)) NoReferenceShellModules in
  let* _ := guard_err (b.(memory_caps).(wram_usable_bytes) <? b.(wram_reserved).(wr_total))
              (WramReservedOutOfRange b.(wram_reserved) b.(memory_caps).(wram_usable_bytes)) in
  let* _ := guard_err (b.(memory_caps).(wram_usable_bytes) <? b.(wram_reserved).(wr_hot_arena_floor))
              (WramHotArenaFloorOutOfRange b.(wram_reserved).(wr_hot_arena_floor)
                 b.(memory_caps).(wram_usable_bytes)) in
  guard_err (b.(memory_caps).(sram_usable_bytes) <? b.(sram_reserved))
    (SramReservedOutOfRange b.(sram_reserved) b.(memory_caps).(sram_usable_bytes)).

(** ** The profile, the objective and the trace budget *)

Record TraceBudget := { max_events_per_slice : Z; max_bytes_per_frame : Z }.

Record ServiceLevelObjective := {
  max_first_token_cycles_p95 : option Z;
  max_checkpoint_gap_cycles_p95 : option Z;
  max_resume_latency_cycles_p95 : option Z;
  max_ui_jitter_frames_p99 : option Z;
}.

Record CompileObjective := {
  service : option ServiceLevelObjective;
  max_cycles_per_token : option Z;
  max_bank_switches_per_token : option Z;
  max_sram_page_switches_per_token : option Z;
}.

Record CompileProfileSpec := {
  spec_id : string;
  defaults_hash : Z;
  range_caps : RangeCapsSpec;
  spec_repair_policy : RepairPolicy;
  knob_defaults : CompileKnobPartialValues;
  knob_bounds : CompileKnobPartialBounds;
  spec_locks : gset CompileKnobId;
}.

(** [CompileProfileSpecLoadError::InvalidInvariant]; the others come from TOML. *)
Inductive CompileProfileSpecLoadError := InvalidInvariant (invariant field value : string).

Definition validate_compile_profile_spec_v2 (spec : CompileProfileSpec)
    : outcome CompileProfileSpecLoadError unit :=
  let c := spec.(range_caps) in
  if c.(profile_chunk_max) =? 0
  then Err (InvalidInvariant "profile_chunk_max > 0" "range_caps.profile_chunk_max"
              (pretty c.(profile_chunk_max)))
  else if c.(profile_tile_max) =? 0
  then Err (InvalidInvariant "profile_tile_max > 0" "range_caps.profile_tile_max"
              (pretty c.(profile_tile_max)))
  else if c.(profile_tile_min) =? 0
  then Err (InvalidInvariant "profile_tile_min > 0" "range_caps.profile_tile_min"
              (pretty c.(profile_tile_min)))
  else if c.(profile_tile_max) <? c.(profile_tile_min)
  then Err (InvalidInvariant "profile_tile_min <= profile_tile_max" "range_caps.profile_tile_min"
              (pretty c.(profile_tile_min)))
  else match c.(renorm_strategy) with
       | Policy_DynamicMargin margin =>
           if 0x10000 <=? margin
           then Err (InvalidInvariant "DynamicMargin.margin_q16_16 < 0x1_0000"
                       "range_caps.renorm_strategy.margin_q16_16" (pretty margin))
           else Ok ()
       | Policy_ExactPostBoundaryOnly => Ok ()
       end.

Inductive InitialKnobsResolveError :=
| UnknownProfile (profile : string)
| MissingDefault (profile field : string)
| MissingBound (profile field : string).

Definition repair_policy_profile (profile : string)
    : outcome InitialKnobsResolveError RepairPolicyProfile :=
  if String.eqb profile "Bringup" then Ok RPP_Bringup
  else if String.eqb profile "Default" then Ok RPP_Default
  else if String.eqb profile "Trace" then Ok RPP_TraceInvariant
  else if String.eqb profile "Recovery" then Ok RPP_Recovery
  else Err (UnknownProfile profile).

Definition resolve_repair_policy_from_profile_spec (profile : CompileProfileSpec)
    : outcome InitialKnobsResolveError RepairPolicy :=
  let* p := repair_policy_profile profile.(spec_id) in
  Ok (for_profile p).

Definition require_default {T} (profile : CompileProfileSpec) (value : option T) (field : string)
    : outcome InitialKnobsResolveError T := ok_or value (MissingDefault profile.(spec_id) field).
Definition require_bound {T} (profile : CompileProfileSpec) (value : option T) (field : string)
    : outcome InitialKnobsResolveError T := ok_or value (MissingBound profile.(spec_id) field).

Definition f_b16_refinement_knob_ids : list CompileKnobId :=
  [K_PlacementProfile; K_ObservationTraceDemotion; K_ObservationProbeSelection;
   K_RangeReductionCeiling; K_StorageRecomputePromotion; K_StorageMaterializationOverrides;
   K_SramPageAggression; K_SramSpillPolicy; K_RomKernelResidencyBias; K_RomKernelDuplicationBias;
   K_RomKernelResidencyOverrides; K_OverlayPromotion; K_ScheduleTileSearch;
   K_ScheduleSliceCoarsening; K_ScheduleResourcePressure; K_StageIterationCeilings].

Definition f_b16_profile_lock_set (profile : RepairPolicyProfile) : gset CompileKnobId :=
  match profile with
  | RPP_Bringup | RPP_BringupFirstFit => list_to_set
      [K_PlacementProfile; K_ObservationTraceDemotion; K_ObservationProbeSelection;
       K_RangeReductionCeiling; K_StorageRecomputePromotion; K_StorageMaterializationOverrides;
       K_SramPageAggression; K_SramSpillPolicy; K_RomKernelResidencyBias;
       K_RomKernelDuplicationBias; K_RomKernelResidencyOverrides; K_OverlayPromotion;
       K_ScheduleResourcePressure; K_StageIterationCeilings]
  | RPP_Default | RPP_Recovery => list_to_set [K_ScheduleResourcePressure; K_StageIterationCeilings]
  | RPP_TraceInvariant => list_to_set f_b16_refinement_knob_ids
  end.

Definition profile_default_field (knob : CompileKnobId) : string :=
  match knob with
  | K_Placement => "profile_default.placement"
  | K_Observation => "profile_default.observation"
  | K_Range => "profile_default.range"
  | K_Storage => "profile_default.storage"
  | K_Sram => "profile_default.sram"
  | K_RomWindow => "profile_default.rom_window"
  | K_Overlay => "profile_default.overlay"
  | K_Schedule => "profile_default.schedule"
  | _ => "profile_default"
  end.

Definition profile_default_provenance (profile : CompileProfileSpec) : list CompileKnobProvenanceEntry :=
  map (fun knob => {|
      pe_path := {| kp_knob := knob; kp_selector := None; kp_field := Some (profile_default_field knob) |};
      pe_chain := [{| cp_source := ProfileDefault; cp_operation := SeedDefault;
                      cp_evidence := [{| ev_kind := "CompileProfileSpec";
                                         ev_reference := profile.(spec_id);
                                         ev_hash := Some profile.(defaults_hash) |}] |}] |})
    [K_Placement; K_Observation; K_Range; K_Storage; K_Sram; K_RomWindow; K_Overlay; K_Schedule].

Definition resolve_initial_knobs_from_profile_spec (profile : CompileProfileSpec)
    : outcome InitialKnobsResolveError CompileKnobs :=
  let* profile_kind := repair_policy_profile profile.(spec_id) in
  let d := profile.(knob_defaults) in
  let* d1 := require_default profile d.(pv_placement) "placement" in
  let* d2 := require_default profile d.(pv_observation) "observation" in
  let* d3 := require_default profile d.(pv_range) "range" in
  let* d4 := require_default profile d.(pv_storage) "storage" in
  let* d5 := require_default profile d.(pv_sram) "sram" in
  let* d6 := require_default profile d.(pv_rom_window) "rom_window" in
  let* d7 := require_default profile d.(pv_overlay) "overlay" in
  let* d8 := require_default profile d.(pv_schedule) "schedule" in
  let b := profile.(knob_bounds) in
  let* b1 := require_bound profile b.(pb_placement) "placement" in
  let* b2 := require_bound profile b.(pb_observation) "observation" in
  let* b3 := require_bound profile b.(pb_range) "range" in
  let* b4 := require_bound profile b.(pb_storage) "storage" in
  let* b5 := require_bound profile b.(pb_sram) "sram" in
  let* b6 := require_bound profile b.(pb_rom_window) "rom_window" in
  let* b7 := require_bound profile b.(pb_overlay) "overlay" in
  let* b8 := require_bound profile b.(pb_schedule) "schedule" in
  Ok {|
    global := {| placement := d1; observation := d2; range := d3; storage := d4; sram := d5;
                 rom_window := d6; overlay := d7; schedule := d8 |};
    bounds := {| b_placement := b1; b_observation := b2; b_range := b3; b_storage := b4;
                 b_sram := b5; b_rom_window := b6; b_overlay := b7; b_schedule := b8 |};
    locks := f_b16_profile_lock_set profile_kind;
    overrides := CompileKnobOverrides_default;
    provenance := profile_default_provenance profile |}.

(** ** Pressure thresholds *)

Inductive ProfilePressureField :=
| PF_WramHot | PF_HramHot | PF_Bank0Rom | PF_SwitchableRomWindow | PF_SramWindow | PF_SliceCycles
| PF_InterruptLatency | PF_PersistBytesPerFrame | PF_OverlayInstallsPerFrame
| PF_BankSwitchesPerToken | PF_SramPageSwitchesPerToken.

Definition wram_hot_hard_bytes (b : RuntimeChromeBudget) : Z :=
  saturating_sub b.(memory_caps).(wram_usable_bytes) b.(wram_reserved).(wr_total).

Definition sram_window_hard_bytes (b : RuntimeChromeBudget) : Z :=
  saturating_sub b.(memory_caps).(sram_usable_bytes) b.(sram_reserved).

Definition slot_hard_bytes (s : RomBudgetSlot) : Z :=
  saturating_sub s.(usable_bytes) s.(reserved_slack).

Definition sum_u64 {E} (l : list Z) : outcome E Z := ofold (fun acc x => uadd U64 acc x) 0 l.

Definition is_bank0_free (s : RomBudgetSlot) : bool := bool_decide (s.(slot_class) = Bank0Free).

Definition bank0_rom_hard_bytes {E} (b : RuntimeChromeBudget) : outcome E Z :=
  sum_u64 (map slot_hard_bytes (List.filter is_bank0_free b.(rom_slots))).

Definition switchable_rom_window_hard_bytes {E} (b : RuntimeChromeBudget) : outcome E Z :=
  sum_u64 (map slot_hard_bytes (List.filter (fun s => negb (is_bank0_free s)) b.(rom_slots))).

Definition soften_u64 (hard_ : Z) (pressure : ScheduleResourcePressure) : Z :=
  let numerator := match pressure with RP_Conservative => 4 | RP_Balanced => 9 | RP_FitFirst => 19 end in
  let denominator :=
    match pressure with RP_Conservative => 5 | RP_Balanced => 10 | RP_FitFirst => 20 end in
  saturating_mul U64 hard_ numerator / denominator.

(** [try_into().unwrap_or(MAX)]. *)
Definition clamp_unsigned (m x : Z) : Z := if x <? m then x else m - 1.

Definition soften_u16 (hard_ : Z) (pressure : ScheduleResourcePressure) : Z :=
  clamp_unsigned U16 (soften_u64 hard_ pressure).
Definition soften_u8 (hard_ : Z) (pressure : ScheduleResourcePressure) : Z :=
  clamp_unsigned U8 (soften_u64 hard_ pressure).
Definition saturating_u16 (value : Z) : Z := clamp_unsigned U16 value.

Definition byte_limit (hard_ : Z) (pressure : ScheduleResourcePressure) : PressureLimit :=
  {| soft := soften_u64 hard_ pressure; hard := hard_ |}.
Definition cycle_limit (hard_ : Z) (pressure : ScheduleResourcePressure) : PressureLimit :=
  byte_limit hard_ pressure.
Definition u16_limit (hard_ : Z) (pressure : ScheduleResourcePressure) : PressureLimit :=
  {| soft := soften_u16 hard_ pressure; hard := hard_ |}.
Definition u8_limit (hard_ : Z) (pressure : ScheduleResourcePressure) : PressureLimit :=
  {| soft := soften_u8 hard_ pressure; hard := hard_ |}.

Definition pressure_scaled_u64 (base : Z) (pressure : ScheduleResourcePressure) : Z :=
  match pressure with
  | RP_Conservative => base
  | RP_Balanced => saturating_mul U64 base 2
  | RP_FitFirst => saturating_mul U64 base 4
  end.

Definition profile_default_byte_hard (pressure : ScheduleResourcePressure) (f : ProfilePressureField) : Z :=
  let base := match f with
    | PF_WramHot => 4096
    | PF_HramHot => 96
    | PF_Bank0Rom => 4096
    | PF_SwitchableRomWindow => 16 * 1024
    | PF_SramWindow => 8 * 1024
    | _ => 1024
    end in
  pressure_scaled_u64 base pressure.

Definition profile_default_cycle_hard (pressure : ScheduleResourcePressure) (f : ProfilePressureField) : Z :=
  let base := match f with PF_SliceCycles => 8192 | PF_InterruptLatency => 2048 | _ => 1024 end in
  pressure_scaled_u64 base pressure.

Definition profile_default_u16_hard (pressure : ScheduleResourcePressure) (f : ProfilePressureField) : Z :=
  let base := match f with
    | PF_PersistBytesPerFrame => 512
    | PF_BankSwitchesPerToken => 8
    | PF_SramPageSwitchesPerToken => 4
    | _ => 1
    end in
  clamp_unsigned U16 (pressure_scaled_u64 base pressure).

Definition profile_default_u8_hard (pressure : ScheduleResourcePressure) (f : ProfilePressureField) : Z :=
  let base := match f with PF_OverlayInstallsPerFrame => 1 | _ => 1 end in
  clamp_unsigned U8 (pressure_scaled_u64 base pressure).

(** [.map(f).unwrap_or_else(d)] on the optional budget. *)
Definition from_budget {E} (budget : option RuntimeChromeBudget)
    (f : RuntimeChromeBudget -> outcome E Z) (d : Z) : outcome E Z :=
  match budget with Some b => f b | None => Ok d end.

Definition service_latency (o : CompileObjective) : option Z :=
  match o.(service) with
  | Some s =>
      match s.(max_resume_latency_cycles_p95) with
      | Some c => Some c
      | None =>
          match s.(max_checkpoint_gap_cycles_p95) with
          | Some c => Some c
          | None => s.(max_first_token_cycles_p95)
          end
      end
  | None => None
  end.

(** ** Provenance of the thresholds *)

Definition optional_or_profile (source : option ConstraintProvenance) (profile : ConstraintProvenance)
    : ConstraintProvenance := default profile source.

Definition profile_pressure_provenance (profile : CompileProfileSpec) : ConstraintProvenance := {|
  cp_source := ProfileDefault;
  cp_operation := SeedDefault;
  cp_evidence := [{| ev_kind := "CompileProfileSpec";
                     ev_reference := String.append profile.(spec_id) ".schedule.resource_pressure";
                     ev_hash := Some profile.(defaults_hash) |}] |}.

Definition scheduler_pressure_provenance (profile : CompileProfileSpec) : ConstraintProvenance := {|
  cp_source := ProfileDefault;
  cp_operation := ApplyPreference;
  cp_evidence := [{| ev_kind := "ScheduleResourcePressure";
                     ev_reference := profile.(spec_id);
                     ev_hash := Some profile.(defaults_hash) |}] |}.

Definition runtime_chrome_provenance (b : RuntimeChromeBudget) : ConstraintProvenance := {|
  cp_source := TargetDefault;
  cp_operation := ApplyHardConstraint;
  cp_evidence := [{| ev_kind := "RuntimeChromeBudget";
                     ev_reference := String.append b.(rcb_target) (String.append ":" b.(rcb_profile));
                     ev_hash := Some (nucleus_hash b.(runtime_nucleus_hash)) |}] |}.

Definition debug_option (o : option Z) : string :=
  match o with
  | Some n => String.append "Some(" (String.append (pretty n) ")")
  | None => "None"
  end.

Definition objective_pressure_provenance (o : CompileObjective) : ConstraintProvenance := {|
  cp_source := CompileRequestOverride;
  cp_operation := ApplyHardConstraint;
  cp_evidence := [{| ev_kind := "CompileObjective";
                     ev_reference :=
                       String.append "cycles=" (String.append (debug_option o.(max_cycles_per_token))
                         (String.append ";bank_switches="
                           (String.append (debug_option o.(max_bank_switches_per_token))
                             (String.append ";sram_page_switches="
                               (debug_option o.(max_sram_page_switches_per_token))))));
                     ev_hash := None |}] |}.

Definition trace_budget_provenance (t : TraceBudget) : ConstraintProvenance := {|
  cp_source := ProfileDefault;
  cp_operation := ApplyHardConstraint;
  cp_evidence := [{| ev_kind := "TraceBudget";
                     ev_reference :=
                       String.append "events_per_slice=" (String.append (pretty t.(max_events_per_slice))
                         (String.append ";bytes_per_frame=" (pretty t.(max_bytes_per_frame))));
                     ev_hash := None |}] |}.

Definition resource_pressure_provenance (profile : CompileProfileSpec)
    (budget : option RuntimeChromeBudget) (objective : CompileObjective) (trace_budget : TraceBudget)
    : list CompileKnobProvenanceEntry :=
  let runtime := option_map runtime_chrome_provenance budget in
  let profile_default := profile_pressure_provenance profile in
  let scheduler := scheduler_pressure_provenance profile in
  let objective := objective_pressure_provenance objective in
  let trace := trace_budget_provenance trace_budget in
  let runtime_or := optional_or_profile runtime profile_default in
  map (fun '(field, chain) => {|
      pe_path := {| kp_knob := K_ScheduleResourcePressure; kp_selector := None; kp_field := Some field |};
      pe_chain := chain |})
    [("thresholds.wram_hot", [profile_default; runtime_or]);
     ("thresholds.hram_hot", [profile_default; runtime_or]);
     ("thresholds.bank0_rom", [profile_default; runtime_or]);
     ("thresholds.switchable_rom_window", [profile_default; runtime_or]);
     ("thresholds.sram_window", [profile_default; runtime_or]);
     ("thresholds.slice_cycles", [profile_default; scheduler; objective]);
     ("thresholds.interrupt_latency", [profile_default; scheduler; objective]);
     ("thresholds.trace_bytes_per_frame", [profile_default; trace]);
     ("thresholds.persist_bytes_per_frame", [profile_default; runtime_or]);
     ("thresholds.overlay_installs_per_frame", [profile_default; scheduler]);
     ("thresholds.bank_switches_per_token", [profile_default; scheduler; objective]);
     ("thresholds.sram_page_switches_per_token", [profile_default; scheduler; objective])].

Record ResourcePressureThresholdResolution := {
  rpr_thresholds : ResourcePressureThresholds;
  rpr_provenance : list CompileKnobProvenanceEntry;
}.

Definition resolve_resource_pressure_thresholds (profile : CompileProfileSpec)
    (budget : option RuntimeChromeBudget) (objective : CompileObjective) (trace_budget : TraceBudget)
    : outcome InitialKnobsResolveError ResourcePressureThresholdResolution :=
  let* schedule := require_default profile profile.(knob_defaults).(pv_schedule) "schedule" in
  let pressure := schedule.(sk_resource_pressure) in
  let bytes f := profile_default_byte_hard pressure f in
  let cycles f := profile_default_cycle_hard pressure f in
  let words f := profile_default_u16_hard pressure f in
  let* wram := from_budget budget (fun b => Ok (wram_hot_hard_bytes b)) (bytes PF_WramHot) in
  let* hram := from_budget budget (fun b => Ok b.(memory_caps).(hram_usable_bytes)) (bytes PF_HramHot) in
  let* bank0 := from_budget budget bank0_rom_hard_bytes (bytes PF_Bank0Rom) in
  let* switchable := from_budget budget switchable_rom_window_hard_bytes (bytes PF_SwitchableRomWindow) in
  let* sram := from_budget budget (fun b => Ok (sram_window_hard_bytes b)) (bytes PF_SramWindow) in
  let* persist := from_budget budget (fun b => Ok (saturating_u16 b.(sram_reserved)))
                    (words PF_PersistBytesPerFrame) in
  Ok {|
    rpr_thresholds := {|
      wram_hot := byte_limit wram pressure;
      hram_hot := byte_limit hram pressure;
      bank0_rom := byte_limit bank0 pressure;
      switchable_rom_window := byte_limit switchable pressure;
      sram_window := byte_limit sram pressure;
      slice_cycles := cycle_limit (default (cycles PF_SliceCycles) objective.(max_cycles_per_token)) pressure;
      interrupt_latency := cycle_limit (default (cycles PF_InterruptLatency) (service_latency objective)) pressure;
      trace_bytes_per_frame := u16_limit trace_budget.(max_bytes_per_frame) pressure;
      persist_bytes_per_frame := u16_limit persist pressure;
      overlay_installs_per_frame :=
        u8_limit (profile_default_u8_hard pressure PF_OverlayInstallsPerFrame) pressure;
      bank_switches_per_token :=
        u16_limit (default (words PF_BankSwitchesPerToken) objective.(max_bank_switches_per_token)) pressure;
      sram_page_switches_per_token :=
        u16_limit (default (words PF_SramPageSwitchesPerToken) objective.(max_sram_page_switches_per_token))
          pressure |};
    rpr_provenance := resource_pressure_provenance profile budget objective trace_budget |}.
