(* ===== verification/KnobResolveFacts.v ===== *)
(** * Resolution of knobs and thresholds

    Thresholds are well formed and fit their types, a validated budget loses
    nothing to saturation, and a profile that locks every refinement knob keeps
    its knobs through any run of the refinement loop. *)

From S2P Require Import Prelude Numeric KnobLattice KnobDelta KnobFacts Refinement RefinementFacts RefinementRunFacts RefinementTheorems KnobResolve.

(** ** Ranges of the inputs *)

Definition u_option (m : Z) (o : option Z) : Prop := forall x, o = Some x -> 0 <= x < m.

Record slot_typed (s : RomBudgetSlot) : Prop := {
  typed_usable : 0 <= s.(usable_bytes) < U32;
  typed_slack : 0 <= s.(reserved_slack) < U16;
}.

Record budget_typed (b : RuntimeChromeBudget) : Prop := {
  typed_slots : Forall slot_typed b.(rom_slots);
  typed_slot_count : zlen b.(rom_slots) < U32;
  typed_wram : 0 <= b.(memory_caps).(wram_usable_bytes) < U32;
  typed_sram : 0 <= b.(memory_caps).(sram_usable_bytes) < U32;
  typed_hram : 0 <= b.(memory_caps).(hram_usable_bytes) < U32;
  typed_reserved : 0 <= b.(wram_reserved).(wr_total) < U16;
  typed_sram_reserved : 0 <= b.(sram_reserved) < U32;
}.

Record objective_typed (o : CompileObjective) : Prop := {
  typed_cycles : u_option U32 o.(max_cycles_per_token);
  typed_latency : u_option U32 (service_latency o);
  typed_bank : u_option U16 o.(max_bank_switches_per_token);
  typed_page : u_option U16 o.(max_sram_page_switches_per_token);
}.

Definition limit_typed (m : Z) (l : PressureLimit) : Prop := 0 <= l.(soft) /\ l.(hard) < m.

Definition thresholds_typed (t : ResourcePressureThresholds) : Prop :=
  limit_typed U64 t.(wram_hot) /\ limit_typed U64 t.(hram_hot) /\ limit_typed U64 t.(bank0_rom)
  /\ limit_typed U64 t.(switchable_rom_window) /\ limit_typed U64 t.(sram_window)
  /\ limit_typed U64 t.(slice_cycles) /\ limit_typed U64 t.(interrupt_latency)
  /\ limit_typed U16 t.(trace_bytes_per_frame) /\ limit_typed U16 t.(persist_bytes_per_frame)
  /\ limit_typed U8 t.(overlay_installs_per_frame) /\ limit_typed U16 t.(bank_switches_per_token)
  /\ limit_typed U16 t.(sram_page_switches_per_token).

(** ** Softening *)

Lemma soften_u64_le h p : 0 <= h < U64 -> 0 <= soften_u64 h p <= h.
Proof.
  intros Hh. unfold soften_u64, saturating_mul. destruct p.
  all: split; [apply Z.div_pos; lia|]; apply Z.div_le_upper_bound; lia.
Qed.

Lemma clamp_le m x : 0 <= x -> 0 < m -> 0 <= clamp_unsigned m x <= x /\ clamp_unsigned m x < m.
Proof. unfold clamp_unsigned. intros. destruct (Z.ltb_spec x m); lia. Qed.

Lemma byte_limit_ok h p : 0 <= h < U64 -> limit_wf (byte_limit h p) /\ limit_typed U64 (byte_limit h p).
Proof.
  intros Hh. pose proof (soften_u64_le h p Hh). unfold limit_wf, limit_typed.
  unfold byte_limit. cbn [soft hard]. lia.
Qed.

Lemma u16_limit_ok h p : 0 <= h < U16 -> limit_wf (u16_limit h p) /\ limit_typed U16 (u16_limit h p).
Proof.
  intros Hh. assert (H64 : 0 <= h < U64) by lia. pose proof (soften_u64_le h p H64).
  destruct (clamp_le U16 (soften_u64 h p)) as [? ?]; [lia..|].
  unfold limit_wf, limit_typed, u16_limit, soften_u16. cbn [soft hard]. split; lia.
Qed.

Lemma u8_limit_ok h p : 0 <= h < U8 -> limit_wf (u8_limit h p) /\ limit_typed U8 (u8_limit h p).
Proof.
  intros Hh. assert (H64 : 0 <= h < U64) by lia. pose proof (soften_u64_le h p H64).
  destruct (clamp_le U8 (soften_u64 h p)) as [? ?]; [lia..|].
  unfold limit_wf, limit_typed, u8_limit, soften_u8. cbn [soft hard]. split; lia.
Qed.

Lemma profile_byte_range p f : 0 <= profile_default_byte_hard p f < U64.
Proof. destruct p, f; vm_compute; split; (discriminate || reflexivity). Qed.
Lemma profile_cycle_range p f : 0 <= profile_default_cycle_hard p f < U64.
Proof. destruct p, f; vm_compute; split; (discriminate || reflexivity). Qed.
Lemma profile_word_range p f : 0 <= profile_default_u16_hard p f < U16.
Proof. destruct p, f; vm_compute; split; (discriminate || reflexivity). Qed.
Lemma profile_u8_range p f : 0 <= profile_default_u8_hard p f < U8.
Proof. destruct p, f; vm_compute; split; (discriminate || reflexivity). Qed.

Lemma default_range m d o : 0 <= d < m -> u_option m o -> 0 <= default d o < m.
Proof. intros Hd Ho. destruct o as [x|]; simpl; [by apply Ho|done]. Qed.

(** ** The budget *)

Lemma slot_hard_range s : slot_typed s -> 0 <= slot_hard_bytes s < U32.
Proof. intros [? ?]. unfold slot_hard_bytes, saturating_sub. lia. Qed.

Lemma sum_u64_go {E} l : forall acc, 0 <= acc -> Forall (fun x => 0 <= x < U32) l ->
  acc + U32 * zlen l < U64 ->
  ofold (fun acc x => uadd U64 acc x) acc l = @Ok E Z (acc + zsum l) /\ 0 <= zsum l <= U32 * zlen l.
Proof.
  induction l as [|x l IH]; intros acc Ha Hl Hb.
  { simpl. split; [f_equal; lia|]. unfold zlen. simpl. lia. }
  apply Forall_cons in Hl as [Hx Hl]. rewrite zlen_cons in Hb |- *. pose proof (zlen_nonneg l).
  assert (Hu : @uadd E U64 acc x = Ok (acc + x)) by (apply uadd_Ok; lia).
  cbn [ofold zsum]. rewrite Hu. cbn [obind].
  destruct (IH (acc + x)) as [-> Hz]; [lia|done|lia|]. split; [f_equal; lia|lia].
Qed.

Lemma slots_sum {E} (f : RomBudgetSlot -> bool) l : Forall slot_typed l -> zlen l < U32 ->
  sum_u64 (map slot_hard_bytes (List.filter f l))
    = @Ok E Z (zsum (map slot_hard_bytes (List.filter f l)))
  /\ 0 <= zsum (map slot_hard_bytes (List.filter f l)) < U64.
Proof.
  intros Hl Hn. set (l' := map slot_hard_bytes _).
  assert (Hl' : Forall (fun x => 0 <= x < U32) l').
  { apply Forall_map, Forall_forall. intros s Hs%list_elem_of_In%filter_In.
    apply slot_hard_range. destruct Hs as [Hs _]. apply list_elem_of_In in Hs.
    rewrite Forall_forall in Hl. by apply Hl. }
  assert (Hlen : zlen l' <= zlen l).
  { unfold l', zlen. rewrite length_map. pose proof (List.filter_length_le f l). lia. }
  destruct (@sum_u64_go E l' 0) as [Hs Hz]; [lia|done|lia|].
  unfold sum_u64. rewrite Hs. split; [done|]. lia.
Qed.

Lemma ofold_slots l : forall seen seen',
  ofold validate_slot seen l = Ok seen' ->
  Forall (fun s => 0 <> s.(usable_bytes) /\ s.(reserved_slack) < s.(usable_bytes)
                   /\ s.(placement_caps) <> ∅) l
  /\ NoDup (map slot_id l) /\ (forall s, s ∈ l -> s.(slot_id) ∉ seen).
Proof.
  induction l as [|s l IH]; intros seen seen' Hf; simpl in Hf.
  { split_and!; [constructor|constructor|set_solver]. }
  apply obind_Ok in Hf as (seen1 & Hs & Hf). unfold validate_slot in Hs.
  apply obind_Ok in Hs as ([] & Hv & Hd).
  case_bool_decide as Hin; [done|]. injection Hd as <-.
  apply IH in Hf as (Hall & Hnd & Hsep). unfold RomBudgetSlot_validate in Hv.
  destruct (_ =? 0) eqn:H0; [done|]. destruct (_ <=? _) eqn:H1; [done|].
  case_bool_decide as Hc; [done|]. split_and!.
  - constructor; [|done]. split_and!; [lia|lia|done].
  - simpl. constructor; [|done]. intros (s' & He & Hs')%list_elem_of_fmap.
    specialize (Hsep s' Hs'). set_solver.
  - intros s' [->|Hs']%elem_of_cons; [done|]. specialize (Hsep s' Hs'). set_solver.
Qed.

Lemma filter_sum (f : RomBudgetSlot -> bool) l :
  zsum (map slot_hard_bytes (List.filter f l))
  + zsum (map slot_hard_bytes (List.filter (fun s => negb (f s)) l))
  = zsum (map slot_hard_bytes l).
Proof. induction l as [|s l IH]; simpl; [done|]. destruct (f s); simpl; lia. Qed.

(** ** Theorems *)

(** C24: with inputs in the ranges of their types, the thresholds resolve whenever
    the profile has a schedule: nothing overflows, every soft limit is at most
    its hard limit, and every limit fits the width of its field. *)
Theorem thresholds_resolved profile budget objective trace schedule :
  (forall b, budget = Some b -> budget_typed b) -> objective_typed objective ->
  0 <= trace.(max_bytes_per_frame) < U16 ->
  profile.(knob_defaults).(pv_schedule) = Some schedule ->
  exists r, resolve_resource_pressure_thresholds profile budget objective trace = Ok r
    /\ thresholds_wf r.(rpr_thresholds) /\ thresholds_typed r.(rpr_thresholds).
Proof.
  intros Hb [Hcy Hla Hba Hpa] Ht Hs. unfold resolve_resource_pressure_thresholds, require_default.
  rewrite Hs. cbn [ok_or obind]. set (p := sk_resource_pressure schedule).
  pose proof (profile_byte_range p) as Hpb. pose proof (profile_cycle_range p) as Hpc.
  pose proof (profile_word_range p) as Hpw. pose proof (profile_u8_range p) as Hp8.
  assert (Hcyc : forall f o, u_option U32 o -> 0 <= default (profile_default_cycle_hard p f) o < U64).
  { intros f o Ho. apply default_range; [done|]. intros x Hx%Ho. lia. }
  assert (exists w h b0 sw sr pe,
    from_budget budget (fun b => Ok (wram_hot_hard_bytes b)) (profile_default_byte_hard p PF_WramHot)
      = @Ok InitialKnobsResolveError Z w /\ 0 <= w < U64
    /\ from_budget budget (fun b => Ok b.(memory_caps).(hram_usable_bytes))
         (profile_default_byte_hard p PF_HramHot) = @Ok InitialKnobsResolveError Z h /\ 0 <= h < U64
    /\ from_budget budget bank0_rom_hard_bytes (profile_default_byte_hard p PF_Bank0Rom)
         = @Ok InitialKnobsResolveError Z b0 /\ 0 <= b0 < U64
    /\ from_budget budget switchable_rom_window_hard_bytes
         (profile_default_byte_hard p PF_SwitchableRomWindow) = @Ok InitialKnobsResolveError Z sw
    /\ 0 <= sw < U64
    /\ from_budget budget (fun b => Ok (sram_window_hard_bytes b))
         (profile_default_byte_hard p PF_SramWindow) = @Ok InitialKnobsResolveError Z sr /\ 0 <= sr < U64
    /\ from_budget budget (fun b => Ok (saturating_u16 b.(sram_reserved)))
         (profile_default_u16_hard p PF_PersistBytesPerFrame)
         = @Ok InitialKnobsResolveError Z pe /\ 0 <= pe < U16)
    as (w & h & b0 & sw & sr & pe & -> & ? & -> & ? & -> & ? & -> & ? & -> & ? & -> & ?).
  { destruct budget as [b|]; simpl; [|by repeat eexists; try apply Hpb; apply Hpw].
    destruct (Hb b eq_refl) as [Hsl Hn ? ? ? ? ?].
    destruct (@slots_sum InitialKnobsResolveError is_bank0_free _ Hsl Hn) as [E0 R0].
    destruct (@slots_sum InitialKnobsResolveError (fun s => negb (is_bank0_free s)) _ Hsl Hn) as [E1 R1].
    unfold bank0_rom_hard_bytes, switchable_rom_window_hard_bytes. rewrite E0, E1.
    pose proof (clamp_le U16 (sram_reserved b)).
    unfold wram_hot_hard_bytes, sram_window_hard_bytes, saturating_u16, saturating_sub.
    eexists _, _, _, _, _, _. split_and!; try reflexivity; lia. }
  cbn [obind]. eexists. split; [reflexivity|].
  unfold thresholds_wf, thresholds_typed. cbn [rpr_thresholds]. simpl.
  split; split_and!; first [apply byte_limit_ok | apply u16_limit_ok | apply u8_limit_ok];
    try done; try apply Hcyc; try done; by apply default_range.
Qed.

(** a budget that validates has distinct slots of positive capacity, and its
    hard limits are exact: usable bytes less reserved ones in WRAM and SRAM, and
    the fixed bank and the switchable window together hold what all slots leave
    after their slack; no subtraction saturates. *)
Theorem validated_budget_exact b :
  RuntimeChromeBudget_validate b = Ok () -> budget_typed b ->
  NoDup (map slot_id b.(rom_slots))
  /\ wram_hot_hard_bytes b + b.(wram_reserved).(wr_total) = b.(memory_caps).(wram_usable_bytes)
  /\ sram_window_hard_bytes b + b.(sram_reserved) = b.(memory_caps).(sram_usable_bytes)
  /\ Forall (fun s => 0 < slot_hard_bytes s /\ slot_hard_bytes s + s.(reserved_slack) = s.(usable_bytes))
       b.(rom_slots)
  /\ exists b0 sw, bank0_rom_hard_bytes b = @Ok unit Z b0
       /\ switchable_rom_window_hard_bytes b = @Ok unit Z sw
       /\ b0 + sw = zsum (map slot_hard_bytes b.(rom_slots)).
Proof.
  intros Hv Ht. unfold RuntimeChromeBudget_validate in Hv.
  apply obind_Ok in Hv as ([] & _ & Hv). apply obind_Ok in Hv as (seen & Hs & Hv).
  apply obind_Ok in Hv as ([] & _ & Hv). apply obind_Ok in Hv as ([] & Hw & Hv).
  apply obind_Ok in Hv as ([] & _ & Hr). apply guard_err_Ok in Hw as [Hw _], Hr as [Hr _].
  apply ofold_slots in Hs as (Hall & Hnd & _). destruct Ht as [Hsl Hn ? ? ? ? ?].
  destruct (@slots_sum unit is_bank0_free _ Hsl Hn) as [E0 _].
  destruct (@slots_sum unit (fun s => negb (is_bank0_free s)) _ Hsl Hn) as [E1 _].
  split_and!; [done|unfold wram_hot_hard_bytes, saturating_sub; lia
              |unfold sram_window_hard_bytes, saturating_sub; lia| |].
  - eapply Forall_impl; [exact Hall|]. intros s (? & ? & _).
    unfold slot_hard_bytes, saturating_sub. lia.
  - eexists _, _. split_and!; [exact E0|exact E1|apply filter_sum].
Qed.

Lemma audited_all_locked `{SerdeJson} s0 l k n :
  (forall d, is_locked s0.(knobs).(locks) (knob_id d) = true) ->
  audited s0 l k n -> k = s0.(knobs).
Proof.
  intros Hl. induction 1 as [|l k n r reason Ha IH _ _ _|l k n r k' Ha IH _ _ Hadm _ ->]; [done|done|].
  subst k. destruct (changes (rr_delta r)) as [|d ds] eqn:Hd.
  - unfold apply_constraint_delta. by rewrite Hd.
  - apply Forall_cons in Hadm as [Hadm _]. apply admits_inv in Hadm as [Hadm _].
    by rewrite Hl in Hadm.
Qed.

Lemma trace_locks_all d : is_locked (f_b16_profile_lock_set RPP_TraceInvariant) (knob_id d) = true.
Proof. by destruct d; vm_compute. Qed.

(** What [resolve_initial_knobs_from_profile_spec] returns. *)
Lemma initial_knobs_Ok profile k : resolve_initial_knobs_from_profile_spec profile = Ok k ->
  exists kind, repair_policy_profile profile.(spec_id) = Ok kind
    /\ k.(locks) = f_b16_profile_lock_set kind /\ k.(overrides) = CompileKnobOverrides_default
    /\ has_authorized_relaxation k = false.
Proof.
  unfold resolve_initial_knobs_from_profile_spec. intros (kind & Hk & H)%obind_Ok.
  repeat (apply obind_Ok in H as (? & _ & H)). injection H as <-. by exists kind.
Qed.

(** under the trace profile no run of the refinement loop changes a knob,
    whatever the planning stages propose: the knobs it ends with are those the
    profile resolved to, since every knob a delta can name is locked. *)
Theorem trace_profile_frozen `{SerdeJson} {P} `{CompilerPipeline P} fuel profile k o pur p r p' :
  profile.(spec_id) = "Trace" -> resolve_initial_knobs_from_profile_spec profile = Ok k ->
  (forall stage, 0 <= remaining (from_limits k.(global).(schedule).(sk_stage_iteration_ceilings)) stage < U8) ->
  run_refinement_loop fuel (from_profile k RPP_TraceInvariant o pur) p = (Ok r, p') ->
  r.(res_state).(knobs) = k.
Proof.
  intros Hid (kind & Hk & Hl & _)%initial_knobs_Ok Hst Hrun.
  rewrite Hid in Hk. injection Hk as <-.
  assert (Hfresh : fresh_state (from_profile k RPP_TraceInvariant o pur)).
  { split; [done|done| |exact Hst]. simpl. unfold total_saturating, saturating_add.
    pose proof (Hst RangePlan). pose proof (Hst StoragePlan). pose proof (Hst SramPagePlan).
    pose proof (Hst RomWindowPlan). pose proof (Hst OverlayPlan). pose proof (Hst ArenaPlan).
    pose proof (Hst GbSchedIr). pose proof (Hst ResourceStateValidation). simpl in *. lia. }
  apply run_inv in Hrun as (n & _ & Hi); [|done].
  eapply (audited_all_locked (from_profile k RPP_TraceInvariant o pur)); [|apply (inv_audit _ _ Hi)].
  intros d. simpl. rewrite Hl. apply trace_locks_all.
Qed.

(** ** Witnesses *)

Definition demo_schedule : ScheduleKnob := (demo_knobs ∅).(global).(schedule).

Definition demo_profile : CompileProfileSpec :=
  let g := (demo_knobs ∅).(global) in let b := (demo_knobs ∅).(bounds) in {|
  spec_id := "Trace";
  defaults_hash := 7;
  range_caps := {| profile_chunk_max := 256; profile_tile_max := 256; profile_tile_min := 16;
                   renorm_strategy := Policy_ExactPostBoundaryOnly |};
  spec_repair_policy := for_profile RPP_TraceInvariant;
  knob_defaults := {| pv_placement := Some g.(placement); pv_observation := Some g.(observation);
    pv_range := Some g.(range); pv_storage := Some g.(storage); pv_sram := Some g.(sram);
    pv_rom_window := Some g.(rom_window); pv_overlay := Some g.(overlay);
    pv_schedule := Some g.(schedule) |};
  knob_bounds := {| pb_placement := Some b.(b_placement); pb_observation := Some b.(b_observation);
    pb_range := Some b.(b_range); pb_storage := Some b.(b_storage); pb_sram := Some b.(b_sram);
    pb_rom_window := Some b.(b_rom_window); pb_overlay := Some b.(b_overlay);
    pb_schedule := Some b.(b_schedule) |};
  spec_locks := ∅ |}.

Definition demo_budget : RuntimeChromeBudget := {|
  rcb_target := "dmg"; rcb_profile := "Trace"; runtime_nucleus_hash := Real 1;
  reference_shell_modules := {[Boot; ShellBanking]};
  rom_slots := [{| slot_id := 0; slot_class := Bank0Free; usable_bytes := 4096; reserved_slack := 96;
                   placement_caps := {[Budgeted]} |};
                {| slot_id := 1; slot_class := ExpertBank; usable_bytes := 16384; reserved_slack := 384;
                   placement_caps := {[Budgeted]} |}];
  memory_caps := {| wram_usable_bytes := 8192; sram_usable_bytes := 8192; hram_usable_bytes := 127;
                    source_target_profile_hash := 2 |};
  wram_reserved := {| wr_overlay := 512; wr_hot_arena_floor := 4096; wr_total := 1024 |};
  sram_reserved := 256 |}.

Definition demo_objective : CompileObjective := {|
  service := None; max_cycles_per_token := Some 1000000; max_bank_switches_per_token := None;
  max_sram_page_switches_per_token := None |}.

Lemma demo_budget_typed : budget_typed demo_budget.
Proof.
  split; try (vm_compute; split; (discriminate || reflexivity)); try (vm_compute; reflexivity).
  repeat constructor; vm_compute; (discriminate || reflexivity).
Qed.

Lemma demo_objective_typed : objective_typed demo_objective.
Proof. split; intros x Hx; try done. injection Hx as <-. lia. Qed.

Lemma thresholds_resolved_witness :
  exists r, resolve_resource_pressure_thresholds demo_profile (Some demo_budget) demo_objective
              {| max_events_per_slice := 256; max_bytes_per_frame := 4096 |} = Ok r
    /\ thresholds_wf r.(rpr_thresholds) /\ thresholds_typed r.(rpr_thresholds).
Proof.
  apply (thresholds_resolved demo_profile (Some demo_budget) demo_objective
           {| max_events_per_slice := 256; max_bytes_per_frame := 4096 |} demo_schedule).
  - intros b [= <-]. apply demo_budget_typed.
  - apply demo_objective_typed.
  - simpl. lia.
  - reflexivity.
Defined.

Lemma validated_budget_exact_witness :
  RuntimeChromeBudget_validate demo_budget = Ok ()
  /\ wram_hot_hard_bytes demo_budget + 1024 = 8192.
Proof.
  split; [vm_compute; reflexivity|].
  exact (proj1 (proj2 (validated_budget_exact demo_budget eq_refl demo_budget_typed))).
Defined.

#[local] Instance trace_json : SerdeJson := fun _ => "".

(** The packing pipeline under the trace profile: its proposal is rejected. *)
Definition trace_knobs : CompileKnobs :=
  match resolve_initial_knobs_from_profile_spec demo_profile with Ok k => k | _ => demo_knobs ∅ end.
Definition trace_state : LoopState :=
  from_profile trace_knobs RPP_TraceInvariant Flexible {| pure_values := ∅; effectful_values := ∅ |}.
Definition trace_result : RefinementLoopResult :=
  match (run_refinement_loop (H0 := packing_pipeline) 1 trace_state tt).1 with
  | Ok r => r | _ => terminal trace_state Converged end.

Lemma trace_run_eq : run_refinement_loop (H0 := packing_pipeline) 1 trace_state tt = (Ok trace_result, tt).
Proof.
  assert (Hok : match (run_refinement_loop (H0 := packing_pipeline) 1 trace_state tt).1 with
                | Ok _ => true | _ => false end = true) by (vm_compute; reflexivity).
  revert Hok. unfold trace_result.
  destruct (run_refinement_loop 1 trace_state tt) as [[r| | |] []]; done.
Qed.

Lemma trace_profile_frozen_witness :
  length trace_result.(res_state).(history).(proposals) = 1%nat
  /\ trace_result.(res_state).(knobs) = trace_knobs.
Proof.
  split; [vm_compute; reflexivity|].
  apply (trace_profile_frozen (H0 := packing_pipeline) 1 demo_profile trace_knobs Flexible
           {| pure_values := ∅; effectful_values := ∅ |} tt trace_result tt);
    [reflexivity|reflexivity| |exact trace_run_eq].
  intros []; vm_compute; split; (discriminate || reflexivity).
Defined.
