(* ===== verification/RangeCert.v ===== *)
(** * Range plans and accumulator certificates: data and arithmetic

    The types that [gbf-codegen/src/s5/range_plan.rs] declares and that
    [gbf-report/src/report_schemas/range_plan_v1.rs] declares again for the
    independent verifier, field by field the same, with the checked arithmetic
    that producer and verifier share.  Layers, experts, nodes and tensors are
    newtypes of integers. *)

From S2P Require Import Prelude Numeric.

Abbreviation U128 := 340282366920938463463374607431768211456 (only parsing).
Abbreviation ReductionSiteId := string (only parsing).

(** ** Reduction sites *)

Inductive DeterminismClass := BitExact | Deterministic | Nondeterministic.
Inductive AccumulatorDomain := RawIntegerProducts | PostScaleQ8_8 | PostScaleQ16_16.
Inductive ExpertWeightSlot := FfnGate | FfnUp | FfnDown.
Inductive NormSite := NormSite_LayerSequence (layer : Z) | NormSite_LayerFfn (layer : Z) | NormSite_Final.
Inductive ResidualSite := PostFfn | PostSequence.
Inductive InferOpTag :=
| Tag_Classify | Tag_CombineResidual | Tag_DecodeToken | Tag_Embedding | Tag_ExpertMatVec
| Tag_FfnActivation | Tag_Norm | Tag_RouteTop1 | Tag_RouterMatVec | Tag_SelectExpertTop1
| Tag_SequenceRead | Tag_SequenceStep | Tag_SequenceWrite.

#[export] Instance DeterminismClass_eq_dec : EqDecision DeterminismClass.
Proof. solve_decision. Defined.
#[export] Instance AccumulatorDomain_eq_dec : EqDecision AccumulatorDomain.
Proof. solve_decision. Defined.
#[export] Instance ExpertWeightSlot_eq_dec : EqDecision ExpertWeightSlot.
Proof. solve_decision. Defined.
#[export] Instance NormSite_eq_dec : EqDecision NormSite.
Proof. solve_decision. Defined.
#[export] Instance ResidualSite_eq_dec : EqDecision ResidualSite.
Proof. solve_decision. Defined.
#[export] Instance InferOpTag_eq_dec : EqDecision InferOpTag.
Proof. solve_decision. Defined.

Record ReductionSiteFacts := MkReductionSiteFacts {
  rf_site : ReductionSiteId;
  rf_layer : option Z;
  rf_expert : option Z;
  rf_slot : option ExpertWeightSlot;
  rf_norm_site : option NormSite;
  rf_term_count : Z;
  rf_input_max_abs_q : Z;
  rf_weight_max_abs_q : Z;
  rf_per_term_abs_max_q : Z;
  rf_bias_max_abs_q : option Z;
  rf_accumulator_domain : AccumulatorDomain;
  rf_op_tag : InferOpTag;
}.

#[export] Instance ReductionSiteFacts_eq_dec : EqDecision ReductionSiteFacts.
Proof. solve_decision. Defined.

(** The widths of the integer fields. *)
Record facts_typed (f : ReductionSiteFacts) : Prop := {
  ft_terms : 0 <= rf_term_count f < U32;
  ft_input : 0 <= rf_input_max_abs_q f < U32;
  ft_weight : 0 <= rf_weight_max_abs_q f < U32;
  ft_per_term : 0 <= rf_per_term_abs_max_q f < U64;
  ft_bias : 0 <= default 0 (rf_bias_max_abs_q f) < U32;
}.

(** ** Plans *)

Inductive RenormStrategy := ExactPostBoundary | DynamicMargin (margin_q16_16 : Z).
Inductive RenormRounding := TowardZero | NearestEven.
Inductive NamedNumericBoundary :=
| NB_ResidualCombine (layer : option Z) (site : ResidualSite)
| NB_ClassifyLogit
| NB_FfnActivationOutput (layer expert : Z)
| NB_FinalClamp.
Inductive RenormSaturationPolicy := Sat_Forbidden | Sat_AtNamedNumericBoundary (boundary : NamedNumericBoundary).

Record RenormRecurrence := MkRenormRecurrence {
  rr_input_scale_q16_16 : Z;
  rr_output_scale_q16_16 : Z;
  rr_rounding : RenormRounding;
  rr_saturation : RenormSaturationPolicy;
  rr_max_rounding_error_q16_16 : Z;
}.
Record RenormSpec := MkRenormSpec { rs_strategy : RenormStrategy; rs_recurrence : RenormRecurrence }.

Inductive ReductionPlan :=
| SingleI16
| ChunkedI16 (chunk_len : Z)
| RenormLoop (tile_len : Z) (renorm : RenormSpec).

Inductive ReductionPlanFamily := Family_SingleI16 | Family_ChunkedI16 | Family_RenormLoop.

Definition plan_family (plan : ReductionPlan) : ReductionPlanFamily :=
  match plan with
  | SingleI16 => Family_SingleI16
  | ChunkedI16 _ => Family_ChunkedI16
  | RenormLoop _ _ => Family_RenormLoop
  end.

#[export] Instance RenormStrategy_eq_dec : EqDecision RenormStrategy.
Proof. solve_decision. Defined.
#[export] Instance RenormRounding_eq_dec : EqDecision RenormRounding.
Proof. solve_decision. Defined.
#[export] Instance NamedNumericBoundary_eq_dec : EqDecision NamedNumericBoundary.
Proof. solve_decision. Defined.
#[export] Instance RenormSaturationPolicy_eq_dec : EqDecision RenormSaturationPolicy.
Proof. solve_decision. Defined.
#[export] Instance RenormRecurrence_eq_dec : EqDecision RenormRecurrence.
Proof. solve_decision. Defined.
#[export] Instance RenormSpec_eq_dec : EqDecision RenormSpec.
Proof. solve_decision. Defined.
#[export] Instance ReductionPlan_eq_dec : EqDecision ReductionPlan.
Proof. solve_decision. Defined.
#[export] Instance ReductionPlanFamily_eq_dec : EqDecision ReductionPlanFamily.
Proof. solve_decision. Defined.

(** ** Certificates *)

Inductive LengthField := ChunkLen | TileLen.

Inductive AccumulatorProofState :=
| PS_SumExceedsI16Envelope (sum_bound envelope : Z)
| PS_PerChunkExceedsI16Envelope (per_chunk_sum_bound envelope : Z)
| PS_CrossChunkExceedsI32Envelope (cross_chunk_sum_bound envelope : Z)
| PS_PerTileExceedsI16Envelope (per_tile_sum_bound envelope : Z)
| PS_LengthZero (length_field : LengthField)
| PS_ChunkLenExceedsProfileMax (chunk_len profile_chunk_max : Z)
| PS_TileLenBelowProfileMin (tile_len profile_tile_min : Z)
| PS_TileLenExceedsProfileMax (tile_len profile_tile_max : Z)
| PS_BitExactRequiresChunkDivides (term_count chunk_len : Z)
| PS_TileLenExceedsU16 (term_count : Z)
| PS_DeterminismRequiresEnforcedRenorm.

Inductive AccumulatorFailureWitness :=
| W_BoundCalculation (input_max_abs_q weight_max_abs_q term_count bias : Z)
| W_BitExactSaturationForbidden.

Record SingleProof := MkSingleProof {
  sp_site : ReductionSiteId;
  sp_term_count : Z;
  sp_per_term_abs_max : Z;
  sp_sum_bound : Z;
  sp_bias_abs_max : Z;
  sp_total_abs_max : Z;
  sp_i16_envelope : Z;
  sp_slack : Z;
}.
Record ChunkedProof := MkChunkedProof {
  cp_site : ReductionSiteId;
  cp_chunk_len : Z;
  cp_chunk_count : Z;
  cp_per_term_abs_max : Z;
  cp_per_chunk_sum_bound : Z;
  cp_per_chunk_i16_slack : Z;
  cp_cross_chunk_sum_bound : Z;
  cp_bias_abs_max : Z;
  cp_total_abs_max : Z;
  cp_i32_envelope : Z;
  cp_slack : Z;
}.
Record RenormProof := MkRenormProof {
  rp_site : ReductionSiteId;
  rp_tile_len : Z;
  rp_tile_count : Z;
  rp_per_term_abs_max : Z;
  rp_per_tile_sum_bound : Z;
  rp_per_tile_i16_slack : Z;
  rp_renorm : RenormSpec;
  rp_bias_abs_max : Z;
  rp_total_abs_max : Z;
  rp_slack : Z;
}.

(** The fields of the struct variants are records of their own. *)
Inductive AccumulatorCertificate :=
| SingleI16Proof (p : SingleProof)
| ChunkedI16Proof (p : ChunkedProof)
| RenormLoopProof (p : RenormProof)
| FailedProof (site : ReductionSiteId) (attempted_plan : ReductionPlan)
    (proof_state : AccumulatorProofState) (witness : AccumulatorFailureWitness).

Record CertifiedReduction := MkCertifiedReduction {
  cr_site : ReductionSiteId;
  cr_plan : ReductionPlan;
  cr_facts : ReductionSiteFacts;
  cr_proof : AccumulatorCertificate;
}.

Inductive CertOutcome := Outcome_Verified | Outcome_Failed.

#[export] Instance CertOutcome_eq_dec : EqDecision CertOutcome.
Proof. solve_decision. Defined.

Definition is_failed (cert : AccumulatorCertificate) : bool :=
  match cert with FailedProof _ _ _ _ => true | _ => false end.

(** ** Checked arithmetic *)

Definition I16_ENVELOPE_U64 : Z := 32767.
Definition I32_ENVELOPE_U64 : Z := 2147483647.

Definition checked_mul (m a b : Z) : option Z := if a * b <? m then Some (a * b) else None.
Definition checked_mul_u64 (a b : Z) : option Z := checked_mul U64 a b.
Definition checked_add_u64 (a b : Z) : option Z := checked_add U64 a b.

(** [unsigned is_multiple_of]: only zero is a multiple of zero. *)
Definition is_multiple_of (a b : Z) : bool := if b =? 0 then a =? 0 else a mod b =? 0.

(** [ceil_div_u64] and [ceil_div_u128]. *)
Definition ceil_div (numerator denominator : Z) : option Z :=
  if denominator =? 0 then None
  else Some (numerator / denominator + (if is_multiple_of numerator denominator then 0 else 1)).

Definition facts_bias_abs_max (f : ReductionSiteFacts) : Z := default 0 (rf_bias_max_abs_q f).

Definition rounding_error_q16_16 (rounding : RenormRounding) : Z :=
  match rounding with TowardZero => 0 | NearestEven => 1 end.

(** One turn of the loop over the tiles. *)
Definition renorm_tile_step (recurrence : RenormRecurrence) (per_tile_sum_bound rounding_error_units state : Z) : option Z :=
  pre_scale ← checked_add_u64 state per_tile_sum_bound;
  scaled_up ← checked_mul U128 pre_scale (rr_input_scale_q16_16 recurrence);
  scaled ← ceil_div scaled_up (rr_output_scale_q16_16 recurrence);
  scaled ← try_from_u U64 scaled;
  checked_add_u64 scaled rounding_error_units.

Fixpoint renorm_tiles (n : nat) (recurrence : RenormRecurrence) (per_tile_sum_bound rounding_error_units state : Z) : option Z :=
  match n with
  | O => Some state
  | S n' =>
      state ← renorm_tile_step recurrence per_tile_sum_bound rounding_error_units state;
      renorm_tiles n' recurrence per_tile_sum_bound rounding_error_units state
  end.

(** The same function, of producer and verifier; the strategy that the
    producer's copy also takes is not read. *)
Definition renorm_closed_form_bound (f : ReductionSiteFacts) (tile_len tile_count : Z) (recurrence : RenormRecurrence) : option Z :=
  if (tile_len =? 0) || (rr_output_scale_q16_16 recurrence =? 0) then None
  else
    count ← ceil_div (rf_term_count f) tile_len;
    if negb (count =? tile_count) then None
    else
      per_tile_sum_bound ← checked_mul_u64 tile_len (rf_per_term_abs_max_q f);
      rounding_error_units ← ceil_div (rr_max_rounding_error_q16_16 recurrence) 65536;
      state ← renorm_tiles (Z.to_nat tile_count) recurrence per_tile_sum_bound rounding_error_units 0;
      checked_add_u64 state (facts_bias_abs_max f).

(** Equality of an optional computed value with a claimed one. *)
Definition is_some_eq (o : option Z) (x : Z) : bool := match o with Some y => y =? x | None => false end.

Lemma is_some_eq_true o x : is_some_eq o x = true <-> o = Some x.
Proof. destruct o as [y|]; simpl; [rewrite Z.eqb_eq; split; congruence | split; discriminate]. Qed.

Lemma checked_mul_Some m a b c : checked_mul m a b = Some c <-> a * b < m /\ c = a * b.
Proof. unfold checked_mul. destruct (Z.ltb_spec (a * b) m); split; intros H'; try (destruct H'; lia); [injection H' as <-; done | by destruct H' as [_ ->] | discriminate]. Qed.

Lemma ceil_div_pos a b : 0 < b -> ceil_div a b = Some (div_ceil a b).
Proof.
  intros Hb. unfold ceil_div, div_ceil, is_multiple_of. rewrite (proj2 (Z.eqb_neq b 0)) by lia.
  f_equal. destruct (a mod b =? 0); lia.
Qed.
