(* ===== verification/RangePlan.v ===== *)
(** * Range planning ([gbf-codegen/src/s5/range_plan.rs])

    From the reduction sites of the inference IR and the facts of the static
    budget to a plan per site with a certificate: binding of sites, facts and
    ceilings, candidate plans, certificate construction and verification,
    choice of the first family that verifies, self-consistency rules.

    A diagnostic is the data its constructor receives; every one is hard.
    Tracing and the event log of the tests are left out.  Canonical JSON and
    SHA-256 are the class [RangeHashes]. *)

From S2P Require Import Prelude Numeric KnobLattice RangeCert.

(** ** Policy *)

Record RangePolicyProjection := MkRangePolicyProjection {
  pp_profile_id : string;
  pp_range_caps : RangeCapsSpec;
  pp_reduction_ceiling : ReductionPlanCeiling;
  pp_reduction_ceiling_overrides : gmap string ReductionPlanCeiling;
  pp_determinism_class : DeterminismClass;
}.

Inductive ReductionCeilingProvenance :=
| Ceiling_Global (source : PolicySource)
| Ceiling_LayerOverride (layer : Z) (source : PolicySource)
| Ceiling_SiteOverride (site : ReductionSiteId) (source : PolicySource).

(** ** The inference IR, as far as it is read *)

Inductive InferOp :=
| Op_Embedding (token_input : Z)
| Op_SequenceRead (slot : Z)
| Op_SequenceStep (layer : Z)
| Op_SequenceWrite (slot : Z)
| Op_RouterMatVec (layer : Z)
| Op_RouteTop1 (layer : Z)
| Op_SelectExpertTop1 (layer : Z)
| Op_ExpertMatVec (layer expert : Z) (slot : ExpertWeightSlot)
| Op_FfnActivation (layer expert : Z)
| Op_CombineResidual (layer : option Z) (site : ResidualSite)
| Op_Norm (plan : Z)
| Op_Classify
| Op_DecodeToken (plan : Z).

Definition op_tag (op : InferOp) : InferOpTag :=
  match op with
  | Op_Classify => Tag_Classify
  | Op_CombineResidual _ _ => Tag_CombineResidual
  | Op_DecodeToken _ => Tag_DecodeToken
  | Op_Embedding _ => Tag_Embedding
  | Op_ExpertMatVec _ _ _ => Tag_ExpertMatVec
  | Op_FfnActivation _ _ => Tag_FfnActivation
  | Op_Norm _ => Tag_Norm
  | Op_RouteTop1 _ => Tag_RouteTop1
  | Op_RouterMatVec _ => Tag_RouterMatVec
  | Op_SelectExpertTop1 _ => Tag_SelectExpertTop1
  | Op_SequenceRead _ => Tag_SequenceRead
  | Op_SequenceStep _ => Tag_SequenceStep
  | Op_SequenceWrite _ => Tag_SequenceWrite
  end.

Inductive QuantGraphEntityRef :=
| Qg_Embedding
| Qg_NormPlan (plan : Z)
| Qg_NormSite (site : NormSite)
| Qg_RouterLayer (layer : Z)
| Qg_RouterTensor (layer tensor : Z)
| Qg_RouterSelection (layer : Z)
| Qg_ExpertSection (layer expert : Z)
| Qg_ExpertTensor (layer expert : Z) (slot : ExpertWeightSlot) (tensor : Z)
| Qg_FfnActivationSite (layer expert : Z)
| Qg_ResidualSiteRef (layer : option Z) (site : ResidualSite)
| Qg_DecodePlan (plan : Z)
| Qg_ClassifyHead
| Qg_SequenceSlot (slot : Z)
| Qg_SequenceStep (layer : Z)
| Qg_TokenInput (token_input : Z).

Record InferNode := MkInferNode {
  in_node_id : Z;
  in_op : InferOp;
  in_reduction_site : option ReductionSiteId;
}.
Record GbInferIR := MkGbInferIR {
  ir_nodes : list InferNode;
  ir_provenance_nodes : gmap Z QuantGraphEntityRef;
  ir_determinism : DeterminismClass;
}.

(** ** The static budget, as far as it is read *)

Record ReductionSiteProjection := MkReductionSiteProjection {
  pj_site : ReductionSiteId;
  pj_layer : option Z;
  pj_expert : option Z;
  pj_term_count : Z;
  pj_input_max_abs_q : Z;
  pj_weight_max_abs_q : Z;
  pj_bias_max_abs_q : option Z;
  pj_accumulator_domain : AccumulatorDomain;
}.

Definition reduction_site_projection (budget : list ReductionSiteProjection) (site : ReductionSiteId) : option ReductionSiteProjection :=
  snd <$> list_find (fun p => pj_site p = site) budget.

(** ** Bindings and errors *)

Record ReductionSiteBinding := MkReductionSiteBinding {
  sb_node_id : Z;
  sb_site : ReductionSiteId;
  sb_qg_ref : QuantGraphEntityRef;
  sb_op_tag : InferOpTag;
  sb_slot : option ExpertWeightSlot;
  sb_norm_site : option NormSite;
}.
Record BoundReductionSiteFacts := MkBoundReductionSiteFacts {
  bf_binding : ReductionSiteBinding;
  bf_facts : ReductionSiteFacts;
}.
Record EffectiveCeilingBinding := MkEffectiveCeilingBinding {
  cb_site : ReductionSiteId;
  cb_facts : ReductionSiteFacts;
  cb_effective_ceiling : ReductionPlanCeiling;
  cb_provenance : ReductionCeilingProvenance;
}.

Inductive RangePlanConstructionError :=
| RC_DeterminismMismatch (projection infer_ir : DeterminismClass)
| RC_RangePolicyProjectionHash
| RC_DuplicateReductionSiteId (site : ReductionSiteId) (first_node duplicate_node : Z)
| RC_TermCountZero (site : ReductionSiteId)
| RC_AccumulatorDomainUnsupportedV1 (site : ReductionSiteId) (accumulator_domain : AccumulatorDomain)
| RC_SiteMissingFromStaticBudget (site : ReductionSiteId) (node : Z)
| RC_StaticBudgetSiteOrphaned (site : ReductionSiteId)
| RC_SiteFactsInconsistent (site : ReductionSiteId) (computed : option Z) (published : Z)
| RC_CeilingOverrideInvalidSelector (selector : string)
| RC_CeilingOverrideAmbiguous (site : ReductionSiteId) (selectors : list string)
| RC_IntegerOverflowDuringProof (site : option ReductionSiteId) (field : string).

(** A [BTreeMap] in key order. *)
Definition sorted_items {A} (m : gmap string A) : list (string * A) :=
  sort_by (fun a b => String.leb a.1 b.1) (map_to_list m).

Definition expert_weight_slot_for_op (op : InferOp) : option ExpertWeightSlot :=
  match op with Op_ExpertMatVec _ _ slot => Some slot | _ => None end.
Definition norm_site_for_qg_ref (qg_ref : QuantGraphEntityRef) : option NormSite :=
  match qg_ref with Qg_NormSite site => Some site | _ => None end.

(** [insert] happens before the duplicate is reported. *)
Definition enumerate_node (g : GbInferIR) (by_site : gmap string ReductionSiteBinding) (node : InferNode)
    : outcome RangePlanConstructionError (gmap string ReductionSiteBinding) :=
  match in_reduction_site node with
  | None => Ok by_site
  | Some site =>
      let* qg_ref := expect (ir_provenance_nodes g !! in_node_id node) in
      let binding := MkReductionSiteBinding (in_node_id node) site qg_ref (op_tag (in_op node))
                       (expert_weight_slot_for_op (in_op node)) (norm_site_for_qg_ref qg_ref) in
      match by_site !! site with
      | Some previous => Err (RC_DuplicateReductionSiteId site (sb_node_id previous) (in_node_id node))
      | None => Ok (<[site := binding]> by_site)
      end
  end.
Definition enumerate_reduction_sites (g : GbInferIR) : outcome RangePlanConstructionError (list ReductionSiteBinding) :=
  let* by_site := ofold (enumerate_node g) ∅ (ir_nodes g) in
  Ok (map snd (sorted_items by_site)).

(** ** Facts *)

Inductive PerTermAbsMaxError :=
| PT_Inconsistent (computed : option Z) (published : Z)
| PT_Overflow.

(** The [u128] product of two [u32] fields; a published value wins unless the
    computed one contradicts it. *)
Definition checked_per_term_abs_max_q (input_max_abs_q weight_max_abs_q : Z) (published : option Z) : outcome PerTermAbsMaxError Z :=
  let computed := value ← checked_mul U128 input_max_abs_q weight_max_abs_q; try_from_u U64 value in
  match published, computed with
  | Some published, Some computed =>
      if negb (published =? computed) then Err (PT_Inconsistent (Some computed) published) else Ok published
  | Some published, None => Ok published
  | None, Some computed => Ok computed
  | None, None => Err PT_Overflow
  end.

Definition per_term_error (site : ReductionSiteId) (e : PerTermAbsMaxError) : RangePlanConstructionError :=
  match e with
  | PT_Inconsistent computed published => RC_SiteFactsInconsistent site computed published
  | PT_Overflow => RC_IntegerOverflowDuringProof (Some site) "static_budget.reduction_site.per_term_abs_max_q"
  end.

Definition reduction_site_facts_from_projection_with_published (binding : ReductionSiteBinding)
    (projection : ReductionSiteProjection) (published : option Z) : outcome RangePlanConstructionError ReductionSiteFacts :=
  let* _ := guard_err (pj_term_count projection =? 0) (RC_TermCountZero (sb_site binding)) in
  let* _ := guard_err (negb (bool_decide (pj_accumulator_domain projection = RawIntegerProducts)))
              (RC_AccumulatorDomainUnsupportedV1 (sb_site binding) (pj_accumulator_domain projection)) in
  let* per_term := map_err (per_term_error (sb_site binding))
                     (checked_per_term_abs_max_q (pj_input_max_abs_q projection) (pj_weight_max_abs_q projection) published) in
  Ok (MkReductionSiteFacts (pj_site projection) (pj_layer projection) (pj_expert projection) (sb_slot binding)
        (sb_norm_site binding) (pj_term_count projection) (pj_input_max_abs_q projection) (pj_weight_max_abs_q projection)
        per_term (pj_bias_max_abs_q projection) (pj_accumulator_domain projection) (sb_op_tag binding)).
Definition reduction_site_facts_from_projection (binding : ReductionSiteBinding) (projection : ReductionSiteProjection) :=
  reduction_site_facts_from_projection_with_published binding projection None.

Definition bind_site (budget : list ReductionSiteProjection) (binding : ReductionSiteBinding)
    : outcome RangePlanConstructionError BoundReductionSiteFacts :=
  let* projection := ok_or (reduction_site_projection budget (sb_site binding))
                       (RC_SiteMissingFromStaticBudget (sb_site binding) (sb_node_id binding)) in
  let* facts := reduction_site_facts_from_projection binding projection in
  Ok (MkBoundReductionSiteFacts binding facts).
Definition bind_reduction_site_facts (sites : list ReductionSiteBinding) (budget : list ReductionSiteProjection)
    (budget_site_ids : list ReductionSiteId) : outcome RangePlanConstructionError (list BoundReductionSiteFacts) :=
  let* _ := ofold (fun _ site => guard_err (negb (bool_decide (site ∈ map sb_site sites))) (RC_StaticBudgetSiteOrphaned site))
              tt budget_site_ids in
  omapM (bind_site budget) sites.
Definition bind_reduction_site_facts_for_report (sites : list ReductionSiteBinding) (budget : list ReductionSiteProjection) :=
  bind_reduction_site_facts sites budget (map pj_site budget).

(** ** Ceilings *)

Inductive ParsedReductionSelector := Parsed_Site (site : ReductionSiteId) | Parsed_Layer (layer : Z).

Definition parse_reduction_selector (selector : string) : option ParsedReductionSelector :=
  let raw := str_trim selector in
  if str_is_empty raw then None
  else match strip_prefix "site:" raw with
  | Some site => if str_is_empty site then None else Some (Parsed_Site site)
  | None =>
      match strip_prefix "layer:" raw with
      | Some layer => layer ← parse_unsigned U16 layer; Some (Parsed_Layer layer)
      | None => Some (Parsed_Site raw)
      end
  end.

Record ResolvedCeilingOverride := MkResolvedCeilingOverride {
  ro_selector : string;
  ro_target : ParsedReductionSelector;
  ro_ceiling : ReductionPlanCeiling;
}.

(** The source keeps the site, the layer and which of the two is meant. *)
Definition matches_site (r : ResolvedCeilingOverride) (f : ReductionSiteFacts) : bool :=
  match ro_target r with Parsed_Site site => bool_decide (site = rf_site f) | Parsed_Layer _ => false end.
Definition matches_layer (r : ResolvedCeilingOverride) (f : ReductionSiteFacts) : bool :=
  match ro_target r with Parsed_Site _ => false | Parsed_Layer layer => bool_decide (Some layer = rf_layer f) end.

Definition resolve_override (bound : list BoundReductionSiteFacts) (o : string * ReductionPlanCeiling)
    : outcome RangePlanConstructionError ResolvedCeilingOverride :=
  let '(selector, ceiling) := o in
  match parse_reduction_selector selector with
  | Some (Parsed_Site site) =>
      if bool_decide (site ∈ map (fun b => rf_site (bf_facts b)) bound)
      then Ok (MkResolvedCeilingOverride selector (Parsed_Site site) ceiling)
      else Err (RC_CeilingOverrideInvalidSelector selector)
  | Some (Parsed_Layer layer) =>
      if bool_decide (Some layer ∈ map (fun b => rf_layer (bf_facts b)) bound)
      then Ok (MkResolvedCeilingOverride selector (Parsed_Layer layer) ceiling)
      else Err (RC_CeilingOverrideInvalidSelector selector)
  | None => Err (RC_CeilingOverrideInvalidSelector selector)
  end.
Definition parse_and_resolve_ceiling_overrides (bound : list BoundReductionSiteFacts) (projection : RangePolicyProjection)
    : outcome RangePlanConstructionError (list ResolvedCeilingOverride) :=
  omapM (resolve_override bound) (sorted_items (pp_reduction_ceiling_overrides projection)).

Definition bind_ceiling (projection : RangePolicyProjection) (selectors : list ResolvedCeilingOverride)
    (bound : BoundReductionSiteFacts) : outcome RangePlanConstructionError EffectiveCeilingBinding :=
  let facts := bf_facts bound in
  let site := rf_site facts in
  let site_matches := List.filter (fun r => matches_site r facts) selectors in
  let layer_matches := List.filter (fun r => matches_layer r facts) selectors in
  let* (ceiling, provenance) :=
    match site_matches, layer_matches with
    | _ :: _ :: _, _ => Err (RC_CeilingOverrideAmbiguous site (map ro_selector site_matches))
    | [resolved], _ => Ok (ro_ceiling resolved, Ceiling_SiteOverride site CompileRequestOverride)
    | [], _ :: _ :: _ => Err (RC_CeilingOverrideAmbiguous site (map ro_selector layer_matches))
    | [], [resolved] =>
        let* layer := expect (match ro_target resolved with Parsed_Layer layer => Some layer | _ => None end) in
        Ok (ro_ceiling resolved, Ceiling_LayerOverride layer CompileRequestOverride)
    | [], [] => Ok (pp_reduction_ceiling projection, Ceiling_Global ProfileDefault)
    end in
  Ok (MkEffectiveCeilingBinding site facts ceiling provenance).
Definition bind_effective_ceilings (bound : list BoundReductionSiteFacts) (projection : RangePolicyProjection)
    : outcome RangePlanConstructionError (list EffectiveCeilingBinding) :=
  let* selectors := parse_and_resolve_ceiling_overrides bound projection in
  omapM (bind_ceiling projection selectors) bound.

(** ** Plan lengths and candidates *)

Inductive PlanLengthSelectionError :=
| PL_PerChunkExceedsI16Envelope (per_chunk_sum_bound envelope : Z)
| PL_ChunkLenExceedsProfileMax (chunk_len profile_chunk_max : Z)
| PL_BitExactRequiresChunkDivides (term_count chunk_len : Z)
| PL_BitExactRenormLoopReservedV1
| PL_PerTileExceedsI16Envelope (per_tile_sum_bound envelope : Z)
| PL_TileLenBelowProfileMin (tile_len profile_tile_min : Z)
| PL_TileLenExceedsProfileMax (tile_len profile_tile_max : Z)
| PL_TileLenExceedsU16 (term_count : Z).

Record SelectedLength := MkSelectedLength { sl_len : Z; sl_max_safe : Z; sl_profile_max : Z }.

(** [1 << (63 - leading_zeros(capped))]. *)
Definition max_pow2_le (max : Z) : option Z :=
  if max =? 0 then None else try_from_u U16 (Z.shiftl 1 (Z.log2 (Z.min max (U16 - 1)))).

Fixpoint pow2_divisor_loop {E} (fuel : nat) (term_count candidate : Z) : outcome E (option Z) :=
  match fuel with
  | O => NoFuel
  | S fuel' =>
      if is_multiple_of term_count candidate then Ok (Some candidate)
      else if candidate =? 1 then Ok None
      else pow2_divisor_loop fuel' term_count (candidate / 2)
  end.

(** Sixteen halvings take any [u16] power of two to one. *)
Definition max_pow2_divisor_le {E} (term_count max : Z) : outcome E (option Z) :=
  match max_pow2_le max with
  | None => Ok None
  | Some candidate => pow2_divisor_loop 17 term_count candidate
  end.

Fixpoint pow2_between_loop {E} (fuel : nat) (min max candidate : Z) : outcome E (option Z) :=
  match fuel with
  | O => NoFuel
  | S fuel' =>
      if candidate <? min then
        match checked_mul U16 candidate 2 with
        | None => Ok None
        | Some next => if max <? next then Ok None else pow2_between_loop fuel' min max next
        end
      else Ok (Some candidate)
  end.

(** Sixteen doublings leave the [u16] range. *)
Definition max_pow2_between {E} (min max : Z) : outcome E (option Z) :=
  match max_pow2_le max with
  | None => Ok None
  | Some candidate => pow2_between_loop 17 min max candidate
  end.

(** [u64::checked_div]. *)
Definition checked_div (a b : Z) : option Z := if b =? 0 then None else Some (a / b).

Definition choose_chunk_len_with_bounds `{BuildProfile} (f : ReductionSiteFacts) (caps : RangeCapsSpec)
    (determinism : DeterminismClass) : outcome PlanLengthSelectionError SelectedLength :=
  let* _ := guard_err (profile_chunk_max caps =? 0) (PL_ChunkLenExceedsProfileMax 1 (profile_chunk_max caps)) in
  let* _ := guard_err (bool_decide (determinism = BitExact) && (rf_term_count f =? 0))
              (PL_BitExactRequiresChunkDivides (rf_term_count f) 1) in
  let* max_safe :=
    match checked_div I16_ENVELOPE_U64 (rf_per_term_abs_max_q f) with
    | None => Ok (profile_chunk_max caps)
    | Some raw_max_safe =>
        if raw_max_safe =? 0 then Err (PL_PerChunkExceedsI16Envelope (rf_per_term_abs_max_q f) I16_ENVELOPE_U64)
        else Ok (Z.min raw_max_safe (profile_chunk_max caps))
    end in
  let* found :=
    match determinism with
    | BitExact => max_pow2_divisor_le (rf_term_count f) max_safe
    | Deterministic | Nondeterministic => Ok (max_pow2_le max_safe)
    end in
  let* len := ok_or found (PL_BitExactRequiresChunkDivides (rf_term_count f) (Z.min max_safe (U16 - 1))) in
  let* _ := debug_assert (len <=? profile_chunk_max caps) in
  Ok (MkSelectedLength len max_safe (profile_chunk_max caps)).

Definition choose_tile_len_with_bounds (f : ReductionSiteFacts) (caps : RangeCapsSpec)
    : outcome PlanLengthSelectionError SelectedLength :=
  let* _ := guard_err (profile_tile_max caps <? profile_tile_min caps)
              (PL_TileLenExceedsProfileMax (profile_tile_min caps) (profile_tile_max caps)) in
  let* margin_abs :=
    match renorm_strategy caps with
    | Policy_ExactPostBoundaryOnly => Ok 0
    | Policy_DynamicMargin margin => let* prod := umul U64 I16_ENVELOPE_U64 margin in Ok (prod / 65536)
    end in
  let safe_envelope := Z.max (I16_ENVELOPE_U64 - margin_abs) 0 in
  if rf_per_term_abs_max_q f =? 0
  then Ok (MkSelectedLength (profile_tile_min caps) (profile_tile_max caps) (profile_tile_max caps))
  else
    let raw_max_safe :=
      match checked_div safe_envelope (rf_per_term_abs_max_q f) with None => profile_tile_max caps | Some raw => raw end in
    let* _ := guard_err (raw_max_safe =? 0) (PL_PerTileExceedsI16Envelope (rf_per_term_abs_max_q f) safe_envelope) in
    let* _ := guard_err (raw_max_safe <? profile_tile_min caps)
                (PL_PerTileExceedsI16Envelope
                   (default (U64 - 1) (checked_mul_u64 (profile_tile_min caps) (rf_per_term_abs_max_q f))) safe_envelope) in
    let max_safe := Z.min raw_max_safe (profile_tile_max caps) in
    let* found := max_pow2_between (profile_tile_min caps) max_safe in
    let* len := ok_or found (PL_TileLenBelowProfileMin (Z.min max_safe (U16 - 1)) (profile_tile_min caps)) in
    Ok (MkSelectedLength len max_safe (profile_tile_max caps)).

Definition choose_chunk_len `{BuildProfile} (f : ReductionSiteFacts) (caps : RangeCapsSpec) (determinism : DeterminismClass)
    : outcome PlanLengthSelectionError Z :=
  let* selection := choose_chunk_len_with_bounds f caps determinism in Ok (sl_len selection).
Definition choose_tile_len (f : ReductionSiteFacts) (caps : RangeCapsSpec) (determinism : DeterminismClass)
    : outcome PlanLengthSelectionError Z :=
  let* _ := guard_err (bool_decide (determinism = BitExact)) PL_BitExactRenormLoopReservedV1 in
  let* selection := choose_tile_len_with_bounds f caps in Ok (sl_len selection).

Definition named_numeric_boundary_for_facts (f : ReductionSiteFacts) : NamedNumericBoundary :=
  match rf_op_tag f, rf_layer f, rf_expert f with
  | Tag_Classify, _, _ => NB_ClassifyLogit
  | Tag_ExpertMatVec, Some layer, Some expert => NB_FfnActivationOutput layer expert
  | _, _, _ => NB_FinalClamp
  end.

Definition renorm_spec_for_policy (f : ReductionSiteFacts) (policy : RenormStrategyPolicy) : RenormSpec :=
  MkRenormSpec
    (match policy with Policy_ExactPostBoundaryOnly => ExactPostBoundary | Policy_DynamicMargin m => DynamicMargin m end)
    (MkRenormRecurrence 65536
       (match policy with Policy_ExactPostBoundaryOnly => 65536 | Policy_DynamicMargin _ => 1048576 end)
       NearestEven (Sat_AtNamedNumericBoundary (named_numeric_boundary_for_facts f)) 1).

Definition candidate_families_under_ceiling (ceiling : ReductionPlanCeiling) : list ReductionPlanFamily :=
  match ceiling with
  | ExactOnly => [Family_SingleI16]
  | Conservative => [Family_SingleI16; Family_ChunkedI16]
  | Adaptive => [Family_SingleI16; Family_ChunkedI16; Family_RenormLoop]
  end.

Definition canonical_candidate_for_family `{BuildProfile} (family : ReductionPlanFamily) (f : ReductionSiteFacts)
    (caps : RangeCapsSpec) (determinism : DeterminismClass) : outcome PlanLengthSelectionError ReductionPlan :=
  match family with
  | Family_SingleI16 => Ok SingleI16
  | Family_ChunkedI16 => let* chunk_len := choose_chunk_len f caps determinism in Ok (ChunkedI16 chunk_len)
  | Family_RenormLoop =>
      let* tile_len := choose_tile_len f caps determinism in
      Ok (RenormLoop tile_len (renorm_spec_for_policy f (renorm_strategy caps)))
  end.

Record PlanCandidateGeneration := MkPlanCandidateGeneration {
  pg_site : ReductionSiteId;
  pg_candidate_families : list ReductionPlanFamily;
  pg_candidates : list ReductionPlan;
  pg_rejections : list (ReductionPlanFamily * PlanLengthSelectionError);
}.

(** [match r { Ok(..) => .., Err(..) => .. }]: a panic is neither. *)
Definition try_result {E F A} (m : outcome E A) : outcome F (A + E) :=
  match m with Ok a => Ok (inl a) | Err e => Ok (inr e) | Panic => Panic | NoFuel => NoFuel end.

Definition generate_family {E} `{BuildProfile} (f : ReductionSiteFacts) (caps : RangeCapsSpec) (determinism : DeterminismClass)
    (acc : list ReductionPlan * list (ReductionPlanFamily * PlanLengthSelectionError)) (family : ReductionPlanFamily)
    : outcome E (list ReductionPlan * list (ReductionPlanFamily * PlanLengthSelectionError)) :=
  let '(candidates, rejections) := acc in
  let* r := try_result (canonical_candidate_for_family family f caps determinism) in
  match r with
  | inl candidate => Ok (candidates ++ [candidate], rejections)
  | inr error => Ok (candidates, rejections ++ [(family, error)])
  end.
Definition generate_plan_candidates {E} `{BuildProfile} (f : ReductionSiteFacts) (ceiling : ReductionPlanCeiling)
    (caps : RangeCapsSpec) (determinism : DeterminismClass) : outcome E PlanCandidateGeneration :=
  let families := candidate_families_under_ceiling ceiling in
  let* (candidates, rejections) := ofold (generate_family f caps determinism) ([], []) families in
  Ok (MkPlanCandidateGeneration (rf_site f) families candidates rejections).

(** ** Certificates *)

Definition failed_certificate_with_witness (plan : ReductionPlan) (f : ReductionSiteFacts)
    (proof_state : AccumulatorProofState) (witness : AccumulatorFailureWitness) : AccumulatorCertificate :=
  FailedProof (rf_site f) plan proof_state witness.
Definition failed_certificate (plan : ReductionPlan) (f : ReductionSiteFacts) (proof_state : AccumulatorProofState) : AccumulatorCertificate :=
  failed_certificate_with_witness plan f proof_state
    (W_BoundCalculation (rf_input_max_abs_q f) (rf_weight_max_abs_q f) (rf_term_count f) (default 0 (rf_bias_max_abs_q f))).

Definition construct_single_i16_certificate (plan : ReductionPlan) (f : ReductionSiteFacts) : AccumulatorCertificate :=
  let overflow := failed_certificate plan f (PS_SumExceedsI16Envelope (U64 - 1) I16_ENVELOPE_U64) in
  let term_count := rf_term_count f in
  let per_term_abs_max := rf_per_term_abs_max_q f in
  match checked_mul_u64 term_count per_term_abs_max with
  | None => overflow
  | Some sum_bound =>
      let bias_abs_max := facts_bias_abs_max f in
      match checked_add_u64 sum_bound bias_abs_max with
      | None => overflow
      | Some total_abs_max =>
          if I16_ENVELOPE_U64 <? total_abs_max
          then failed_certificate plan f (PS_SumExceedsI16Envelope total_abs_max I16_ENVELOPE_U64)
          else SingleI16Proof (MkSingleProof (rf_site f) term_count per_term_abs_max sum_bound bias_abs_max total_abs_max
                 I16_ENVELOPE_U64 (I16_ENVELOPE_U64 - total_abs_max))
      end
  end.

Definition construct_chunked_i16_certificate {E} (chunk_len : Z) (plan : ReductionPlan) (f : ReductionSiteFacts)
    (determinism : DeterminismClass) : outcome E AccumulatorCertificate :=
  let failed state := Ok (failed_certificate plan f state) in
  let per_term_abs_max := rf_per_term_abs_max_q f in
  if chunk_len =? 0 then failed (PS_LengthZero ChunkLen)
  else if bool_decide (determinism = BitExact) && negb (is_multiple_of (rf_term_count f) chunk_len)
  then failed (PS_BitExactRequiresChunkDivides (rf_term_count f) chunk_len)
  else match checked_mul_u64 chunk_len per_term_abs_max with
  | None => failed (PS_PerChunkExceedsI16Envelope (U64 - 1) I16_ENVELOPE_U64)
  | Some per_chunk_sum_bound =>
      if I16_ENVELOPE_U64 <? per_chunk_sum_bound
      then failed (PS_PerChunkExceedsI16Envelope per_chunk_sum_bound I16_ENVELOPE_U64)
      else match checked_mul_u64 (rf_term_count f) per_term_abs_max with
      | None => failed (PS_CrossChunkExceedsI32Envelope (U64 - 1) I32_ENVELOPE_U64)
      | Some cross_chunk_sum_bound =>
          let bias_abs_max := facts_bias_abs_max f in
          match checked_add_u64 cross_chunk_sum_bound bias_abs_max with
          | None => failed (PS_CrossChunkExceedsI32Envelope (U64 - 1) I32_ENVELOPE_U64)
          | Some total_abs_max =>
              if I32_ENVELOPE_U64 <? total_abs_max
              then failed (PS_CrossChunkExceedsI32Envelope total_abs_max I32_ENVELOPE_U64)
              else
                let* chunk_count := expect (ceil_div (rf_term_count f) chunk_len) in
                Ok (ChunkedI16Proof (MkChunkedProof (rf_site f) chunk_len chunk_count per_term_abs_max per_chunk_sum_bound
                      (I16_ENVELOPE_U64 - per_chunk_sum_bound) cross_chunk_sum_bound bias_abs_max total_abs_max
                      I32_ENVELOPE_U64 (I32_ENVELOPE_U64 - total_abs_max)))
          end
      end
  end.

Definition construct_renorm_loop_certificate {E} (tile_len : Z) (renorm : RenormSpec) (plan : ReductionPlan)
    (f : ReductionSiteFacts) (determinism : DeterminismClass) : outcome E AccumulatorCertificate :=
  let failed state := Ok (failed_certificate plan f state) in
  if bool_decide (determinism = BitExact)
  then Ok (failed_certificate_with_witness plan f PS_DeterminismRequiresEnforcedRenorm W_BitExactSaturationForbidden)
  else if tile_len =? 0 then failed (PS_LengthZero TileLen)
  else match checked_mul_u64 tile_len (rf_per_term_abs_max_q f) with
  | None => failed (PS_PerTileExceedsI16Envelope (U64 - 1) I16_ENVELOPE_U64)
  | Some per_tile_sum_bound =>
      if I16_ENVELOPE_U64 <? per_tile_sum_bound
      then failed (PS_PerTileExceedsI16Envelope per_tile_sum_bound I16_ENVELOPE_U64)
      else
        let* tile_count := expect (ceil_div (rf_term_count f) tile_len) in
        match renorm_closed_form_bound f tile_len tile_count (rs_recurrence renorm) with
        | None => failed (PS_SumExceedsI16Envelope (U64 - 1) I16_ENVELOPE_U64)
        | Some total_abs_max =>
            if I16_ENVELOPE_U64 <? total_abs_max
            then failed (PS_SumExceedsI16Envelope total_abs_max I16_ENVELOPE_U64)
            else Ok (RenormLoopProof (MkRenormProof (rf_site f) tile_len tile_count (rf_per_term_abs_max_q f) per_tile_sum_bound
                   (I16_ENVELOPE_U64 - per_tile_sum_bound) renorm (facts_bias_abs_max f) total_abs_max
                   (I16_ENVELOPE_U64 - total_abs_max)))
        end
  end.

Definition construct_accumulator_certificate {E} (plan : ReductionPlan) (f : ReductionSiteFacts)
    (determinism : DeterminismClass) : outcome E AccumulatorCertificate :=
  match plan with
  | SingleI16 => Ok (construct_single_i16_certificate plan f)
  | ChunkedI16 chunk_len => construct_chunked_i16_certificate chunk_len plan f determinism
  | RenormLoop tile_len renorm => construct_renorm_loop_certificate tile_len renorm plan f determinism
  end.

(** [u64::checked_sub]. *)
Definition checked_sub (a b : Z) : option Z := if b <=? a then Some (a - b) else None.

Definition renorm_recurrence_verifies (f : ReductionSiteFacts) (tile_len tile_count : Z) (recurrence : RenormRecurrence)
    (claimed_total_abs_max : Z) : bool :=
  bool_decide (rf_accumulator_domain f = RawIntegerProducts)
  && (0 <? rr_output_scale_q16_16 recurrence)
  && (rr_max_rounding_error_q16_16 recurrence =? rounding_error_q16_16 (rr_rounding recurrence))
  && is_some_eq (renorm_closed_form_bound f tile_len tile_count recurrence) claimed_total_abs_max.

(** [verifies_impl]: the plan is read field by field before the conjunction. *)
Definition verifies (cert : AccumulatorCertificate) (plan : ReductionPlan) (f : ReductionSiteFacts)
    (determinism : DeterminismClass) : bool :=
  if negb (bool_decide (rf_accumulator_domain f = RawIntegerProducts)) then false
  else match cert with
  | SingleI16Proof p =>
      bool_decide (sp_site p = rf_site f)
      && (sp_term_count p =? rf_term_count f)
      && (sp_per_term_abs_max p =? rf_per_term_abs_max_q f)
      && is_some_eq (checked_mul_u64 (sp_term_count p) (sp_per_term_abs_max p)) (sp_sum_bound p)
      && (sp_bias_abs_max p =? facts_bias_abs_max f)
      && is_some_eq (checked_add_u64 (sp_sum_bound p) (sp_bias_abs_max p)) (sp_total_abs_max p)
      && (sp_i16_envelope p =? I16_ENVELOPE_U64)
      && (sp_total_abs_max p <=? sp_i16_envelope p)
      && is_some_eq (checked_sub (sp_i16_envelope p) (sp_total_abs_max p)) (sp_slack p)
      && match plan with SingleI16 => true | _ => false end
  | ChunkedI16Proof p =>
      let plan_chunk_len := match plan with ChunkedI16 chunk_len => Some chunk_len | _ => None end in
      (0 <? cp_chunk_len p)
      && bool_decide (cp_site p = rf_site f)
      && is_some_eq plan_chunk_len (cp_chunk_len p)
      && is_some_eq (ceil_div (rf_term_count f) (cp_chunk_len p)) (cp_chunk_count p)
      && (cp_per_term_abs_max p =? rf_per_term_abs_max_q f)
      && is_some_eq (checked_mul_u64 (cp_chunk_len p) (cp_per_term_abs_max p)) (cp_per_chunk_sum_bound p)
      && (cp_per_chunk_sum_bound p <=? I16_ENVELOPE_U64)
      && is_some_eq (checked_sub I16_ENVELOPE_U64 (cp_per_chunk_sum_bound p)) (cp_per_chunk_i16_slack p)
      && (negb (bool_decide (determinism = BitExact)) || is_multiple_of (rf_term_count f) (cp_chunk_len p))
      && is_some_eq (checked_mul_u64 (rf_term_count f) (cp_per_term_abs_max p)) (cp_cross_chunk_sum_bound p)
      && (cp_bias_abs_max p =? facts_bias_abs_max f)
      && is_some_eq (checked_add_u64 (cp_cross_chunk_sum_bound p) (cp_bias_abs_max p)) (cp_total_abs_max p)
      && (cp_i32_envelope p =? I32_ENVELOPE_U64)
      && (cp_total_abs_max p <=? cp_i32_envelope p)
      && is_some_eq (checked_sub (cp_i32_envelope p) (cp_total_abs_max p)) (cp_slack p)
  | RenormLoopProof p =>
      if bool_decide (determinism = BitExact) then false
      else
        let '(plan_tile_len, plan_renorm) :=
          match plan with RenormLoop tile_len renorm => (Some tile_len, Some renorm) | _ => (None, None) end in
        (0 <? rp_tile_len p)
        && bool_decide (rp_site p = rf_site f)
        && is_some_eq plan_tile_len (rp_tile_len p)
        && bool_decide (plan_renorm = Some (rp_renorm p))
        && is_some_eq (ceil_div (rf_term_count f) (rp_tile_len p)) (rp_tile_count p)
        && (rp_per_term_abs_max p =? rf_per_term_abs_max_q f)
        && is_some_eq (checked_mul_u64 (rp_tile_len p) (rp_per_term_abs_max p)) (rp_per_tile_sum_bound p)
        && (rp_per_tile_sum_bound p <=? I16_ENVELOPE_U64)
        && is_some_eq (checked_sub I16_ENVELOPE_U64 (rp_per_tile_sum_bound p)) (rp_per_tile_i16_slack p)
        && (rp_bias_abs_max p =? facts_bias_abs_max f)
        && renorm_recurrence_verifies f (rp_tile_len p) (rp_tile_count p) (rs_recurrence (rp_renorm p)) (rp_total_abs_max p)
        && (rp_total_abs_max p <=? I16_ENVELOPE_U64)
        && is_some_eq (checked_sub I16_ENVELOPE_U64 (rp_total_abs_max p)) (rp_slack p)
  | FailedProof _ _ _ _ => false
  end.

Definition verifies_for {E} (plan : ReductionPlan) (f : ReductionSiteFacts) (determinism : DeterminismClass) : outcome E bool :=
  let* cert := construct_accumulator_certificate plan f determinism in
  Ok (negb (is_failed cert) && verifies cert plan f determinism).

(** ** Choice *)

Inductive RangeDiagnostic :=
| RD_Construction (e : RangePlanConstructionError)
| RD_PlanChoice (site : ReductionSiteId) (code : string)
| RD_SelfConsistency (field : string).

Definition has_hard_diagnostic (diagnostics : list RangeDiagnostic) : bool := existsb (fun _ => true) diagnostics.

Record CertificateConstruction := MkCertificateConstruction { cc_plan : ReductionPlan; cc_certificate : AccumulatorCertificate }.
Record PlanChoice := MkPlanChoice {
  pc_site : ReductionSiteId;
  pc_chosen : option CertifiedReduction;
  pc_attempts : list CertificateConstruction;
  pc_diagnostics : list RangeDiagnostic;
}.

(** The derived order of the families. *)
Definition family_rank (family : ReductionPlanFamily) : Z :=
  match family with Family_SingleI16 => 0 | Family_ChunkedI16 => 1 | Family_RenormLoop => 2 end.

Definition plan_choice_failure_code {E} `{BuildProfile} (binding : EffectiveCeilingBinding) (caps : RangeCapsSpec)
    (determinism : DeterminismClass) : outcome E string :=
  match cb_effective_ceiling binding with
  | ExactOnly => Ok "RANGE-CEILING-VIOLATED-SINGLE-I16-ONLY"
  | Conservative =>
      let* r := try_result (canonical_candidate_for_family Family_RenormLoop (cb_facts binding) caps determinism) in
      let* renorm_ok :=
        match r with inl renorm => verifies_for renorm (cb_facts binding) determinism | inr _ => Ok false end in
      Ok (if renorm_ok then "RANGE-CEILING-VIOLATED-NO-RENORM-LOOP" else "RANGE-NO-PROVEN-PLAN-WITHIN-CEILING")
  | Adaptive => Ok "RANGE-NO-PROVEN-PLAN-WITHIN-CEILING"
  end.

Definition attempt {E} (f : ReductionSiteFacts) (determinism : DeterminismClass) (plan : ReductionPlan) : outcome E CertificateConstruction :=
  let* certificate := construct_accumulator_certificate plan f determinism in
  Ok (MkCertificateConstruction plan certificate).

Definition choose_plan {E} `{BuildProfile} (binding : EffectiveCeilingBinding) (generation : PlanCandidateGeneration)
    (caps : RangeCapsSpec) (determinism : DeterminismClass) : outcome E PlanChoice :=
  let f := cb_facts binding in
  let* attempts := omapM (attempt f determinism) (pg_candidates generation) in
  let attempts := sort_by (fun a b => family_rank (plan_family (cc_plan a)) <=? family_rank (plan_family (cc_plan b))) attempts in
  let chosen :=
    (fun a => MkCertifiedReduction (cb_site binding) (cc_plan a) f (cc_certificate a)) <$>
    List.find (fun a => verifies (cc_certificate a) (cc_plan a) f determinism) attempts in
  let* diagnostics :=
    match chosen with
    | Some _ => Ok []
    | None =>
        let* code := plan_choice_failure_code binding caps determinism in
        Ok [RD_PlanChoice (cb_site binding) code]
    end in
  Ok (MkPlanChoice (cb_site binding) chosen attempts diagnostics).

(** ** Products *)

Abbreviation Hash256 := Z (only parsing).

Record RangePlanIdentity := MkRangePlanIdentity {
  ri_infer_ir_self_hash : Hash256;
  ri_quant_graph_self_hash : Hash256;
  ri_static_budget_self_hash : Hash256;
  ri_range_policy_projection_hash : Hash256;
  ri_determinism : DeterminismClass;
}.
Record RangePlanEntry := MkRangePlanEntry {
  re_site : ReductionSiteId;
  re_plan : ReductionPlan;
  re_site_facts : ReductionSiteFacts;
  re_effective_ceiling : ReductionPlanCeiling;
  re_ceiling_provenance : ReductionCeilingProvenance;
}.
Record RangePlanProvenance := MkRangePlanProvenance {
  rv_site_to_node : gmap string Z;
  rv_site_to_qg : gmap string QuantGraphEntityRef;
}.
Record RangePlan := MkRangePlan {
  rg_identity : RangePlanIdentity;
  rg_entries : list RangePlanEntry;
  rg_provenance : RangePlanProvenance;
}.
Record RangeCertIdentity := MkRangeCertIdentity {
  ci_range_plan_self_hash : option Hash256;
  ci_infer_ir_self_hash : Hash256;
  ci_quant_graph_self_hash : Hash256;
  ci_static_budget_self_hash : Hash256;
  ci_determinism : DeterminismClass;
}.
Record RangeCertBody := MkRangeCertBody {
  rc_identity : RangeCertIdentity;
  rc_cert_outcome : CertOutcome;
  rc_certificates : list CertifiedReduction;
  rc_site_to_certificate_index : gmap string Z;
  rc_diagnostics : list RangeDiagnostic;
}.

(** Canonical JSON (serde) and SHA-256 of a plan and of a projection; [None]
    is a value that serde cannot serialize. *)
Class RangeHashes := {
  range_plan_self_hash : RangePlan -> option Hash256;
  range_policy_projection_hash : RangePolicyProjection -> option Hash256;
}.

Record RangePlanInputs := MkRangePlanInputs {
  rx_infer_ir : GbInferIR;
  rx_static_budget_report : list ReductionSiteProjection;
  rx_range_policy_projection : RangePolicyProjection;
  rx_infer_ir_self_hash : Hash256;
  rx_quant_graph_self_hash : Hash256;
  rx_static_budget_self_hash : Hash256;
}.

Definition bind_range_plan_identity `{RangeHashes} (inputs : RangePlanInputs) : outcome RangePlanConstructionError RangePlanIdentity :=
  let infer_ir_determinism := ir_determinism (rx_infer_ir inputs) in
  let projection_determinism := pp_determinism_class (rx_range_policy_projection inputs) in
  let* _ := guard_err (negb (bool_decide (projection_determinism = infer_ir_determinism)))
              (RC_DeterminismMismatch projection_determinism infer_ir_determinism) in
  let* projection_hash := ok_or (range_policy_projection_hash (rx_range_policy_projection inputs)) RC_RangePolicyProjectionHash in
  Ok (MkRangePlanIdentity (rx_infer_ir_self_hash inputs) (rx_quant_graph_self_hash inputs) (rx_static_budget_self_hash inputs)
        projection_hash infer_ir_determinism).

Definition bind_range_plan_provenance (sites : list ReductionSiteBinding) : RangePlanProvenance :=
  MkRangePlanProvenance
    (foldl (fun m b => <[sb_site b := sb_node_id b]> m) ∅ sites)
    (foldl (fun m b => <[sb_site b := sb_qg_ref b]> m) ∅ sites).

(** [collect] into a map: a later certificate of a site replaces an earlier
    one; the index must fit a [u32]. *)
Definition site_to_certificate_index {E} (certificates : list CertifiedReduction) : outcome E (gmap string Z) :=
  ofold (fun index e => let* i := expect (try_from_u U32 e.1) in Ok (<[cr_site e.2 := i]> index)) ∅ (enumerate certificates).

Definition canonical_sort_entries (entries : list RangePlanEntry) : list RangePlanEntry :=
  sort_by (fun a b => String.leb (re_site a) (re_site b)) entries.
Definition canonical_sort_certificates (certificates : list CertifiedReduction) : list CertifiedReduction :=
  sort_by (fun a b => String.leb (cr_site a) (cr_site b)) certificates.
Definition canonical_sort_range_plan {E} (entries : list RangePlanEntry) (certificates : list CertifiedReduction)
    : outcome E (list RangePlanEntry * list CertifiedReduction * gmap string Z) :=
  let entries := canonical_sort_entries entries in
  let certificates := canonical_sort_certificates certificates in
  let* index := site_to_certificate_index certificates in
  Ok (entries, certificates, index).

Definition range_cert_outcome (certificates : list CertifiedReduction) (diagnostics : list RangeDiagnostic) : CertOutcome :=
  if existsb (fun c => is_failed (cr_proof c)) certificates || has_hard_diagnostic diagnostics
  then Outcome_Failed else Outcome_Verified.

Definition smallest_canonical_family_holds {E} (entry : RangePlanEntry) (determinism : DeterminismClass) : outcome E bool :=
  match re_plan entry with
  | SingleI16 => Ok true
  | ChunkedI16 _ | RenormLoop _ _ =>
      let* single := verifies_for SingleI16 (re_site_facts entry) determinism in Ok (negb single)
  end.

Definition bitexact_entry_constraints_hold (entry : RangePlanEntry) (determinism : DeterminismClass) : bool :=
  if negb (bool_decide (determinism = BitExact)) then true
  else match re_plan entry with
  | SingleI16 => true
  | ChunkedI16 chunk_len => negb (chunk_len =? 0) && is_multiple_of (rf_term_count (re_site_facts entry)) chunk_len
  | RenormLoop _ _ => false
  end.

Definition diag_unless (ok : bool) (field : string) : list RangeDiagnostic := if ok then [] else [RD_SelfConsistency field].

Definition check_entry_consistency {E} (determinism : DeterminismClass) (acc : list RangeDiagnostic * list ReductionSiteId)
    (entry : RangePlanEntry) : outcome E (list RangeDiagnostic * list ReductionSiteId) :=
  let '(diagnostics, entry_sites) := acc in
  let* smallest := smallest_canonical_family_holds entry determinism in
  Ok (diagnostics
      ++ diag_unless (negb (bool_decide (re_site entry ∈ entry_sites))) "range_plan.entries.site"
      ++ diag_unless (bool_decide (re_site entry = rf_site (re_site_facts entry))) "range_plan.entries.site_facts"
      ++ diag_unless (bool_decide (plan_family (re_plan entry) ∈ candidate_families_under_ceiling (re_effective_ceiling entry)))
           "range_plan.entries.effective_ceiling"
      ++ diag_unless (bool_decide (rf_accumulator_domain (re_site_facts entry) = RawIntegerProducts))
           "range_plan.entries.site_facts.accumulator_domain"
      ++ diag_unless smallest "range_plan.entries.plan"
      ++ diag_unless (bitexact_entry_constraints_hold entry determinism) "range_plan.entries.plan.determinism",
      re_site entry :: entry_sites).

Definition check_entry_certificate (determinism : DeterminismClass) (cert : RangeCertBody) (entry : RangePlanEntry) : list RangeDiagnostic :=
  match rc_site_to_certificate_index cert !! re_site entry with
  | None => [RD_SelfConsistency "range_cert.certificates"]
  | Some index =>
      match rc_certificates cert !! Z.to_nat index with
      | None => [RD_SelfConsistency "range_cert.site_to_certificate_index"]
      | Some certified =>
          diag_unless (bool_decide (cr_site certified = re_site entry)
                       && bool_decide (cr_plan certified = re_plan entry)
                       && bool_decide (cr_facts certified = re_site_facts entry)
                       && verifies (cr_proof certified) (re_plan entry) (re_site_facts entry) determinism)
            "range_cert.certificates.proof"
      end
  end.

Definition self_consistency_diagnostics {E} (plan : RangePlan) (cert : RangeCertBody) : outcome E (list RangeDiagnostic) :=
  let determinism := ri_determinism (rg_identity plan) in
  let* (entry_diagnostics, _) := ofold (check_entry_consistency determinism) ([], []) (rg_entries plan) in
  let* expected_index := site_to_certificate_index (rc_certificates cert) in
  Ok (entry_diagnostics
      ++ diag_unless (bool_decide (expected_index = rc_site_to_certificate_index cert)
                      && (Z.of_nat (size expected_index) =? zlen (rc_certificates cert)))
           "range_cert.site_to_certificate_index"
      ++ concat (map (check_entry_certificate determinism cert) (rg_entries plan))).

Definition range_cert_identity (identity : RangePlanIdentity) (plan_hash : option Hash256) : RangeCertIdentity :=
  MkRangeCertIdentity plan_hash (ri_infer_ir_self_hash identity) (ri_quant_graph_self_hash identity)
    (ri_static_budget_self_hash identity) (ri_determinism identity).

Definition failed_range_cert_body {E} (identity : RangePlanIdentity) (plan_hash : option Hash256)
    (certificates : list CertifiedReduction) (diagnostics : list RangeDiagnostic) : outcome E RangeCertBody :=
  let certificates := canonical_sort_certificates certificates in
  let* index := site_to_certificate_index certificates in
  Ok (MkRangeCertBody (range_cert_identity identity plan_hash) (range_cert_outcome certificates diagnostics)
        certificates index diagnostics).

Definition failed_certified_attempts (binding : EffectiveCeilingBinding) (choice : PlanChoice) : list CertifiedReduction :=
  map (fun a => MkCertifiedReduction (cb_site binding) (cc_plan a) (cb_facts binding) (cc_certificate a))
      (List.filter (fun a => is_failed (cc_certificate a)) (pc_attempts choice)).

(** ** The stage *)

Record PlanState := MkPlanState {
  ps_entries : list RangePlanEntry;
  ps_certificates : list CertifiedReduction;
  ps_attempted_certificates : list CertifiedReduction;
  ps_diagnostics : list RangeDiagnostic;
}.

(** The product and, on failure, the certificate body that goes with the
    diagnostics; the report wrappers around them are left out. *)
Record RangePlanCoreSuccess := MkRangePlanCoreSuccess { ok_range_plan : RangePlan; ok_range_cert : RangeCertBody }.
Record RangePlanCoreFailure := MkRangePlanCoreFailure {
  fail_identity : RangePlanIdentity;
  fail_range_cert_body : option RangeCertBody;
  fail_diagnostics : list RangeDiagnostic;
}.

Definition plan_site {E} `{BuildProfile} (caps : RangeCapsSpec) (determinism : DeterminismClass) (s : PlanState)
    (binding : EffectiveCeilingBinding) : outcome E PlanState :=
  let* generation := generate_plan_candidates (cb_facts binding) (cb_effective_ceiling binding) caps determinism in
  let* choice := choose_plan binding generation caps determinism in
  let diagnostics := ps_diagnostics s ++ pc_diagnostics choice in
  Ok match pc_chosen choice with
     | Some chosen =>
         MkPlanState (ps_entries s ++ [MkRangePlanEntry (cb_site binding) (cr_plan chosen) (cb_facts binding)
                                         (cb_effective_ceiling binding) (cb_provenance binding)])
           (ps_certificates s ++ [chosen]) (ps_attempted_certificates s) diagnostics
     | None =>
         MkPlanState (ps_entries s) (ps_certificates s)
           (ps_attempted_certificates s ++ failed_certified_attempts binding choice) diagnostics
     end.

(** The identity of a failure report hashes the projection once more. *)
Definition failure_identity `{RangeHashes} {E} (inputs : RangePlanInputs) : outcome E RangePlanIdentity :=
  let* projection_hash := expect (range_policy_projection_hash (rx_range_policy_projection inputs)) in
  Ok (MkRangePlanIdentity (rx_infer_ir_self_hash inputs) (rx_quant_graph_self_hash inputs) (rx_static_budget_self_hash inputs)
        projection_hash (ir_determinism (rx_infer_ir inputs))).

(** [match result { Ok(v) => v, Err(error) => return Err(failure) }]. *)
Definition or_fail {A} (identity : outcome RangePlanCoreFailure RangePlanIdentity) (m : outcome RangePlanConstructionError A)
    : outcome RangePlanCoreFailure A :=
  let* r := try_result m in
  match r with
  | inl a => Ok a
  | inr error => let* identity := identity in Err (MkRangePlanCoreFailure identity None [RD_Construction error])
  end.

(** Some site has no plan. *)
Definition fail_unplanned (identity : RangePlanIdentity) (s : PlanState) : outcome RangePlanCoreFailure RangePlanCoreSuccess :=
  let* cert_body :=
    match ps_attempted_certificates s with
    | [] => Ok None
    | attempted => let* body := failed_range_cert_body identity None attempted (ps_diagnostics s) in Ok (Some body)
    end in
  Err (MkRangePlanCoreFailure identity cert_body (ps_diagnostics s)).

(** Every site has one. *)
Definition finish_planned `{RangeHashes} (identity : RangePlanIdentity) (sites : list ReductionSiteBinding) (s : PlanState)
    : outcome RangePlanCoreFailure RangePlanCoreSuccess :=
  let* (sorted, _) := canonical_sort_range_plan (ps_entries s) (ps_certificates s) in
  let '(entries, certificates) := sorted in
  let plan := MkRangePlan identity entries (bind_range_plan_provenance sites) in
  let* plan_hash := expect (range_plan_self_hash plan) in
  let* index := site_to_certificate_index certificates in
  let cert := MkRangeCertBody (range_cert_identity identity (Some plan_hash)) (range_cert_outcome certificates [])
                certificates index [] in
  let* self_consistency := self_consistency_diagnostics plan cert in
  match self_consistency with
  | _ :: _ =>
      Err (MkRangePlanCoreFailure identity
             (Some (MkRangeCertBody (rc_identity cert) (range_cert_outcome certificates self_consistency)
                      certificates index self_consistency)) self_consistency)
  | [] => Ok (MkRangePlanCoreSuccess plan cert)
  end.

Definition build_range_plan_core `{BuildProfile} `{RangeHashes} (inputs : RangePlanInputs)
    : outcome RangePlanCoreFailure RangePlanCoreSuccess :=
  let projection := rx_range_policy_projection inputs in
  let* identity := or_fail (failure_identity inputs) (bind_range_plan_identity inputs) in
  let* sites := or_fail (failure_identity inputs) (enumerate_reduction_sites (rx_infer_ir inputs)) in
  let* bound_facts := or_fail (Ok identity) (bind_reduction_site_facts_for_report sites (rx_static_budget_report inputs)) in
  let* ceilings := or_fail (Ok identity) (bind_effective_ceilings bound_facts projection) in
  let* s := ofold (plan_site (pp_range_caps projection) (ri_determinism identity)) (MkPlanState [] [] [] []) ceilings in
  match ps_diagnostics s with
  | _ :: _ => fail_unplanned identity s
  | [] => finish_planned identity sites s
  end.
