(* ===== verification/RangeVerify.v ===== *)
(** * The independent range-certificate verifier ([gbf-verify/src/range_cert])

    [independent.rs] checks the algebra of a certificate without the compiler's
    code, [brute.rs] simulates the worst case term by term.  Reading the file,
    its JSON and its self-hash, the events and the message texts are left out:
    an error is what its text says. *)

From S2P Require Import Prelude Numeric KnobLattice RangeCert RangePlan.

(** ** [independent.rs] *)

Definition renorm_recurrence_verifies_v (f : ReductionSiteFacts) (tile_len tile_count : Z) (recurrence : RenormRecurrence)
    (claimed_total_abs_max : Z) : bool :=
  bool_decide (rf_accumulator_domain f = RawIntegerProducts)
  && (0 <? rr_output_scale_q16_16 recurrence)
  && (rr_max_rounding_error_q16_16 recurrence =? rounding_error_q16_16 (rr_rounding recurrence))
  && is_some_eq (renorm_closed_form_bound f tile_len tile_count recurrence) claimed_total_abs_max.

Definition verifies_v (cert : AccumulatorCertificate) (plan : ReductionPlan) (f : ReductionSiteFacts)
    (determinism : DeterminismClass) : bool :=
  if negb (bool_decide (rf_accumulator_domain f = RawIntegerProducts)) then false
  else match cert with
  | SingleI16Proof p =>
      bool_decide (sp_site p = rf_site f)
      && (sp_term_count p =? rf_term_count f)
      && (sp_per_term_abs_max p =? rf_per_term_abs_max_q f)
      && is_some_eq (checked_mul_u64 (sp_term_count p) (sp_per_term_abs_max p)) (sp_sum_bound p)
      && (sp_bias_abs_max p =? facts_bias_abs_max f)
      && is_some_eq (checked_add_u64 (sp_sum_bound p) (sp_bias_abs_max p)) (sp_total_abs_max p)
      && (sp_i16_envelope p =? I16_ENVELOPE_U64)
      && (sp_total_abs_max p <=? sp_i16_envelope p)
      && is_some_eq (checked_sub (sp_i16_envelope p) (sp_total_abs_max p)) (sp_slack p)
      && match plan with SingleI16 => true | _ => false end
  | ChunkedI16Proof p =>
      match plan with
      | ChunkedI16 plan_chunk_len =>
          (0 <? cp_chunk_len p)
          && bool_decide (cp_site p = rf_site f)
          && (plan_chunk_len =? cp_chunk_len p)
          && is_some_eq (ceil_div (rf_term_count f) (cp_chunk_len p)) (cp_chunk_count p)
          && (cp_per_term_abs_max p =? rf_per_term_abs_max_q f)
          && is_some_eq (checked_mul_u64 (cp_chunk_len p) (cp_per_term_abs_max p)) (cp_per_chunk_sum_bound p)
          && (cp_per_chunk_sum_bound p <=? I16_ENVELOPE_U64)
          && is_some_eq (checked_sub I16_ENVELOPE_U64 (cp_per_chunk_sum_bound p)) (cp_per_chunk_i16_slack p)
          && (negb (bool_decide (determinism = BitExact)) || is_multiple_of (rf_term_count f) (cp_chunk_len p))
          && is_some_eq (checked_mul_u64 (rf_term_count f) (cp_per_term_abs_max p)) (cp_cross_chunk_sum_bound p)
          && (cp_bias_abs_max p =? facts_bias_abs_max f)
          && is_some_eq (checked_add_u64 (cp_cross_chunk_sum_bound p) (cp_bias_abs_max p)) (cp_total_abs_max p)
          && (cp_i32_envelope p =? I32_ENVELOPE_U64)
          && (cp_total_abs_max p <=? cp_i32_envelope p)
          && is_some_eq (checked_sub (cp_i32_envelope p) (cp_total_abs_max p)) (cp_slack p)
      | _ => false
      end
  | RenormLoopProof p =>
      if bool_decide (determinism = BitExact) then false
      else match plan with
      | RenormLoop plan_tile_len plan_renorm =>
          (0 <? rp_tile_len p)
          && bool_decide (rp_site p = rf_site f)
          && (plan_tile_len =? rp_tile_len p)
          && bool_decide (plan_renorm = rp_renorm p)
          && is_some_eq (ceil_div (rf_term_count f) (rp_tile_len p)) (rp_tile_count p)
          && (rp_per_term_abs_max p =? rf_per_term_abs_max_q f)
          && is_some_eq (checked_mul_u64 (rp_tile_len p) (rp_per_term_abs_max p)) (rp_per_tile_sum_bound p)
          && (rp_per_tile_sum_bound p <=? I16_ENVELOPE_U64)
          && is_some_eq (checked_sub I16_ENVELOPE_U64 (rp_per_tile_sum_bound p)) (rp_per_tile_i16_slack p)
          && (rp_bias_abs_max p =? facts_bias_abs_max f)
          && renorm_recurrence_verifies_v f (rp_tile_len p) (rp_tile_count p) (rs_recurrence (rp_renorm p)) (rp_total_abs_max p)
          && (rp_total_abs_max p <=? I16_ENVELOPE_U64)
          && is_some_eq (checked_sub I16_ENVELOPE_U64 (rp_total_abs_max p)) (rp_slack p)
      | _ => false
      end
  | FailedProof _ _ _ _ => false
  end.

Definition is_chunked (plan : ReductionPlan) : bool := match plan with ChunkedI16 _ => true | _ => false end.
Definition is_renorm (plan : ReductionPlan) : bool := match plan with RenormLoop _ _ => true | _ => false end.

Definition proof_state_matches_plan (proof_state : AccumulatorProofState) (plan : ReductionPlan) : bool :=
  match proof_state with
  | PS_SumExceedsI16Envelope _ envelope => envelope =? I16_ENVELOPE_U64
  | PS_PerChunkExceedsI16Envelope _ envelope => (envelope =? I16_ENVELOPE_U64) && is_chunked plan
  | PS_CrossChunkExceedsI32Envelope _ envelope => (envelope =? I32_ENVELOPE_U64) && is_chunked plan
  | PS_PerTileExceedsI16Envelope _ envelope => (envelope =? I16_ENVELOPE_U64) && is_renorm plan
  | PS_LengthZero ChunkLen => is_chunked plan
  | PS_LengthZero TileLen => is_renorm plan
  | PS_ChunkLenExceedsProfileMax _ _ => is_chunked plan
  | PS_TileLenBelowProfileMin _ _ | PS_TileLenExceedsProfileMax _ _ | PS_TileLenExceedsU16 _ => is_renorm plan
  | PS_BitExactRequiresChunkDivides _ _ => is_chunked plan
  | PS_DeterminismRequiresEnforcedRenorm => false
  end.

Definition failed_witness_matches_facts (witness : AccumulatorFailureWitness) (proof_state : AccumulatorProofState)
    (plan : ReductionPlan) (f : ReductionSiteFacts) (determinism : DeterminismClass) : bool :=
  match witness with
  | W_BoundCalculation input_max_abs_q weight_max_abs_q term_count bias =>
      (input_max_abs_q =? rf_input_max_abs_q f) && (weight_max_abs_q =? rf_weight_max_abs_q f)
      && (term_count =? rf_term_count f) && (bias =? default 0 (rf_bias_max_abs_q f))
      && proof_state_matches_plan proof_state plan
  | W_BitExactSaturationForbidden =>
      bool_decide (determinism = BitExact) && is_renorm plan
      && match proof_state with PS_DeterminismRequiresEnforcedRenorm => true | _ => false end
  end.

Inductive IndependentVerifyError :=
| IV_IndexMismatch
| IV_FactsSiteMismatch (site : ReductionSiteId)
| IV_ProofDoesNotVerify (site : ReductionSiteId)
| IV_WitnessMismatch (site : ReductionSiteId)
| IV_OutcomesDisagree.

Inductive IndependentVerifyStatus := Status_Verified | Status_FailedEvidence.
Inductive ReportOutcome := Report_Passed | Report_Failed.

Record IndependentVerifyReport := MkIndependentVerifyReport {
  iv_status : IndependentVerifyStatus;
  iv_certificate_count : Z;
  iv_failed_evidence_count : Z;
}.

(** The index is cast with [as u32] here. *)
Definition expected_index (certificates : list CertifiedReduction) : gmap string Z :=
  foldl (fun index e => <[cr_site e.2 := wrap U32 e.1]> index) ∅ (enumerate certificates).

Definition verify_certificate_index (body : RangeCertBody) : outcome IndependentVerifyError unit :=
  let expected := expected_index (rc_certificates body) in
  let* _ := guard_err (negb (bool_decide (expected = rc_site_to_certificate_index body))
                       || negb (Z.of_nat (size expected) =? zlen (rc_certificates body))) IV_IndexMismatch in
  ofold (fun _ c => guard_err (negb (bool_decide (cr_site c = rf_site (cr_facts c)))) (IV_FactsSiteMismatch (cr_site c)))
    tt (rc_certificates body).

Definition verify_failed_evidence (certified : CertifiedReduction) (determinism : DeterminismClass) : outcome IndependentVerifyError unit :=
  match cr_proof certified with
  | FailedProof site attempted_plan proof_state witness =>
      guard_err (negb (bool_decide (site = cr_site certified) && bool_decide (attempted_plan = cr_plan certified)
                       && failed_witness_matches_facts witness proof_state (cr_plan certified) (cr_facts certified) determinism))
        (IV_WitnessMismatch (cr_site certified))
  | _ => Panic
  end.

Definition verify_certified (determinism : DeterminismClass) (failed_evidence_count : Z) (certified : CertifiedReduction)
    : outcome IndependentVerifyError Z :=
  if is_failed (cr_proof certified) then
    let* _ := verify_failed_evidence certified determinism in Ok (failed_evidence_count + 1)
  else
    let* _ := guard_err (negb (verifies_v (cr_proof certified) (cr_plan certified) (cr_facts certified) determinism))
                (IV_ProofDoesNotVerify (cr_site certified)) in
    Ok failed_evidence_count.

Definition independent_verify_report (report_outcome : ReportOutcome) (body : RangeCertBody)
    : outcome IndependentVerifyError IndependentVerifyReport :=
  let* _ := verify_certificate_index body in
  let* failed_evidence_count := ofold (verify_certified (ci_determinism (rc_identity body))) 0 (rc_certificates body) in
  let* status :=
    match report_outcome, rc_cert_outcome body with
    | Report_Passed, Outcome_Verified => if failed_evidence_count =? 0 then Ok Status_Verified else Err IV_OutcomesDisagree
    | Report_Failed, Outcome_Failed => if 0 <? failed_evidence_count then Ok Status_FailedEvidence else Err IV_OutcomesDisagree
    | _, _ => Err IV_OutcomesDisagree
    end in
  Ok (MkIndependentVerifyReport status (zlen (rc_certificates body)) failed_evidence_count).

(** The report validator of the certificate schema. *)
Definition RangeCertBody_validate_semantics (body : RangeCertBody) (report_outcome : ReportOutcome) : bool :=
  let has_hard := has_hard_diagnostic (rc_diagnostics body) in
  let has_failed := existsb (fun c => is_failed (cr_proof c)) (rc_certificates body) in
  match report_outcome with
  | Report_Passed => bool_decide (is_Some (ci_range_plan_self_hash (rc_identity body)))
                     && bool_decide (rc_cert_outcome body = Outcome_Verified) && negb has_failed && negb has_hard
  | Report_Failed => bool_decide (rc_cert_outcome body = Outcome_Failed) && (has_failed || has_hard)
  end.

(** ** [brute.rs] *)

Definition MAX_SIMULATED_TERMS : Z := 1000000.

Inductive Refutation :=
| Rf_PartialSum (terms acc : Z)
| Rf_Bias (acc : Z)
| Rf_Claimed (acc claimed : Z)
| Rf_ChunkLenZero
| Rf_ChunkPartial (terms acc : Z)
| Rf_CrossChunk (cross : Z)
| Rf_CrossBias (cross : Z).
Inductive BruteVerdict := Confirmed | Refuted (why : Refutation) | NotSimulated.

(** A verdict that the loops return early is the error of the computation. *)
Definition verdict (m : outcome BruteVerdict BruteVerdict) : outcome Empty_set BruteVerdict :=
  match m with Ok v | Err v => Ok v | Panic => Panic | NoFuel => NoFuel end.

Definition add_terms (refute : Z -> Z -> Refutation) (per_term_abs_max envelope terms : Z) : outcome BruteVerdict Z :=
  ofold (fun acc index =>
           let* acc := uadd U128 acc per_term_abs_max in
           let* _ := guard_err (envelope <? acc) (Refuted (refute (index + 1) acc)) in
           Ok acc) 0 (zrange terms).

Definition simulate_single (term_count per_term_abs_max bias_abs_max claimed_total_abs_max envelope : Z) : outcome Empty_set BruteVerdict :=
  verdict (
    let* _ := guard_err (MAX_SIMULATED_TERMS <? term_count) NotSimulated in
    let* acc := add_terms Rf_PartialSum per_term_abs_max envelope term_count in
    let* acc := uadd U128 acc bias_abs_max in
    let* _ := guard_err (envelope <? acc) (Refuted (Rf_Bias acc)) in
    let* _ := guard_err (negb (acc =? claimed_total_abs_max)) (Refuted (Rf_Claimed acc claimed_total_abs_max)) in
    Ok Confirmed).

Fixpoint chunk_loop (fuel : nat) (chunk_len per_term_abs_max i32_envelope cross remaining : Z) : outcome BruteVerdict Z :=
  match fuel with
  | O => NoFuel
  | S fuel' =>
      if 0 <? remaining then
        let this_chunk := Z.min remaining chunk_len in
        let* chunk_acc := add_terms Rf_ChunkPartial per_term_abs_max I16_ENVELOPE_U64 this_chunk in
        let* cross := uadd U128 cross chunk_acc in
        let* _ := guard_err (i32_envelope <? cross) (Refuted (Rf_CrossChunk cross)) in
        let* remaining := usub remaining this_chunk in
        chunk_loop fuel' chunk_len per_term_abs_max i32_envelope cross remaining
      else Ok cross
  end.

(** Every turn takes at least one term. *)
Definition simulate_chunked (term_count chunk_len per_term_abs_max bias_abs_max claimed_total_abs_max i32_envelope : Z)
    : outcome Empty_set BruteVerdict :=
  verdict (
    let* _ := guard_err (chunk_len =? 0) (Refuted Rf_ChunkLenZero) in
    let* _ := guard_err (MAX_SIMULATED_TERMS <? term_count) NotSimulated in
    let* cross := chunk_loop (S (Z.to_nat term_count)) chunk_len per_term_abs_max i32_envelope 0 term_count in
    let* cross := uadd U128 cross bias_abs_max in
    let* _ := guard_err (i32_envelope <? cross) (Refuted (Rf_CrossBias cross)) in
    let* _ := guard_err (negb (cross =? claimed_total_abs_max)) (Refuted (Rf_Claimed cross claimed_total_abs_max)) in
    Ok Confirmed).

Definition simulate (cert : AccumulatorCertificate) (f : ReductionSiteFacts) : outcome Empty_set BruteVerdict :=
  match cert with
  | SingleI16Proof p =>
      simulate_single (rf_term_count f) (sp_per_term_abs_max p) (sp_bias_abs_max p) (sp_total_abs_max p) (sp_i16_envelope p)
  | ChunkedI16Proof p =>
      simulate_chunked (rf_term_count f) (cp_chunk_len p) (cp_per_term_abs_max p) (cp_bias_abs_max p) (cp_total_abs_max p)
        (cp_i32_envelope p)
  | RenormLoopProof _ | FailedProof _ _ _ _ => Ok NotSimulated
  end.
Definition worst_case_simulation (certified : CertifiedReduction) : outcome Empty_set BruteVerdict :=
  simulate (cr_proof certified) (cr_facts certified).
