(* ===== verification/RangeFacts.v ===== *)
(** * Range certificates: what verification means

    A certificate verifies exactly when it is the one the planner constructs;
    the compiler's and the independent verifier agree; a verified plan runs
    without overflow on every input within the facts; the worst-case simulation
    confirms it. *)

From S2P Require Import Prelude Numeric KnobLattice RangeCert RangePlan RangeVerify.

Definition plan_typed (plan : ReductionPlan) : Prop :=
  match plan with
  | SingleI16 => True
  | ChunkedI16 chunk_len => 0 <= chunk_len < U16
  | RenormLoop tile_len r =>
      0 <= tile_len < U16
      /\ 0 <= rr_input_scale_q16_16 (rs_recurrence r) < U32
      /\ 0 <= rr_output_scale_q16_16 (rs_recurrence r) < U32
      /\ 0 <= rr_max_rounding_error_q16_16 (rs_recurrence r) < U32
  end.

(** The rounding error that a plan states is that of its rounding. *)
Definition rounding_declared (plan : ReductionPlan) : Prop :=
  match plan with
  | RenormLoop _ r =>
      rr_max_rounding_error_q16_16 (rs_recurrence r) = rounding_error_q16_16 (rr_rounding (rs_recurrence r))
  | _ => True
  end.

(** ** Two verifiers *)

Lemma verifies_agree cert plan f determinism : verifies_v cert plan f determinism = verifies cert plan f determinism.
Proof.
  unfold verifies_v, verifies. destruct (negb _); [done|]. destruct cert as [p|p|p|]; [done | | | done].
  - destruct plan as [|plan_len|]; cbn [is_some_eq]; [|done|]; destruct (0 <? cp_chunk_len p), (bool_decide (cp_site p = rf_site f)); done.
  - destruct (bool_decide (determinism = BitExact)); [done|].
    destruct plan as [| |len r]; cbn [is_some_eq].
    1,2: destruct (0 <? rp_tile_len p), (bool_decide (rp_site p = rf_site f)); done.
    assert (Hd : bool_decide (Some r = Some (rp_renorm p)) = bool_decide (r = rp_renorm p))
      by (apply bool_decide_ext; split; [by intros [= ->] | by intros ->]).
    by rewrite Hd.
Qed.

(** ** Verification is construction *)

Lemma checked_sub_Some a b c : checked_sub a b = Some c <-> b <= a /\ c = a - b.
Proof.
  unfold checked_sub. destruct (Z.leb_spec b a); split; try (intros [? ->]); try (intros [= <-]); try done; lia.
Qed.

(** The total that the constructors bound. *)
Definition total_bound (f : ReductionSiteFacts) : Z := rf_term_count f * rf_per_term_abs_max_q f + facts_bias_abs_max f.

Ltac bool_facts :=
  repeat match goal with
  | H : _ && _ = true |- _ => apply andb_true_iff in H as [? H]
  | H : is_some_eq _ _ = true |- _ => apply is_some_eq_true in H
  | H : bool_decide _ = true |- _ => apply bool_decide_eq_true_1 in H
  | H : bool_decide _ = false |- _ => apply bool_decide_eq_false_1 in H
  | H : (_ =? _) = true |- _ => apply Z.eqb_eq in H
  | H : (_ =? _) = false |- _ => apply Z.eqb_neq in H
  | H : (_ <=? _) = true |- _ => apply Z.leb_le in H
  | H : (_ <=? _) = false |- _ => apply Z.leb_gt in H
  | H : (_ <? _) = true |- _ => apply Z.ltb_lt in H
  | H : (_ <? _) = false |- _ => apply Z.ltb_ge in H
  | H : negb _ = true |- _ => apply negb_true_iff in H
  | H : negb _ = false |- _ => apply negb_false_iff in H
  | H : checked_sub _ _ = Some _ |- _ => apply checked_sub_Some in H as [? ?]
  end.

(** Reduce the tests of a goal with the facts in the context. *)
Ltac run_tests :=
  repeat first
    [ progress cbn [andb orb negb is_some_eq is_failed obind expect]
    | rewrite Z.eqb_refl
    | rewrite bool_decide_true by done
    | rewrite bool_decide_false by done
    | match goal with
      | H : ?x = Some _ |- context [?x] => rewrite H
      | H : ?x = true |- context [?x] => rewrite H
      | H : ?x = false |- context [?x] => rewrite H
      end
    | rewrite (proj2 (Z.ltb_ge _ _)) by lia
    | rewrite (proj2 (Z.ltb_lt _ _)) by lia
    | rewrite (proj2 (Z.leb_le _ _)) by lia
    | rewrite (proj2 (Z.eqb_neq _ _)) by lia
    | rewrite (fun a b H => proj2 (checked_sub_Some a b (a - b)) (conj H eq_refl)) by lia ].

Section certificates.
Context (f : ReductionSiteFacts) (determinism : DeterminismClass).
Hypothesis (Hraw : rf_accumulator_domain f = RawIntegerProducts).

Lemma single_verifies p plan :
  verifies (SingleI16Proof p) plan f determinism = true
  <-> plan = SingleI16 /\ construct_single_i16_certificate plan f = SingleI16Proof p.
Proof.
  unfold verifies, construct_single_i16_certificate. rewrite Hraw. run_tests. split.
  - destruct p as [site tc pt sb ba ta env slack]. simpl. intros H. bool_facts. destruct plan; try discriminate. subst.
    split; [done|]. by run_tests.
  - intros [-> H]. unfold failed_certificate, failed_certificate_with_witness in H.
    destruct (checked_mul_u64 _ _) as [sb|] eqn:Hm; [|discriminate].
    destruct (checked_add_u64 _ _) as [ta|] eqn:Ha; [|discriminate].
    destruct (Z.ltb_spec I16_ENVELOPE_U64 ta); [discriminate|]. injection H as <-. simpl. by run_tests.
Qed.

Lemma chunked_verifies p plan :
  verifies (ChunkedI16Proof p) plan f determinism = true
  <-> exists chunk_len, plan = ChunkedI16 chunk_len /\ 0 < chunk_len
        /\ construct_chunked_i16_certificate chunk_len plan f determinism = (Ok (ChunkedI16Proof p) : outcome Empty_set _).
Proof.
  unfold verifies, construct_chunked_i16_certificate. rewrite Hraw. run_tests. split.
  - destruct p as [site cl cc pt pcs pcl ccs ba ta env slack]. simpl. intros H. bool_facts.
    destruct plan as [|plan_len|]; try discriminate. simplify_eq. exists cl. split; [done|]. split; [done|].
    assert (Hd : bool_decide (determinism = BitExact) && negb (is_multiple_of (rf_term_count f) cl) = false).
    { destruct (bool_decide (determinism = BitExact)); [|done]. destruct (is_multiple_of (rf_term_count f) cl); done. }
    by run_tests.
  - intros (len & -> & Hlen & H). unfold failed_certificate, failed_certificate_with_witness in H.
    rewrite (proj2 (Z.eqb_neq len 0)) in H by lia.
    destruct (bool_decide (determinism = BitExact) && negb (is_multiple_of (rf_term_count f) len)) eqn:Hd; [discriminate|].
    destruct (checked_mul_u64 len _) as [pcs|] eqn:Hm; [|discriminate].
    destruct (Z.ltb_spec I16_ENVELOPE_U64 pcs); [discriminate|].
    destruct (checked_mul_u64 (rf_term_count f) _) as [ccs|] eqn:Hm2; [|discriminate].
    destruct (checked_add_u64 _ _) as [ta|] eqn:Ha; [|discriminate].
    destruct (Z.ltb_spec I32_ENVELOPE_U64 ta); [discriminate|].
    destruct (ceil_div (rf_term_count f) len) as [cc|] eqn:Hc; [|discriminate].
    injection H as <-. simpl.
    assert (Hd' : negb (bool_decide (determinism = BitExact)) || is_multiple_of (rf_term_count f) len = true).
    { revert Hd. by destruct (bool_decide (determinism = BitExact)), (is_multiple_of (rf_term_count f) len). }
    by run_tests.
Qed.

Lemma renorm_verifies p plan : plan_typed plan ->
  verifies (RenormLoopProof p) plan f determinism = true
  <-> exists tile_len r, plan = RenormLoop tile_len r /\ rounding_declared plan /\ 0 < tile_len
        /\ construct_renorm_loop_certificate tile_len r plan f determinism = (Ok (RenormLoopProof p) : outcome Empty_set _).
Proof.
  intros Ht. unfold verifies, construct_renorm_loop_certificate. rewrite Hraw. run_tests. split.
  - destruct (bool_decide (determinism = BitExact)) eqn:Hd; [done|].
    destruct p as [site tl tc pt pts ptl r ba ta slack]. simpl. destruct plan as [| |plan_len plan_r]; intros H.
    1,2: cbn [is_some_eq] in H; rewrite andb_false_r in H; done.
    unfold renorm_recurrence_verifies in H. bool_facts. simplify_eq.
    exists tl, r. split; [done|]. split; [done|]. split; [done|]. by run_tests.
  - intros (len & r & -> & Hr & Hlen & H). unfold failed_certificate, failed_certificate_with_witness in H.
    destruct (bool_decide (determinism = BitExact)) eqn:Hd; [discriminate|].
    rewrite (proj2 (Z.eqb_neq len 0)) in H by lia.
    destruct (checked_mul_u64 len _) as [pts|] eqn:Hm; [|discriminate].
    destruct (Z.ltb_spec I16_ENVELOPE_U64 pts); [discriminate|].
    destruct (ceil_div (rf_term_count f) len) as [tc|] eqn:Hc; [|discriminate]. cbn [expect obind] in H.
    destruct (renorm_closed_form_bound f len tc (rs_recurrence r)) as [ta|] eqn:Hb; [|discriminate].
    destruct (Z.ltb_spec I16_ENVELOPE_U64 ta); [discriminate|].
    injection H as <-. simpl. unfold renorm_recurrence_verifies. rewrite Hraw.
    assert (0 < rr_output_scale_q16_16 (rs_recurrence r)).
    { unfold renorm_closed_form_bound in Hb. destruct (Z.eqb_spec (rr_output_scale_q16_16 (rs_recurrence r)) 0) as [E|].
      - rewrite orb_true_r in Hb. done.
      - destruct Ht as (_ & _ & Ht & _). lia. }
    rewrite (proj2 (Z.eqb_eq _ _) Hr). by run_tests.
Qed.
End certificates.

Definition cert_family (cert : AccumulatorCertificate) : option ReductionPlanFamily :=
  match cert with
  | SingleI16Proof _ => Some Family_SingleI16
  | ChunkedI16Proof _ => Some Family_ChunkedI16
  | RenormLoopProof _ => Some Family_RenormLoop
  | FailedProof _ _ _ _ => None
  end.

(** What a failed certificate of the planner says. *)
Definition honest_failure (plan : ReductionPlan) (f : ReductionSiteFacts) (determinism : DeterminismClass)
    (cert : AccumulatorCertificate) : Prop :=
  match cert with
  | FailedProof site attempted state w =>
      site = rf_site f /\ attempted = plan /\ failed_witness_matches_facts w state plan f determinism = true
  | _ => False
  end.

Lemma failed_certificate_honest plan f determinism state : proof_state_matches_plan state plan = true ->
  honest_failure plan f determinism (failed_certificate plan f state).
Proof. intros H. cbn. rewrite !Z.eqb_refl. by rewrite H. Qed.

(** The planner constructs without panic a proof of the plan's family or an
    honest failure. *)
Lemma construct_total {E} plan f determinism : exists cert,
  @construct_accumulator_certificate E plan f determinism = Ok cert
  /\ (cert_family cert = Some (plan_family plan) \/ is_failed cert = true /\ honest_failure plan f determinism cert).
Proof.
  pose proof (failed_certificate_honest plan f determinism) as Hh.
  assert (Hfail : forall state, proof_state_matches_plan state plan = true -> exists cert,
    (Ok (failed_certificate plan f state) : outcome E _) = Ok cert
    /\ (cert_family cert = Some (plan_family plan) \/ is_failed cert = true /\ honest_failure plan f determinism cert)).
  { intros state Hs. eexists. split; [done|]. right. split; [done | by apply Hh]. }
  destruct plan as [|len|len r]; cbn [construct_accumulator_certificate plan_family].
  - unfold construct_single_i16_certificate.
    destruct (checked_mul_u64 _ _); [|by apply Hfail]. destruct (checked_add_u64 _ _); [|by apply Hfail].
    destruct (Z.ltb _ _); [by apply Hfail|]. eexists; split; [done | by left].
  - unfold construct_chunked_i16_certificate. destruct (Z.eqb_spec len 0); [by apply Hfail|].
    destruct (bool_decide (determinism = BitExact) && _); [by apply Hfail|].
    destruct (checked_mul_u64 _ _); [|by apply Hfail]. destruct (Z.ltb _ _); [by apply Hfail|].
    destruct (checked_mul_u64 _ _); [|by apply Hfail]. destruct (checked_add_u64 _ _); [|by apply Hfail].
    destruct (Z.ltb _ _); [by apply Hfail|]. unfold ceil_div. rewrite (proj2 (Z.eqb_neq len 0)) by done.
    eexists; split; [done | by left].
  - unfold construct_renorm_loop_certificate. case_bool_decide as Hd.
    { eexists. split; [done|]. right. split; [done|]. cbn. by rewrite bool_decide_true. }
    destruct (Z.eqb_spec len 0); [by apply Hfail|].
    destruct (checked_mul_u64 _ _); [|by apply Hfail]. destruct (Z.ltb _ _); [by apply Hfail|].
    unfold ceil_div at 1. rewrite (proj2 (Z.eqb_neq len 0)) by done. cbn [expect obind].
    destruct (renorm_closed_form_bound _ _ _ _); [|by apply Hfail].
    destruct (Z.ltb _ _); [by apply Hfail|]. eexists; split; [done | by left].
Qed.

Lemma constructed_family {E} plan f determinism cert : @construct_accumulator_certificate E plan f determinism = Ok cert ->
  is_failed cert = false -> cert_family cert = Some (plan_family plan).
Proof. destruct (@construct_total E plan f determinism) as (c & -> & [Hc|[Hc _]]); intros [= <-] Hf; [done | congruence]. Qed.

(** A constructed proof of a positive length. *)
Lemma constructed_length {E} plan f determinism cert : plan_typed plan ->
  @construct_accumulator_certificate E plan f determinism = Ok cert -> is_failed cert = false ->
  match plan with SingleI16 => True | ChunkedI16 len | RenormLoop len _ => 0 < len end.
Proof.
  intros Ht Hc Hf. destruct plan as [|len|len r]; [done | |]; cbn in Hc, Ht.
  - unfold construct_chunked_i16_certificate in Hc. destruct (Z.eqb_spec len 0); [by injection Hc as <- | lia].
  - unfold construct_renorm_loop_certificate in Hc. destruct (bool_decide _); [by injection Hc as <-|].
    destruct (Z.eqb_spec len 0); [by injection Hc as <- | lia].
Qed.

Lemma verifies_iff cert plan f determinism : plan_typed plan ->
  verifies cert plan f determinism = true
  <-> rf_accumulator_domain f = RawIntegerProducts /\ rounding_declared plan /\ is_failed cert = false
      /\ construct_accumulator_certificate plan f determinism = (Ok cert : outcome Empty_set _).
Proof.
  intros Hplan. destruct (decide (rf_accumulator_domain f = RawIntegerProducts)) as [Hraw|Hraw]; last first.
  { unfold verifies. rewrite (bool_decide_false _ Hraw). split; [discriminate | by intros [? _]]. }
  split.
  - intros Hv. split; [done|]. destruct cert as [p|p|p|]; [| | | by unfold verifies in Hv; destruct (negb _)].
    + apply single_verifies in Hv as [-> Hc]; [|done]. cbn. by rewrite Hc.
    + apply chunked_verifies in Hv as (len & -> & _ & Hc); [|done]. done.
    + apply renorm_verifies in Hv as (len & r & -> & Hr & _ & Hc); [|done..]. done.
  - intros (_ & Hr & Hf & Hc). pose proof (constructed_family _ _ _ _ Hc Hf) as Hfam.
    pose proof (constructed_length _ _ _ _ Hplan Hc Hf) as Hlen.
    destruct plan as [|len|len r], cert as [p|p|p|]; try discriminate; cbn [construct_accumulator_certificate] in Hc.
    + apply single_verifies; [done|]. split; [done | congruence].
    + apply chunked_verifies; [done|]. by exists len.
    + apply renorm_verifies; [done..|]. by exists len, r.
Qed.

(** C36: verification is construction, for the compiler and for the independent
    verifier alike.  Both accept the same certificates, and a certificate is
    accepted for a plan exactly when the domain is raw, the plan states the
    rounding error of its rounding, and the certificate is, field for field,
    the one that the planner constructs and did not mark as failed. *)
Theorem verified_iff_constructed (cert : AccumulatorCertificate) (plan : ReductionPlan) (f : ReductionSiteFacts)
    (determinism : DeterminismClass) (Hplan : plan_typed plan) :
  verifies_v cert plan f determinism = verifies cert plan f determinism
  /\ (verifies cert plan f determinism = true
      <-> rf_accumulator_domain f = RawIntegerProducts /\ rounding_declared plan /\ is_failed cert = false
          /\ construct_accumulator_certificate plan f determinism = (Ok cert : outcome Empty_set _)).
Proof.
  split; [apply verifies_agree | by apply verifies_iff].
Qed.

(** The certificate of the tests: seventy terms of at most 512 with bias 7. *)
Definition demo_facts : ReductionSiteFacts :=
  MkReductionSiteFacts "demo" None None None None 70 1 512 512 (Some 7) RawIntegerProducts Tag_Classify.
Definition demo_chunked : AccumulatorCertificate :=
  ChunkedI16Proof (MkChunkedProof "demo" 32 3 512 16384 16383 35840 7 35847 2147483647 2147447800).

Lemma verified_iff_constructed_witness :
  verifies_v demo_chunked (ChunkedI16 32) demo_facts Deterministic = true
  /\ construct_accumulator_certificate (ChunkedI16 32) demo_facts Deterministic = (Ok demo_chunked : outcome Empty_set _).
Proof.
  assert (Hp : plan_typed (ChunkedI16 32)) by (cbn; lia).
  destruct (verified_iff_constructed demo_chunked (ChunkedI16 32) demo_facts Deterministic Hp) as [He Hi].
  assert (Hv : verifies demo_chunked (ChunkedI16 32) demo_facts Deterministic = true) by (vm_compute; reflexivity).
  exact (conj (eq_trans He Hv) (proj2 (proj2 (proj2 (proj1 Hi Hv))))).
Defined.

(** ** The fields of a constructed proof *)

Lemma single_inv f p : construct_single_i16_certificate SingleI16 f = SingleI16Proof p ->
  total_bound f <= I16_ENVELOPE_U64
  /\ p = MkSingleProof (rf_site f) (rf_term_count f) (rf_per_term_abs_max_q f) (rf_term_count f * rf_per_term_abs_max_q f)
           (facts_bias_abs_max f) (total_bound f) I16_ENVELOPE_U64 (I16_ENVELOPE_U64 - total_bound f).
Proof.
  intros H. unfold construct_single_i16_certificate in H.
  destruct (checked_mul_u64 _ _) as [sb|] eqn:Hm; [|discriminate]. apply checked_mul_Some in Hm as [_ ->].
  destruct (checked_add_u64 _ _) as [ta|] eqn:Ha; [|discriminate]. apply checked_add_Some in Ha as [_ ->].
  fold (total_bound f) in H. destruct (Z.ltb_spec I16_ENVELOPE_U64 (total_bound f)); [discriminate|].
  injection H as <-. split; [lia | done].
Qed.

Lemma chunked_inv f determinism len p : 0 < len ->
  construct_chunked_i16_certificate len (ChunkedI16 len) f determinism = (Ok (ChunkedI16Proof p) : outcome Empty_set _) ->
  len * rf_per_term_abs_max_q f <= I16_ENVELOPE_U64 /\ total_bound f <= I32_ENVELOPE_U64
  /\ cp_chunk_len p = len /\ cp_per_term_abs_max p = rf_per_term_abs_max_q f /\ cp_bias_abs_max p = facts_bias_abs_max f
  /\ cp_total_abs_max p = total_bound f /\ cp_i32_envelope p = I32_ENVELOPE_U64.
Proof.
  intros Hpos H. unfold construct_chunked_i16_certificate in H. rewrite (proj2 (Z.eqb_neq len 0)) in H by lia.
  destruct (bool_decide _ && _); [discriminate|].
  destruct (checked_mul_u64 len _) as [pcs|] eqn:Hm; [|discriminate]. apply checked_mul_Some in Hm as [_ ->].
  destruct (Z.ltb_spec I16_ENVELOPE_U64 (len * rf_per_term_abs_max_q f)); [discriminate|].
  destruct (checked_mul_u64 (rf_term_count f) _) as [ccs|] eqn:Hm2; [|discriminate]. apply checked_mul_Some in Hm2 as [_ ->].
  destruct (checked_add_u64 _ _) as [ta|] eqn:Ha; [|discriminate]. apply checked_add_Some in Ha as [_ ->].
  fold (total_bound f) in H. destruct (Z.ltb_spec I32_ENVELOPE_U64 (total_bound f)); [discriminate|].
  rewrite ceil_div_pos in H by done. injection H as <-. done.
Qed.

(** ** Running a plan

    The machine that a plan describes: one 16-bit accumulator; or one per
    chunk, added into 32 bits; or one per tile, whose sum joins the state,
    which is then rescaled with rounding into 16 bits. *)

Fixpoint chunks {A} (fuel : nat) (len : nat) (l : list A) : list (list A) :=
  match fuel, l with
  | S fuel', _ :: _ => take len l :: chunks fuel' len (drop len l)
  | _, _ => []
  end.

Definition run_chunk {E} (acc : Z) (chunk : list Z) : outcome E Z :=
  let* s := isum I16 0 chunk in ichk I32 (acc + s).
(** The value before rescaling is kept in 32 bits. *)
Definition run_tile {E} (rescale : Z -> Z) (state : Z) (tile : list Z) : outcome E Z :=
  let* s := isum I16 0 tile in
  let* pre_scale := ichk I32 (state + s) in
  ichk I16 (rescale pre_scale).

Definition run_reduction {E} (rescale : Z -> Z) (plan : ReductionPlan) (terms : list Z) (bias : Z) : outcome E Z :=
  match plan with
  | SingleI16 => let* s := isum I16 0 terms in ichk I16 (s + bias)
  | ChunkedI16 len =>
      let* s := ofold run_chunk 0 (chunks (length terms) (Z.to_nat len) terms) in ichk I32 (s + bias)
  | RenormLoop len _ =>
      let* s := ofold (run_tile rescale) 0 (chunks (length terms) (Z.to_nat len) terms) in ichk I16 (s + bias)
  end.

(** Any rescaling whose error is within the declared rounding error. *)
Definition rescales (plan : ReductionPlan) (rescale : Z -> Z) : Prop :=
  match plan with
  | RenormLoop _ r =>
      let c := rs_recurrence r in
      forall x, Z.abs (rescale x) <= div_ceil (Z.abs x * rr_input_scale_q16_16 c) (rr_output_scale_q16_16 c)
                                     + div_ceil (rr_max_rounding_error_q16_16 c) 65536
  | _ => True
  end.

Lemma chunks_concat {A} fuel len (l : list A) : (0 < len)%nat -> (length l <= fuel)%nat -> concat (chunks fuel len l) = l.
Proof.
  intros Hlen. revert l. induction fuel as [|fuel IH]; intros [|x l] Hl; try done; [cbn in Hl; lia|].
  cbn [chunks concat]. rewrite IH; [apply take_drop|]. rewrite length_drop. cbn [length] in *. lia.
Qed.

Lemma chunks_Forall {A} (P : A -> Prop) fuel len (l : list A) : Forall P l ->
  Forall (fun c => Forall P c /\ (length c <= len)%nat) (chunks fuel len l).
Proof.
  revert l. induction fuel as [|fuel IH]; intros [|x l] Hl; try constructor.
  - split; [by apply Forall_take | rewrite length_take; lia].
  - by apply IH, Forall_drop.
Qed.

Lemma chunks_length {A} fuel len (l : list A) : (0 < len)%nat -> (length l <= fuel)%nat ->
  zlen (chunks fuel len l) = div_ceil (zlen l) (Z.of_nat len).
Proof.
  intros Hlen. revert l. induction fuel as [|fuel IH]; intros [|x l] Hl; [done | cbn in Hl; lia | done|].
  cbn [chunks]. rewrite zlen_cons, IH by (rewrite length_drop; cbn [length] in *; lia).
  unfold zlen. rewrite length_drop. set (n := length (x :: l)) in *.
  assert (0 < Z.of_nat n) by (subst n; cbn; lia).
  destruct (decide (n <= len)%nat).
  - replace (n - len)%nat with 0%nat by lia.
    replace (div_ceil (Z.of_nat 0) (Z.of_nat len)) with 0 by (unfold div_ceil; by rewrite Z.mod_0_l, Z.div_0_l by lia).
    pose proof (div_ceil_spec (Z.of_nat n) (Z.of_nat len) ltac:(lia) ltac:(lia)).
    nia.
  - rewrite Nat2Z.inj_sub by lia. unfold div_ceil.
    replace (Z.of_nat n - Z.of_nat len) with (Z.of_nat n + (-1) * Z.of_nat len) by lia.
    rewrite Z.mod_add, Z.div_add by lia. destruct (_ =? 0); lia.
Qed.

Lemma zsum_concat ls : zsum (concat ls) = zsum (map zsum ls).
Proof. induction ls as [|l ls IH]; [done|]. cbn [concat map zsum]. by rewrite zsum_app, IH. Qed.

(** A stretch of terms that fits 16 bits. *)
Lemma tile_sum {E} B len (l : list Z) : 0 <= B -> B * len <= I16_ENVELOPE_U64 -> zlen l <= len ->
  Forall (fun x => Z.abs x <= B) l -> @isum E I16 0 l = Ok (zsum l) /\ Z.abs (zsum l) <= B * len.
Proof.
  intros HB Hlen Hl HF. pose proof (zsum_bound B l HF). unfold I16_ENVELOPE_U64 in Hlen.
  split; [|nia]. rewrite (isum_total I16 B) by (try done; unfold I16; cbn; nia). done.
Qed.

Section sound.
Context (f : ReductionSiteFacts) (terms : list Z) (bias : Z).
Hypothesis (Hf : facts_typed f).
Hypothesis (Hlen : zlen terms = rf_term_count f).
Hypothesis (Hterms : Forall (fun x => Z.abs x <= rf_per_term_abs_max_q f) terms).
Hypothesis (Hbias : Z.abs bias <= facts_bias_abs_max f).

Lemma single_runs {E} p : construct_single_i16_certificate SingleI16 f = SingleI16Proof p ->
  @run_reduction E id SingleI16 terms bias = Ok (zsum terms + bias).
Proof.
  intros [Hle _]%single_inv. unfold total_bound in Hle.
  pose proof (ft_per_term _ Hf). pose proof (ft_bias _ Hf) as Hb'. fold (facts_bias_abs_max f) in Hb'.
  destruct (tile_sum (E := E) (rf_per_term_abs_max_q f) (rf_term_count f) terms) as [Hs Hz]; [lia | lia | lia | done|].
  cbn [run_reduction]. rewrite Hs. cbn [obind]. apply ichk_fits. unfold I16, I16_ENVELOPE_U64 in *. cbn in *. lia.
Qed.

Lemma run_chunks {E} B len cs acc : 0 <= B -> B * len <= I16_ENVELOPE_U64 ->
  Forall (fun c => Forall (fun x => Z.abs x <= B) c /\ zlen c <= len) cs ->
  Z.abs acc + B * zlen (concat cs) <= I32_ENVELOPE_U64 ->
  @ofold E _ _ run_chunk acc cs = Ok (acc + zsum (concat cs)).
Proof.
  intros HB Hl HF. revert acc. induction HF as [|c cs [Hc Hcl] HF IH]; intros acc Hacc; [by rewrite Z.add_0_r|].
  cbn [ofold concat] in *. rewrite zlen_app in Hacc. destruct (tile_sum (E := E) B len c) as [Hs _]; [done..|].
  pose proof (zsum_bound B c Hc). pose proof (zlen_nonneg (concat cs)). pose proof (zlen_nonneg c).
  unfold run_chunk at 1. rewrite Hs. cbn [obind]. unfold I32_ENVELOPE_U64 in *.
  rewrite ichk_fits by (unfold I32; cbn; nia). cbn [obind]. rewrite IH by nia. by rewrite zsum_app, Z.add_assoc.
Qed.

Lemma chunked_runs {E} len p determinism : 0 < len ->
  construct_chunked_i16_certificate len (ChunkedI16 len) f determinism = (Ok (ChunkedI16Proof p) : outcome Empty_set _) ->
  @run_reduction E id (ChunkedI16 len) terms bias = Ok (zsum terms + bias).
Proof.
  intros Hpos H. destruct (chunked_inv _ _ _ _ Hpos H) as (Hc & Hle & _). unfold total_bound in Hle.
  clear H. pose proof (ft_per_term _ Hf). pose proof (ft_bias _ Hf) as Hb'. fold (facts_bias_abs_max f) in Hb'.
  pose proof (zsum_bound _ _ Hterms) as Hz. rewrite Hlen in Hz.
  set (cs := chunks (length terms) (Z.to_nat len) terms).
  assert (Hcat : concat cs = terms) by (apply chunks_concat; lia).
  cbn [run_reduction]. fold cs. rewrite (run_chunks (rf_per_term_abs_max_q f) len); [|lia..| |].
  - rewrite Hcat. cbn [obind]. rewrite Z.add_0_l. apply ichk_fits. unfold I32, I32_ENVELOPE_U64 in *. cbn in *. lia.
  - eapply Forall_impl; [by apply chunks_Forall|]. intros c [Hc1 Hc2]. split; [done | unfold zlen; lia].
  - rewrite Hcat, Hlen. unfold I32_ENVELOPE_U64 in *. lia.
Qed.

(** ** The recurrence *)

Lemma renorm_tile_step_Some c pts err s t : 0 < rr_output_scale_q16_16 c ->
  renorm_tile_step c pts err s = Some t ->
  t = div_ceil ((s + pts) * rr_input_scale_q16_16 c) (rr_output_scale_q16_16 c) + err.
Proof.
  intros Hout H. unfold renorm_tile_step in H.
  destruct (checked_add_u64 s pts) as [pre|] eqn:Ha; [|discriminate]. apply checked_add_Some in Ha as [_ ->]. cbn in H.
  destruct (checked_mul _ _ _) as [up|] eqn:Hm; [|discriminate]. apply checked_mul_Some in Hm as [_ ->]. cbn in H.
  rewrite ceil_div_pos in H by done. cbn in H.
  destruct (try_from_u _ _) as [sc|] eqn:Hs; [|discriminate]. apply try_from_u_Some in Hs as [_ ->]. cbn in H.
  by apply checked_add_Some in H as [_ ->].
Qed.

Lemma renorm_tiles_mono c pts err n s s' t : 0 < rr_output_scale_q16_16 c -> 0 <= rr_input_scale_q16_16 c ->
  renorm_tile_step c pts err s = Some s' -> s <= s' -> renorm_tiles n c pts err s' = Some t -> s' <= t.
Proof.
  intros Hout Hin. revert s s'. induction n as [|n IH]; intros s s' Hs Hle Ht; [injection Ht as <-; lia|].
  cbn [renorm_tiles] in Ht. destruct (renorm_tile_step c pts err s') as [s''|] eqn:Hs'; [|discriminate]. cbn in Ht.
  apply renorm_tile_step_Some in Hs; [|done]. pose proof (renorm_tile_step_Some _ _ _ _ _ Hout Hs') as Hs2.
  assert (s' <= s'').
  { subst s''. rewrite Hs at 1. apply Zplus_le_compat_r, div_ceil_mono; [done|]. apply Z.mul_le_mono_nonneg_r; lia. }
  specialize (IH s' s'' Hs' ltac:(done) Ht). lia.
Qed.

Lemma run_tiles {E} rescale c B len err ts state s t : 0 <= B -> 0 <= len -> B * len <= I16_ENVELOPE_U64 ->
  0 < rr_output_scale_q16_16 c -> 0 <= rr_input_scale_q16_16 c ->
  (forall x, Z.abs (rescale x) <= div_ceil (Z.abs x * rr_input_scale_q16_16 c) (rr_output_scale_q16_16 c) + err) ->
  Forall (fun x => Forall (fun x => Z.abs x <= B) x /\ zlen x <= len) ts ->
  Z.abs state <= s -> s <= I16_ENVELOPE_U64 -> (forall s', renorm_tile_step c (len * B) err s = Some s' -> s <= s') ->
  renorm_tiles (length ts) c (len * B) err s = Some t -> t <= I16_ENVELOPE_U64 ->
  exists r, @ofold E _ _ (run_tile rescale) state ts = Ok r /\ Z.abs r <= t.
Proof.
  intros HB Hl0 Hl Hout Hin Hresc HF. revert state s. induction HF as [|x ts [Hx Hxl] HF IH]; intros state s Hst Hs Hmono Ht Htb.
  - injection Ht as <-. by exists state.
  - cbn [length renorm_tiles] in Ht. destruct (renorm_tile_step c (len * B) err s) as [s'|] eqn:Hstep; [|discriminate].
    cbn in Ht. pose proof (Hmono _ eq_refl) as Hle. pose proof (renorm_tiles_mono _ _ _ _ _ _ _ Hout Hin Hstep Hle Ht) as Hst'.
    pose proof (renorm_tile_step_Some _ _ _ _ _ Hout Hstep) as Heq.
    destruct (tile_sum (E := E) B len x) as [Hsum Hz]; [done..|].
    assert (Habs : Z.abs (rescale (state + zsum x)) <= s').
    { etrans; [apply Hresc|]. rewrite Heq. apply Zplus_le_compat_r, div_ceil_mono; [done|].
      apply Z.mul_le_mono_nonneg_r; lia. }
    cbn [ofold]. unfold run_tile at 1. rewrite Hsum. cbn [obind]. unfold I16_ENVELOPE_U64 in *.
    rewrite ichk_fits by (unfold I32; cbn; lia). cbn [obind]. rewrite ichk_fits by (unfold I16; cbn; lia). cbn [obind].
    apply (IH _ s'); [lia | lia | | done | done].
    intros s'' Hs''. apply renorm_tile_step_Some in Hs''; [|done]. rewrite Hs'', Heq at 1.
    apply Zplus_le_compat_r, div_ceil_mono; [done|]. apply Z.mul_le_mono_nonneg_r; lia.
Qed.

Lemma renorm_runs {E} rescale len r p determinism : plan_typed (RenormLoop len r) -> 0 < len ->
  rescales (RenormLoop len r) rescale ->
  construct_renorm_loop_certificate len r (RenormLoop len r) f determinism = (Ok (RenormLoopProof p) : outcome Empty_set _) ->
  exists res, @run_reduction E rescale (RenormLoop len r) terms bias = Ok res.
Proof.
  intros (_ & Hin & Hout & Herr) Hpos Hresc H. unfold construct_renorm_loop_certificate in H.
  destruct (bool_decide _); [discriminate|]. rewrite (proj2 (Z.eqb_neq len 0)) in H by lia.
  destruct (checked_mul_u64 len _) as [pts|] eqn:Hm; [|discriminate].
  destruct (Z.ltb_spec I16_ENVELOPE_U64 pts) as [|Hpts]; [discriminate|].
  rewrite ceil_div_pos in H by done. cbn [expect obind] in H. unfold renorm_closed_form_bound in H.
  destruct (Z.eqb_spec (rr_output_scale_q16_16 (rs_recurrence r)) 0) as [|Hout0]; [by rewrite orb_true_r in H|].
  rewrite (proj2 (Z.eqb_neq len 0)), (ceil_div_pos (rf_term_count f)) in H by lia. cbn [orb mbind option_bind] in H.
  rewrite Z.eqb_refl in H. cbn [negb] in H. rewrite Hm in H. cbn [mbind option_bind] in H.
  rewrite ceil_div_pos in H by lia. cbn [mbind option_bind] in H.
  apply checked_mul_Some in Hm as [_ ->].
  destruct (renorm_tiles _ _ _ _ _) as [st|] eqn:Ht; [|discriminate]. cbn [mbind option_bind] in H.
  destruct (checked_add_u64 _ _) as [ta|] eqn:Ha; [|discriminate]. apply checked_add_Some in Ha as [_ ->].
  destruct (Z.ltb_spec I16_ENVELOPE_U64 (st + facts_bias_abs_max f)) as [|Hta]; [discriminate|]. clear H.
  pose proof (ft_per_term _ Hf). pose proof (ft_bias _ Hf) as Hb'. fold (facts_bias_abs_max f) in Hb'.
  set (cs := chunks (length terms) (Z.to_nat len) terms). set (c := rs_recurrence r) in *.
  assert (Hn : Z.to_nat (div_ceil (rf_term_count f) len) = length cs).
  { pose proof (chunks_length (length terms) (Z.to_nat len) terms ltac:(lia) ltac:(lia)) as Hl. fold cs in Hl.
    rewrite Z2Nat.id, Hlen in Hl by lia. rewrite <- Hl. unfold zlen. lia. }
  rewrite Hn in Ht.
  destruct (run_tiles (E := E) rescale c (rf_per_term_abs_max_q f) len (div_ceil (rr_max_rounding_error_q16_16 c) 65536) cs 0 0 st)
    as (res & Hres & Habs); [lia | lia | lia | lia | lia | exact Hresc | | done | done | | done | lia |].
  - eapply Forall_impl; [by apply chunks_Forall|]. intros x [Hc1 Hc2]. split; [done | unfold zlen; lia].
  - intros s' Hs'. apply renorm_tile_step_Some in Hs'; [|lia].
    pose proof (div_ceil_nonneg ((0 + len * rf_per_term_abs_max_q f) * rr_input_scale_q16_16 c) (rr_output_scale_q16_16 c)
                  ltac:(lia) ltac:(nia)).
    pose proof (div_ceil_nonneg (rr_max_rounding_error_q16_16 c) 65536 ltac:(lia) ltac:(lia)). lia.
  - exists (res + bias). cbn [run_reduction]. fold cs. rewrite Hres. cbn [obind]. apply ichk_fits.
    unfold I16, I16_ENVELOPE_U64 in *. cbn. lia.
Qed.
End sound.

Lemma run_verified (cert : AccumulatorCertificate) (plan : ReductionPlan) (f : ReductionSiteFacts)
    (determinism : DeterminismClass) (rescale : Z -> Z) (terms : list Z) (bias : Z)
    (Hf : facts_typed f) (Hplan : plan_typed plan) (Hverified : verifies cert plan f determinism = true)
    (Hlen : zlen terms = rf_term_count f)
    (Hterms : Forall (fun x => Z.abs x <= rf_per_term_abs_max_q f) terms)
    (Hbias : Z.abs bias <= facts_bias_abs_max f) (Hrescale : rescales plan rescale) :
  exists r, run_reduction rescale plan terms bias = (Ok r : outcome Empty_set Z)
    /\ (plan_family plan <> Family_RenormLoop -> r = zsum terms + bias).
Proof.
  apply verifies_iff in Hverified as (_ & _ & Hnf & Hc); [|done].
  pose proof (constructed_family _ _ _ _ Hc Hnf) as Hfam. pose proof (constructed_length _ _ _ _ Hplan Hc Hnf) as Hpos.
  destruct plan as [|len|len r], cert as [p|p|p|]; try discriminate; cbn [construct_accumulator_certificate] in Hc.
  - exists (zsum terms + bias). split; [|done]. injection Hc as Hc. exact (single_runs f terms bias Hf Hlen Hterms Hbias p Hc).
  - exists (zsum terms + bias). split; [|done]. exact (chunked_runs f terms bias Hf Hlen Hterms Hbias len p determinism Hpos Hc).
  - destruct (renorm_runs (E := Empty_set) f terms bias Hf Hlen Hterms Hbias rescale len r p determinism) as [res Hres]; [done..|].
    exists res. split; [done|]. by intros [].
Qed.

(** C26: a verified plan never overflows.  If a certificate verifies for a plan
    and a site's facts, then on every list of terms and every bias within the
    facts the machine of the plan runs to the end: every 16-bit partial sum,
    every 32-bit cross-chunk sum and every rescaled state fits, whatever the
    rescaling does within its declared error; without rescaling the result is
    the exact sum. *)
Theorem verified_plan_never_overflows (cert : AccumulatorCertificate) (plan : ReductionPlan) (f : ReductionSiteFacts)
    (determinism : DeterminismClass) (rescale : Z -> Z) (terms : list Z) (bias : Z)
    (Hf : facts_typed f) (Hplan : plan_typed plan) (Hverified : verifies_v cert plan f determinism = true)
    (Hlen : zlen terms = rf_term_count f)
    (Hterms : Forall (fun x => Z.abs x <= rf_per_term_abs_max_q f) terms)
    (Hbias : Z.abs bias <= facts_bias_abs_max f) (Hrescale : rescales plan rescale) :
  exists r, run_reduction rescale plan terms bias = (Ok r : outcome Empty_set Z)
    /\ (plan_family plan <> Family_RenormLoop -> r = zsum terms + bias).
Proof. rewrite verifies_agree in Hverified. by apply (run_verified cert plan f determinism). Qed.

Lemma verified_plan_never_overflows_witness : exists r,
  run_reduction id (ChunkedI16 32) (repeat (-512) 70) 7 = (Ok r : outcome Empty_set Z)
  /\ (plan_family (ChunkedI16 32) <> Family_RenormLoop -> r = zsum (repeat (-512) 70) + 7).
Proof.
  apply (verified_plan_never_overflows demo_chunked (ChunkedI16 32) demo_facts Deterministic id (repeat (-512) 70) 7).
  - constructor; cbn; lia.
  - cbn; lia.
  - vm_compute; reflexivity.
  - vm_compute; reflexivity.
  - apply List.Forall_forall. intros x Hx. apply List.repeat_spec in Hx. subst x. cbn. lia.
  - cbn; lia.
  - exact I.
Defined.

(** ** The worst-case simulation *)

Lemma add_terms_ok refute pt envelope n : 0 <= pt -> 0 <= n -> n * pt <= envelope -> envelope < U64 ->
  add_terms refute pt envelope n = Ok (n * pt).
Proof.
  intros Hpt Hn Hle Henv. unfold add_terms.
  destruct (ofold_zrange (fun k acc => acc = k * pt)
    (fun acc index => let* acc := uadd U128 acc pt in
                      let* _ := guard_err (envelope <? acc) (Refuted (refute (index + 1) acc)) in Ok acc) 0 n)
    as (acc & Hacc & ->); [done | lia | | done].
  intros k t Hk ->. exists ((k + 1) * pt). split; [|done].
  assert (k * pt + pt <= n * pt) by nia.
  unfold uadd. rewrite (proj2 (Z.ltb_lt _ _)) by lia. cbn [obind].
  rewrite (proj2 (Z.ltb_ge _ _)) by lia. cbn. f_equal. lia.
Qed.

Lemma simulate_single_ok tc pt ba envelope : 0 <= tc <= MAX_SIMULATED_TERMS -> 0 <= pt -> 0 <= ba ->
  tc * pt + ba <= envelope -> envelope < U64 ->
  simulate_single tc pt ba (tc * pt + ba) envelope = Ok Confirmed.
Proof.
  intros Htc Hpt Hba Hle Henv. unfold simulate_single, verdict.
  rewrite (proj2 (Z.ltb_ge _ _)) by lia. cbn [guard_err obind]. rewrite add_terms_ok by nia. cbn [obind].
  unfold uadd. rewrite (proj2 (Z.ltb_lt _ _)) by nia. cbn [obind]. rewrite (proj2 (Z.ltb_ge _ _)) by lia. cbn [guard_err obind].
  by rewrite Z.eqb_refl.
Qed.

Lemma chunk_loop_ok len pt envelope fuel cross remaining : 0 < len -> 0 <= pt -> len * pt <= I16_ENVELOPE_U64 ->
  envelope < U64 -> 0 <= cross -> 0 <= remaining < Z.of_nat fuel -> cross + remaining * pt <= envelope ->
  chunk_loop fuel len pt envelope cross remaining = Ok (cross + remaining * pt).
Proof.
  intros Hlen Hpt Hfit Henv. revert cross remaining. induction fuel as [|fuel IH]; intros cross remaining Hc Hr Hle; [lia|].
  cbn [chunk_loop]. destruct (Z.ltb_spec 0 remaining); [|f_equal; nia].
  set (k := Z.min remaining len). assert (Hk : 0 < k <= remaining /\ k <= len) by lia.
  rewrite add_terms_ok by (unfold I16_ENVELOPE_U64 in *; nia). cbn [obind]. unfold uadd, usub.
  rewrite (proj2 (Z.ltb_lt _ _)) by nia. cbn [obind]. rewrite (proj2 (Z.ltb_ge _ _)) by nia. cbn [guard_err obind].
  rewrite (proj2 (Z.leb_le _ _)) by lia. cbn [obind]. rewrite IH by nia. f_equal. ring.
Qed.

Lemma simulate_chunked_ok tc len pt ba envelope : 0 <= tc <= MAX_SIMULATED_TERMS -> 0 < len -> 0 <= pt -> 0 <= ba ->
  len * pt <= I16_ENVELOPE_U64 -> tc * pt + ba <= envelope -> envelope < U64 ->
  simulate_chunked tc len pt ba (tc * pt + ba) envelope = Ok Confirmed.
Proof.
  intros Htc Hlen Hpt Hba Hfit Hle Henv. unfold simulate_chunked, verdict.
  rewrite (proj2 (Z.eqb_neq len 0)) by lia. rewrite (proj2 (Z.ltb_ge _ _)) by lia. cbn [guard_err obind].
  rewrite chunk_loop_ok by nia. cbn [obind]. rewrite Z.add_0_l. unfold uadd. rewrite (proj2 (Z.ltb_lt _ _)) by nia. cbn [obind].
  rewrite (proj2 (Z.ltb_ge _ _)) by lia. cbn [guard_err obind]. by rewrite Z.eqb_refl.
Qed.

(** the simulation anchor confirms the algebra.  A certificate that the
    independent verifier accepts and that claims a single or a chunked
    accumulator is [Confirmed] by the term-by-term worst case, up to the size
    that the simulation takes. *)
Theorem verified_is_confirmed (cert : AccumulatorCertificate) (plan : ReductionPlan) (f : ReductionSiteFacts)
    (determinism : DeterminismClass) (Hf : facts_typed f) (Hplan : plan_typed plan)
    (Hverified : verifies_v cert plan f determinism = true) (Hfamily : plan_family plan <> Family_RenormLoop)
    (Hsize : rf_term_count f <= MAX_SIMULATED_TERMS) :
  simulate cert f = Ok Confirmed.
Proof.
  rewrite verifies_agree in Hverified. apply verifies_iff in Hverified as (_ & _ & Hnf & Hc); [|done].
  pose proof (constructed_family _ _ _ _ Hc Hnf) as Hfam. pose proof (constructed_length _ _ _ _ Hplan Hc Hnf) as Hpos.
  pose proof (ft_terms _ Hf). pose proof (ft_per_term _ Hf). pose proof (ft_bias _ Hf) as Hb.
  fold (facts_bias_abs_max f) in Hb.
  destruct plan as [|len|len r], cert as [p|p|p|]; try discriminate; [| |by destruct Hfamily]; cbn [construct_accumulator_certificate simulate] in Hc |- *.
  - injection Hc as Hc. apply single_inv in Hc as [Hle ->]. cbn. apply simulate_single_ok; unfold total_bound in *; try lia.
    by unfold I16_ENVELOPE_U64.
  - destruct (chunked_inv _ _ _ _ Hpos Hc) as (Hfit & Hle & -> & -> & -> & -> & ->).
    apply simulate_chunked_ok; unfold total_bound in *; try lia. by unfold I32_ENVELOPE_U64.
Qed.

Lemma verified_is_confirmed_witness : simulate demo_chunked demo_facts = Ok Confirmed.
Proof.
  apply (verified_is_confirmed demo_chunked (ChunkedI16 32) demo_facts Deterministic).
  - constructor; cbn; lia.
  - cbn; lia.
  - vm_compute; reflexivity.
  - discriminate.
  - vm_compute; discriminate.
Defined.
