(* ===== verification/RangePlanFacts.v ===== *)
(** * Range planning: lengths, choice and the whole stage

    The chosen lengths are the largest admissible powers of two; the chosen
    plan is of the smallest family that any certificate verifies; the stage's
    product passes the self-consistency rules and the independent verifier. *)

From S2P Require Import Prelude Numeric KnobLattice RangeCert RangePlan RangeVerify RangeFacts.

Record caps_typed (caps : RangeCapsSpec) : Prop := {
  ct_chunk_max : 0 <= profile_chunk_max caps < U16;
  ct_tile_max : 0 <= profile_tile_max caps < U16;
  ct_tile_min : 0 <= profile_tile_min caps < U16;
  ct_margin : match renorm_strategy caps with Policy_DynamicMargin m => 0 <= m < U32 | _ => True end;
}.

(** ** Powers of two *)

Definition is_pow2 (q : Z) : Prop := exists k, 0 <= k /\ q = 2 ^ k.

Definition is_largest (P : Z -> Prop) (p : Z) : Prop := P p /\ forall q, P q -> q <= p.

Lemma is_largest_unique P p q : is_largest P p -> is_largest P q -> p = q.
Proof. intros [Hp Hp'] [Hq Hq']. specialize (Hp' _ Hq). specialize (Hq' _ Hp). lia. Qed.

Lemma is_pow2_pos q : is_pow2 q -> 0 < q.
Proof. intros (k & Hk & ->). by apply Z.pow_pos_nonneg. Qed.

Lemma is_pow2_1 : is_pow2 1.
Proof. by exists 0. Qed.

(** No power of two lies between two neighbours. *)
Lemma is_pow2_gap p q : is_pow2 p -> is_pow2 q -> p < q -> 2 * p <= q.
Proof.
  intros (k & Hk & ->) (j & Hj & ->) Hlt. apply Z.pow_lt_mono_r_iff in Hlt; [|lia..].
  replace (2 * 2 ^ k) with (2 ^ (k + 1)) by (rewrite Z.pow_add_r by lia; lia). apply Z.pow_le_mono_r; lia.
Qed.

Lemma is_pow2_half p : is_pow2 p -> p <> 1 -> is_pow2 (p / 2) /\ p = 2 * (p / 2).
Proof.
  intros (k & Hk & ->) H1. destruct (decide (k = 0)) as [->|]; [done|].
  assert (Heq : 2 ^ k = 2 * 2 ^ (k - 1)) by (rewrite <- Z.pow_succ_r by lia; f_equal; lia).
  assert (Hd : 2 ^ k / 2 = 2 ^ (k - 1)) by (rewrite Heq, Z.mul_comm, Z.div_mul by lia; done).
  rewrite Hd. split; [exists (k - 1); lia | done].
Qed.

Lemma is_pow2_divide p q : is_pow2 p -> is_pow2 q -> p <= q -> (p | q).
Proof.
  intros (k & Hk & ->) (j & Hj & ->) Hle. apply Z.pow_le_mono_r_iff in Hle; [|lia..].
  exists (2 ^ (j - k)). rewrite <- Z.pow_add_r by lia. f_equal. lia.
Qed.

Lemma max_pow2_le_spec max : 0 < max -> max < U16 -> exists p,
  max_pow2_le max = Some p /\ is_largest (fun q => is_pow2 q /\ q <= max) p.
Proof.
  intros H0 HU. unfold max_pow2_le. rewrite (proj2 (Z.eqb_neq max 0)), Z.min_l by lia.
  pose proof (Z.log2_spec max H0) as [Hlo Hhi]. pose proof (Z.log2_nonneg max).
  rewrite Z.shiftl_mul_pow2, Z.mul_1_l by done. exists (2 ^ Z.log2 max). split.
  - apply try_from_u_Some. split; [|done]. split; [apply Z.pow_nonneg; lia | lia].
  - split; [split; [by exists (Z.log2 max) | done]|]. intros q [(k & Hk & ->) Hq].
    apply Z.pow_le_mono_r; [lia|]. apply Z.lt_succ_r, (Z.pow_lt_mono_r_iff 2); lia.
Qed.

Lemma is_multiple_of_pos a b : 0 < b -> is_multiple_of a b = true <-> (b | a).
Proof.
  intros Hb. unfold is_multiple_of. rewrite (proj2 (Z.eqb_neq b 0)), Z.eqb_eq by lia. apply Z.mod_divide. lia.
Qed.

Lemma pow2_divisor_loop_ok {E} fuel tc p : is_pow2 p -> p < 2 ^ Z.of_nat fuel -> exists d,
  @pow2_divisor_loop E fuel tc p = Ok (Some d) /\ is_largest (fun q => is_pow2 q /\ q <= p /\ (q | tc)) d.
Proof.
  revert p. induction fuel as [|fuel IH]; intros p Hp Hlt; [apply is_pow2_pos in Hp; cbn in Hlt; lia|].
  cbn [pow2_divisor_loop]. pose proof (is_pow2_pos p Hp) as Hpos. destruct (is_multiple_of tc p) eqn:Hm.
  - exists p. split; [done|]. apply is_multiple_of_pos in Hm; [|done]. split; [done|]. by intros q (_ & ? & _).
  - destruct (Z.eqb_spec p 1) as [->|H1].
    { apply not_true_iff_false in Hm. destruct Hm. apply is_multiple_of_pos; [done | apply Z.divide_1_l]. }
    destruct (is_pow2_half p Hp H1) as [Hh Heq].
    destruct (IH (p / 2)) as (d & Hd & (Hd1 & Hd2 & Hd3) & Hmax); [done | rewrite Nat2Z.inj_succ, Z.pow_succ_r in Hlt; lia|].
    exists d. split; [done|]. split; [split_and!; [done | lia | done]|].
    intros q (Hq & Hqp & Hqt). apply Hmax. split_and!; [done | | done].
    destruct (decide (q = p)) as [->|]; [|pose proof (is_pow2_gap q p Hq Hp); lia].
    apply is_multiple_of_pos in Hqt; [congruence | done].
Qed.

Lemma max_pow2_divisor_le_ok {E} tc max : 0 < max -> max < U16 -> exists d,
  @max_pow2_divisor_le E tc max = Ok (Some d) /\ is_largest (fun q => is_pow2 q /\ q <= max /\ (q | tc)) d.
Proof.
  intros H0 HU. unfold max_pow2_divisor_le. destruct (max_pow2_le_spec max H0 HU) as (p & -> & [Hp Hple] & Hpmax).
  destruct (@pow2_divisor_loop_ok E 17 tc p) as (d & Hd & (Hd1 & Hd2 & Hd3) & Hmax); [done | cbn; lia|].
  exists d. split; [done|]. split; [split_and!; [done | lia | done]|].
  intros q (Hq & Hqm & Hqt). apply Hmax. split_and!; [done | by apply Hpmax | done].
Qed.

(** The loop of [max_pow2_between] never raises its candidate: it starts at the
    largest power of two, so the next one is past the bound. *)
Lemma max_pow2_between_ok {E} min max : 0 < max -> max < U16 -> exists o,
  @max_pow2_between E min max = Ok o
  /\ match o with
     | Some p => is_largest (fun q => is_pow2 q /\ min <= q <= max) p
     | None => forall q, is_pow2 q -> q <= max -> q < min
     end.
Proof.
  intros H0 HU. unfold max_pow2_between. destruct (max_pow2_le_spec max H0 HU) as (p & -> & [Hp Hple] & Hpmax).
  cbn [pow2_between_loop]. destruct (Z.ltb_spec p min) as [Hlt|Hge].
  - exists None. split; [|intros q Hq Hqm; specialize (Hpmax q (conj Hq Hqm)); lia].
    destruct (checked_mul U16 p 2) as [next|] eqn:Hn; [|done]. apply checked_mul_Some in Hn as [_ ->].
    destruct (Z.ltb_spec max (p * 2)); [done|]. exfalso.
    assert (is_pow2 (p * 2)) as Hp2 by (destruct Hp as (k & Hk & ->); exists (k + 1); rewrite Z.pow_add_r by lia; lia).
    assert (p * 2 <= p) by (apply Hpmax; split; [done | lia]). pose proof (is_pow2_pos p Hp). lia.
  - exists (Some p). split; [done|]. split; [split; [done | lia]|]. intros q [Hq Hqm]. apply Hpmax. split; [done | lia].
Qed.

(** ** Lengths *)

(** A chunk length that the profile, the 16-bit accumulator and the
    determinism class admit. *)
Definition chunk_admissible (f : ReductionSiteFacts) (caps : RangeCapsSpec) (determinism : DeterminismClass) (q : Z) : Prop :=
  q <= profile_chunk_max caps /\ q * rf_per_term_abs_max_q f <= I16_ENVELOPE_U64
  /\ (determinism = BitExact -> (q | rf_term_count f)).

(** What the margin of the strategy leaves of the 16-bit envelope. *)
Definition tile_envelope (caps : RangeCapsSpec) : Z :=
  match renorm_strategy caps with
  | Policy_ExactPostBoundaryOnly => I16_ENVELOPE_U64
  | Policy_DynamicMargin m => Z.max (I16_ENVELOPE_U64 - I16_ENVELOPE_U64 * m / 65536) 0
  end.
Definition tile_admissible (f : ReductionSiteFacts) (caps : RangeCapsSpec) (q : Z) : Prop :=
  profile_tile_min caps <= q <= profile_tile_max caps /\ q * rf_per_term_abs_max_q f <= tile_envelope caps.

(** A bound on a product is a bound on the factor. *)
Lemma le_div_iff q per env : 0 < per -> q * per <= env <-> q <= env / per.
Proof.
  intros Hp. split; intros H; [apply Z.div_le_lower_bound; lia|]. pose proof (Z.mul_div_le env per Hp). nia.
Qed.

Lemma is_largest_iff P Q p : (forall q, P q <-> Q q) -> is_largest P p -> is_largest Q p.
Proof. intros H [Hp Hmax]. split; [by apply H|]. intros q Hq. by apply Hmax, H. Qed.

Lemma choose_chunk_len_spec `{BuildProfile} f caps determinism : facts_typed f -> caps_typed caps -> 0 < rf_term_count f ->
  (exists len, choose_chunk_len f caps determinism = Ok len
     /\ is_largest (fun q => is_pow2 q /\ chunk_admissible f caps determinism q) len)
  \/ (exists e, choose_chunk_len f caps determinism = Err e) /\ (forall q, 0 < q -> ~ chunk_admissible f caps determinism q).
Proof.
  intros Hf [Hcm _ _ _] Hterms. unfold choose_chunk_len, choose_chunk_len_with_bounds.
  destruct (Z.eqb_spec (profile_chunk_max caps) 0) as [Hz|Hnz]; cbn [guard_err obind].
  { right. split; [eauto|]. intros q Hq [? _]. lia. }
  rewrite (proj2 (Z.eqb_neq (rf_term_count f) 0)), andb_false_r by lia. cbn [guard_err obind].
  pose proof (ft_per_term _ Hf) as Hper. unfold checked_div.
  set (max_safe := if rf_per_term_abs_max_q f =? 0 then profile_chunk_max caps
                   else Z.min (I16_ENVELOPE_U64 / rf_per_term_abs_max_q f) (profile_chunk_max caps)).
  assert (Hadm : forall q, 0 < q -> q <= max_safe <-> q <= profile_chunk_max caps /\ q * rf_per_term_abs_max_q f <= I16_ENVELOPE_U64).
  { intros q Hq. subst max_safe. destruct (Z.eqb_spec (rf_per_term_abs_max_q f) 0) as [->|Hp].
    - unfold I16_ENVELOPE_U64. split; [intros ?; split; lia | by intros [? _]].
    - rewrite (le_div_iff q _ _) by lia. lia. }
  destruct (decide (max_safe = 0)) as [Hms|Hms].
  { right. subst max_safe. destruct (Z.eqb_spec (rf_per_term_abs_max_q f) 0); [lia|].
    assert (I16_ENVELOPE_U64 / rf_per_term_abs_max_q f = 0) as -> by lia. cbn [Z.eqb obind]. split; [eauto|].
    intros q Hq (H1 & H2 & _). specialize (proj2 (Hadm q Hq) (conj H1 H2)). lia. }
  assert (Hrange : 0 < max_safe <= profile_chunk_max caps).
  { subst max_safe. destruct (Z.eqb_spec (rf_per_term_abs_max_q f) 0); [lia|].
    pose proof (Z.div_pos I16_ENVELOPE_U64 (rf_per_term_abs_max_q f) ltac:(done) ltac:(lia)). lia. }
  left.
  assert (Hms' : match (if rf_per_term_abs_max_q f =? 0 then None else Some (I16_ENVELOPE_U64 / rf_per_term_abs_max_q f)) with
    | None => Ok (profile_chunk_max caps)
    | Some raw => if raw =? 0 then Err (PL_PerChunkExceedsI16Envelope (rf_per_term_abs_max_q f) I16_ENVELOPE_U64)
                  else Ok (Z.min raw (profile_chunk_max caps)) end = Ok max_safe).
  { subst max_safe. destruct (Z.eqb_spec (rf_per_term_abs_max_q f) 0); [done|].
    destruct (Z.eqb_spec (I16_ENVELOPE_U64 / rf_per_term_abs_max_q f) 0); [lia | done]. }
  rewrite Hms'. cbn [obind]. clearbody max_safe. clear Hms'.
  assert (Hfound : exists d,
    match determinism with
    | BitExact => max_pow2_divisor_le (rf_term_count f) max_safe
    | _ => Ok (max_pow2_le max_safe) end = (Ok (Some d) : outcome PlanLengthSelectionError _)
    /\ is_largest (fun q => is_pow2 q /\ q <= max_safe /\ (determinism = BitExact -> (q | rf_term_count f))) d).
  { destruct determinism.
    - destruct (@max_pow2_divisor_le_ok PlanLengthSelectionError (rf_term_count f) max_safe) as (d & -> & Hd); [lia..|].
      exists d. split; [done|]. eapply is_largest_iff; [|exact Hd]. intros q. naive_solver.
    - destruct (max_pow2_le_spec max_safe) as (d & -> & Hd); [lia..|].
      exists d. split; [done|]. eapply is_largest_iff; [|exact Hd]. intros q. naive_solver.
    - destruct (max_pow2_le_spec max_safe) as (d & -> & Hd); [lia..|].
      exists d. split; [done|]. eapply is_largest_iff; [|exact Hd]. intros q. naive_solver. }
  destruct Hfound as (d & -> & Hd). cbn [obind ok_or].
  rewrite debug_assert_true by (destruct Hd as [(? & ? & _) _]; lia). cbn [obind sl_len].
  exists d. split; [done|]. eapply is_largest_iff; [|exact Hd]. intros q. unfold chunk_admissible. split.
  - intros (Hq & Hle & Hb). apply Hadm in Hle; [|by apply is_pow2_pos]. tauto.
  - intros (Hq & H1 & H2 & Hb). split; [done|]. split; [|done]. apply Hadm; [by apply is_pow2_pos | done].
Qed.

Lemma choose_tile_len_spec f caps determinism : facts_typed f -> caps_typed caps -> determinism <> BitExact ->
  0 < rf_per_term_abs_max_q f ->
  (exists len, choose_tile_len f caps determinism = Ok len
     /\ is_largest (fun q => is_pow2 q /\ tile_admissible f caps q) len)
  \/ (exists e, choose_tile_len f caps determinism = Err e) /\ (forall q, is_pow2 q -> ~ tile_admissible f caps q).
Proof.
  intros Hf [_ Htm Htn Hmargin] Hdet Hper. unfold choose_tile_len, choose_tile_len_with_bounds.
  rewrite bool_decide_false by done. cbn [guard_err obind].
  destruct (Z.ltb_spec (profile_tile_max caps) (profile_tile_min caps)); cbn [guard_err obind].
  { right. split; [eauto|]. intros q _ [? _]. lia. }
  assert (Henv : exists margin, match renorm_strategy caps with
    | Policy_ExactPostBoundaryOnly => Ok 0
    | Policy_DynamicMargin m => let* prod := umul U64 I16_ENVELOPE_U64 m in Ok (prod / 65536) end
    = (Ok margin : outcome PlanLengthSelectionError Z) /\ Z.max (I16_ENVELOPE_U64 - margin) 0 = tile_envelope caps).
  { unfold tile_envelope. destruct (renorm_strategy caps) as [|m]; [by exists 0|].
    unfold umul. rewrite (proj2 (Z.ltb_lt _ _)) by (unfold I16_ENVELOPE_U64; lia). cbn [obind]. eauto. }
  destruct Henv as (margin & -> & Henv). cbn [obind]. rewrite Henv. clear Henv margin.
  rewrite (proj2 (Z.eqb_neq (rf_per_term_abs_max_q f) 0)) by lia. unfold checked_div.
  rewrite (proj2 (Z.eqb_neq (rf_per_term_abs_max_q f) 0)) by lia. set (raw := tile_envelope caps / rf_per_term_abs_max_q f).
  assert (Hadm : forall q, tile_admissible f caps q <-> profile_tile_min caps <= q /\ q <= Z.min raw (profile_tile_max caps)).
  { intros q. unfold tile_admissible. rewrite (le_div_iff q _ _) by done. fold raw. lia. }
  assert (0 <= raw).
  { subst raw. apply Z.div_pos; [|done]. unfold tile_envelope. destruct (renorm_strategy caps); unfold I16_ENVELOPE_U64; lia. }
  destruct (Z.eqb_spec raw 0) as [Hr|Hr]; cbn [guard_err obind].
  { right. split; [eauto|]. intros q Hq Ha%Hadm. pose proof (is_pow2_pos q Hq). lia. }
  destruct (Z.ltb_spec raw (profile_tile_min caps)); cbn [guard_err obind].
  { right. split; [eauto|]. intros q Hq Ha%Hadm. lia. }
  destruct (decide (profile_tile_max caps = 0)) as [Hz|Hnz].
  { right. rewrite Z.min_r by lia. rewrite Hz. cbn. split; [eauto|].
    intros q Hq Ha%Hadm. pose proof (is_pow2_pos q Hq). lia. }
  destruct (@max_pow2_between_ok PlanLengthSelectionError (profile_tile_min caps) (Z.min raw (profile_tile_max caps)))
    as ([p|] & -> & Ho); [lia | lia | |]; cbn [obind ok_or].
  - left. exists p. split; [done|]. eapply is_largest_iff; [|exact Ho]. intros q. rewrite (Hadm q). tauto.
  - right. split; [eauto|]. intros q Hq Ha%Hadm. specialize (Ho q Hq). lia.
Qed.

(** the chosen lengths are the largest admissible powers of two.  A chunk
    length is returned exactly when it is the largest power of two within the
    profile's maximum, whose chunk fits 16 bits and, for bit-exact plans, that
    divides the number of terms; a tile length exactly when it is the largest
    within the profile's bounds that the margin leaves room for. *)
Theorem lengths_are_largest_powers `{BuildProfile} (f : ReductionSiteFacts) (caps : RangeCapsSpec)
    (determinism : DeterminismClass) (len : Z)
    (Hf : facts_typed f) (Hcaps : caps_typed caps) (Hterms : 0 < rf_term_count f) :
  (choose_chunk_len f caps determinism = Ok len
   <-> is_largest (fun q => is_pow2 q /\ chunk_admissible f caps determinism q) len)
  /\ (determinism <> BitExact -> 0 < rf_per_term_abs_max_q f ->
      choose_tile_len f caps determinism = Ok len <-> is_largest (fun q => is_pow2 q /\ tile_admissible f caps q) len).
Proof.
  split; [|intros Hdet Hper].
  - destruct (choose_chunk_len_spec f caps determinism Hf Hcaps Hterms) as [(d & -> & Hd)|[[e ->] Hno]]; split.
    + by intros [= <-].
    + intros Hl. f_equal. by eapply is_largest_unique.
    + discriminate.
    + intros [[Hq Ha] _]. destruct (Hno len); [by apply is_pow2_pos | done].
  - destruct (choose_tile_len_spec f caps determinism Hf Hcaps Hdet Hper) as [(d & -> & Hd)|[[e ->] Hno]]; split.
    + by intros [= <-].
    + intros Hl. f_equal. by eapply is_largest_unique.
    + discriminate.
    + intros [[Hq Ha] _]. by destruct (Hno len).
Qed.

Definition demo_caps : RangeCapsSpec := MkRangeCapsSpec 256 256 8 (Policy_DynamicMargin 4096).

Lemma demo_facts_typed : facts_typed demo_facts.
Proof. constructor; cbn; lia. Qed.
Lemma demo_caps_typed : caps_typed demo_caps.
Proof. constructor; cbn; lia. Qed.

Lemma lengths_are_largest_powers_witness :
  is_largest (fun q => is_pow2 q /\ chunk_admissible demo_facts demo_caps BitExact q) 2
  /\ is_largest (fun q => is_pow2 q /\ tile_admissible demo_facts demo_caps q) 32.
Proof.
  split.
  - apply (lengths_are_largest_powers (H := true) demo_facts demo_caps BitExact 2 demo_facts_typed demo_caps_typed);
      [cbn; lia | vm_compute; reflexivity].
  - apply (lengths_are_largest_powers (H := true) demo_facts demo_caps Deterministic 32 demo_facts_typed demo_caps_typed);
      [cbn; lia | discriminate | cbn; lia | vm_compute; reflexivity].
Defined.

(** ** Candidates *)

Lemma candidate_result `{BuildProfile} family f caps determinism : facts_typed f -> caps_typed caps -> 0 < rf_term_count f ->
  (exists plan, canonical_candidate_for_family family f caps determinism = Ok plan /\ plan_family plan = family /\ plan_typed plan
                /\ rounding_declared plan)
  \/ (exists e, canonical_candidate_for_family family f caps determinism = Err e).
Proof.
  intros Hf Hcaps Hterms. destruct family; cbn [canonical_candidate_for_family]; [left; by exists SingleI16| |].
  - destruct (choose_chunk_len_spec f caps determinism Hf Hcaps Hterms) as [(d & -> & [[Hd (Hle & _)] _])|[[e ->] _]].
    + left. exists (ChunkedI16 d). split; [done|]. split; [done|]. pose proof (is_pow2_pos d Hd).
      destruct Hcaps. split; [cbn; lia | done].
    + right. eauto.
  - destruct (decide (determinism = BitExact)) as [->|Hdet]; [right; eauto|].
    assert (Hspec : forall d, 0 <= d < U16 -> exists plan,
      (Ok (RenormLoop d (renorm_spec_for_policy f (renorm_strategy caps))) : outcome PlanLengthSelectionError _) = Ok plan
      /\ plan_family plan = Family_RenormLoop /\ plan_typed plan /\ rounding_declared plan).
    { intros d Hd. eexists. split; [done|]. split; [done|]. split; [|done]. cbn.
      destruct (renorm_strategy caps); lia. }
    destruct (decide (rf_per_term_abs_max_q f = 0)) as [Hz|Hz].
    + unfold choose_tile_len, choose_tile_len_with_bounds. rewrite bool_decide_false by done. cbn [guard_err obind].
      destruct (Z.ltb_spec (profile_tile_max caps) (profile_tile_min caps)); cbn [guard_err obind]; [right; eauto|].
      assert (Hm : exists margin, match renorm_strategy caps with
        | Policy_ExactPostBoundaryOnly => Ok 0
        | Policy_DynamicMargin m => let* prod := umul U64 I16_ENVELOPE_U64 m in Ok (prod / 65536) end
        = (Ok margin : outcome PlanLengthSelectionError Z)).
      { pose proof (ct_margin _ Hcaps). destruct (renorm_strategy caps) as [|m]; [by exists 0|].
        unfold umul. rewrite (proj2 (Z.ltb_lt _ _)) by (unfold I16_ENVELOPE_U64; lia). cbn [obind]. eauto. }
      destruct Hm as [margin ->]. cbn [obind]. rewrite Hz. cbn [Z.eqb obind sl_len]. left. apply Hspec. by destruct Hcaps.
    + pose proof (ft_per_term _ Hf).
      destruct (choose_tile_len_spec f caps determinism Hf Hcaps Hdet) as [(d & -> & [[Hd (Hle & _)] _])|[[e ->] _]]; [lia| |].
      * left. cbn [obind]. apply Hspec. pose proof (is_pow2_pos d Hd). destruct Hcaps. lia.
      * right. eauto.
Qed.

Lemma generate_plan_candidates_ok {E} `{BuildProfile} f ceiling caps determinism :
  facts_typed f -> caps_typed caps -> 0 < rf_term_count f -> exists g,
  @generate_plan_candidates E _ f ceiling caps determinism = Ok g
  /\ (forall plan, plan ∈ pg_candidates g <->
        plan_family plan ∈ candidate_families_under_ceiling ceiling
        /\ canonical_candidate_for_family (plan_family plan) f caps determinism = Ok plan)
  /\ (length (pg_candidates g) <= 3)%nat.
Proof.
  intros Hf Hcaps Hterms. unfold generate_plan_candidates.
  set (families := candidate_families_under_ceiling ceiling).
  assert (Hfold : forall fams cs rs, exists cs' rs',
    ofold (generate_family f caps determinism) (cs, rs) fams
      = (Ok (cs', rs') : outcome E (list ReductionPlan * list (ReductionPlanFamily * PlanLengthSelectionError)))
    /\ (forall plan, plan ∈ cs' <-> plan ∈ cs \/ plan_family plan ∈ fams
          /\ canonical_candidate_for_family (plan_family plan) f caps determinism = Ok plan)
    /\ (length cs' <= length cs + length fams)%nat).
  { induction fams as [|fam fams IH]; intros cs rs.
    - exists cs, rs. split; [done|]. split; [|cbn; lia]. intros plan. split; [by left|]. by intros [?|[Hn%elem_of_nil _]].
    - cbn [ofold]. unfold generate_family at 1.
      destruct (candidate_result fam f caps determinism Hf Hcaps Hterms) as [(plan & Hc & Hfam & _)|[e Hc]]; rewrite Hc; cbn [try_result obind].
      + destruct (IH (cs ++ [plan]) rs) as (cs' & rs' & -> & Hin & Hlen). exists cs', rs'. split; [done|].
        split; [|rewrite length_app in Hlen; cbn in *; lia]. intros p.
        rewrite Hin, elem_of_app, list_elem_of_singleton, elem_of_cons. split.
        * intros [[?| ->]|[? ?]]; [by left | right | right]; split; auto. by rewrite Hfam.
        * intros [?|[[Hp|?] Hcp]]; [auto | | auto]. left. right. rewrite Hp, Hc in Hcp. by injection Hcp.
      + destruct (IH cs (rs ++ [(fam, e)])) as (cs' & rs' & -> & Hin & Hlen). exists cs', rs'. split; [done|].
        split; [|cbn in *; lia]. intros p.
        rewrite Hin, elem_of_cons. split; [intros [?|[? ?]]; auto|].
        intros [?|[[Hp|?] Hcp]]; [auto | | auto]. rewrite Hp, Hc in Hcp. discriminate. }
  destruct (Hfold families [] []) as (cs & rs & -> & Hin & Hlen). eexists. split; [done|]. cbn [pg_candidates].
  split; [|subst families; destruct ceiling; cbn in *; lia]. intros plan.
  rewrite Hin. split; [intros [Hn%elem_of_nil|?]; [done | done] | by right].
Qed.

(** ** Choice *)

Lemma find_sorted {A} (rank : A -> Z) (P : A -> bool) l :
  StronglySorted (fun a b => (rank a <=? rank b) = true) l ->
  match List.find P l with
  | Some x => x ∈ l /\ P x = true /\ forall y, y ∈ l -> P y = true -> rank x <= rank y
  | None => forall y, y ∈ l -> P y = false
  end.
Proof.
  induction 1 as [|x l Hl IH Hx]; cbn [List.find]; [by intros y Hy%elem_of_nil|].
  rewrite Forall_forall in Hx. destruct (P x) eqn:HP.
  - split; [by left|]. split; [done|]. intros y [->|Hy]%elem_of_cons _; [done|]. apply Z.leb_le, Hx, Hy.
  - destruct (List.find P l) as [z|].
    + destruct IH as (Hz & HPz & Hmin). split; [by right|]. split; [done|].
      intros y [->|Hy]%elem_of_cons HPy; [congruence | by apply Hmin].
    + intros y [->|Hy]%elem_of_cons; [done | by apply IH].
Qed.

Section choice.
Context `{BuildProfile} (f : ReductionSiteFacts) (caps : RangeCapsSpec) (determinism : DeterminismClass).
Hypothesis (Hf : facts_typed f).
Hypothesis (Hcaps : caps_typed caps).
Hypothesis (Hterms : 0 < rf_term_count f).

(** A plan that the profile admits: any chunk length up to the maximum; the
    tile length and rescaling are those of the profile. *)
Definition plan_within (plan : ReductionPlan) : Prop :=
  match plan with
  | SingleI16 => True
  | ChunkedI16 len => 0 <= len <= profile_chunk_max caps
  | RenormLoop _ _ => canonical_candidate_for_family Family_RenormLoop f caps determinism = Ok plan
  end.

Lemma plan_within_typed plan : plan_within plan -> plan_typed plan /\ rounding_declared plan.
Proof.
  destruct plan as [|len|len r]; cbn [plan_within]; [done | |].
  - intros ?. pose proof (ct_chunk_max _ Hcaps). split; [cbn; lia | done].
  - intros Hc. destruct (candidate_result Family_RenormLoop f caps determinism Hf Hcaps Hterms) as [(p & Hp & _ & Ht & Hr)|[e He]].
    + rewrite Hc in Hp. by injection Hp as <-.
    + congruence.
Qed.

(** If any admissible plan of a family verifies, the canonical one does. *)
Lemma canonical_complete plan cert : plan_within plan -> verifies cert plan f determinism = true ->
  exists canon cert', canonical_candidate_for_family (plan_family plan) f caps determinism = Ok canon
    /\ construct_accumulator_certificate canon f determinism = (Ok cert' : outcome Empty_set _)
    /\ verifies cert' canon f determinism = true.
Proof.
  intros Hw Hv. destruct (plan_within_typed plan Hw) as [Ht Hr].
  pose proof (proj1 (verifies_iff _ _ _ _ Ht) Hv) as (Hraw & _ & Hnf & Hc).
  destruct plan as [|len|len r]; cbn [plan_family plan_within] in *.
  - exists SingleI16, cert. done.
  - pose proof (constructed_length _ _ _ _ Ht Hc Hnf) as Hpos. pose proof (constructed_family _ _ _ _ Hc Hnf) as Hfam.
    destruct cert as [|p| |]; try discriminate. cbn [construct_accumulator_certificate] in Hc. cbv beta iota in Hpos.
    destruct (chunked_inv _ _ _ _ Hpos Hc) as (Hfit & Htot & _).
    assert (Hadm : chunk_admissible f caps determinism len).
    { split; [lia|]. split; [done|]. intros ->. unfold construct_chunked_i16_certificate in Hc.
      rewrite (proj2 (Z.eqb_neq len 0)) in Hc by lia. cbn [bool_decide decide] in Hc. apply is_multiple_of_pos; [done|].
      destruct (is_multiple_of (rf_term_count f) len); [done | discriminate]. }
    destruct (choose_chunk_len_spec f caps determinism Hf Hcaps Hterms) as [(d & Hd & [[Hd1 (Hd2 & Hd3 & Hd4)] _])|[_ Hno]];
      [|by destruct (Hno len)].
    pose proof (is_pow2_pos d Hd1) as Hdpos. exists (ChunkedI16 d).
    assert (Hcd : exists q, construct_chunked_i16_certificate d (ChunkedI16 d) f determinism
                            = (Ok (ChunkedI16Proof q) : outcome Empty_set _)).
    { unfold construct_chunked_i16_certificate. rewrite (proj2 (Z.eqb_neq d 0)) by lia.
      assert (Hdiv : bool_decide (determinism = BitExact) && negb (is_multiple_of (rf_term_count f) d) = false).
      { case_bool_decide as Hb; [|done]. apply negb_false_iff, is_multiple_of_pos; [done | by apply Hd4]. }
      rewrite Hdiv. unfold total_bound, I16_ENVELOPE_U64, I32_ENVELOPE_U64 in *.
      pose proof (ft_bias _ Hf) as Hb. fold (facts_bias_abs_max f) in Hb.
      unfold checked_mul_u64, checked_add_u64, checked_mul, checked_add.
      rewrite (proj2 (Z.ltb_lt (d * _) _)), (proj2 (Z.ltb_ge _ (d * _))), (proj2 (Z.ltb_lt (rf_term_count f * _) _)) by lia.
      rewrite (proj2 (Z.ltb_lt _ U64)), (proj2 (Z.ltb_ge _ _)) by lia. rewrite ceil_div_pos by done. cbn [expect obind]. eauto. }
    destruct Hcd as [q Hq]. exists (ChunkedI16Proof q). cbn [canonical_candidate_for_family]. rewrite Hd.
    split; [done|]. split; [done|]. apply chunked_verifies; [done|]. by exists d.
  - exists (RenormLoop len r), cert. done.
Qed.

Definition least_family (ceiling : ReductionPlanCeiling) (plan : ReductionPlan) : Prop :=
  forall plan' cert', plan_within plan' -> plan_family plan' ∈ candidate_families_under_ceiling ceiling ->
    verifies cert' plan' f determinism = true -> family_rank (plan_family plan) <= family_rank (plan_family plan').
End choice.

Lemma construct_any {E F} plan f determinism cert :
  construct_accumulator_certificate plan f determinism = (Ok cert : outcome E _) ->
  construct_accumulator_certificate plan f determinism = (Ok cert : outcome F _).
Proof.
  destruct plan as [|len|len r]; cbn [construct_accumulator_certificate]; [congruence | |].
  - unfold construct_chunked_i16_certificate. repeat (case_match; try done); try congruence.
    destruct (ceil_div _ _); cbn [expect obind]; congruence.
  - unfold construct_renorm_loop_certificate. repeat (case_match; try done); try congruence.
    destruct (ceil_div _ _); cbn [expect obind]; [|done]. repeat (case_match; try done); congruence.
Qed.

Section choose.
Context `{BuildProfile} (binding : EffectiveCeilingBinding) (caps : RangeCapsSpec) (determinism : DeterminismClass).
Abbreviation f := (cb_facts binding).
Abbreviation ceiling := (cb_effective_ceiling binding).
Hypothesis (Hf : facts_typed f).
Hypothesis (Hcaps : caps_typed caps).
Hypothesis (Hterms : 0 < rf_term_count f).

Lemma attempts_ok {E} cands : exists attempts,
  omapM (attempt f determinism) cands = (Ok attempts : outcome E _)
  /\ (forall a, a ∈ attempts <-> cc_plan a ∈ cands
        /\ construct_accumulator_certificate (cc_plan a) f determinism = (Ok (cc_certificate a) : outcome E _)).
Proof.
  induction cands as [|plan cands (attempts & IH & Hin)]; [exists []; split; [done|]; set_solver|].
  cbn [omapM]. unfold attempt at 1. destruct (@construct_total E plan f determinism) as (cert & Hc & _).
  rewrite Hc. cbn [obind]. rewrite IH. cbn [obind]. eexists. split; [done|]. intros [p c].
  rewrite !elem_of_cons, Hin. cbn [cc_plan cc_certificate]. split.
  - intros [[= -> ->]|[? ?]]; [split; [by left | done] | split; [by right | done]].
  - intros [[->|?] Hcp]; [left; congruence | by right].
Qed.

Lemma plan_choice_failure_code_ok {E} : exists code, @plan_choice_failure_code E _ binding caps determinism = Ok code.
Proof.
  unfold plan_choice_failure_code. destruct ceiling; [eauto | | eauto].
  destruct (candidate_result Family_RenormLoop f caps determinism Hf Hcaps Hterms) as [(p & Hp & _)|[e He]].
  - rewrite Hp. cbn [try_result obind]. unfold verifies_for.
    destruct (@construct_total E p f determinism) as (cert & -> & _). cbn [obind]. eauto.
  - rewrite He. cbn [try_result obind]. eauto.
Qed.

(** Planning one site: the choice, what it guarantees and what a failure means. *)
Record choice_ok (ch : PlanChoice) : Prop := {
  co_attempts : forall a, a ∈ pc_attempts ch ->
    plan_typed (cc_plan a) /\ construct_accumulator_certificate (cc_plan a) f determinism = (Ok (cc_certificate a) : outcome Empty_set _);
  co_length : (length (pc_attempts ch) <= 3)%nat;
  co_chosen : forall c, pc_chosen ch = Some c ->
    pc_diagnostics ch = []
    /\ cr_site c = cb_site binding /\ cr_facts c = f
    /\ plan_family (cr_plan c) ∈ candidate_families_under_ceiling ceiling
    /\ plan_within f caps determinism (cr_plan c)
    /\ verifies (cr_proof c) (cr_plan c) f determinism = true
    /\ least_family f caps determinism ceiling (cr_plan c);
  co_none : pc_chosen ch = None ->
    (exists code, pc_diagnostics ch = [RD_PlanChoice (cb_site binding) code])
    /\ forall plan cert, plan_within f caps determinism plan -> plan_family plan ∈ candidate_families_under_ceiling ceiling ->
         verifies cert plan f determinism = false;
}.

Lemma family_rank_sorted (attempts : list CertificateConstruction) :
  StronglySorted (fun a b => (family_rank (plan_family (cc_plan a)) <=? family_rank (plan_family (cc_plan b))) = true)
    (sort_by (fun a b => family_rank (plan_family (cc_plan a)) <=? family_rank (plan_family (cc_plan b))) attempts).
Proof.
  apply sort_by_sorted.
  - intros x y. rewrite !Z.leb_le. lia.
  - intros x y z. rewrite !Z.leb_le. lia.
Qed.

Lemma choose_plan_ok {E} : exists g ch,
  @generate_plan_candidates E _ f ceiling caps determinism = Ok g
  /\ @choose_plan E _ binding g caps determinism = Ok ch /\ choice_ok ch.
Proof.
  destruct (@generate_plan_candidates_ok E _ f ceiling caps determinism Hf Hcaps Hterms) as (g & Hg & Hin & Hlen).
  destruct (@attempts_ok E (pg_candidates g)) as (attempts & Ha & Hatt). exists g.
  pose proof (omapM_length _ _ _ Ha) as Hl.
  unfold choose_plan. rewrite Hg, Ha. cbn [obind]. set (sorted := sort_by _ attempts).
  pose proof (find_sorted (fun a => family_rank (plan_family (cc_plan a)))
    (fun a => verifies (cc_certificate a) (cc_plan a) f determinism) sorted (family_rank_sorted attempts)) as Hfind.
  assert (Hmem : forall a, a ∈ sorted <-> plan_family (cc_plan a) ∈ candidate_families_under_ceiling ceiling
    /\ canonical_candidate_for_family (plan_family (cc_plan a)) f caps determinism = Ok (cc_plan a)
    /\ construct_accumulator_certificate (cc_plan a) f determinism = (Ok (cc_certificate a) : outcome E _)).
  { intros a. unfold sorted. rewrite elem_of_sort_by, Hatt, Hin. tauto. }
  assert (Hcanon : forall a, a ∈ sorted -> plan_typed (cc_plan a) /\ plan_within f caps determinism (cc_plan a)).
  { intros a (_ & Hc & _)%Hmem.
    destruct (candidate_result (plan_family (cc_plan a)) f caps determinism Hf Hcaps Hterms) as [(p & Hp & _ & Ht & _)|[e He]];
      [|congruence].
    rewrite Hc in Hp. injection Hp as Hp. rewrite <- Hp in Ht. split; [done|].
    destruct (cc_plan a) as [|len|len r]; [done | | done]. cbn in Hc |- *. destruct (choose_chunk_len_spec f caps determinism Hf Hcaps Hterms)
      as [(d & Hd & [[Hd1 [Hd2 _]] _])|[[e He] _]]; [rewrite Hd in Hc; injection Hc as <- | by rewrite He in Hc].
    pose proof (is_pow2_pos d Hd1). lia. }
  assert (Hex : forall plan cert, plan_within f caps determinism plan ->
    plan_family plan ∈ candidate_families_under_ceiling ceiling -> verifies cert plan f determinism = true ->
    exists a, a ∈ sorted /\ verifies (cc_certificate a) (cc_plan a) f determinism = true
              /\ plan_family (cc_plan a) = plan_family plan).
  { intros plan cert Hw Hfam Hv.
    destruct (canonical_complete f caps determinism Hf Hcaps Hterms plan cert Hw Hv) as (canon & cert' & Hc & Hcc & Hv').
    destruct (candidate_result (plan_family plan) f caps determinism Hf Hcaps Hterms) as [(p & Hp & Hpf & _)|[e He]];
      [|congruence].
    rewrite Hc in Hp. injection Hp as <-. exists (MkCertificateConstruction canon cert'). split; [|done].
    apply Hmem. cbn [cc_plan cc_certificate]. rewrite Hpf. split; [done|]. split; [done|]. by eapply construct_any. }
  assert (Hsl : (length sorted <= 3)%nat) by (unfold sorted; rewrite sort_by_perm; lia).
  assert (Hattempts : forall a, a ∈ sorted -> plan_typed (cc_plan a)
    /\ construct_accumulator_certificate (cc_plan a) f determinism = (Ok (cc_certificate a) : outcome Empty_set _)).
  { intros a Ha'. split; [by apply Hcanon|]. apply Hmem in Ha' as (_ & _ & Hc). by eapply construct_any. }
  destruct (List.find _ sorted) as [a|] eqn:Ef; cbn [fmap option_fmap option_map obind].
  - destruct Hfind as (Ha' & Hv & Hmin). eexists. split; [done|]. split; [done|]. constructor; [done | done | | done].
    intros c [= <-]. cbn. split; [done|]. split; [done|]. split; [done|]. split; [by apply Hmem in Ha' as [? _]|].
    split; [by apply Hcanon|]. split; [done|]. intros plan' cert' Hw Hfam Hv'.
    destruct (Hex plan' cert' Hw Hfam Hv') as (b & Hb & Hvb & <-). by apply Hmin.
  - destruct (@plan_choice_failure_code_ok E) as (code & ->). cbn [obind]. eexists. split; [done|]. split; [done|].
    constructor; [done | done | done|]. intros _. split; [by exists code|]. intros plan cert Hw Hfam.
    apply not_true_iff_false. intros Hv. destruct (Hex plan cert Hw Hfam Hv) as (b & Hb & Hvb & _).
    rewrite (Hfind b Hb) in Hvb. done.
Qed.
End choose.


Definition demo_binding : EffectiveCeilingBinding :=
  MkEffectiveCeilingBinding "demo" demo_facts Conservative (Ceiling_Global ProfileDefault).

