(* ===== verification/RangeStageFacts.v ===== *)
(** * The range-plan stage end to end

    From the inference IR to the certificate body: which sites are planned,
    that the self-consistency rules never fire, and what the independent
    verifier says of the two kinds of result. *)

From S2P Require Import Prelude Numeric KnobLattice RangeCert RangePlan RangeVerify RangeFacts RangePlanFacts.

(** ** The certificate index *)

Definition index_of (certificates : list CertifiedReduction) : gmap string Z :=
  foldl (fun index e => <[cr_site e.2 := e.1]> index) ∅ (enumerate certificates).

Definition sites_of (certificates : list CertifiedReduction) : list ReductionSiteId := map cr_site certificates.

(** Fewer certificates than a [u32] counts. *)
Definition index_fits (certificates : list CertifiedReduction) : Prop := zlen certificates <= U32.

Lemma site_to_certificate_index_ok {E} certificates : index_fits certificates ->
  @site_to_certificate_index E certificates = Ok (index_of certificates).
Proof.
  intros Hfit. unfold site_to_certificate_index, index_of.
  assert (Hin : forall e, e ∈ enumerate certificates -> 0 <= e.1 < U32).
  { intros [i c] [H _]%enumerate_elem. unfold index_fits in Hfit. cbn. lia. }
  generalize (∅ : gmap string Z). revert Hin. generalize (enumerate certificates).
  induction l as [|e l IH]; intros Hin m; [done|]. cbn [ofold foldl].
  rewrite (proj2 (try_from_u_Some U32 e.1 e.1) (conj (Hin e ltac:(by left)) eq_refl)). cbn [expect obind].
  apply IH. intros e' He'. apply Hin. by right.
Qed.

Lemma expected_index_ok certificates : index_fits certificates -> expected_index certificates = index_of certificates.
Proof.
  intros Hfit. unfold expected_index, index_of.
  assert (Hin : forall e, e ∈ enumerate certificates -> 0 <= e.1 < U32).
  { intros [i c] [H _]%enumerate_elem. unfold index_fits in Hfit. cbn. lia. }
  generalize (∅ : gmap string Z). revert Hin. generalize (enumerate certificates).
  induction l as [|e l IH]; intros Hin m; [done|]. cbn [foldl].
  unfold wrap. rewrite Z.mod_small by (apply Hin; by left). apply IH. intros e' He'. apply Hin. by right.
Qed.

Lemma enumerate_snoc {A} (l : list A) x : enumerate (l ++ [x]) = enumerate l ++ [(zlen l, x)].
Proof.
  unfold enumerate. rewrite zlen_app. change (zlen [x]) with 1. rewrite zrange_succ by apply zlen_nonneg.
  rewrite zip_with_app; [done|]. rewrite zrange_length. unfold zlen. lia.
Qed.

Lemma index_of_snoc certificates c : index_of (certificates ++ [c]) = <[cr_site c := zlen certificates]> (index_of certificates).
Proof. unfold index_of. by rewrite enumerate_snoc, foldl_app. Qed.

Lemma dom_index_of certificates : dom (index_of certificates) = list_to_set (sites_of certificates) :> gset string.
Proof.
  induction certificates as [|c l IH] using rev_ind; [done|].
  rewrite index_of_snoc, dom_insert_L, IH. unfold sites_of. rewrite map_app, list_to_set_app_L. set_solver.
Qed.

Lemma size_list_to_set_NoDup (l : list string) : size (list_to_set l : gset string) = length l <-> NoDup l.
Proof.
  split; [|by apply size_list_to_set]. induction l as [|x l IH]; intros Hs; [constructor|].
  assert (Hle : forall l : list string, (size (list_to_set l : gset string) <= length l)%nat).
  { clear. induction l as [|x l IH]; [done|]. cbn. rewrite size_union_alt, size_singleton.
    pose proof (subseteq_size ((list_to_set l : gset string) ∖ {[x]}) (list_to_set l) ltac:(set_solver)). lia. }
  cbn in Hs. rewrite size_union_alt, size_singleton in Hs.
  pose proof (subseteq_size ((list_to_set l : gset string) ∖ {[x]}) (list_to_set l) ltac:(set_solver)). specialize (Hle l) as Hl.
  constructor; [|apply IH; lia]. intros Hx.
  pose proof (size_union_alt (C := gset string) {[x]} (list_to_set l)) as Hu. rewrite size_singleton in Hu.
  rewrite (subseteq_union_1_L {[x]} (list_to_set l : gset string)) in Hu by set_solver.
  lia.
Qed.

(** The index is as large as the list exactly when no site occurs twice. *)
Lemma index_size certificates : Z.of_nat (size (index_of certificates)) = zlen certificates <-> NoDup (sites_of certificates).
Proof.
  rewrite <- size_list_to_set_NoDup, <- dom_index_of, size_dom. unfold zlen, sites_of. rewrite length_map. lia.
Qed.

Lemma index_of_lookup certificates i c : NoDup (sites_of certificates) -> certificates !! i = Some c ->
  index_of certificates !! cr_site c = Some (Z.of_nat i).
Proof.
  revert i. induction certificates as [|x l IH] using rev_ind; intros i Hnd Hi; [done|].
  unfold sites_of in Hnd. rewrite map_app in Hnd. apply NoDup_app in Hnd as (Hnd & Hdis & _). rewrite index_of_snoc.
  apply lookup_app_Some in Hi as [Hi|[Hge Hi]].
  - rewrite lookup_insert_ne; [by apply IH|]. intros Heq. apply (Hdis (cr_site c)).
    + apply list_elem_of_fmap. exists c. split; [done | by eapply list_elem_of_lookup_2].
    + rewrite <- Heq. cbn. by left.
  - destruct (i - length l)%nat as [|k] eqn:Hk; [|done]. injection Hi as ->. rewrite lookup_insert_eq. f_equal.
    unfold zlen. lia.
Qed.

(** ** Enumeration *)

Lemma StronglySorted_unmap {A B} (g : A -> B) (R : B -> B -> Prop) l :
  StronglySorted R (map g l) -> StronglySorted (fun a b => R (g a) (g b)) l.
Proof.
  induction l as [|x l IH]; cbn [map]; intros Hs; [constructor|]. inversion_clear Hs as [|? ? Hl Hx].
  constructor; [by apply IH|].
  apply Forall_forall. intros y Hy. rewrite Forall_forall in Hx. by apply Hx, list_elem_of_fmap_2.
Qed.

Lemma sorted_items_elem {A} (m : gmap string A) k v : (k, v) ∈ sorted_items m <-> m !! k = Some v.
Proof. unfold sorted_items. rewrite elem_of_sort_by. apply elem_of_map_to_list. Qed.

Lemma sorted_items_sorted {A} (m : gmap string A) :
  StronglySorted (fun a b => String.leb a b = true) (map fst (sorted_items m)) /\ NoDup (map fst (sorted_items m)).
Proof.
  split.
  - unfold sorted_items. rewrite <- (sort_by_map (fun a b => String.leb a.1 b.1) String.leb fst) by done.
    apply sort_by_sorted; [apply string_leb_total | intros x y z; apply string_leb_trans].
  - assert (Hp : map fst (sorted_items m) ≡ₚ map fst (map_to_list m)) by (apply fmap_Permutation, sort_by_perm).
    rewrite Hp. apply NoDup_fst_map_to_list.
Qed.

Definition ir_ok (g : GbInferIR) : Prop :=
  forall node, node ∈ ir_nodes g -> is_Some (in_reduction_site node) -> is_Some (ir_provenance_nodes g !! in_node_id node).

(** The planned sites of an IR: those of its nodes, in order. *)
Record sites_ok (g : GbInferIR) (sites : list ReductionSiteBinding) : Prop := {
  so_sorted : StronglySorted (fun a b => String.leb a b = true) (map sb_site sites);
  so_nodup : NoDup (map sb_site sites);
  so_elem : forall s, s ∈ map sb_site sites <-> exists node, node ∈ ir_nodes g /\ in_reduction_site node = Some s;
  so_length : (length sites <= length (ir_nodes g))%nat;
}.

Lemma enumerate_nodes_ok g nodes m : (forall node, node ∈ nodes -> is_Some (in_reduction_site node) ->
    is_Some (ir_provenance_nodes g !! in_node_id node)) -> (forall k b, m !! k = Some b -> sb_site b = k) ->
  (exists m', ofold (enumerate_node g) m nodes = Ok m' /\ (forall k b, m' !! k = Some b -> sb_site b = k)
     /\ (forall s, is_Some (m' !! s) <-> is_Some (m !! s) \/ exists node, node ∈ nodes /\ in_reduction_site node = Some s)
     /\ (size m' <= size m + length nodes)%nat)
  \/ exists e, ofold (enumerate_node g) m nodes = Err e.
Proof.
  revert m. induction nodes as [|node nodes IH]; intros m Hprov Hm.
  - left. exists m. split; [done|]. split; [done|]. split; [|cbn; lia]. intros s. split; [by left|]. intros [?|(n & Hn%elem_of_nil & _)]; done.
  - cbn [ofold]. unfold enumerate_node at 1 3.
    assert (Hprov' : forall node, node ∈ nodes -> is_Some (in_reduction_site node) -> is_Some (ir_provenance_nodes g !! in_node_id node))
      by (intros n Hn; apply Hprov; by right).
    destruct (in_reduction_site node) as [site|] eqn:Hsite.
    + destruct (Hprov node ltac:(by left)) as [q Hq]; [by rewrite Hsite|]. rewrite Hq. cbn [expect obind].
      destruct (m !! site) as [prev|] eqn:Hprev; [right; eauto|]. cbn [obind].
      destruct (IH (<[site := MkReductionSiteBinding (in_node_id node) site q (op_tag (in_op node))
        (expert_weight_slot_for_op (in_op node)) (norm_site_for_qg_ref q)]> m)) as [(m' & Hf & Hk & Hs & Hsz)|He]; [done| | |by right].
      * intros k b [[<- <-]|[Hne Hb]]%lookup_insert_Some; [done | by apply Hm].
      * left. exists m'. split; [done|]. split; [done|]. rewrite map_size_insert_None in Hsz by done. split; [|cbn; lia].
        intros s. rewrite Hs, lookup_insert_is_Some. setoid_rewrite elem_of_cons. split.
        -- intros [[<-|[_ ?]]|(n & Hn & Hns)]; [right; eauto | by left | right; eauto].
        -- intros [?|(n & [->|Hn] & Hns)]; [|left; left; congruence | right; eauto].
           left. destruct (decide (site = s)); auto.
    + cbn [obind]. destruct (IH m Hprov' Hm) as [(m' & Hf & Hk & Hs & Hsz)|He]; [|by right]. left. exists m'.
      split; [done|]. split; [done|]. split; [|cbn; lia]. intros s. rewrite Hs. setoid_rewrite elem_of_cons.
      split; intros [?|(n & Hn & Hns)]; [by left | right; eauto | by left|]. destruct Hn as [->|Hn]; [congruence | right; eauto].
Qed.

Lemma enumerate_reduction_sites_ok g : ir_ok g ->
  (exists sites, enumerate_reduction_sites g = Ok sites /\ sites_ok g sites) \/ exists e, enumerate_reduction_sites g = Err e.
Proof.
  intros Hg. unfold enumerate_reduction_sites.
  destruct (enumerate_nodes_ok g (ir_nodes g) ∅ Hg) as [(m & -> & Hk & Hs & Hsz)|[e ->]]; [done| |right; by exists e].
  left. eexists. split; [done|]. pose proof (sorted_items_sorted m) as [Hsorted Hnd].
  assert (Heq : map sb_site (map snd (sorted_items m)) = map fst (sorted_items m)).
  { rewrite map_map. apply map_ext_in. intros [k b] Hin%list_elem_of_In. apply sorted_items_elem in Hin. cbn. by apply Hk. }
  constructor; rewrite ?Heq; [done | done | |].
  - intros s. rewrite list_elem_of_fmap. setoid_rewrite lookup_empty in Hs. split.
    + intros ([k b] & -> & Hin%sorted_items_elem). destruct (proj1 (Hs k)) as [Hn|Hn]; [eauto | by destruct Hn | done].
    + intros Hn. destruct (proj2 (Hs s)) as [b Hb]; [by right|]. exists (s, b). split; [done | by apply sorted_items_elem].
  - rewrite length_map. unfold sorted_items. rewrite sort_by_perm, length_map_to_list. by rewrite map_size_empty in Hsz.
Qed.

(** ** Facts and ceilings *)

Definition projection_typed (p : ReductionSiteProjection) : Prop :=
  0 <= pj_term_count p < U32 /\ 0 <= pj_input_max_abs_q p < U32 /\ 0 <= pj_weight_max_abs_q p < U32
  /\ 0 <= default 0 (pj_bias_max_abs_q p) < U32.

(** The facts of a site are those its budget line states; the largest term is
    the product of the largest input and the largest weight. *)
Definition facts_of_projection (b : ReductionSiteBinding) (p : ReductionSiteProjection) : ReductionSiteFacts :=
  MkReductionSiteFacts (pj_site p) (pj_layer p) (pj_expert p) (sb_slot b) (sb_norm_site b) (pj_term_count p)
    (pj_input_max_abs_q p) (pj_weight_max_abs_q p) (pj_input_max_abs_q p * pj_weight_max_abs_q p) (pj_bias_max_abs_q p)
    (pj_accumulator_domain p) (sb_op_tag b).

Record bound_ok (budget : list ReductionSiteProjection) (b : ReductionSiteBinding) (f : ReductionSiteFacts) : Prop := {
  bd_site : rf_site f = sb_site b;
  bd_projection : exists p, p ∈ budget /\ f = facts_of_projection b p;
  bd_typed : facts_typed f;
  bd_terms : 0 < rf_term_count f;
  bd_raw : rf_accumulator_domain f = RawIntegerProducts;
}.

Lemma per_term_product i w : 0 <= i < U32 -> 0 <= w < U32 -> checked_per_term_abs_max_q i w None = Ok (i * w).
Proof.
  intros Hi Hw. unfold checked_per_term_abs_max_q.
  assert (Hb : 0 <= i * w < U64) by nia. unfold checked_mul. rewrite (proj2 (Z.ltb_lt _ _)) by lia. cbn [mbind option_bind].
  by rewrite (proj2 (try_from_u_Some U64 (i * w) _) (conj Hb eq_refl)).
Qed.

Lemma bind_site_ok budget b : Forall projection_typed budget ->
  (exists bound, bind_site budget b = Ok bound /\ bf_binding bound = b /\ bound_ok budget b (bf_facts bound))
  \/ exists e, bind_site budget b = Err e.
Proof.
  intros Ht. unfold bind_site, reduction_site_projection.
  destruct (list_find _ budget) as [[i p]|] eqn:Hfind; cbn [fmap option_fmap option_map ok_or obind]; [|right; eauto].
  apply list_find_Some in Hfind as (Hi & Hsite & _). apply list_elem_of_lookup_2 in Hi.
  destruct (proj1 (Forall_forall _ _) Ht p Hi) as (Htc & Hin & Hw & Hb).
  unfold reduction_site_facts_from_projection, reduction_site_facts_from_projection_with_published. cbn [snd].
  destruct (Z.eqb_spec (pj_term_count p) 0); cbn [guard_err obind]; [right; eauto|].
  case_bool_decide as Hd; cbn [negb guard_err obind]; [|right; eauto].
  rewrite per_term_product by done. cbn [map_err obind]. left. eexists. split; [done|]. split; [done|]. cbn [bf_facts].
  constructor; [done | by exists p | | cbn; lia | done]. constructor; cbn; [lia | lia | lia | nia | done].
Qed.

(** The outcome is [Ok] or [Err]. *)
Definition answers {E A} (m : outcome E A) : Prop := (exists a, m = Ok a) \/ exists e, m = Err e.

Lemma answers_bind {E A B} (m : outcome E A) (k : A -> outcome E B) :
  answers m -> (forall a, m = Ok a -> answers (k a)) -> answers (obind m k).
Proof. intros [[a ->]|[e ->]] Hk; [by apply Hk | right; by exists e]. Qed.
Lemma answers_omapM {E A B} (g : A -> outcome E B) l : (forall a, a ∈ l -> answers (g a)) -> answers (omapM g l).
Proof.
  induction l as [|x l IH]; intros Hg; [left; by exists []|]. cbn [omapM].
  apply answers_bind; [apply Hg; by left|]. intros y _. apply answers_bind; [apply IH; intros a Ha; apply Hg; by right|].
  intros ys _. left. eauto.
Qed.
Lemma answers_guard {E} b (e : E) : answers (guard_err b e).
Proof. destruct b; [right | left]; cbn; eauto. Qed.

Lemma bind_facts_ok sites budget : Forall projection_typed budget ->
  (exists bound, bind_reduction_site_facts_for_report sites budget = Ok bound
     /\ Forall2 (fun b x => bf_binding x = b /\ bound_ok budget b (bf_facts x)) sites bound)
  \/ exists e, bind_reduction_site_facts_for_report sites budget = Err e.
Proof.
  intros Ht. unfold bind_reduction_site_facts_for_report, bind_reduction_site_facts.
  set (m := ofold _ tt _). assert (Hm : answers m).
  { unfold m. generalize (map pj_site budget). induction l as [|s l IH]; [left; eauto|]. cbn [ofold].
    apply answers_bind; [apply answers_guard|]. by intros [] _. }
  destruct Hm as [[[] ->]|[e ->]]; cbn [obind]; [|right; eauto].
  destruct (answers_omapM (bind_site budget) sites) as [[bound Hb]|[e He]]; [| |right; by exists e].
  { intros b _. destruct (bind_site_ok budget b Ht) as [(x & -> & _)|[e ->]]; [left | right]; eauto. }
  left. exists bound. split; [done|]. apply omapM_Forall2 in Hb. eapply Forall2_impl; [exact Hb|]. intros b x Hx.
  destruct (bind_site_ok budget b Ht) as [(y & Hy & H1 & H2)|[e He]]; [|congruence].
  rewrite Hx in Hy. by injection Hy as <-.
Qed.

Lemma bind_ceiling_ok projection selectors bound :
  answers (bind_ceiling projection selectors bound)
  /\ (forall c, bind_ceiling projection selectors bound = Ok c -> cb_site c = rf_site (bf_facts bound) /\ cb_facts c = bf_facts bound).
Proof.
  unfold bind_ceiling. set (fs := bf_facts bound).
  assert (Hm : forall r, r ∈ List.filter (fun r => matches_layer r fs) selectors -> exists l, ro_target r = Parsed_Layer l).
  { intros r [_ Hr]%list_elem_of_In%List.filter_In. unfold matches_layer in Hr. destruct (ro_target r); [done | eauto]. }
  destruct (List.filter (fun r => matches_site r fs) selectors) as [|s1 [|s2 ss]]; cbn [obind].
  - destruct (List.filter (fun r => matches_layer r fs) selectors) as [|l1 [|l2 ls]]; cbn [obind].
    + split; [left; eauto | by intros c [= <-]].
    + destruct (Hm l1 ltac:(by left)) as [l ->]. cbn [expect obind]. split; [left; eauto | by intros c [= <-]].
    + split; [right; eauto | done].
  - split; [left; eauto | by intros c [= <-]].
  - split; [right; eauto | done].
Qed.

Lemma bind_effective_ceilings_ok bound projection :
  (exists ceilings, bind_effective_ceilings bound projection = Ok ceilings
     /\ Forall2 (fun x c => cb_site c = rf_site (bf_facts x) /\ cb_facts c = bf_facts x) bound ceilings)
  \/ exists e, bind_effective_ceilings bound projection = Err e.
Proof.
  unfold bind_effective_ceilings, parse_and_resolve_ceiling_overrides.
  destruct (answers_omapM (resolve_override bound) (sorted_items (pp_reduction_ceiling_overrides projection)))
    as [[sel ->]|[e ->]]; cbn [obind]; [| |right; eauto].
  { intros [s c] _. unfold resolve_override. repeat case_match; [left | right | left | right | right]; eauto. }
  destruct (answers_omapM (bind_ceiling projection sel) bound) as [[cs Hcs]|[e He]]; [| |right; by exists e].
  { intros b _. apply bind_ceiling_ok. }
  left. exists cs. split; [done|]. apply omapM_Forall2 in Hcs. eapply Forall2_impl; [exact Hcs|].
  intros b c Hc. by apply (proj2 (bind_ceiling_ok projection sel b)).
Qed.

(** ** The loop over the sites *)

Record binding_ok (b : EffectiveCeilingBinding) : Prop := {
  bo_site : cb_site b = rf_site (cb_facts b);
  bo_typed : facts_typed (cb_facts b);
  bo_terms : 0 < rf_term_count (cb_facts b);
  bo_raw : rf_accumulator_domain (cb_facts b) = RawIntegerProducts;
}.

Section stage.
Context `{BuildProfile} (caps : RangeCapsSpec) (determinism : DeterminismClass).
Hypothesis (Hcaps : caps_typed caps).

(** What the loop adds for a site that gets a plan. *)
Record planned (b : EffectiveCeilingBinding) (e : RangePlanEntry) (c : CertifiedReduction) : Prop := {
  pl_entry : re_site e = cb_site b /\ re_site_facts e = cb_facts b /\ re_effective_ceiling e = cb_effective_ceiling b;
  pl_cert : cr_site c = cb_site b /\ cr_plan c = re_plan e /\ cr_facts c = cb_facts b;
  pl_family : plan_family (re_plan e) ∈ candidate_families_under_ceiling (cb_effective_ceiling b);
  pl_within : plan_within (cb_facts b) caps determinism (re_plan e);
  pl_verifies : verifies (cr_proof c) (re_plan e) (cb_facts b) determinism = true;
  pl_least : least_family (cb_facts b) caps determinism (cb_effective_ceiling b) (re_plan e);
}.

(** What it adds for a site that gets none: its failed certificates. *)
Definition honest_attempt (c : CertifiedReduction) : Prop :=
  cr_site c = rf_site (cr_facts c) /\ is_failed (cr_proof c) = true
  /\ honest_failure (cr_plan c) (cr_facts c) determinism (cr_proof c).

Lemma failed_attempts_honest b ch : binding_ok b -> choice_ok b caps determinism ch ->
  Forall honest_attempt (failed_certified_attempts b ch) /\ (length (failed_certified_attempts b ch) <= 3)%nat.
Proof.
  intros Hb Hch. unfold failed_certified_attempts. split.
  - apply Forall_forall. intros c (a & -> & [Ha Hfl]%list_elem_of_In%List.filter_In)%list_elem_of_fmap.
    apply list_elem_of_In in Ha. destruct (co_attempts _ _ _ _ Hch a Ha) as [_ Hc]. split; [apply (bo_site _ Hb)|].
    split; [done|]. destruct (@construct_total Empty_set (cc_plan a) (cb_facts b) determinism) as (cert & Hc' & [Hf|[_ Hh]]);
      rewrite Hc in Hc'; injection Hc' as <-; [|done]. cbn in Hfl. destruct (cc_certificate a); done.
  - rewrite length_map. pose proof (co_length _ _ _ _ Hch). pose proof (List.filter_length_le (fun a => is_failed (cc_certificate a)) (pc_attempts ch)). lia.
Qed.

Lemma plan_sites_ok {E} ceilings s : Forall binding_ok ceilings -> exists entries certs attempts diags,
  ofold (plan_site caps determinism) s ceilings
    = (Ok (MkPlanState (ps_entries s ++ entries) (ps_certificates s ++ certs) (ps_attempted_certificates s ++ attempts)
            (ps_diagnostics s ++ diags)) : outcome E PlanState)
  /\ Forall (fun d => exists site code, d = RD_PlanChoice site code) diags
  /\ Forall honest_attempt attempts /\ (length attempts <= 3 * length ceilings)%nat
  /\ (diags = [] -> Forall3 planned ceilings entries certs).
Proof.
  intros Hall. revert s. induction Hall as [|b ceilings Hb Hall IH]; intros s.
  - exists [], [], [], []. rewrite !app_nil_r. split; [by destruct s|]. split_and!; [constructor | constructor | done | constructor].
  - cbn [ofold]. unfold plan_site at 1.
    destruct (choose_plan_ok (E := E) b caps determinism (bo_typed _ Hb) Hcaps (bo_terms _ Hb)) as (g & ch & -> & Hch & Hok).
    cbn [obind]. rewrite Hch. cbn [obind]. destruct (pc_chosen ch) as [c|] eqn:Ec.
    + destruct (co_chosen _ _ _ _ Hok c Ec) as (Hd & H1 & H2 & H3 & H4 & H5 & H6). rewrite Hd, app_nil_r.
      match goal with |- context [ofold _ ?s' ceilings] => destruct (IH s') as (es & cs & ats & ds & Hf & Hds & Hat & Hlen & Hpl) end.
      exists (MkRangePlanEntry (cb_site b) (cr_plan c) (cb_facts b) (cb_effective_ceiling b) (cb_provenance b) :: es), (c :: cs), ats, ds.
      rewrite Hf. cbn [ps_entries ps_certificates ps_attempted_certificates ps_diagnostics]. rewrite <- !app_assoc.
      split; [done|]. split; [done|]. split; [done|]. split; [cbn; lia|].
      intros Hnil. constructor; [|by apply Hpl]. by constructor.
    + destruct (co_none _ _ _ _ Hok Ec) as [(code & Hd) _]. rewrite Hd. destruct (failed_attempts_honest b ch Hb Hok) as [Hfa Hfl].
      match goal with |- context [ofold _ ?s' ceilings] => destruct (IH s') as (es & cs & ats & ds & Hf & Hds & Hat & Hlen & Hpl) end.
      exists es, cs, (failed_certified_attempts b ch ++ ats), (RD_PlanChoice (cb_site b) code :: ds). rewrite Hf.
      cbn [ps_entries ps_certificates ps_attempted_certificates ps_diagnostics]. rewrite <- !app_assoc.
      split; [done|]. split; [constructor; [eauto | done]|]. split; [by apply Forall_app|].
      split; [rewrite length_app; cbn; lia | done].
Qed.
End stage.

(** ** Self-consistency *)

Lemma bitexact_verified cert plan f : plan_typed plan -> verifies cert plan f BitExact = true ->
  match plan with
  | SingleI16 => True
  | ChunkedI16 len => 0 < len /\ is_multiple_of (rf_term_count f) len = true
  | RenormLoop _ _ => False
  end.
Proof.
  intros Ht Hv. apply verifies_iff in Hv as (_ & _ & Hnf & Hc); [|done].
  pose proof (constructed_length _ _ _ _ Ht Hc Hnf) as Hpos.
  destruct plan as [|len|len r]; [done | |]; cbn [construct_accumulator_certificate] in Hc.
  - split; [done|]. cbv beta iota in Hpos. unfold construct_chunked_i16_certificate in Hc.
    rewrite (proj2 (Z.eqb_neq len 0)), bool_decide_true in Hc by (done || lia).
    destruct (is_multiple_of (rf_term_count f) len); [done|]. injection Hc as <-. done.
  - unfold construct_renorm_loop_certificate in Hc. rewrite bool_decide_true in Hc by done. injection Hc as <-. done.
Qed.

Lemma concat_map_nil {A B} (g : A -> list B) l : Forall (fun x => g x = []) l -> concat (map g l) = [].
Proof. induction 1 as [|x l Hx _ IH]; [done|]. cbn. by rewrite Hx. Qed.

Section consistency.
Context `{BuildProfile} (caps : RangeCapsSpec) (determinism : DeterminismClass).
Hypothesis (Hcaps : caps_typed caps).

Lemma planned_smallest {E} b e c : planned caps determinism b e c -> @smallest_canonical_family_holds E e determinism = Ok true.
Proof.
  intros [(Hs & Hfs & Hce) _ Hfam _ _ Hleast]. unfold smallest_canonical_family_holds.
  assert (Hsingle : re_plan e <> SingleI16 -> @verifies_for E SingleI16 (re_site_facts e) determinism = Ok false).
  { intros Hne. unfold verifies_for. cbn [construct_accumulator_certificate obind].
    destruct (negb _ && _) eqn:Hv; [|done]. apply andb_true_iff in Hv as [_ Hv]. rewrite Hfs in Hv.
    exfalso. apply Hne. assert (Hle : family_rank (plan_family (re_plan e)) <= 0).
    { eapply (Hleast SingleI16 _ I); [|exact Hv]. destruct (cb_effective_ceiling b); by left. }
    destruct (re_plan e); [done | cbn in Hle; lia..]. }
  destruct (re_plan e); [done | | ]; by rewrite Hsingle.
Qed.

Lemma planned_bitexact b e c : planned caps determinism b e c -> facts_typed (cb_facts b) -> 0 < rf_term_count (cb_facts b) ->
  bitexact_entry_constraints_hold e determinism = true.
Proof.
  intros [(Hs & Hfs & Hce) _ _ Hw Hv _] Hf Hterms. unfold bitexact_entry_constraints_hold.
  case_bool_decide as Hd; [|done]. cbn [negb]. subst determinism. rewrite Hfs.
  destruct (plan_within_typed (cb_facts b) caps BitExact Hf Hcaps Hterms _ Hw) as [Ht _].
  pose proof (bitexact_verified _ _ _ Ht Hv) as Hb. destruct (re_plan e) as [|len|len r]; [done | | done].
  destruct Hb as [Hpos ->]. by rewrite (proj2 (Z.eqb_neq len 0)) by lia.
Qed.

Lemma check_entries_ok {E} ceilings entries certs seen : Forall binding_ok ceilings ->
  Forall3 (planned caps determinism) ceilings entries certs -> NoDup (map re_site entries ++ seen) -> exists seen',
  ofold (check_entry_consistency determinism) ([], seen) entries = (Ok ([], seen') : outcome E _).
Proof.
  intros Hall Hpl. revert seen. induction Hpl as [|b e c bs es cs Hp Hpl IH]; intros seen Hnd; [by exists seen|].
  apply Forall_cons in Hall as [Hb Hall]. cbn [map] in Hnd. apply NoDup_cons in Hnd as [Hnotin Hnd].
  cbn [ofold]. unfold check_entry_consistency at 1. rewrite (planned_smallest b e c Hp). cbn [obind].
  rewrite (planned_bitexact b e c Hp (bo_typed _ Hb) (bo_terms _ Hb)).
  destruct (pl_entry _ _ _ _ _ Hp) as (Hs & Hfs & Hce). rewrite Hfs, Hce.
  rewrite (bool_decide_false (re_site e ∈ seen)) by (intros ?; apply Hnotin, elem_of_app; by right).
  rewrite (bool_decide_true (re_site e = _)) by (by rewrite Hs, (bo_site _ Hb)).
  rewrite (bool_decide_true _ (pl_family _ _ _ _ _ Hp)), (bool_decide_true _ (bo_raw _ Hb)). cbn.
  apply IH; [done|]. apply NoDup_app in Hnd as (H1 & H2 & H3). apply NoDup_app.
  split; [done|]. split; [|constructor; [|done]].
  - intros x Hx [->|Hxs]%elem_of_cons; [apply Hnotin, elem_of_app; by left | by apply (H2 x)].
  - intros Hin. apply Hnotin, elem_of_app. by right.
Qed.

Lemma planned_sites ceilings entries certs : Forall3 (planned caps determinism) ceilings entries certs ->
  map re_site entries = map cb_site ceilings /\ sites_of certs = map cb_site ceilings.
Proof.
  induction 1 as [|b e c bs es cs [(Hs & _) (Hc & _) _ _ _ _] _ [IH1 IH2]]; [done|].
  unfold sites_of in *. cbn [map]. by rewrite Hs, Hc, IH1, IH2.
Qed.

Lemma self_consistent {E} plan cert ceilings : Forall binding_ok ceilings ->
  Forall3 (planned caps determinism) ceilings (rg_entries plan) (rc_certificates cert) ->
  NoDup (map cb_site ceilings) -> index_fits (rc_certificates cert) -> ri_determinism (rg_identity plan) = determinism ->
  rc_site_to_certificate_index cert = index_of (rc_certificates cert) ->
  self_consistency_diagnostics plan cert = (Ok [] : outcome E _).
Proof.
  intros Hall Hpl Hnd Hfit Hdet Hindex. destruct (planned_sites _ _ _ Hpl) as [He Hc]. unfold self_consistency_diagnostics.
  rewrite Hdet. destruct (check_entries_ok (E := E) ceilings _ _ [] Hall Hpl) as [seen ->]; [by rewrite app_nil_r, He|].
  cbn [obind]. rewrite site_to_certificate_index_ok by done. cbn [obind].
  rewrite bool_decide_true by done. rewrite (proj2 (Z.eqb_eq _ _) (proj2 (index_size _) ltac:(by rewrite Hc))). cbn [andb diag_unless app].
  f_equal. assert (Hnil : Forall (fun e => check_entry_certificate determinism cert e = []) (rg_entries plan)).
  { apply Forall_forall. intros e [i Hi]%list_elem_of_lookup. destruct (Forall3_lookup_m _ _ _ _ _ _ Hpl Hi) as (b & c & Hb & Hci & Hp).
    destruct Hp as [(Hs & Hfs & _) (Hcs & Hcp & Hcf) _ _ Hv _]. unfold check_entry_certificate. rewrite Hindex.
    rewrite Hs, <- Hcs, (index_of_lookup _ i c) by (done || by rewrite Hc). rewrite Nat2Z.id, Hci.
    rewrite Hfs, !bool_decide_true by congruence. cbn [andb]. by rewrite Hv. }
  by apply concat_map_nil.
Qed.
End consistency.

(** ** What the independent verifier says *)

Lemma verify_sites_ok certs : Forall (fun c => cr_site c = rf_site (cr_facts c)) certs ->
  ofold (fun _ c => guard_err (negb (bool_decide (cr_site c = rf_site (cr_facts c)))) (IV_FactsSiteMismatch (cr_site c)))
    tt certs = Ok tt.
Proof. induction 1 as [|c l Hc _ IH]; [done|]. cbn [ofold]. by rewrite bool_decide_true. Qed.

Lemma verify_index_ok body : index_fits (rc_certificates body) ->
  rc_site_to_certificate_index body = index_of (rc_certificates body) ->
  Forall (fun c => cr_site c = rf_site (cr_facts c)) (rc_certificates body) ->
  verify_certificate_index body = if decide (NoDup (sites_of (rc_certificates body))) then Ok tt else Err IV_IndexMismatch.
Proof.
  intros Hfit Hindex Hsites. unfold verify_certificate_index. rewrite expected_index_ok by done.
  rewrite bool_decide_true by done. cbn [negb orb]. destruct (decide (NoDup (sites_of (rc_certificates body)))) as [Hnd|Hnd].
  - rewrite (proj2 (Z.eqb_eq _ _) (proj2 (index_size _) Hnd)). cbn [negb guard_err obind].
    by apply verify_sites_ok.
  - rewrite (proj2 (Z.eqb_neq _ _)) by (by rewrite index_size). done.
Qed.

Lemma verify_proofs_ok determinism certs n : Forall (fun c => is_failed (cr_proof c) = false
    /\ verifies (cr_proof c) (cr_plan c) (cr_facts c) determinism = true) certs ->
  ofold (verify_certified determinism) n certs = Ok n.
Proof.
  induction 1 as [|c l [Hf Hv] _ IH]; [done|]. cbn [ofold]. unfold verify_certified at 1. rewrite Hf, verifies_agree, Hv.
  cbn [negb guard_err obind]. done.
Qed.

Lemma verify_failures_ok determinism certs n : Forall (honest_attempt determinism) certs ->
  ofold (verify_certified determinism) n certs = Ok (n + zlen certs).
Proof.
  intros Hall. revert n. induction Hall as [|c l (Hs & Hf & Hh) _ IH]; intros n; [cbn; f_equal; unfold zlen; cbn; lia|].
  cbn [ofold]. unfold verify_certified at 1. rewrite Hf. unfold verify_failed_evidence. unfold honest_failure in Hh.
  destruct (cr_proof c) as [| | |site attempted state w]; try done. destruct Hh as (-> & -> & Hw).
  rewrite !bool_decide_true, Hw by done. cbn [andb negb guard_err obind]. rewrite IH, zlen_cons. f_equal. lia.
Qed.

(** An accepted failure report has one failed certificate per site. *)
Lemma verify_failed_body body determinism : index_fits (rc_certificates body) ->
  rc_site_to_certificate_index body = index_of (rc_certificates body) ->
  ci_determinism (rc_identity body) = determinism -> rc_cert_outcome body = Outcome_Failed ->
  rc_certificates body <> [] -> Forall (honest_attempt determinism) (rc_certificates body) ->
  independent_verify_report Report_Failed body
  = if decide (NoDup (sites_of (rc_certificates body)))
    then Ok (MkIndependentVerifyReport Status_FailedEvidence (zlen (rc_certificates body)) (zlen (rc_certificates body)))
    else Err IV_IndexMismatch.
Proof.
  intros Hfit Hindex Hdet Hout Hne Hall. unfold independent_verify_report. rewrite verify_index_ok; [|done..|].
  - destruct (decide _); [|done]. cbn [obind]. rewrite Hdet, verify_failures_ok by done. cbn [obind]. rewrite Hout.
    rewrite Z.add_0_l, (proj2 (Z.ltb_lt _ _)); [done|]. destruct (rc_certificates body); [done|]. rewrite zlen_cons.
    pose proof (zlen_nonneg l). lia.
  - eapply Forall_impl; [exact Hall|]. by intros c (? & _).
Qed.

(** ** The stage *)

Record inputs_ok `{RangeHashes} (inputs : RangePlanInputs) : Prop := {
  ii_ir : ir_ok (rx_infer_ir inputs);
  ii_budget : Forall projection_typed (rx_static_budget_report inputs);
  ii_caps : caps_typed (pp_range_caps (rx_range_policy_projection inputs));
  ii_size : 3 * zlen (ir_nodes (rx_infer_ir inputs)) <= U32;
  ii_projection_hash : is_Some (range_policy_projection_hash (rx_range_policy_projection inputs));
  ii_plan_hash : forall plan, is_Some (range_plan_self_hash plan);
}.

(** The certificate body of a product, and its entries, are those of the loop. *)
Record product_ok `{BuildProfile} `{RangeHashes} (inputs : RangePlanInputs) (s : RangePlanCoreSuccess) : Prop := {
  pd_sites : map re_site (rg_entries (ok_range_plan s)) = sites_of (rc_certificates (ok_range_cert s));
  pd_sorted : StronglySorted (fun a b => String.leb a b = true) (map re_site (rg_entries (ok_range_plan s)));
  pd_nodup : NoDup (map re_site (rg_entries (ok_range_plan s)));
  pd_elem : forall site, site ∈ map re_site (rg_entries (ok_range_plan s))
    <-> exists node, node ∈ ir_nodes (rx_infer_ir inputs) /\ in_reduction_site node = Some site;
  pd_verified : Forall2 (fun e c =>
      cr_site c = re_site e /\ cr_plan c = re_plan e /\ cr_facts c = re_site_facts e
      /\ rf_site (re_site_facts e) = re_site e
      /\ (exists b p, p ∈ rx_static_budget_report inputs /\ re_site_facts e = facts_of_projection b p)
      /\ facts_typed (re_site_facts e) /\ plan_typed (re_plan e)
      /\ verifies (cr_proof c) (re_plan e) (re_site_facts e) (ir_determinism (rx_infer_ir inputs)) = true
      /\ least_family (re_site_facts e) (pp_range_caps (rx_range_policy_projection inputs))
           (ir_determinism (rx_infer_ir inputs)) (re_effective_ceiling e) (re_plan e))
    (rg_entries (ok_range_plan s)) (rc_certificates (ok_range_cert s));
  pd_validates : RangeCertBody_validate_semantics (ok_range_cert s) Report_Passed = true;
  pd_verifier : independent_verify_report Report_Passed (ok_range_cert s)
    = Ok (MkIndependentVerifyReport Status_Verified (zlen (rg_entries (ok_range_plan s))) 0);
}.

(** A failure is one construction error, or the sites without a plan. *)
Record failure_ok `{RangeHashes} (inputs : RangePlanInputs) (fl : RangePlanCoreFailure) : Prop := {
  fo_diagnostics : (exists e, fail_diagnostics fl = [RD_Construction e] /\ fail_range_cert_body fl = None)
    \/ (fail_diagnostics fl <> [] /\ Forall (fun d => exists site code, d = RD_PlanChoice site code) (fail_diagnostics fl));
  fo_verifier : forall body, fail_range_cert_body fl = Some body ->
    RangeCertBody_validate_semantics body Report_Failed = true
    /\ independent_verify_report Report_Failed body
       = if decide (NoDup (sites_of (rc_certificates body)))
         then Ok (MkIndependentVerifyReport Status_FailedEvidence (zlen (rc_certificates body)) (zlen (rc_certificates body)))
         else Err IV_IndexMismatch;
}.

Lemma bindings_ok budget sites bound ceilings :
  Forall2 (fun b x => bf_binding x = b /\ bound_ok budget b (bf_facts x)) sites bound ->
  Forall2 (fun x c => cb_site c = rf_site (bf_facts x) /\ cb_facts c = bf_facts x) bound ceilings ->
  Forall binding_ok ceilings /\ map cb_site ceilings = map sb_site sites
  /\ Forall (fun c => exists b p, p ∈ budget /\ cb_facts c = facts_of_projection b p) ceilings.
Proof.
  intros H1. revert ceilings. induction H1 as [|b x sites bound [Hb Hx] _ IH]; intros ceilings H2.
  - apply Forall2_nil_inv_l in H2 as ->. split_and!; constructor.
  - apply Forall2_cons_inv_l in H2 as (c & cs & [Hc1 Hc2] & H2 & ->). destruct (IH cs H2) as (IH1 & IH2 & IH3).
    destruct Hx as [Hs (p & Hp & Hfp) Ht Htc Hr]. split; [|split].
    + constructor; [|done]. constructor; by rewrite ?Hc1, ?Hc2.
    + cbn [map]. by rewrite IH2, Hc1, Hs.
    + constructor; [|done]. exists b, p. by rewrite Hc2.
Qed.

Section build.
Context `{BuildProfile} `{RangeHashes} (inputs : RangePlanInputs).
Hypothesis (Hin : inputs_ok inputs).
Abbreviation determinism := (ir_determinism (rx_infer_ir inputs)).
Abbreviation caps := (pp_range_caps (rx_range_policy_projection inputs)).

Lemma failure_identity_ok {E} : exists identity, @failure_identity _ E inputs = Ok identity.
Proof. unfold failure_identity. destruct (ii_projection_hash _ Hin) as [h ->]. cbn. eauto. Qed.

Lemma construction_failure identity e : failure_ok inputs (MkRangePlanCoreFailure identity None [RD_Construction e]).
Proof. constructor; [left; by exists e | done]. Qed.

Lemma or_fail_ok {A B} identity (m : outcome RangePlanConstructionError A) (k : A -> outcome RangePlanCoreFailure B) (P : B -> Prop) :
  (exists i, identity = Ok i) -> answers m ->
  (forall a, m = Ok a -> (exists b, k a = Ok b /\ P b) \/ (exists fl, k a = Err fl /\ failure_ok inputs fl)) ->
  (exists b, obind (or_fail identity m) k = Ok b /\ P b) \/ (exists fl, obind (or_fail identity m) k = Err fl /\ failure_ok inputs fl).
Proof.
  intros [i ->] [[a ->]|[e ->]] Hk; unfold or_fail; cbn [try_result obind]; [by apply Hk|].
  right. eexists. split; [done|]. apply construction_failure.
Qed.

Lemma identity_ok : answers (bind_range_plan_identity inputs)
  /\ forall i, bind_range_plan_identity inputs = Ok i -> ri_determinism i = determinism.
Proof.
  unfold bind_range_plan_identity. case_bool_decide; cbn [negb guard_err obind]; [|split; [right; eauto | done]].
  destruct (ii_projection_hash _ Hin) as [h ->]. cbn [ok_or obind]. split; [left; eauto | by intros i [= <-]].
Qed.

Lemma failed_body_ok identity attempts diags : ri_determinism identity = determinism -> attempts <> [] ->
  index_fits attempts -> Forall (honest_attempt determinism) attempts -> exists body,
  @failed_range_cert_body RangePlanCoreFailure identity None attempts diags = Ok body
  /\ RangeCertBody_validate_semantics body Report_Failed = true
  /\ independent_verify_report Report_Failed body
     = if decide (NoDup (sites_of (rc_certificates body)))
       then Ok (MkIndependentVerifyReport Status_FailedEvidence (zlen (rc_certificates body)) (zlen (rc_certificates body)))
       else Err IV_IndexMismatch.
Proof.
  intros Hdet Hne Hfit Hall. unfold failed_range_cert_body. set (certs := canonical_sort_certificates attempts).
  assert (Hp : certs ≡ₚ attempts) by apply sort_by_perm.
  assert (Hfit' : index_fits certs) by (unfold index_fits, zlen in *; by rewrite Hp).
  assert (Hall' : Forall (honest_attempt determinism) certs) by (by rewrite Hp).
  assert (Hne' : certs <> []) by (intros Hc; rewrite Hc in Hp; by apply Permutation_nil_l in Hp).
  rewrite site_to_certificate_index_ok by done. cbn [obind].
  assert (Hex : existsb (fun c => is_failed (cr_proof c)) certs = true).
  { destruct Hall' as [|c l (_ & Hf & _) _]; [done|]. cbn. by rewrite Hf. }
  eexists. split; [done|]. split.
  - unfold RangeCertBody_validate_semantics, range_cert_outcome. cbn. rewrite Hex. by rewrite bool_decide_true.
  - eapply verify_failed_body; cbn; try done. unfold range_cert_outcome. by rewrite Hex.
Qed.

Lemma fail_unplanned_ok identity s : ri_determinism identity = determinism -> ps_diagnostics s <> [] ->
  Forall (fun d => exists site code, d = RD_PlanChoice site code) (ps_diagnostics s) ->
  index_fits (ps_attempted_certificates s) -> Forall (honest_attempt determinism) (ps_attempted_certificates s) ->
  exists fl, fail_unplanned identity s = Err fl /\ failure_ok inputs fl.
Proof.
  intros Hdet Hd Hds Hfit Hall. unfold fail_unplanned.
  destruct (ps_attempted_certificates s) as [|c l] eqn:Ea; cbn [obind].
  - eexists. split; [done|]. by constructor; [right|].
  - destruct (failed_body_ok identity (c :: l) (ps_diagnostics s) Hdet ltac:(done) Hfit Hall) as (body & -> & Hv & Hi). cbn [obind].
    eexists. split; [done|]. constructor; [by right|]. by intros b [= <-].
Qed.

Lemma finish_planned_ok identity sites s ceilings : ri_determinism identity = determinism ->
  Forall binding_ok ceilings -> Forall3 (planned caps determinism) ceilings (ps_entries s) (ps_certificates s) ->
  sites_ok (rx_infer_ir inputs) sites -> map cb_site ceilings = map sb_site sites ->
  Forall (fun c => exists b p, p ∈ rx_static_budget_report inputs /\ cb_facts c = facts_of_projection b p) ceilings ->
  index_fits (ps_certificates s) ->
  exists success, finish_planned identity sites s = Ok success /\ product_ok inputs success.
Proof.
  intros Hdet Hall Hpl Hso Hmap Hproj Hfit. unfold finish_planned, canonical_sort_range_plan.
  destruct (planned_sites _ _ _ _ _ Hpl) as [He Hc]. rewrite Hmap in He, Hc.
  assert (Hes : canonical_sort_entries (ps_entries s) = ps_entries s).
  { apply sort_by_id. apply (StronglySorted_unmap re_site (fun a b => String.leb a b = true)). rewrite He. apply (so_sorted _ _ Hso). }
  assert (Hcs : canonical_sort_certificates (ps_certificates s) = ps_certificates s).
  { apply sort_by_id. apply (StronglySorted_unmap cr_site (fun a b => String.leb a b = true)). unfold sites_of in Hc. rewrite Hc.
    apply (so_sorted _ _ Hso). }
  rewrite Hes, Hcs, site_to_certificate_index_ok by done. cbn [obind].
  set (plan := MkRangePlan identity (ps_entries s) (bind_range_plan_provenance sites)).
  destruct (ii_plan_hash _ Hin plan) as [h ->]. cbn [expect obind].
  rewrite site_to_certificate_index_ok by done. cbn [obind].
  set (cert := MkRangeCertBody (range_cert_identity identity (Some h)) (range_cert_outcome (ps_certificates s) [])
                 (ps_certificates s) (index_of (ps_certificates s)) []).
  assert (Hnd : NoDup (map cb_site ceilings)) by (rewrite Hmap; apply (so_nodup _ _ Hso)).
  rewrite (self_consistent caps determinism (ii_caps _ Hin) plan cert ceilings) by done. cbn [obind].
  eexists. split; [done|].
  assert (Hrel : Forall2 (fun e c =>
      cr_site c = re_site e /\ cr_plan c = re_plan e /\ cr_facts c = re_site_facts e
      /\ rf_site (re_site_facts e) = re_site e
      /\ (exists b p, p ∈ rx_static_budget_report inputs /\ re_site_facts e = facts_of_projection b p)
      /\ facts_typed (re_site_facts e) /\ plan_typed (re_plan e)
      /\ verifies (cr_proof c) (re_plan e) (re_site_facts e) determinism = true
      /\ least_family (re_site_facts e) caps determinism (re_effective_ceiling e) (re_plan e))
      (ps_entries s) (ps_certificates s)).
  { clear -Hpl Hall Hproj Hin. revert Hall Hproj. induction Hpl as [|b e c bs es cs Hp Hpl IH]; intros Hall Hproj; [constructor|].
    apply Forall_cons in Hall as [Hb Hall]. apply Forall_cons in Hproj as [Hpb Hproj]. constructor; [|by apply IH].
    destruct Hp as [(Hs & Hfs & Hce) (Hcs & Hcp & Hcf) _ Hw Hv Hl]. rewrite Hs, Hfs, Hce.
    destruct (plan_within_typed (cb_facts b) caps determinism (bo_typed _ Hb) (ii_caps _ Hin) (bo_terms _ Hb) _ Hw) as [Ht _].
    split_and!; try done; [by rewrite (bo_site _ Hb) | apply (bo_typed _ Hb)]. }
  assert (Hnf : Forall (fun c => is_failed (cr_proof c) = false
    /\ verifies (cr_proof c) (cr_plan c) (cr_facts c) determinism = true) (ps_certificates s)).
  { apply Forall_forall. intros c [i Hi]%list_elem_of_lookup. destruct (Forall2_lookup_r _ _ _ _ _ Hrel Hi) as (e & _ & Hr).
    destruct Hr as (_ & Hp & Hf & _ & _ & _ & _ & Hv & _). rewrite Hp, Hf. split; [|done].
    destruct (cr_proof c); try done. unfold verifies in Hv. by destruct (negb _). }
  assert (Hex : existsb (fun c => is_failed (cr_proof c)) (ps_certificates s) = false).
  { clear -Hnf. induction Hnf as [|c l [Hc _] _ IH]; [done|]. cbn. by rewrite Hc. }
  assert (Hout : range_cert_outcome (ps_certificates s) [] = Outcome_Verified) by (unfold range_cert_outcome; by rewrite Hex).
  constructor; cbn [ok_range_plan ok_range_cert rg_entries rc_certificates plan cert].
  - by rewrite He.
  - rewrite He. apply (so_sorted _ _ Hso).
  - rewrite He. apply (so_nodup _ _ Hso).
  - intros site. rewrite He. apply (so_elem _ _ Hso).
  - exact Hrel.
  - unfold RangeCertBody_validate_semantics, range_cert_outcome. cbn. rewrite Hex. rewrite !andb_true_iff. repeat split; try done.
    by apply bool_decide_eq_true_2.
  - unfold independent_verify_report. rewrite verify_index_ok; cbn [cert rc_certificates rc_site_to_certificate_index]; [|done..|].
    + rewrite decide_True by (by rewrite Hc, <- Hmap). cbn [obind rc_identity range_cert_identity ci_determinism cert]. rewrite Hdet.
      rewrite verify_proofs_ok by done. cbn [obind].
      change (rc_cert_outcome cert) with (range_cert_outcome (ps_certificates s) []). rewrite Hout. cbn.
      f_equal. f_equal. unfold zlen. f_equal. symmetry. by eapply Forall2_length.
    + apply Forall_forall. intros c [i Hi]%list_elem_of_lookup. destruct (Forall2_lookup_r _ _ _ _ _ Hrel Hi) as (e & _ & Hr).
      destruct Hr as (Hcs' & _ & Hcf & Hfs & _). congruence.
Qed.

Lemma build_answers :
  (exists s, build_range_plan_core inputs = Ok s /\ product_ok inputs s)
  \/ (exists fl, build_range_plan_core inputs = Err fl /\ failure_ok inputs fl).
Proof.
  unfold build_range_plan_core. destruct identity_ok as [Hid Hidet].
  apply or_fail_ok; [apply failure_identity_ok | done|]. intros identity Hidentity. specialize (Hidet _ Hidentity).
  apply or_fail_ok; [apply failure_identity_ok | |].
  { destruct (enumerate_reduction_sites_ok _ (ii_ir _ Hin)) as [(s & -> & _)|[e ->]]; [left | right]; eauto. }
  intros sites Hsites.
  destruct (enumerate_reduction_sites_ok _ (ii_ir _ Hin)) as [(s' & Hs' & Hso)|[e He]]; [|congruence].
  rewrite Hsites in Hs'. injection Hs' as <-.
  apply or_fail_ok; [by eexists | |].
  { destruct (bind_facts_ok sites _ (ii_budget _ Hin)) as [(b & -> & _)|[e ->]]; [left | right]; eauto. }
  intros bound Hbound. destruct (bind_facts_ok sites _ (ii_budget _ Hin)) as [(b' & Hb' & Hbo)|[e He]]; [|congruence].
  rewrite Hbound in Hb'. injection Hb' as <-.
  apply or_fail_ok; [by eexists | |].
  { destruct (bind_effective_ceilings_ok bound (rx_range_policy_projection inputs)) as [(c & -> & _)|[e ->]]; [left | right]; eauto. }
  intros ceilings Hceil. destruct (bind_effective_ceilings_ok bound (rx_range_policy_projection inputs)) as [(c' & Hc' & Hco)|[e He]];
    [|congruence]. rewrite Hceil in Hc'. injection Hc' as <-.
  destruct (bindings_ok _ _ _ _ Hbo Hco) as (Hall & Hmap & Hproj).
  assert (Hlen : 3 * zlen ceilings <= U32).
  { pose proof (ii_size _ Hin). pose proof (so_length _ _ Hso). apply (f_equal length) in Hmap. rewrite !length_map in Hmap.
    unfold zlen in *. lia. }
  destruct (plan_sites_ok (E := RangePlanCoreFailure) caps determinism (ii_caps _ Hin) ceilings (MkPlanState [] [] [] []) Hall)
    as (es & cs & ats & ds & Hf & Hds & Hat & Hats & Hpl). cbn [ps_entries ps_certificates ps_attempted_certificates ps_diagnostics app] in Hf.
  rewrite Hidet, Hf. cbn [obind ps_diagnostics]. destruct ds as [|d ds].
  - left. apply (finish_planned_ok identity sites _ ceilings); try done; [by apply Hpl|].
    pose proof (planned_sites _ _ _ _ _ (Hpl eq_refl)) as [_ Hcs]. apply (f_equal length) in Hcs. unfold sites_of in Hcs.
    rewrite !length_map in Hcs. cbn. unfold index_fits, zlen in *. lia.
  - right. apply fail_unplanned_ok; try done. cbn. unfold index_fits, zlen in *. lia.
Qed.
End build.

(** C25: the range-plan stage is sound end to end.  On inputs whose IR has
    provenance for its nodes, every product of the stage plans exactly the
    reduction sites of the IR, once each and in order, with the facts of the
    static budget; every planned reduction runs without overflow on all values
    within those facts, exactly unless it rescales; no smaller family under the
    site's ceiling could be certified; and the independent verifier accepts the
    certificate body. *)
Theorem range_plan_certified `{BuildProfile} `{RangeHashes} (inputs : RangePlanInputs) (s : RangePlanCoreSuccess)
    (Hin : inputs_ok inputs) (Hbuild : build_range_plan_core inputs = Ok s) :
  let entries := rg_entries (ok_range_plan s) in
  (StronglySorted (fun a b => String.leb a b = true) (map re_site entries) /\ NoDup (map re_site entries)
   /\ forall site, site ∈ map re_site entries
        <-> exists node, node ∈ ir_nodes (rx_infer_ir inputs) /\ in_reduction_site node = Some site)
  /\ (forall e, e ∈ entries ->
        (exists b p, p ∈ rx_static_budget_report inputs /\ re_site_facts e = facts_of_projection b p /\ pj_site p = re_site e)
        /\ least_family (re_site_facts e) (pp_range_caps (rx_range_policy_projection inputs))
             (ir_determinism (rx_infer_ir inputs)) (re_effective_ceiling e) (re_plan e)
        /\ forall rescale terms bias, zlen terms = rf_term_count (re_site_facts e) ->
             Forall (fun x => Z.abs x <= rf_per_term_abs_max_q (re_site_facts e)) terms ->
             Z.abs bias <= facts_bias_abs_max (re_site_facts e) -> rescales (re_plan e) rescale ->
             exists r, run_reduction rescale (re_plan e) terms bias = (Ok r : outcome Empty_set Z)
               /\ (plan_family (re_plan e) <> Family_RenormLoop -> r = zsum terms + bias))
  /\ independent_verify_report Report_Passed (ok_range_cert s)
     = Ok (MkIndependentVerifyReport Status_Verified (zlen entries) 0)
  /\ RangeCertBody_validate_semantics (ok_range_cert s) Report_Passed = true.
Proof.
  destruct (build_answers inputs Hin) as [(s' & Hb & Hp)|(fl & Hb & _)]; [|congruence].
  rewrite Hbuild in Hb. injection Hb as <-. destruct Hp as [_ Hsorted Hnd Helem Hver Hval Hiv].
  split; [done|]. split; [|done]. intros e [i Hi]%list_elem_of_lookup.
  destruct (Forall2_lookup_l _ _ _ _ _ Hver Hi) as (c & _ & _ & _ & _ & Hs & (b & p & Hp & Hf) & Ht & Hpt & Hv & Hl).
  split; [exists b, p; split_and!; [done | done | by rewrite <- Hs, Hf]|]. split; [done|]. intros rescale terms bias H1 H2 H3 H4.
  by apply (run_verified (cr_proof c) (re_plan e) (re_site_facts e) (ir_determinism (rx_infer_ir inputs))).
Qed.


(** One reduction site: [terms] products of inputs and weights up to the given
    bounds, ceiling [ceiling]. *)
Definition demo_hashes : RangeHashes := {| range_plan_self_hash := fun _ => Some 1; range_policy_projection_hash := fun _ => Some 2 |}.
Definition demo_inputs (terms input weight : Z) (ceiling : ReductionPlanCeiling) : RangePlanInputs :=
  MkRangePlanInputs
    (MkGbInferIR [MkInferNode 0 (Op_Embedding 0) None; MkInferNode 1 Op_Classify (Some "classify")] {[1 := Qg_ClassifyHead]} Deterministic)
    [MkReductionSiteProjection "classify" None None terms input weight (Some 7) RawIntegerProducts]
    (MkRangePolicyProjection "demo" demo_caps ceiling ∅ Deterministic) 1 2 3.

Lemma demo_inputs_ok terms input weight ceiling : 0 <= terms < U32 -> 0 <= input < U32 -> 0 <= weight < U32 ->
  inputs_ok (H := demo_hashes) (demo_inputs terms input weight ceiling).
Proof.
  intros Ht Hi Hw. constructor.
  - intros node Hn. cbn in Hn. apply elem_of_cons in Hn as [->|Hn]; [intros Hs; apply is_Some_None in Hs as []|].
    apply list_elem_of_singleton in Hn as ->. intros _. cbn. eauto.
  - cbn. constructor; [|constructor]. unfold projection_typed. cbn. lia.
  - apply demo_caps_typed.
  - done.
  - cbn. eauto.
  - cbn. eauto.
Qed.

(** Seventy products of at most 512 get chunks of 32 terms. *)
Lemma range_plan_certified_witness :
  match build_range_plan_core (H := true) (H0 := demo_hashes) (demo_inputs 70 1 512 Adaptive) with
  | Ok s => map re_plan (rg_entries (ok_range_plan s)) = [ChunkedI16 32]
            /\ independent_verify_report Report_Passed (ok_range_cert s) = Ok (MkIndependentVerifyReport Status_Verified 1 0)
  | _ => False
  end.
Proof.
  destruct (build_range_plan_core (H := true) (H0 := demo_hashes) (demo_inputs 70 1 512 Adaptive)) as [s|e| |] eqn:E;
    try (vm_compute in E; discriminate E).
  assert (Hi : inputs_ok (H := demo_hashes) (demo_inputs 70 1 512 Adaptive)) by (apply demo_inputs_ok; lia).
  pose proof (range_plan_certified (H := true) (H0 := demo_hashes) (demo_inputs 70 1 512 Adaptive) s Hi E) as (_ & _ & Hv & _).
  assert (Hp : map re_plan (rg_entries (ok_range_plan s)) = [ChunkedI16 32])
    by (vm_compute in E; injection E as E; rewrite <- E; reflexivity).
  split; [exact Hp|]. rewrite Hv. assert (Hl : zlen (rg_entries (ok_range_plan s)) = 1).
  { unfold zlen. rewrite <- (length_map re_plan), Hp. reflexivity. }
  rewrite Hl. reflexivity.
Defined.

