(* ===== verification/Store.v ===== *)
(** * The content-addressed store

    Hashes ([gbf-foundation/src/hash.rs]), blobs ([gbf-store/src/blob.rs]) and
    the stage cache over them ([stage_cache.rs]).

    A [Hash256] is its 256-bit value, most significant byte first.  SHA-256 is
    the class [Sha256].  The directories of a store are the record [Store]: a
    blob file by its hash, an index file by its cache key, with the text it
    holds ([None] when it is not text).  Only files under the names that the
    store itself gives are modelled.  Which file operations fail, and in which
    order a directory is listed, is the class [FileSystem]; the operating
    system's error is not kept.  The store has one user at a time, so the arms
    for a file that another process created or removed meanwhile are those of a
    file that is there or not. *)

From S2P Require Import Prelude Numeric.

(** ** Hashes *)

(** The bytes of a value, most significant first ([as_bytes]). *)
Fixpoint be_bytes (n : nat) (h : Z) : list Z :=
  match n with
  | O => []
  | S n => be_bytes n (h / 256) ++ [h mod 256]
  end.

Definition be_value (l : list Z) : Z := fold_left (fun acc b => acc * 256 + b) l 0.

Definition hash_ZERO : Z := 0.

Definition hash_bytes (h : Z) : list Z := be_bytes 32 h.

Definition hex_char (d : Z) : ascii := ascii_of_N (Z.to_N (if d <? 10 then 48 + d else 87 + d)).

Fixpoint hex_string (l : list Z) : string :=
  match l with
  | [] => ""
  | b :: l => String (hex_char (b / 16)) (String (hex_char (b mod 16)) (hex_string l))
  end.

Definition to_hex (h : Z) : string := hex_string (hash_bytes h).

Definition hash_display (h : Z) : string := String.append "sha256:" (to_hex h).

Inductive Hash256ParseError :=
| InvalidPrefix
| InvalidLength (expected actual : Z)
| InvalidHex (index : Z) (byte : ascii).
#[export] Instance Hash256ParseError_eq_dec : EqDecision Hash256ParseError.
Proof. solve_decision. Defined.

Definition hex_value (c : ascii) : option Z :=
  let byte := Z.of_N (N_of_ascii c) in
  if (48 <=? byte) && (byte <=? 57) then Some (byte - 48)
  else if (97 <=? byte) && (byte <=? 102) then Some (byte - 97 + 10)
  else None.

(** The loop over [chunks_exact(2)]; [index] counts the characters read. *)
Fixpoint parse_hex (index : Z) (hex : string) : outcome Hash256ParseError (list Z) :=
  match hex with
  | String c1 (String c0 hex) =>
      let* high := ok_or (hex_value c1) (InvalidHex index c1) in
      let* low := ok_or (hex_value c0) (InvalidHex (index + 1) c0) in
      let* l := parse_hex (index + 2) hex in
      Ok (Z.lor (Z.shiftl high 4) low :: l)
  | _ => Ok []
  end.

Definition hash_from_str (s : string) : outcome Hash256ParseError Z :=
  let* hex := ok_or (strip_prefix "sha256:" s) InvalidPrefix in
  if negb (Z.of_nat (String.length hex) =? 64)
  then Err (InvalidLength 64 (Z.of_nat (String.length hex)))
  else
    let* bytes := parse_hex 0 hex in
    Ok (be_value bytes).

(** ** The file system *)

Class Sha256 := sha256 : list Z -> Z.

Inductive IoOp :=
| Op_ReadBlob (h : Z) | Op_StatBlob (h : Z) | Op_RemoveBlob (h : Z) | Op_ListBlobs
| Op_WriteTmp | Op_RenameBlob (h : Z)
| Op_ReadIndex (k : Z) | Op_WriteIndex (k : Z) | Op_RemoveIndex (k : Z) | Op_ListIndexes.

Class FileSystem := {
  io_fails : IoOp -> bool;
  read_dir : list Z -> list Z;
  read_dir_perm : forall l, Permutation (read_dir l) l;
}.

Record Store := {
  blobs : gmap Z (list Z);
  indexes : gmap Z (option string);
}.

Definition set_blobs (b : gmap Z (list Z)) (s : Store) : Store :=
  {| blobs := b; indexes := s.(indexes) |}.
Definition set_indexes (i : gmap Z (option string)) (s : Store) : Store :=
  {| blobs := s.(blobs); indexes := i |}.

Inductive BlobStoreError :=
| BS_Io
| LenMismatch (expected actual : Z)
| HashMismatch (expected actual : Z)
| NotFound (hash : Z)
| BlobTooLarge (len max : Z)
| ExistingBlobCorrupt (hash actual : Z).
#[export] Instance BlobStoreError_eq_dec : EqDecision BlobStoreError.
Proof. solve_decision. Defined.

Inductive BlobCodec := Raw | Zstd.
Record BlobRef := { ref_hash : Z; ref_len : Z; ref_codec : BlobCodec }.

Section Blobs.
  Context `{Sha256} `{FileSystem}.

(** ** Blobs *)

Definition blob_exists (s : Store) (h : Z) : bool := bool_decide (is_Some (s.(blobs) !! h)).

Definition blob_get (s : Store) (h : Z) : outcome BlobStoreError (list Z) :=
  if io_fails (Op_ReadBlob h) then Err BS_Io else ok_or (s.(blobs) !! h) (NotFound h).

Definition checked_blob_len (len : Z) : outcome BlobStoreError Z :=
  if len <? U32 then Ok len else Err (BlobTooLarge len (U32 - 1)).

Definition get_ref (s : Store) (r : BlobRef) : outcome BlobStoreError (list Z) :=
  let* bytes := blob_get s r.(ref_hash) in
  let actual := if zlen bytes <? U32 then zlen bytes else U32 - 1 in
  if negb (actual =? r.(ref_len)) then Err (LenMismatch r.(ref_len) actual) else Ok bytes.

(** Opening a file that is not there is an I/O error. *)
Definition verify_existing (s : Store) (h : Z) : outcome BlobStoreError unit :=
  if io_fails (Op_ReadBlob h) then Err BS_Io else
  match s.(blobs) !! h with
  | None => Err BS_Io
  | Some bytes =>
      let actual := sha256 bytes in
      if negb (actual =? h) then Err (ExistingBlobCorrupt h actual) else Ok ()
  end.

(** The rename of the temporary file that holds [bytes]. *)
Definition commit_tmp (s : Store) (h : Z) (bytes : list Z) : outcome BlobStoreError unit * Store :=
  if blob_exists s h then (verify_existing s h, s)
  else if io_fails (Op_RenameBlob h) then (Err BS_Io, s)
  else (Ok (), set_blobs (<[h := bytes]> s.(blobs)) s).

Definition commit_bytes (s : Store) (h : Z) (bytes : list Z) : outcome BlobStoreError unit * Store :=
  if blob_exists s h then (verify_existing s h, s)
  else if io_fails Op_WriteTmp then (Err BS_Io, s)
  else commit_tmp s h bytes.

(** [result.map(|_| value)]. *)
Definition with_result {E A B} (r : outcome E A * Store) (b : B) : outcome E B * Store :=
  (obind (fst r) (fun _ => Ok b), snd r).

Definition blob_put (s : Store) (bytes : list Z) : outcome BlobStoreError Z * Store :=
  let hash := sha256 bytes in
  with_result (commit_bytes s hash bytes) hash.

Definition put_expect (s : Store) (expected : Z) (bytes : list Z) : outcome BlobStoreError Z * Store :=
  let actual := sha256 bytes in
  if negb (actual =? expected) then (Err (HashMismatch expected actual), s)
  else with_result (commit_bytes s expected bytes) expected.

Definition put_as (s : Store) (bytes : list Z) (codec : BlobCodec)
    : outcome BlobStoreError BlobRef * Store :=
  match checked_blob_len (zlen bytes) with
  | Ok len =>
      let '(r, s) := blob_put s bytes in
      (obind r (fun hash => Ok {| ref_hash := hash; ref_len := len; ref_codec := codec |}), s)
  | Err e => (Err e, s)
  | Panic => (Panic, s)
  | NoFuel => (NoFuel, s)
  end.

(** The reader's chunks, hashed and written as they come. *)
Definition put_streaming (s : Store) (chunks : list (list Z)) : outcome BlobStoreError Z * Store :=
  if io_fails Op_WriteTmp then (Err BS_Io, s)
  else
    let hash := sha256 (concat chunks) in
    with_result (commit_tmp s hash (concat chunks)) hash.

Definition blob_remove (s : Store) (h : Z) : outcome BlobStoreError unit * Store :=
  if io_fails (Op_RemoveBlob h) then (Err BS_Io, s)
  else (Ok (), set_blobs (delete h s.(blobs)) s).

(** Sorted without repetition, whatever the order of the directories. *)
Definition list_blobs (s : Store) : outcome BlobStoreError (list Z) :=
  if io_fails Op_ListBlobs then Err BS_Io
  else Ok (merge_sort Z.le (read_dir (map fst (map_to_list s.(blobs))))).

End Blobs.

(** ** The stage cache *)

Record SemVer := { sv_major : Z; sv_minor : Z; sv_patch : Z }.

(** The components and the flags are in ascending order of their names. *)
Record StageKey := {
  stage_id : list Z;
  shard_local : list (list Z * Z);
  sk_global : Z;
  feature_flags : list (list Z);
  pass_version : SemVer;
}.

Inductive StageCacheError :=
| SC_Io
| SC_BlobStore (e : BlobStoreError)
| KeyEncodingFailed (component : string) (value : Z)
| InvalidIndex (key : Z) (detail : Hash256ParseError).
#[export] Instance StageCacheError_eq_dec : EqDecision StageCacheError.
Proof. solve_decision. Defined.

Definition len_u32 (component : string) (value : Z) : outcome StageCacheError Z :=
  if value <? U32 then Ok value else Err (KeyEncodingFailed component value).

Definition semver_u32 (component : string) (value : Z) : outcome StageCacheError Z :=
  if value <? U32 then Ok value else Err (KeyEncodingFailed component value).

(** [hasher.update]s of a string: what they append to the hashed bytes. *)
Definition update_string (value : list Z) : outcome StageCacheError (list Z) :=
  let* n := len_u32 "string length" (zlen value) in
  Ok (le_bytes 4 n ++ value).

Definition update_component (c : list Z * Z) : outcome StageCacheError (list Z) :=
  let* name := update_string (fst c) in
  Ok (name ++ hash_bytes (snd c)).

(** The bytes that [try_compose_key] hashes. *)
Definition key_preimage (key : StageKey) : outcome StageCacheError (list Z) :=
  let* id := update_string key.(stage_id) in
  let* nc := len_u32 "shard_local component count" (zlen key.(shard_local)) in
  let* cs := omapM update_component key.(shard_local) in
  let* nf := len_u32 "feature flag count" (zlen key.(feature_flags)) in
  let* fs := omapM update_string key.(feature_flags) in
  let* major := semver_u32 "major" key.(pass_version).(sv_major) in
  let* minor := semver_u32 "minor" key.(pass_version).(sv_minor) in
  let* patch := semver_u32 "patch" key.(pass_version).(sv_patch) in
  Ok (id ++ le_bytes 4 nc ++ concat cs ++ hash_bytes key.(sk_global) ++ le_bytes 4 nf ++ concat fs
      ++ le_bytes 4 major ++ le_bytes 4 minor ++ le_bytes 4 patch).

Definition try_compose_key `{Sha256} (key : StageKey) : outcome StageCacheError Z :=
  let* bytes := key_preimage key in
  Ok (sha256 bytes).

(** The UTF-8 forms of the characters that [trim] removes. *)
Definition whitespace_forms : list (list Z) :=
  [[0x09]; [0x0A]; [0x0B]; [0x0C]; [0x0D]; [0x20]; [0xC2; 0x85]; [0xC2; 0xA0]; [0xE1; 0x9A; 0x80];
   [0xE2; 0x80; 0x80]; [0xE2; 0x80; 0x81]; [0xE2; 0x80; 0x82]; [0xE2; 0x80; 0x83];
   [0xE2; 0x80; 0x84]; [0xE2; 0x80; 0x85]; [0xE2; 0x80; 0x86]; [0xE2; 0x80; 0x87];
   [0xE2; 0x80; 0x88]; [0xE2; 0x80; 0x89]; [0xE2; 0x80; 0x8A]; [0xE2; 0x80; 0xA8];
   [0xE2; 0x80; 0xA9]; [0xE2; 0x80; 0xAF]; [0xE2; 0x81; 0x9F]; [0xE3; 0x80; 0x80]].

Definition byte_string (l : list Z) : string :=
  String.string_of_list_ascii (map (fun b => ascii_of_N (Z.to_N b)) l).

Definition strip_any (forms : list string) (s : string) : option string :=
  List.fold_right (fun form rest => match strip_prefix form s with Some t => Some t | None => rest end)
    None forms.

(** Removes prefixes while one matches; the length of the text is fuel enough. *)
Fixpoint strip_all (fuel : nat) (forms : list string) (s : string) : string :=
  match fuel with
  | O => s
  | S fuel => match strip_any forms s with Some t => strip_all fuel forms t | None => s end
  end.

Definition str_rev (s : string) : string :=
  String.string_of_list_ascii (rev (String.list_ascii_of_string s)).

Definition trim_start (s : string) : string :=
  strip_all (String.length s) (map byte_string whitespace_forms) s.
Definition trim_end (s : string) : string :=
  str_rev (strip_all (String.length s)
             (map (fun f => byte_string (rev f)) whitespace_forms) (str_rev s)).
Definition trim (s : string) : string := trim_end (trim_start s).

Section Cache.
  Context `{Sha256} `{FileSystem}.

(** [Ok None]: no such file. *)
Definition read_index_hash (s : Store) (key : Z) : outcome StageCacheError (option Z) :=
  if io_fails (Op_ReadIndex key) then Err SC_Io else
  match s.(indexes) !! key with
  | None => Ok None
  | Some None => Err SC_Io
  | Some (Some raw) =>
      match hash_from_str (trim raw) with
      | Ok h => Ok (Some h)
      | Err e => Err (InvalidIndex key e)
      | Panic => Panic
      | NoFuel => NoFuel
      end
  end.

Definition cache_get (s : Store) (key : StageKey) : outcome StageCacheError (option (list Z)) :=
  let* composed := try_compose_key key in
  let* payload_hash := read_index_hash s composed in
  match payload_hash with
  | None => Ok None
  | Some payload_hash =>
      match blob_get s payload_hash with
      | Ok bytes => Ok (Some bytes)
      | Err (NotFound _) => Ok None
      | Err e => Err (SC_BlobStore e)
      | Panic => Panic
      | NoFuel => NoFuel
      end
  end.

Definition atomic_write_index (s : Store) (key payload_hash : Z) : outcome StageCacheError unit * Store :=
  if io_fails (Op_WriteIndex key) then (Err SC_Io, s)
  else (Ok (), set_indexes (<[key := Some (hash_display payload_hash)]> s.(indexes)) s).

Record StageCacheEntry := { ce_key : Z; ce_payload_hash : Z }.

Definition cache_put (s : Store) (key : StageKey) (payload : list Z)
    : outcome StageCacheError StageCacheEntry * Store :=
  match try_compose_key key with
  | Ok composed =>
      let '(r, s) := blob_put s payload in
      match r with
      | Ok payload_hash =>
          with_result (atomic_write_index s composed payload_hash)
            {| ce_key := composed; ce_payload_hash := payload_hash |}
      | Err e => (Err (SC_BlobStore e), s)
      | Panic => (Panic, s)
      | NoFuel => (NoFuel, s)
      end
  | Err e => (Err e, s)
  | Panic => (Panic, s)
  | NoFuel => (NoFuel, s)
  end.

End Cache.
