(* ===== verification/StoreFacts.v ===== *)
(** * What the store promises

    Hashes survive their text form; distinct stage keys are hashed from distinct
    bytes; every operation keeps the blobs content-addressed; a payload that was
    cached comes back. *)

From Stdlib Require Import Lia.
From S2P Require Import Prelude Numeric Store.

(** ** Hashes and their text *)

Definition is_hash (h : Z) : Prop := 0 <= h < 2 ^ 256.

Lemma be_bytes_length n : forall h, length (be_bytes n h) = n.
Proof. induction n as [|n IH]; intros h; simpl; [done|]. rewrite length_app, IH. simpl. lia. Qed.

Lemma be_value_app l b : be_value (l ++ [b]) = be_value l * 256 + b.
Proof. unfold be_value. by rewrite fold_left_app. Qed.

Lemma be_value_bytes n : forall h, 0 <= h < 256 ^ Z.of_nat n -> be_value (be_bytes n h) = h.
Proof.
  induction n as [|n IH]; intros h Hh; [cbn; change (256 ^ Z.of_nat 0) with 1 in Hh; lia|].
  rewrite Nat2Z.inj_succ, Z.pow_succ_r in Hh by lia. cbn [be_bytes]. rewrite be_value_app, IH.
  - pose proof (Z.div_mod h 256). lia.
  - split; [apply Z.div_pos; lia | apply Z.div_lt_upper_bound; lia].
Qed.

Lemma be_bytes_range n : forall h, Forall (fun b => 0 <= b < 256) (be_bytes n h).
Proof.
  induction n as [|n IH]; intros h; simpl; [constructor|]. apply Forall_app. split; [done|].
  constructor; [|constructor]. by apply Z.mod_pos_bound.
Qed.

Lemma hash_bytes_length h : length (hash_bytes h) = 32%nat.
Proof. apply be_bytes_length. Qed.

Lemma hash_value h : is_hash h -> be_value (hash_bytes h) = h.
Proof. intros Hh. unfold is_hash in Hh. apply be_value_bytes. done. Qed.

Lemma hash_bytes_inj h1 h2 : is_hash h1 -> is_hash h2 -> hash_bytes h1 = hash_bytes h2 -> h1 = h2.
Proof. intros H1 H2 H. rewrite <- (hash_value h1), <- (hash_value h2) by done. by rewrite H. Qed.

Lemma zrange_check (f : Z -> bool) n : forallb f (zrange n) = true -> forall k, 0 <= k < n -> f k = true.
Proof. intros H k Hk. rewrite List.forallb_forall in H. apply H, list_elem_of_In. by apply zrange_elem. Qed.

Definition some_is (o : option Z) (v : Z) : bool := match o with Some w => w =? v | None => false end.

Lemma some_is_true o v : some_is o v = true -> o = Some v.
Proof. destruct o; cbn; [|done]. by intros ->%Z.eqb_eq. Qed.

Lemma hex_value_char d : 0 <= d < 16 -> hex_value (hex_char d) = Some d.
Proof.
  intros Hd. apply some_is_true. revert d Hd.
  apply (zrange_check (fun d => some_is (hex_value (hex_char d)) d)). reflexivity.
Qed.

Lemma nibbles b : 0 <= b < 256 -> Z.lor (Z.shiftl (b / 16) 4) (b mod 16) = b.
Proof.
  intros Hb. apply Z.eqb_eq. revert b Hb.
  apply (zrange_check (fun b => Z.lor (Z.shiftl (b / 16) 4) (b mod 16) =? b)). reflexivity.
Qed.

Lemma parse_hex_string l : Forall (fun b => 0 <= b < 256) l ->
  forall index, parse_hex index (hex_string l) = Ok l.
Proof.
  induction 1 as [|b l Hb Hl IH]; intros index; [done|]. cbn [hex_string parse_hex].
  rewrite !hex_value_char; [|apply Z.mod_pos_bound; lia|].
  - cbn [ok_or obind]. rewrite IH. cbn [obind]. by rewrite nibbles.
  - split; [apply Z.div_pos; lia | apply Z.div_lt_upper_bound; lia].
Qed.

Lemma hex_string_length l : String.length (hex_string l) = (2 * length l)%nat.
Proof. induction l as [|b l IH]; [done|]. cbn [hex_string String.length length]. lia. Qed.

Lemma hash_parse_display h : is_hash h -> hash_from_str (hash_display h) = Ok h.
Proof.
  intros Hh. unfold hash_from_str, hash_display.
  change (strip_prefix _ _) with (Some (to_hex h)). cbn [ok_or obind]. unfold to_hex.
  rewrite hex_string_length, hash_bytes_length. change (negb _) with false. cbv iota.
  rewrite parse_hex_string; [|apply be_bytes_range]. cbn [obind]. by rewrite hash_value.
Qed.

(** What is not text about a hash stays: [trim] only removes white space. *)
Lemma hex_string_app l1 l2 : hex_string (l1 ++ l2) = String.append (hex_string l1) (hex_string l2).
Proof. induction l1 as [|b l1 IH]; [done|]. cbn [hex_string String.append app]. by rewrite IH. Qed.

Lemma list_ascii_append s1 s2 : String.list_ascii_of_string (String.append s1 s2)
  = String.list_ascii_of_string s1 ++ String.list_ascii_of_string s2.
Proof. induction s1 as [|c s1 IH]; [done|]. simpl. by rewrite IH. Qed.

Lemma text_rev_involutive s : str_rev (str_rev s) = s.
Proof.
  unfold str_rev. rewrite String.list_ascii_of_string_of_list_ascii, rev_involutive.
  apply String.string_of_list_ascii_of_string.
Qed.

Lemma no_space_before d s : 0 <= d < 16 ->
  strip_any (map (fun f => byte_string (rev f)) whitespace_forms) (String (hex_char d) s) = None.
Proof.
  set (f := fun d => match strip_any (map (fun f => byte_string (rev f)) whitespace_forms)
                             (String (hex_char d) s) with None => true | Some _ => false end).
  intros Hd. assert (Hf : f d = true) by (revert d Hd; by apply zrange_check).
  unfold f in Hf. by destruct (strip_any _ _).
Qed.

Lemma strip_all_none forms fuel s : strip_any forms s = None -> strip_all fuel forms s = s.
Proof. intros H. destruct fuel; [done|]. cbn [strip_all]. by rewrite H. Qed.

Lemma str_rev_hex pre l b :
  str_rev (String.append pre (hex_string (l ++ [b])))
  = String (hex_char (b mod 16)) (str_rev (String.append pre (hex_string l ++ String (hex_char (b / 16)) "")%string)).
Proof.
  rewrite hex_string_app. unfold str_rev. by rewrite !list_ascii_append, !rev_app_distr.
Qed.

Lemma trim_hash_display h : trim (hash_display h) = hash_display h.
Proof.
  assert (Hs : trim_start (hash_display h) = hash_display h) by (apply strip_all_none; reflexivity).
  unfold trim. rewrite Hs. unfold trim_end. rewrite strip_all_none; [apply text_rev_involutive|].
  unfold hash_display, to_hex, hash_bytes. cbn [be_bytes]. rewrite str_rev_hex.
  apply no_space_before. apply Z.mod_pos_bound. lia.
Qed.

(** ** Stage keys *)

#[local] Opaque le_bytes hash_bytes.

Definition typed_key (key : StageKey) : Prop :=
  is_hash key.(sk_global) /\ Forall (fun c => is_hash (snd c)) key.(shard_local) /\
  0 <= key.(pass_version).(sv_major) /\ 0 <= key.(pass_version).(sv_minor) /\
  0 <= key.(pass_version).(sv_patch).

Lemma len_u32_Ok c v n : len_u32 c v = Ok n <-> v < U32 /\ n = v.
Proof. unfold len_u32. destruct (Z.ltb_spec v U32); split; intuition (congruence || lia). Qed.

Lemma semver_u32_Ok c v n : semver_u32 c v = Ok n <-> v < U32 /\ n = v.
Proof. apply len_u32_Ok. Qed.

(** An encoding is self-delimiting: two texts that begin with encodings begin
    with the same one. *)
Lemma le_bytes_4_split v w x y : 0 <= v < U32 -> 0 <= w < U32 ->
  le_bytes 4 v ++ x = le_bytes 4 w ++ y -> v = w /\ x = y.
Proof.
  intros Hv Hw H. apply app_inj_1 in H as [H1 H2]; [|by rewrite !le_bytes_len]. split; [|done].
  rewrite <- (le_value_bytes 4 v), <- (le_value_bytes 4 w) by (change (256 ^ Z.of_nat 4) with U32; lia).
  by rewrite H1.
Qed.

Lemma update_string_split a b ea eb x y : update_string a = Ok ea -> update_string b = Ok eb ->
  ea ++ x = eb ++ y -> a = b /\ x = y.
Proof.
  unfold update_string. intros Ha Hb H. inv_ok. rewrite len_u32_Ok in Hx, Hx0.
  destruct Hx as [Hx ->], Hx0 as [Hx0 ->]. rewrite <- !app_assoc in H.
  pose proof (zlen_nonneg a). pose proof (zlen_nonneg b).
  apply le_bytes_4_split in H as [Hl H]; [|done|done].
  unfold zlen in Hl. apply app_inj_1 in H; [done|lia].
Qed.

Lemma update_component_split a b ea eb x y : is_hash (snd a) -> is_hash (snd b) ->
  update_component a = Ok ea -> update_component b = Ok eb -> ea ++ x = eb ++ y -> a = b /\ x = y.
Proof.
  unfold update_component. intros Ha Hb Hea Heb H. inv_ok. rewrite <- !app_assoc in H.
  eapply update_string_split in H as [Hn H]; [|done|done].
  apply app_inj_1 in H as [H1 H2]; [|by rewrite !hash_bytes_length].
  apply hash_bytes_inj in H1; [|done|done]. destruct a, b. cbn in *. by subst.
Qed.

Lemma omapM_split {A} (f : A -> outcome StageCacheError (list Z)) (P : A -> Prop) l1 l2 e1 e2 x y :
  (forall a b ea eb x y, P a -> P b -> f a = Ok ea -> f b = Ok eb -> ea ++ x = eb ++ y -> a = b /\ x = y) ->
  Forall P l1 -> Forall P l2 -> length l1 = length l2 -> omapM f l1 = Ok e1 -> omapM f l2 = Ok e2 ->
  concat e1 ++ x = concat e2 ++ y -> l1 = l2 /\ x = y.
Proof.
  intros Hf. revert l2 e1 e2. induction l1 as [|a l1 IH]; intros [|b l2] e1 e2 H1 H2 Hl He1 He2 H;
    try discriminate Hl; cbn [omapM] in *; inv_ok; subst; [done|].
  apply Forall_cons in H1 as [Ha H1], H2 as [Hb H2]. cbn [concat] in H. rewrite <- !app_assoc in H.
  injection Hl as Hl. destruct (Hf a b _ _ _ _ Ha Hb ltac:(eassumption) ltac:(eassumption) H) as [-> H'].
  eapply IH in H' as [-> ->]; done.
Qed.

Lemma preimage_inj k1 k2 b : typed_key k1 -> typed_key k2 ->
  key_preimage k1 = Ok b -> key_preimage k2 = Ok b -> k1 = k2.
Proof.
  unfold key_preimage. intros (Hg1 & Hc1 & Hv1) (Hg2 & Hc2 & Hv2) H1 H2. inv_ok.
  repeat match goal with
  | H : len_u32 _ _ = Ok _ |- _ => apply len_u32_Ok in H as [? ->]
  | H : semver_u32 _ _ = Ok _ |- _ => apply semver_u32_Ok in H as [? ->]
  end.
  pose proof (zlen_nonneg (shard_local k1)). pose proof (zlen_nonneg (shard_local k2)).
  pose proof (zlen_nonneg (feature_flags k1)). pose proof (zlen_nonneg (feature_flags k2)).
  eapply update_string_split in H1 as [Hid H1]; [|done|done].
  apply le_bytes_4_split in H1 as [Hn H1]; [|lia|lia].
  eapply (omapM_split _ (fun c => is_hash (snd c)) (shard_local k1) (shard_local k2)) in H1 as [Hsl H1];
    [|intros *; apply update_component_split|done|done|unfold zlen in Hn; lia|done|done].
  apply app_inj_1 in H1 as [Hg H1]; [|by rewrite !hash_bytes_length].
  apply hash_bytes_inj in Hg; [|done|done].
  apply le_bytes_4_split in H1 as [Hm H1]; [|lia|lia].
  eapply (omapM_split _ (fun _ => True) (feature_flags k1) (feature_flags k2)) in H1 as [Hfl H1];
    [|intros * _ _; apply update_string_split|by apply Forall_true|by apply Forall_true
     |unfold zlen in Hm; lia|done|done].
  apply le_bytes_4_split in H1 as [Hma H1]; [|lia|lia].
  apply le_bytes_4_split in H1 as [Hmi H1]; [|lia|lia].
  rewrite <- (app_nil_r (le_bytes 4 _)) in H1.
  rewrite <- (app_nil_r (le_bytes 4 (sv_patch (pass_version k2)))) in H1.
  apply le_bytes_4_split in H1 as [Hp _]; [|lia|lia].
  destruct k1 as [? ? ? ? []], k2 as [? ? ? ? []]. cbn in *. by subst.
Qed.

(** ** Blobs *)

Section Facts.
  Context `{Sha256} `{FileSystem}.

(** Every blob is stored under its hash. *)
Definition content_addressed (s : Store) : Prop :=
  forall h bytes, s.(blobs) !! h = Some bytes -> sha256 bytes = h.

Lemma blob_exists_true s h : blob_exists s h = true <-> is_Some (s.(blobs) !! h).
Proof. apply bool_decide_eq_true. Qed.

Lemma blob_exists_false s h : blob_exists s h = false <-> s.(blobs) !! h = None.
Proof. unfold blob_exists. rewrite bool_decide_eq_false. symmetry. apply eq_None_not_Some. Qed.

(** A commit adds the blob or leaves the store as it is, and when it succeeds a
    blob with that hash is there. *)
Definition grown (s s' : Store) (h : Z) (bytes : list Z) : Prop :=
  s' = s \/ s.(blobs) !! h = None /\ s' = set_blobs (<[h := bytes]> s.(blobs)) s.

Lemma verify_existing_Ok s h u : verify_existing s h = Ok u ->
  exists bytes, s.(blobs) !! h = Some bytes /\ sha256 bytes = h.
Proof.
  unfold verify_existing. destruct (io_fails _); [done|]. destruct (blobs s !! h) as [bytes|]; [|done].
  destruct (Z.eqb_spec (sha256 bytes) h); [|done]. intros _. by exists bytes.
Qed.

Lemma commit_tmp_spec s bytes r s' : commit_tmp s (sha256 bytes) bytes = (r, s') ->
  grown s s' (sha256 bytes) bytes /\ r <> Panic /\ r <> NoFuel /\
  (r = Ok tt -> exists b, s'.(blobs) !! sha256 bytes = Some b /\ sha256 b = sha256 bytes).
Proof.
  unfold commit_tmp, grown. destruct (blob_exists s (sha256 bytes)) eqn:He.
  - intros [= <- <-]. split; [by left|].
    split; [|split; [|by apply verify_existing_Ok]]; unfold verify_existing;
      destruct (io_fails _), (blobs s !! sha256 bytes); try done; by destruct (negb _).
  - destruct (io_fails _); intros [= <- <-]; [split; [by left|done]|].
    apply blob_exists_false in He. split; [by right|]. split; [done|split; [done|]].
    intros _. exists bytes. cbn. by rewrite lookup_insert_eq.
Qed.

Lemma commit_bytes_spec s bytes r s' : commit_bytes s (sha256 bytes) bytes = (r, s') ->
  grown s s' (sha256 bytes) bytes /\ r <> Panic /\ r <> NoFuel /\
  (r = Ok tt -> exists b, s'.(blobs) !! sha256 bytes = Some b /\ sha256 b = sha256 bytes).
Proof.
  unfold commit_bytes. destruct (blob_exists s (sha256 bytes)) eqn:He.
  - intros Hc. apply commit_tmp_spec. unfold commit_tmp. by rewrite He.
  - destruct (io_fails _); [|apply commit_tmp_spec]. intros [= <- <-]. split; [by left|done].
Qed.

Lemma with_result_Ok {E A B} (r : outcome E A * Store) (b : B) c s' :
  with_result r b = (Ok c, s') -> c = b /\ snd r = s' /\ exists a, fst r = Ok a.
Proof. destruct r as [[a| | |] s]; cbn; intros [= <- <-]. split; [done|]. split; [done|by exists a]. Qed.

Lemma blob_put_spec s bytes r s' : blob_put s bytes = (r, s') ->
  grown s s' (sha256 bytes) bytes /\ r <> Panic /\ r <> NoFuel /\
  (forall h, r = Ok h -> h = sha256 bytes /\
     exists b, s'.(blobs) !! h = Some b /\ sha256 b = h).
Proof.
  unfold blob_put, with_result. destruct (commit_bytes s (sha256 bytes) bytes) as [c t] eqn:Hc.
  apply commit_bytes_spec in Hc as (Hg & Hp & Hn & Ho). cbn [fst snd]. intros [= <- <-].
  split; [done|]. destruct c as [[]| | |]; try done. split; [done|]. split; [done|].
  intros h [= <-]. split; [done|]. by apply Ho.
Qed.

Lemma grown_lookup s s' h bytes k b : grown s s' h bytes -> s.(blobs) !! k = Some b -> s'.(blobs) !! k = Some b.
Proof.
  intros [->|[Hn ->]] Hk; [done|]. cbn. destruct (decide (h = k)) as [->|Hne]; [congruence|].
  by rewrite lookup_insert_ne.
Qed.

Lemma grown_indexes s s' h bytes : grown s s' h bytes -> s'.(indexes) = s.(indexes).
Proof. by intros [->|[_ ->]]. Qed.

Lemma grown_content s s' bytes : grown s s' (sha256 bytes) bytes ->
  content_addressed s -> content_addressed s'.
Proof.
  intros [->|[_ ->]] Hs; [done|]. intros k b. cbn. rewrite lookup_insert_Some.
  intros [[<- <-]|[_ Hb]]; [done|by apply Hs].
Qed.

(** ** The cache *)

Lemma read_index_hash_ext s s' k : s'.(indexes) !! k = s.(indexes) !! k ->
  read_index_hash s' k = read_index_hash s k.
Proof. intros Hk. unfold read_index_hash. by rewrite Hk. Qed.

(** What a hit consists of. *)
Lemma cache_get_hit s key b : cache_get s key = Ok (Some b) <->
  exists k p, try_compose_key key = Ok k /\ read_index_hash s k = Ok (Some p) /\ blob_get s p = Ok b.
Proof.
  unfold cache_get. split.
  - intros Hg. inv_ok. destruct x0 as [p|]; [|done]. exists x, p. split; [done|]. split; [done|].
    destruct (blob_get s p) as [b'|[]| |]; try discriminate Hg. congruence.
  - intros (k & p & -> & Hp & Hb). cbn [obind]. rewrite Hp. cbn [obind]. by rewrite Hb.
Qed.

Lemma blob_get_Ok s h b : blob_get s h = Ok b <-> io_fails (Op_ReadBlob h) = false /\ s.(blobs) !! h = Some b.
Proof. unfold blob_get. destruct (io_fails _); [split; [done|intros [? _]; done]|]. rewrite ok_or_Ok. tauto. Qed.

Lemma cache_put_spec s key payload r s' : cache_put s key payload = (r, s') ->
  (exists t, grown s t (sha256 payload) payload /\
     (s' = t \/ exists k, try_compose_key key = Ok k /\
        s' = set_indexes (<[k := Some (hash_display (sha256 payload))]> t.(indexes)) t)) /\
  (forall e, r = Ok e -> try_compose_key key = Ok e.(ce_key) /\ e.(ce_payload_hash) = sha256 payload /\
     s'.(indexes) !! e.(ce_key) = Some (Some (hash_display (sha256 payload))) /\
     exists b, s'.(blobs) !! sha256 payload = Some b /\ sha256 b = sha256 payload).
Proof.
  unfold cache_put. destruct (try_compose_key key) as [k| | |].
  2-4: intros [= <- <-]; split; [exists s; split; [by left|by left]|done].
  destruct (blob_put s payload) as [c t] eqn:Hc. apply blob_put_spec in Hc as (Hg & _ & _ & Ho).
  destruct c as [h| | |]; [|intros [= <- <-]; split; [exists t; split; [done|by left]|done]..].
  destruct (Ho h eq_refl) as (-> & b & Hb). unfold atomic_write_index, with_result.
  destruct (io_fails _); cbn [fst snd obind]; intros [= <- <-].
  - split; [|done]. exists t. split; [done|by left].
  - split; [exists t; split; [done|right; by exists k]|]. intros e [= <-]. cbn.
    rewrite lookup_insert_eq. split; [done|]. split; [done|]. split; [done|]. by exists b.
Qed.

(** C17: A cached payload comes back: after a [put] that succeeds, [get] of the
    same key finds a payload with the hash of the one that was put (unless a file
    cannot be read).  Whatever a [put] ends in, what other keys find stays as it
    was, unless the hash function maps the distinct encodings of the two keys to
    the same value. *)
Theorem cached_payload_comes_back (Hsha : forall l, is_hash (sha256 l)) s key payload r s' :
  cache_put s key payload = (r, s') ->
  (forall e, r = Ok e ->
     io_fails (Op_ReadIndex e.(ce_key)) = false -> io_fails (Op_ReadBlob e.(ce_payload_hash)) = false ->
     exists b, cache_get s' key = Ok (Some b) /\ sha256 b = sha256 payload) /\
  (forall key2 b, typed_key key -> typed_key key2 -> key2 <> key ->
     cache_get s key2 = Ok (Some b) ->
     cache_get s' key2 = Ok (Some b) \/
     exists x y, key_preimage key = Ok x /\ key_preimage key2 = Ok y /\ x <> y /\ sha256 x = sha256 y).
Proof.
  intros Hput. apply cache_put_spec in Hput as ((t & Hg & Ht) & Ho). split.
  - intros e -> Hri Hrb. destruct (Ho e eq_refl) as (Hk & Hp & Hi & b & Hb & Hs).
    exists b. split; [|done]. apply cache_get_hit. exists (ce_key e), (sha256 payload).
    split; [done|]. rewrite Hp in Hrb. split; [|by apply blob_get_Ok].
    unfold read_index_hash. by rewrite Hri, Hi, trim_hash_display, hash_parse_display.
  - intros key2 b Hk1 Hk2 Hne (k2 & p & Hc & Hi & Hb)%cache_get_hit.
    apply blob_get_Ok in Hb as [Hio Hb]. apply (grown_lookup _ _ _ _ _ _ Hg) in Hb.
    pose proof (grown_indexes _ _ _ _ Hg) as Hix.
    destruct Ht as [->|(k & Hc' & ->)].
    { constructor 1. apply cache_get_hit. exists k2, p. split; [done|].
      split; [|by apply blob_get_Ok]. by rewrite (read_index_hash_ext s) by by rewrite Hix. }
    destruct (decide (k = k2)) as [->|Hkk].
    + constructor 2. unfold try_compose_key in Hc, Hc'. inv_ok. exists x0, x.
      split; [done|]. split; [done|]. split; [|congruence]. intros ->.
      destruct Hne. by apply (preimage_inj _ _ x).
    + constructor 1. apply cache_get_hit. exists k2, p. split; [done|].
      split; [|by apply blob_get_Ok]. rewrite (read_index_hash_ext s); [done|]. cbn.
      by rewrite lookup_insert_ne, Hix.
Qed.

End Facts.

(** A hash that is the value of the bytes, and a file system that never fails. *)
Definition toy_sha : Sha256 := fun l => be_value l mod 2 ^ 256.
Definition toy_files : FileSystem := {|
  io_fails := fun _ => false; read_dir := fun l => l; read_dir_perm := fun l => Permutation_refl l |}.

Definition empty_store : Store := {| blobs := ∅; indexes := ∅ |}.

Definition toy_key : StageKey := {|
  stage_id := [115]; shard_local := [([97], 7)]; sk_global := 9; feature_flags := [[102; 103]];
  pass_version := {| sv_major := 1; sv_minor := 2; sv_patch := 3 |} |}.

Lemma toy_sha_range l : is_hash (toy_sha l).
Proof. apply Z.mod_pos_bound. reflexivity. Qed.

Lemma cached_payload_comes_back_witness :
  exists e, fst (@cache_put toy_sha toy_files empty_store toy_key [1; 2]) = Ok e /\
  exists b, @cache_get toy_sha toy_files
      (snd (@cache_put toy_sha toy_files empty_store toy_key [1; 2])) toy_key = Ok (Some b) /\
    toy_sha b = toy_sha [1; 2].
Proof.
  eexists. split; [vm_compute; reflexivity|].
  apply (proj1 (@cached_payload_comes_back toy_sha toy_files toy_sha_range empty_store toy_key [1; 2] _ _
           (surjective_pairing _)) _ ltac:(vm_compute; reflexivity)); reflexivity.
Defined.
