(* ===== verification/Gc.v ===== *)
(** * Garbage collection and integrity of the store

    [gbf-store/src/gc.rs], [pinset.rs] and [integrity.rs]: pinned roots, the
    readers that recognise references inside blobs, the set of blobs to keep,
    a collection run, the sweep of stale cache indexes, and the verification of
    what the roots reach.

    A reader is a function of the trait's one method.  The worklist loops
    pop one blob per turn and never the same twice; their fuel is the number of
    hashes that the roots and the blobs of the store name. *)

From S2P Require Import Prelude Numeric Store.

(** ** Pin sets *)

Inductive PinsetNameError :=
| PN_Empty | PN_ContainsNul | PN_ContainsPathSeparator | PN_ParentSegment | PN_LeadingDot.
#[export] Instance PinsetNameError_eq_dec : EqDecision PinsetNameError.
Proof. solve_decision. Defined.

Fixpoint str_exists (f : ascii -> bool) (s : string) : bool :=
  match s with EmptyString => false | String c s => f c || str_exists f s end.

(** [contains("..")]. *)
Fixpoint has_parent_segment (s : string) : bool :=
  match s with
  | String "." ((String "." _) as s') => true
  | String _ s' => has_parent_segment s'
  | EmptyString => false
  end.

Definition is_separator (c : ascii) : bool := Ascii.eqb c "/" || Ascii.eqb c "\".

(** [PinsetName::new]. *)
Definition PinsetName_new (value : string) : outcome PinsetNameError string :=
  if String.eqb value "" then Err PN_Empty
  else if str_exists (fun c => Ascii.eqb c "000") value then Err PN_ContainsNul
  else if str_exists is_separator value then Err PN_ContainsPathSeparator
  else if has_parent_segment value then Err PN_ParentSegment
  else match value with
       | String "." _ => Err PN_LeadingDot
       | _ => Ok value
       end.

(** The roots are a set, walked in ascending order. *)
Record Pinset := { ps_name : string; roots : list Z; annotation : option string }.

(** ** Readers *)

Inductive BlobReferenceError := BR_Decode (detail : string).
#[export] Instance BlobReferenceError_eq_dec : EqDecision BlobReferenceError.
Proof. solve_decision. Defined.

Definition BlobReferenceReader : Type := Z -> list Z -> BlobReferenceError + option (list Z).

(** [BlobReferencesRegistry]. *)
Definition Registry : Type := list BlobReferenceReader.

Definition registry_new : Registry := [].
Definition register (r : Registry) (reader : BlobReferenceReader) : Registry := r ++ [reader].

Fixpoint referenced_blobs (readers : Registry) (hash : Z) (bytes : list Z)
    : outcome BlobReferenceError (option (list Z)) :=
  match readers with
  | [] => Ok None
  | reader :: readers =>
      match reader hash bytes with
      | inl e => Err e
      | inr (Some refs) => Ok (Some refs)
      | inr None => referenced_blobs readers hash bytes
      end
  end.

(** ** Collection *)

Inductive UnknownReferencePolicy := Abort_ | TreatAsLeaf.
#[export] Instance UnknownReferencePolicy_eq_dec : EqDecision UnknownReferencePolicy.
Proof. solve_decision. Defined.

Record GcOptions := {
  dry_run : bool;
  max_remove_per_run : option Z;
  opt_sweep_stage_cache_indexes : bool;
  unknown_reference_policy : UnknownReferencePolicy;
}.

Definition GcOptions_default : GcOptions := {|
  dry_run := false; max_remove_per_run := None; opt_sweep_stage_cache_indexes := false;
  unknown_reference_policy := Abort_ |}.

Record GcReport := {
  pinsets_walked : Z;
  blobs_kept : Z;
  candidate_blobs : Z;
  candidate_bytes : Z;
  blobs_removed : Z;
  bytes_freed : Z;
  removed : list Z;
}.

Inductive GcError :=
| GC_Io
| GC_BlobStore (e : BlobStoreError)
| GC_BlobReferenceDecode (e : BlobReferenceError)
| UndecodableReferenceBearingBlob (hash : Z).
#[export] Instance GcError_eq_dec : EqDecision GcError.
Proof. solve_decision. Defined.

Section Gc.
  Context `{FileSystem}.

(** [if set.insert(h) { queue.push_back(h) }], for each. *)
Definition push_new (st : gset Z * list Z) (h : Z) : gset Z * list Z :=
  let '(keep, queue) := st in
  if bool_decide (h ∈ keep) then (keep, queue) else ({[h]} ∪ keep, queue ++ [h]).

Definition push_all (st : gset Z * list Z) (hs : list Z) : gset Z * list Z := fold_left push_new hs st.

Fixpoint collect_loop (fuel : nat) (s : Store) (refs : Registry) (unknown_policy : UnknownReferencePolicy)
    (keep : gset Z) (queue : list Z) : outcome GcError (gset Z) :=
  match queue with
  | [] => Ok keep
  | hash :: queue =>
      match fuel with
      | O => NoFuel
      | S fuel =>
          let* bytes := map_err GC_BlobStore (blob_get s hash) in
          let* r := map_err GC_BlobReferenceDecode (referenced_blobs refs hash bytes) in
          match r with
          | Some children =>
              let '(keep, queue) := push_all (keep, queue) children in
              collect_loop fuel s refs unknown_policy keep queue
          | None =>
              if bool_decide (unknown_policy = TreatAsLeaf)
              then collect_loop fuel s refs unknown_policy keep queue
              else Err (UndecodableReferenceBearingBlob hash)
          end
      end
  end.

Definition all_roots (pinsets : list Pinset) : list Z := concat (map roots pinsets).

(** The hashes a blob of the store refers to, and all that a walk from [rs] can
    meet: a bound of its turns. *)
Definition children (s : Store) (refs : Registry) (hash : Z) : list Z :=
  match s.(blobs) !! hash with
  | Some bytes => match referenced_blobs refs hash bytes with Ok (Some cs) => cs | _ => [] end
  | None => []
  end.

Definition universe (s : Store) (refs : Registry) (rs : list Z) : gset Z :=
  list_to_set (rs ++ concat (map (children s refs) (map fst (map_to_list s.(blobs))))).

Definition collect_keep_set (s : Store) (pinsets : list Pinset) (refs : Registry)
    (unknown_policy : UnknownReferencePolicy) : outcome GcError (gset Z) :=
  let '(keep, queue) := push_all (∅, []) (all_roots pinsets) in
  collect_loop (size (universe s refs (all_roots pinsets))) s refs unknown_policy keep queue.

Definition blob_len (s : Store) (hash : Z) : outcome GcError Z :=
  if io_fails (Op_StatBlob hash) then Err GC_Io
  else match s.(blobs) !! hash with
       | Some bytes => Ok (zlen bytes)
       | None => Err (GC_BlobStore (NotFound hash))
       end.

Definition saturating_add_u64 (a b : Z) : Z := saturating_add U64 a b.

(** One turn of the loop over all blobs. *)
Definition candidate_step (s : Store) (keep : gset Z) (st : Z * list (Z * Z)) (hash : Z)
    : outcome GcError (Z * list (Z * Z)) :=
  let '(candidate_bytes, candidates) := st in
  if bool_decide (hash ∈ keep) then Ok st
  else match blob_len s hash with
       | Ok len => Ok (saturating_add_u64 candidate_bytes len, candidates ++ [(hash, len)])
       | Err (GC_BlobStore (NotFound _)) => Ok st
       | Err e => Err e
       | Panic => Panic
       | NoFuel => NoFuel
       end.

(** The removals: the store changes up to the first that fails. *)
Fixpoint remove_loop (s : Store) (candidates : list (Z * Z)) (report : GcReport)
    : outcome GcError GcReport * Store :=
  match candidates with
  | [] => (Ok report, s)
  | (hash, len) :: candidates =>
      match blob_remove s hash with
      | (Ok _, s) =>
          remove_loop s candidates {|
            pinsets_walked := report.(pinsets_walked);
            blobs_kept := report.(blobs_kept);
            candidate_blobs := report.(candidate_blobs);
            candidate_bytes := report.(candidate_bytes);
            blobs_removed := report.(blobs_removed) + 1;
            bytes_freed := saturating_add_u64 report.(bytes_freed) len;
            removed := report.(removed) ++ [hash] |}
      | (Err e, s) => (Err (GC_BlobStore e), s)
      | (Panic, s) => (Panic, s)
      | (NoFuel, s) => (NoFuel, s)
      end
  end.

(** The index files whose text is not a hash are passed over. *)
Fixpoint sweep_loop (s : Store) (removed_set : gset Z) (keys : list Z) : outcome GcError unit * Store :=
  match keys with
  | [] => (Ok (), s)
  | key :: keys =>
      match read_index_hash s key with
      | Ok (Some payload_hash) =>
          if bool_decide (payload_hash ∈ removed_set) then
            if io_fails (Op_RemoveIndex key) then (Err GC_Io, s)
            else sweep_loop (set_indexes (delete key s.(indexes)) s) removed_set keys
          else sweep_loop s removed_set keys
      | _ => sweep_loop s removed_set keys
      end
  end.

Definition sweep_stage_cache_indexes (s : Store) (removed_set : gset Z) : outcome GcError unit * Store :=
  if io_fails Op_ListIndexes then (Err GC_Io, s)
  else sweep_loop s removed_set (read_dir (map fst (map_to_list s.(indexes)))).

(** [sort_by_key(|(hash, _)| *hash)]. *)
Definition key_le (a b : Z * Z) : Prop := fst a <= fst b.
#[export] Instance key_le_dec a b : Decision (key_le a b).
Proof. unfold key_le. apply _. Defined.

(** What may go, in the order of the hashes, and its bytes. *)
Definition gc_candidates (s : Store) (keep : gset Z) : outcome GcError (Z * list (Z * Z)) :=
  let* all := map_err GC_BlobStore (list_blobs s) in
  let* st := ofold (candidate_step s keep) (0, []) all in
  Ok (fst st, merge_sort key_le (snd st)).

Definition initial_report (pinsets : list Pinset) (keep : gset Z) (plan : Z * list (Z * Z)) : GcReport := {|
  pinsets_walked := zlen pinsets;
  blobs_kept := Z.of_nat (size keep);
  candidate_blobs := zlen (snd plan);
  candidate_bytes := fst plan;
  blobs_removed := 0; bytes_freed := 0; removed := [] |}.

Definition run_gc (s : Store) (pinsets : list Pinset) (refs : Registry) (opts : GcOptions)
    : outcome GcError GcReport * Store :=
  match (let* keep := collect_keep_set s pinsets refs opts.(unknown_reference_policy) in
         let* plan := gc_candidates s keep in
         Ok (keep, plan)) with
  | Ok (keep, plan) =>
      let report := initial_report pinsets keep plan in
      if opts.(dry_run) then (Ok report, s)
      else
        let remove_limit := default (zlen (snd plan)) opts.(max_remove_per_run) in
        match remove_loop s (take (Z.to_nat remove_limit) (snd plan)) report with
        | (Ok report, s) =>
            if opts.(opt_sweep_stage_cache_indexes) then
              with_result (sweep_stage_cache_indexes s (list_to_set report.(removed))) report
            else (Ok report, s)
        | (r, s) => (r, s)
        end
  | Err e => (Err e, s)
  | Panic => (Panic, s)
  | NoFuel => (NoFuel, s)
  end.

(** ** Integrity *)

Record IntegrityReport := { blobs_checked : Z; mismatches : list Z; missing : list Z }.

Inductive IntegrityError :=
| IE_BlobStore (e : BlobStoreError)
| IE_HashMismatch (expected actual : Z)
| IE_NotFound (hash : Z)
| IE_BlobReferenceDecode (e : BlobReferenceError).
#[export] Instance IntegrityError_eq_dec : EqDecision IntegrityError.
Proof. solve_decision. Defined.

Context `{Sha256}.

Definition verify_integrity (s : Store) (hash : Z) : outcome IntegrityError unit :=
  match blob_get s hash with
  | Ok bytes =>
      let actual := sha256 bytes in
      if negb (actual =? hash) then Err (IE_HashMismatch hash actual) else Ok ()
  | Err (NotFound hash) => Err (IE_NotFound hash)
  | Err e => Err (IE_BlobStore e)
  | Panic => Panic
  | NoFuel => NoFuel
  end.

Definition verify_all_step (s : Store) (r : IntegrityReport) (hash : Z) : outcome IntegrityError IntegrityReport :=
  let n := r.(blobs_checked) + 1 in
  match verify_integrity s hash with
  | Ok _ => Ok {| blobs_checked := n; mismatches := r.(mismatches); missing := r.(missing) |}
  | Err (IE_HashMismatch expected _) =>
      Ok {| blobs_checked := n; mismatches := r.(mismatches) ++ [expected]; missing := r.(missing) |}
  | Err e => Err e
  | Panic => Panic
  | NoFuel => NoFuel
  end.

Definition verify_all (s : Store) : outcome IntegrityError IntegrityReport :=
  let* all := map_err IE_BlobStore (list_blobs s) in
  ofold (verify_all_step s) {| blobs_checked := 0; mismatches := []; missing := [] |} all.

Fixpoint verify_loop (fuel : nat) (s : Store) (refs : Registry) (r : IntegrityReport)
    (seen : gset Z) (queue : list Z) : outcome IntegrityError IntegrityReport :=
  match queue with
  | [] => Ok r
  | hash :: queue =>
      match fuel with
      | O => NoFuel
      | S fuel =>
          match blob_get s hash with
          | Err (NotFound hash) =>
              verify_loop fuel s refs
                {| blobs_checked := r.(blobs_checked); mismatches := r.(mismatches);
                   missing := r.(missing) ++ [hash] |} seen queue
          | Err e => Err (IE_BlobStore e)
          | Panic => Panic
          | NoFuel => NoFuel
          | Ok bytes =>
              let n := r.(blobs_checked) + 1 in
              if negb (sha256 bytes =? hash) then
                verify_loop fuel s refs
                  {| blobs_checked := n; mismatches := r.(mismatches) ++ [hash];
                     missing := r.(missing) |} seen queue
              else
                let* refd := map_err IE_BlobReferenceDecode (referenced_blobs refs hash bytes) in
                let '(seen, queue) := push_all (seen, queue) (default [] refd) in
                verify_loop fuel s refs
                  {| blobs_checked := n; mismatches := r.(mismatches); missing := r.(missing) |}
                  seen queue
          end
      end
  end.

Definition verify_reachable (s : Store) (rs : list Z) (refs : Registry)
    : outcome IntegrityError IntegrityReport :=
  let '(seen, queue) := push_all (∅, []) rs in
  verify_loop (size (universe s refs rs)) s refs
    {| blobs_checked := 0; mismatches := []; missing := [] |}
    seen queue.

End Gc.
