(* ===== verification/GcFacts.v ===== *)
(** * What the collector keeps and removes

    The walk from the pinned roots ends and keeps exactly what they reach; a
    collection run never touches that, removes nothing else than blobs, and
    repeated bounded runs remove all the rest. *)

From Stdlib Require Import Lia.
From S2P Require Import Prelude Numeric Store StoreFacts Gc.

(** ** Walking the references *)

(** What the roots reach through the references of the store's blobs. *)
Inductive reached (s : Store) (refs : Registry) (rs : list Z) : Z -> Prop :=
| reached_root h : h ∈ rs -> reached s refs rs h
| reached_child p c : reached s refs rs p -> c ∈ children s refs p -> reached s refs rs c.

Lemma push_all_spec hs : forall keep queue keep' queue', push_all (keep, queue) hs = (keep', queue') ->
  exists new, queue' = queue ++ new /\ NoDup new /\
    (forall h, h ∈ new <-> h ∈ hs /\ h ∉ keep) /\ (forall h, h ∈ keep' <-> h ∈ keep \/ h ∈ hs) /\
    size keep' = (size keep + length new)%nat.
Proof.
  induction hs as [|x hs IH]; intros keep queue keep' queue'; cbn [push_all fold_left].
  - intros [= <- <-]. exists []. rewrite app_nil_r. split; [done|]. split; [constructor|].
    split; [intros h; rewrite elem_of_nil; tauto|]. split; [intros h; rewrite elem_of_nil; tauto|]. cbn. lia.
  - unfold push_new at 2. case_bool_decide as Hx.
    + intros (new & Hq & Hnd & Hnew & Hk & Hsz)%IH. exists new. split; [done|]. split; [done|].
      split; [|split; [|done]]; intros h; rewrite elem_of_cons; [rewrite Hnew|rewrite Hk];
        (destruct (decide (h = x)) as [->|]; tauto).
    + intros (new & Hq & Hnd & Hnew & Hk & Hsz)%IH. exists (x :: new).
      setoid_rewrite not_elem_of_union in Hnew. setoid_rewrite not_elem_of_singleton in Hnew.
      setoid_rewrite elem_of_union in Hk. setoid_rewrite elem_of_singleton in Hk.
      split; [by rewrite Hq, <- app_assoc|]. split; [constructor; [rewrite Hnew; tauto|done]|].
      split; [|split; [|rewrite Hsz, size_union, size_singleton by set_solver; cbn; lia]];
        intros h; rewrite !elem_of_cons; [rewrite Hnew|rewrite Hk];
        (destruct (decide (h = x)) as [->|]; tauto).
Qed.

Lemma children_in_universe s refs rs h c : c ∈ children s refs h -> c ∈ universe s refs rs.
Proof.
  intros Hc. unfold universe. apply elem_of_list_to_set, elem_of_app. constructor 2.
  apply list_elem_of_In, in_concat. exists (children s refs h).
  split; [|by apply list_elem_of_In]. apply in_map_iff. exists h. split; [done|].
  unfold children in Hc. destruct (blobs s !! h) as [b|] eqn:Hb; [|by apply elem_of_nil in Hc].
  apply in_map_iff. exists (h, b). split; [done|]. by apply list_elem_of_In, elem_of_map_to_list.
Qed.

Lemma roots_in_universe s refs rs h : h ∈ rs -> h ∈ universe s refs rs.
Proof. intros Hh. unfold universe. apply elem_of_list_to_set, elem_of_app. by constructor 1. Qed.

(** The state of a walk: what is kept is reached, and what is no longer queued
    satisfies [fine] and has its references kept. *)
Record walk_inv (s : Store) (refs : Registry) (rs : list Z) (fine : Z -> Prop)
    (keep : gset Z) (queue : list Z) : Prop := {
  walk_roots : forall h, h ∈ rs -> h ∈ keep;
  walk_reached : forall h, h ∈ keep -> reached s refs rs h;
  walk_bounded : keep ⊆ universe s refs rs;
  walk_queue : forall h, h ∈ queue -> h ∈ keep;
  walk_done : forall h, h ∈ keep -> h ∉ queue ->
    fine h /\ (forall c, c ∈ children s refs h -> c ∈ keep);
}.

Lemma walk_start s refs rs fine keep queue : push_all (∅, []) rs = (keep, queue) ->
  walk_inv s refs rs fine keep queue /\ (length queue + size (universe s refs rs ∖ keep) <= size (universe s refs rs))%nat.
Proof.
  intros (new & -> & _ & Hnew & Hk & Hsz)%push_all_spec. cbn [app].
  assert (Hsub : keep ⊆ universe s refs rs).
  { intros h [Hh|Hh]%Hk; [set_solver|by apply roots_in_universe]. }
  split; [|rewrite size_difference by done; pose proof (subseteq_size _ _ Hsub);
           rewrite size_empty in Hsz; lia].
  split; [set_solver|intros h Hh; apply reached_root; set_solver|done|set_solver|set_solver].
Qed.

(** One turn: the head is fine and its references are pushed. *)
Lemma walk_step s refs rs fine keep hash queue keep' queue' :
  walk_inv s refs rs fine keep (hash :: queue) -> fine hash ->
  push_all (keep, queue) (children s refs hash) = (keep', queue') ->
  walk_inv s refs rs fine keep' queue' /\
  (length queue' + size (universe s refs rs ∖ keep') = length queue + size (universe s refs rs ∖ keep))%nat.
Proof.
  intros [Hr Hre Hb Hq Hd] Hf (new & -> & _ & Hnew & Hk & Hsz)%push_all_spec.
  assert (Hh : hash ∈ keep) by (apply Hq; by constructor).
  assert (Hsub : keep' ⊆ universe s refs rs).
  { intros h [Hh'|Hh']%Hk; [by apply Hb|by apply (children_in_universe _ _ _ hash)]. }
  split.
  - split; [set_solver| |done| |].
    + intros h [Hh'|Hh']%Hk; [by apply Hre|]. apply (reached_child _ _ _ hash); [by apply Hre|done].
    + intros h [Hh'|Hh']%elem_of_app; set_solver.
    + intros h Hh' Hnq. rewrite not_elem_of_app in Hnq. destruct (decide (h = hash)) as [->|Hne].
      { split; [done|]. intros c Hc. apply Hk. by constructor 2. }
      assert (Hk' : h ∈ keep).
      { apply Hk in Hh' as [Hh'|Hh']; [done|]. destruct (decide (h ∈ keep)); [done|]. set_solver. }
      destruct (Hd h Hk') as [Hfh Hc]; [set_solver|]. split; [done|]. set_solver.
  - rewrite length_app, !size_difference by done.
    pose proof (subseteq_size _ _ Hsub). pose proof (subseteq_size _ _ Hb). lia.
Qed.

Lemma walk_end s refs rs fine keep : walk_inv s refs rs fine keep [] ->
  (forall h, h ∈ keep <-> reached s refs rs h) /\ (forall h, reached s refs rs h -> fine h).
Proof.
  intros [Hr Hre _ _ Hd].
  assert (Hall : forall h, reached s refs rs h -> h ∈ keep).
  { induction 1 as [h Hh|p c _ IH Hc]; [by apply Hr|]. apply (Hd p IH); [set_solver|done]. }
  split; [intros h; split; [apply Hre|apply Hall]|]. intros h Hh. apply (Hd h); [by apply Hall|set_solver].
Qed.

Section Collect.
  Context `{FileSystem}.

(** What stops a collection at a blob. *)
Definition blob_problem (s : Store) (refs : Registry) (policy : UnknownReferencePolicy) (h : Z) : option GcError :=
  if io_fails (Op_ReadBlob h) then Some (GC_BlobStore BS_Io) else
  match s.(blobs) !! h with
  | None => Some (GC_BlobStore (NotFound h))
  | Some bytes =>
      match referenced_blobs refs h bytes with
      | Err e => Some (GC_BlobReferenceDecode e)
      | Ok None => if bool_decide (policy = TreatAsLeaf) then None else Some (UndecodableReferenceBearingBlob h)
      | _ => None
      end
  end.

Lemma referenced_blobs_returns refs h bytes : returns (referenced_blobs refs h bytes).
Proof. induction refs as [|r refs IH]; [done|]. cbn. by destruct (r h bytes) as [|[]]. Qed.

(** One turn of the collection: it stops at a problem, or pushes the references. *)
Lemma collect_turn fuel s refs policy keep h queue :
  collect_loop (S fuel) s refs policy keep (h :: queue) =
  match blob_problem s refs policy h with
  | Some e => Err e
  | None => let '(keep, queue) := push_all (keep, queue) (children s refs h) in
            collect_loop fuel s refs policy keep queue
  end.
Proof.
  cbn [collect_loop]. unfold blob_problem, blob_get, children.
  destruct (io_fails _); [done|]. destruct (blobs s !! h) as [bytes|]; [|done]. cbn [ok_or map_err obind].
  pose proof (referenced_blobs_returns refs h bytes).
  destruct (referenced_blobs refs h bytes) as [[cs|]| | |]; try done. cbn [map_err obind].
  by destruct (bool_decide _).
Qed.

Lemma collect_loop_spec s refs rs policy fuel : forall keep queue,
  walk_inv s refs rs (fun h => blob_problem s refs policy h = None) keep queue ->
  (length queue + size (universe s refs rs ∖ keep) <= fuel)%nat ->
  match collect_loop fuel s refs policy keep queue with
  | Ok keep' => walk_inv s refs rs (fun h => blob_problem s refs policy h = None) keep' []
  | Err e => exists h, reached s refs rs h /\ blob_problem s refs policy h = Some e
  | Panic | NoFuel => False
  end.
Proof.
  induction fuel as [|fuel IH]; intros keep [|h queue] Hw Hf; try done; [cbn in Hf; lia|].
  rewrite collect_turn. destruct (blob_problem s refs policy h) as [e|] eqn:Hp.
  - exists h. split; [|done]. apply (walk_reached _ _ _ _ _ _ Hw), (walk_queue _ _ _ _ _ _ Hw). by constructor.
  - destruct (push_all (keep, queue) (children s refs h)) as [keep' queue'] eqn:Hpush.
    eapply walk_step in Hpush as [Hw' Hsz]; [|done|done]. apply IH; [done|]. cbn [length] in Hf. lia.
Qed.

Lemma collect_keep_set_spec s pinsets refs policy :
  match collect_keep_set s pinsets refs policy with
  | Ok keep => (forall h, h ∈ keep <-> reached s refs (all_roots pinsets) h) /\
      (forall h, reached s refs (all_roots pinsets) h -> blob_problem s refs policy h = None)
  | Err e => exists h, reached s refs (all_roots pinsets) h /\ blob_problem s refs policy h = Some e
  | Panic | NoFuel => False
  end.
Proof.
  unfold collect_keep_set. destruct (push_all (∅, []) (all_roots pinsets)) as [keep queue] eqn:Hp.
  eapply walk_start in Hp as [Hw Hsz].
  pose proof (collect_loop_spec s refs _ policy _ keep queue Hw Hsz) as Hc.
  destruct (collect_loop _ _ _ _ _ _); [|done..]. by apply walk_end in Hc.
Qed.

(** ** Candidates *)

Definition garbage_pairs (s : Store) (keep : gset Z) (all : list Z) : list (Z * Z) :=
  map (fun h => (h, zlen (default [] (s.(blobs) !! h)))) (filter (fun h => h ∉ keep) all).

Definition sum_sizes (l : list (Z * Z)) (acc : Z) : Z :=
  fold_left (fun acc p => saturating_add_u64 acc (snd p)) l acc.

Lemma candidate_fold s keep all : (forall h, h ∈ all -> is_Some (s.(blobs) !! h)) ->
  forall acc l r, ofold (candidate_step s keep) (acc, l) all = r ->
  r = Ok (sum_sizes (garbage_pairs s keep all) acc, l ++ garbage_pairs s keep all) \/
  r = Err GC_Io /\ exists h, h ∈ all /\ h ∉ keep /\ io_fails (Op_StatBlob h) = true.
Proof.
  induction all as [|h all IH]; intros Hall acc l r <-.
  { constructor 1. cbn. by rewrite app_nil_r. }
  assert (Hall' : forall h, h ∈ all -> is_Some (blobs s !! h)) by (intros x Hx; apply Hall; by constructor 2).
  specialize (IH Hall').
  assert (Hlift : forall t, t = candidate_step s keep (acc, l) h ->
    t = Err GC_Io /\ h ∉ keep /\ io_fails (Op_StatBlob h) = true \/
    exists acc' pairs, t = Ok (acc', l ++ pairs) /\
      garbage_pairs s keep (h :: all) = pairs ++ garbage_pairs s keep all /\ acc' = sum_sizes pairs acc).
  { intros t ->. unfold candidate_step, blob_len, garbage_pairs. rewrite filter_cons.
    case_bool_decide as Hk.
    - constructor 2. exists acc, []. rewrite decide_False, app_nil_r by tauto. done.
    - destruct (io_fails _); [by constructor 1|]. constructor 2.
      destruct (Hall h ltac:(by constructor)) as [bytes Hb]. rewrite Hb.
      exists (saturating_add_u64 acc (zlen bytes)), [(h, zlen bytes)].
      rewrite decide_True by done. cbn [map app]. rewrite Hb. done. }
  cbn [ofold]. destruct (Hlift _ eq_refl) as [(-> & Hk & Hio)|(acc' & pairs & -> & -> & ->)]; cbn [obind].
  - constructor 2. split; [done|]. exists h. split; [by constructor|done].
  - destruct (IH (sum_sizes pairs acc) (l ++ pairs) _ eq_refl) as [->|(-> & x & Hx & Hy)].
    + constructor 1. unfold sum_sizes. by rewrite fold_left_app, app_assoc.
    + constructor 2. split; [done|]. exists x. split; [by constructor 2|done].
Qed.

(** The hashes of the blobs, in ascending order. *)
Definition stored (s : Store) : list Z := merge_sort Z.le (read_dir (map fst (map_to_list s.(blobs)))).

Lemma stored_elem s h : h ∈ stored s <-> is_Some (s.(blobs) !! h).
Proof.
  unfold stored. rewrite merge_sort_Permutation, read_dir_perm.
  change (map fst) with (fmap (M := list) (@fst Z (list Z))). rewrite list_elem_of_fmap. split.
  - intros ([k b] & -> & Hp%elem_of_map_to_list). by exists b.
  - intros [b Hb]. exists (h, b). split; [done|by apply elem_of_map_to_list].
Qed.

Lemma stored_sorted s : StronglySorted Z.lt (stored s).
Proof.
  assert (Hnd : NoDup (stored s)).
  { unfold stored. rewrite merge_sort_Permutation, read_dir_perm. apply NoDup_fst_map_to_list. }
  assert (Hs : StronglySorted Z.le (stored s)) by (apply StronglySorted_merge_sort; apply _).
  induction Hs as [|h l Hs IH Hh]; [constructor|]. apply NoDup_cons in Hnd as [Hn Hnd].
  constructor; [by apply IH|]. rewrite Forall_forall in *. intros x Hx.
  pose proof (Hh x Hx). assert (x <> h) by (by intros ->). lia.
Qed.

#[local] Instance key_le_trans : Transitive key_le.
Proof. intros a b c. unfold key_le. lia. Qed.
#[local] Instance key_le_total : Total key_le.
Proof. intros a b. unfold key_le. lia. Qed.

(** What a set of blobs to keep leaves, in ascending order. *)
Definition garbage (s : Store) (keep : gset Z) : list Z := filter (fun h => h ∉ keep) (stored s).

Lemma garbage_elem s keep h : h ∈ garbage s keep <-> is_Some (s.(blobs) !! h) /\ h ∉ keep.
Proof. unfold garbage. rewrite list_elem_of_filter, stored_elem. tauto. Qed.

Lemma StronglySorted_filter {A} (R : A -> A -> Prop) (P : A -> Prop) `{forall x, Decision (P x)} l :
  StronglySorted R l -> StronglySorted R (filter P l).
Proof.
  induction 1 as [|x l _ IH Hx]; [constructor|]. rewrite filter_cons. destruct (decide (P x)); [|done].
  constructor; [done|]. rewrite Forall_forall in *. intros y Hy. apply Hx. by apply list_elem_of_filter in Hy as [_ Hy].
Qed.

Lemma garbage_sorted s keep : StronglySorted Z.lt (garbage s keep).
Proof. apply StronglySorted_filter, stored_sorted. Qed.

Lemma StronglySorted_weaken {A} (R R' : A -> A -> Prop) l : (forall a b, R a b -> R' a b) ->
  StronglySorted R l -> StronglySorted R' l.
Proof.
  intros Hw. induction 1 as [|x l _ IH Hx]; constructor; [done|].
  eapply Forall_impl; [exact Hx|]. intros b. apply Hw.
Qed.

(** Sorting what is sorted already. *)
Lemma sort_tagged (f : Z -> Z) l : StronglySorted Z.lt l ->
  merge_sort key_le (map (fun h => (h, f h)) l) = map (fun h => (h, f h)) l.
Proof.
  intros Hl. set (m := merge_sort _ _).
  assert (Hp : m ≡ₚ map (fun h => (h, f h)) l) by apply merge_sort_Permutation.
  assert (Hs : StronglySorted key_le m) by (apply StronglySorted_merge_sort; apply _).
  assert (Hm : m = map (fun h => (h, f h)) (map fst m)).
  { assert (Hall : Forall (fun p => p = (fst p, f (fst p))) m).
    { rewrite Hp. apply Forall_forall. intros p (h & <- & _)%list_elem_of_In%in_map_iff. done. }
    clear Hp Hs. induction Hall as [|p m Hpf _ IH]; [done|]. cbn [map]. by rewrite <- IH, <- Hpf. }
  rewrite Hm. f_equal. apply (StronglySorted_unique Z.le).
  - clear Hp Hm. induction Hs as [|p m _ IH Hx]; constructor; [done|].
    apply Forall_forall. intros y (q & <- & Hq)%list_elem_of_In%in_map_iff.
    rewrite Forall_forall in Hx. apply (Hx q). by apply list_elem_of_In.
  - eapply StronglySorted_weaken; [|done]. lia.
  - rewrite Hp, map_map. cbn. by rewrite map_id.
Qed.

Lemma gc_candidates_spec s keep :
  gc_candidates s keep = Ok (sum_sizes (garbage_pairs s keep (stored s)) 0, garbage_pairs s keep (stored s)) \/
  gc_candidates s keep = Err (GC_BlobStore BS_Io) /\ io_fails Op_ListBlobs = true \/
  gc_candidates s keep = Err GC_Io /\ exists h, h ∈ garbage s keep /\ io_fails (Op_StatBlob h) = true.
Proof.
  unfold gc_candidates, list_blobs. destruct (io_fails Op_ListBlobs); [by constructor 2; constructor 1|].
  cbn [map_err obind]. fold (stored s).
  destruct (candidate_fold s keep (stored s) (fun h => proj1 (stored_elem s h)) 0 [] _ eq_refl)
    as [->|(-> & h & Hh & Hk & Hio)]; cbn [obind fst snd app].
  - constructor 1. unfold garbage_pairs. rewrite sort_tagged; [done|]. apply garbage_sorted.
  - constructor 2. constructor 2. split; [done|]. exists h. split; [|done].
    apply garbage_elem. by rewrite <- stored_elem.
Qed.

End Collect.
