(* ===== verification/GcTheorems.v ===== *)
(** * Collection runs

    What a run does to the store whatever it ends in, its exact result when it
    ends well, the cache afterwards, and the runs that follow one another. *)

From Stdlib Require Import Lia.
From S2P Require Import Prelude Numeric Store StoreFacts Gc GcFacts.

(** The store without some blobs. *)
Definition without (hs : list Z) (s : Store) : Store :=
  set_blobs (fold_right delete s.(blobs) hs) s.

Lemma without_lookup hs s h : (without hs s).(blobs) !! h = if bool_decide (h ∈ hs) then None else s.(blobs) !! h.
Proof.
  unfold without. cbn. induction hs as [|x hs IH]; [done|]. cbn [fold_right].
  destruct (decide (x = h)) as [->|Hne].
  - rewrite lookup_delete_eq, bool_decide_true; [done|by constructor].
  - rewrite lookup_delete_ne, IH by done.
    rewrite (bool_decide_ext (h ∈ x :: hs) (h ∈ hs)); [done|]. rewrite elem_of_cons. naive_solver.
Qed.

Lemma without_nil s : without [] s = s.
Proof. by destruct s. Qed.

Lemma without_cons h hs s : without hs (without [h] s) = without (h :: hs) s.
Proof.
  unfold without, set_blobs. cbn. f_equal. induction hs as [|x hs IH]; [done|].
  cbn [fold_right]. rewrite IH. cbn. by rewrite delete_delete.
Qed.

Section Runs.
  Context `{FileSystem}.

(** ** Removals *)

Lemma remove_loop_spec candidates : forall s report r s',
  remove_loop s candidates report = (r, s') ->
  exists gone rest, candidates = gone ++ rest /\ s' = without (map fst gone) s /\
  match r with
  | Ok rep => rest = [] /\
      rep = {| pinsets_walked := report.(pinsets_walked); blobs_kept := report.(blobs_kept);
               candidate_blobs := report.(candidate_blobs); candidate_bytes := report.(candidate_bytes);
               blobs_removed := report.(blobs_removed) + zlen gone;
               bytes_freed := sum_sizes gone report.(bytes_freed);
               removed := report.(removed) ++ map fst gone |}
  | Err e => e = GC_BlobStore BS_Io /\ exists p, head rest = Some p /\ io_fails (Op_RemoveBlob (fst p)) = true
  | Panic | NoFuel => False
  end.
Proof.
  induction candidates as [|[h len] candidates IH]; intros s report r s'; cbn [remove_loop].
  - intros [= <- <-]. exists [], []. rewrite without_nil. split; [done|]. split; [done|]. split; [done|].
    destruct report. cbn. change (zlen []) with 0. by rewrite app_nil_r, Z.add_0_r.
  - unfold blob_remove. destruct (io_fails (Op_RemoveBlob h)) eqn:Hio.
    { intros [= <- <-]. exists [], ((h, len) :: candidates). rewrite without_nil. split; [done|].
      split; [done|]. split; [done|]. by exists (h, len). }
    change (set_blobs _ s) with (without [h] s).
    intros (gone & rest & -> & -> & Hr)%IH. exists ((h, len) :: gone), rest. split; [done|].
    split; [by rewrite without_cons|]. destruct r; try done. destruct Hr as [-> ->]. split; [done|].
    rewrite zlen_cons. cbn. rewrite <- app_assoc. f_equal. lia.
Qed.

(** ** The sweep *)

(** An index that leads to a blob of a set. *)
Definition leads_to (s : Store) (gone : gset Z) (k : Z) : Prop :=
  exists p, read_index_hash s k = Ok (Some p) /\ p ∈ gone.

(** A sweep only drops indexes that lead to what is gone, and drops all of them
    unless one cannot be removed. *)
Lemma sweep_loop_spec gone keys : forall s r s', sweep_loop s gone keys = (r, s') ->
  s'.(blobs) = s.(blobs) /\ r <> Panic /\ r <> NoFuel /\
  (forall k, s'.(indexes) !! k = s.(indexes) !! k \/ s'.(indexes) !! k = None /\ leads_to s gone k) /\
  (r = Ok tt -> forall k, k ∈ keys -> leads_to s gone k -> s'.(indexes) !! k = None).
Proof.
  assert (Hread : forall s t k, leads_to s gone k -> t.(indexes) !! k = s.(indexes) !! k -> leads_to t gone k).
  { intros s t k (p & Hp & Hin) Heq. exists p. by rewrite (read_index_hash_ext s). }
  induction keys as [|key keys IH]; intros s r s'; cbn [sweep_loop].
  { intros [= <- <-]. split; [done|]. split; [done|]. split; [done|]. split; [by constructor 1|].
    intros _ k Hk. by apply elem_of_nil in Hk. }
  assert (Hskip : ~ leads_to s gone key -> sweep_loop s gone keys = (r, s') ->
    s'.(blobs) = s.(blobs) /\ r <> Panic /\ r <> NoFuel /\
    (forall k, s'.(indexes) !! k = s.(indexes) !! k \/ s'.(indexes) !! k = None /\ leads_to s gone k) /\
    (r = Ok tt -> forall k, k ∈ key :: keys -> leads_to s gone k -> s'.(indexes) !! k = None)).
  { intros Hno (Hb & Hp & Hn & Hi & Ho)%IH. repeat (split; [done|]).
    intros Hr k [->|Hk]%elem_of_cons Hl; [done|by apply Ho]. }
  destruct (read_index_hash s key) as [[p|]| | |] eqn:Hri;
    try (apply Hskip; intros (p' & Hp' & _); congruence).
  case_bool_decide as Hg; [|apply Hskip; intros (p' & Hp' & Hin); congruence].
  destruct (io_fails _).
  { intros [= <- <-]. split; [done|]. split; [done|]. split; [done|]. split; [by constructor 1|done]. }
  intros (Hb & Hp & Hn & Hi & Ho)%IH. split; [done|]. split; [done|]. split; [done|].
  assert (Hkey : s'.(indexes) !! key = None).
  { destruct (Hi key) as [->|[-> _]]; [|done]. cbn. apply lookup_delete_eq. }
  split.
  - intros k. destruct (decide (k = key)) as [->|Hne]; [constructor 2; split; [done|by exists p]|].
    assert (Heq : (set_indexes (delete key (indexes s)) s).(indexes) !! k = s.(indexes) !! k)
      by (cbn; by rewrite lookup_delete_ne).
    destruct (Hi k) as [->|[-> Hl]]; [by constructor 1|]. constructor 2. split; [done|].
    eapply Hread; [done|by rewrite Heq].
  - intros Hr k Hk Hl. destruct (decide (k = key)) as [->|Hne]; [done|].
    apply elem_of_cons in Hk as [->|Hk]; [done|]. apply Ho; [done|done|].
    eapply Hread; [done|]. cbn. by rewrite lookup_delete_ne.
Qed.

Lemma leads_to_key s gone k : leads_to s gone k -> is_Some (s.(indexes) !! k).
Proof.
  intros (p & Hp & _). unfold read_index_hash in Hp. destruct (io_fails _); [done|].
  destruct (indexes s !! k); [by eexists|done].
Qed.

Lemma sweep_spec s gone r s' : sweep_stage_cache_indexes s gone = (r, s') ->
  s'.(blobs) = s.(blobs) /\ r <> Panic /\ r <> NoFuel /\
  (forall k, s'.(indexes) !! k = s.(indexes) !! k \/ s'.(indexes) !! k = None /\ leads_to s gone k) /\
  (r = Ok tt -> forall k, leads_to s gone k -> s'.(indexes) !! k = None).
Proof.
  unfold sweep_stage_cache_indexes. destruct (io_fails _).
  { intros [= <- <-]. repeat (split; [done|]). split; [by constructor 1|done]. }
  intros (Hb & Hp & Hn & Hi & Ho)%sweep_loop_spec. repeat (split; [done|]).
  intros Hr k Hl. apply Ho; [done| |done]. rewrite read_dir_perm.
  destruct (leads_to_key _ _ _ Hl) as [t Ht].
  change (map fst) with (fmap (M := list) (@fst Z (option string))). apply list_elem_of_fmap.
  exists (k, t). split; [done|by apply elem_of_map_to_list].
Qed.

(** ** A run *)

Definition limit_of (opts : GcOptions) (n : nat) : nat := Z.to_nat (default (Z.of_nat n) opts.(max_remove_per_run)).

Lemma garbage_pairs_map s keep :
  garbage_pairs s keep (stored s) = map (fun h => (h, zlen (default [] (s.(blobs) !! h)))) (garbage s keep).
Proof. done. Qed.

Lemma map_fst_tagged (f : Z -> Z) l : map fst (map (fun h => (h, f h)) l) = l.
Proof. rewrite map_map. cbn. apply map_id. Qed.

(** The removals of a run, cut off at the limit. *)
Lemma removals_spec s keep n report r s' :
  remove_loop s (take n (garbage_pairs s keep (stored s))) report = (r, s') ->
  exists gone, (exists rest, take n (garbage s keep) = gone ++ rest) /\ s' = without gone s /\
  r <> Panic /\ r <> NoFuel /\
  forall rep, r = Ok rep -> gone = take n (garbage s keep) /\
    rep = {| pinsets_walked := report.(pinsets_walked); blobs_kept := report.(blobs_kept);
             candidate_blobs := report.(candidate_blobs); candidate_bytes := report.(candidate_bytes);
             blobs_removed := report.(blobs_removed) + zlen gone;
             bytes_freed := sum_sizes (map (fun h => (h, zlen (default [] (s.(blobs) !! h)))) gone)
                              report.(bytes_freed);
             removed := report.(removed) ++ gone |}.
Proof.
  rewrite garbage_pairs_map, firstn_map. intros (gp & rest & Hsplit & -> & Hr)%remove_loop_spec.
  set (f := fun h => zlen (default [] (blobs s !! h))) in *.
  assert (Hgp : gp = map (fun h => (h, f h)) (map fst gp)).
  { apply (f_equal (take (length gp))) in Hsplit. rewrite take_app_length, firstn_map in Hsplit.
    rewrite <- Hsplit. by rewrite map_fst_tagged. }
  exists (map fst gp). split.
  { exists (map fst rest). by rewrite <- map_app, <- Hsplit, map_fst_tagged. }
  split; [done|]. destruct r as [rep| | |]; try done. split; [done|]. split; [done|].
  destruct Hr as [-> Hrep]. rewrite app_nil_r in Hsplit. intros ? [= <-].
  change (map _ (map fst gp)) with (map (fun h => (h, f h)) (map fst gp)).
  rewrite <- Hgp, Hrep. split; [by rewrite <- Hsplit, map_fst_tagged|]. f_equal.
  by unfold zlen; rewrite length_map.
Qed.

(** Everything a run does: either it removes nothing, or it removes the first
    so many unreachable blobs and then some indexes that led to them. *)
Lemma run_gc_spec s pinsets refs opts r s' : run_gc s pinsets refs opts = (r, s') ->
  r <> Panic /\ r <> NoFuel /\
  (s' = s /\ (is_ok r = true -> opts.(dry_run) = true) \/
   exists keep gone t, collect_keep_set s pinsets refs opts.(unknown_reference_policy) = Ok keep /\
     opts.(dry_run) = false /\
     (exists rest, take (limit_of opts (length (garbage s keep))) (garbage s keep) = gone ++ rest) /\
     t = without gone s /\ s'.(blobs) = t.(blobs) /\
     (forall k, s'.(indexes) !! k = s.(indexes) !! k \/
        s'.(indexes) !! k = None /\ leads_to s (list_to_set gone) k) /\
     (forall rep, r = Ok rep ->
        gone = take (limit_of opts (length (garbage s keep))) (garbage s keep) /\
        rep.(removed) = gone /\ rep.(blobs_kept) = Z.of_nat (size keep) /\
        rep.(candidate_blobs) = zlen (garbage s keep) /\ rep.(blobs_removed) = zlen gone /\
        rep.(bytes_freed) = sum_sizes (map (fun h => (h, zlen (default [] (s.(blobs) !! h)))) gone) 0 /\
        (opts.(opt_sweep_stage_cache_indexes) = true -> forall k, leads_to s (list_to_set gone) k ->
           s'.(indexes) !! k = None))).
Proof.
  unfold run_gc. pose proof (collect_keep_set_spec s pinsets refs opts.(unknown_reference_policy)) as Hc.
  destruct (collect_keep_set _ _ _ _) as [keep|e| |]; try done; cbn [obind].
  2: { intros [= <- <-]. split; [done|]. split; [done|]. by constructor 1. }
  destruct (gc_candidates_spec s keep) as [->|[[-> _]|[-> _]]]; cbn [obind snd];
    [|intros [= <- <-]; split; [done|]; split; [done|]; by constructor 1..].
  destruct (dry_run opts) eqn:Hdry; [intros [= <- <-]; split; [done|]; split; [done|]; by constructor 1|].
  change (Z.to_nat _) with (limit_of opts (length (garbage_pairs s keep (stored s)))).
  assert (Hlen : length (garbage_pairs s keep (stored s)) = length (garbage s keep)) by apply length_map.
  rewrite Hlen. destruct (remove_loop _ _ _) as [r1 s1] eqn:Hrem.
  apply removals_spec in Hrem as (gone & Hpre & -> & Hnp & Hnf & Hrep).
  assert (Hleads : forall k, leads_to (without gone s) (list_to_set gone) k <-> leads_to s (list_to_set gone) k) by done.
  destruct r1 as [rep1| | |]; try done.
  2: { intros [= <- <-]. split; [done|]. split; [done|]. constructor 2. exists keep, gone, (without gone s).
       repeat (split; [done|]). split; [by constructor 1|done]. }
  destruct (Hrep rep1 eq_refl) as [Hgone Hrep1].
  destruct (opt_sweep_stage_cache_indexes opts) eqn:Hsw.
  - unfold with_result. destruct (sweep_stage_cache_indexes _ _) as [r2 s2] eqn:Hs. cbn [fst snd].
    apply sweep_spec in Hs as (Hb & Hp & Hn & Hi & Ho). intros [= <- <-].
    rewrite Hrep1 in Hi, Ho. cbn [removed initial_report app] in Hi, Ho.
    split; [by destruct r2|]. split; [by destruct r2|]. constructor 2. exists keep, gone, (without gone s).
    do 6 (split; [done|]). intros rep Hr. destruct r2 as [[]| | |]; try discriminate Hr. injection Hr as <-.
    split; [done|]. rewrite Hrep1. cbn. unfold zlen. rewrite Hlen. do 5 (split; [done|]). intros _. by apply Ho.
  - intros [= <- <-]. split; [done|]. split; [done|]. constructor 2. exists keep, gone, (without gone s).
    do 5 (split; [done|]). split; [by constructor 1|]. intros rep [= <-]. split; [done|].
    rewrite Hrep1. cbn. unfold zlen. rewrite Hlen. done.
Qed.
Lemma kept_iff_reached s pinsets refs policy keep : collect_keep_set s pinsets refs policy = Ok keep ->
  (forall h, h ∈ keep <-> reached s refs (all_roots pinsets) h) /\
  (forall h, reached s refs (all_roots pinsets) h -> blob_problem s refs policy h = None).
Proof. intros Hc. pose proof (collect_keep_set_spec s pinsets refs policy) as Hs. by rewrite Hc in Hs. Qed.

Lemma pre_garbage {s keep gone n} : (exists rest, take n (garbage s keep) = gone ++ rest) ->
  forall h, h ∈ gone -> h ∉ keep.
Proof.
  intros (rest & Hpre) h Hh. apply (garbage_elem s keep h).
  rewrite <- (take_drop n (garbage s keep)), Hpre, !elem_of_app. by constructor 1; constructor 1.
Qed.

(** C10: A collection run always ends, and whatever it ends in (an error half-way
    included) every blob that the pinned roots reach is exactly as it was, no
    other blob is changed or added, and a cache index is only dropped when it
    led to a blob that is gone and was not reached.  A dry run, and a run over a
    reachable blob that cannot be read or decoded, change nothing. *)
Theorem gc_keeps_what_is_reached s pinsets refs opts r s' : run_gc s pinsets refs opts = (r, s') ->
  r <> Panic /\ r <> NoFuel /\
  (forall h, reached s refs (all_roots pinsets) h -> s'.(blobs) !! h = s.(blobs) !! h) /\
  (forall h bytes, s'.(blobs) !! h = Some bytes -> s.(blobs) !! h = Some bytes) /\
  (forall k, s'.(indexes) !! k = s.(indexes) !! k \/
     s'.(indexes) !! k = None /\ exists p, read_index_hash s k = Ok (Some p) /\
       s'.(blobs) !! p = None /\ ~ reached s refs (all_roots pinsets) p) /\
  (opts.(dry_run) = true \/
   (exists h, reached s refs (all_roots pinsets) h /\
      blob_problem s refs opts.(unknown_reference_policy) h <> None) -> s' = s).
Proof.
  intros (Hp & Hn & [[-> _]|(keep & gone & t & Hk & Hd & Hpre & -> & Hb & Hi & _)])%run_gc_spec;
    (split; [done|]); (split; [done|]).
  { split; [done|]. split; [done|]. split; [by constructor 1|done]. }
  apply kept_iff_reached in Hk as [Hk Hfine]. pose proof (pre_garbage Hpre) as Hgone.
  split; [|split; [|split]].
  - intros h Hh. rewrite Hb, without_lookup, bool_decide_false; [done|]. intros Hin.
    by apply (Hgone h Hin), Hk.
  - intros h bytes. rewrite Hb, without_lookup. by case_bool_decide.
  - intros k. destruct (Hi k) as [->|[-> (p & Hr & Hin)]]; [by constructor 1|]. constructor 2.
    split; [done|]. exists p. split; [done|]. apply elem_of_list_to_set in Hin.
    rewrite Hb, without_lookup, bool_decide_true by done. split; [done|]. rewrite <- Hk. by apply Hgone.
  - intros [Hd'|(h & Hh & Hpr)]; [congruence|]. by destruct Hpr; apply Hfine.
Qed.

Lemma sum_sizes_exact l : Forall (fun p => 0 <= snd p) l -> forall acc, 0 <= acc < U64 ->
  sum_sizes l acc = Z.min (U64 - 1) (acc + zsum (map snd l)).
Proof.
  unfold sum_sizes. induction 1 as [|p l Hp Hl IH]; intros acc Ha; cbn [fold_left map zsum].
  - unfold zsum. cbn. lia.
  - assert (0 <= zsum (map snd l)) by (clear IH; induction Hl; cbn [map zsum]; lia).
    rewrite IH; unfold saturating_add_u64, saturating_add; lia.
Qed.

(** C20: A run that ends well and is not a dry run removes exactly the first of
    the unreachable blobs in the order of their hashes, as many as the limit
    allows (all, without a limit), leaves every other blob as it was, and
    reports their number, hashes and bytes; when asked to, it has dropped every
    cache index that led to one of them. *)
Theorem gc_removes_exactly_garbage s pinsets refs opts rep s' :
  run_gc s pinsets refs opts = (Ok rep, s') -> opts.(dry_run) = false ->
  exists g, StronglySorted Z.lt g /\
    (forall h, h ∈ g <-> is_Some (s.(blobs) !! h) /\ ~ reached s refs (all_roots pinsets) h) /\
    rep.(candidate_blobs) = zlen g /\
    rep.(removed) = match opts.(max_remove_per_run) with
                    | Some limit => take (Z.to_nat limit) g | None => g end /\
    rep.(blobs_removed) = zlen rep.(removed) /\
    rep.(bytes_freed) = Z.min (U64 - 1)
      (zsum (map (fun h => zlen (default [] (s.(blobs) !! h))) rep.(removed))) /\
    (forall h, s'.(blobs) !! h = if bool_decide (h ∈ rep.(removed)) then None else s.(blobs) !! h) /\
    (opts.(opt_sweep_stage_cache_indexes) = true -> forall k p,
       read_index_hash s k = Ok (Some p) -> p ∈ rep.(removed) -> s'.(indexes) !! k = None).
Proof.
  intros (_ & _ & [[_ Hdry]|(keep & gone & t & Hk & Hd & _ & -> & Hb & _ & Hrep)])%run_gc_spec Hnd.
  { rewrite (Hdry eq_refl) in Hnd. done. }
  apply kept_iff_reached in Hk as [Hk _].
  destruct (Hrep rep eq_refl) as (Hgone & -> & _ & -> & -> & -> & Hsw).
  exists (garbage s keep). split; [apply garbage_sorted|].
  split; [intros h; by rewrite garbage_elem, Hk|]. split; [done|].
  split.
  { rewrite Hgone. unfold limit_of. destruct (max_remove_per_run opts); cbn [default]; [done|].
    rewrite Nat2Z.id. apply firstn_all. }
  split; [done|]. split; [|split; [intros h; by rewrite Hb, without_lookup|]].
  - rewrite sum_sizes_exact; [|by apply Forall_fmap, Forall_true; intros; apply zlen_nonneg|done].
    by rewrite map_map.
  - intros Hs k p Hr Hp. apply Hsw; [done|]. exists p. split; [done|]. by apply elem_of_list_to_set.
Qed.

(** ** One run after another *)

Lemma reached_ext s s' refs rs :
  (forall h, reached s refs rs h -> s'.(blobs) !! h = s.(blobs) !! h) ->
  forall h, reached s' refs rs h <-> reached s refs rs h.
Proof.
  intros Hext.
  assert (Hch : forall h, reached s refs rs h -> children s' refs h = children s refs h).
  { intros h Hh. unfold children. by rewrite Hext. }
  intros h. split; induction 1 as [h Hh|p c Hp IH Hc]; try (by apply reached_root);
    (apply (reached_child _ _ _ p); [done|]); [by rewrite <- Hch|by rewrite Hch].
Qed.

Definition io_reliable : Prop := forall op, io_fails op = false.

Lemma sweep_reliable gone keys : io_reliable -> forall s, fst (sweep_loop s gone keys) = Ok ().
Proof.
  intros Hio. induction keys as [|k keys IH]; intros s; cbn [sweep_loop]; [done|].
  destruct (read_index_hash s k) as [[p|]| | |]; try done. case_bool_decide; [|done]. by rewrite Hio.
Qed.

(** Without failures, and with every reached blob decodable, a run ends well. *)
Lemma run_gc_reliable s pinsets refs opts : io_reliable ->
  (forall h, reached s refs (all_roots pinsets) h ->
     blob_problem s refs opts.(unknown_reference_policy) h = None) ->
  exists rep, fst (run_gc s pinsets refs opts) = Ok rep.
Proof.
  intros Hio Hfine. unfold run_gc.
  pose proof (collect_keep_set_spec s pinsets refs opts.(unknown_reference_policy)) as Hc.
  destruct (collect_keep_set _ _ _ _) as [keep|e| |]; try done; cbn [obind].
  2: { destruct Hc as (h & Hh & He). by rewrite Hfine in He. }
  destruct (gc_candidates_spec s keep) as [->|[[_ Hf]|[_ (h & _ & Hf)]]]; [|by rewrite Hio in Hf..].
  cbn [obind snd]. destruct (dry_run opts); [by eexists|].
  destruct (remove_loop _ _ _) as [r1 s1] eqn:Hrem. apply remove_loop_spec in Hrem as (gp & rest & _ & _ & Hr).
  destruct r1 as [rep1| | |]; try done; [|destruct Hr as (_ & q & _ & Hf); by rewrite Hio in Hf].
  destruct (opt_sweep_stage_cache_indexes opts); [|by eexists].
  unfold with_result, sweep_stage_cache_indexes. rewrite Hio, sweep_reliable by done. by eexists.
Qed.

Definition gc_runs (pinsets : list Pinset) (refs : Registry) (opts : GcOptions) (n : nat) (s : Store) : Store :=
  Nat.iter n (fun s => snd (run_gc s pinsets refs opts)) s.

Lemma NoDup_garbage s keep : NoDup (garbage s keep).
Proof.
  pose proof (garbage_sorted s keep) as Hs. induction Hs as [|x l _ IH Hx]; constructor; [|done].
  intros Hin. rewrite Forall_forall in Hx. specialize (Hx x Hin). lia.
Qed.

(** A reliable run with a limit: the reached blobs stay, and so many of the
    others go. *)
Lemma bounded_run s pinsets refs opts limit : io_reliable -> opts.(dry_run) = false ->
  opts.(max_remove_per_run) = Some limit ->
  (forall h, reached s refs (all_roots pinsets) h ->
     blob_problem s refs opts.(unknown_reference_policy) h = None) ->
  exists keep s', snd (run_gc s pinsets refs opts) = s' /\
    (forall h, h ∈ keep <-> reached s refs (all_roots pinsets) h) /\
    (forall h, s'.(blobs) !! h = if bool_decide (h ∈ take (Z.to_nat limit) (garbage s keep))
                                then None else s.(blobs) !! h).
Proof.
  intros Hio Hd Hl Hfine. destruct (run_gc_reliable s pinsets refs opts Hio Hfine) as [rep Hrep].
  destruct (run_gc s pinsets refs opts) as [r s'] eqn:Hrun. cbn in Hrep. subst r.
  apply run_gc_spec in Hrun as (_ & _ & [[_ Hdry]|(keep & gone & t & Hk & _ & _ & -> & Hb & _ & Hr)]).
  { rewrite (Hdry eq_refl) in Hd. done. }
  apply kept_iff_reached in Hk as [Hk _]. destruct (Hr rep eq_refl) as (Hgone & _).
  unfold limit_of in Hgone. rewrite Hl in Hgone. cbn [default] in Hgone.
  exists keep, s'. split; [done|]. split; [done|]. intros h. by rewrite Hb, without_lookup, Hgone.
Qed.

Lemma garbage_after s s' keep n :
  (forall h, s'.(blobs) !! h = if bool_decide (h ∈ take n (garbage s keep)) then None else s.(blobs) !! h) ->
  length (garbage s' keep) = (length (garbage s keep) - n)%nat.
Proof.
  intros Hb. rewrite <- length_drop. apply Permutation_length, NoDup_Permutation.
  - apply NoDup_garbage.
  - pose proof (NoDup_garbage s keep) as Hnd. rewrite <- (take_drop n (garbage s keep)) in Hnd.
    by apply NoDup_app in Hnd as (_ & _ & Hnd).
  - intros h. pose proof (NoDup_garbage s keep) as Hnd. rewrite <- (take_drop n (garbage s keep)) in Hnd.
    apply NoDup_app in Hnd as (_ & Hdis & _).
    assert (Hall : h ∈ garbage s keep <-> h ∈ take n (garbage s keep) \/ h ∈ drop n (garbage s keep))
      by (by rewrite <- elem_of_app, take_drop).
    rewrite garbage_elem in Hall. rewrite garbage_elem, Hb. specialize (Hdis h).
    case_bool_decide as Ht; [|tauto]. rewrite is_Some_alt. tauto.
Qed.

Lemma garbage_bound s keep : (length (garbage s keep) <= size s.(blobs))%nat.
Proof.
  unfold garbage. etransitivity; [apply length_filter|]. unfold stored.
  rewrite merge_sort_Permutation, read_dir_perm, length_map. by rewrite length_map_to_list.
Qed.

Lemma runs_collect pinsets refs opts limit : io_reliable -> opts.(dry_run) = false ->
  opts.(max_remove_per_run) = Some limit -> forall n s keep,
  (forall h, h ∈ keep <-> reached s refs (all_roots pinsets) h) ->
  (forall h, reached s refs (all_roots pinsets) h ->
     blob_problem s refs opts.(unknown_reference_policy) h = None) ->
  (length (garbage s keep) <= n * Z.to_nat limit)%nat ->
  forall h, (gc_runs pinsets refs opts n s).(blobs) !! h =
    if bool_decide (h ∈ keep) then s.(blobs) !! h else None.
Proof.
  intros Hio Hd Hl. induction n as [|n IH]; intros s keep Hk Hfine Hlen h.
  - cbn. case_bool_decide as Hh; [done|]. apply eq_None_not_Some. intros Hs.
    assert (Hg : h ∈ garbage s keep) by (by apply garbage_elem).
    destruct (garbage s keep); [by apply elem_of_nil in Hg|cbn in Hlen; lia].
  - unfold gc_runs. rewrite Nat.iter_succ_r. fold (gc_runs pinsets refs opts n (snd (run_gc s pinsets refs opts))).
    destruct (bounded_run s pinsets refs opts limit Hio Hd Hl Hfine) as (keep' & s' & -> & Hk' & Hb).
    assert (keep' = keep) as -> by (apply set_eq; intros x; by rewrite Hk, Hk').
    assert (Hsame : forall x, x ∈ keep -> blobs s' !! x = blobs s !! x).
    { intros x Hx. rewrite Hb, bool_decide_false; [done|]. intros Ht.
      assert (Hg : x ∈ garbage s keep) by (rewrite <- (take_drop (Z.to_nat limit)); apply elem_of_app; by constructor 1).
      by apply garbage_elem in Hg as [_ Hg]. }
    assert (Hre : forall x, reached s' refs (all_roots pinsets) x <-> reached s refs (all_roots pinsets) x).
    { apply reached_ext. intros x Hx. apply Hsame. by apply Hk. }
    rewrite (IH s' keep).
    + case_bool_decide; [by apply Hsame|done].
    + intros x. by rewrite Hk, Hre.
    + intros x Hx%Hre. unfold blob_problem. rewrite Hsame by (by apply Hk). by apply Hfine.
    + rewrite (garbage_after s s' keep _ Hb). lia.
Qed.

(** C12: Bounded runs that follow one another collect everything: when no file
    operation fails and every reached blob can be decoded, then after enough
    runs with a positive limit (as many blobs as the store has, divided by the
    limit, are enough) the store holds exactly the reached blobs, unchanged. *)
Theorem bounded_runs_collect_all s pinsets refs opts limit n : io_reliable ->
  opts.(dry_run) = false -> opts.(max_remove_per_run) = Some limit ->
  (forall h, reached s refs (all_roots pinsets) h ->
     blob_problem s refs opts.(unknown_reference_policy) h = None) ->
  Z.of_nat (size s.(blobs)) <= Z.of_nat n * limit ->
  forall h bytes, (gc_runs pinsets refs opts n s).(blobs) !! h = Some bytes <->
    s.(blobs) !! h = Some bytes /\ reached s refs (all_roots pinsets) h.
Proof.
  intros Hio Hd Hl Hfine Hn h bytes.
  pose proof (collect_keep_set_spec s pinsets refs opts.(unknown_reference_policy)) as Hc.
  destruct (collect_keep_set _ _ _ _) as [keep|e| |]; try done.
  2: { destruct Hc as (x & Hx & He). by rewrite Hfine in He. }
  destruct Hc as [Hk _]. rewrite (runs_collect pinsets refs opts limit Hio Hd Hl n s keep Hk Hfine).
  - rewrite <- Hk. case_bool_decide; [tauto|]. split; [done|tauto].
  - pose proof (garbage_bound s keep). nia.
Qed.

(** ** The store over time *)

Context `{Sha256}.

(** After a collection the cache answers as before or has forgotten: a hit
    stays the same hit or, when its payload is not reached from the pinned
    roots, may become a miss; no collection makes the cache answer what it did
    not answer before. *)
Theorem gc_only_forgets s pinsets refs opts r s' key bytes : run_gc s pinsets refs opts = (r, s') ->
  (cache_get s' key = Ok (Some bytes) -> cache_get s key = Ok (Some bytes)) /\
  (cache_get s key = Ok (Some bytes) ->
     cache_get s' key = Ok (Some bytes) \/
     cache_get s' key = Ok None /\ exists k p, try_compose_key key = Ok k /\
       read_index_hash s k = Ok (Some p) /\ ~ reached s refs (all_roots pinsets) p).
Proof.
  intros (_ & _ & [[-> _]|(keep & gone & t & Hk & _ & Hpre & -> & Hb & Hi & _)])%run_gc_spec.
  { split; [done|by constructor 1]. }
  apply kept_iff_reached in Hk as [Hk _]. split.
  - intros (k & p & Hc & Hr & Hg)%cache_get_hit. apply cache_get_hit. exists k, p. split; [done|].
    apply blob_get_Ok in Hg as [Hio Hp]. rewrite Hb, without_lookup in Hp. case_bool_decide; [done|].
    split; [|by apply blob_get_Ok]. rewrite <- Hr. destruct (Hi k) as [Heq|[Hnone _]].
    + symmetry. by apply read_index_hash_ext.
    + unfold read_index_hash in Hr. rewrite Hnone in Hr. by destruct (io_fails _).
  - intros (k & p & Hc & Hr & Hg)%cache_get_hit. apply blob_get_Ok in Hg as [Hio Hp].
    assert (Hri : io_fails (Op_ReadIndex k) = false).
    { unfold read_index_hash in Hr. by destruct (io_fails (Op_ReadIndex k)). }
    assert (Hmiss : p ∈ gone -> cache_get s' key = Ok None /\ exists k p, try_compose_key key = Ok k /\
       read_index_hash s k = Ok (Some p) /\ ~ reached s refs (all_roots pinsets) p).
    { intros Hin. split; [|exists k, p; rewrite <- Hk; by pose proof (pre_garbage Hpre p Hin)].
      unfold cache_get. rewrite Hc. cbn [obind]. destruct (Hi k) as [Heq|[Hnone _]].
      - rewrite (read_index_hash_ext s) by done. rewrite Hr. cbn [obind]. unfold blob_get.
        by rewrite Hio, Hb, without_lookup, bool_decide_true.
      - unfold read_index_hash. by rewrite Hri, Hnone. }
    destruct (decide (p ∈ gone)) as [Hin|Hout]; [constructor 2; by apply Hmiss|].
    constructor 1. apply cache_get_hit. exists k, p. split; [done|]. split.
    + destruct (Hi k) as [Heq|[_ (p' & Hr' & Hin)]]; [by rewrite (read_index_hash_ext s)|].
      apply elem_of_list_to_set in Hin. congruence.
    + apply blob_get_Ok. by rewrite Hb, without_lookup, bool_decide_false.
Qed.

(** What the users of a store do to it. *)
Inductive store_step (s : Store) : Store -> Prop :=
| step_put bytes : store_step s (snd (blob_put s bytes))
| step_put_expect expected bytes : store_step s (snd (put_expect s expected bytes))
| step_put_as bytes codec : store_step s (snd (put_as s bytes codec))
| step_put_streaming chunks : store_step s (snd (put_streaming s chunks))
| step_remove h : store_step s (snd (blob_remove s h))
| step_cache_put key payload : store_step s (snd (cache_put s key payload))
| step_gc pinsets refs opts : store_step s (snd (run_gc s pinsets refs opts)).

Lemma put_content s bytes : content_addressed s -> content_addressed (snd (blob_put s bytes)).
Proof.
  intros Hs. destruct (blob_put s bytes) as [r t] eqn:Hp. apply blob_put_spec in Hp as [Hg _].
  by eapply grown_content.
Qed.

Lemma subset_content s s' : (forall h b, s'.(blobs) !! h = Some b -> s.(blobs) !! h = Some b) ->
  content_addressed s -> content_addressed s'.
Proof. intros Hsub Hs h b Hb. by apply Hs, Hsub. Qed.

Lemma step_content s s' : store_step s s' -> content_addressed s -> content_addressed s'.
Proof.
  intros Hstep Hs. destruct Hstep as [bytes|expected bytes|bytes codec|chunks|h|key payload|pinsets refs opts].
  - by apply put_content.
  - unfold put_expect. destruct (Z.eqb_spec (sha256 bytes) expected) as [<-|]; [by apply put_content|done].
  - unfold put_as. destruct (checked_blob_len _); [|done..]. pose proof (put_content s bytes Hs).
    by destruct (blob_put s bytes).
  - unfold put_streaming. destruct (io_fails _); [done|]. cbn zeta.
    destruct (commit_tmp s _ _) as [r t] eqn:Hc. apply commit_tmp_spec in Hc as [Hg _]. by eapply grown_content.
  - unfold blob_remove. destruct (io_fails _); [done|]. eapply subset_content; [|done].
    intros k b. cbn. by intros [_ Hk]%lookup_delete_Some.
  - destruct (cache_put s key payload) as [r t] eqn:Hc. apply cache_put_spec in Hc as ((u & Hg & Hu) & _).
    apply grown_content in Hg; [|done]. by destruct Hu as [->|(k & _ & ->)].
  - destruct (run_gc s pinsets refs opts) as [r t] eqn:Hr.
    apply run_gc_spec in Hr as (_ & _ & [[-> _]|(keep & gone & u & _ & _ & _ & -> & Hb & _)]); [done|].
    eapply subset_content; [|done]. intros h b. cbn [snd]. rewrite Hb, without_lookup. by case_bool_decide.
Qed.

Lemma verify_integrity_content s h : content_addressed s -> is_Some (s.(blobs) !! h) ->
  verify_integrity s h = if io_fails (Op_ReadBlob h) then Err (IE_BlobStore BS_Io) else Ok tt.
Proof.
  intros Hs [b Hb]. unfold verify_integrity, blob_get. destruct (io_fails _); [done|].
  rewrite Hb. cbn [ok_or]. by rewrite (Hs h b Hb), Z.eqb_refl.
Qed.

Lemma verify_fold s all : content_addressed s -> (forall h, h ∈ all -> is_Some (s.(blobs) !! h)) -> forall n r,
  ofold (verify_all_step s) {| blobs_checked := n; mismatches := []; missing := [] |} all = r ->
  r = Ok {| blobs_checked := n + zlen all; mismatches := []; missing := [] |} \/ r = Err (IE_BlobStore BS_Io).
Proof.
  intros Hs. induction all as [|h all IH]; intros Hall n r <-.
  { constructor 1. cbn. by rewrite Z.add_0_r. }
  assert (Hstep : forall t, t = verify_all_step s {| blobs_checked := n; mismatches := []; missing := [] |} h ->
    t = Err (IE_BlobStore BS_Io) \/ t = Ok {| blobs_checked := n + 1; mismatches := []; missing := [] |}).
  { intros t ->. unfold verify_all_step.
    rewrite verify_integrity_content by (done || apply Hall; by constructor).
    destruct (io_fails _); [by constructor 1|by constructor 2]. }
  cbn [ofold]. destruct (Hstep _ eq_refl) as [-> | ->]; [by constructor 2|]. cbn [obind].
  destruct (IH (fun x Hx => Hall x ltac:(by constructor 2)) (n + 1) _ eq_refl) as [->| ->]; [|by constructor 2].
  constructor 1. rewrite zlen_cons. do 2 f_equal. lia.
Qed.

Lemma stored_count s : zlen (stored s) = Z.of_nat (size s.(blobs)).
Proof.
  unfold zlen, stored. rewrite merge_sort_Permutation, read_dir_perm, length_map. by rewrite length_map_to_list.
Qed.


(** ** Verifying what the roots reach *)

(** The walk over two stores that agree on what is reached, with fuel enough for
    each. *)
Lemma verify_loop_agree s s' refs rs :
  (forall h, reached s refs rs h -> s'.(blobs) !! h = s.(blobs) !! h) -> forall fuel fuel' r seen queue,
  (forall h, h ∈ seen -> reached s refs rs h) -> (forall h, h ∈ queue -> h ∈ seen) ->
  seen ⊆ universe s refs rs -> seen ⊆ universe s' refs rs ->
  (length queue + size (universe s refs rs ∖ seen) <= fuel)%nat ->
  (length queue + size (universe s' refs rs ∖ seen) <= fuel')%nat ->
  verify_loop fuel s refs r seen queue = verify_loop fuel' s' refs r seen queue /\
  verify_loop fuel s refs r seen queue <> NoFuel.
Proof.
  intros Hext. induction fuel as [|fuel IH]; intros fuel' r seen [|h queue] Hre Hq Hu Hu' Hf Hf';
    try (cbn in Hf; lia); [by destruct fuel'..|].
  destruct fuel' as [|fuel']; [cbn in Hf'; lia|]. cbn [length] in Hf, Hf'.
  assert (Hh : reached s refs rs h) by (apply Hre, Hq; by constructor).
  assert (Hq' : forall x, x ∈ queue -> x ∈ seen) by (intros x Hx; apply Hq; by constructor 2).
  assert (Hskip : forall r', verify_loop fuel s refs r' seen queue = verify_loop fuel' s' refs r' seen queue /\
      verify_loop fuel s refs r' seen queue <> NoFuel) by (intros r'; apply IH; done || lia).
  cbn [verify_loop]. unfold blob_get. rewrite (Hext h Hh). destruct (io_fails _); [done|].
  destruct (blobs s !! h) as [bytes|] eqn:Hb; cbn [ok_or]; [|apply Hskip].
  destruct (negb _); [apply Hskip|]. pose proof (referenced_blobs_returns refs h bytes) as Hret.
  destruct (referenced_blobs refs h bytes) as [[cs|]| | |] eqn:Hrefs; try done; cbn [map_err obind from_option]; unfold id.
  2: { apply Hskip. }
  assert (Hcs : children s refs h = cs) by (unfold children; by rewrite Hb, Hrefs).
  assert (Hcs' : children s' refs h = cs) by (unfold children; by rewrite (Hext h Hh), Hb, Hrefs).
  destruct (push_all (seen, queue) cs) as [seen' queue'] eqn:Hpush.
  apply push_all_spec in Hpush as (new & -> & _ & Hnew & Hk & Hsz).
  assert (Hsub : seen' ⊆ universe s refs rs).
  { intros x [Hx|Hx]%Hk; [by apply Hu|]. apply (children_in_universe _ _ _ h). by rewrite Hcs. }
  assert (Hsub' : seen' ⊆ universe s' refs rs).
  { intros x [Hx|Hx]%Hk; [by apply Hu'|]. apply (children_in_universe _ _ _ h). by rewrite Hcs'. }
  rewrite size_difference in Hf, Hf' by done.
  pose proof (subseteq_size _ _ Hsub). pose proof (subseteq_size _ _ Hsub').
  apply IH; try done.
  - intros x [Hx|Hx]%Hk; [by apply Hre|]. apply (reached_child _ _ _ h); [done|by rewrite Hcs].
  - intros x [Hx|Hx]%elem_of_app; apply Hk; [constructor 1; by apply Hq'|]. apply Hnew in Hx. tauto.
  - rewrite length_app, size_difference by done. lia.
  - rewrite length_app, size_difference by done. lia.
Qed.

Lemma verify_reachable_agree s s' refs rs :
  (forall h, reached s refs rs h -> s'.(blobs) !! h = s.(blobs) !! h) ->
  verify_reachable s rs refs = verify_reachable s' rs refs /\ verify_reachable s rs refs <> NoFuel.
Proof.
  intros Hext. unfold verify_reachable. destruct (push_all (∅, []) rs) as [seen queue] eqn:Hp.
  pose proof (walk_start s refs rs (fun _ => True) seen queue Hp) as [[_ Hre Hu Hq _] Hf].
  pose proof (walk_start s' refs rs (fun _ => True) seen queue Hp) as [[_ _ Hu' _ _] Hf'].
  by apply (verify_loop_agree s s' refs rs).
Qed.

(** Verifying what the pinned roots reach always ends, and a collection does
    not change its verdict: whatever the run ends in, the report (the blobs
    checked, the mismatches, the missing blobs, and the first error) is the same
    before and after it. *)
Theorem verification_survives_gc s pinsets refs opts r s' : run_gc s pinsets refs opts = (r, s') ->
  verify_reachable s (all_roots pinsets) refs = verify_reachable s' (all_roots pinsets) refs /\
  verify_reachable s (all_roots pinsets) refs <> NoFuel.
Proof.
  intros (_ & _ & Hr)%run_gc_spec. apply verify_reachable_agree. intros h Hh.
  destruct Hr as [[-> _]|(keep & gone & t & Hk & _ & Hpre & -> & Hb & _)]; [done|].
  apply kept_iff_reached in Hk as [Hk _]. rewrite Hb, without_lookup, bool_decide_false; [done|].
  intros Hin. by apply (pre_garbage Hpre h Hin), Hk.
Qed.

End Runs.

(** ** Witnesses

    Three blobs of which the pinned root 1 reaches 1 and 2; each blob's bytes
    are the hashes it refers to; an index leads to the unreached blob 3. *)

Definition toy_reader : BlobReferenceReader := fun _ bytes => inr (Some bytes).
Definition toy_pins : list Pinset := [{| ps_name := "main"; roots := [1]; annotation := None |}].
Definition toy_store : Store := {|
  blobs := <[1 := [2]]> (<[2 := []]> (<[3 := [1]]> ∅));
  indexes := <[9 := Some (hash_display 3)]> ∅ |}.
Definition toy_options (limit : option Z) : GcOptions := {|
  dry_run := false; max_remove_per_run := limit; opt_sweep_stage_cache_indexes := true;
  unknown_reference_policy := Abort_ |}.

Lemma toy_reached h : reached toy_store [toy_reader] [1] h -> h = 1 \/ h = 2.
Proof.
  induction 1 as [h Hh|p c _ IH Hc]; [by apply list_elem_of_singleton in Hh; constructor 1|].
  destruct IH as [-> | ->]; vm_compute in Hc; apply list_elem_of_In in Hc; cbn in Hc; intuition congruence.
Qed.

Lemma gc_keeps_what_is_reached_witness :
  let run := @run_gc toy_files toy_store toy_pins [toy_reader] (toy_options None) in
  (snd run).(blobs) !! 3 = None /\
  forall h, reached toy_store [toy_reader] [1] h -> (snd run).(blobs) !! h = toy_store.(blobs) !! h.
Proof.
  intros run. split; [vm_compute; reflexivity|].
  apply (@gc_keeps_what_is_reached toy_files toy_store toy_pins [toy_reader] (toy_options None) _ _
           (surjective_pairing run)).
Defined.

Lemma gc_removes_exactly_garbage_witness :
  let run := @run_gc toy_files toy_store toy_pins [toy_reader] (toy_options None) in
  exists rep, fst run = Ok rep /\ rep.(removed) = [3] /\
  exists g, rep.(removed) = g /\ (snd run).(indexes) !! 9 = None.
Proof.
  intros run. eexists. split; [vm_compute; reflexivity|]. split; [reflexivity|].
  destruct (@gc_removes_exactly_garbage toy_files toy_store toy_pins [toy_reader] (toy_options None) _ (snd run)
              ltac:(vm_compute; reflexivity) eq_refl) as (g & _ & _ & _ & Hg & _ & _ & _ & Hi).
  exists g. split; [exact Hg|]. apply (Hi eq_refl 9 3); [vm_compute; reflexivity|]. constructor.
Defined.

Lemma bounded_runs_collect_all_witness :
  (@gc_runs toy_files toy_pins [toy_reader] (toy_options (Some 1)) 3 toy_store).(blobs) !! 3 = None /\
  (@gc_runs toy_files toy_pins [toy_reader] (toy_options (Some 1)) 3 toy_store).(blobs) !! 2 = Some [].
Proof.
  assert (Hall := @bounded_runs_collect_all toy_files toy_store toy_pins [toy_reader] (toy_options (Some 1)) 1 3
    (fun _ => eq_refl) eq_refl eq_refl
    ltac:(intros h [-> | ->]%toy_reached; vm_compute; reflexivity) ltac:(vm_compute; discriminate)).
  split.
  - destruct (_ !! 3) as [b|] eqn:H3 at 1; [|exact eq_refl]. exfalso.
    destruct (proj1 (Hall 3 b) H3) as [_ [H1|H2]%toy_reached]; discriminate.
  - apply Hall. split; [vm_compute; reflexivity|]. apply (reached_child _ _ _ 1).
    + apply reached_root. constructor.
    + constructor.
Defined.

Lemma gc_only_forgets_witness :
  let run := @run_gc toy_files (snd (@cache_put toy_sha toy_files empty_store toy_key [1])) toy_pins
               [toy_reader] (toy_options None) in
  @cache_get toy_sha toy_files (snd run) toy_key = Ok (Some [1]) /\
  @cache_get toy_sha toy_files (snd (@cache_put toy_sha toy_files empty_store toy_key [1])) toy_key = Ok (Some [1]).
Proof.
  intros run.
  assert (Hhit : @cache_get toy_sha toy_files (snd run) toy_key = Ok (Some [1])) by (vm_compute; reflexivity).
  split; [exact Hhit|].
  exact (proj1 (@gc_only_forgets toy_files toy_sha _ toy_pins [toy_reader] (toy_options None) _ _ toy_key [1]
                  (surjective_pairing run)) Hhit).
Defined.


Lemma verification_survives_gc_witness :
  let run := @run_gc toy_files toy_store toy_pins [toy_reader] (toy_options None) in
  @verify_reachable toy_files toy_sha toy_store [1] [toy_reader]
  = @verify_reachable toy_files toy_sha (snd run) [1] [toy_reader].
Proof.
  intros run. apply (@verification_survives_gc toy_files toy_sha toy_store toy_pins [toy_reader]
                       (toy_options None) _ _ (surjective_pairing run)).
Defined.
