(* ===== verification/Arena.v ===== *)
(** * Arena planning: data and placement

    [gbf-codegen/src/arena.rs], stage 9 of the compiler: which bytes of work
    RAM, save RAM and high RAM each value, persistent page, overlay member and
    runtime block gets.  This file holds the data of a plan, its diagnostics
    ([gbf-policy/src/diagnostics.rs]) and the operations that collect slots
    and place them; [ArenaCheck.v] holds the checks of a finished plan, its
    certificate and [build_arena_plan].

    The input records have the fields that the stage reads.  A [BTreeMap] that
    is iterated is a list in the order of its keys, a derived order is the
    lexicographic order of a list of numbers, a hash is a number.  The stage
    fails with a list of diagnostics: [failed_output] is [Err]. *)

From S2P Require Import Prelude Numeric KnobLattice KnobDelta Refinement KnobResolve RangeCert.

(** ** Orders and ordered maps *)

(** The derived order of tuples and of enums with fields. *)
Fixpoint lex_compare (a b : list Z) : comparison :=
  match a, b with
  | [], [] => Eq
  | [], _ => Lt
  | _, [] => Gt
  | x :: a, y :: b => match x ?= y with Eq => lex_compare a b | c => c end
  end.

Definition lex_leb (a b : list Z) : bool :=
  match lex_compare a b with Gt => false | _ => true end.

(** [sort_by_key]. *)
Definition sort_by_key {A} (key : A -> list Z) : list A -> list A :=
  sort_by (fun x y => lex_leb (key x) (key y)).

(** [BTreeMap::get] and the [entry] that is changed or made; [key] gives the
    order of the keys. *)
Section BTreeMap.
Context {K V : Type} (key : K -> list Z).

Fixpoint map_get (k : K) (m : list (K * V)) : option V :=
  match m with
  | [] => None
  | (k', v) :: m => match lex_compare (key k) (key k') with Eq => Some v | _ => map_get k m end
  end.

Fixpoint map_alter (f : option V -> V) (k : K) (m : list (K * V)) : list (K * V) :=
  match m with
  | [] => [(k, f None)]
  | (k', v) :: m' =>
      match lex_compare (key k) (key k') with
      | Eq => (k', f (Some v)) :: m'
      | Lt => (k, f None) :: m
      | Gt => (k', v) :: map_alter f k m'
      end
  end.
End BTreeMap.

(** ** Names *)

Inductive OverlayResidentId := Resident_Kernel (kernel : string) | Resident_Lut (lut : string).
#[export] Instance OverlayResidentId_eq_dec : EqDecision OverlayResidentId.
Proof. solve_decision. Defined.

Inductive NamedArena :=
| WramActivationsPingA
| WramActivationsPingB
| WramAccumScratch
| WramRouteScratch
| WramDecodeScratch
| WramContinuationRecord
| WramOverlayRegion (overlay : Z)
| SramSequenceStatePages (stream : Z)
| SramTracePages
| SramHarnessCommandBlock
| SramHarnessResultBlock
| SramPersistedTranscript
| SramColdSpill
| HramFrameFlags
| HramBankShadow
| HramFaultCode
| HramSchedulerScratch
| HramYieldRequested.
#[export] Instance NamedArena_eq_dec : EqDecision NamedArena.
Proof. solve_decision. Defined.

(** The derived order: the place of the variant, then its field. *)
Definition named_key (n : NamedArena) : list Z :=
  match n with
  | WramActivationsPingA => [0; 0] | WramActivationsPingB => [1; 0] | WramAccumScratch => [2; 0]
  | WramRouteScratch => [3; 0] | WramDecodeScratch => [4; 0] | WramContinuationRecord => [5; 0]
  | WramOverlayRegion overlay => [6; overlay] | SramSequenceStatePages stream => [7; stream]
  | SramTracePages => [8; 0] | SramHarnessCommandBlock => [9; 0] | SramHarnessResultBlock => [10; 0]
  | SramPersistedTranscript => [11; 0] | SramColdSpill => [12; 0] | HramFrameFlags => [13; 0]
  | HramBankShadow => [14; 0] | HramFaultCode => [15; 0] | HramSchedulerScratch => [16; 0]
  | HramYieldRequested => [17; 0]
  end.

(** The derived [Debug] text. *)
Definition named_debug (n : NamedArena) : string :=
  match n with
  | WramActivationsPingA => "WramActivationsPingA" | WramActivationsPingB => "WramActivationsPingB"
  | WramAccumScratch => "WramAccumScratch" | WramRouteScratch => "WramRouteScratch"
  | WramDecodeScratch => "WramDecodeScratch" | WramContinuationRecord => "WramContinuationRecord"
  | WramOverlayRegion overlay => "WramOverlayRegion { overlay: OverlayId(" +:+ dec overlay +:+ ") }"
  | SramSequenceStatePages stream =>
      "SramSequenceStatePages { stream: SequenceStreamId(" +:+ dec stream +:+ ") }"
  | SramTracePages => "SramTracePages" | SramHarnessCommandBlock => "SramHarnessCommandBlock"
  | SramHarnessResultBlock => "SramHarnessResultBlock"
  | SramPersistedTranscript => "SramPersistedTranscript" | SramColdSpill => "SramColdSpill"
  | HramFrameFlags => "HramFrameFlags" | HramBankShadow => "HramBankShadow"
  | HramFaultCode => "HramFaultCode" | HramSchedulerScratch => "HramSchedulerScratch"
  | HramYieldRequested => "HramYieldRequested"
  end.

Inductive ArenaBacking := Wram | Sram | Hram.
#[export] Instance ArenaBacking_eq_dec : EqDecision ArenaBacking.
Proof. solve_decision. Defined.

Inductive ArenaZerofillPolicy := ZeroOnBuild | RuntimeCleared | NotRequired.
#[export] Instance ArenaZerofillPolicy_eq_dec : EqDecision ArenaZerofillPolicy.
Proof. solve_decision. Defined.

Inductive RuntimeFixedKind :=
| Fixed_WramContinuationHeader | Fixed_HarnessCommandBlock | Fixed_HarnessResultBlock
| Fixed_HramFrameFlags | Fixed_HramBankShadow | Fixed_HramFaultCode
| Fixed_HramSchedulerScratch | Fixed_HramYieldRequested.
#[export] Instance RuntimeFixedKind_eq_dec : EqDecision RuntimeFixedKind.
Proof. solve_decision. Defined.

(** [as u32]. *)
Definition runtime_kind_index (k : RuntimeFixedKind) : Z :=
  match k with
  | Fixed_WramContinuationHeader => 0 | Fixed_HarnessCommandBlock => 1
  | Fixed_HarnessResultBlock => 2 | Fixed_HramFrameFlags => 3 | Fixed_HramBankShadow => 4
  | Fixed_HramFaultCode => 5 | Fixed_HramSchedulerScratch => 6 | Fixed_HramYieldRequested => 7
  end.

Inductive StorageClass := WramHot | HramHot | SramPaged | RomConst.
#[export] Instance StorageClass_eq_dec : EqDecision StorageClass.
Proof. solve_decision. Defined.

Inductive LifetimeClass := Slice | ResumeWindow | Token | Session | Persistent.
#[export] Instance LifetimeClass_eq_dec : EqDecision LifetimeClass.
Proof. solve_decision. Defined.

Inductive Materialization :=
| Recompute
| Materialize (class : StorageClass) (lifetime : LifetimeClass)
| Persist (page commit_group : Z).

(** ** Byte ranges, slots and arenas *)

Record ByteRange := { br_start : Z; br_len : Z }.
#[export] Instance ByteRange_eq_dec : EqDecision ByteRange.
Proof. solve_decision. Defined.

Definition range_end (r : ByteRange) : Z := r.(br_start) + r.(br_len).

Definition intersects (a b : ByteRange) : bool :=
  (a.(br_start) <? range_end b) && (b.(br_start) <? range_end a).

Inductive SlotBindingKind :=
| MaterializedValue
| PersistentPageA (page commit_group : Z)
| PersistentPageB (page commit_group : Z)
| Kind_OverlayMember (overlay : Z) (member : OverlayResidentId)
| Kind_RuntimeFixed (runtime_kind : RuntimeFixedKind)
| Kind_TraceRing (trace_ring : Z).
#[export] Instance SlotBindingKind_eq_dec : EqDecision SlotBindingKind.
Proof. solve_decision. Defined.

Inductive SlotBindingRef :=
| Ref_Value (value : Z)
| Ref_PersistPage (value page : Z)
| Ref_OverlayMember (overlay : Z) (member : OverlayResidentId)
| Ref_RuntimeFixed (runtime_kind : RuntimeFixedKind)
| Ref_TraceRing (trace_ring : Z).
#[export] Instance SlotBindingRef_eq_dec : EqDecision SlotBindingRef.
Proof. solve_decision. Defined.

Record ArenaSlot := {
  sl_id : Z;
  sl_byte_offset : Z;
  sl_size_bytes : Z;
  sl_alias_class_id : option Z;
  sl_lifetime_class : LifetimeClass;
  sl_binding_kind : SlotBindingKind;
  sl_binding_ref : SlotBindingRef;
}.
#[export] Instance ArenaSlot_eq_dec : EqDecision ArenaSlot.
Proof. solve_decision. Defined.

Record ArenaInstance := {
  ar_id : Z;
  ar_named : NamedArena;
  ar_byte_range : ByteRange;
  ar_backing : ArenaBacking;
  ar_alignment : Z;
  ar_zerofill : ArenaZerofillPolicy;
  ar_slots : list ArenaSlot;
}.
#[export] Instance ArenaInstance_eq_dec : EqDecision ArenaInstance.
Proof. solve_decision. Defined.

Record MaterializeSlotBinding := { ms_value : Z; ms_slot : Z }.

Record PersistSlotPairBinding := {
  ps_value : Z; ps_persist_page : Z; ps_sram_page : Z; ps_commit_group : Z;
  ps_slot_a : Z; ps_slot_b : Z;
}.

Record OverlayArenaBinding := { oa_overlay : Z; oa_arena : Z }.

Record ArenaBindings := {
  materialize_to_slot : list MaterializeSlotBinding;
  persist_to_slot_pair : list PersistSlotPairBinding;
  overlay_to_arena : list OverlayArenaBinding;
}.

Record OverlayReservationHonorEntry := {
  he_overlay_id : Z; he_arena_id : Z; he_bytes : Z; he_byte_range : ByteRange;
}.

Record OverlayReservationHonor := {
  oh_total_bytes : Z;
  oh_expected_total_bytes : Z;
  oh_per_region : list OverlayReservationHonorEntry;
}.

(** ** Inputs *)

Inductive ArenaPlanInputProduct :=
| Input_StoragePlan | Input_SramPagePlan | Input_RomWindowPlan | Input_OverlayPlan
| Input_RuntimeChromeBudget | Input_TargetProfile | Input_PolicyProjection.

Record ArenaPlanInputHashes := {
  ah_storage_plan_self_hash : Z;
  ah_sram_page_plan_self_hash : Z;
  ah_rom_window_plan_self_hash : Z;
  ah_overlay_plan_self_hash : Z;
  ah_runtime_chrome_budget_hash : Z;
  ah_target_profile_hash : Z;
  ah_arena_plan_policy_projection_hash : Z;
}.

(** The identity is its hashes and the fields that the stage only copies. *)
Record ArenaPlanInputIdentity := {
  ai_hashes : ArenaPlanInputHashes;
  ai_determinism : DeterminismClass;
  ai_target_profile_id : string;
  ai_schema_version : Z * Z * Z;
}.

Definition hash_for_product (h : ArenaPlanInputHashes) (p : ArenaPlanInputProduct) : Z :=
  match p with
  | Input_StoragePlan => h.(ah_storage_plan_self_hash)
  | Input_SramPagePlan => h.(ah_sram_page_plan_self_hash)
  | Input_RomWindowPlan => h.(ah_rom_window_plan_self_hash)
  | Input_OverlayPlan => h.(ah_overlay_plan_self_hash)
  | Input_RuntimeChromeBudget => h.(ah_runtime_chrome_budget_hash)
  | Input_TargetProfile => h.(ah_target_profile_hash)
  | Input_PolicyProjection => h.(ah_arena_plan_policy_projection_hash)
  end.

Definition field_name (p : ArenaPlanInputProduct) : string :=
  match p with
  | Input_StoragePlan => "storage_plan_self_hash"
  | Input_SramPagePlan => "sram_page_plan_self_hash"
  | Input_RomWindowPlan => "rom_window_plan_self_hash"
  | Input_OverlayPlan => "overlay_plan_self_hash"
  | Input_RuntimeChromeBudget => "runtime_chrome_budget_hash"
  | Input_TargetProfile => "target_profile_hash"
  | Input_PolicyProjection => "arena_plan_policy_projection_hash"
  end.

Definition ARENA_PLAN_INPUT_PRODUCTS : list ArenaPlanInputProduct :=
  [Input_StoragePlan; Input_SramPagePlan; Input_RomWindowPlan; Input_OverlayPlan;
   Input_RuntimeChromeBudget; Input_TargetProfile; Input_PolicyProjection].

Definition all_bound (h : ArenaPlanInputHashes) : bool :=
  forallb (fun p => negb (hash_for_product h p =? 0)) ARENA_PLAN_INPUT_PRODUCTS.

Record PersistentPageGeometry := {
  pg_header_bytes : Z; pg_payload_bytes : Z; pg_commit_word_bytes : Z; pg_alignment : Z;
}.
#[export] Instance PersistentPageGeometry_eq_dec : EqDecision PersistentPageGeometry.
Proof. solve_decision. Defined.

Record ArenaPlanPolicyProjection := {
  arena_alignment_default : Z;
  arena_zerofill_policy : ArenaZerofillPolicy;
  persistent_page_geometry : PersistentPageGeometry;
}.

Record ArenaTargetProfileSummary := {
  tp_wram_usable_bytes : Z; tp_sram_window_bytes : Z; tp_hram_usable_bytes : Z;
}.

Record StorageBinding := {
  sb_value : Z; sb_materialization : Materialization; sb_alias_class : Z;
}.

Record ArenaPlanBindingInput := { bi_binding : StorageBinding; bi_size_bytes : Z }.

Record SramPageBinding := {
  spb_binding_id : Z; spb_page : Z; spb_commit_group : Z; spb_sequence_stream : Z;
}.

Record SramPagePlan := {
  sp_bindings : list SramPageBinding;
  sp_geometry : PersistentPageGeometry;
  sp_self_hash : Z;
}.

(** [OverlayReservationKind] has one value, so the comparison of two kinds is
    left out. *)
Record OverlayResident := { om_id : OverlayResidentId; om_payload_bytes : Z }.
Record OverlayRegion := { or_id : Z; or_bytes : Z; or_members : list OverlayResident }.
Record OverlayReservationEntry := { re_region : Z; re_bytes : Z }.
Record OverlayReservation := { os_total_bytes : Z; os_per_region : list OverlayReservationEntry }.
Record OverlayPlan := {
  op_regions : list OverlayRegion;
  op_reservation : OverlayReservation;
  op_self_hash : Z;
}.

Record ArenaPlanInputs := {
  in_identity : ArenaPlanInputIdentity;
  in_expected_hashes : ArenaPlanInputHashes;
  in_budget : RuntimeChromeBudget;
  in_target : ArenaTargetProfileSummary;
  in_policy : ArenaPlanPolicyProjection;
  in_storage : list ArenaPlanBindingInput;
  in_sram : SramPagePlan;
  in_overlay : OverlayPlan;
}.

(** ** Diagnostics *)

Inductive ArenaPlanDiagnosticCode :=
| ArenaInputHashMismatch | ArenaAllocationFailed | ArenaCapacityExceeded
| ArenaUnmappedStorageClass | ArenaLifetimeClassMismatch | ArenaAliasClassDisagreement
| ArenaAliasClassMustOverlapDisagreement | ArenaSlotIdDuplicate
| ArenaPersistentPageGeometryMismatch | ArenaPersistentPageStreamMismatch
| ArenaCrossStreamPageSharing | ArenaSramSpanForbidden | ArenaHarnessLeakDetected
| ArenaContinuationRecordSizeMismatch | ArenaHramOutOfRange | ArenaBank0WramOverflow
| ArenaHramUsableCapExceeded | ArenaOverlayReservationOverflow
| ArenaOverlayReservationUnderflow | ArenaOverlayReservationOverlap
| ArenaOverlayReservationCountMismatch | ArenaOverlayReservationCapDrift
| ArenaCanonicalSortDrift | ArenaReportRoundTripFailed | ArenaSectionRoleLeaked
| ArenaSchedulingFieldLeaked | ArenaRepairProvenanceForbidden
| ArenaTargetProfileLayoutUnsupported | ArenaPureExpressionAllocated
| ArenaTraceRingMisplaced | ArenaPolicyProjectionMismatch | ArenaCertAddressInvariantFailed.
#[export] Instance ArenaPlanDiagnosticCode_eq_dec : EqDecision ArenaPlanDiagnosticCode.
Proof. solve_decision. Defined.

Inductive ArenaPlanDiagnosticProvenance :=
| HashMismatch (product : string) (recorded computed : Z)
| Prov_Binding (invariant : string) (binding_id : Z)
| Prov_AliasClass (invariant : string) (alias_class_id : Z)
| Prov_Arena (invariant : string) (arena_id : Z) (named : string)
| Prov_Slot (invariant : string) (slot_id observed_bytes cap_bytes : Z)
| Prov_Reservation (invariant : string) (total_bytes expected_bytes : Z)
| Prov_Geometry (observed expected : PersistentPageGeometry)
| Prov_JsonPath (json_path field_or_tag : string)
| Prov_PolicyProjection (field detail : string)
| Prov_TargetProfileLayout (target_profile_hash : Z) (detail : string).

Inductive DiagnosticSeverity := Hard | Soft.
#[export] Instance DiagnosticSeverity_eq_dec : EqDecision DiagnosticSeverity.
Proof. solve_decision. Defined.

(** The codes that this stage uses; the detail text and the evidence of a
    diagnostic are functions of its code. *)
Inductive ArenaValidationCode :=
| Code_ArenaPlan (code : ArenaPlanDiagnosticCode) (provenance : ArenaPlanDiagnosticProvenance)
| Code_ReportSemanticInvariantViolated (field : string).

Record ArenaDiagnostic := { ad_severity : DiagnosticSeverity; ad_code : ArenaValidationCode }.

Definition diagnostic (code : ArenaPlanDiagnosticCode) (provenance : ArenaPlanDiagnosticProvenance)
    : ArenaDiagnostic :=
  {| ad_severity := Hard; ad_code := Code_ArenaPlan code provenance |}.

Definition report_invariant (field : string) : ArenaDiagnostic :=
  {| ad_severity := Hard; ad_code := Code_ReportSemanticInvariantViolated field |}.

(** [return failed_output(identity, vec![diagnostic])]. *)
Definition fail_with {A} (code : ArenaPlanDiagnosticCode) (provenance : ArenaPlanDiagnosticProvenance)
    : outcome (list ArenaDiagnostic) A :=
  Err [diagnostic code provenance].

(** ** Small operations *)

(** [gbf-abi]: the continuation header and the harness blocks. *)
Definition header_size_bytes : Z := 32.
Definition HarnessCommandBlock_SIZE : Z := 44.
Definition HarnessResultBlock_SIZE : Z := 44.

(** [usize] has 64 bits where the compiler runs. *)
Definition total_continuation_bytes (tail : Z) : option Z :=
  checked_add 18446744073709551616 header_size_bytes tail.

(** [next_slot_id] and [next_arena_id] give [next] and leave this. *)
Definition next_id (next : Z) : Z := saturating_add U32 next 1.

Definition byte_range (start len : Z) : option ByteRange :=
  match try_from_u U16 start, try_from_u U16 len with
  | Some start, Some len => Some {| br_start := start; br_len := len |}
  | _, _ => None
  end.

(** The start and the cursor after it. *)
Definition take_range (cursor len : Z) : option (Z * Z) :=
  match try_from_u U16 cursor, try_from_u U16 len with
  | Some start, Some _ => Some (start, saturating_add U32 cursor len)
  | _, _ => None
  end.

Definition align_up (value alignment : Z) : Z :=
  if alignment <=? 1 then value else saturating_mul U32 (div_ceil value alignment) alignment.

Definition lifetime_priority (lifetime : LifetimeClass) : Z :=
  match lifetime with Slice => 0 | ResumeWindow => 1 | Token => 2 | Session => 3 | Persistent => 4 end.

Definition binding_kind_order (kind : SlotBindingKind) : Z :=
  match kind with
  | MaterializedValue => 0 | PersistentPageA _ _ => 1 | PersistentPageB _ _ => 2
  | Kind_OverlayMember _ _ => 3 | Kind_RuntimeFixed _ => 4 | Kind_TraceRing _ => 5
  end.

Definition binding_ref_order (reference : SlotBindingRef) : Z :=
  match reference with
  | Ref_Value value | Ref_PersistPage value _ => value
  | Ref_OverlayMember overlay _ => overlay
  | Ref_RuntimeFixed runtime_kind => runtime_kind_index runtime_kind
  | Ref_TraceRing trace_ring => trace_ring
  end.

Definition arena_for (class : StorageClass) (lifetime : LifetimeClass) : option NamedArena :=
  match class, lifetime with
  | WramHot, Slice => Some WramAccumScratch
  | WramHot, ResumeWindow => Some WramActivationsPingA
  | WramHot, Token => Some WramActivationsPingB
  | WramHot, Session => Some WramContinuationRecord
  | HramHot, (Slice | Token) => Some HramSchedulerScratch
  | SramPaged, Session => Some SramColdSpill
  | RomConst, _ | _, Persistent => None
  | HramHot, _ | SramPaged, _ => None
  end.

Definition backing_for (named : NamedArena) : ArenaBacking :=
  match named with
  | WramActivationsPingA | WramActivationsPingB | WramAccumScratch | WramRouteScratch
  | WramDecodeScratch | WramContinuationRecord | WramOverlayRegion _ => Wram
  | SramSequenceStatePages _ | SramTracePages | SramHarnessCommandBlock | SramHarnessResultBlock
  | SramPersistedTranscript | SramColdSpill => Sram
  | HramFrameFlags | HramBankShadow | HramFaultCode | HramSchedulerScratch
  | HramYieldRequested => Hram
  end.

(** ** Collecting slots *)

Record ArenaBuilder := { bu_backing : ArenaBacking; bu_slots : list ArenaSlot }.

Abbreviation Builders := (list (NamedArena * ArenaBuilder)) (only parsing).

(** [builder_for(..).slots.extend(slots)]. *)
Definition extend_builder (named : NamedArena) (backing : ArenaBacking) (slots : list ArenaSlot)
    (builders : Builders) : Builders :=
  map_alter named_key (fun b =>
      match b with
      | None => {| bu_backing := backing; bu_slots := slots |}
      | Some b => {| bu_backing := b.(bu_backing); bu_slots := b.(bu_slots) ++ slots |}
      end) named builders.

(** The builders and the next slot id. *)
Record Collected := { co_builders : Builders; co_next_slot : Z }.

Definition runtime_slot (id : Z) (kind : RuntimeFixedKind) (size : Z) : ArenaSlot := {|
  sl_id := id; sl_byte_offset := 0; sl_size_bytes := size; sl_alias_class_id := None;
  sl_lifetime_class := Session; sl_binding_kind := Kind_RuntimeFixed kind;
  sl_binding_ref := Ref_RuntimeFixed kind |}.

Definition add_runtime_slot (named : NamedArena) (backing : ArenaBacking) (kind : RuntimeFixedKind)
    (size : Z) (c : Collected) : Collected := {|
  co_builders := extend_builder named backing [runtime_slot c.(co_next_slot) kind size] c.(co_builders);
  co_next_slot := next_id c.(co_next_slot) |}.

Definition add_continuation_header_slot (c : Collected) : outcome (list ArenaDiagnostic) Collected :=
  match try_from_u U16 header_size_bytes with
  | Some header_size =>
      Ok (add_runtime_slot WramContinuationRecord Wram Fixed_WramContinuationHeader header_size c)
  | None =>
      fail_with ArenaContinuationRecordSizeMismatch
        (Prov_Slot "AP-SC-15" 0 (wrap U32 header_size_bytes) (U16 - 1))
  end.

Definition harness_size (size : Z) : outcome (list ArenaDiagnostic) Z :=
  match try_from_u U16 size with
  | Some size => Ok size
  | None => fail_with ArenaAllocationFailed (Prov_Slot "AP-SC-24" 0 (wrap U32 size) (U16 - 1))
  end.

Definition add_runtime_harness_slots (c : Collected) : outcome (list ArenaDiagnostic) Collected :=
  let* command_size := harness_size HarnessCommandBlock_SIZE in
  let* result_size := harness_size HarnessResultBlock_SIZE in
  Ok (add_runtime_slot SramHarnessResultBlock Sram Fixed_HarnessResultBlock result_size
       (add_runtime_slot SramHarnessCommandBlock Sram Fixed_HarnessCommandBlock command_size c)).

Definition add_runtime_hram_slots (c : Collected) : Collected :=
  fold_left (fun c x => add_runtime_slot x.1.1 Hram x.1.2 x.2 c)
    [(HramFrameFlags, Fixed_HramFrameFlags, 1); (HramBankShadow, Fixed_HramBankShadow, 1);
     (HramFaultCode, Fixed_HramFaultCode, 1); (HramSchedulerScratch, Fixed_HramSchedulerScratch, 8);
     (HramYieldRequested, Fixed_HramYieldRequested, 1)] c.

(** *** Persistent pages *)

Definition page_size_of (g : PersistentPageGeometry) : Z :=
  saturating_add U32 (saturating_add U32 g.(pg_payload_bytes) g.(pg_header_bytes))
    g.(pg_commit_word_bytes).

Definition persistent_slot (id : Z) (binding : SramPageBinding) (page_size : Z) (is_a : bool)
    : ArenaSlot := {|
  sl_id := id; sl_byte_offset := 0; sl_size_bytes := page_size; sl_alias_class_id := None;
  sl_lifetime_class := Persistent;
  sl_binding_kind :=
    if is_a then PersistentPageA binding.(spb_page) binding.(spb_commit_group)
    else PersistentPageB binding.(spb_page) binding.(spb_commit_group);
  sl_binding_ref := Ref_Value binding.(spb_binding_id) |}.

Record ArenaPersistentPageWitness := {
  pw_value : Z; pw_sram_page : Z; pw_commit_group : Z; pw_slot_a : Z; pw_slot_b : Z;
  pw_slot_size_bytes : Z;
}.

Record PersistState := {
  pe_collected : Collected;
  pe_page_stream : gmap Z Z;
  pe_pairs : list PersistSlotPairBinding;
  pe_witnesses : list ArenaPersistentPageWitness;
}.

Definition storage_by_value (storage : list ArenaPlanBindingInput) : gmap Z ArenaPlanBindingInput :=
  fold_left (fun m b => <[b.(bi_binding).(sb_value) := b]> m) storage ∅.

(** The pair of slots that a persistent binding gets. *)
Definition add_persistent_pair (page_size : Z) (b : SramPageBinding) (page commit_group : Z)
    (s : PersistState) : PersistState :=
  let id_a := s.(pe_collected).(co_next_slot) in
  let id_b := next_id id_a in {|
  pe_collected := {|
    co_builders :=
      extend_builder (SramSequenceStatePages b.(spb_sequence_stream)) Sram
        [persistent_slot id_a b (wrap U16 page_size) true;
         persistent_slot id_b b (wrap U16 page_size) false]
        s.(pe_collected).(co_builders);
    co_next_slot := next_id id_b |};
  pe_page_stream := <[b.(spb_page) := b.(spb_sequence_stream)]> s.(pe_page_stream);
  pe_pairs := s.(pe_pairs) ++
    [{| ps_value := b.(spb_binding_id); ps_persist_page := page; ps_sram_page := b.(spb_page);
        ps_commit_group := commit_group; ps_slot_a := id_a; ps_slot_b := id_b |}];
  pe_witnesses := s.(pe_witnesses) ++
    [{| pw_value := b.(spb_binding_id); pw_sram_page := b.(spb_page);
        pw_commit_group := commit_group; pw_slot_a := id_a; pw_slot_b := id_b;
        pw_slot_size_bytes := wrap U16 page_size |}] |}.

Definition add_persistent_binding (storage : gmap Z ArenaPlanBindingInput) (page_size : Z)
    (s : PersistState) (b : SramPageBinding) : outcome (list ArenaDiagnostic) PersistState :=
  let cross :=
    match s.(pe_page_stream) !! b.(spb_page) with
    | Some owner => negb (owner =? b.(spb_sequence_stream))
    | None => false
    end in
  if cross
  then fail_with ArenaCrossStreamPageSharing (Prov_Binding "AP-SC-2" b.(spb_binding_id))
  else
    match storage !! b.(spb_binding_id) with
    | None =>
        fail_with ArenaPersistentPageStreamMismatch (Prov_Binding "F-Addr-14" b.(spb_binding_id))
    | Some storage_input =>
        match storage_input.(bi_binding).(sb_materialization) with
        | Persist page commit_group => Ok (add_persistent_pair page_size b page commit_group s)
        | _ =>
            Ok {| pe_collected := s.(pe_collected);
                  pe_page_stream := <[b.(spb_page) := b.(spb_sequence_stream)]> s.(pe_page_stream);
                  pe_pairs := s.(pe_pairs); pe_witnesses := s.(pe_witnesses) |}
        end
    end.

Definition add_persistent_slots (input : ArenaPlanInputs) (c : Collected)
    : outcome (list ArenaDiagnostic) PersistState :=
  let page_size := page_size_of input.(in_policy).(persistent_page_geometry) in
  if (input.(in_target).(tp_sram_window_bytes) <? page_size) || (U16 - 1 <? page_size)
  then fail_with ArenaSramSpanForbidden
         (Prov_Slot "F-Addr-8" 0 page_size input.(in_target).(tp_sram_window_bytes))
  else
    ofold (add_persistent_binding (storage_by_value input.(in_storage)) page_size)
      {| pe_collected := c; pe_page_stream := ∅; pe_pairs := []; pe_witnesses := [] |}
      input.(in_sram).(sp_bindings).

(** *** Materialized values *)

Record MaterializeGroup := {
  mg_backing : ArenaBacking; mg_lifetime : LifetimeClass; mg_size_bytes : Z; mg_values : list Z;
}.

Abbreviation GroupKey := (NamedArena * Z)%type (only parsing).
Abbreviation Groups := (list (GroupKey * MaterializeGroup)) (only parsing).

Definition group_key (k : GroupKey) : list Z := named_key k.1 ++ [k.2].

(** [group.size_bytes.max(..)] and the push of a value. *)
Definition join_group (lifetime : LifetimeClass) (backing : ArenaBacking) (size value : Z)
    (g : option MaterializeGroup) : MaterializeGroup :=
  match g with
  | None => {| mg_backing := backing; mg_lifetime := lifetime; mg_size_bytes := Z.max size size;
               mg_values := [value] |}
  | Some g => {| mg_backing := g.(mg_backing); mg_lifetime := g.(mg_lifetime);
                 mg_size_bytes := Z.max g.(mg_size_bytes) size;
                 mg_values := g.(mg_values) ++ [value] |}
  end.

Definition add_to_group (groups : Groups) (b : ArenaPlanBindingInput)
    : outcome (list ArenaDiagnostic) Groups :=
  let value := b.(bi_binding).(sb_value) in
  match b.(bi_binding).(sb_materialization) with
  | Recompute | Persist _ _ => Ok groups
  | Materialize class lifetime =>
      if (b.(bi_size_bytes) =? 0) || (U16 - 1 <? b.(bi_size_bytes))
      then fail_with ArenaAllocationFailed (Prov_Binding "AP-SC-1" value)
      else
        match arena_for class lifetime with
        | None => fail_with ArenaUnmappedStorageClass (Prov_Binding "AP-SC-8" value)
        | Some named =>
            let key := (named, b.(bi_binding).(sb_alias_class)) in
            let other :=
              match map_get group_key key groups with
              | Some g => negb (bool_decide (g.(mg_lifetime) = lifetime))
              | None => false
              end in
            if other
            then fail_with ArenaLifetimeClassMismatch
                   (Prov_AliasClass "AP-SC-7" b.(bi_binding).(sb_alias_class))
            else
              Ok (map_alter group_key
                    (join_group lifetime (backing_for named) (wrap U16 b.(bi_size_bytes)) value)
                    key groups)
        end
  end.

Record MaterializeState := {
  ma_collected : Collected;
  ma_bindings : list MaterializeSlotBinding;
}.

(** One slot for each group; [group.values[0]] panics on an empty group. *)
Definition place_group (s : MaterializeState) (x : GroupKey * MaterializeGroup)
    : outcome (list ArenaDiagnostic) MaterializeState :=
  let values := sort_by Z.leb x.2.(mg_values) in
  let id := s.(ma_collected).(co_next_slot) in
  match values with
  | [] => Panic
  | value :: _ =>
      Ok {|
        ma_collected := {|
          co_builders :=
            extend_builder x.1.1 x.2.(mg_backing)
              [{| sl_id := id; sl_byte_offset := 0; sl_size_bytes := x.2.(mg_size_bytes);
                  sl_alias_class_id := Some x.1.2; sl_lifetime_class := x.2.(mg_lifetime);
                  sl_binding_kind := MaterializedValue; sl_binding_ref := Ref_Value value |}]
              s.(ma_collected).(co_builders);
          co_next_slot := next_id id |};
        ma_bindings :=
          s.(ma_bindings) ++ map (fun v => {| ms_value := v; ms_slot := id |}) values |}
  end.

Definition add_materialized_slots (input : ArenaPlanInputs) (c : Collected)
    : outcome (list ArenaDiagnostic) MaterializeState :=
  let* groups := ofold add_to_group [] input.(in_storage) in
  ofold place_group {| ma_collected := c; ma_bindings := [] |} groups.

(** ** Placing the slots of an arena *)

Record BackingCursors := { cu_wram : Z; cu_sram : Z; cu_hram : Z }.

Definition is_continuation_header (s : ArenaSlot) : bool :=
  bool_decide (s.(sl_binding_kind) = Kind_RuntimeFixed Fixed_WramContinuationHeader).

Definition set_offset (offset : Z) (s : ArenaSlot) : ArenaSlot := {|
  sl_id := s.(sl_id); sl_byte_offset := offset; sl_size_bytes := s.(sl_size_bytes);
  sl_alias_class_id := s.(sl_alias_class_id); sl_lifetime_class := s.(sl_lifetime_class);
  sl_binding_kind := s.(sl_binding_kind); sl_binding_ref := s.(sl_binding_ref) |}.

(** The slots with the header at offset 0, and the cursor after it. *)
Definition place_continuation_header (slots : list ArenaSlot)
    : outcome (list ArenaDiagnostic) (list ArenaSlot * Z) :=
  match filter (fun s => is_continuation_header s = true) slots with
  | [] =>
      fail_with ArenaContinuationRecordSizeMismatch
        (Prov_Arena "AP-SC-15" 0 "WramContinuationRecord")
  | header :: others =>
      if negb (bool_decide (others = [])) || negb (header.(sl_size_bytes) =? header_size_bytes)
      then fail_with ArenaContinuationRecordSizeMismatch
             (Prov_Slot "AP-SC-15" header.(sl_id) header.(sl_size_bytes) header_size_bytes)
      else Ok (map (fun s => if is_continuation_header s then set_offset 0 s else s) slots,
               header_size_bytes)
  end.

(** The key by which an arena's slots are placed; [Reverse] is the negation. *)
Definition slot_key (s : ArenaSlot) : list Z :=
  [if is_continuation_header s then 0 else 1;
   - s.(sl_size_bytes);
   default (U32 - 1) s.(sl_alias_class_id);
   lifetime_priority s.(sl_lifetime_class);
   binding_kind_order s.(sl_binding_kind);
   binding_ref_order s.(sl_binding_ref)].

Definition place_slot (alignment : Z) (st : list ArenaSlot * Z) (s : ArenaSlot)
    : outcome (list ArenaDiagnostic) (list ArenaSlot * Z) :=
  if is_continuation_header s then Ok (st.1 ++ [s], st.2)
  else
    let cursor := align_up st.2 alignment in
    match try_from_u U16 cursor with
    | None => fail_with ArenaAllocationFailed (Prov_Slot "AP-SC-22" s.(sl_id) cursor (U16 - 1))
    | Some offset => Ok (st.1 ++ [set_offset offset s], saturating_add U32 cursor s.(sl_size_bytes))
    end.

Definition cursor_of (b : ArenaBacking) (c : BackingCursors) : Z :=
  match b with Wram => c.(cu_wram) | Sram => c.(cu_sram) | Hram => c.(cu_hram) end.

Definition set_cursor (b : ArenaBacking) (x : Z) (c : BackingCursors) : BackingCursors :=
  match b with
  | Wram => {| cu_wram := x; cu_sram := c.(cu_sram); cu_hram := c.(cu_hram) |}
  | Sram => {| cu_wram := c.(cu_wram); cu_sram := x; cu_hram := c.(cu_hram) |}
  | Hram => {| cu_wram := c.(cu_wram); cu_sram := c.(cu_sram); cu_hram := x |}
  end.

Definition cap_of (input : ArenaPlanInputs) (b : ArenaBacking) : Z :=
  match b with
  | Wram => input.(in_target).(tp_wram_usable_bytes)
  | Sram => input.(in_budget).(memory_caps).(sram_usable_bytes)
  | Hram => input.(in_target).(tp_hram_usable_bytes)
  end.

Definition cap_code (b : ArenaBacking) : ArenaPlanDiagnosticCode :=
  match b with
  | Hram => ArenaHramUsableCapExceeded
  | Wram => ArenaBank0WramOverflow
  | Sram => ArenaCapacityExceeded
  end.

Definition finalize_builder (input : ArenaPlanInputs) (named : NamedArena) (b : ArenaBuilder)
    (cursors : BackingCursors) (id : Z)
    : outcome (list ArenaDiagnostic) (ArenaInstance * BackingCursors) :=
  let alignment := input.(in_policy).(arena_alignment_default) in
  let* header :=
    (if bool_decide (named = WramContinuationRecord)
     then place_continuation_header b.(bu_slots) else Ok (b.(bu_slots), 0)) in
  let* placed := ofold (place_slot alignment) ([], header.2) (sort_by_key slot_key header.1) in
  let len := align_up placed.2 alignment in
  match take_range (cursor_of b.(bu_backing) cursors) len with
  | None => fail_with ArenaCapacityExceeded (Prov_Arena "AP-SC-16" id (named_debug named))
  | Some (start, cursor) =>
      let range := {| br_start := start; br_len := wrap U16 len |} in
      let cap := cap_of input b.(bu_backing) in
      if cap <? range_end range
      then fail_with (cap_code b.(bu_backing)) (Prov_Slot "AP-SC-16" 0 (range_end range) cap)
      else
        Ok ({| ar_id := id; ar_named := named; ar_byte_range := range; ar_backing := b.(bu_backing);
               ar_alignment := alignment; ar_zerofill := input.(in_policy).(arena_zerofill_policy);
               ar_slots := placed.1 |},
            set_cursor b.(bu_backing) cursor cursors)
  end.
