(* ===== verification/ArenaCheck.v ===== *)
(** * Arena planning: checks, certificate and the stage

    The second half of [gbf-codegen/src/arena.rs]: the address invariants
    F-Addr-1 to 14 that a finished plan is checked against, the witnesses of
    its certificate, [build_arena_plan], and the validation of the two reports.
    serde's text of a plan and the two domain hashes are the class
    [ArenaEncoding]. *)

From S2P Require Import Prelude Numeric KnobLattice KnobDelta Refinement KnobResolve RangeCert Arena.

(** ** The plan *)

Record ArenaPlan := {
  pl_identity : ArenaPlanInputIdentity;
  wram_arenas : list ArenaInstance;
  sram_arenas : list ArenaInstance;
  hram_assignments : list ArenaInstance;
  overlay_reservation : OverlayReservationHonor;
  arena_bindings : ArenaBindings;
  arena_plan_self_hash : Z;
}.

Definition set_self_hash (h : Z) (p : ArenaPlan) : ArenaPlan := {|
  pl_identity := p.(pl_identity); wram_arenas := p.(wram_arenas); sram_arenas := p.(sram_arenas);
  hram_assignments := p.(hram_assignments); overlay_reservation := p.(overlay_reservation);
  arena_bindings := p.(arena_bindings); arena_plan_self_hash := h |}.

Definition all_arenas (p : ArenaPlan) : list ArenaInstance :=
  p.(wram_arenas) ++ p.(sram_arenas) ++ p.(hram_assignments).

Definition all_slots_with_arena (p : ArenaPlan) : list (ArenaInstance * ArenaSlot) :=
  flat_map (fun a => map (fun s => (a, s)) a.(ar_slots)) (all_arenas p).

Definition all_slots (p : ArenaPlan) : list ArenaSlot := flat_map ar_slots (all_arenas p).

Definition slot_range (s : ArenaSlot) : ByteRange :=
  {| br_start := s.(sl_byte_offset); br_len := s.(sl_size_bytes) |}.

(** ** The overlay reservation *)

(** The loop over the reserved regions; [seen] is a [BTreeSet]. *)
Fixpoint check_reserved_regions (regions : list OverlayRegion) (count : Z) (seen : gset Z)
    (entries : list OverlayReservationEntry) : option ArenaDiagnostic :=
  match entries with
  | [] => None
  | e :: entries =>
      if bool_decide (e.(re_region) ∈ seen)
      then Some (diagnostic ArenaOverlayReservationCountMismatch
                   (Prov_Reservation "AP-SC-25" (wrap U32 count) (wrap U32 (Z.of_nat (size seen)))))
      else
        match find (fun r => r.(or_id) =? e.(re_region)) regions with
        | None =>
            Some (diagnostic ArenaOverlayReservationCountMismatch
                    (Prov_Reservation "AP-SC-25" e.(re_bytes) 0))
        | Some r =>
            if negb (e.(re_bytes) =? r.(or_bytes))
            then Some (diagnostic ArenaOverlayReservationCountMismatch
                         (Prov_Reservation "AP-SC-24" r.(or_bytes) e.(re_bytes)))
            else check_reserved_regions regions count ({[e.(re_region)]} ∪ seen) entries
        end
  end.

Definition validate_overlay_reservation_input (input : ArenaPlanInputs) : option ArenaDiagnostic :=
  let reservation := input.(in_overlay).(op_reservation) in
  let regions := input.(in_overlay).(op_regions) in
  let count := zlen reservation.(os_per_region) in
  if negb (count =? zlen regions)
  then Some (diagnostic ArenaOverlayReservationCountMismatch
               (Prov_Reservation "AP-SC-25" (wrap U32 count) (wrap U32 (zlen regions))))
  else
    match check_reserved_regions regions count ∅ reservation.(os_per_region) with
    | Some d => Some d
    | None =>
        let total := fold_left (fun t e => saturating_add U32 t e.(re_bytes))
                       reservation.(os_per_region) 0 in
        if negb (total =? reservation.(os_total_bytes))
        then Some (diagnostic ArenaOverlayReservationCountMismatch
                     (Prov_Reservation "AP-SC-25" total reservation.(os_total_bytes)))
        else None
    end.

(** The state of the loop over the overlay regions. *)
Record OverlayState := {
  ov_slot : Z;
  ov_arena : Z;
  ov_cursor : Z;
  ov_total : Z;
  ov_arenas : list ArenaInstance;
  ov_bindings : list OverlayArenaBinding;
  ov_honor : list OverlayReservationHonorEntry;
}.

Definition overlay_member (r : OverlayRegion) (st : Z * list ArenaSlot) (m : OverlayResident)
    : outcome (list ArenaDiagnostic) (Z * list ArenaSlot) :=
  if r.(or_bytes) <? m.(om_payload_bytes)
  then fail_with ArenaOverlayReservationOverflow
         (Prov_Slot "F-Addr-7" st.1 m.(om_payload_bytes) r.(or_bytes))
  else
    Ok (next_id st.1,
        st.2 ++ [{| sl_id := st.1; sl_byte_offset := 0; sl_size_bytes := wrap U16 m.(om_payload_bytes);
                    sl_alias_class_id := None; sl_lifetime_class := Slice;
                    sl_binding_kind := Kind_OverlayMember r.(or_id) m.(om_id);
                    sl_binding_ref := Ref_OverlayMember r.(or_id) m.(om_id) |}]).

Definition overlay_region (input : ArenaPlanInputs) (st : OverlayState) (r : OverlayRegion)
    : outcome (list ArenaDiagnostic) OverlayState :=
  match byte_range st.(ov_cursor) r.(or_bytes) with
  | None =>
      fail_with ArenaOverlayReservationOverflow
        (Prov_Reservation "F-Reservation-NoOverflow" (saturating_add U32 st.(ov_cursor) r.(or_bytes))
           input.(in_target).(tp_wram_usable_bytes))
  | Some range =>
      let* members := ofold (overlay_member r) (st.(ov_slot), []) r.(or_members) in
      Ok {|
        ov_slot := members.1;
        ov_arena := next_id st.(ov_arena);
        ov_cursor := saturating_add U32 st.(ov_cursor) r.(or_bytes);
        ov_total := saturating_add U32 st.(ov_total) r.(or_bytes);
        ov_arenas := st.(ov_arenas) ++
          [{| ar_id := st.(ov_arena); ar_named := WramOverlayRegion r.(or_id); ar_byte_range := range;
              ar_backing := Wram; ar_alignment := input.(in_policy).(arena_alignment_default);
              ar_zerofill := input.(in_policy).(arena_zerofill_policy); ar_slots := members.2 |}];
        ov_bindings := st.(ov_bindings) ++ [{| oa_overlay := r.(or_id); oa_arena := st.(ov_arena) |}];
        ov_honor := st.(ov_honor) ++
          [{| he_overlay_id := r.(or_id); he_arena_id := st.(ov_arena); he_bytes := r.(or_bytes);
              he_byte_range := range |}] |}
  end.

(** ** The address invariants *)

Definition is_materialize (b : ArenaPlanBindingInput) : bool :=
  match b.(bi_binding).(sb_materialization) with Materialize _ _ => true | _ => false end.
Definition is_persist (b : ArenaPlanBindingInput) : bool :=
  match b.(bi_binding).(sb_materialization) with Persist _ _ => true | _ => false end.
Definition is_overlay_region (n : NamedArena) : bool :=
  match n with WramOverlayRegion _ => true | _ => false end.

(** The values of the bindings that a test selects. *)
Definition values_where (p : ArenaPlanBindingInput -> bool) (l : list ArenaPlanBindingInput) : gset Z :=
  list_to_set (map (fun b => b.(bi_binding).(sb_value)) (List.filter p l)).

Definition overlay_reservation_honored (input : ArenaPlanInputs) (p : ArenaPlan) : bool :=
  let honor := p.(overlay_reservation) in
  let reservation := input.(in_overlay).(op_reservation) in
  (honor.(oh_total_bytes) =? reservation.(os_total_bytes))
  && (honor.(oh_expected_total_bytes) =? reservation.(os_total_bytes))
  && (zlen honor.(oh_per_region) =? zlen reservation.(os_per_region))
  && forallb (fun r =>
       match List.filter (fun e => e.(he_overlay_id) =? r.(re_region)) honor.(oh_per_region) with
       | [e] =>
           (e.(he_bytes) =? r.(re_bytes)) && (e.(he_byte_range).(br_len) =? r.(re_bytes))
           && existsb (fun a =>
                (a.(ar_id) =? e.(he_arena_id))
                && bool_decide (a.(ar_named) = WramOverlayRegion r.(re_region))
                && bool_decide (a.(ar_byte_range) = e.(he_byte_range))) p.(wram_arenas)
       | _ => false
       end) reservation.(os_per_region).

(** The two nested loops over the slots: every pair, the earlier one first. *)
Fixpoint all_pairs {A} (ok : A -> A -> bool) (l : list A) : bool :=
  match l with
  | [] => true
  | x :: l => forallb (ok x) l && all_pairs ok l
  end.

Definition may_share (l r : ArenaInstance * ArenaSlot) : bool :=
  if negb (l.1.(ar_id) =? r.1.(ar_id)) then true
  else if negb (intersects (slot_range l.2) (slot_range r.2)) then true
  else
    let same_alias :=
      match l.2.(sl_alias_class_id), r.2.(sl_alias_class_id) with
      | Some a, Some b => a =? b
      | _, _ => false
      end in
    let same_range := bool_decide (slot_range l.2 = slot_range r.2) in
    let both_overlay_members :=
      match l.2.(sl_binding_kind), r.2.(sl_binding_kind) with
      | Kind_OverlayMember a _, Kind_OverlayMember b _ => a =? b
      | _, _ => false
      end in
    both_overlay_members || (same_alias && same_range).

Definition alias_total_or_disjoint (slots : list (ArenaInstance * ArenaSlot)) : bool :=
  all_pairs may_share slots.

Definition lifetime_preserved (input : ArenaPlanInputs) (p : ArenaPlan) (slots : list ArenaSlot) : bool :=
  forallb (fun b =>
      match b.(bi_binding).(sb_materialization) with
      | Materialize _ lifetime =>
          match find (fun x => x.(ms_value) =? b.(bi_binding).(sb_value))
                  p.(arena_bindings).(materialize_to_slot) with
          | None => false
          | Some x =>
              match find (fun s => s.(sl_id) =? x.(ms_slot)) slots with
              | None => false
              | Some s => bool_decide (s.(sl_lifetime_class) = lifetime)
              end
          end
      | _ => true
      end) input.(in_storage).

Definition overlay_member_start (input : ArenaPlanInputs) (p : ArenaPlan) : bool :=
  forallb (fun r =>
      match find (fun a => bool_decide (a.(ar_named) = WramOverlayRegion r.(or_id))) p.(wram_arenas) with
      | None => false
      | Some a =>
          forallb (fun m =>
              existsb (fun s =>
                  bool_decide (s.(sl_binding_kind) = Kind_OverlayMember r.(or_id) m.(om_id))
                  && (s.(sl_byte_offset) =? 0) && (s.(sl_size_bytes) <=? r.(or_bytes))) a.(ar_slots))
            r.(or_members)
      end) input.(in_overlay).(op_regions).

Definition sram_no_span (input : ArenaPlanInputs) (p : ArenaPlan) : bool :=
  let window := input.(in_target).(tp_sram_window_bytes) in
  forallb (fun a =>
      forallb (fun s =>
          if window =? 0 then false
          else s.(sl_byte_offset) mod window + s.(sl_size_bytes) <=? window) a.(ar_slots))
    p.(sram_arenas).

(** ** The continuation record *)

Definition CONTINUATION_ABI_SYMBOL : string := "gbf_abi::InferenceStateHeader".

Record ArenaContinuationTailSlotWitness := {
  ct_slot : Z; ct_value : Z; ct_byte_offset : Z; ct_size_bytes : Z;
}.

Record ArenaContinuationWitness := {
  cw_abi_symbol : string;
  cw_arena_id : Z;
  cw_byte_range : ByteRange;
  cw_header_slot : Z;
  cw_header_size_bytes : Z;
  cw_tail_size_bytes : Z;
  cw_total_size_bytes : Z;
  cw_tail_slots : list ArenaContinuationTailSlotWitness;
}.

(** [max] over the ends of the slots, [None] without slots. *)
Definition max_end (slots : list ArenaSlot) : option Z :=
  match map (fun s => s.(sl_byte_offset) + s.(sl_size_bytes)) slots with
  | [] => None
  | x :: l => Some (fold_left Z.max l x)
  end.

(** The loop over the arena's slots; a slot without a value ends it. *)
Fixpoint tail_witnesses (header_size : Z) (value_of : gmap Z Z) (slots : list ArenaSlot)
    : option (list ArenaContinuationTailSlotWitness) :=
  match slots with
  | [] => Some []
  | s :: slots =>
      if negb (bool_decide (s.(sl_binding_kind) = MaterializedValue))
         || (s.(sl_byte_offset) <? header_size)
      then tail_witnesses header_size value_of slots
      else
        match value_of !! s.(sl_id) with
        | None => None
        | Some value =>
            (fun l => {| ct_slot := s.(sl_id); ct_value := value; ct_byte_offset := s.(sl_byte_offset);
                         ct_size_bytes := s.(sl_size_bytes) |} :: l)
              <$> tail_witnesses header_size value_of slots
        end
  end.

Definition materialize_by_slot (l : list MaterializeSlotBinding) : gmap Z Z :=
  fold_left (fun m b => <[b.(ms_slot) := b.(ms_value)]> m) l ∅.

Definition continuation_witness (p : ArenaPlan) : option ArenaContinuationWitness :=
  arena ← find (fun a => bool_decide (a.(ar_named) = WramContinuationRecord)) p.(wram_arenas);
  header_size ← try_from_u U16 header_size_bytes;
  header ← find is_continuation_header arena.(ar_slots);
  if negb (header.(sl_byte_offset) =? 0) || negb (header.(sl_size_bytes) =? header_size) then None
  else
    tail ← tail_witnesses header_size
             (materialize_by_slot p.(arena_bindings).(materialize_to_slot)) arena.(ar_slots);
    let tail_end := default header_size
      (max_end (List.filter (fun s => negb (s.(sl_id) =? header.(sl_id))) arena.(ar_slots))) in
    if (tail_end <? header_size) || negb (tail_end =? arena.(ar_byte_range).(br_len)) then None
    else
      tail_size ← try_from_u U16 (tail_end - header_size);
      total ← total_continuation_bytes tail_size;
      total_size ← try_from_u U16 total;
      if negb (total_size =? arena.(ar_byte_range).(br_len)) then None
      else
        Some {| cw_abi_symbol := CONTINUATION_ABI_SYMBOL; cw_arena_id := arena.(ar_id);
                cw_byte_range := arena.(ar_byte_range); cw_header_slot := header.(sl_id);
                cw_header_size_bytes := header_size; cw_tail_size_bytes := tail_size;
                cw_total_size_bytes := total_size;
                cw_tail_slots := sort_by_key (fun s => [s.(ct_byte_offset); s.(ct_slot)]) tail |}.

(** The loop over the tail slots: the two sets, the previous key and the end. *)
Fixpoint canonical_tail (header total : Z) (seen_slots seen_values : gset Z)
    (previous : option (list Z)) (max_tail_end : Z) (l : list ArenaContinuationTailSlotWitness)
    : option Z :=
  match l with
  | [] => Some max_tail_end
  | s :: l =>
      let key := [s.(ct_byte_offset); s.(ct_slot)] in
      let slot_end := s.(ct_byte_offset) + s.(ct_size_bytes) in
      if bool_decide (s.(ct_slot) ∈ seen_slots) || bool_decide (s.(ct_value) ∈ seen_values)
         || (s.(ct_size_bytes) =? 0)
         || match previous with Some k => lex_leb key k | None => false end
         || (s.(ct_byte_offset) <? header) || (total <? slot_end)
      then None
      else canonical_tail header total ({[s.(ct_slot)]} ∪ seen_slots) ({[s.(ct_value)]} ∪ seen_values)
             (Some key) (Z.max max_tail_end slot_end) l
  end.

Definition continuation_tail_slots_are_canonical (w : ArenaContinuationWitness) : bool :=
  match canonical_tail w.(cw_header_size_bytes) w.(cw_total_size_bytes) ∅ ∅ None
          w.(cw_header_size_bytes) w.(cw_tail_slots) with
  | None => false
  | Some max_tail_end =>
      match w.(cw_tail_slots) with
      | [] => w.(cw_tail_size_bytes) =? 0
      | _ => max_tail_end =? w.(cw_total_size_bytes)
      end
  end.

(** A binding that lives as long as a session in hot work RAM is in the tail. *)
Definition tail_covers (p : ArenaPlan) (w : ArenaContinuationWitness) (b : ArenaPlanBindingInput) : bool :=
  match b.(bi_binding).(sb_materialization) with
  | Materialize WramHot Session =>
      existsb (fun x => (x.(ms_value) =? b.(bi_binding).(sb_value))
                        && existsb (fun t => t.(ct_slot) =? x.(ms_slot)) w.(cw_tail_slots))
        p.(arena_bindings).(materialize_to_slot)
  | _ => true
  end.

Definition continuation_sized (input : ArenaPlanInputs) (p : ArenaPlan) : bool :=
  match List.filter (fun a => bool_decide (a.(ar_named) = WramContinuationRecord)) p.(wram_arenas) with
  | [arena] =>
      if negb (bool_decide (arena.(ar_backing) = Wram)) || (arena.(ar_byte_range).(br_len) =? 0)
      then false
      else
        match continuation_witness p with
        | None => false
        | Some w =>
            match total_continuation_bytes w.(cw_tail_size_bytes) with
            | None => false
            | Some expected_total =>
                (w.(cw_total_size_bytes) =? expected_total)
                && (arena.(ar_byte_range).(br_len) =? w.(cw_total_size_bytes))
                && (w.(cw_header_size_bytes) =? header_size_bytes)
                && continuation_tail_slots_are_canonical w
                && forallb (tail_covers p w) input.(in_storage)
            end
        end
  | _ => false
  end.

(** ** The harness blocks and the persistent pages *)

Definition is_harness (n : NamedArena) : bool :=
  match n with SramHarnessCommandBlock | SramHarnessResultBlock => true | _ => false end.

Definition is_sram_data (n : NamedArena) : bool :=
  match n with
  | SramSequenceStatePages _ | SramColdSpill | SramTracePages => true
  | _ => false
  end.

(** The arenas that the certificate names: the data and the transcript. *)
Definition is_certified_data (n : NamedArena) : bool :=
  match n with SramPersistedTranscript => true | _ => is_sram_data n end.

Definition ranges_where (p : NamedArena -> bool) (l : list ArenaInstance) : list ByteRange :=
  map ar_byte_range (List.filter (fun a => p a.(ar_named)) l).

Definition ranges_disjoint (l r : list ByteRange) : bool :=
  forallb (fun a => forallb (fun b => negb (intersects a b)) r) l.

Definition harness_disjoint (p : ArenaPlan) : bool :=
  ranges_disjoint (ranges_where is_harness p.(sram_arenas)) (ranges_where is_sram_data p.(sram_arenas)).

Record ArenaHarnessNoLeakCertificate := {
  hc_command_block_arena : Z;
  hc_result_block_arena : Z;
  hc_disjoint_from : list NamedArena;
}.

Definition unique_sram_arena (p : ArenaPlan) (named : NamedArena) : option ArenaInstance :=
  match List.filter (fun a => bool_decide (a.(ar_named) = named)) p.(sram_arenas) with
  | [a] => Some a
  | _ => None
  end.

(** [BTreeSet::insert]. *)
Definition name_insert (n : NamedArena) (names : list (NamedArena * unit)) : list (NamedArena * unit) :=
  map_alter named_key (fun _ => ()) n names.

Definition harness_no_leak_certificate (p : ArenaPlan) : option ArenaHarnessNoLeakCertificate :=
  command ← unique_sram_arena p SramHarnessCommandBlock;
  result ← unique_sram_arena p SramHarnessResultBlock;
  if (command.(ar_id) =? result.(ar_id))
     || intersects command.(ar_byte_range) result.(ar_byte_range) then None
  else
    let data := List.filter (fun a => is_certified_data a.(ar_named)) p.(sram_arenas) in
    if existsb (fun a => intersects command.(ar_byte_range) a.(ar_byte_range)
                         || intersects result.(ar_byte_range) a.(ar_byte_range)) data
    then None
    else
      Some {| hc_command_block_arena := command.(ar_id); hc_result_block_arena := result.(ar_id);
              hc_disjoint_from := map fst (fold_left (fun m a => name_insert a.(ar_named) m) data []) |}.

Definition is_persistent_page (s : ArenaSlot) : bool :=
  match s.(sl_binding_kind) with PersistentPageA _ _ | PersistentPageB _ _ => true | _ => false end.

Definition persistent_page_header_aligned (input : ArenaPlanInputs) (p : ArenaPlan) : bool :=
  let geometry := input.(in_policy).(persistent_page_geometry) in
  let page_size := page_size_of geometry in
  if geometry.(pg_alignment) =? 0 then false
  else if (page_size =? 0) || (U16 - 1 <? page_size) then false
  else
    forallb (fun a =>
        forallb (fun s =>
            negb (is_persistent_page s)
            || ((s.(sl_byte_offset) mod geometry.(pg_alignment) =? 0)
                && (s.(sl_size_bytes) =? page_size)
                && (geometry.(pg_header_bytes) + geometry.(pg_commit_word_bytes) <=? s.(sl_size_bytes))
                && (s.(sl_byte_offset) + s.(sl_size_bytes) <=? a.(ar_byte_range).(br_len))))
          a.(ar_slots)) p.(sram_arenas).

(** ** All of them *)

Record ArenaAddressInvariants := {
  f_addr_1_materialize_coverage : bool;
  f_addr_2_persist_coverage : bool;
  f_addr_3_alias_total_or_disjoint : bool;
  f_addr_4_lifetime_preservation : bool;
  f_addr_5_overlay_byte_equality : bool;
  f_addr_6_overlay_disjointness : bool;
  f_addr_7_overlay_member_start_of_region : bool;
  f_addr_8_sram_no_span : bool;
  f_addr_9_hram_page_bound : bool;
  f_addr_10_continuation_sized : bool;
  f_addr_11_harness_disjoint : bool;
  f_addr_12_persistent_page_header_aligned : bool;
  f_addr_13_slot_id_unique : bool;
  f_addr_14_binding_ref_resolves : bool;
}.

Definition all_pass (i : ArenaAddressInvariants) : bool :=
  i.(f_addr_1_materialize_coverage)
  && i.(f_addr_2_persist_coverage)
  && i.(f_addr_3_alias_total_or_disjoint)
  && i.(f_addr_4_lifetime_preservation)
  && i.(f_addr_5_overlay_byte_equality)
  && i.(f_addr_6_overlay_disjointness)
  && i.(f_addr_7_overlay_member_start_of_region)
  && i.(f_addr_8_sram_no_span)
  && i.(f_addr_9_hram_page_bound)
  && i.(f_addr_10_continuation_sized)
  && i.(f_addr_11_harness_disjoint)
  && i.(f_addr_12_persistent_page_header_aligned)
  && i.(f_addr_13_slot_id_unique)
  && i.(f_addr_14_binding_ref_resolves).

Definition ref_resolves (input : ArenaPlanInputs) (s : ArenaSlot) : bool :=
  match s.(sl_binding_ref) with
  | Ref_Value value =>
      bool_decide (value ∈ values_where is_materialize input.(in_storage))
      || existsb (fun b => b.(spb_binding_id) =? value) input.(in_sram).(sp_bindings)
  | Ref_PersistPage value _ => bool_decide (value ∈ values_where is_persist input.(in_storage))
  | Ref_OverlayMember overlay _ => existsb (fun r => r.(or_id) =? overlay) input.(in_overlay).(op_regions)
  | Ref_RuntimeFixed _ | Ref_TraceRing _ => true
  end.

Definition validate_address_invariants (input : ArenaPlanInputs) (p : ArenaPlan)
    : ArenaAddressInvariants :=
  let b := p.(arena_bindings) in
  let slots := all_slots p in {|
  f_addr_1_materialize_coverage :=
    bool_decide (values_where is_materialize input.(in_storage)
                 = list_to_set (map ms_value b.(materialize_to_slot)));
  f_addr_2_persist_coverage :=
    bool_decide (values_where is_persist input.(in_storage)
                 = list_to_set (map ps_value b.(persist_to_slot_pair)));
  f_addr_3_alias_total_or_disjoint := alias_total_or_disjoint (all_slots_with_arena p);
  f_addr_4_lifetime_preservation := lifetime_preserved input p slots;
  f_addr_5_overlay_byte_equality := overlay_reservation_honored input p;
  f_addr_6_overlay_disjointness :=
    ranges_disjoint (ranges_where is_overlay_region p.(wram_arenas))
      (ranges_where (fun n => negb (is_overlay_region n)) p.(wram_arenas));
  f_addr_7_overlay_member_start_of_region := overlay_member_start input p;
  f_addr_8_sram_no_span := sram_no_span input p;
  f_addr_9_hram_page_bound :=
    forallb (fun a => range_end a.(ar_byte_range) <=? input.(in_target).(tp_hram_usable_bytes))
      p.(hram_assignments);
  f_addr_10_continuation_sized := continuation_sized input p;
  f_addr_11_harness_disjoint := harness_disjoint p;
  f_addr_12_persistent_page_header_aligned := persistent_page_header_aligned input p;
  f_addr_13_slot_id_unique :=
    Z.of_nat (size (list_to_set (map sl_id slots) : gset Z)) =? zlen slots;
  f_addr_14_binding_ref_resolves := forallb (ref_resolves input) slots |}.

(** ** The certificate *)

Record ArenaCertBody := {
  ce_pass_version : string;
  ce_input_hashes : ArenaPlanInputHashes;
  ce_arena_plan_self_hash : Z;
  ce_address_invariants : ArenaAddressInvariants;
  ce_reservation_honor : OverlayReservationHonor;
  ce_continuation_record : ArenaContinuationWitness;
  ce_geometry : PersistentPageGeometry;
  ce_pages : list ArenaPersistentPageWitness;
  ce_harness_no_leak : ArenaHarnessNoLeakCertificate;
  ce_diagnostics : list ArenaDiagnostic;
  ce_arena_cert_self_hash : Z;
}.

Definition set_cert_hash (h : Z) (c : ArenaCertBody) : ArenaCertBody := {|
  ce_pass_version := c.(ce_pass_version); ce_input_hashes := c.(ce_input_hashes);
  ce_arena_plan_self_hash := c.(ce_arena_plan_self_hash);
  ce_address_invariants := c.(ce_address_invariants);
  ce_reservation_honor := c.(ce_reservation_honor);
  ce_continuation_record := c.(ce_continuation_record);
  ce_geometry := c.(ce_geometry); ce_pages := c.(ce_pages);
  ce_harness_no_leak := c.(ce_harness_no_leak); ce_diagnostics := c.(ce_diagnostics);
  ce_arena_cert_self_hash := h |}.

(** serde's text of a plan, and the two hashes: [inl] is the error's text. *)
Class ArenaEncoding := {
  plan_json : ArenaPlan -> string;
  hash_arena_plan : ArenaPlan -> string + Z;
  hash_arena_cert : ArenaCertBody -> string + Z;
}.

Definition text_contains (text needle : string) : bool :=
  match String.index 0 needle text with Some _ => true | None => false end.

Definition leaked (code : ArenaPlanDiagnosticCode) (tag : string) : ArenaDiagnostic :=
  diagnostic code (Prov_JsonPath "$" tag).

Definition validate_arena_plan_json_surface (text : string) : option ArenaDiagnostic :=
  match find (text_contains text) ["AsmIR"; "SectionRole"; "BankPlacement"] with
  | Some forbidden => Some (leaked ArenaSectionRoleLeaked forbidden)
  | None =>
      match find (text_contains text) ["SliceId"; "LeaseId"; "ResourceVector"; "CycleBudget"] with
      | Some forbidden => Some (leaked ArenaSchedulingFieldLeaked forbidden)
      | None =>
          if text_contains text "RepairProposal" || text_contains text "repair_proposals"
          then Some (leaked ArenaRepairProvenanceForbidden "repair")
          else None
      end
  end.

(** ** The stage *)

Record ArenaPlanSummary := {
  su_wram_arena_count : Z; su_sram_arena_count : Z; su_hram_assignment_count : Z;
  su_slot_count : Z; su_overlay_reserved_bytes : Z;
}.

Definition count_u16 (n : Z) : Z := default (U16 - 1) (try_from_u U16 n).

Definition plan_summary (p : ArenaPlan) : ArenaPlanSummary := {|
  su_wram_arena_count := count_u16 (zlen p.(wram_arenas));
  su_sram_arena_count := count_u16 (zlen p.(sram_arenas));
  su_hram_assignment_count := count_u16 (zlen p.(hram_assignments));
  su_slot_count := wrap U32 (zlen (all_slots p));
  su_overlay_reserved_bytes := p.(overlay_reservation).(oh_total_bytes) |}.

Record ArenaPlanResult := {
  rs_product : ArenaPlan; rs_arena_plan_self_hash : Z; rs_summary : ArenaPlanSummary;
}.

Definition input_hash_mismatch_diagnostics (input : ArenaPlanInputs) : list ArenaDiagnostic :=
  omap (fun product =>
      let recorded := hash_for_product input.(in_identity).(ai_hashes) product in
      let computed := hash_for_product input.(in_expected_hashes) product in
      if recorded =? computed then None
      else Some (diagnostic ArenaInputHashMismatch (HashMismatch (field_name product) recorded computed)))
    ARENA_PLAN_INPUT_PRODUCTS.

(** The checks of the inputs before anything is planned. *)
Definition check_inputs (input : ArenaPlanInputs) : outcome (list ArenaDiagnostic) unit :=
  let hashes := input.(in_identity).(ai_hashes) in
  let* _ :=
    match input_hash_mismatch_diagnostics input with
    | [] => Ok ()
    | ds => Err ds
    end in
  let* _ := guard_err (negb (hashes.(ah_sram_page_plan_self_hash) =? input.(in_sram).(sp_self_hash)))
    [diagnostic ArenaInputHashMismatch
       (HashMismatch "sram_page_plan_self_hash" hashes.(ah_sram_page_plan_self_hash)
          input.(in_sram).(sp_self_hash))] in
  let* _ := guard_err (negb (hashes.(ah_overlay_plan_self_hash) =? input.(in_overlay).(op_self_hash)))
    [diagnostic ArenaInputHashMismatch
       (HashMismatch "overlay_plan_self_hash" hashes.(ah_overlay_plan_self_hash)
          input.(in_overlay).(op_self_hash))] in
  let* _ := guard_err
    (negb (bool_decide (input.(in_sram).(sp_geometry) = input.(in_policy).(persistent_page_geometry))))
    [diagnostic ArenaPersistentPageGeometryMismatch
       (Prov_Geometry input.(in_sram).(sp_geometry) input.(in_policy).(persistent_page_geometry))] in
  guard_err (input.(in_policy).(arena_alignment_default) =? 0)
    [diagnostic ArenaPolicyProjectionMismatch
       (Prov_PolicyProjection "arena_alignment_default"
          "ArenaPlan v1 requires non-zero arena alignment")].

(** The loop that finishes the builders, in the order of their names. *)
Record FinishState := {
  fi_arena : Z;
  fi_cursors : BackingCursors;
  fi_wram : list ArenaInstance;
  fi_sram : list ArenaInstance;
  fi_hram : list ArenaInstance;
}.

Definition finish_arena (input : ArenaPlanInputs) (st : FinishState) (x : NamedArena * ArenaBuilder)
    : outcome (list ArenaDiagnostic) FinishState :=
  let* r := finalize_builder input x.1 x.2 st.(fi_cursors) st.(fi_arena) in
  let push b l := if bool_decide (r.1.(ar_backing) = b) then l ++ [r.1] else l in
  Ok {| fi_arena := next_id st.(fi_arena); fi_cursors := r.2;
        fi_wram := push Wram st.(fi_wram); fi_sram := push Sram st.(fi_sram);
        fi_hram := push Hram st.(fi_hram) |}.

Definition arena_key (a : ArenaInstance) : list Z :=
  a.(ar_byte_range).(br_start) :: named_key a.(ar_named).

(** All slots collected: the runtime's, the persistent pages', the values'. *)
Definition collect_slots (input : ArenaPlanInputs) (next_slot : Z)
    : outcome (list ArenaDiagnostic) (PersistState * MaterializeState) :=
  let* c := add_continuation_header_slot {| co_builders := []; co_next_slot := next_slot |} in
  let* c := add_runtime_harness_slots c in
  let* pe := add_persistent_slots input (add_runtime_hram_slots c) in
  let* ma := add_materialized_slots input pe.(pe_collected) in
  Ok (pe, ma).

(** The plan before it is checked, and the witnesses of the persistent pages. *)
Definition assemble_plan (input : ArenaPlanInputs)
    : outcome (list ArenaDiagnostic) (ArenaPlan * list ArenaPersistentPageWitness) :=
  let* _ :=
    match validate_overlay_reservation_input input with
    | Some d => Err [d]
    | None => Ok ()
    end in
  let* ov := ofold (overlay_region input)
    {| ov_slot := 0; ov_arena := 0; ov_cursor := 0; ov_total := 0; ov_arenas := [];
       ov_bindings := []; ov_honor := [] |} input.(in_overlay).(op_regions) in
  let reserved := input.(in_overlay).(op_reservation).(os_total_bytes) in
  let* _ := guard_err (negb (ov.(ov_total) =? reserved))
    [diagnostic ArenaOverlayReservationCountMismatch
       (Prov_Reservation "AP-SC-25" ov.(ov_total) reserved)] in
  let* slots := collect_slots input ov.(ov_slot) in
  let* fi := ofold (finish_arena input)
    {| fi_arena := ov.(ov_arena);
       fi_cursors := {| cu_wram := ov.(ov_cursor); cu_sram := 0; cu_hram := 0 |};
       fi_wram := ov.(ov_arenas); fi_sram := []; fi_hram := [] |}
    slots.2.(ma_collected).(co_builders) in
  Ok ({| pl_identity := input.(in_identity);
         wram_arenas := sort_by_key arena_key fi.(fi_wram);
         sram_arenas := sort_by_key arena_key fi.(fi_sram);
         hram_assignments := sort_by_key arena_key fi.(fi_hram);
         overlay_reservation := {|
           oh_total_bytes := default (U16 - 1) (try_from_u U16 ov.(ov_total));
           oh_expected_total_bytes := reserved;
           oh_per_region := ov.(ov_honor) |};
         arena_bindings := {|
           materialize_to_slot := sort_by_key (fun b => [b.(ms_value)]) slots.2.(ma_bindings);
           persist_to_slot_pair :=
             sort_by_key (fun b => [b.(ps_sram_page); b.(ps_commit_group); b.(ps_value)])
               slots.1.(pe_pairs);
           overlay_to_arena := sort_by_key (fun b => [b.(oa_overlay)]) ov.(ov_bindings) |};
         arena_plan_self_hash := 0 |},
      sort_by_key (fun w => [w.(pw_sram_page); w.(pw_commit_group); w.(pw_value)])
        slots.1.(pe_witnesses)).

Definition ARENA_PLAN_PASS_VERSION : string := "stage9/v1".
Definition ARENA_CERT_PASS_VERSION : string := "arena.cert/stage9/v1".

Definition policy_diagnostic (code : ArenaPlanDiagnosticCode) (field detail : string)
    : list ArenaDiagnostic :=
  [diagnostic code (Prov_PolicyProjection field detail)].

Definition hashed (h : string + Z) (field : string) : outcome (list ArenaDiagnostic) Z :=
  match h with
  | inr h => Ok h
  | inl error => Err (policy_diagnostic ArenaCanonicalSortDrift field error)
  end.

(** The result and the certificate, or the diagnostics of a failed output. *)
Definition plan_arenas `{ArenaEncoding} (input : ArenaPlanInputs)
    : outcome (list ArenaDiagnostic) (ArenaPlanResult * ArenaCertBody) :=
  let* _ := check_inputs input in
  let* planned := assemble_plan input in
  let plan := planned.1 in
  let* _ :=
    match validate_arena_plan_json_surface (plan_json plan) with
    | Some d => Err [d]
    | None => Ok ()
    end in
  let invariants := validate_address_invariants input plan in
  let* _ := guard_err (negb (all_pass invariants))
    (policy_diagnostic ArenaCertAddressInvariantFailed "address_invariants"
       "one or more F-Addr invariants are false") in
  let* continuation_record := ok_or (continuation_witness plan)
    [diagnostic ArenaContinuationRecordSizeMismatch
       (Prov_Arena "F-Addr-10" 0 "WramContinuationRecord")] in
  let* harness_no_leak := ok_or (harness_no_leak_certificate plan)
    (policy_diagnostic ArenaCertAddressInvariantFailed "harness_no_leak"
       "harness certificate could not be derived") in
  let* self_hash := hashed (hash_arena_plan plan) "arena_plan_self_hash" in
  let product := set_self_hash self_hash plan in
  let cert := {|
    ce_pass_version := ARENA_CERT_PASS_VERSION;
    ce_input_hashes := input.(in_identity).(ai_hashes);
    ce_arena_plan_self_hash := self_hash;
    ce_address_invariants := invariants;
    ce_reservation_honor := product.(overlay_reservation);
    ce_continuation_record := continuation_record;
    ce_geometry := input.(in_policy).(persistent_page_geometry);
    ce_pages := planned.2;
    ce_harness_no_leak := harness_no_leak;
    ce_diagnostics := [];
    ce_arena_cert_self_hash := 0 |} in
  let* cert_hash := hashed (hash_arena_cert cert) "arena_cert_self_hash" in
  Ok ({| rs_product := product; rs_arena_plan_self_hash := self_hash;
         rs_summary := plan_summary product |},
      set_cert_hash cert_hash cert).

Inductive ArenaPlanOutcome := Succeeded | Failed.

Record ArenaPlanOutput := {
  ao_input_identity : ArenaPlanInputIdentity;
  ao_outcome : ArenaPlanOutcome;
  ao_result : option ArenaPlanResult;
  ao_cert : option ArenaCertBody;
  ao_diagnostics : list ArenaDiagnostic;
}.

Definition failed_output (identity : ArenaPlanInputIdentity) (diagnostics : list ArenaDiagnostic)
    : ArenaPlanOutput := {|
  ao_input_identity := identity; ao_outcome := Failed; ao_result := None; ao_cert := None;
  ao_diagnostics := diagnostics |}.

(** The output; the stage has no other failure than a panic. *)
Definition build_arena_plan `{ArenaEncoding} (input : ArenaPlanInputs)
    : outcome Empty_set ArenaPlanOutput :=
  match plan_arenas input with
  | Ok (result, cert) =>
      Ok {| ao_input_identity := input.(in_identity); ao_outcome := Succeeded;
            ao_result := Some result; ao_cert := Some cert; ao_diagnostics := [] |}
  | Err diagnostics => Ok (failed_output input.(in_identity) diagnostics)
  | Panic => Panic
  | NoFuel => NoFuel
  end.

(** ** The reports *)

Record ArenaPlanReportBody := {
  rb_pass_version : string;
  rb_input_identity : ArenaPlanInputIdentity;
  rb_diagnostics : list ArenaDiagnostic;
  rb_result : option ArenaPlanResult;
}.

(** The outcome and the body that [emit_arena_plan_report] puts in an envelope. *)
Definition arena_plan_report (output : ArenaPlanOutput) : ReportOutcome * ArenaPlanReportBody :=
  (match output.(ao_outcome) with Succeeded => Report_Passed | Failed => Report_Failed end,
   {| rb_pass_version := ARENA_PLAN_PASS_VERSION;
      rb_input_identity := output.(ao_input_identity);
      rb_diagnostics := output.(ao_diagnostics);
      rb_result := output.(ao_result) |}).

Definition has_hard (l : list ArenaDiagnostic) : bool :=
  existsb (fun d => bool_decide (d.(ad_severity) = Hard)) l.

Definition option_is_none {A} (o : option A) : bool := match o with None => true | Some _ => false end.

Definition validate_arena_plan_report_body (body : ArenaPlanReportBody) (o : ReportOutcome)
    : outcome (list ArenaDiagnostic) unit :=
  let other_version := negb (String.eqb body.(rb_pass_version) ARENA_PLAN_PASS_VERSION) in
  match o with
  | Report_Passed =>
      guard_err (option_is_none body.(rb_result) || has_hard body.(rb_diagnostics) || other_version)
        [report_invariant "arena_plan.passed"]
  | Report_Failed =>
      guard_err (negb (option_is_none body.(rb_result)) || negb (has_hard body.(rb_diagnostics))
                 || other_version)
        [report_invariant "arena_plan.failed"]
  end.

Definition arena_cert_continuation_matches_abi (w : ArenaContinuationWitness) : bool :=
  if negb (String.eqb w.(cw_abi_symbol) CONTINUATION_ABI_SYMBOL)
     || negb (w.(cw_header_size_bytes) =? header_size_bytes)
     || negb (w.(cw_byte_range).(br_len) =? w.(cw_total_size_bytes)) then false
  else if (w.(cw_total_size_bytes) <? w.(cw_header_size_bytes))
     || negb (w.(cw_total_size_bytes) =? w.(cw_header_size_bytes) + w.(cw_tail_size_bytes)) then false
  else
    match total_continuation_bytes w.(cw_tail_size_bytes) with
    | None => false
    | Some total_size =>
        (w.(cw_total_size_bytes) =? total_size) && continuation_tail_slots_are_canonical w
    end.

(** [windows(2).all(|w| w[0] < w[1])]. *)
Fixpoint ascending (l : list NamedArena) : bool :=
  match l with
  | a :: ((b :: _) as tl) => negb (lex_leb (named_key b) (named_key a)) && ascending tl
  | _ => true
  end.

Definition arena_cert_harness_no_leak_is_well_formed (c : ArenaHarnessNoLeakCertificate) : bool :=
  negb (c.(hc_command_block_arena) =? c.(hc_result_block_arena))
  && ascending c.(hc_disjoint_from)
  && forallb is_certified_data c.(hc_disjoint_from).

Definition validate_arena_cert_body (body : ArenaCertBody) (o : ReportOutcome)
    : outcome (list ArenaDiagnostic) unit :=
  if bool_decide (o = Report_Passed)
     && negb (has_hard body.(ce_diagnostics))
     && String.eqb body.(ce_pass_version) ARENA_CERT_PASS_VERSION
     && all_bound body.(ce_input_hashes)
     && negb (body.(ce_arena_plan_self_hash) =? 0)
     && negb (body.(ce_arena_cert_self_hash) =? 0)
     && all_pass body.(ce_address_invariants)
     && arena_cert_continuation_matches_abi body.(ce_continuation_record)
     && arena_cert_harness_no_leak_is_well_formed body.(ce_harness_no_leak)
  then Ok ()
  else Err [report_invariant "arena_cert.passed"].
