(* ===== verification/ArenaFacts.v ===== *)
(** * Arena planning: lemmas

    Lexicographic orders and ordered maps, what collecting the slots leaves in
    the builders, and how an arena's slots and the arenas of a backing are
    placed one after the other. *)

From S2P Require Import Prelude Numeric KnobLattice KnobDelta Refinement KnobResolve RangeCert Arena ArenaCheck.

(** ** Lexicographic order *)

Lemma lex_compare_Eq a b : lex_compare a b = Eq <-> a = b.
Proof.
  revert b. induction a as [|x a IH]; intros [|y b]; simpl; [done|done|done|].
  destruct (Z.compare_spec x y); [rewrite IH; subst; split; congruence| |]; split; try discriminate; intros [= -> ->]; lia.
Qed.

Lemma lex_compare_antisym a b : lex_compare b a = CompOpp (lex_compare a b).
Proof.
  revert b. induction a as [|x a IH]; intros [|y b]; simpl; [done|done|done|].
  rewrite Z.compare_antisym. destruct (x ?= y); simpl; auto.
Qed.

Lemma lex_compare_Lt_trans a : forall b c, lex_compare a b = Lt -> lex_compare b c = Lt -> lex_compare a c = Lt.
Proof.
  induction a as [|x a IH]; intros [|y b] [|z c]; simpl; try done.
  destruct (Z.compare_spec x y), (Z.compare_spec y z), (Z.compare_spec x z); subst; try done; try lia. apply IH.
Qed.

Definition lex_lt (a b : list Z) : Prop := lex_compare a b = Lt.

Lemma lex_lt_irrefl a : ~ lex_lt a a.
Proof. unfold lex_lt. assert (lex_compare a a = Eq) as -> by by apply lex_compare_Eq. done. Qed.

Lemma lex_leb_spec a b : lex_leb a b = true <-> lex_lt a b \/ a = b.
Proof.
  unfold lex_leb, lex_lt. rewrite <- lex_compare_Eq. destruct (lex_compare a b); intuition discriminate.
Qed.

Lemma lex_leb_false a b : lex_leb a b = false <-> lex_lt b a.
Proof. unfold lex_leb, lex_lt. rewrite (lex_compare_antisym a b). by destruct (lex_compare a b). Qed.

Lemma elem_of_sort_by_key {A} (key : A -> list Z) l x : x ∈ sort_by_key key l <-> x ∈ l.
Proof. apply elem_of_sort_by. Qed.

(** ** Ordered maps *)

Section map_lemmas.
Context {K V : Type} (key : K -> list Z) `{!Inj (=) (=) key}.

Definition map_sorted (m : list (K * V)) : Prop := StronglySorted (fun x y => lex_lt (key x.1) (key y.1)) m.

(** What [map_alter] leaves under a key. *)
Lemma elem_of_map_alter f k (m : list (K * V)) x : map_sorted m ->
  x ∈ map_alter key f k m <-> (x ∈ m /\ x.1 <> k) \/ x = (k, f (map_get key k m)).
Proof.
  unfold map_sorted. induction m as [|[k' v] m IH]; intros Hs; simpl.
  { rewrite list_elem_of_singleton. set_solver. }
  apply StronglySorted_inv in Hs as [Hs Hall]. rewrite Forall_forall in Hall.
  destruct (lex_compare (key k) (key k')) eqn:Hc.
  - apply lex_compare_Eq, (inj key) in Hc as ->.
    rewrite !elem_of_cons. split.
    + intros [->|Hx]; [by right|]. left. split; [by right|]. intros <-.
      apply (lex_lt_irrefl (key x.1)). by apply (Hall x).
    + intros [[[->|Hx] Hne]| ->]; auto; by destruct Hne.
  - assert (forall y : K * V, y ∈ (k', v) :: m -> y.1 <> k) as Hne.
    { intros y Hy <-. assert (lex_lt (key y.1) (key y.1)) as []%lex_lt_irrefl.
      apply elem_of_cons in Hy as [->|Hy]; [done|]. eapply lex_compare_Lt_trans; [exact Hc|]. by apply (Hall y). }
    assert (map_get key k m = None) as ->.
    { clear -Hc Hall Inj0. induction m as [|[k2 v2] m IH]; [done|]. simpl.
      assert (lex_compare (key k) (key k2) = Lt) as ->.
      { eapply lex_compare_Lt_trans; [exact Hc|]. apply (Hall (k2, v2)). by left. }
      apply IH. intros y Hy. apply Hall. by right. }
    rewrite elem_of_cons. set_solver.
  - assert (k' <> k) as Hne by (intros ->; rewrite (proj2 (lex_compare_Eq _ _) eq_refl) in Hc; done).
    rewrite !elem_of_cons, IH by done. set_solver.
Qed.

Lemma map_alter_sorted f k (m : list (K * V)) : map_sorted m -> map_sorted (map_alter key f k m).
Proof.
  unfold map_sorted. induction m as [|[k' v] m IH]; intros Hs; simpl; [by repeat constructor|].
  pose proof Hs as Hs'. apply StronglySorted_inv in Hs as [Hs Hall].
  destruct (lex_compare (key k) (key k')) eqn:Hc.
  - constructor; [done|]. exact Hall.
  - constructor; [done|]. constructor; [exact Hc|].
    eapply Forall_impl; [exact Hall|]. intros y Hy. by eapply lex_compare_Lt_trans.
  - constructor; [by apply IH|]. apply Forall_forall. intros y Hy.
    apply elem_of_map_alter in Hy as [[Hy _]| ->]; [| |done].
    + rewrite Forall_forall in Hall. by apply Hall.
    + simpl. unfold lex_lt. by rewrite lex_compare_antisym, Hc.
Qed.

Lemma elem_of_map_get k v (m : list (K * V)) : map_sorted m -> (k, v) ∈ m <-> map_get key k m = Some v.
Proof.
  unfold map_sorted. induction m as [|[k' v'] m IH]; intros Hs; simpl; [set_solver|].
  apply StronglySorted_inv in Hs as [Hs Hall]. rewrite Forall_forall in Hall.
  rewrite elem_of_cons, IH by done.
  destruct (lex_compare (key k) (key k')) eqn:Hc.
  - apply lex_compare_Eq, (inj key) in Hc as ->. split; [|intros [= ->]; by left].
    intros [[= ->]|Hm]; [done|]. apply IH in Hm; [|done]. apply Hall in Hm. by apply lex_lt_irrefl in Hm.
  - split; [|auto]. intros [[= -> ->]|Hm]; [|done]. by apply lex_lt_irrefl in Hc.
  - split; [|auto]. intros [[= -> ->]|Hm]; [|done]. rewrite (proj2 (lex_compare_Eq _ _)) in Hc; done.
Qed.

Lemma map_get_unique k v v' (m : list (K * V)) : map_sorted m -> (k, v) ∈ m -> (k, v') ∈ m -> v = v'.
Proof. intros Hs. rewrite !elem_of_map_get by done. congruence. Qed.
End map_lemmas.

#[export] Instance named_key_inj : Inj (=) (=) named_key.
Proof. intros [] [] [=]; congruence. Qed.

#[export] Instance group_key_inj : Inj (=) (=) group_key.
Proof.
  intros [n a] [n' a'] H. unfold group_key in H; simpl in H.
  apply app_inj_tail in H as [H ->]. by apply named_key_inj in H as ->.
Qed.

(** Two elements of a sorted list, whichever comes first. *)
Lemma StronglySorted_pair {A} `{EqDecision A} (R : A -> A -> Prop) l x y :
  StronglySorted R l -> x ∈ l -> y ∈ l -> x <> y -> R x y \/ R y x.
Proof.
  induction 1 as [|z l Hl IH Hz]; intros Hx Hy Hne; [by apply elem_of_nil in Hx|].
  rewrite Forall_forall in Hz.
  apply elem_of_cons in Hx as [Hx|Hx]; apply elem_of_cons in Hy as [Hy|Hy].
  - congruence.
  - subst x. left. by apply Hz.
  - subst y. right. by apply Hz.
  - by apply IH.
Qed.

Lemma StronglySorted_snoc {A} (R : A -> A -> Prop) l x :
  StronglySorted R l -> (forall y, y ∈ l -> R y x) -> StronglySorted R (l ++ [x]).
Proof.
  intros Hl Hx. apply StronglySorted_app_2; [|done|by repeat constructor].
  intros y z Hy ->%list_elem_of_singleton. by apply Hx.
Qed.

Lemma wrap_small m x : 0 <= x < m -> wrap m x = x.
Proof. apply Z.mod_small. Qed.

(** ** Inputs whose numbers fit their types *)

Definition geometry_typed (g : PersistentPageGeometry) : Prop :=
  0 <= g.(pg_header_bytes) < U16 /\ 0 <= g.(pg_payload_bytes) < U32 /\
  0 <= g.(pg_commit_word_bytes) < U8 /\ 0 <= g.(pg_alignment) < U16.

Definition storage_typed (b : ArenaPlanBindingInput) : Prop :=
  0 <= b.(bi_size_bytes) < U32 /\ 0 <= b.(bi_binding).(sb_value) < U32 /\
  0 <= b.(bi_binding).(sb_alias_class) < U32 /\
  (forall page group, b.(bi_binding).(sb_materialization) = Persist page group ->
     0 <= page < U32 /\ 0 <= group < U32).

Definition sram_binding_typed (b : SramPageBinding) : Prop :=
  0 <= b.(spb_binding_id) < U32 /\ 0 <= b.(spb_page) < U8 /\ 0 <= b.(spb_commit_group) < U32 /\
  0 <= b.(spb_sequence_stream) < U32.

Definition region_typed (r : OverlayRegion) : Prop :=
  0 <= r.(or_id) < U32 /\ 0 <= r.(or_bytes) < U16 /\
  forall m, m ∈ r.(or_members) -> 0 <= m.(om_payload_bytes) < U32.

Record inputs_typed (i : ArenaPlanInputs) : Prop := {
  it_alignment : 0 <= i.(in_policy).(arena_alignment_default) < U16;
  it_geometry : geometry_typed i.(in_policy).(persistent_page_geometry);
  it_storage : forall b, b ∈ i.(in_storage) -> storage_typed b;
  it_sram : forall b, b ∈ i.(in_sram).(sp_bindings) -> sram_binding_typed b;
  it_regions : forall r, r ∈ i.(in_overlay).(op_regions) -> region_typed r;
}.

Lemma page_size_nonneg g : geometry_typed g -> 0 <= page_size_of g.
Proof. unfold geometry_typed, page_size_of, saturating_add. lia. Qed.

(** ** What the builders hold *)

Definition slot_in (n : NamedArena) (s : ArenaSlot) (bs : list (NamedArena * ArenaBuilder)) : Prop :=
  exists b, (n, b) ∈ bs /\ s ∈ b.(bu_slots).

Definition slot_collected (n : NamedArena) (s : ArenaSlot) : Prop :=
  0 <= s.(sl_size_bytes) < U16 /\ s.(sl_byte_offset) = 0 /\
  (is_continuation_header s = true -> n = WramContinuationRecord) /\
  (forall o m, s.(sl_binding_kind) <> Kind_OverlayMember o m).

Record builders_ok (bs : list (NamedArena * ArenaBuilder)) : Prop := {
  bo_sorted : map_sorted named_key bs;
  bo_named : forall n b, (n, b) ∈ bs -> b.(bu_backing) = backing_for n /\ is_overlay_region n = false;
  bo_slots : forall n s, slot_in n s bs -> slot_collected n s;
}.

Lemma builders_ok_nil : builders_ok [].
Proof. split; [constructor| |]; intros ? ?; [|intros (? & ? & _)]; set_solver. Qed.

Lemma slot_in_extend n backing slots bs n' s : map_sorted named_key bs ->
  slot_in n' s (extend_builder n backing slots bs) <-> slot_in n' s bs \/ (n' = n /\ s ∈ slots).
Proof.
  intros Hs. unfold slot_in, extend_builder.
  setoid_rewrite (elem_of_map_alter named_key); [|done].
  destruct (map_get named_key n bs) as [b0|] eqn:Hg; split.
  - intros (b & [[Hb Hne]|[= -> ->]] & Hin); [left; eauto|]. simpl in Hin.
    apply elem_of_app in Hin as [Hin|Hin]; [left; exists b0; split; [|done]; by apply (elem_of_map_get named_key)|by right].
  - intros [(b & Hb & Hin)|[-> Hin]].
    + destruct (decide (n' = n)) as [->|Hne]; [|exists b; split; [by left|done]].
      apply (elem_of_map_get named_key) in Hb; [|done]. assert (b0 = b) as -> by congruence.
      eexists. split; [by right|]. simpl. apply elem_of_app. by left.
    + eexists. split; [by right|]. simpl. apply elem_of_app. by right.
  - intros (b & [[Hb Hne]|[= -> ->]] & Hin); [left; eauto|by right].
  - intros [(b & Hb & Hin)|[-> Hin]]; [|eexists; split; [by right|done]].
    exists b. split; [|done]. left. split; [done|]. simpl. intros ->.
    apply (elem_of_map_get named_key) in Hb; [congruence|done].
Qed.

Lemma extend_builder_ok n slots bs : builders_ok bs -> is_overlay_region n = false ->
  (forall s, s ∈ slots -> slot_collected n s) ->
  builders_ok (extend_builder n (backing_for n) slots bs).
Proof.
  intros [Hs Hn Hsl] Ho Hslots. split.
  - by apply (map_alter_sorted named_key).
  - intros n' b. unfold extend_builder. intros Hin.
    apply (elem_of_map_alter named_key) in Hin; [|done]. destruct Hin as [[Hb _]|[= -> ->]]; [by apply Hn|]. split; [|done].
    destruct (map_get _ _ _) eqn:Hg; [|done]. simpl.
    apply (elem_of_map_get named_key) in Hg; [|done]. by apply Hn in Hg as [? _].
  - intros n' s. rewrite slot_in_extend by done. intros [H|[-> H]]; [by apply Hsl|by apply Hslots].
Qed.

Lemma add_runtime_slot_ok n kind size c : builders_ok c.(co_builders) -> is_overlay_region n = false ->
  0 <= size < U16 -> (kind = Fixed_WramContinuationHeader -> n = WramContinuationRecord) ->
  builders_ok (add_runtime_slot n (backing_for n) kind size c).(co_builders).
Proof.
  intros Hc Ho Hsz Hk. apply extend_builder_ok; [done|done|].
  intros s ->%list_elem_of_singleton. split_and!; simpl; [lia|lia|done| |done].
  unfold is_continuation_header. simpl. intros [= ->]%bool_decide_eq_true. by apply Hk.
Qed.

Lemma runtime_slots_ok next c : add_continuation_header_slot {| co_builders := []; co_next_slot := next |} = Ok c ->
  builders_ok c.(co_builders).
Proof.
  intros [= <-]. apply (add_runtime_slot_ok WramContinuationRecord); [apply builders_ok_nil|done|done|done].
Qed.

Lemma harness_slots_ok c c' : add_runtime_harness_slots c = Ok c' -> builders_ok c.(co_builders) ->
  builders_ok c'.(co_builders).
Proof.
  intros [= <-] H. apply (add_runtime_slot_ok SramHarnessResultBlock); [|done..].
  by apply (add_runtime_slot_ok SramHarnessCommandBlock).
Qed.

Lemma hram_slots_ok c : builders_ok c.(co_builders) -> builders_ok (add_runtime_hram_slots c).(co_builders).
Proof.
  intros H. unfold add_runtime_hram_slots. cbn [fold_left fst snd].
  apply (add_runtime_slot_ok HramYieldRequested); [|done..].
  apply (add_runtime_slot_ok HramSchedulerScratch); [|done..].
  apply (add_runtime_slot_ok HramFaultCode); [|done..].
  apply (add_runtime_slot_ok HramBankShadow); [|done..].
  by apply (add_runtime_slot_ok HramFrameFlags).
Qed.

(** *** Persistent pages *)

Definition pages_of (b : SramPageBinding) : NamedArena := SramSequenceStatePages b.(spb_sequence_stream).

(** A pair of the plan and the binding it comes from. *)
Definition pair_of (storage : gmap Z ArenaPlanBindingInput) (page_size : Z)
    (bs : list (NamedArena * ArenaBuilder)) (b : SramPageBinding) (x : PersistSlotPairBinding) : Prop :=
  x.(ps_value) = b.(spb_binding_id) /\ x.(ps_sram_page) = b.(spb_page) /\
  (exists si, storage !! b.(spb_binding_id) = Some si /\
     si.(bi_binding).(sb_materialization) = Persist x.(ps_persist_page) x.(ps_commit_group)) /\
  slot_in (pages_of b) (persistent_slot x.(ps_slot_a) b page_size true) bs /\
  slot_in (pages_of b) (persistent_slot x.(ps_slot_b) b page_size false) bs.

Record persist_inv (storage : gmap Z ArenaPlanBindingInput) (page_size : Z)
    (done : list SramPageBinding) (s : PersistState) : Prop := {
  pi_builders : builders_ok s.(pe_collected).(co_builders);
  pi_pairs : forall x, x ∈ s.(pe_pairs) -> exists b, b ∈ done /\
    pair_of storage page_size s.(pe_collected).(co_builders) b x;
  pi_bindings : forall b si page group, b ∈ done -> storage !! b.(spb_binding_id) = Some si ->
    si.(bi_binding).(sb_materialization) = Persist page group ->
    exists x, x ∈ s.(pe_pairs) /\ pair_of storage page_size s.(pe_collected).(co_builders) b x;
}.

Lemma pair_of_mono storage page_size bs bs' b x : (forall n s, slot_in n s bs -> slot_in n s bs') ->
  pair_of storage page_size bs b x -> pair_of storage page_size bs' b x.
Proof. intros H (? & ? & ? & ? & ?). split_and!; auto. Qed.

Lemma persist_pair_step storage ps done s b si page group : 0 <= ps < U16 ->
  persist_inv storage ps done s -> storage !! b.(spb_binding_id) = Some si ->
  si.(bi_binding).(sb_materialization) = Persist page group ->
  persist_inv storage ps (done ++ [b]) (add_persistent_pair ps b page group s).
Proof.
  intros Hps [Hb Hp Hd] Hsi Hm. pose proof (bo_sorted _ Hb) as Hs.
  unfold add_persistent_pair. rewrite wrap_small by done.
  set (bs' := extend_builder _ _ _ _).
  assert (forall n t, slot_in n t s.(pe_collected).(co_builders) -> slot_in n t bs') as Hmono.
  { intros n t Hin. unfold bs'. apply slot_in_extend; auto. }
  set (x := {| ps_value := b.(spb_binding_id) |}).
  assert (pair_of storage ps bs' b x) as Hx.
  { split_and!; [done|done|by exists si| |]; unfold bs'; apply slot_in_extend; try done; right; set_solver. }
  split; cbn [pe_collected co_builders pe_pairs].
  - unfold bs'. apply (extend_builder_ok (pages_of b)); [done|done|].
    intros t [->|[->|[]%elem_of_nil]%elem_of_cons]%elem_of_cons; split_and!; simpl; done || lia.
  - intros y [Hy| ->%list_elem_of_singleton]%elem_of_app; [|exists b; split; [set_solver|done]].
    apply Hp in Hy as (b' & Hb' & Hy). exists b'. split; [set_solver|]. by eapply pair_of_mono.
  - intros b' si' page' group' [Hb'| ->%list_elem_of_singleton]%elem_of_app Hsi' Hm'; [|exists x; split; [set_solver|done]].
    destruct (Hd _ _ _ _ Hb' Hsi' Hm') as (y & Hy & Hpy). exists y. split; [set_solver|]. by eapply pair_of_mono.
Qed.

Lemma persist_step storage ps done s b s' : 0 <= ps < U16 -> persist_inv storage ps done s ->
  add_persistent_binding storage ps s b = Ok s' -> persist_inv storage ps (done ++ [b]) s'.
Proof.
  intros Hps Hi. unfold add_persistent_binding. case_match eqn:Hcross; [done|].
  destruct (storage !! _) as [si|] eqn:Hsi; [|done].
  destruct (sb_materialization _) as [| |page group] eqn:Hm; intros [= <-];
    [| |by eapply persist_pair_step];
    (destruct Hi as [Hb Hp Hd]; split; [done| |];
     [intros x Hx; destruct (Hp x Hx) as (b' & ? & ?); exists b'; split; [set_solver|done]
     |intros b' si' page group [Hb'| ->%list_elem_of_singleton]%elem_of_app Hsi' Hm'; [by eapply Hd|congruence]]).
Qed.

Lemma persistent_slots_ok input c s : inputs_typed input -> builders_ok c.(co_builders) ->
  add_persistent_slots input c = Ok s ->
  persist_inv (storage_by_value input.(in_storage)) (page_size_of input.(in_policy).(persistent_page_geometry))
    input.(in_sram).(sp_bindings) s.
Proof.
  intros Hi Hc. unfold add_persistent_slots. case_match eqn:Hsz; [done|].
  apply orb_false_iff in Hsz as [_ Hsz%Z.ltb_ge]. pose proof (page_size_nonneg _ (it_geometry _ Hi)).
  apply (ofold_inv (persist_inv _ _) _ _ []).
  - split; [done| |]; intros *; set_solver.
  - intros pre b post t t' _. apply persist_step. lia.
Qed.

(** *** Groups of materialized values *)

Definition group_of (b : ArenaPlanBindingInput) : option (NamedArena * Z * LifetimeClass) :=
  match b.(bi_binding).(sb_materialization) with
  | Materialize class lifetime =>
      (fun n => (n, b.(bi_binding).(sb_alias_class), lifetime)) <$> arena_for class lifetime
  | _ => None
  end.

Record group_ok (done : list ArenaPlanBindingInput) (k : NamedArena * Z) (g : MaterializeGroup) : Prop := {
  gr_backing : g.(mg_backing) = backing_for k.1;
  gr_named : is_overlay_region k.1 = false;
  gr_size : 0 < g.(mg_size_bytes) < U16;
  gr_values : g.(mg_values) <> [];
  gr_from : forall v, v ∈ g.(mg_values) -> exists b, b ∈ done /\ b.(bi_binding).(sb_value) = v /\
    group_of b = Some (k, g.(mg_lifetime));
}.

(** The group a binding belongs to. *)
Definition grouped (groups : list (NamedArena * Z * MaterializeGroup)) (b : ArenaPlanBindingInput) : Prop :=
  exists k g, group_of b = Some (k, g.(mg_lifetime)) /\ (k, g) ∈ groups /\
    b.(bi_binding).(sb_value) ∈ g.(mg_values) /\ 0 < b.(bi_size_bytes) <= g.(mg_size_bytes).

Record groups_inv (done : list ArenaPlanBindingInput)
    (groups : list (NamedArena * Z * MaterializeGroup)) : Prop := {
  gi_sorted : map_sorted group_key groups;
  gi_groups : forall k g, (k, g) ∈ groups -> group_ok done k g;
  gi_bindings : forall b, b ∈ done -> is_materialize b = true -> grouped groups b;
}.

Lemma arena_for_not_overlay class lifetime n : arena_for class lifetime = Some n -> is_overlay_region n = false.
Proof. by destruct class, lifetime; intros [= <-]. Qed.

Lemma group_ok_mono done done' k g : (forall b, b ∈ done -> b ∈ done') -> group_ok done k g -> group_ok done' k g.
Proof. intros H [? ? ? ? Hf]. split; try done. intros v (b & ? & ?)%Hf. exists b. auto. Qed.

(** What a binding joins: a group of its lifetime, or a new one. *)
Lemma join_group_ok done groups b k lifetime : groups_inv done groups ->
  group_of b = Some (k, lifetime) -> 0 < b.(bi_size_bytes) < U16 -> is_overlay_region k.1 = false ->
  match map_get group_key k groups with
  | Some g => negb (bool_decide (g.(mg_lifetime) = lifetime)) | None => false end = false ->
  let g := join_group lifetime (backing_for k.1) b.(bi_size_bytes) b.(bi_binding).(sb_value)
             (map_get group_key k groups) in
  group_ok (done ++ [b]) k g /\ g.(mg_lifetime) = lifetime /\ b.(bi_binding).(sb_value) ∈ g.(mg_values) /\
  b.(bi_size_bytes) <= g.(mg_size_bytes) /\
  (forall g0, (k, g0) ∈ groups -> g0.(mg_lifetime) = lifetime /\ g0.(mg_size_bytes) <= g.(mg_size_bytes) /\
     forall v, v ∈ g0.(mg_values) -> v ∈ g.(mg_values)).
Proof.
  intros [Hs Hg _] Hb Hsz Ho Hother.
  assert (forall g0, (k, g0) ∈ groups <-> map_get group_key k groups = Some g0) as Hget
    by (intros; by apply (elem_of_map_get group_key)).
  destruct (map_get group_key k groups) as [g|]; simpl.
  - apply negb_false_iff, bool_decide_eq_true in Hother as Hl.
    destruct (Hg k g (proj2 (Hget g) eq_refl)) as [? ? ? ? Hf].
    split_and!; [|done|set_solver|lia|intros g0 [= <-]%Hget; split_and!; [done|simpl; lia|set_solver]].
    split; simpl; [done|done|lia|by destruct (mg_values g)|].
    intros v [(b' & ? & ? & ?)%Hf| ->%list_elem_of_singleton]%elem_of_app; [exists b'|exists b]; split_and!; set_solver.
  - split_and!; [|done|set_solver|lia|by intros g0 ?%Hget].
    split; simpl; [done|done|lia|done|].
    intros v ->%list_elem_of_singleton. exists b. split_and!; [set_solver|done|done].
Qed.

Lemma groups_step done groups b groups' : storage_typed b -> groups_inv done groups ->
  add_to_group groups b = Ok groups' -> groups_inv (done ++ [b]) groups'.
Proof.
  intros Ht Hi. unfold add_to_group.
  assert (is_materialize b = false -> groups_inv (done ++ [b]) groups) as Hskip.
  { intros Hm. destruct Hi as [Hs Hg Hb]. split; [done| |].
    - intros k g Hk. eapply group_ok_mono; [|by apply Hg]. set_solver.
    - intros b' [Hb'| ->%list_elem_of_singleton]%elem_of_app Hmb; [by apply Hb|congruence]. }
  destruct (sb_materialization _) as [|class lifetime|] eqn:Hm;
    [intros [= <-]; apply Hskip; unfold is_materialize; by rewrite Hm| |intros [= <-]; apply Hskip; unfold is_materialize; by rewrite Hm].
  case_match eqn:Hsz; [done|]. apply orb_false_iff in Hsz as [H0%Z.eqb_neq H1%Z.ltb_ge].
  assert (0 < b.(bi_size_bytes) < U16) as Hsz by (destruct Ht as [? _]; lia).
  destruct (arena_for class lifetime) as [n|] eqn:Hn; [|done].
  rewrite wrap_small by lia. set (k := (n, _)) in *.
  case_match eqn:Hother; [done|]. intros [= <-].
  assert (group_of b = Some (k, lifetime)) as Hb by (unfold group_of; by rewrite Hm, Hn).
  destruct (join_group_ok done groups b k lifetime Hi Hb Hsz (arena_for_not_overlay _ _ _ Hn) Hother)
    as (Hok & Hl & Hv & Hge & Hold).
  destruct Hi as [Hs Hg Hbs]. change (backing_for n) with (backing_for k.1). split.
  - by apply (map_alter_sorted group_key).
  - intros k' g Hin. apply (elem_of_map_alter group_key) in Hin; [|done].
    destruct Hin as [[Hin _]|[= -> ->]]; [|done]. eapply group_ok_mono; [|by apply Hg]. set_solver.
  - intros b' [Hb'| ->%list_elem_of_singleton]%elem_of_app Hmb.
    + destruct (Hbs b' Hb' Hmb) as (k' & g & Hgo & Hin & Hv' & Hsz').
      destruct (decide (k' = k)) as [->|Hne].
      * destruct (Hold g Hin) as (Hgl & Hgs & Hgv). eexists k, _.
        split_and!; [|apply (elem_of_map_alter group_key); [done|by right]|by apply Hgv|lia|lia]. congruence.
      * exists k', g. split_and!; [done|apply (elem_of_map_alter group_key); [done|by left]|done|lia|lia].
    + eexists k, _. split_and!; [|apply (elem_of_map_alter group_key); [done|by right]|done|lia|lia]. congruence.
Qed.

Lemma groups_ok input groups : inputs_typed input -> ofold add_to_group [] input.(in_storage) = Ok groups ->
  groups_inv input.(in_storage) groups.
Proof.
  intros Hi. apply (ofold_inv groups_inv _ _ []).
  - split; [constructor| |]; intros *; set_solver.
  - intros pre b post t t' Heq. apply groups_step. apply Hi. simpl in Heq. rewrite Heq. set_solver.
Qed.

(** *** The slot of a group *)

Definition group_slot (id : Z) (k : NamedArena * Z) (g : MaterializeGroup) (s : ArenaSlot) : Prop :=
  s.(sl_id) = id /\ s.(sl_byte_offset) = 0 /\ s.(sl_size_bytes) = g.(mg_size_bytes) /\
  s.(sl_alias_class_id) = Some k.2 /\ s.(sl_lifetime_class) = g.(mg_lifetime) /\
  s.(sl_binding_kind) = MaterializedValue.

(** [ids] are the slots of the groups placed so far. *)
Record placed_inv (done : list (NamedArena * Z * MaterializeGroup)) (ids : list Z)
    (s : MaterializeState) : Prop := {
  pv_builders : builders_ok s.(ma_collected).(co_builders);
  pv_length : length ids = length done;
  pv_slots : forall i k g id, done !! i = Some (k, g) -> ids !! i = Some id ->
    exists t, slot_in k.1 t s.(ma_collected).(co_builders) /\ group_slot id k g t;
  pv_only : forall n t, slot_in n t s.(ma_collected).(co_builders) ->
    t.(sl_binding_kind) = MaterializedValue ->
    exists i k g, done !! i = Some (k, g) /\ ids !! i = Some t.(sl_id) /\ k.1 = n /\
      t.(sl_alias_class_id) = Some k.2;
  pv_bindings : forall x, x ∈ s.(ma_bindings) <->
    exists i k g, done !! i = Some (k, g) /\ ids !! i = Some x.(ms_slot) /\ x.(ms_value) ∈ g.(mg_values);
}.

Lemma lookup_snoc_cases {A B} (l : list A) (m : list B) x y i a b : length m = length l ->
  (l ++ [x]) !! i = Some a -> (m ++ [y]) !! i = Some b ->
  (l !! i = Some a /\ m !! i = Some b) \/ (a = x /\ b = y).
Proof.
  intros Hlen [Ha|[La Ha]]%lookup_app_Some [Hb|[Lb Hb]]%lookup_app_Some.
  - auto.
  - apply lookup_lt_Some in Ha. lia.
  - apply lookup_lt_Some in Hb. lia.
  - destruct (i - length l)%nat, (i - length m)%nat; try done. right.
    simpl in Ha, Hb. split; congruence.
Qed.

Lemma place_group_step done ids s k g s' : placed_inv done ids s ->
  g.(mg_backing) = backing_for k.1 -> is_overlay_region k.1 = false -> 0 < g.(mg_size_bytes) < U16 ->
  place_group s (k, g) = Ok s' ->
  placed_inv (done ++ [(k, g)]) (ids ++ [s.(ma_collected).(co_next_slot)]) s'.
Proof.
  intros [Hb Hlen Hsl Ho Hbi] Hback Hov Hsz. unfold place_group. simpl.
  destruct (sort_by Z.leb g.(mg_values)) as [|v vs] eqn:Hv; [done|]. intros [= <-].
  assert (forall w, w ∈ g.(mg_values) <-> w ∈ v :: vs) as Hin by (intros w; by rewrite <- Hv, elem_of_sort_by).
  set (t := {| sl_id := _ |}). rewrite Hback. set (bs' := extend_builder _ _ _ _).
  set (id := s.(ma_collected).(co_next_slot)) in *.
  assert (forall n u, slot_in n u bs' <-> slot_in n u s.(ma_collected).(co_builders) \/ (n = k.1 /\ u = t)) as Hbs.
  { intros n u. unfold bs'. rewrite slot_in_extend by apply Hb. by rewrite list_elem_of_singleton. }
  split; cbn [ma_collected co_builders ma_bindings].
  - apply extend_builder_ok; [done|done|]. intros u ->%list_elem_of_singleton. split_and!; simpl; done || lia.
  - rewrite !length_app. simpl. lia.
  - intros i k' g' id' Hd Hi. destruct (lookup_snoc_cases _ _ _ _ _ _ _ Hlen Hd Hi) as [[? ?]|[[= -> ->] ->]].
    + destruct (Hsl i k' g' id') as (u & ? & ?); [done|done|]. exists u. rewrite Hbs. auto.
    + exists t. rewrite Hbs. split; [auto|done].
  - intros n u [Hu|[-> ->]]%Hbs Hk.
    + destruct (Ho n u Hu Hk) as (i & k' & g' & Hd & Hi & ? & ?). exists i, k', g'.
      split_and!; [by apply lookup_app_l_Some|by apply lookup_app_l_Some|done|done].
    + exists (length done), k, g. rewrite lookup_app_r, Nat.sub_diag by done.
      rewrite lookup_app_r, Hlen, Nat.sub_diag by lia. done.
  - intros x. rewrite elem_of_app, Hbi. split.
    + intros [(i & k' & g' & Hd & Hi & ?)|Hx].
      * exists i, k', g'. split_and!; [by apply lookup_app_l_Some|by apply lookup_app_l_Some|done].
      * change (x ∈ map (fun v => {| ms_value := v; ms_slot := id |}) (v :: vs)) in Hx.
        apply (list_elem_of_fmap_1 (fun v => {| ms_value := v; ms_slot := id |})) in Hx as (w & -> & Hw).
        exists (length done), k, g. rewrite lookup_app_r, Nat.sub_diag by done.
        rewrite lookup_app_r, Hlen, Nat.sub_diag by lia. split_and!; [done|done|by apply Hin].
    + intros (i & k' & g' & Hd & Hi & Hw).
      destruct (lookup_snoc_cases _ _ _ _ _ _ _ Hlen Hd Hi) as [[? ?]|[[= -> ->] Hid]]; [left; eauto 6|right].
      destruct x as [w sl]; simpl in *. subst sl.
      change ({| ms_value := w; ms_slot := id |} ∈ map (fun v => {| ms_value := v; ms_slot := id |}) (v :: vs)).
      apply (list_elem_of_fmap_2 (fun v => {| ms_value := v; ms_slot := id |})). by apply Hin.
Qed.

(** Before the values are placed no slot holds one. *)
Definition no_values (bs : list (NamedArena * ArenaBuilder)) : Prop :=
  forall n s, slot_in n s bs -> s.(sl_binding_kind) <> MaterializedValue.

Lemma materialized_slots_ok input c s : inputs_typed input -> builders_ok c.(co_builders) ->
  no_values c.(co_builders) -> add_materialized_slots input c = Ok s ->
  exists groups ids, groups_inv input.(in_storage) groups /\ placed_inv groups ids s.
Proof.
  intros Hi Hc Hnv. unfold add_materialized_slots. intros H. inv_ok. rename x into groups.
  pose proof (groups_ok _ _ Hi Hx) as Hg. exists groups.
  enough (exists ids, placed_inv ([] ++ groups) ids s) as [ids ?] by by exists ids.
  revert H. apply (ofold_inv (fun done s => exists ids, placed_inv done ids s) place_group groups []).
  - exists []. split; cbn [ma_collected ma_bindings]; [done|done|done| |].
    + intros n t Ht Hk. by destruct (Hnv n t Ht).
    + intros x. split; [set_solver|]. intros (i & k & g & Hx' & _). done.
  - intros pre [k g] post t t' Heq [ids Hp] Hst. simpl in Heq. rewrite Heq in Hg.
    destruct (gi_groups _ _ Hg k g) as [? ? ? ? ?]; [set_solver|].
    eexists. by eapply place_group_step.
Qed.

(** *** All slots *)

Lemma no_values_extend n backing slots bs : map_sorted named_key bs -> no_values bs ->
  (forall s, s ∈ slots -> s.(sl_binding_kind) <> MaterializedValue) ->
  no_values (extend_builder n backing slots bs).
Proof. intros Hs Hn Hsl n' s [H|[_ H]]%slot_in_extend; [by eapply Hn|by apply Hsl|done]. Qed.

Lemma no_values_runtime n backing kind size c : map_sorted named_key c.(co_builders) ->
  no_values c.(co_builders) ->
  map_sorted named_key (add_runtime_slot n backing kind size c).(co_builders) /\
  no_values (add_runtime_slot n backing kind size c).(co_builders).
Proof.
  intros Hs Hn. split; [by apply (map_alter_sorted named_key)|].
  apply no_values_extend; [done|done|]. by intros s ->%list_elem_of_singleton.
Qed.

Lemma runtime_no_values next c c' : add_continuation_header_slot {| co_builders := []; co_next_slot := next |} = Ok c ->
  add_runtime_harness_slots c = Ok c' -> no_values (add_runtime_hram_slots c').(co_builders).
Proof.
  intros [= <-] [= <-]. unfold add_runtime_hram_slots. cbn [fold_left fst snd].
  apply no_values_runtime; repeat (apply no_values_runtime || (eapply proj1, no_values_runtime));
    first [constructor | intros n s (b & []%elem_of_nil & _)].
Qed.

Lemma persistent_no_values input c s : builders_ok c.(co_builders) -> no_values c.(co_builders) ->
  add_persistent_slots input c = Ok s -> no_values s.(pe_collected).(co_builders).
Proof.
  intros Hc Hn. unfold add_persistent_slots. case_match; [done|].
  intros Hf. apply (ofold_inv' (fun s => map_sorted named_key s.(pe_collected).(co_builders) /\
    no_values s.(pe_collected).(co_builders))) in Hf; [by apply Hf|by split; [apply Hc|]|].
  intros b t t' _ [Hs Ht]. unfold add_persistent_binding. case_match; [done|].
  destruct (storage_by_value _ !! _); [|done]. destruct (sb_materialization _); intros [= <-]; [done|done|].
  simpl. split; [by apply (map_alter_sorted named_key)|].
  apply no_values_extend; [done|done|].
  by intros u [->|[->|[]%elem_of_nil]%elem_of_cons]%elem_of_cons.
Qed.

(** What the collected slots are: the pairs of the persistent pages and the
    slots of the groups, in builders that are well formed. *)
Record slots_ok (input : ArenaPlanInputs) (pe : PersistState) (ma : MaterializeState) : Prop := {
  so_persist : persist_inv (storage_by_value input.(in_storage))
    (page_size_of input.(in_policy).(persistent_page_geometry)) input.(in_sram).(sp_bindings) pe;
  so_groups : exists groups ids, groups_inv input.(in_storage) groups /\ placed_inv groups ids ma;
  so_mono : forall n s, slot_in n s pe.(pe_collected).(co_builders) ->
    slot_in n s ma.(ma_collected).(co_builders);
}.

Lemma place_groups_mono groups : forall s s', map_sorted named_key s.(ma_collected).(co_builders) ->
  ofold place_group s groups = Ok s' ->
  forall n t, slot_in n t s.(ma_collected).(co_builders) -> slot_in n t s'.(ma_collected).(co_builders).
Proof.
  induction groups as [|x groups IH]; intros s s' Hs H n t Hin; [by injection H as <-|].
  cbn [ofold] in H. apply obind_Ok in H as (s1 & H1 & H).
  unfold place_group in H1. case_match; [done|]. injection H1 as <-.
  eapply IH; [|exact H|]; simpl; [by apply (map_alter_sorted named_key)|].
  apply slot_in_extend; [done|by left].
Qed.

Lemma collect_slots_ok input next r : inputs_typed input -> collect_slots input next = Ok r ->
  slots_ok input r.1 r.2.
Proof.
  intros Hi. unfold collect_slots. intros H. inv_ok. simpl.
  pose proof (runtime_slots_ok _ _ Hx) as H1. pose proof (harness_slots_ok _ _ Hx0 H1) as H2.
  pose proof (hram_slots_ok _ H2) as H3. pose proof (runtime_no_values _ _ _ Hx Hx0) as Hn.
  pose proof (persistent_slots_ok _ _ _ Hi H3 Hx1) as H4.
  pose proof (persistent_no_values _ _ _ H3 Hn Hx1) as Hn'.
  split; [done|eapply materialized_slots_ok; [done|apply H4|done|done]|].
  unfold add_materialized_slots in Hx2. inv_ok.
  intros n s Hin. refine (place_groups_mono _ _ _ _ Hx2 n s Hin). apply H4.
Qed.

(** ** Placing slots *)

Lemma align_up_bounds v a : 0 <= v < U32 -> 0 <= a -> v <= align_up v a < U32.
Proof.
  intros Hv Ha. unfold align_up, saturating_mul. destruct (Z.leb_spec a 1); [lia|].
  pose proof (div_ceil_spec v a ltac:(lia) ltac:(lia)). lia.
Qed.

Definition slot_end (s : ArenaSlot) : Z := s.(sl_byte_offset) + s.(sl_size_bytes).

Definition slot_before (s t : ArenaSlot) : Prop :=
  is_continuation_header s = true \/ is_continuation_header t = true \/ slot_end s <= t.(sl_byte_offset).

Record place_inv (c0 : Z) (done : list ArenaSlot) (st : list ArenaSlot * Z) : Prop := {
  pc_cursor : c0 <= st.2 < U32;
  pc_same : Forall2 (fun s t => t = set_offset t.(sl_byte_offset) s /\
    (is_continuation_header s = true -> t = s)) done st.1;
  pc_bounds : forall s, s ∈ st.1 -> is_continuation_header s = false ->
    c0 <= s.(sl_byte_offset) < U16 /\ slot_end s <= st.2;
  pc_sorted : StronglySorted slot_before st.1;
}.

Lemma set_offset_id s : set_offset s.(sl_byte_offset) s = s.
Proof. by destruct s. Qed.

Lemma header_set_offset o s : is_continuation_header (set_offset o s) = is_continuation_header s.
Proof. done. Qed.

Lemma place_slot_step a c0 done st s st' : 0 <= a -> 0 <= c0 -> 0 <= s.(sl_size_bytes) < U16 ->
  place_inv c0 done st -> place_slot a st s = Ok st' -> place_inv c0 (done ++ [s]) st'.
Proof.
  intros Ha Hc Hsz [Hcur Hsame Hb Hso]. unfold place_slot.
  destruct (is_continuation_header s) eqn:Hh.
  { intros [= <-]. split; cbn [fst snd]; [done| | |].
    - apply Forall2_app; [done|]. constructor; [|done]. split; [by rewrite set_offset_id|done].
    - intros t [Ht| ->%list_elem_of_singleton]%elem_of_app Hth; [by apply Hb|congruence].
    - apply StronglySorted_snoc; [done|]. intros t _. right. by left. }
  pose proof (align_up_bounds st.2 a ltac:(lia) Ha) as Hal.
  destruct (try_from_u _ _) as [o|] eqn:Ho; [|done]. apply try_from_u_Some in Ho as [Ho ->].
  intros [= <-]. unfold saturating_add.
  set (t := set_offset _ s).
  assert (slot_end t = align_up st.2 a + s.(sl_size_bytes)) as Hend by done.
  split; cbn [fst snd]; [lia| | |].
  - apply Forall2_app; [done|]. constructor; [|done]. split; [done|congruence].
  - intros u [Hu| ->%list_elem_of_singleton]%elem_of_app Hth.
    + destruct (Hb u Hu Hth). lia.
    + rewrite Hend. change (t.(sl_byte_offset)) with (align_up st.2 a). lia.
  - apply StronglySorted_snoc; [done|]. intros u Hu.
    destruct (is_continuation_header u) eqn:Hhu; [by left|]. do 2 right.
    change (t.(sl_byte_offset)) with (align_up st.2 a). destruct (Hb u Hu Hhu). lia.
Qed.

Lemma place_slots_ok a c0 l st : 0 <= a -> 0 <= c0 < U32 -> (forall s, s ∈ l -> 0 <= s.(sl_size_bytes) < U16) ->
  ofold (place_slot a) ([], c0) l = Ok st -> place_inv c0 l st.
Proof.
  intros Ha Hc Hl. apply (ofold_inv (place_inv c0) _ _ []).
  - split; cbn [fst snd]; [lia|constructor|set_solver|constructor].
  - intros pre s post t t' Heq. apply place_slot_step; [done|lia|]. apply Hl. simpl in Heq. rewrite Heq. set_solver.
Qed.

(** ** One arena *)

(** Two slots of an arena that may overlap: members of its overlay region. *)
Definition region_members (a : ArenaInstance) (s t : ArenaSlot) : Prop :=
  exists r m m', a.(ar_named) = WramOverlayRegion r /\
    s.(sl_binding_kind) = Kind_OverlayMember r m /\ t.(sl_binding_kind) = Kind_OverlayMember r m'.

Record arena_ok (a : ArenaInstance) : Prop := {
  ao_backing : a.(ar_backing) = backing_for a.(ar_named);
  ao_range : 0 <= a.(ar_byte_range).(br_start) < U16 /\ 0 <= a.(ar_byte_range).(br_len) < U16;
  ao_inside : forall s, s ∈ a.(ar_slots) -> 0 <= s.(sl_byte_offset) < U16 /\ 0 <= s.(sl_size_bytes) < U16 /\
    slot_end s <= a.(ar_byte_range).(br_len);
  ao_apart : forall s t, s ∈ a.(ar_slots) -> t ∈ a.(ar_slots) -> s <> t ->
    slot_end s <= t.(sl_byte_offset) \/ slot_end t <= s.(sl_byte_offset) \/ region_members a s t;
}.

(** The arena holds the builder's slots, moved to their offsets. *)
Record holds (b : ArenaBuilder) (a : ArenaInstance) : Prop := {
  ho_slots : forall s, s ∈ b.(bu_slots) -> exists o, set_offset o s ∈ a.(ar_slots);
  ho_only : forall t, t ∈ a.(ar_slots) -> exists s, s ∈ b.(bu_slots) /\ t = set_offset t.(sl_byte_offset) s;
}.

(** The cursor after the header, and the slots that are placed after it. *)
Lemma header_placed n slots r : (forall s, s ∈ slots -> slot_collected n s) ->
  (if bool_decide (n = WramContinuationRecord) then place_continuation_header slots else Ok (slots, 0)) = Ok r ->
  r.1 = slots /\ 0 <= r.2 < U32 /\
  (forall s, s ∈ slots -> is_continuation_header s = true -> s.(sl_size_bytes) = r.2) /\
  (forall s t, s ∈ slots -> t ∈ slots -> is_continuation_header s = true -> is_continuation_header t = true -> s = t).
Proof.
  intros Hs. case_bool_decide as Hn.
  - unfold place_continuation_header. destruct (filter _ slots) as [|h others] eqn:Hf; [done|].
    case_match eqn:Hc; [done|]. apply orb_false_iff in Hc as [Ho%negb_false_iff%bool_decide_eq_true Hsz%negb_false_iff%Z.eqb_eq].
    subst others. intros [= <-].
    assert (forall s, s ∈ slots -> is_continuation_header s = true -> s = h) as Hu.
    { intros s Hin Hh. apply list_elem_of_singleton. rewrite <- Hf. by apply list_elem_of_filter. }
    cbn [fst snd]. split_and!; [|done|done| |].
    + rewrite <- (map_id slots) at 2. apply map_ext_in. intros s Hin%list_elem_of_In.
      destruct (is_continuation_header s); [|done]. destruct (Hs s Hin) as (_ & H0 & _). rewrite <- H0. apply set_offset_id.
    + intros s Hin Hh. by rewrite (Hu s Hin Hh).
    + intros s t Hin Hin' Hh Hh'. by rewrite (Hu s Hin Hh), (Hu t Hin' Hh').
  - intros [= <-]. cbn [fst snd].
    assert (forall s, s ∈ slots -> is_continuation_header s = true -> False) as Hno.
    { intros s Hin Hc. destruct (Hs s Hin) as (_ & _ & Hh & _). by apply Hh in Hc. }
    split_and!; try done; [intros s|intros s t]; intros; by destruct (Hno s).
Qed.

Lemma placed_from c0 l st t : place_inv c0 l st -> t ∈ st.1 ->
  exists s, s ∈ l /\ t = set_offset t.(sl_byte_offset) s /\ (is_continuation_header s = true -> t = s).
Proof.
  intros [_ Hsame _ _] [i Hi]%list_elem_of_lookup_1.
  destruct (Forall2_lookup_r _ _ _ i t Hsame Hi) as (s & Hs & ? & ?).
  exists s. split; [by eapply list_elem_of_lookup_2|done].
Qed.

Lemma placed_into c0 l st s : place_inv c0 l st -> s ∈ l -> exists o, set_offset o s ∈ st.1.
Proof.
  intros [_ Hsame _ _] [i Hi]%list_elem_of_lookup_1.
  destruct (Forall2_lookup_l _ _ _ i s Hsame Hi) as (t & Ht & Heq & _).
  exists t.(sl_byte_offset). rewrite <- Heq. by eapply list_elem_of_lookup_2.
Qed.

(** Slots placed after the header do not overlap. *)
Lemma placed_apart n (slots : list ArenaSlot) c0 (l : list ArenaSlot) st : 0 <= c0 -> (forall s, s ∈ slots -> slot_collected n s) -> (forall s, s ∈ l <-> s ∈ slots) ->
  (forall s, s ∈ slots -> is_continuation_header s = true -> s.(sl_size_bytes) = c0) ->
  (forall s t, s ∈ slots -> t ∈ slots -> is_continuation_header s = true -> is_continuation_header t = true -> s = t) ->
  place_inv c0 l st ->
  (forall s, s ∈ st.1 -> 0 <= s.(sl_byte_offset) < U16 /\ 0 <= s.(sl_size_bytes) < U16 /\ slot_end s <= st.2) /\
  (forall s t, s ∈ st.1 -> t ∈ st.1 -> s <> t -> slot_end s <= t.(sl_byte_offset) \/ slot_end t <= s.(sl_byte_offset)).
Proof.
  intros Hc Hs Hl Hh Hu Hp.
  assert (forall t, t ∈ st.1 -> 0 <= t.(sl_size_bytes) < U16 /\
    (is_continuation_header t = true -> t ∈ slots /\ t.(sl_byte_offset) = 0 /\ slot_end t = c0)) as Ht.
  { intros t Hin. destruct (placed_from _ _ _ _ Hp Hin) as (s & Hsl%Hl & Heq & Heqh).
    destruct (Hs s Hsl) as (Hsz & H0 & _). split; [by rewrite Heq|].
    intros Hth. assert (is_continuation_header s = true) as Hsh by (by rewrite <- Hth, Heq).
    rewrite (Heqh Hsh). unfold slot_end. rewrite H0, (Hh s Hsl Hsh). split_and!; [done|done|lia]. }
  pose proof (pc_cursor _ _ _ Hp). split.
  - intros s Hin. destruct (Ht s Hin) as [Hsz Hsh]. destruct (is_continuation_header s) eqn:He.
    + destruct (Hsh eq_refl) as (_ & H0 & Hend). lia.
    + destruct (pc_bounds _ _ _ Hp s Hin He). unfold slot_end in *. lia.
  - assert (forall s t, s ∈ st.1 -> t ∈ st.1 -> s <> t -> slot_before s t ->
      slot_end s <= t.(sl_byte_offset) \/ slot_end t <= s.(sl_byte_offset)) as Hb.
    { intros s t Hin Hin' Hne Hst. destruct (Ht s Hin) as [_ Hsh], (Ht t Hin') as [_ Hth].
      destruct (is_continuation_header s) eqn:He, (is_continuation_header t) eqn:He'.
      - destruct (Hsh eq_refl) as (Hss & _), (Hth eq_refl) as (Hts & _). destruct Hne. by apply Hu.
      - destruct (Hsh eq_refl) as (_ & _ & ->). left. destruct (pc_bounds _ _ _ Hp t Hin' He'). lia.
      - destruct (Hth eq_refl) as (_ & _ & ->). right. destruct (pc_bounds _ _ _ Hp s Hin He). lia.
      - destruct Hst as [Hst|[Hst|Hst]]; [congruence|congruence|by left]. }
    intros s t Hin Hin' Hne.
    destruct (StronglySorted_pair _ _ s t (pc_sorted _ _ _ Hp) Hin Hin' Hne) as [?|?]; [by apply Hb|].
    apply or_comm. apply Hb; auto.
Qed.

Lemma finalize_ok input n b cursors id a cursors' : inputs_typed input ->
  (forall s, s ∈ b.(bu_slots) -> slot_collected n s) -> b.(bu_backing) = backing_for n ->
  finalize_builder input n b cursors id = Ok (a, cursors') ->
  arena_ok a /\ holds b a /\ a.(ar_named) = n /\ a.(ar_id) = id /\
  a.(ar_byte_range).(br_start) = cursor_of (backing_for n) cursors /\
  range_end a.(ar_byte_range) <= cap_of input (backing_for n) /\
  cursors' = set_cursor (backing_for n) (range_end a.(ar_byte_range)) cursors.
Proof.
  intros Hi Hs Hback. unfold finalize_builder. intros H.
  apply obind_Ok in H as (h & Hh & H). apply obind_Ok in H as (st & Hst & H).
  destruct (header_placed _ _ _ Hs Hh) as (Hslots & Hc0 & Hsize & Huniq).
  destruct (it_alignment _ Hi) as [Ha _].
  assert (forall s, s ∈ sort_by_key slot_key h.1 <-> s ∈ b.(bu_slots)) as Hl
    by (intros s; by rewrite elem_of_sort_by_key, Hslots).
  apply place_slots_ok in Hst as Hp; [|done|done|intros s Hin%Hl; by apply Hs].
  destruct (placed_apart _ _ _ _ _ (proj1 Hc0) Hs Hl Hsize Huniq Hp) as [Hin Hap].
  pose proof (pc_cursor _ _ _ Hp).
  pose proof (align_up_bounds st.2 input.(in_policy).(arena_alignment_default) ltac:(lia) Ha) as Hal.
  unfold take_range in H. destruct (try_from_u U16 (cursor_of _ _)) as [start|] eqn:Hstart; [|done].
  destruct (try_from_u U16 (align_up _ _)) as [len|] eqn:Hlen; [|done].
  apply try_from_u_Some in Hstart as [Hstart ->], Hlen as [Hlen ->].
  destruct (_ <? range_end _) eqn:Hcap; [done|]. apply Z.ltb_ge in Hcap.
  rewrite wrap_small in * by done. rewrite Hback in *. injection H as <- <-.
  split_and!; try done.
  - split; cbn [ar_backing ar_named ar_byte_range ar_slots br_start br_len]; [done|done| |].
    + intros s Hsin. destruct (Hin s Hsin) as (? & ? & ?). lia.
    + intros s t ? ? ?. destruct (Hap s t); auto.
  - split; cbn [ar_slots].
    + intros s Hsin. by apply (placed_into _ _ _ _ Hp), Hl.
    + intros t Ht. destruct (placed_from _ _ _ _ Hp Ht) as (s & Hsin%Hl & Heq & _). by exists s.
  - f_equal. unfold range_end, saturating_add. simpl. lia.
Qed.
