(* ===== verification/ArenaPlanFacts.v ===== *)
(** * Arena planning: the arenas of a plan

    The overlay regions come first in work RAM, then the builders' arenas, each
    backing filled from its own cursor; what an assembled plan holds. *)

From S2P Require Import Prelude Numeric KnobLattice KnobDelta Refinement KnobResolve RangeCert Arena ArenaCheck ArenaFacts.

Definition arena_before (a b : ArenaInstance) : Prop :=
  range_end a.(ar_byte_range) <= b.(ar_byte_range).(br_start).

(** ** Overlay regions *)

Lemma overlay_members_ok r l : forall st st', region_typed r -> (forall m, m ∈ l -> m ∈ r.(or_members)) ->
  (forall s, s ∈ st.2 -> s.(sl_byte_offset) = 0 /\ 0 <= s.(sl_size_bytes) <= r.(or_bytes) /\
     exists m, s.(sl_binding_kind) = Kind_OverlayMember r.(or_id) m) ->
  ofold (overlay_member r) st l = Ok st' ->
  forall s, s ∈ st'.2 -> s.(sl_byte_offset) = 0 /\ 0 <= s.(sl_size_bytes) <= r.(or_bytes) /\
     exists m, s.(sl_binding_kind) = Kind_OverlayMember r.(or_id) m.
Proof.
  induction l as [|m l IH]; intros st st' Hr Hl Hst; [by intros [= <-]|].
  cbn [ofold]. intros H. apply obind_Ok in H as (st1 & H1 & H).
  unfold overlay_member in H1. destruct (_ <? _) eqn:Hlt; [done|]. apply Z.ltb_ge in Hlt. injection H1 as <-.
  eapply IH; [done|by intros; apply Hl; right| |exact H]. cbn [snd].
  intros s [Hs| ->%list_elem_of_singleton]%elem_of_app; [by apply Hst|]. simpl.
  destruct Hr as (_ & Hb & Hm). pose proof (Hm m (Hl m ltac:(by left))).
  rewrite wrap_small by lia. split_and!; [done|lia|lia|eauto].
Qed.

Record overlay_inv (st : OverlayState) : Prop := {
  ol_cursor : 0 <= st.(ov_cursor) < U32;
  ol_arenas : forall a, a ∈ st.(ov_arenas) -> arena_ok a /\ is_overlay_region a.(ar_named) = true /\
    range_end a.(ar_byte_range) <= st.(ov_cursor);
  ol_sorted : StronglySorted arena_before st.(ov_arenas);
}.

Lemma overlay_region_step input st r st' : region_typed r -> overlay_inv st ->
  overlay_region input st r = Ok st' -> overlay_inv st'.
Proof.
  intros Hr [Hc Ha Hs]. unfold overlay_region. destruct (byte_range _ _) as [range|] eqn:Hrange; [|done].
  unfold byte_range in Hrange. destruct (try_from_u _ st.(ov_cursor)) as [start|] eqn:Hstart; [|done].
  destruct (try_from_u _ r.(or_bytes)) as [len|] eqn:Hlen; [|done].
  apply try_from_u_Some in Hstart as [Hstart ->], Hlen as [Hlen ->]. injection Hrange as <-.
  intros H. apply obind_Ok in H as (ms & Hms & H). injection H as <-.
  assert (forall s, s ∈ ms.2 -> s.(sl_byte_offset) = 0 /\ 0 <= s.(sl_size_bytes) <= r.(or_bytes) /\
    exists m, s.(sl_binding_kind) = Kind_OverlayMember r.(or_id) m) as Hmem.
  { eapply (overlay_members_ok r r.(or_members)); [done|done| |exact Hms]. by intros s ?%elem_of_nil. }
  unfold saturating_add. set (a := {| ar_id := _ |}).
  assert (range_end a.(ar_byte_range) = st.(ov_cursor) + r.(or_bytes)) as Hend by done.
  split; cbn [ov_cursor ov_arenas]; [lia| |].
  - intros b [Hb| ->%list_elem_of_singleton]%elem_of_app.
    + destruct (Ha b Hb) as (? & ? & ?). split_and!; [done|done|lia].
    + split_and!; [|done|lia]. split; [done|done| |].
      * intros s Hsin. destruct (Hmem s Hsin) as (H0 & Hsz & _). unfold slot_end. simpl. lia.
      * intros s t Hsin Htin _. do 2 right.
        destruct (Hmem s Hsin) as (_ & _ & m & Hm), (Hmem t Htin) as (_ & _ & m' & Hm').
        by exists r.(or_id), m, m'.
  - apply StronglySorted_snoc; [done|]. intros b Hb. by apply Ha.
Qed.

Lemma overlay_regions_ok input l : forall st st', (forall r, r ∈ l -> region_typed r) -> overlay_inv st ->
  ofold (overlay_region input) st l = Ok st' -> overlay_inv st'.
Proof.
  intros st st' Hl Hst. apply (ofold_inv' overlay_inv); [done|].
  intros r t t' Hr%list_elem_of_In. apply overlay_region_step. by apply Hl.
Qed.

(** ** The builders' arenas *)

Definition arenas_of (b : ArenaBacking) (st : FinishState) : list ArenaInstance :=
  match b with Wram => st.(fi_wram) | Sram => st.(fi_sram) | Hram => st.(fi_hram) end.

(** An arena made from a builder: it holds its slots and respects the caps. *)
Definition built_arena (input : ArenaPlanInputs) (first : Z) (done : list (NamedArena * ArenaBuilder))
    (a : ArenaInstance) : Prop :=
  exists b, (a.(ar_named), b) ∈ done /\ holds b a /\
    range_end a.(ar_byte_range) <= cap_of input a.(ar_backing) /\
    (a.(ar_backing) = Wram -> first <= a.(ar_byte_range).(br_start)).

Record finish_inv (input : ArenaPlanInputs) (overlays : list ArenaInstance) (first : Z)
    (done : list (NamedArena * ArenaBuilder)) (st : FinishState) : Prop := {
  fv_cursor : forall b, 0 <= cursor_of b st.(fi_cursors) < U32;
  fv_first : first <= st.(fi_cursors).(cu_wram);
  fv_arenas : forall b a, a ∈ arenas_of b st -> arena_ok a /\ a.(ar_backing) = b /\
    range_end a.(ar_byte_range) <= cursor_of b st.(fi_cursors) /\
    (a ∈ overlays \/ built_arena input first done a);
  fv_sorted : forall b, StronglySorted arena_before (arenas_of b st);
  fv_built : forall n b, (n, b) ∈ done -> exists a, a ∈ arenas_of (backing_for n) st /\
    a.(ar_named) = n /\ holds b a;
}.

Lemma cursor_set b b' x c : cursor_of b (set_cursor b' x c) = if decide (b = b') then x else cursor_of b c.
Proof. by destruct b, b'. Qed.

Lemma finish_arena_step input overlays first done st n b st' : inputs_typed input ->
  (forall s, s ∈ b.(bu_slots) -> slot_collected n s) -> b.(bu_backing) = backing_for n ->
  finish_inv input overlays first done st -> finish_arena input st (n, b) = Ok st' ->
  finish_inv input overlays first (done ++ [(n, b)]) st'.
Proof.
  intros Hi Hs Hback [Hc Hf Ha Hso Hb]. unfold finish_arena. intros H.
  apply obind_Ok in H as ([a c] & Hfin & H). cbn [fst snd] in *.
  destruct (finalize_ok _ _ _ _ _ _ _ Hi Hs Hback Hfin) as (Hok & Hh & Hn & _ & Hstart & Hcap & ->).
  set (st1 := {| fi_arena := _ |}) in H. injection H as <-.
  pose proof (ao_backing _ Hok) as Hab. rewrite Hn in Hab.
  assert (forall k, arenas_of k st1 = if decide (k = backing_for n) then arenas_of k st ++ [a] else arenas_of k st) as Hst1.
  { intros k. destruct k; unfold st1; simpl; rewrite Hab; by destruct (backing_for n). }
  assert (forall k, cursor_of k st1.(fi_cursors) =
    if decide (k = backing_for n) then range_end a.(ar_byte_range) else cursor_of k st.(fi_cursors)) as Hcur
    by (intros; apply cursor_set).
  destruct (ao_range _ Hok) as [Hr1 Hr2].
  assert (cursor_of (backing_for n) st.(fi_cursors) <= range_end a.(ar_byte_range) < U32) as Hge
    by (unfold range_end in *; lia).
  assert (built_arena input first (done ++ [(n, b)]) a) as Hbuilt.
  { exists b. rewrite Hab, Hn. split_and!; [set_solver|done|done|].
    intros Hw. rewrite Hw in Hstart. rewrite Hstart. exact Hf. }
  split.
  - intros k. rewrite Hcur. destruct (decide _); [|done]. unfold range_end in *. lia.
  - change (st1.(fi_cursors).(cu_wram)) with (cursor_of Wram st1.(fi_cursors)). rewrite Hcur.
    destruct (decide _) as [Hw|]; [|done]. rewrite <- Hw in Hge. simpl in Hge. lia.
  - intros k x. rewrite Hst1, Hcur. intros Hx.
    assert (x ∈ arenas_of k st \/ (k = backing_for n /\ x = a)) as [Hx'|[-> ->]].
    { destruct (decide _); [|by left]. apply elem_of_app in Hx as [?|?%list_elem_of_singleton]; auto. }
    + destruct (Ha k x Hx') as (? & ? & ? & Hor). split_and!; [done|done|destruct (decide _); [subst k; lia|done]|].
      destruct Hor as [?|(b' & ? & ?)]; [by left|]. right. exists b'. split; [set_solver|done].
    + split_and!; [done|done|by rewrite decide_True|by right].
  - intros k. rewrite Hst1. destruct (decide _) as [->|]; [|done].
    apply StronglySorted_snoc; [done|]. intros x Hx. unfold arena_before. rewrite Hstart. by apply Ha.
  - intros n' b' [Hb'|[= -> ->]%list_elem_of_singleton]%elem_of_app.
    + destruct (Hb n' b' Hb') as (x & Hx & ? & ?). exists x. split; [|done].
      rewrite Hst1. destruct (decide _); [set_solver|done].
    + exists a. split; [|done]. rewrite Hst1, decide_True by done. set_solver.
Qed.

Lemma finish_arenas_ok input overlays first bs st st' : inputs_typed input -> builders_ok bs ->
  finish_inv input overlays first [] st -> ofold (finish_arena input) st bs = Ok st' ->
  finish_inv input overlays first bs st'.
Proof.
  intros Hi Hb H0. apply (ofold_inv (finish_inv input overlays first) _ _ []); [done|].
  intros pre [n b] post t t' Heq. simpl in Heq.
  assert ((n, b) ∈ bs) as Hin by (rewrite Heq; set_solver).
  apply finish_arena_step; [done| |by apply (bo_named _ Hb n b)].
  intros s Hs. apply (bo_slots _ Hb). by exists b.
Qed.

(** ** The assembled plan *)

Record plan_inv (input : ArenaPlanInputs) (p : ArenaPlan) (pe : PersistState) (ma : MaterializeState)
    : Prop := {
  pa_arenas : forall a, a ∈ all_arenas p -> arena_ok a;
  pa_apart : forall a b, a ∈ all_arenas p -> b ∈ all_arenas p -> a <> b -> a.(ar_backing) = b.(ar_backing) ->
    arena_before a b \/ arena_before b a;
  pa_cap : forall a, a ∈ all_arenas p -> is_overlay_region a.(ar_named) = false ->
    range_end a.(ar_byte_range) <= cap_of input a.(ar_backing);
  pa_overlays_first : forall a o, a ∈ all_arenas p -> o ∈ all_arenas p -> a.(ar_backing) = Wram ->
    is_overlay_region a.(ar_named) = false -> is_overlay_region o.(ar_named) = true -> arena_before o a;
  pa_slots : slots_ok input pe ma;
  pa_builders : forall n b, (n, b) ∈ ma.(ma_collected).(co_builders) ->
    exists a, a ∈ all_arenas p /\ a.(ar_named) = n /\ holds b a;
  pa_built : forall a, a ∈ all_arenas p -> is_overlay_region a.(ar_named) = false ->
    exists b, (a.(ar_named), b) ∈ ma.(ma_collected).(co_builders) /\ holds b a;
  pa_materialized : forall x, x ∈ p.(arena_bindings).(materialize_to_slot) <-> x ∈ ma.(ma_bindings);
  pa_pairs : forall x, x ∈ p.(arena_bindings).(persist_to_slot_pair) <-> x ∈ pe.(pe_pairs);
  pa_sram : forall a, a ∈ all_arenas p -> a.(ar_backing) = Sram -> a ∈ p.(sram_arenas);
}.

Lemma slots_builders_ok input pe ma : slots_ok input pe ma -> builders_ok ma.(ma_collected).(co_builders).
Proof. intros [_ (groups & ids & _ & Hp) _]. apply Hp. Qed.

Lemma arenas_of_plan fi p a : p.(wram_arenas) = sort_by_key arena_key fi.(fi_wram) ->
  p.(sram_arenas) = sort_by_key arena_key fi.(fi_sram) ->
  p.(hram_assignments) = sort_by_key arena_key fi.(fi_hram) ->
  a ∈ all_arenas p <-> exists k, a ∈ arenas_of k fi.
Proof.
  intros Hw Hs Hh. unfold all_arenas. rewrite Hw, Hs, Hh, !elem_of_app, !elem_of_sort_by_key. split.
  - intros [?|[?|?]]; [by exists Wram|by exists Sram|by exists Hram].
  - intros [[] ?]; auto.
Qed.

Lemma arenas_start input overlays first : overlay_inv overlays -> first = overlays.(ov_cursor) ->
  finish_inv input overlays.(ov_arenas) first []
    {| fi_arena := overlays.(ov_arena);
       fi_cursors := {| cu_wram := overlays.(ov_cursor); cu_sram := 0; cu_hram := 0 |};
       fi_wram := overlays.(ov_arenas); fi_sram := []; fi_hram := [] |}.
Proof.
  intros [Hc Ha Hs] ->. split.
  - intros []; simpl; lia.
  - simpl. lia.
  - intros [] a; [|by intros ?%elem_of_nil..]. intros Hin. cbn [arenas_of fi_wram] in Hin.
    destruct (Ha a Hin) as (Hok & Hov & Hend). split_and!; [done| |done|by left].
    rewrite (ao_backing _ Hok). by destruct (ar_named a).
  - intros []; simpl; [done|constructor..].
  - intros n b []%elem_of_nil.
Qed.

Lemma assemble_plan_inv input p ws : inputs_typed input -> assemble_plan input = Ok (p, ws) ->
  exists pe ma, plan_inv input p pe ma.
Proof.
  intros Hi. unfold assemble_plan. intros H.
  apply obind_Ok in H as ([] & _ & H). apply obind_Ok in H as (ov & Hov & H).
  apply obind_Ok in H as ([] & _ & H). apply obind_Ok in H as ([pe ma] & Hsl & H).
  apply obind_Ok in H as (fi & Hfi & H). injection H as <- <-. cbn [fst snd] in *.
  apply overlay_regions_ok in Hov; [|apply Hi|split; simpl; [lia|set_solver|constructor]].
  pose proof (collect_slots_ok _ _ _ Hi Hsl) as Hso. cbn [fst snd] in Hso.
  pose proof (slots_builders_ok _ _ _ Hso) as Hbo.
  pose proof (finish_arenas_ok _ _ _ _ _ _ Hi Hbo (arenas_start input ov _ Hov eq_refl) Hfi) as [_ _ Ha Hsorted Hb].
  set (p := {| pl_identity := _ |}).
  assert (forall a, a ∈ all_arenas p <-> exists k, a ∈ arenas_of k fi) as Hall by (intros a; by apply arenas_of_plan).
  assert (forall a k, a ∈ arenas_of k fi -> is_overlay_region a.(ar_named) = false ->
    built_arena input ov.(ov_cursor) ma.(ma_collected).(co_builders) a) as Hbuilt.
  { intros a k Hin Hno. destruct (Ha k a Hin) as (_ & _ & _ & [Hoa|?]); [|done].
    destruct (ol_arenas _ Hov a Hoa) as (_ & ? & _). congruence. }
  exists pe, ma. split; cbn [arena_bindings materialize_to_slot persist_to_slot_pair]; [| | | |done| | | | |].
  - intros a [k Hin]%Hall. by apply (Ha k).
  - intros a b [k Hin]%Hall [k' Hin']%Hall Hne Hk.
    destruct (Ha k a Hin) as (_ & Hka & _), (Ha k' b Hin') as (_ & Hkb & _).
    assert (k' = k) as -> by congruence. by apply (StronglySorted_pair _ (arenas_of k fi)).
  - intros a [k Hin]%Hall Hno. by destruct (Hbuilt a k Hin Hno) as (b & _ & _ & ? & _).
  - intros a o [k Hin]%Hall [k' Hin']%Hall Hw Hno Ho.
    destruct (Hbuilt a k Hin Hno) as (b & _ & _ & _ & Hf). specialize (Hf Hw).
    destruct (Ha k' o Hin') as (_ & _ & _ & [Hoo|(b' & Hb' & _)]).
    + destruct (ol_arenas _ Hov o Hoo) as (_ & _ & ?). unfold arena_before. lia.
    + destruct (bo_named _ Hbo _ _ Hb'). congruence.
  - intros n b Hin. destruct (Hb n b Hin) as (a & Hina & ? & ?). exists a. split; [apply Hall; eauto|done].
  - intros a [k Hin]%Hall Hno. destruct (Hbuilt a k Hin Hno) as (b & ? & ? & _). by exists b.
  - intros x. apply elem_of_sort_by_key.
  - intros x. apply elem_of_sort_by_key.
  - intros a [k Hin]%Hall Hk. destruct (Ha k a Hin) as (_ & Hka & _).
    assert (k = Sram) as -> by congruence. by apply elem_of_sort_by_key.
Qed.

(** ** What the checks add *)

Lemma elem_of_all_slots p a s : (a, s) ∈ all_slots_with_arena p <-> a ∈ all_arenas p /\ s ∈ a.(ar_slots).
Proof.
  unfold all_slots_with_arena. rewrite list_elem_of_In, in_flat_map.
  setoid_rewrite in_map_iff. setoid_rewrite <- list_elem_of_In. split.
  - intros (b & Hb & t & [= -> ->] & Ht). done.
  - intros [Ha Hs]. exists a. split; [done|]. by exists s.
Qed.

Lemma all_slots_snd p : all_slots p = map snd (all_slots_with_arena p).
Proof.
  unfold all_slots, all_slots_with_arena. induction (all_arenas p) as [|a l IH]; simpl; [done|].
  rewrite map_app, map_map, IH. f_equal. simpl. by rewrite map_id.
Qed.

(** A list whose set is as large as the list has no duplicates. *)
Lemma size_NoDup (l : list Z) : Z.of_nat (size (list_to_set l : gset Z)) = zlen l -> NoDup l.
Proof.
  unfold zlen. intros H. apply Nat2Z.inj in H. revert H. induction l as [|x l IH]; intros H; [constructor|].
  assert (forall k : list Z, (size (list_to_set k : gset Z) <= length k)%nat) as Hle.
  { induction k as [|y k IHk]; simpl; [by vm_compute|].
    pose proof (size_union_alt {[y]} (list_to_set k : gset Z)) as Hu. rewrite size_singleton in Hu.
    pose proof (subseteq_size (list_to_set k ∖ {[y]}) (list_to_set k : gset Z) ltac:(set_solver)). lia. }
  simpl in H. pose proof (Hle l). destruct (decide (x ∈ l)) as [Hx|Hx].
  - assert ({[x]} ∪ list_to_set l =@{gset Z} list_to_set l) as Heq by set_solver.
    rewrite Heq in H. lia.
  - constructor; [done|]. apply IH. rewrite size_union, size_singleton in H by set_solver. lia.
Qed.

(** Slots of one id are one slot of one arena. *)
Lemma slot_id_unique p a s b t : NoDup (map sl_id (all_slots p)) ->
  (a, s) ∈ all_slots_with_arena p -> (b, t) ∈ all_slots_with_arena p -> s.(sl_id) = t.(sl_id) -> a = b /\ s = t.
Proof.
  rewrite all_slots_snd, map_map. intros Hnd [i Hi]%list_elem_of_lookup_1 [j Hj]%list_elem_of_lookup_1 Heq.
  assert (i = j) as ->; [|rewrite Hi in Hj; by injection Hj].
  rewrite NoDup_alt in Hnd. apply (Hnd i j s.(sl_id)).
  - apply (list_lookup_fmap_Some_2 (fun x : ArenaInstance * ArenaSlot => x.2.(sl_id)) _ _ _ Hi).
  - rewrite Heq. apply (list_lookup_fmap_Some_2 (fun x : ArenaInstance * ArenaSlot => x.2.(sl_id)) _ _ _ Hj).
Qed.
