(* ===== verification/ArenaTheorems.v ===== *)
(** * Arena planning: theorems

    Placement is safe, every value and every persistent page has its slots, the
    numbers of a plan fit their types, and the two reports are accepted; a plan
    on concrete inputs for the witnesses. *)

From S2P Require Import Prelude Numeric KnobLattice KnobDelta Refinement KnobResolve RangeCert Arena ArenaCheck ArenaFacts ArenaPlanFacts.

(** ** A plan on concrete inputs *)

Definition ex_hashes : ArenaPlanInputHashes := {|
  ah_storage_plan_self_hash := 1; ah_sram_page_plan_self_hash := 2; ah_rom_window_plan_self_hash := 3;
  ah_overlay_plan_self_hash := 4; ah_runtime_chrome_budget_hash := 5; ah_target_profile_hash := 6;
  ah_arena_plan_policy_projection_hash := 7 |}.

Definition ex_geometry : PersistentPageGeometry := {|
  pg_header_bytes := 16; pg_payload_bytes := 46; pg_commit_word_bytes := 2; pg_alignment := 16 |}.

Definition ex_budget : RuntimeChromeBudget := {|
  rcb_target := "dmg"; rcb_profile := "default"; runtime_nucleus_hash := Real 1;
  reference_shell_modules := ∅; rom_slots := [];
  memory_caps := {| wram_usable_bytes := 4096; sram_usable_bytes := 8192; hram_usable_bytes := 127;
                    source_target_profile_hash := 1 |};
  wram_reserved := {| wr_overlay := 0; wr_hot_arena_floor := 0; wr_total := 0 |}; sram_reserved := 0 |}.

Definition ex_binding (value : Z) (m : Materialization) (alias size : Z) : ArenaPlanBindingInput := {|
  bi_binding := {| sb_value := value; sb_materialization := m; sb_alias_class := alias |};
  bi_size_bytes := size |}.

(** Three values of one slice, two of them in one alias class, a value of the
    session and a persistent one; [window] and [session] vary. *)
Definition ex_inputs (window session cold : Z) : ArenaPlanInputs := {|
  in_identity := {| ai_hashes := ex_hashes; ai_determinism := Deterministic;
                    ai_target_profile_id := "dmg"; ai_schema_version := (1, 0, 0) |};
  in_expected_hashes := ex_hashes;
  in_budget := ex_budget;
  in_target := {| tp_wram_usable_bytes := 4096; tp_sram_window_bytes := window; tp_hram_usable_bytes := 127 |};
  in_policy := {| arena_alignment_default := 16; arena_zerofill_policy := NotRequired;
                  persistent_page_geometry := ex_geometry |};
  in_storage :=
    [ex_binding 1 (Materialize WramHot Slice) 10 100; ex_binding 2 (Materialize WramHot Slice) 10 120;
     ex_binding 3 (Materialize WramHot Slice) 11 48; ex_binding 4 (Materialize WramHot Session) 12 session;
     ex_binding 5 (Persist 1 7) 13 46; ex_binding 6 Recompute 14 9;
     ex_binding 7 (Materialize SramPaged Session) 15 cold];
  in_sram := {|
    sp_bindings := [{| spb_binding_id := 5; spb_page := 0; spb_commit_group := 7; spb_sequence_stream := 3 |}];
    sp_geometry := ex_geometry; sp_self_hash := 2 |};
  in_overlay := {|
    op_regions := [{| or_id := 9; or_bytes := 64; or_members :=
      [{| om_id := Resident_Kernel "k"; om_payload_bytes := 40 |};
       {| om_id := Resident_Lut "l"; om_payload_bytes := 64 |}] |}];
    op_reservation := {| os_total_bytes := 64; os_per_region := [{| re_region := 9; re_bytes := 64 |}] |};
    op_self_hash := 4 |} |}.

Definition ex_encoding : ArenaEncoding := {|
  plan_json := fun _ => "{}"; hash_arena_plan := fun _ => inr 8; hash_arena_cert := fun _ => inr 9 |}.

Definition ex_input : ArenaPlanInputs := ex_inputs 8192 32 100.

(** The result of a stage that succeeds. *)
Definition value_of {E A} (m : outcome E A) (H : is_ok m = true) : A :=
  match m return is_ok m = true -> A with
  | Ok x => fun _ => x
  | _ => fun H => False_rect _ (Bool.diff_false_true H)
  end H.

Lemma value_of_Ok {E A} (m : outcome E A) H : m = Ok (value_of m H).
Proof. by destruct m. Qed.

Lemma ex_succeeds : is_ok (@plan_arenas ex_encoding ex_input) = true.
Proof. by vm_compute. Qed.

Definition ex_planned : ArenaPlanResult * ArenaCertBody := value_of _ ex_succeeds.

Lemma ex_plan_arenas : @plan_arenas ex_encoding ex_input = Ok (ex_planned.1, ex_planned.2).
Proof. rewrite <- surjective_pairing. apply value_of_Ok. Qed.

Lemma ex_typed : inputs_typed ex_input.
Proof.
  split; [simpl; lia|unfold geometry_typed; simpl; lia| | |].
  - intros b Hb. unfold storage_typed.
    repeat (apply elem_of_cons in Hb as [->|Hb];
      [simpl; do 3 (split; [lia|]); intros page group [=]; lia|]).
    by apply elem_of_nil in Hb.
  - intros b [->|Hb%elem_of_nil]%elem_of_cons; [unfold sram_binding_typed; simpl; lia|done].
  - intros r [->|Hr%elem_of_nil]%elem_of_cons; [|done]. unfold region_typed. simpl.
    do 2 (split; [lia|]).
    intros m [->|[->|Hm%elem_of_nil]%elem_of_cons]%elem_of_cons; simpl; done || lia.
Qed.

(** ** What a successful stage went through *)

Record planned `{ArenaEncoding} (input : ArenaPlanInputs) (r : ArenaPlanResult) (c : ArenaCertBody)
    (p : ArenaPlan) : Prop := {
  pn_product : exists h, r.(rs_product) = set_self_hash h p;
  pn_assembled : exists ws, assemble_plan input = Ok (p, ws);
  pn_pass : all_pass (validate_address_invariants input p) = true;
  pn_invariants : c.(ce_address_invariants) = validate_address_invariants input p;
  pn_continuation : continuation_witness p = Some c.(ce_continuation_record);
  pn_harness : harness_no_leak_certificate p = Some c.(ce_harness_no_leak);
  pn_hashes : c.(ce_input_hashes) = input.(in_identity).(ai_hashes);
  pn_version : c.(ce_pass_version) = ARENA_CERT_PASS_VERSION /\ c.(ce_diagnostics) = [];
}.

Lemma plan_arenas_planned `{ArenaEncoding} input r c : plan_arenas input = Ok (r, c) -> exists p, planned input r c p.
Proof.
  unfold plan_arenas. intros H1.
  apply obind_Ok in H1 as ([] & _ & H1). apply obind_Ok in H1 as ([p ws] & Ha & H1). cbn [fst snd] in H1.
  apply obind_Ok in H1 as ([] & _ & H1). apply obind_Ok in H1 as ([] & Hp & H1).
  apply guard_err_Ok in Hp as [Hp%negb_false_iff _].
  apply obind_Ok in H1 as (cw & Hcw & H1). apply ok_or_Ok in Hcw.
  apply obind_Ok in H1 as (hn & Hhn & H1). apply ok_or_Ok in Hhn.
  apply obind_Ok in H1 as (h & _ & H1). apply obind_Ok in H1 as (h' & _ & H1). injection H1 as <- <-.
  exists p. split; try done; [by exists h|by exists ws].
Qed.

(** The product has the arenas and the bindings of the assembled plan. *)
Lemma planned_same `{ArenaEncoding} input r c p : planned input r c p ->
  all_arenas r.(rs_product) = all_arenas p /\ all_slots_with_arena r.(rs_product) = all_slots_with_arena p /\
  all_slots r.(rs_product) = all_slots p /\ r.(rs_product).(arena_bindings) = p.(arena_bindings).
Proof. by intros [[h ->] _ _ _ _ _ _ _]. Qed.

Lemma all_pass_elim i : all_pass i = true ->
  i.(f_addr_10_continuation_sized) = true /\ i.(f_addr_12_persistent_page_header_aligned) = true /\
  i.(f_addr_13_slot_id_unique) = true.
Proof. unfold all_pass. rewrite !andb_true_iff. tauto. Qed.

Lemma planned_ids `{ArenaEncoding} input r c p : planned input r c p -> NoDup (map sl_id (all_slots p)).
Proof.
  intros Hp. destruct (all_pass_elim _ (pn_pass _ _ _ _ Hp)) as (_ & _ & H13%Z.eqb_eq).
  apply size_NoDup. rewrite H13. unfold zlen. by rewrite length_map.
Qed.

(** There is a continuation record in work RAM. *)
Lemma planned_record `{ArenaEncoding} input r c p : planned input r c p ->
  exists a, a ∈ all_arenas p /\ a.(ar_named) = WramContinuationRecord.
Proof.
  intros Hp. destruct (all_pass_elim _ (pn_pass _ _ _ _ Hp)) as (H10 & _ & _).
  cbn [f_addr_10_continuation_sized validate_address_invariants] in H10. unfold continuation_sized in H10.
  destruct (List.filter _ p.(wram_arenas)) as [|a [|]] eqn:Hf; [done| |done].
  assert (In a (List.filter (fun a => bool_decide (a.(ar_named) = WramContinuationRecord)) p.(wram_arenas)))
    as [Hin Hn%bool_decide_eq_true]%filter_In by (rewrite Hf; by left).
  exists a. split; [|done]. unfold all_arenas. apply elem_of_app. left. by apply list_elem_of_In.
Qed.

(** No arena ends beyond the memory of its backing. *)
Lemma planned_caps `{ArenaEncoding} input r c p pe ma a : planned input r c p -> plan_inv input p pe ma ->
  a ∈ all_arenas p -> range_end a.(ar_byte_range) <= cap_of input a.(ar_backing).
Proof.
  intros Hp Hi Ha. destruct (is_overlay_region a.(ar_named)) eqn:Ho; [|by eapply pa_cap].
  destruct (planned_record _ _ _ _ Hp) as (k & Hk & Hn).
  assert (is_overlay_region k.(ar_named) = false) as Hkn by by rewrite Hn.
  assert (k.(ar_backing) = Wram) as Hkw by (rewrite (ao_backing _ (pa_arenas _ _ _ _ Hi k Hk)); by rewrite Hn).
  assert (a.(ar_backing) = Wram) as Haw
    by (rewrite (ao_backing _ (pa_arenas _ _ _ _ Hi a Ha)); by destruct (ar_named a)).
  pose proof (pa_overlays_first _ _ _ _ Hi k a Hk Ha Hkw Hkn Ho) as Hb.
  pose proof (pa_cap _ _ _ _ Hi k Hk Hkn) as Hc. rewrite Hkw in Hc. rewrite Haw.
  destruct (ao_range _ (pa_arenas _ _ _ _ Hi k Hk)) as [_ ?]. unfold arena_before, range_end in *. lia.
Qed.

(** ** Placement is safe *)

Definition slot_address (a : ArenaInstance) (s : ArenaSlot) : Z := a.(ar_byte_range).(br_start) + s.(sl_byte_offset).
Definition slot_limit (a : ArenaInstance) (s : ArenaSlot) : Z := slot_address a s + s.(sl_size_bytes).

(** C9: no two slots of a plan overlap. When the stage succeeds on inputs whose
    numbers fit their types, every arena is in the memory that its name
    belongs to and every slot lies inside its arena, which ends at most at the
    memory's usable size; slot ids are unique; and two different slots in the
    same memory have disjoint addresses, unless both are members of one
    overlay region, which take turns. *)
Theorem arena_slots_disjoint `{ArenaEncoding} input r c : inputs_typed input -> plan_arenas input = Ok (r, c) ->
  let p := r.(rs_product) in
  (forall a s, (a, s) ∈ all_slots_with_arena p ->
     a.(ar_backing) = backing_for a.(ar_named) /\ 0 <= a.(ar_byte_range).(br_start) <= slot_address a s /\
     slot_limit a s <= range_end a.(ar_byte_range) <= cap_of input a.(ar_backing)) /\
  NoDup (map sl_id (all_slots p)) /\
  (forall a s b t, (a, s) ∈ all_slots_with_arena p -> (b, t) ∈ all_slots_with_arena p ->
     a.(ar_backing) = b.(ar_backing) -> s.(sl_id) <> t.(sl_id) ->
     slot_limit a s <= slot_address b t \/ slot_limit b t <= slot_address a s \/
     (a = b /\ region_members a s t)).
Proof.
  intros Hi Hok. cbv zeta. destruct (plan_arenas_planned _ _ _ Hok) as [p Hp].
  destruct (planned_same _ _ _ _ Hp) as (_ & -> & -> & _).
  destruct (pn_assembled _ _ _ _ Hp) as [ws Ha]. destruct (assemble_plan_inv _ _ _ Hi Ha) as (pe & ma & Hinv).
  unfold slot_address, slot_limit, slot_address.
  split; [|split; [by eapply planned_ids|]].
  - intros a s [Hain Hs]%elem_of_all_slots. pose proof (pa_arenas _ _ _ _ Hinv a Hain) as Hao.
    pose proof (planned_caps _ _ _ _ _ _ _ Hp Hinv Hain). destruct (ao_inside _ Hao s Hs) as (? & ? & ?).
    destruct (ao_range _ Hao). split_and!; [apply Hao|lia|lia| |done]. unfold slot_end, range_end in *. lia.
  - intros a s b t [Hain Hs]%elem_of_all_slots [Hbin Ht]%elem_of_all_slots Hback Hid.
    destruct (ao_inside _ (pa_arenas _ _ _ _ Hinv a Hain) s Hs) as (? & ? & ?).
    destruct (ao_inside _ (pa_arenas _ _ _ _ Hinv b Hbin) t Ht) as (? & ? & ?). unfold slot_end in *.
    destruct (decide (a = b)) as [<-|Hne].
    + assert (s <> t) as Hne by by intros ->.
      destruct (ao_apart _ (pa_arenas _ _ _ _ Hinv a Hain) s t Hs Ht Hne) as [?|[?|?]];
        unfold slot_end in *; [left; lia|right; left; lia|by do 2 right].
    + destruct (pa_apart _ _ _ _ Hinv a b Hain Hbin Hne Hback) as [Hb|Hb];
        unfold arena_before, range_end in Hb; [left; lia|right; left; lia].
Qed.

Lemma arena_slots_disjoint_witness : inputs_typed ex_input /\
  NoDup (map sl_id (all_slots ex_planned.1.(rs_product))).
Proof.
  split; [apply ex_typed|].
  exact (proj1 (proj2 (@arena_slots_disjoint ex_encoding ex_input _ _ ex_typed ex_plan_arenas))).
Defined.

(** ** Every value has its slot *)

(** The slot of a value: in the arena of its class and lifetime, for its alias
    class, large enough. *)
Definition serves (input : ArenaPlanInputs) (p : ArenaPlan) (b : ArenaPlanBindingInput)
    (a : ArenaInstance) (s : ArenaSlot) : Prop :=
  b ∈ input.(in_storage) /\ (a, s) ∈ all_slots_with_arena p /\
  group_of b = Some (a.(ar_named), b.(bi_binding).(sb_alias_class), s.(sl_lifetime_class)) /\
  s.(sl_alias_class_id) = Some b.(bi_binding).(sb_alias_class) /\ s.(sl_binding_kind) = MaterializedValue /\
  b.(bi_size_bytes) <= s.(sl_size_bytes) /\
  {| ms_value := b.(bi_binding).(sb_value); ms_slot := s.(sl_id) |} ∈ p.(arena_bindings).(materialize_to_slot).

Lemma map_sorted_NoDup {K V} (key : K -> list Z) (m : list (K * V)) : map_sorted key m -> NoDup (map fst m).
Proof.
  induction 1 as [|[k v] m Hm IH Hall]; simpl; [constructor|]. constructor; [|done].
  intros ([k' v'] & Heq & Hin)%(list_elem_of_fmap_1 fst). simpl in Heq. subst k'.
  rewrite Forall_forall in Hall. apply Hall in Hin. by apply lex_lt_irrefl in Hin.
Qed.

Lemma map_sorted_lookup {K V} (key : K -> list Z) (m : list (K * V)) i j k v v' : map_sorted key m ->
  m !! i = Some (k, v) -> m !! j = Some (k, v') -> i = j.
Proof.
  intros Hs Hi Hj. pose proof (map_sorted_NoDup _ _ Hs) as Hnd. rewrite NoDup_alt in Hnd.
  apply (Hnd i j k); [apply (list_lookup_fmap_Some_2 fst _ _ _ Hi)|apply (list_lookup_fmap_Some_2 fst _ _ _ Hj)].
Qed.

Lemma group_of_named b k lifetime : group_of b = Some (k, lifetime) ->
  is_overlay_region k.1 = false /\ k.2 = b.(bi_binding).(sb_alias_class).
Proof.
  unfold group_of. destruct (sb_materialization _) as [|class l|]; [done| |done].
  destruct (arena_for class l) as [n|] eqn:Hn; [|done]. intros [= <- _]. split; [|done]. by eapply arena_for_not_overlay.
Qed.

(** The slots of a plan that hold values are those of the groups. *)
Lemma group_slot_in_plan input p pe ma groups ids i k g id : plan_inv input p pe ma ->
  placed_inv groups ids ma -> groups !! i = Some (k, g) -> ids !! i = Some id ->
  exists a s, (a, s) ∈ all_slots_with_arena p /\ a.(ar_named) = k.1 /\ s.(sl_id) = id /\
    s.(sl_size_bytes) = g.(mg_size_bytes) /\ s.(sl_alias_class_id) = Some k.2 /\
    s.(sl_lifetime_class) = g.(mg_lifetime) /\ s.(sl_binding_kind) = MaterializedValue.
Proof.
  intros Hi Hp Hg Hid. destruct (pv_slots _ _ _ Hp _ _ _ _ Hg Hid) as (t & (bd & Hbd & Hin) & Ht).
  destruct (pa_builders _ _ _ _ Hi _ _ Hbd) as (a & Ha & Hn & Hh).
  destruct (ho_slots _ _ Hh t Hin) as [o Ho]. destruct Ht as (? & _ & ? & ? & ? & ?).
  exists a, (set_offset o t). split_and!; [by apply elem_of_all_slots|done..].
Qed.

Lemma value_slot_group input p pe ma groups ids a s : plan_inv input p pe ma -> placed_inv groups ids ma ->
  (a, s) ∈ all_slots_with_arena p -> is_overlay_region a.(ar_named) = false ->
  s.(sl_binding_kind) = MaterializedValue ->
  exists i alias g, groups !! i = Some ((a.(ar_named), alias), g) /\ ids !! i = Some s.(sl_id) /\
    s.(sl_alias_class_id) = Some alias.
Proof.
  intros Hi Hp [Ha Hs]%elem_of_all_slots Hno Hk.
  destruct (pa_built _ _ _ _ Hi a Ha Hno) as (bd & Hbd & Hh).
  destruct (ho_only _ _ Hh s Hs) as (s0 & Hs0 & Heq).
  destruct (pv_only _ _ _ Hp a.(ar_named) s0) as (i & [n al] & g & Hg & Hid & Hn & Hal);
    [by exists bd|by rewrite Heq in Hk|].
  simpl in Hn, Hal. subst n. exists i, al, g. rewrite Heq. done.
Qed.

(** A binding of a group is served by the group's slot. *)
Lemma group_serves input p pe ma groups ids b i k g id : plan_inv input p pe ma -> placed_inv groups ids ma ->
  group_of b = Some (k, g.(mg_lifetime)) -> b ∈ input.(in_storage) ->
  b.(bi_binding).(sb_value) ∈ g.(mg_values) -> b.(bi_size_bytes) <= g.(mg_size_bytes) ->
  groups !! i = Some (k, g) -> ids !! i = Some id -> exists a s, serves input p b a s /\ s.(sl_id) = id.
Proof.
  intros Hinv Hpl Hgo Hb Hv Hsz Hg Hid. destruct (group_of_named _ _ _ Hgo) as [_ Hal].
  destruct (group_slot_in_plan _ _ _ _ _ _ _ _ _ _ Hinv Hpl Hg Hid) as (a & s & Hin & Hn & Hsid & Hss & Hsa & Hsl & Hk).
  exists a, s. split; [|done]. unfold serves. split_and!; [done|done| |congruence|done|lia|].
  - rewrite Hgo, Hn, <- Hal, Hsl. by destruct k.
  - apply (pa_materialized _ _ _ _ Hinv), (pv_bindings _ _ _ Hpl). exists i, k, g. by rewrite Hsid.
Qed.

Lemma group_of_materialize b x : group_of b = Some x -> is_materialize b = true.
Proof. unfold group_of, is_materialize. by destruct (sb_materialization _). Qed.

(** Its group is the one under its key. *)
Lemma binding_fits done groups b k g : groups_inv done groups -> b ∈ done -> (k, g) ∈ groups ->
  group_of b = Some (k, g.(mg_lifetime)) -> b.(bi_size_bytes) <= g.(mg_size_bytes).
Proof.
  intros Hgr Hb Hin Hgo.
  destruct (gi_bindings _ _ Hgr b Hb (group_of_materialize _ _ Hgo)) as (k' & g' & Hgo' & Hin' & _ & Hsz).
  assert (k' = k) as -> by congruence.
  assert (g' = g) as <- by (eapply (map_get_unique group_key); [apply Hgr|done|done]). lia.
Qed.

(** Bindings that share a slot. *)
Lemma served_together input p pe ma groups ids b a s b' a' s' : plan_inv input p pe ma ->
  placed_inv groups ids ma -> map_sorted group_key groups -> NoDup (map sl_id (all_slots p)) ->
  serves input p b a s -> serves input p b' a' s' ->
  s.(sl_id) = s'.(sl_id) <->
  a.(ar_named) = a'.(ar_named) /\ b.(bi_binding).(sb_alias_class) = b'.(bi_binding).(sb_alias_class).
Proof.
  intros Hinv Hpl Hsorted Hnd (Hb & Hin & Hgo & Hal & Hk & _) (Hb' & Hin' & Hgo' & Hal' & Hk' & _). split.
  - intros Heq. destruct (slot_id_unique _ _ _ _ _ Hnd Hin Hin' Heq) as [<- <-]. split; [done|congruence].
  - intros [Hn Ha]. apply group_of_named in Hgo as [Hno _], Hgo' as [Hno' _]. simpl in Hno, Hno'.
    destruct (value_slot_group _ _ _ _ _ _ _ _ Hinv Hpl Hin Hno Hk) as (i & al & g & Hg & Hid & Hsa).
    destruct (value_slot_group _ _ _ _ _ _ _ _ Hinv Hpl Hin' Hno' Hk') as (i' & al' & g' & Hg' & Hid' & Hsa').
    assert (al' = al) as -> by congruence. rewrite <- Hn in Hg'.
    assert (i = i') as <- by by eapply (map_sorted_lookup group_key). congruence.
Qed.

(** C13: every value has its slot. After a successful stage each binding that is
    materialized has a slot in the arena that its storage class and lifetime
    name, with its lifetime and alias class and at least its size, and the
    plan's bindings list it; every entry of that list is such a binding; and
    two bindings share a slot exactly when they are in the same arena and the
    same alias class. *)
Theorem values_have_slots `{ArenaEncoding} input r c : inputs_typed input -> plan_arenas input = Ok (r, c) ->
  let p := r.(rs_product) in
  (forall b, b ∈ input.(in_storage) -> is_materialize b = true -> exists a s, serves input p b a s) /\
  (forall x, x ∈ p.(arena_bindings).(materialize_to_slot) -> exists b a s, serves input p b a s /\
     x.(ms_value) = b.(bi_binding).(sb_value) /\ x.(ms_slot) = s.(sl_id)) /\
  (forall b a s b' a' s', serves input p b a s -> serves input p b' a' s' ->
     s.(sl_id) = s'.(sl_id) <->
     a.(ar_named) = a'.(ar_named) /\ b.(bi_binding).(sb_alias_class) = b'.(bi_binding).(sb_alias_class)).
Proof.
  intros Hi Hok. cbv zeta. destruct (plan_arenas_planned _ _ _ Hok) as [p Hp].
  destruct (planned_same _ _ _ _ Hp) as (_ & Hsl & _ & Hbn). unfold serves. rewrite Hsl, Hbn.
  destruct (pn_assembled _ _ _ _ Hp) as [ws Ha]. destruct (assemble_plan_inv _ _ _ Hi Ha) as (pe & ma & Hinv).
  destruct (so_groups _ _ _ (pa_slots _ _ _ _ Hinv)) as (groups & ids & Hgr & Hpl).
  split; [|split].
  - intros b Hb Hm. destruct (gi_bindings _ _ Hgr b Hb Hm) as (k & g & Hgo & [i Hg]%list_elem_of_lookup_1 & Hv & Hsz).
    destruct (lookup_lt_is_Some_2 ids i) as [id Hid].
    { rewrite (pv_length _ _ _ Hpl). by eapply lookup_lt_Some. }
    destruct (group_serves _ _ _ _ _ _ b i k g id Hinv Hpl) as (a & s & Hs & _); [done|done|done|lia|done|done|].
    by exists a, s.
  - intros x (i & k & g & Hg & Hid & Hv)%(pa_materialized _ _ _ _ Hinv)%(pv_bindings _ _ _ Hpl).
    assert ((k, g) ∈ groups) as Hin by by eapply list_elem_of_lookup_2.
    destruct (gr_from _ _ _ (gi_groups _ _ Hgr k g Hin) _ Hv) as (b & Hb & Hbv & Hgo).
    destruct (group_serves _ _ _ _ _ _ b i k g x.(ms_slot) Hinv Hpl) as (a & s & Hs & Hsid);
      [done|done|congruence|by eapply binding_fits|done|done|].
    exists b, a, s. split; [done|]. split; congruence.
  - intros b a s b' a' s'. eapply served_together; [done|done|apply Hgr|by eapply planned_ids].
Qed.

Lemma values_have_slots_witness : inputs_typed ex_input /\
  exists a s, serves ex_input ex_planned.1.(rs_product) (ex_binding 2 (Materialize WramHot Slice) 10 120) a s.
Proof.
  split; [apply ex_typed|].
  apply (proj1 (@values_have_slots ex_encoding ex_input _ _ ex_typed ex_plan_arenas)); [|done].
  apply elem_of_cons. right. by left.
Defined.

(** ** Every persistent page has its two slots *)

(** The pair of a page: slots A and B in the arena of the page's stream, each a
    page of the policy's geometry at an aligned offset, and apart. *)
Definition page_pair (input : ArenaPlanInputs) (p : ArenaPlan) (b : SramPageBinding)
    (x : PersistSlotPairBinding) (a : ArenaInstance) (s t : ArenaSlot) : Prop :=
  let geometry := input.(in_policy).(persistent_page_geometry) in
  x.(ps_value) = b.(spb_binding_id) /\ x.(ps_sram_page) = b.(spb_page) /\
  a.(ar_named) = SramSequenceStatePages b.(spb_sequence_stream) /\
  (a, s) ∈ all_slots_with_arena p /\ (a, t) ∈ all_slots_with_arena p /\
  s.(sl_id) = x.(ps_slot_a) /\ s.(sl_binding_kind) = PersistentPageA b.(spb_page) b.(spb_commit_group) /\
  t.(sl_id) = x.(ps_slot_b) /\ t.(sl_binding_kind) = PersistentPageB b.(spb_page) b.(spb_commit_group) /\
  s.(sl_size_bytes) = page_size_of geometry /\ t.(sl_size_bytes) = page_size_of geometry /\
  s.(sl_byte_offset) mod geometry.(pg_alignment) = 0 /\ t.(sl_byte_offset) mod geometry.(pg_alignment) = 0 /\
  (slot_end s <= t.(sl_byte_offset) \/ slot_end t <= s.(sl_byte_offset)).

(** F-Addr-12, for one slot. *)
Lemma page_aligned `{ArenaEncoding} input r c p a s : planned input r c p -> a ∈ p.(sram_arenas) ->
  s ∈ a.(ar_slots) -> is_persistent_page s = true ->
  s.(sl_byte_offset) mod input.(in_policy).(persistent_page_geometry).(pg_alignment) = 0.
Proof.
  intros Hp Ha Hs Hk. destruct (all_pass_elim _ (pn_pass _ _ _ _ Hp)) as (_ & H12 & _).
  cbn [f_addr_12_persistent_page_header_aligned validate_address_invariants] in H12.
  unfold persistent_page_header_aligned in H12. destruct (_ =? 0); [done|]. destruct (_ || _); [done|].
  rewrite forallb_forall in H12. specialize (H12 a (proj1 (list_elem_of_In _ _) Ha)).
  rewrite forallb_forall in H12. specialize (H12 s (proj1 (list_elem_of_In _ _) Hs)).
  rewrite Hk in H12. simpl in H12. rewrite !andb_true_iff in H12. lia.
Qed.

Lemma paired `{ArenaEncoding} input r c p pe ma b x : planned input r c p -> plan_inv input p pe ma ->
  pair_of (storage_by_value input.(in_storage)) (page_size_of input.(in_policy).(persistent_page_geometry))
    pe.(pe_collected).(co_builders) b x ->
  exists a s t, page_pair input p b x a s t.
Proof.
  intros Hp Hinv (Hv & Hpg & _ & Ha & Hb). pose proof (pa_slots _ _ _ _ Hinv) as Hso.
  apply (so_mono _ _ _ Hso) in Ha, Hb. destruct Ha as (bd & Hbd & Hs0), Hb as (bd' & Hbd' & Ht0).
  assert (bd' = bd) as -> by (eapply (map_get_unique named_key); [apply (slots_builders_ok _ _ _ Hso)|done|done]).
  destruct (pa_builders _ _ _ _ Hinv _ _ Hbd) as (a & Ha & Hn & Hh).
  destruct (ho_slots _ _ Hh _ Hs0) as [o Hs], (ho_slots _ _ Hh _ Ht0) as [o' Ht].
  set (s := set_offset o _) in *. set (t := set_offset o' _) in *.
  assert (a ∈ p.(sram_arenas)) as Hsram.
  { pose proof (ao_backing _ (pa_arenas _ _ _ _ Hinv a Ha)) as Hback. rewrite Hn in Hback. simpl in Hback.
    by apply (pa_sram _ _ _ _ Hinv). }
  assert (s <> t) as Hne by by intros [=].
  exists a, s, t. unfold page_pair. split_and!; try done.
  - by apply elem_of_all_slots.
  - by apply elem_of_all_slots.
  - by eapply page_aligned.
  - by eapply page_aligned.
  - destruct (ao_apart _ (pa_arenas _ _ _ _ Hinv a Ha) s t Hs Ht Hne) as [?|[?|(r' & m & m' & Hr & _)]];
      [by left|by right|]. rewrite Hn in Hr. done.
Qed.

(** every persistent page has its two slots. After a successful stage each
    save-RAM binding whose value is persistent (its last storage binding says
    so) has a pair in the plan's bindings, with the page and commit group of
    the storage binding and slots A and B in the arena of the page's stream,
    each of the size of a page of the policy's geometry, at offsets aligned as
    it asks, and not overlapping; and every pair of the plan is one of those. *)
Theorem persistent_pages_paired `{ArenaEncoding} input r c : inputs_typed input ->
  plan_arenas input = Ok (r, c) ->
  let p := r.(rs_product) in
  (forall b si page group, b ∈ input.(in_sram).(sp_bindings) ->
     storage_by_value input.(in_storage) !! b.(spb_binding_id) = Some si ->
     si.(bi_binding).(sb_materialization) = Persist page group ->
     exists x a s t, x ∈ p.(arena_bindings).(persist_to_slot_pair) /\ page_pair input p b x a s t /\
       x.(ps_persist_page) = page /\ x.(ps_commit_group) = group) /\
  (forall x, x ∈ p.(arena_bindings).(persist_to_slot_pair) ->
     exists b a s t, b ∈ input.(in_sram).(sp_bindings) /\ page_pair input p b x a s t).
Proof.
  intros Hi Hok. cbv zeta. destruct (plan_arenas_planned _ _ _ Hok) as [p Hp].
  destruct (planned_same _ _ _ _ Hp) as (_ & Hsl & _ & Hbn). unfold page_pair. rewrite Hsl, Hbn.
  destruct (pn_assembled _ _ _ _ Hp) as [ws Ha]. destruct (assemble_plan_inv _ _ _ Hi Ha) as (pe & ma & Hinv).
  pose proof (so_persist _ _ _ (pa_slots _ _ _ _ Hinv)) as [_ Hpairs Hbs]. split.
  - intros b si page group Hb Hsi Hm. destruct (Hbs b si page group Hb Hsi Hm) as (x & Hx & Hpo).
    destruct (paired _ _ _ _ _ _ _ _ Hp Hinv Hpo) as (a & s & t & Hpp).
    exists x, a, s, t. split; [by apply (pa_pairs _ _ _ _ Hinv)|]. split; [done|].
    destruct Hpo as (_ & _ & (si' & Hsi' & Hm') & _). rewrite Hsi in Hsi'. injection Hsi' as <-.
    rewrite Hm in Hm'. by injection Hm' as <- <-.
  - intros x Hx%(pa_pairs _ _ _ _ Hinv). destruct (Hpairs x Hx) as (b & Hb & Hpo).
    destruct (paired _ _ _ _ _ _ _ _ Hp Hinv Hpo) as (a & s & t & Hpp). by exists b, a, s, t.
Qed.

Lemma persistent_pages_paired_witness : inputs_typed ex_input /\
  exists x, x ∈ ex_planned.1.(rs_product).(arena_bindings).(persist_to_slot_pair) /\ x.(ps_persist_page) = 1.
Proof.
  split; [apply ex_typed|].
  destruct (proj1 (@persistent_pages_paired ex_encoding ex_input _ _ ex_typed ex_plan_arenas)
    {| spb_binding_id := 5; spb_page := 0; spb_commit_group := 7; spb_sequence_stream := 3 |}
    (ex_binding 5 (Persist 1 7) 13 46) 1 7) as (x & _ & _ & _ & Hx & _ & Hp & _);
    [by left|by vm_compute|done|]. by exists x.
Defined.

(** ** The reports are accepted *)

(** Every failure is a list with a hard diagnostic. *)
Definition not_explained (f : failure (list ArenaDiagnostic)) : Prop :=
  match f with F_err ds => has_hard ds = false | F_panic | F_no_fuel => True end.

Lemma explained_fail {A} code prov : avoids not_explained (@fail_with A code prov).
Proof. done. Qed.

Lemma explained_check_inputs input : avoids not_explained (check_inputs input).
Proof.
  unfold check_inputs.
  apply avoids_bind; [|intros [] _; do 3 (apply avoids_bind; [by destruct (negb _)|intros [] _]); by destruct (_ =? 0)].
  unfold input_hash_mismatch_diagnostics.
  assert (forall l, match omap (fun product =>
      let recorded := hash_for_product input.(in_identity).(ai_hashes) product in
      let computed := hash_for_product input.(in_expected_hashes) product in
      if recorded =? computed then None
      else Some (diagnostic ArenaInputHashMismatch (HashMismatch (field_name product) recorded computed))) l
    with [] => True | ds => has_hard ds = true end) as Hl.
  { induction l as [|x l IH]; [done|]. simpl. by destruct (_ =? _). }
  specialize (Hl ARENA_PLAN_INPUT_PRODUCTS). destruct (omap _ _); [done|]. simpl in *. congruence.
Qed.

Lemma explained_region_loop input : avoids not_explained
  (ofold (overlay_region input)
    {| ov_slot := 0; ov_arena := 0; ov_cursor := 0; ov_total := 0; ov_arenas := [];
       ov_bindings := []; ov_honor := [] |} input.(in_overlay).(op_regions)).
Proof.
  apply avoids_ofold. intros st r _. unfold overlay_region. destruct (byte_range _ _); [|done].
  apply avoids_bind; [|done]. apply avoids_ofold. intros ms m _. unfold overlay_member. by destruct (_ <? _).
Qed.

Lemma check_reserved_hard regions count entries : forall seen d,
  check_reserved_regions regions count seen entries = Some d -> d.(ad_severity) = Hard.
Proof.
  induction entries as [|e l IH]; intros seen d; simpl; [done|].
  case_bool_decide; [by intros [= <-]|]. destruct (find _ _); [|by intros [= <-]].
  destruct (negb _); [by intros [= <-]|]. apply IH.
Qed.

Lemma overlay_input_hard input d : validate_overlay_reservation_input input = Some d -> d.(ad_severity) = Hard.
Proof.
  unfold validate_overlay_reservation_input. destruct (negb _); [by intros [= <-]|].
  destruct (check_reserved_regions _ _ _ _) eqn:Hc; [intros [= <-]; by eapply check_reserved_hard|].
  destruct (negb _); [by intros [= <-]|done].
Qed.

(** No group is empty, so placing groups does not panic. *)
Lemma groups_nonempty storage groups : ofold add_to_group [] storage = Ok groups ->
  forall k g, (k, g) ∈ groups -> g.(mg_values) <> [].
Proof.
  intros Hf. apply (ofold_inv' (fun gs => map_sorted group_key gs /\
    forall k g, (k, g) ∈ gs -> g.(mg_values) <> [])) in Hf; [by apply Hf|split; [constructor|set_solver]|].
  intros b t t' _ [Hs Hg]. unfold add_to_group. destruct (sb_materialization _) as [|class l|]; try by intros [= <-].
  destruct (_ || _); [done|]. destruct (arena_for _ _) as [n|]; [|done].
  destruct (match map_get _ _ _ with Some _ => _ | None => _ end); [done|]. intros [= <-].
  split; [by apply (map_alter_sorted group_key)|].
  intros k g Hin. apply (elem_of_map_alter group_key) in Hin; [|done].
  destruct Hin as [[Hin _]|[= -> ->]]; [by eapply Hg|]. destruct (map_get _ _ _) as [g|]; simpl; [|done].
  by destruct (mg_values g).
Qed.

Lemma explained_values input c : avoids not_explained (add_materialized_slots input c).
Proof.
  apply avoids_bind.
  - apply avoids_ofold. intros gs b _. unfold add_to_group. destruct (sb_materialization _); [done| |done].
    destruct (_ || _); [done|]. destruct (arena_for _ _); [|done].
    by destruct (match map_get _ _ _ with Some _ => _ | None => _ end).
  - intros groups Hg. apply avoids_ofold. intros s [k g] Hin. pose proof (groups_nonempty _ _ Hg k g Hin) as Hne.
    unfold place_group. simpl. destruct (sort_by Z.leb (mg_values g)) eqn:Hs; [|done].
    exfalso. apply Hne. pose proof (sort_by_perm Z.leb g.(mg_values)) as Hp. rewrite Hs in Hp.
    by apply Permutation_nil_l in Hp.
Qed.

Lemma explained_slots input next : avoids not_explained (collect_slots input next).
Proof.
  unfold collect_slots. apply avoids_bind; [done|]. intros c _. apply avoids_bind; [done|]. intros c' _.
  apply avoids_bind.
  - unfold add_persistent_slots. destruct (_ || _); [done|]. apply avoids_ofold. intros s b _.
    unfold add_persistent_binding. destruct (match pe_page_stream s !! _ with Some _ => _ | None => _ end); [done|].
    destruct (storage_by_value _ !! _); [|done]. by destruct (sb_materialization _).
  - intros pe _. apply avoids_bind; [apply explained_values|done].
Qed.

Lemma explained_finish input st bs : avoids not_explained (ofold (finish_arena input) st bs).
Proof.
  apply avoids_ofold. intros s [n b] _. unfold finish_arena. apply avoids_bind; [|done].
  unfold finalize_builder. apply avoids_bind; [|intros h _; apply avoids_bind].
  - case_bool_decide; [|done]. unfold place_continuation_header. destruct (filter _ _); [done|]. by destruct (_ || _).
  - apply avoids_ofold. intros t sl _. unfold place_slot. destruct (is_continuation_header sl); [done|].
    by destruct (try_from_u _ _).
  - intros placed _. destruct (take_range _ _) as [[start cursor]|]; [|done]. by destruct (_ <? _).
Qed.

Lemma explained_assemble input : avoids not_explained (assemble_plan input).
Proof.
  unfold assemble_plan. apply avoids_bind.
  - destruct (validate_overlay_reservation_input input) as [d|] eqn:Hd; [|done]. simpl.
    rewrite (overlay_input_hard _ _ Hd). done.
  - intros [] _. apply avoids_bind; [apply explained_region_loop|]. intros ov _.
    apply avoids_bind; [by destruct (negb _)|]. intros [] _.
    apply avoids_bind; [apply explained_slots|]. intros sl _.
    apply avoids_bind; [apply explained_finish|done].
Qed.

Lemma json_surface_hard text d : validate_arena_plan_json_surface text = Some d -> d.(ad_severity) = Hard.
Proof.
  unfold validate_arena_plan_json_surface. destruct (find _ _); [by intros [= <-]|].
  destruct (find _ _); [by intros [= <-]|]. destruct (_ || _); [by intros [= <-]|done].
Qed.

Lemma explained_plan `{ArenaEncoding} input : avoids not_explained (plan_arenas input).
Proof.
  unfold plan_arenas. apply avoids_bind; [apply explained_check_inputs|]. intros [] _.
  apply avoids_bind; [apply explained_assemble|]. intros [p ws] _. cbn [fst snd].
  apply avoids_bind.
  { destruct (validate_arena_plan_json_surface _) as [d|] eqn:Hd; [|done]. simpl. by rewrite (json_surface_hard _ _ Hd). }
  intros [] _. apply avoids_bind; [by destruct (negb _)|]. intros [] _.
  apply avoids_bind; [by destruct (continuation_witness p)|]. intros cw _.
  apply avoids_bind; [by destruct (harness_no_leak_certificate p)|]. intros hn _.
  apply avoids_bind; [by destruct (hash_arena_plan p)|]. intros h _.
  apply avoids_bind; [by destruct (hash_arena_cert _)|done].
Qed.

Lemma continuation_sized_canonical input p w : continuation_sized input p = true ->
  continuation_witness p = Some w -> continuation_tail_slots_are_canonical w = true.
Proof.
  unfold continuation_sized. destruct (List.filter _ _) as [|a [|]]; [done| |done].
  destruct (_ || _); [done|]. intros H Hw. rewrite Hw in H.
  destruct (total_continuation_bytes _); [|done]. by apply andb_true_iff in H as [[_ ?]%andb_true_iff _].
Qed.

(** The witness of a plan has the layout of the ABI. *)
Lemma continuation_witness_abi p w : continuation_witness p = Some w ->
  continuation_tail_slots_are_canonical w = true -> arena_cert_continuation_matches_abi w = true.
Proof.
  unfold continuation_witness. destruct (find _ p.(wram_arenas)) as [a|]; [|done]. cbn [mbind option_bind].
  replace (try_from_u U16 header_size_bytes) with (Some 32) by done. cbn [mbind option_bind].
  destruct (find _ a.(ar_slots)) as [h|]; [|done]. cbn [mbind option_bind].
  destruct (_ || _); [done|]. destruct (tail_witnesses _ _ _) as [tail|]; [|done]. cbn [mbind option_bind].
  set (tail_end := default 32 _). destruct (_ || _); [done|].
  destruct (try_from_u U16 (tail_end - 32)) as [n|] eqn:Hn; [|done]. cbn [mbind option_bind].
  apply try_from_u_Some in Hn as [Hn ->].
  destruct (total_continuation_bytes _) as [total|] eqn:Ht; [|done]. cbn [mbind option_bind].
  destruct (try_from_u U16 total) as [total'|] eqn:Ht'; [|done]. cbn [mbind option_bind].
  apply try_from_u_Some in Ht' as [Ht' ->]. destruct (negb (total =? _)) eqn:Hlen; [done|].
  intros [= <-] Hcan. apply negb_false_iff, Z.eqb_eq in Hlen.
  unfold arena_cert_continuation_matches_abi.
  cbn [cw_abi_symbol cw_header_size_bytes cw_byte_range cw_total_size_bytes cw_tail_size_bytes].
  apply checked_add_Some in Ht as Hadd. unfold header_size_bytes in Hadd. destruct Hadd as [_ Hadd].
  rewrite String.eqb_refl, <- Hlen, !Z.eqb_refl, Ht, Hcan, Z.eqb_refl. simpl.
  rewrite (proj2 (Z.ltb_ge total 32)) by lia. by rewrite (proj2 (Z.eqb_eq total (32 + _))) by lia.
Qed.

Lemma map_sorted_ascending (m : list (NamedArena * unit)) : map_sorted named_key m -> ascending (map fst m) = true.
Proof.
  induction 1 as [|[a []] m Hm IH Hall]; [done|]. destruct m as [|[b []] m]; [done|].
  change (negb (lex_leb (named_key b) (named_key a)) && ascending (map fst ((b, ()) :: m)) = true).
  rewrite IH. rewrite Forall_cons in Hall. destruct Hall as [Hab _].
  apply lex_leb_false in Hab. simpl in Hab. by rewrite Hab.
Qed.

Lemma names_inserted (data : list ArenaInstance) : forall m, map_sorted named_key m ->
  (forall x, x ∈ m -> is_certified_data x.1 = true) ->
  (forall a, In a data -> is_certified_data a.(ar_named) = true) ->
  let m' := fold_left (fun m a => name_insert a.(ar_named) m) data m in
  map_sorted named_key m' /\ forall x, x ∈ m' -> is_certified_data x.1 = true.
Proof.
  induction data as [|a data IH]; intros m Hs Hm Hd; [done|]. simpl. apply IH.
  - by apply (map_alter_sorted named_key).
  - intros x Hx. unfold name_insert in Hx. apply (elem_of_map_alter named_key) in Hx; [|done].
    destruct Hx as [[Hx _]| ->]; [by apply Hm|]. apply Hd. by left.
  - intros b Hb. apply Hd. by right.
Qed.

Lemma harness_certificate_well_formed p h : harness_no_leak_certificate p = Some h ->
  arena_cert_harness_no_leak_is_well_formed h = true.
Proof.
  unfold harness_no_leak_certificate. destruct (unique_sram_arena p SramHarnessCommandBlock) as [c|]; [|done].
  cbn [mbind option_bind]. destruct (unique_sram_arena p SramHarnessResultBlock) as [r|]; [|done]. cbn [mbind option_bind].
  destruct (_ || _) eqn:Hid; [done|]. apply orb_false_iff in Hid as [Hid _].
  destruct (existsb _ _); [done|]. intros [= <-].
  unfold arena_cert_harness_no_leak_is_well_formed. cbn [hc_command_block_arena hc_result_block_arena hc_disjoint_from].
  set (data := List.filter _ _).
  destruct (names_inserted data []) as [Hs Hm]; [constructor|by intros x ?%elem_of_nil| |].
  { intros a Ha. by apply filter_In in Ha as [_ ?]. }
  rewrite Hid, (map_sorted_ascending _ Hs). simpl. apply forallb_forall.
  intros n Hn. apply list_elem_of_In, (list_elem_of_fmap_1 fst) in Hn as (x & -> & Hx). by apply Hm.
Qed.

(** When a successful stage's certificate is accepted. *)
Lemma planned_cert_valid `{ArenaEncoding} input r c p : planned input r c p ->
  validate_arena_cert_body c Report_Passed = Ok () <->
  all_bound input.(in_identity).(ai_hashes) = true /\
  c.(ce_arena_plan_self_hash) <> 0 /\ c.(ce_arena_cert_self_hash) <> 0.
Proof.
  intros [_ _ Hpass Hinv Hcw Hhn Hh [Hv Hd]]. unfold validate_arena_cert_body.
  rewrite Hinv, Hpass, Hh, Hv, Hd, (harness_certificate_well_formed _ _ Hhn).
  rewrite (continuation_witness_abi _ _ Hcw).
  2:{ eapply continuation_sized_canonical; [|done]. by apply (all_pass_elim _ Hpass). }
  rewrite bool_decide_eq_true_2 by done. cbn [has_hard existsb negb].
  rewrite String.eqb_refl. simpl. rewrite !andb_true_r.
  destruct (all_bound _); simpl; [|by split; [|intros [? _]]].
  destruct (Z.eqb_spec c.(ce_arena_plan_self_hash) 0), (Z.eqb_spec c.(ce_arena_cert_self_hash) 0); simpl;
    intuition congruence.
Qed.

(** the stage always ends, and its reports are accepted. For any inputs
    and any encoding there is an output and no panic; the report made of it
    passes the report's own validation, success and failure alike (a failure
    has a hard diagnostic); and an output has a certificate exactly when it
    succeeded, which passes its validation exactly when no input hash is zero
    and neither are the hashes of the plan and of the certificate. *)
Theorem arena_reports_accepted `{ArenaEncoding} input : exists output, build_arena_plan input = Ok output /\
  (let report := arena_plan_report output in validate_arena_plan_report_body report.2 report.1 = Ok ()) /\
  match output.(ao_cert) with
  | None => output.(ao_outcome) = Failed /\ has_hard output.(ao_diagnostics) = true
  | Some cert =>
      output.(ao_outcome) = Succeeded /\
      (validate_arena_cert_body cert Report_Passed = Ok () <->
       all_bound input.(in_identity).(ai_hashes) = true /\
       cert.(ce_arena_plan_self_hash) <> 0 /\ cert.(ce_arena_cert_self_hash) <> 0)
  end.
Proof.
  unfold build_arena_plan. pose proof (explained_plan input) as He.
  destruct (plan_arenas input) as [[r c]|ds| |] eqn:Hp; simpl in He; [| |by destruct He|by destruct He].
  - destruct (plan_arenas_planned _ _ _ Hp) as [p Hpl]. eexists. split; [done|]. split; [done|].
    split; [done|]. by eapply planned_cert_valid.
  - apply not_false_iff_true in He. eexists. split; [done|]. split; [|by split].
    unfold validate_arena_plan_report_body, arena_plan_report. simpl. by rewrite He.
Qed.
