(* ===== verification/ArenaTyped.v ===== *)
(** * Arena planning: the numbers of a plan fit their types

    Ids, offsets, sizes, pages and values are kept at the width that their
    types give them, through collecting, placing and the id counters, which
    saturate; and three behaviours of the checks on concrete inputs. *)

From S2P Require Import Prelude Numeric KnobLattice KnobDelta Refinement KnobResolve RangeCert Arena ArenaCheck ArenaFacts ArenaPlanFacts ArenaTheorems.

Definition kind_typed (k : SlotBindingKind) : Prop :=
  match k with
  | MaterializedValue | Kind_RuntimeFixed _ => True
  | PersistentPageA page group | PersistentPageB page group => 0 <= page < U8 /\ 0 <= group < U32
  | Kind_OverlayMember overlay _ => 0 <= overlay < U32
  | Kind_TraceRing ring => 0 <= ring < U32
  end.

Definition ref_typed (r : SlotBindingRef) : Prop :=
  match r with
  | Ref_Value value => 0 <= value < U32
  | Ref_PersistPage value page => 0 <= value < U32 /\ 0 <= page < U32
  | Ref_OverlayMember overlay _ => 0 <= overlay < U32
  | Ref_RuntimeFixed _ => True
  | Ref_TraceRing ring => 0 <= ring < U32
  end.

(** All of a slot but where it is placed. *)
Definition slot_labels (s : ArenaSlot) : Prop :=
  0 <= s.(sl_id) < U32 /\ (forall alias, s.(sl_alias_class_id) = Some alias -> 0 <= alias < U32) /\
  kind_typed s.(sl_binding_kind) /\ ref_typed s.(sl_binding_ref).

Definition slot_typed (s : ArenaSlot) : Prop :=
  slot_labels s /\ 0 <= s.(sl_byte_offset) < U16 /\ 0 <= s.(sl_size_bytes) < U16.

Definition arena_typed (a : ArenaInstance) : Prop :=
  0 <= a.(ar_id) < U32 /\ 0 <= a.(ar_byte_range).(br_start) < U16 /\ 0 <= a.(ar_byte_range).(br_len) < U16 /\
  0 <= a.(ar_alignment) < U16 /\ forall s, s ∈ a.(ar_slots) -> slot_typed s.

Lemma next_id_typed n : 0 <= n < U32 -> 0 <= next_id n < U32.
Proof. unfold next_id, saturating_add. lia. Qed.

(** ** Collected slots *)

Record labelled (c : Collected) : Prop := {
  lb_sorted : map_sorted named_key c.(co_builders);
  lb_next : 0 <= c.(co_next_slot) < U32;
  lb_slots : forall n s, slot_in n s c.(co_builders) -> slot_labels s;
}.

Lemma labelled_extend c n backing slots next : labelled c -> 0 <= next < U32 ->
  (forall s, s ∈ slots -> slot_labels s) ->
  labelled {| co_builders := extend_builder n backing slots c.(co_builders); co_next_slot := next |}.
Proof.
  intros [Hs Hn Hl] Hnext Hsl. split; [by apply (map_alter_sorted named_key)|done|].
  intros n' s [H|[_ H]]%slot_in_extend; [by eapply Hl|by apply Hsl|done].
Qed.

Lemma labelled_runtime n backing kind size c : labelled c -> labelled (add_runtime_slot n backing kind size c).
Proof.
  intros Hc. apply labelled_extend; [done|apply next_id_typed, Hc|].
  intros s ->%list_elem_of_singleton. split; [apply Hc|done].
Qed.

Lemma labelled_fixed next c c' : 0 <= next < U32 ->
  add_continuation_header_slot {| co_builders := []; co_next_slot := next |} = Ok c ->
  add_runtime_harness_slots c = Ok c' -> labelled (add_runtime_hram_slots c').
Proof.
  intros Hn [= <-] [= <-]. unfold add_runtime_hram_slots. cbn [fold_left fst snd].
  do 8 apply labelled_runtime. split; [constructor|done|]. intros n s (b & []%elem_of_nil & _).
Qed.

Lemma labelled_persist input c pe : inputs_typed input -> labelled c ->
  add_persistent_slots input c = Ok pe -> labelled pe.(pe_collected).
Proof.
  intros Hi Hc. unfold add_persistent_slots. destruct (_ || _); [done|].
  apply (ofold_inv' (fun s => labelled s.(pe_collected))); [done|].
  intros b s s' Hb%list_elem_of_In Hs. apply (it_sram _ Hi) in Hb. unfold add_persistent_binding.
  destruct (match pe_page_stream s !! _ with Some _ => _ | None => _ end); [done|].
  destruct (storage_by_value _ !! _); [|done]. destruct (sb_materialization _); intros [= <-]; [done|done|].
  pose proof (lb_next _ Hs) as Hnext. pose proof (next_id_typed _ Hnext).
  apply labelled_extend; [done|by do 2 apply next_id_typed|].
  destruct Hb as (? & ? & ? & ?).
  intros t [->|[->|[]%elem_of_nil]%elem_of_cons]%elem_of_cons; split_and!; simpl; done || lia.
Qed.

Lemma group_labels input groups k g v : inputs_typed input -> groups_inv input.(in_storage) groups ->
  (k, g) ∈ groups -> v ∈ g.(mg_values) -> 0 <= k.2 < U32 /\ 0 <= v < U32.
Proof.
  intros Hi Hg Hin Hv. destruct (gr_from _ _ _ (gi_groups _ _ Hg k g Hin) v Hv) as (b & Hb & <- & Hgo).
  destruct (group_of_named _ _ _ Hgo) as [_ ->]. by destruct (it_storage _ Hi b Hb) as (_ & ? & ? & _).
Qed.

Lemma labelled_values input c ma : inputs_typed input -> labelled c ->
  add_materialized_slots input c = Ok ma -> labelled ma.(ma_collected).
Proof.
  intros Hi Hc H. unfold add_materialized_slots in H. apply obind_Ok in H as (groups & Hg & H).
  apply groups_ok in Hg; [|done].
  revert H. apply (ofold_inv' (fun s => labelled s.(ma_collected))); [done|].
  intros [k g] s s' Hin%list_elem_of_In Hs. unfold place_group. simpl.
  destruct (sort_by Z.leb g.(mg_values)) as [|v vs] eqn:Hv; [done|]. intros [= <-].
  destruct (group_labels _ _ k g v Hi Hg Hin) as [Hk Hval].
  { apply (elem_of_sort_by Z.leb). rewrite Hv. by left. }
  apply labelled_extend; [done|apply next_id_typed, Hs|].
  intros t ->%list_elem_of_singleton. split_and!; simpl; first [apply Hs|done|lia|by intros alias [= <-]].
Qed.

(** ** Overlay regions and finished arenas *)

Definition ids_typed (a : ArenaInstance) : Prop :=
  0 <= a.(ar_id) < U32 /\ 0 <= a.(ar_alignment) < U16 /\ forall s, s ∈ a.(ar_slots) -> slot_labels s.

Definition overlay_labelled (st : OverlayState) : Prop :=
  0 <= st.(ov_slot) < U32 /\ 0 <= st.(ov_arena) < U32 /\ forall a, a ∈ st.(ov_arenas) -> ids_typed a.

Lemma overlay_labels input st r st' : inputs_typed input -> region_typed r -> overlay_labelled st ->
  overlay_region input st r = Ok st' -> overlay_labelled st'.
Proof.
  intros Hi Hr (Hs & Hn & Ha). unfold overlay_region. destruct (byte_range _ _); [|done].
  intros H. apply obind_Ok in H as ([next slots] & Hms & H). injection H as <-.
  apply (ofold_inv' (fun m => 0 <= m.1 < U32 /\ forall s, s ∈ m.2 -> slot_labels s)) in Hms;
    [|split; [done|by intros s ?%elem_of_nil]|].
  - destruct Hms as [Hnext Hsl]. cbn [fst snd] in *. pose proof (next_id_typed _ Hn).
    split_and!; cbn [ov_slot ov_arena ov_arenas]; [lia|lia|lia|lia|].
    intros a [Hin| ->%list_elem_of_singleton]%elem_of_app; [by apply Ha|]. pose proof (it_alignment _ Hi). split_and!; simpl; done || lia.
  - intros m [n l] [n' l'] _ [Hnx Hl]. unfold overlay_member. destruct (_ <? _); [done|]. intros [= <- <-].
    cbn [fst snd] in *. split; [by apply next_id_typed|].
    destruct Hr as (? & _ & _).
    intros s [Hin| ->%list_elem_of_singleton]%elem_of_app; [by apply Hl|]. split_and!; simpl; done || lia.
Qed.

Lemma finish_labels input n b st st' : inputs_typed input -> (forall s, s ∈ b.(bu_slots) -> slot_collected n s) ->
  b.(bu_backing) = backing_for n -> (forall s, s ∈ b.(bu_slots) -> slot_labels s) ->
  0 <= st.(fi_arena) < U32 /\ (forall k a, a ∈ arenas_of k st -> ids_typed a) ->
  finish_arena input st (n, b) = Ok st' ->
  0 <= st'.(fi_arena) < U32 /\ (forall k a, a ∈ arenas_of k st' -> ids_typed a).
Proof.
  intros Hi Hc Hback Hl [Hn Ha]. unfold finish_arena. intros H.
  apply obind_Ok in H as ([a c] & Hf & H). injection H as <-. cbn [fst snd] in *.
  assert (ar_alignment a = input.(in_policy).(arena_alignment_default)) as Hal.
  { unfold finalize_builder in Hf. apply obind_Ok in Hf as (h & _ & Hf). apply obind_Ok in Hf as (pl & _ & Hf).
    destruct (take_range _ _) as [[? ?]|]; [|done]. destruct (_ <? _); [done|]. by injection Hf as <- _. }
  destruct (finalize_ok _ _ _ _ _ _ _ Hi Hc Hback Hf) as (_ & Hh & _ & Hid & _).
  assert (ids_typed a) as Hta.
  { split_and!; [lia|lia|rewrite Hal; apply Hi|rewrite Hal; apply Hi|].
    intros t Ht. destruct (ho_only _ _ Hh t Ht) as (s & Hs & ->). by apply (Hl s). }
  split; [by apply next_id_typed|].
  intros k x Hx. assert (x ∈ arenas_of k st \/ x = a) as [Hk| ->]; [|by eapply Ha|done].
  destruct k; simpl in *; case_bool_decide; auto; apply elem_of_app in Hx as [?|?%list_elem_of_singleton]; auto.
Qed.

Lemma assembled_labels input p ws : inputs_typed input -> assemble_plan input = Ok (p, ws) ->
  forall a, a ∈ all_arenas p -> ids_typed a.
Proof.
  intros Hi. unfold assemble_plan. intros H.
  apply obind_Ok in H as ([] & _ & H). apply obind_Ok in H as (ov & Hov & H).
  apply obind_Ok in H as ([] & _ & H). apply obind_Ok in H as ([pe ma] & Hsl & H).
  apply obind_Ok in H as (fi & Hfi & H). injection H as <- _. cbn [fst snd] in *.
  apply (ofold_inv' overlay_labelled) in Hov; [|split_and!; simpl; [lia..|by intros ? ?%elem_of_nil]|].
  2:{ intros r st st' Hr%list_elem_of_In. apply (overlay_labels input); [done|by apply (it_regions _ Hi)]. }
  destruct Hov as (Hos & Hoa & Hoas).
  pose proof (slots_builders_ok _ _ _ (collect_slots_ok _ _ _ Hi Hsl)) as Hbo. cbn [fst snd] in Hbo.
  assert (labelled ma.(ma_collected)) as Hlab.
  { unfold collect_slots in Hsl. apply obind_Ok in Hsl as (c & Hc & Hsl). apply obind_Ok in Hsl as (c' & Hc' & Hsl).
    apply obind_Ok in Hsl as (pe' & Hpe & Hsl). apply obind_Ok in Hsl as (ma' & Hma & Hsl). injection Hsl as <- <-.
    eapply labelled_values; [done| |done]. eapply labelled_persist; [done| |done]. exact (labelled_fixed _ _ _ Hos Hc Hc'). }
  apply (ofold_inv' (fun st => 0 <= st.(fi_arena) < U32 /\ (forall k a, a ∈ arenas_of k st -> ids_typed a))) in Hfi.
  - destruct Hfi as [_ Hfi]. intros a Ha. apply (arenas_of_plan fi) in Ha as [k Hk]; [by eapply Hfi|done..].
  - split; [done|]. intros [] a; simpl; [apply Hoas|by intros ?%elem_of_nil..].
  - intros [n b] st st' Hin%list_elem_of_In. apply finish_labels; [done| |by apply (bo_named _ Hbo n b)|];
      intros s Hs; [apply (bo_slots _ Hbo)|apply (lb_slots _ Hlab n)]; by exists b.
Qed.



(** ** Three behaviours of the checks *)

(** A value of the session that does not fill its last alignment unit: the
    record's length is rounded up, its slots' end is not, and the plan fails. *)
Lemma unaligned_session_value_fails :
  @plan_arenas ex_encoding (ex_inputs 8192 30 100)
  = Err (policy_diagnostic ArenaCertAddressInvariantFailed "address_invariants"
           "one or more F-Addr invariants are false") /\
  is_ok (@plan_arenas ex_encoding (ex_inputs 8192 32 100)) = true.
Proof. by vm_compute. Qed.

(** F-Addr-8 measures a slot from the start of its arena: with windows of 128
    bytes a plan passes whose cold-spill slot covers addresses 224 to 323. *)
Lemma window_crossed_unnoticed :
  match @plan_arenas ex_encoding (ex_inputs 128 32 100) with
  | Ok (r, _) =>
      existsb (fun x => bool_decide (x.1.(ar_named) = SramColdSpill)
                        && (slot_address x.1 x.2 =? 224) && (slot_limit x.1 x.2 =? 324))
        (all_slots_with_arena r.(rs_product)) = true
  | _ => False
  end.
Proof. by vm_compute. Qed.

(** A slot that several values share refers to the smallest of them only. *)
Lemma aliased_value_unreferenced :
  match @plan_arenas ex_encoding ex_input with
  | Ok (r, _) =>
      map (fun v => zlen (List.filter (fun s => bool_decide (s.(sl_binding_ref) = Ref_Value v))
                            (all_slots r.(rs_product)))) [1; 2; 3] = [1; 0; 1]
  | _ => False
  end.
Proof. by vm_compute. Qed.
